(* ===== verification/_CoqProject ===== *)
-Q . S2P
Prelude.v
GoNet.v
GoIP.v
Ipnet.v
IpnetProps.v
Placement.v
Models.v
GoText.v
Store.v
Hostreport.v
HostNorm.v
MemNet.v
MemDev.v
MemCat.v
MemScan.v
HostTx.v
MemInv.v
HostTxProps.v
StoreReach.v
Events.v
Authz.v
Addresses.v
AddressProps.v
Forest.v
Snmpcred.v
Json.v
Sealed.v
AuditLog.v
Subnets.v
SubnetProps.v
Vlans.v
Devices.v
Groups.v
Arpcfg.v
Dnscfg.v
Statistics.v
Locations.v
LocationProps.v
StoreProps.v
ArpPlan.v
ArpPlanProps.v
Snmp.v
SnmpProps.v
Scan.v
ScanProps.v
ScanQueue.v
ScanRun.v
ScanExamples.v
Taskexec.v
HwChanges.v
HostPlan.v
Kvm.v
KvmProps.v
Warden.v
Ipmi.v
Bmc.v
Power.v
PowerProps.v
Backup.v
BackupProps.v
BackupRound.v
HostSync.v
HostPlanProps.v
HostSyncProps.v
HostApplyProps.v
HostReflect.v
HostPoll.v
HostAdmin.v
HostNormProps.v
HostExamples.v
PortLink.v
PortLinkProps.v
CorrelateProps.v
PortLinkExamples.v
Stream.v
StreamProps.v
StreamOrder.v
StreamExamples.v
