(* ===== verification/Prelude.v ===== *)
(** * go-tangra-ipam: a verification library

    go-tangra-ipam is a multi-tenant IP address management service written in
    Go: subnets, addresses, devices, VLANs, locations and groups of a tenant in
    a store; services that validate and write them; a scanner that discovers
    hosts over ICMP, TCP, SNMP and ARP; a host sync that applies the reports
    inventory agents send; the attribution of hosts to switch ports; power
    control and web consoles of servers' management controllers; a realtime
    event hub, an audit log, credential sealing and backups.  This library is a
    shallow embedding of that code with the theorems that make it correct.

    ** How the program is modelled

    One Record per Go struct (with its zero value), one definition per function
    or method, under the Go name where Rocq allows it.  Stateful code runs in
    the state-and-error monad [M] of Store.v over a [World]: the tables of the
    in-memory store, the identifiers and clock readings drawn so far, and the
    published events.  A store method holds the store's mutex for its whole
    body, so one method is one atomic action; errors are values of one
    inductive type, and wrapping keeps the error that errors.Is compares.
    Concurrent components (audit writer, scan queue, realtime hub, console
    manager) are transition systems whose steps are the code's critical
    sections or single store calls, so that a theorem over reachable states covers every
    interleaving.  Integers are [Z] with the wrap-around written out where the
    code can overflow; addresses are numbers with their family; strings are
    byte strings.  Code outside the repository is a parameter: the random
    source, the clock and Unicode tables ([Env]), AES-GCM ([AEAD] with its
    documented laws), SHA-256 and JSON encoding of a hardware profile, the
    SNMP session, the IPMI library, the answers of a BMC's web UI, the remote
    calls of warden, the inventory service, DNS and probe answers.  A call that
    waits for the network is an [Ext]: it may also change the world, because
    other handlers run meanwhile.

    ** Files

    Prelude.v has the results, the tactics, the hint database [ipam] and the
    generic lemmas; GoNet.v, GoIP.v, GoText.v and Json.v model what the code
    uses of Go's net, netip, utf8, path, time and json packages.

    - Addresses and blocks (src/internal/ipnet): Ipnet.v, Placement.v;
      IpnetProps.v.
    - Data and store (src/internal/store, src/internal/memstore): Models.v,
      Store.v, MemNet.v, MemDev.v, MemCat.v, MemScan.v, HostTx.v (the host-sync
      transaction); MemInv.v, HostTxProps.v, StoreReach.v, StoreProps.v.
    - Access, events and audit (src/internal/authz, events, audit): Authz.v,
      Events.v, AuditLog.v.
    - Services over the store (src/internal/addresses, subnets, locations,
      vlans, devices, groups, arpcfg, dnscfg, stats): Addresses.v, Subnets.v,
      Locations.v, Vlans.v, Devices.v, Groups.v, Arpcfg.v, Dnscfg.v,
      Statistics.v; AddressProps.v, SubnetProps.v, LocationProps.v, and
      Forest.v for the parent hierarchies they share.
    - Credentials (src/internal/snmpcred, sealed): Snmpcred.v, Sealed.v.
    - Scanning (src/internal/scan, src/internal/scan/snmp, arpplan, taskexec):
      Scan.v, Snmp.v, ArpPlan.v, Taskexec.v; ScanProps.v, ScanQueue.v,
      ScanRun.v, SnmpProps.v, ArpPlanProps.v, ScanExamples.v.
    - Host reports (src/internal/hostreport, hostplan, hostsync, invclient):
      Hostreport.v, HostNorm.v, HwChanges.v, HostPlan.v, HostSync.v,
      HostAdmin.v; HostNormProps.v, HostPlanProps.v, HostSyncProps.v,
      HostApplyProps.v, HostReflect.v, HostPoll.v, HostExamples.v.
    - Switch ports (src/internal/portlink): PortLink.v; PortLinkProps.v,
      CorrelateProps.v, PortLinkExamples.v.
    - Out-of-band management (src/internal/kvm, warden, ipmi, bmc and the
      routes of src/internal/httpapi/power.go and bmc.go): Kvm.v, Warden.v,
      Ipmi.v, Bmc.v, Power.v; KvmProps.v, PowerProps.v.
    - Backup (src/internal/backup): Backup.v; BackupProps.v, BackupRound.v.
    - Realtime events (src/internal/stream): Stream.v; StreamProps.v,
      StreamOrder.v, StreamExamples.v.

    ** What the theorems show

    - Allocation: the address handed out is the lowest usable one, from the
      requested start on, that is neither excluded nor stored, inserted once,
      and the retry loop ends, for CIDRs that are not IPv4-mapped
      ([FirstFree_lowest], [AllocateNext_lowest], [BulkAllocate_lowest]);
      bulk allocation is iterated allocation; subdivision tiles a block;
      enumeration is exact and bounded; placement is longest-prefix match.
    - Store: every state reachable by any sequence of its methods satisfies
      the constraints the store enforces, those MemInv.v lists
      ([store_integrity]); a claim hands out due jobs once and in order.
    - Subnets and locations: which blocks are accepted, what creating and
      splitting store and why a block is skipped, that the location hierarchy
      stays acyclic and that the tree shows every place.
    - Credentials: inheritance finds the nearest ancestor, opening a sealed
      blob gives back what was sealed, no secret key reaches an audit row.
    - Scanning: no job is run by two workers and a finished job is never run
      again, with the handlers and the worker interleaved at every call on the
      job table; one active scan per subnet as long as the checks are not
      overtaken ([scan_queue_safe]); what starting, completing (without SNMP)
      and retrying do exactly, what a scheduled scan adds and reports,
      well-formedness of what SNMP discovery returns, and the ARP phase end to
      end as a refinement of the provenance rules.
    - Host sync: a normalised report is well formed; applying one is all or
      nothing and leaves exactly what the report says; a poll's watermark
      never passes a failed host.
    - Switch ports: the ranking and the store after a correlation.
    - Consoles and power: the logins made on BMCs are those logged out and
      those sessions still have, and every start token is used at most once,
      under any interleaving; a power command reaches a BMC only through the
      gate and is audited ([PostPower_gated]).
    - Backup: export followed by import is a round trip; skip mode never
      touches a row the tenant has, members of groups included as long as the
      file reuses none of their ids.
    - Hub and audit writer: limits, order, isolation of tenants; the writer
      takes every accepted row once and in order, and stores those the store
      does not refuse.  Some theorems show defects: two concurrent starts can
      leave two active scans of a subnet ([start_race]), an import in skip mode
      can take a member from its group ([skip_moves_member]), a replay that
      overflows its buffer loses events, a close during a flush leaves the
      writer looping, a circular event log never ends.

    ** Fuel and bounds

    A loop that is not structural takes fuel, and a theorem or the use of the
    fuel at a computed size shows that it is enough: the allocation retry gives
    up after its own bound of lost races, and passes over at most one address
    per round below a requested start; paging loops need one round per row
    and one more, because a full page advances the cursor; walks up a parent
    chain visit a new row each round; the credential walk is bounded by
    [MaxDepth] and the cycle guard by the code's 256; the event log needs one
    round per 16-bit record id unless the BMC's links are circular.

    ** Not modelled, and why

    The PostgreSQL repository (src/internal/repo/repodb) is SQL text run by a
    database: the in-memory store with the same interface stands for it.  The
    gRPC front end and the other HTTP handlers copy fields between messages
    (generated or JSON) and the services' records.  Sockets (ICMP and TCP
    probing), the proxying of console HTTP and WebSocket traffic with its
    injected script, the remote inventory client, process wiring,
    configuration, the manifest and logs are input and output.  The list-query
    pages are computed by a third-party library.  Reading the key-encryption
    key, decoding IPMI sensor and log records and the call logs of the test
    doubles are left out. *)

From Stdlib Require Export ZArith Ascii String Lia.
From Stdlib Require DecimalString.
From stdpp Require Export base gmap strings list sorting.

#[global] Open Scope Z_scope.

Declare Scope ipam_scope.
Delimit Scope ipam_scope with ipam.
#[global] Open Scope ipam_scope.

Create HintDb ipam.

(** ** Results: a Go pair [(value, error)] *)

Inductive result (E A : Type) : Type :=
| Ok (a : A)
| Err (e : E).
Arguments Ok {E A} a.
Arguments Err {E A} e.

#[export] Instance result_eq_dec {E A : Type} `{EqDecision E} `{EqDecision A} :
  EqDecision (result E A).
Proof. solve_decision. Defined.

(** Go's [if err != nil { return zero, g(err) }] around a call. *)
Definition map_err {E E' A : Type} (g : E → E') (r : result E A) : result E' A :=
  match r with Ok a => Ok a | Err e => Err (g e) end.

Notation "'let*' x := r 'in' k" :=
  (match r with Ok x => k | Err e => Err e end)
  (at level 10, x pattern, k at level 200) : ipam_scope.

(** ** Tactics of the development *)

(** Split every boolean conjunction/disjunction hypothesis and turn the
    arithmetic tests into propositions [lia] understands. *)
Ltac bool_hyps :=
  repeat match goal with
  | H : (_ && _)%bool = true |- _ => apply andb_true_iff in H; destruct H
  | H : (_ || _)%bool = false |- _ => apply orb_false_iff in H; destruct H
  | H : negb _ = true |- _ => apply negb_true_iff in H
  | H : negb _ = false |- _ => apply negb_false_iff in H
  | H : (_ =? _)%Z = true |- _ => apply Z.eqb_eq in H
  | H : (_ =? _)%Z = false |- _ => apply Z.eqb_neq in H
  | H : (_ <? _)%Z = true |- _ => apply Z.ltb_lt in H
  | H : (_ <? _)%Z = false |- _ => apply Z.ltb_ge in H
  | H : (_ <=? _)%Z = true |- _ => apply Z.leb_le in H
  | H : (_ <=? _)%Z = false |- _ => apply Z.leb_gt in H
  | H : (_ =? _)%nat = true |- _ => apply Nat.eqb_eq in H
  | H : (_ =? _)%nat = false |- _ => apply Nat.eqb_neq in H
  | H : (_ <? _)%nat = true |- _ => apply Nat.ltb_lt in H
  | H : (_ <? _)%nat = false |- _ => apply Nat.ltb_ge in H
  | H : (_ <=? _)%nat = true |- _ => apply Nat.leb_le in H
  | H : (_ <=? _)%nat = false |- _ => apply Nat.leb_gt in H
  | H : (_ =? _)%string = true |- _ => apply String.eqb_eq in H
  | H : (_ =? _)%string = false |- _ => apply String.eqb_neq in H
  end.

(** Case on every [if]/[match] scrutinee met in a hypothesis, dropping the
    branches that return the wrong constructor. *)
Ltac inv_step H :=
  match type of H with
  | context [match ?x with _ => _ end] =>
      lazymatch x with
      | context [match _ with _ => _ end] => fail
      | _ => let E := fresh "E" in destruct x eqn:E; try discriminate H
      end
  end.

Ltac inv_result H := repeat (simpl in H; inv_step H); simplify_eq H.

(** ** Strings as Go byte strings *)

Notation "s1 =s s2" := (String.eqb s1 s2) (at level 70) : ipam_scope.

(** The numeric value of a byte. *)
Definition byte_of (c : ascii) : Z := Z.of_N (N_of_ascii c).

(** The test [s == ""]. *)
Definition is_empty (s : string) : bool :=
  match s with EmptyString => true | String _ _ => false end.

Lemma is_empty_spec s : is_empty s = true ↔ s = ""%string.
Proof. destruct s; simpl; split; congruence. Qed.

(** [strconv.Itoa], and [%d]. *)
Definition Z_text (n : Z) : string := DecimalString.NilEmpty.string_of_int (Z.to_int n).

(** Go's [x == "" ? d : x], the "fill the default" idiom. *)
Definition default_str (x d : string) : string := if is_empty x then d else x.

Lemma app_nil_r_string s : (s +:+ "")%string = s.
Proof. induction s as [|c s IH]; [done|]. exact (f_equal (String c) IH). Qed.

Lemma app_assoc_string s1 s2 s3 : ((s1 +:+ s2) +:+ s3 = s1 +:+ (s2 +:+ s3))%string.
Proof. induction s1 as [|c s1 IH]; [done|]. exact (f_equal (String c) IH). Qed.

Lemma append_cons c s1 s2 : String c s1 +:+ s2 = String c (s1 +:+ s2).
Proof. done. Qed.

Lemma append_nil s : "" +:+ s = s.
Proof. done. Qed.

(** Push appends to the right and expose the leading bytes. *)
Ltac str_norm := rewrite ?app_assoc_string, ?append_cons, ?append_nil.

(** [strings.Cut(s, sep)] for a one-byte separator: [None] when absent. *)
Fixpoint cut_byte (sep : ascii) (s : string) : option (string * string) :=
  match s with
  | EmptyString => None
  | String c s' =>
      if Ascii.eqb c sep then Some (EmptyString, s')
      else match cut_byte sep s' with
           | Some (a, b) => Some (String c a, b)
           | None => None
           end
  end.

(** Cutting at the last occurrence ([strings.LastIndexByte]). *)
Fixpoint cut_last_byte (sep : ascii) (s : string) : option (string * string) :=
  match s with
  | EmptyString => None
  | String c s' =>
      match cut_last_byte sep s' with
      | Some (a, b) => Some (String c a, b)
      | None => if Ascii.eqb c sep then Some (EmptyString, s') else None
      end
  end.

Fixpoint has_byte (sep : ascii) (s : string) : bool :=
  match s with
  | EmptyString => false
  | String c s' => Ascii.eqb c sep || has_byte sep s'
  end.

Lemma has_byte_app sep s1 s2 : has_byte sep (s1 +:+ s2) = has_byte sep s1 || has_byte sep s2.
Proof. induction s1 as [|c s1 IH]; simpl; [done|]. by rewrite IH, orb_assoc. Qed.

Lemma cut_byte_app sep a b :
  has_byte sep a = false → cut_byte sep (a +:+ String sep b) = Some (a, b).
Proof.
  induction a as [|c a IH]; simpl; intros H.
  - by rewrite Ascii.eqb_refl.
  - apply orb_false_iff in H as [-> Ha]. by rewrite IH.
Qed.

Lemma cut_byte_none sep s : has_byte sep s = false → cut_byte sep s = None.
Proof.
  induction s as [|c s IH]; simpl; [done|].
  intros H. apply orb_false_iff in H as [-> Hs]. by rewrite IH.
Qed.

Lemma cut_last_byte_none sep s : has_byte sep s = false → cut_last_byte sep s = None.
Proof.
  induction s as [|c s IH]; simpl; [done|].
  intros H. apply orb_false_iff in H as [Hc Hs]. by rewrite IH, Hc.
Qed.

Lemma cut_last_byte_app sep a b :
  has_byte sep b = false → cut_last_byte sep (a +:+ String sep b) = Some (a, b).
Proof.
  intros Hb. induction a as [|c a IH]; simpl.
  - by rewrite cut_last_byte_none, Ascii.eqb_refl.
  - by rewrite IH.
Qed.

(** Every byte of [s] satisfies [p]. *)
Fixpoint str_forallb (p : ascii → bool) (s : string) : bool :=
  match s with EmptyString => true | String c s' => p c && str_forallb p s' end.

Lemma str_forallb_app p s1 s2 : str_forallb p (s1 +:+ s2) = str_forallb p s1 && str_forallb p s2.
Proof. induction s1 as [|c s1 IH]; [done|]. rewrite append_cons. simpl. by rewrite IH, andb_assoc. Qed.

Lemma str_forallb_impl (p q : ascii → bool) s :
  (∀ c, p c = true → q c = true) → str_forallb p s = true → str_forallb q s = true.
Proof.
  intros H. induction s as [|c s IH]; simpl; [done|].
  rewrite !andb_true_iff. intros [? ?]. auto.
Qed.

Lemma str_forallb_has_byte p sep s :
  p sep = false → str_forallb p s = true → has_byte sep s = false.
Proof.
  intros Hp. induction s as [|c s IH]; simpl; [done|].
  rewrite andb_true_iff. intros [Hc Hs]. rewrite IH by done. rewrite orb_false_r.
  destruct (Ascii.eqb_spec c sep); [congruence|done].
Qed.

Lemma str_forallb_list p s : str_forallb p s = forallb p (String.list_ascii_of_string s).
Proof. induction s as [|c s IH]; simpl; [done|]. by rewrite IH. Qed.

(** *** Byte-wise string order (Go's [<] on strings) *)

Definition str_ltb (a b : string) : bool := String.ltb a b.

Lemma ascii_compare_N a b : Ascii.compare a b = N.compare (N_of_ascii a) (N_of_ascii b).
Proof. reflexivity. Qed.

Lemma str_compare_trans_lt a b c :
  String.compare a b = Lt → String.compare b c = Lt → String.compare a c = Lt.
Proof.
  revert b c. induction a as [|x a IH]; intros [|y b] [|z c]; simpl; try done.
  rewrite !ascii_compare_N.
  destruct (N.compare_spec (N_of_ascii x) (N_of_ascii y)) as [E1|L1|G1]; try done;
  destruct (N.compare_spec (N_of_ascii y) (N_of_ascii z)) as [E2|L2|G2]; try done;
  destruct (N.compare_spec (N_of_ascii x) (N_of_ascii z)) as [E3|L3|G3]; try done; try lia.
  eauto.
Qed.

Lemma str_ltb_lt a b : str_ltb a b = true ↔ String.compare a b = Lt.
Proof. unfold str_ltb, String.ltb. destruct (String.compare a b); split; congruence. Qed.

Lemma str_ltb_irrefl a : str_ltb a a = false.
Proof.
  destruct (str_ltb a a) eqn:E; [|done]. apply str_ltb_lt in E.
  pose proof (String.compare_antisym a a) as Ha. rewrite E in Ha. discriminate.
Qed.

Lemma str_ltb_trans a b c : str_ltb a b = true → str_ltb b c = true → str_ltb a c = true.
Proof. rewrite !str_ltb_lt. apply str_compare_trans_lt. Qed.

Lemma str_ltb_asym a b : str_ltb a b = true → str_ltb b a = false.
Proof.
  intros H. destruct (str_ltb b a) eqn:E; [|done].
  pose proof (str_ltb_trans _ _ _ H E) as Hc. by rewrite str_ltb_irrefl in Hc.
Qed.

Lemma str_ltb_total a b : str_ltb a b = false → str_ltb b a = false → a = b.
Proof.
  unfold str_ltb, String.ltb. intros H1 H2.
  rewrite String.compare_antisym in H2.
  destruct (String.compare a b) eqn:E; simpl in *; try discriminate.
  by apply String.compare_eq_iff.
Qed.

Lemma str_ltb_false_trans a b c :
  str_ltb b a = false → str_ltb c b = false → str_ltb c a = false.
Proof.
  intros H1 H2. destruct (str_ltb c a) eqn:E; [|done].
  destruct (str_ltb a b) eqn:E2.
  - pose proof (str_ltb_trans _ _ _ E E2). congruence.
  - pose proof (str_ltb_total _ _ E2 H1) as ->. congruence.
Qed.

#[export] Hint Resolve str_ltb_irrefl str_ltb_asym str_ltb_trans str_ltb_false_trans : ipam.

(** *** [strings.TrimSpace] on UTF-8 text

    The white-space runes of Unicode, as their UTF-8 byte sequences. *)
Definition space_runes : list (list Z) :=
  [[9]; [10]; [11]; [12]; [13]; [32]; [194; 133]; [194; 160]; [225; 154; 128];
   [226; 128; 128]; [226; 128; 129]; [226; 128; 130]; [226; 128; 131]; [226; 128; 132];
   [226; 128; 133]; [226; 128; 134]; [226; 128; 135]; [226; 128; 136]; [226; 128; 137];
   [226; 128; 138]; [226; 128; 168]; [226; 128; 169]; [226; 128; 175]; [226; 129; 159];
   [227; 128; 128]].

Definition space_runes_rev : list (list Z) := List.map (@rev Z) space_runes.

Fixpoint strip_bytes (p : list Z) (s : list ascii) : option (list ascii) :=
  match p, s with
  | [], _ => Some s
  | b :: p', c :: s' => if byte_of c =? b then strip_bytes p' s' else None
  | _ :: _, [] => None
  end.

Fixpoint strip_any (ps : list (list Z)) (s : list ascii) : option (list ascii) :=
  match ps with
  | [] => None
  | p :: ps' => match strip_bytes p s with Some s' => Some s' | None => strip_any ps' s end
  end.

(** Every strip removes at least one byte, so [length s] rounds are enough. *)
Fixpoint trim_front (fuel : nat) (ps : list (list Z)) (s : list ascii) : list ascii :=
  match fuel with
  | O => s
  | S f => match strip_any ps s with Some s' => trim_front f ps s' | None => s end
  end.

Definition TrimSpace (s : string) : string :=
  let l := String.list_ascii_of_string s in
  let l1 := trim_front (length l) space_runes l in
  let r := trim_front (length l1) space_runes_rev (rev l1) in
  String.string_of_list_ascii (rev r).

(** A byte that ends no white-space rune (first and last bytes differ from
    every first/last byte of [space_runes]). *)
Definition plain_byte (c : ascii) : bool := (32 <? byte_of c) && (byte_of c <? 128).

Lemma strip_any_plain_first c s :
  plain_byte c = true → strip_any space_runes (c :: s) = None.
Proof.
  unfold plain_byte. intros H. bool_hyps. simpl.
  repeat match goal with |- context [?x =? ?y] =>
    replace (x =? y) with false by (symmetry; apply Z.eqb_neq; lia) end. done.
Qed.

Lemma strip_any_plain_last c s :
  plain_byte c = true → strip_any space_runes_rev (c :: s) = None.
Proof.
  unfold plain_byte. intros H. bool_hyps. simpl.
  repeat match goal with |- context [?x =? ?y] =>
    replace (x =? y) with false by (symmetry; apply Z.eqb_neq; lia) end. done.
Qed.

Lemma trim_front_stuck fuel ps s : strip_any ps s = None → trim_front fuel ps s = s.
Proof. destruct fuel; simpl; [done|]. by intros ->. Qed.

(** Text without a byte outside [33..127] is already trimmed. *)
Lemma TrimSpace_plain s :
  str_forallb plain_byte s = true → TrimSpace s = s.
Proof.
  rewrite str_forallb_list. intros H. unfold TrimSpace.
  set (l := String.list_ascii_of_string s) in *.
  assert (Hf : ∀ n, trim_front n space_runes l = l).
  { intros n. destruct l as [|c l']; [by destruct n|].
    simpl in H. bool_hyps. by apply trim_front_stuck, strip_any_plain_first. }
  rewrite Hf.
  assert (Hr : ∀ n, trim_front n space_runes_rev (rev l) = rev l).
  { intros n. destruct (rev l) as [|c r] eqn:E; [by destruct n|].
    apply trim_front_stuck, strip_any_plain_last.
    rewrite forallb_forall in H. apply H, in_rev. rewrite E. by left. }
  rewrite Hr, rev_involutive. unfold l. apply String.string_of_list_ascii_of_string.
Qed.

(** ** Sorting with a Go [less] function

    [sort_by] is the stable insertion sort; [sort.Strings] and [sort.Slice]
    with a total order on distinct keys give the same list. *)
Section sorting.
Context {A : Type} (less : A → A → bool).

Fixpoint insert_by (x : A) (l : list A) : list A :=
  match l with
  | [] => [x]
  | y :: l' => if less x y then x :: l else y :: insert_by x l'
  end.

Definition sort_by (l : list A) : list A := fold_left (λ acc x, insert_by x acc) l [].

Lemma insert_by_perm x l : insert_by x l ≡ₚ x :: l.
Proof.
  induction l as [|y l IH]; simpl; [done|].
  destruct (less x y); [done|]. rewrite IH. apply Permutation_swap.
Qed.

Lemma fold_insert_perm l acc : fold_left (λ acc x, insert_by x acc) l acc ≡ₚ l ++ acc.
Proof.
  revert acc. induction l as [|x l IH]; intros acc; simpl; [done|].
  rewrite IH, insert_by_perm. symmetry. apply Permutation_middle.
Qed.

Lemma sort_by_perm l : sort_by l ≡ₚ l.
Proof. unfold sort_by. by rewrite fold_insert_perm, app_nil_r. Qed.

Lemma elem_of_sort_by x l : x ∈ sort_by l ↔ x ∈ l.
Proof. by rewrite sort_by_perm. Qed.

Lemma length_sort_by l : length (sort_by l) = length l.
Proof. apply Permutation_length, sort_by_perm. Qed.

(** [le_by x y]: [y] does not sort before [x]. *)
Definition le_by (x y : A) : Prop := less y x = false.

Context (Hasym : ∀ x y, less x y = true → less y x = false).
Context (Htrans : ∀ x y z, less y x = false → less z y = false → less z x = false).

Lemma insert_by_sorted x l : StronglySorted le_by l → StronglySorted le_by (insert_by x l).
Proof using Hasym Htrans.
  induction 1 as [|y l Hl IH Hy]; simpl; [repeat constructor|].
  destruct (less x y) eqn:E.
  - constructor; [by constructor|]. constructor; [by apply Hasym|].
    eapply Forall_impl; [exact Hy|]. intros z Hz. unfold le_by in *. eauto.
  - constructor; [done|]. rewrite insert_by_perm. by constructor.
Qed.

Lemma sort_by_sorted l : StronglySorted le_by (sort_by l).
Proof using Hasym Htrans.
  unfold sort_by.
  assert (H : ∀ acc, StronglySorted le_by acc →
            StronglySorted le_by (fold_left (λ acc x, insert_by x acc) l acc)).
  { induction l as [|x l IH]; intros acc Hacc; simpl; [done|]. by apply IH, insert_by_sorted. }
  apply H. constructor.
Qed.
End sorting.

(** [sort.Strings]. *)
Definition sort_strings : list string → list string := sort_by str_ltb.

Lemma sort_strings_sorted l : StronglySorted (le_by str_ltb) (sort_strings l).
Proof. apply sort_by_sorted; eauto with ipam. Qed.

(** Two lists with the same elements sort to the same list. *)
Lemma sort_strings_unique l1 l2 : l1 ≡ₚ l2 → sort_strings l1 = sort_strings l2.
Proof.
  intros H. eapply (StronglySorted_unique_strong (le_by str_ltb)).
  - intros x y _ _ H1 H2. unfold le_by in *. by apply str_ltb_total.
  - apply sort_strings_sorted.
  - apply sort_strings_sorted.
  - unfold sort_strings. by rewrite !sort_by_perm.
Qed.

(** *** Orders by several keys *)

(** What a Go [less] function must satisfy. *)
Definition go_order {A} (less : A → A → bool) : Prop :=
  (∀ x y, less x y = true → less y x = false) ∧ (∀ x y z, less y x = false → less z y = false → less z x = false).

Section lex.
Context {A : Type} (eqk ltk rest : A → A → bool).
Context (Heq : ∀ x y, eqk x y = eqk y x) (Heqt : ∀ x y z, eqk x y = true → eqk y z = eqk x z).
Context (Hasym : ∀ x y, ltk x y = true → ltk y x = false).
Context (Htot : ∀ x y, eqk x y = false → ltk x y = false → ltk y x = true).
Context (Htr : ∀ x y z, ltk x y = true → ltk y z = true → ltk x z = true ∧ eqk x z = false).

(** A key compared first, then the rest. *)
Lemma lex_order : go_order rest → go_order (λ x y, if negb (eqk x y) then ltk x y else rest x y).
Proof using All.
  intros [Hra Hrt]. split.
  { intros x y. rewrite (Heq y). destruct (eqk x y); cbn; [apply Hra|apply Hasym]. }
  intros x y z. destruct (eqk y x) eqn:Eyx, (eqk z y) eqn:Ezy; cbn.
  - rewrite <- (Heqt _ _ _ Ezy), Eyx. apply Hrt.
  - intros _ Hzy. assert (Ezx : eqk z x = false) by (rewrite (Heq z x), (Heqt y x z Eyx), (Heq y z); done).
    rewrite Ezx. cbn. destruct (ltk z x) eqn:E; [|done]. pose proof (Htot z y Ezy Hzy) as Hyz.
    destruct (Htr _ _ _ Hyz E) as [_ Hn]. congruence.
  - intros Hyx _. assert (Ezx : eqk z x = false) by (by rewrite <- (Heqt _ _ _ Ezy)). rewrite Ezx. cbn.
    destruct (ltk z x) eqn:E; [|done]. pose proof (Htot y x Eyx Hyx) as Hxy. destruct (Htr _ _ _ E Hxy) as [_ Hn]. congruence.
  - intros Hyx Hzy. pose proof (Htot y x Eyx Hyx) as Hxy. pose proof (Htot z y Ezy Hzy) as Hyz.
    destruct (Htr _ _ _ Hxy Hyz) as [Hxz Hn]. rewrite (Heq z x), Hn. cbn. by apply Hasym.
Qed.
End lex.

Section keys.
Context {A : Type} (rest : A → A → bool) (Hrest : go_order rest).

Lemma lex_str (f : A → string) : go_order (λ x y, if negb (f x =s f y) then str_ltb (f x) (f y) else rest x y).
Proof using Hrest.
  apply (lex_order (λ x y, f x =s f y) (λ x y, str_ltb (f x) (f y))); [..|exact Hrest].
  - intros. apply String.eqb_sym.
  - intros x y z ->%String.eqb_eq. done.
  - intros x y. apply str_ltb_asym.
  - intros x y Hne%String.eqb_neq Hf. destruct (str_ltb (f y) (f x)) eqn:E; [done|]. by pose proof (str_ltb_total _ _ Hf E).
  - intros x y z H1 H2. pose proof (str_ltb_trans _ _ _ H1 H2) as H3. split; [done|]. apply String.eqb_neq. intros E. by rewrite E, str_ltb_irrefl in H3.
Qed.

Lemma lex_Z (f : A → Z) : go_order (λ x y, if negb (f x =? f y) then f x <? f y else rest x y).
Proof using Hrest.
  apply (lex_order (λ x y, f x =? f y) (λ x y, f x <? f y)); [..|exact Hrest].
  - intros. apply Z.eqb_sym.
  - intros x y z ->%Z.eqb_eq. done.
  - intros x y. rewrite Z.ltb_lt, Z.ltb_ge. lia.
  - intros x y. rewrite Z.eqb_neq, Z.ltb_ge, Z.ltb_lt. lia.
  - intros x y z. rewrite !Z.ltb_lt, Z.eqb_neq. lia.
Qed.

(** True first. *)
Lemma lex_flag (f : A → bool) : go_order (λ x y, if negb (Bool.eqb (f x) (f y)) then f x else rest x y).
Proof using Hrest.
  destruct Hrest as [Ha Ht]. split.
  - intros x y. destruct (f x), (f y); cbn; try done; apply Ha.
  - intros x y z. destruct (f x), (f y), (f z); cbn; try done; apply Ht.
Qed.
End keys.

Lemma order_str {A} (f : A → string) : go_order (λ x y, str_ltb (f x) (f y)).
Proof. split; [intros x y; apply str_ltb_asym|intros x y z; apply str_ltb_false_trans]. Qed.

(** ** Integers *)

Lemma Z_forallb_bounded (P : Z → bool) (k : Z) :
  forallb P (seqZ 0 k) = true → ∀ n, 0 ≤ n < k → P n = true.
Proof.
  intros H n Hn. rewrite forallb_forall in H. apply H.
  apply list_elem_of_In, elem_of_seqZ. lia.
Qed.

Lemma pow2_pos k : 0 ≤ k → 0 < 2 ^ k.
Proof. intros. apply Z.pow_pos_nonneg; lia. Qed.

Lemma pow2_split a b : 0 ≤ a → 0 ≤ b → 2 ^ (a + b) = 2 ^ a * 2 ^ b.
Proof. intros. by apply Z.pow_add_r. Qed.

Lemma pow2_le a b : 0 ≤ a ≤ b → 2 ^ a ≤ 2 ^ b.
Proof. intros. apply Z.pow_le_mono_r; lia. Qed.

(** [x] rounded down to a multiple of [2^k]: the base of its aligned block. *)
Definition floor_pow2 (k x : Z) : Z := x / 2 ^ k * 2 ^ k.

Lemma floor_pow2_range k x : 0 ≤ k → floor_pow2 k x ≤ x < floor_pow2 k x + 2 ^ k.
Proof.
  intros Hk. unfold floor_pow2. pose proof (pow2_pos k Hk).
  pose proof (Z.div_mod x (2 ^ k)). pose proof (Z.mod_pos_bound x (2 ^ k)). lia.
Qed.

Lemma floor_pow2_eq_iff k x y :
  0 ≤ k → floor_pow2 k x = floor_pow2 k y ↔ floor_pow2 k y ≤ x < floor_pow2 k y + 2 ^ k.
Proof.
  intros Hk. pose proof (floor_pow2_range k x Hk). split; [intros E; lia|].
  unfold floor_pow2 in *. pose proof (pow2_pos k Hk). intros Hr.
  enough (x / 2 ^ k = y / 2 ^ k) by congruence.
  nia.
Qed.

Lemma floor_pow2_idemp k x : 0 ≤ k → floor_pow2 k (floor_pow2 k x) = floor_pow2 k x.
Proof.
  intros Hk. unfold floor_pow2. pose proof (pow2_pos k Hk). by rewrite Z.div_mul by lia.
Qed.

Lemma floor_pow2_nonneg k x : 0 ≤ k → 0 ≤ x → 0 ≤ floor_pow2 k x.
Proof.
  intros Hk Hx. unfold floor_pow2. pose proof (pow2_pos k Hk).
  pose proof (Z.div_pos x (2 ^ k)). nia.
Qed.

(** An aligned block of a [w]-bit space ends inside the space. *)
Lemma floor_pow2_top k w x : 0 ≤ k ≤ w → 0 ≤ x < 2 ^ w → floor_pow2 k x + 2 ^ k ≤ 2 ^ w.
Proof.
  intros Hk Hx. unfold floor_pow2. pose proof (pow2_pos k ltac:(lia)).
  replace (2 ^ w) with (2 ^ (w - k) * 2 ^ k) in * by (rewrite <- pow2_split by lia; f_equal; lia).
  assert (x / 2 ^ k < 2 ^ (w - k)) by (apply Z.div_lt_upper_bound; lia). nia.
Qed.

(** Rounding to a coarser grid after a finer one is rounding to the coarser. *)
Lemma floor_pow2_coarser k k' x :
  0 ≤ k ≤ k' → floor_pow2 k' (floor_pow2 k x) = floor_pow2 k' x.
Proof.
  intros Hk. unfold floor_pow2.
  replace k' with (k + (k' - k)) by lia. rewrite pow2_split by lia.
  pose proof (pow2_pos k ltac:(lia)). pose proof (pow2_pos (k' - k) ltac:(lia)).
  rewrite <- !Z.div_div by lia. by rewrite Z.div_mul by lia.
Qed.

(** The netmask with [ones] leading ones in a [bits]-bit word. *)
Definition mask_value (ones bits : Z) : Z := Z.shiftl (Z.ones ones) (bits - ones).

(** Masking a [bits]-bit word keeps the base of its block. *)
Lemma land_mask ones bits x :
  0 ≤ ones ≤ bits → 0 ≤ x < 2 ^ bits →
  Z.land x (mask_value ones bits) = floor_pow2 (bits - ones) x.
Proof.
  intros Ho Hx. unfold mask_value, floor_pow2. set (k := bits - ones).
  assert (Hk : 0 ≤ k) by lia.
  replace (Z.land x (Z.shiftl (Z.ones ones) k))
    with (Z.shiftl (Z.land (Z.shiftr x k) (Z.ones ones)) k).
  2:{ apply Z.bits_inj'. intros n Hn. rewrite Z.land_spec, !Z.shiftl_spec, Z.land_spec by lia.
      destruct (decide (k ≤ n)).
      - rewrite Z.shiftr_spec by lia. do 2 f_equal. lia.
      - rewrite !(Z.testbit_neg_r _ (n - k)) by lia. simpl.
        by rewrite ?andb_false_r. }
  rewrite Z.land_ones, Z.shiftl_mul_pow2, Z.shiftr_div_pow2 by lia. f_equal.
  apply Z.mod_small. split; [apply Z.div_pos; [lia|by apply pow2_pos]|].
  apply Z.div_lt_upper_bound; [by apply pow2_pos|].
  rewrite <- pow2_split by lia. replace (k + ones) with bits by lia. lia.
Qed.

Lemma mask_value_eq ones bits :
  0 ≤ ones ≤ bits → mask_value ones bits = 2 ^ bits - 2 ^ (bits - ones).
Proof.
  intros H. unfold mask_value. rewrite Z.shiftl_mul_pow2, Z.ones_equiv by lia.
  replace (2 ^ bits) with (2 ^ ones * 2 ^ (bits - ones))
    by (rewrite <- pow2_split by lia; f_equal; lia). lia.
Qed.

(** *** Fixed-width integers *)

Definition MaxInt64 : Z := 2 ^ 63 - 1.
Definition MinInt64 : Z := - 2 ^ 63.

(** Two's complement wrap-around of a signed 64-bit result. *)
Definition wrap64 (x : Z) : Z := (x + 2 ^ 63) mod 2 ^ 64 - 2 ^ 63.

Lemma wrap64_id x : MinInt64 ≤ x ≤ MaxInt64 → wrap64 x = x.
Proof. unfold wrap64, MinInt64, MaxInt64. intros. rewrite Z.mod_small; lia. Qed.

(** ** Lists and options *)

Definition is_nil {A} (l : list A) : bool := match l with [] => true | _ => false end.

Definition is_some {A} (o : option A) : bool :=
  match o with Some _ => true | None => false end.

Lemma is_some_false {A} (o : option A) : is_some o = false → o = None.
Proof. by destruct o. Qed.
Lemma is_some_true {A} (o : option A) : is_some o = true → ∃ x, o = Some x.
Proof. destruct o; [eauto|done]. Qed.

(** The first element satisfying a test (a [for ... { if p { return } }] loop). *)
Fixpoint find_first {A} (p : A → bool) (l : list A) : option A :=
  match l with
  | [] => None
  | x :: l' => if p x then Some x else find_first p l'
  end.

Lemma find_first_Some {A} (p : A → bool) l x :
  find_first p l = Some x → x ∈ l ∧ p x = true.
Proof.
  induction l as [|y l IH]; simpl; [done|]. destruct (p y) eqn:E.
  - intros [= ->]. split; [by left|done].
  - intros H. apply IH in H as [? ?]. split; [by right|done].
Qed.

Lemma find_first_None {A} (p : A → bool) l x :
  find_first p l = None → x ∈ l → p x = false.
Proof.
  induction l as [|y l IH]; simpl; [by rewrite elem_of_nil|].
  destruct (p y) eqn:E; [by intros [=]|]. rewrite elem_of_cons. intros H [->|Hx]; auto.
Qed.

(** A list of pairwise different elements drawn from a set is not longer
    than the set (the pigeonhole used to bound probing loops). *)
Lemma NoDup_subset_size `{Countable K} (l : list K) (s : gset K) :
  NoDup l → (∀ x, x ∈ l → x ∈ s) → (length l ≤ size s)%nat.
Proof.
  intros Hnd Hin. rewrite <- (size_list_to_set (C := gset K)) by done.
  apply subseteq_size. intros x. rewrite elem_of_list_to_set. apply Hin.
Qed.

(** ** Sublists *)

Lemma sublist_fmap_inv {A B} (f : A → B) l xs :
  l `sublist_of` f <$> xs → ∃ ys, ys `sublist_of` xs ∧ l = f <$> ys.
Proof.
  revert l. induction xs as [|x xs IH]; intros l; cbn.
  - intros ->%sublist_nil_r. by exists [].
  - intros [(ys & Hs & ->)%IH|(l' & -> & (ys & Hs & ->)%IH)]%sublist_cons_r.
    + exists ys. split; [by apply sublist_cons|done].
    + exists (x :: ys). split; [by apply sublist_skip|done].
Qed.

Lemma filter_sublist {A} (p : A → bool) l : List.filter p l `sublist_of` l.
Proof. induction l as [|x l IH]; cbn; [constructor|]. destruct (p x); by constructor. Qed.

Lemma Forall_sublist {A} (P : A → Prop) l k : l `sublist_of` k → Forall P k → Forall P l.
Proof. intros Hs Hk. induction Hs; inversion_clear Hk; auto. Qed.

Lemma StronglySorted_sublist {A} (R : A → A → Prop) l k :
  l `sublist_of` k → StronglySorted R k → StronglySorted R l.
Proof.
  intros Hs. induction Hs; intros Hk; [done|..]; inversion_clear Hk; [|by auto].
  constructor; [by auto|]. by eapply Forall_sublist.
Qed.
