(* ===== verification/GoNet.v ===== *)
(** * The Go networking library the repository calls

    What the sources use of Go's [net] and [net/netip] packages: parsing and
    printing of addresses and CIDR blocks, masks and containment.  A
    [net.IP] of 4 or 16 bytes is represented by its big-endian value, a
    [net.IPMask] (always canonical here: it comes from [net.CIDRMask]) by
    its numbers of ones and bits, a [netip.Addr] by its family, value and
    zone.

    The file proves the facts the repository's code relies on: printing then
    parsing an address gives it back (IPv4, IPv6 with [::] compression and
    IPv4-mapped IPv6), so the printed form identifies the address, and
    containment in a block is an interval test. *)

From S2P Require Import Prelude.

(** ** Digits *)

Definition dec_val (c : ascii) : option Z :=
  let b := byte_of c in
  if (48 <=? b) && (b <=? 57) then Some (b - 48) else None.

Definition hex_val (c : ascii) : option Z :=
  let b := byte_of c in
  if (48 <=? b) && (b <=? 57) then Some (b - 48)
  else if (97 <=? b) && (b <=? 102) then Some (b - 87)
  else if (65 <=? b) && (b <=? 70) then Some (b - 55)
  else None.

(** [netip]'s [digits] table, "0123456789abcdef". *)
Definition digit_char (d : Z) : ascii :=
  ascii_of_N (Z.to_N (if d <? 10 then 48 + d else 87 + d)).

(** [netip.appendDecimal]: a byte without leading zeros. *)
Definition digit_str (d : Z) : string := String (digit_char d) EmptyString.

Definition appendDecimal (x : Z) : string :=
  (if 100 <=? x then digit_str (x / 100) else EmptyString) +:+
  (if 10 <=? x then digit_str (x / 10 mod 10) else EmptyString) +:+
  digit_str (x mod 10).

(** [netip.appendHex]: 16 bits without leading zeros. *)
Definition appendHex (x : Z) : string :=
  (if 4096 <=? x then digit_str (x / 4096) else EmptyString) +:+
  (if 256 <=? x then digit_str (x / 256 mod 16) else EmptyString) +:+
  (if 16 <=? x then digit_str (x / 16 mod 16) else EmptyString) +:+
  digit_str (x mod 16).

(** ** netip.Addr *)

Inductive Addr : Type :=
| AddrInvalid
| Addr4 (n : Z)
| Addr6 (n : Z) (zone : string).

#[export] Instance Addr_eq_dec : EqDecision Addr.
Proof. solve_decision. Defined.

#[export] Instance Addr_countable : Countable Addr.
Proof.
  refine (inj_countable'
    (λ a, match a with AddrInvalid => None | Addr4 n => Some (inl n) | Addr6 n z => Some (inr (n, z)) end)
    (λ o, match o with None => AddrInvalid | Some (inl n) => Addr4 n | Some (inr (n, z)) => Addr6 n z end) _).
  by intros [].
Defined.

Definition Addr_wf (a : Addr) : Prop :=
  match a with
  | AddrInvalid => True
  | Addr4 n => 0 ≤ n < 2 ^ 32
  | Addr6 n _ => 0 ≤ n < 2 ^ 128
  end.

(** [netip.parseIPv4Fields]: [digLen] digits of the current octet were read
    ([digLen = 0] exactly when the previous byte is a dot or absent). *)
Fixpoint parseIPv4Fields (s : string) (val digLen : Z) (fields : list Z) : option (list Z) :=
  match s with
  | EmptyString => if (length fields <? 3)%nat then None else Some (fields ++ [val])
  | String c s' =>
      match dec_val c with
      | Some d =>
          if (digLen =? 1) && (val =? 0) then None
          else if 255 <? val * 10 + d then None
          else parseIPv4Fields s' (val * 10 + d) (digLen + 1) fields
      | None =>
          if Ascii.eqb c "." then
            if (digLen =? 0) || is_empty s' then None
            else if (length fields =? 3)%nat then None
            else parseIPv4Fields s' 0 0 (fields ++ [val])
          else None
      end
  end.

(** Big-endian value of a sequence of digits in base [b]. *)
Definition be_value (b : Z) (l : list Z) : Z := fold_left (λ acc d, acc * b + d) l 0.

Definition parseIPv4 (s : string) : option Addr :=
  match parseIPv4Fields s 0 0 [] with
  | Some fs => Some (Addr4 (be_value 256 fs))
  | None => None
  end.

(** The hexadecimal number a group starts with: value, digits read, rest;
    more than four digits fail. *)
Fixpoint read_hex (s : string) (off : nat) (acc : Z) : option (Z * nat * string) :=
  match s with
  | EmptyString => Some (acc, off, EmptyString)
  | String c s' =>
      match hex_val c with
      | None => Some (acc, off, s)
      | Some d =>
          if (3 <? off)%nat then None
          else if 65535 <? acc * 16 + d then None
          else read_hex s' (S off) (acc * 16 + d)
      end
  end.

(** The group loop of [netip.parseIPv6]; [room] is the number of 16-bit
    groups that still fit, [ell] the position of the ellipsis. *)
Fixpoint parseIPv6Groups (room : nat) (s : string) (gs : list Z) (ell : option nat)
  : option (list Z * option nat * string) :=
  match room with
  | O => Some (gs, ell, s)
  | S room' =>
      match read_hex s 0 0 with
      | None => None
      | Some (acc, off, rest) =>
          if (off =? 0)%nat then None
          else match rest with
          | EmptyString => Some (gs ++ [acc], ell, EmptyString)
          | String c rest' =>
              if Ascii.eqb c "." then
                if negb (is_some ell) && negb (length gs =? 6)%nat then None
                else if (8 <? length gs + 2)%nat then None
                else match parseIPv4Fields s 0 0 [] with
                     | Some [a; b; c; d] => Some (gs ++ [a * 256 + b; c * 256 + d], ell, EmptyString)
                     | _ => None
                     end
              else if Ascii.eqb c ":" then
                match rest' with
                | EmptyString => None
                | String c2 rest'' =>
                    if Ascii.eqb c2 ":" then
                      match ell with
                      | Some _ => None
                      | None =>
                          if is_empty rest'' then Some (gs ++ [acc], Some (S (length gs)), EmptyString)
                          else parseIPv6Groups room' rest'' (gs ++ [acc]) (Some (S (length gs)))
                      end
                    else parseIPv6Groups room' rest' (gs ++ [acc]) ell
                end
              else None
          end
      end
  end.

(** The expansion of the ellipsis to eight groups. *)
Definition expand_groups (gs : list Z) (ell : option nat) : option (list Z) :=
  if (length gs <? 8)%nat then
    match ell with
    | None => None
    | Some e => Some (take e gs ++ replicate (8 - length gs) 0 ++ drop e gs)
    end
  else match ell with Some _ => None | None => Some gs end.

(** The zone is split off first; an explicit empty zone is refused. *)
Definition split_zone (s0 : string) : option (string * string) :=
  match cut_byte "%" s0 with
  | None => Some (s0, EmptyString)
  | Some (s, zone) => if is_empty zone then None else Some (s, zone)
  end.

(** A leading ellipsis. *)
Definition split_ellipsis (s : string) : option nat * string :=
  match s with
  | String ":" (String ":" s') => (Some O, s')
  | _ => (None, s)
  end.

Definition parseIPv6_body (s zone : string) : option Addr :=
  let '(ell, s1) := split_ellipsis s in
  if is_some ell && is_empty s1 then Some (Addr6 0 zone)
  else match parseIPv6Groups 8 s1 [] ell with
       | None => None
       | Some (gs, ell', rest) =>
           if negb (is_empty rest) then None
           else match expand_groups gs ell' with
                | None => None
                | Some gs' => Some (Addr6 (be_value 65536 gs') zone)
                end
       end.

Definition parseIPv6 (s0 : string) : option Addr :=
  match split_zone s0 with
  | None => None
  | Some (s, zone) => parseIPv6_body s zone
  end.

(** [netip.ParseAddr]: the first of '.', ':' and '%' decides the family. *)
Fixpoint addr_kind (s : string) : option ascii :=
  match s with
  | EmptyString => None
  | String c s' =>
      if Ascii.eqb c "." || Ascii.eqb c ":" || Ascii.eqb c "%" then Some c else addr_kind s'
  end.

Definition ParseAddr (s : string) : option Addr :=
  match addr_kind s with
  | Some c => if Ascii.eqb c "." then parseIPv4 s
              else if Ascii.eqb c ":" then parseIPv6 s else None
  | None => None
  end.

(** *** Printing *)

Definition octets (n : Z) : list Z :=
  [n / 2 ^ 24; n / 2 ^ 16 mod 256; n / 2 ^ 8 mod 256; n mod 256].

Definition string4 (n : Z) : string :=
  match octets n with
  | [a; b; c; d] =>
      appendDecimal a +:+ "." +:+ appendDecimal b +:+ "." +:+ appendDecimal c +:+ "." +:+ appendDecimal d
  | _ => ""%string
  end.

(** [ip.v6u16(i)] for [i] in 0..7. *)
Definition groups6 (n : Z) : list Z :=
  List.map (λ i, n / 2 ^ (16 * i) mod 65536) [7; 6; 5; 4; 3; 2; 1; 0].

Fixpoint leading_zeros (gs : list Z) : nat :=
  match gs with
  | g :: gs' => if g =? 0 then S (leading_zeros gs') else O
  | [] => O
  end.

(** The leftmost longest run of at least two zero groups, [(255, 255)] when
    there is none (the [zeroStart], [zeroEnd] of [Addr.appendTo6]). *)
Definition zero_run (gs : list Z) : nat * nat :=
  fold_left (λ best i,
    let l := leading_zeros (drop i gs) in
    if (2 <=? l)%nat && (best.2 - best.1 <? l)%nat then (i, (i + l)%nat) else best)
    (seq 0 8) (255%nat, 255%nat).

Fixpoint append_groups (fuel : nat) (gs : list Z) (zs ze i : nat) : string :=
  match fuel with
  | O => EmptyString
  | S f =>
      if (8 <=? i)%nat then EmptyString
      else if (i =? zs)%nat then
        "::" +:+ (if (8 <=? ze)%nat then EmptyString
                  else appendHex (nth ze gs 0) +:+ append_groups f gs zs ze (S ze))
      else (if (0 <? i)%nat then ":"%string else EmptyString) +:+
           appendHex (nth i gs 0) +:+ append_groups f gs zs ze (S i)
  end.

Definition string6 (n : Z) : string :=
  let gs := groups6 n in
  let '(zs, ze) := zero_run gs in append_groups 8 gs zs ze 0.

(** [Addr.Is4In6]: an IPv4-mapped IPv6 address. *)
Definition mapped_prefix : Z := 65535.
Definition is4In6_value (n : Z) : bool := n / 2 ^ 32 =? mapped_prefix.

Definition zone_suffix (z : string) : string := if is_empty z then EmptyString else "%" +:+ z.

Definition Addr_String (a : Addr) : string :=
  match a with
  | AddrInvalid => "invalid IP"
  | Addr4 n => string4 n
  | Addr6 n z =>
      if is4In6_value n then "::ffff:" +:+ string4 (n mod 2 ^ 32) +:+ zone_suffix z
      else string6 n +:+ zone_suffix z
  end.

(** *** Predicates and operations of netip.Addr *)

Definition Addr_IsValid (a : Addr) : bool := match a with AddrInvalid => false | _ => true end.
Definition Addr_Is4 (a : Addr) : bool := match a with Addr4 _ => true | _ => false end.
Definition Addr_Is6 (a : Addr) : bool := match a with Addr6 _ _ => true | _ => false end.
Definition Addr_Is4In6 (a : Addr) : bool :=
  match a with Addr6 n _ => is4In6_value n | _ => false end.
Definition Addr_BitLen (a : Addr) : Z :=
  match a with AddrInvalid => 0 | Addr4 _ => 32 | Addr6 _ _ => 128 end.
Definition Addr_Zone (a : Addr) : string := match a with Addr6 _ z => z | _ => "" end.
Definition Addr_Unmap (a : Addr) : Addr :=
  match a with
  | Addr6 n _ => if is4In6_value n then Addr4 (n mod 2 ^ 32) else a
  | _ => a
  end.
Definition Addr_WithZone (a : Addr) (z : string) : Addr :=
  match a with Addr6 n _ => Addr6 n z | _ => a end.
Definition Addr_value (a : Addr) : Z :=
  match a with AddrInvalid => 0 | Addr4 n => n | Addr6 n _ => n end.

(** [Addr.Compare]/[Addr.Less]: by bit length, then value, then zone. *)
Definition Addr_Less (a b : Addr) : bool :=
  if Addr_BitLen a =? Addr_BitLen b then
    if Addr_value a =? Addr_value b then str_ltb (Addr_Zone a) (Addr_Zone b)
    else Addr_value a <? Addr_value b
  else Addr_BitLen a <? Addr_BitLen b.

Definition Addr_IsUnspecified (a : Addr) : bool :=
  match a with Addr4 n => n =? 0 | Addr6 n z => (n =? 0) && is_empty z | AddrInvalid => false end.

(** The predicates below unmap an IPv4-mapped address first, as netip does. *)
Definition Addr_IsLoopback (a : Addr) : bool :=
  match Addr_Unmap a with
  | Addr4 n => n / 2 ^ 24 =? 127
  | Addr6 n _ => n =? 1
  | AddrInvalid => false
  end.
Definition Addr_IsMulticast (a : Addr) : bool :=
  match Addr_Unmap a with
  | Addr4 n => Z.land (n / 2 ^ 24) 240 =? 224
  | Addr6 n _ => n / 2 ^ 120 =? 255
  | AddrInvalid => false
  end.
Definition Addr_IsLinkLocalUnicast (a : Addr) : bool :=
  match Addr_Unmap a with
  | Addr4 n => n / 2 ^ 16 =? 169 * 256 + 254
  | Addr6 n _ => Z.land (n / 2 ^ 112) 65472 =? 65152
  | AddrInvalid => false
  end.

(** ** Printing and parsing IPv4 *)

Lemma dec_val_digit d : 0 ≤ d < 10 → dec_val (digit_char d) = Some d.
Proof.
  intros H. pose proof (Z_forallb_bounded
    (λ d, bool_decide (dec_val (digit_char d) = Some d)) 10 eq_refl d H) as Hd.
  by apply bool_decide_eq_true in Hd.
Qed.

Lemma hex_val_digit d : 0 ≤ d < 16 → hex_val (digit_char d) = Some d.
Proof.
  intros H. pose proof (Z_forallb_bounded
    (λ d, bool_decide (hex_val (digit_char d) = Some d)) 16 eq_refl d H) as Hd.
  by apply bool_decide_eq_true in Hd.
Qed.

Lemma parse_digit d s val dl fs :
  0 ≤ d < 10 → ¬ (dl = 1 ∧ val = 0) → val * 10 + d ≤ 255 →
  parseIPv4Fields (String (digit_char d) s) val dl fs =
  parseIPv4Fields s (val * 10 + d) (dl + 1) fs.
Proof.
  intros Hd Hz Hv. simpl. rewrite dec_val_digit by done.
  destruct ((dl =? 1) && (val =? 0)) eqn:E; [bool_hyps; tauto|].
  destruct (255 <? val * 10 + d) eqn:E2; [bool_hyps; lia|done].
Qed.

(** Reading a printed octet leaves its value in the accumulator. *)
Lemma parse_octet b s fs :
  0 ≤ b < 256 →
  ∃ dl, 0 < dl ∧ parseIPv4Fields (appendDecimal b +:+ s) 0 0 fs = parseIPv4Fields s b dl fs.
Proof.
  intros Hb. unfold appendDecimal, digit_str.
  pose proof (Z.div_mod b 10). pose proof (Z.mod_pos_bound b 10).
  pose proof (Z.div_mod (b / 10) 10). pose proof (Z.mod_pos_bound (b / 10) 10).
  assert (b / 10 / 10 = b / 100) by (rewrite Z.div_div by lia; done).
  destruct (100 <=? b) eqn:E1, (10 <=? b) eqn:E2; bool_hyps; try lia;
    str_norm; rewrite !parse_digit by lia.
  - exists 3. split; [lia|]. f_equal; lia.
  - exists 2. split; [lia|]. f_equal; lia.
  - exists 1. split; [lia|]. f_equal; lia.
Qed.

Lemma parse_dot s val dl fs :
  0 < dl → is_empty s = false → length fs ≠ 3%nat →
  parseIPv4Fields ("." +:+ s) val dl fs = parseIPv4Fields s 0 0 (fs ++ [val]).
Proof.
  intros Hdl Hs Hf. str_norm. simpl. rewrite Hs.
  destruct (dl =? 0) eqn:E; [bool_hyps; lia|].
  destruct (length fs =? 3)%nat eqn:E2; [bool_hyps; lia|done].
Qed.

Lemma appendDecimal_nonempty b s : is_empty (appendDecimal b +:+ s) = false.
Proof. unfold appendDecimal, digit_str. by destruct (100 <=? b), (10 <=? b). Qed.

(** Four printed octets parse back to the four octets. *)
Lemma parse_octets a b c d :
  0 ≤ a < 256 → 0 ≤ b < 256 → 0 ≤ c < 256 → 0 ≤ d < 256 →
  parseIPv4Fields (appendDecimal a +:+ "." +:+ appendDecimal b +:+ "." +:+
                   appendDecimal c +:+ "." +:+ appendDecimal d) 0 0 [] = Some [a; b; c; d].
Proof.
  intros Ha Hb Hc Hd.
  destruct (parse_octet a ("." +:+ appendDecimal b +:+ "." +:+ appendDecimal c +:+ "." +:+ appendDecimal d) [] Ha) as (l1 & ? & ->).
  rewrite parse_dot by (apply appendDecimal_nonempty || done). cbn [app].
  destruct (parse_octet b ("." +:+ appendDecimal c +:+ "." +:+ appendDecimal d) [a] Hb) as (l2 & ? & ->).
  rewrite parse_dot by (apply appendDecimal_nonempty || done). cbn [app].
  destruct (parse_octet c ("." +:+ appendDecimal d) [a; b] Hc) as (l3 & ? & ->).
  rewrite parse_dot by (try done; rewrite <- (app_nil_r_string (appendDecimal d)); apply appendDecimal_nonempty). cbn [app].
  destruct (parse_octet d "" [a; b; c] Hd) as (l4 & ? & E).
  rewrite app_nil_r_string in E. exact E.
Qed.

Lemma octets_value n : 0 ≤ n < 2 ^ 32 → be_value 256 (octets n) = n.
Proof.
  intros Hn. unfold be_value, octets. cbn [fold_left].
  replace (n / 2 ^ 24) with (n / 256 / 256 / 256) by (rewrite !Z.div_div by lia; done).
  replace (n / 2 ^ 16) with (n / 256 / 256) by (rewrite !Z.div_div by lia; done).
  change (2 ^ 8) with 256.
  pose proof (Z.div_mod n 256). pose proof (Z.div_mod (n / 256) 256).
  pose proof (Z.div_mod (n / 256 / 256) 256). lia.
Qed.

Lemma octets_range n : 0 ≤ n < 2 ^ 32 → Forall (λ b, 0 ≤ b < 256) (octets n).
Proof.
  intros Hn. unfold octets.
  assert (0 ≤ n / 2 ^ 24 < 256)
    by (split; [apply Z.div_pos; lia|apply Z.div_lt_upper_bound; lia]).
  repeat constructor; try lia; apply Z.mod_pos_bound; lia.
Qed.

Lemma parse_string4 n : 0 ≤ n < 2 ^ 32 → parseIPv4Fields (string4 n) 0 0 [] = Some (octets n).
Proof.
  intros Hn. pose proof (octets_range n Hn) as Hr. unfold string4.
  unfold octets in *. rewrite !Forall_cons in Hr. apply parse_octets; tauto.
Qed.

Lemma parseIPv4_string4 n : 0 ≤ n < 2 ^ 32 → parseIPv4 (string4 n) = Some (Addr4 n).
Proof. intros Hn. unfold parseIPv4. by rewrite parse_string4, octets_value. Qed.

(** The decimal digits come before the first separator. *)
Lemma addr_kind_skip c s :
  Ascii.eqb c "." || Ascii.eqb c ":" || Ascii.eqb c "%" = false →
  addr_kind (String c s) = addr_kind s.
Proof. simpl. by intros ->. Qed.

Definition not_sep (c : ascii) : bool :=
  negb (Ascii.eqb c "." || Ascii.eqb c ":" || Ascii.eqb c "%").

Lemma digit_not_sep d : 0 ≤ d < 16 → not_sep (digit_char d) = true.
Proof. intros H. exact (Z_forallb_bounded (λ d, not_sep (digit_char d)) 16 eq_refl d H). Qed.

Lemma addr_kind_digit d s : 0 ≤ d < 16 → addr_kind (String (digit_char d) s) = addr_kind s.
Proof. intros H. apply addr_kind_skip, negb_true_iff, (digit_not_sep d H). Qed.

Lemma addr_kind_decimal b s : 0 ≤ b < 256 → addr_kind (appendDecimal b +:+ s) = addr_kind s.
Proof.
  intros Hb. unfold appendDecimal, digit_str.
  assert (0 ≤ b / 100 < 16) by (split; [apply Z.div_pos; lia|apply Z.div_lt_upper_bound; lia]).
  pose proof (Z.mod_pos_bound (b / 10) 10). pose proof (Z.mod_pos_bound b 10).
  destruct (100 <=? b), (10 <=? b);
    str_norm; rewrite !addr_kind_digit by lia; done.
Qed.

Lemma addr_kind_string4 n : 0 ≤ n < 2 ^ 32 → addr_kind (string4 n) = Some "."%char.
Proof.
  intros Hn. pose proof (octets_range n Hn) as Hr. unfold string4, octets in *.
  rewrite !Forall_cons in Hr. by rewrite addr_kind_decimal by tauto.
Qed.

(** ** Printing and parsing IPv6 *)

(** The text after a group does not continue the number. *)
Definition stops_hex (s : string) : bool :=
  match s with EmptyString => true | String c _ => match hex_val c with None => true | _ => false end end.

Lemma read_hex_digit d s off acc :
  0 ≤ d < 16 → (off ≤ 3)%nat → acc * 16 + d ≤ 65535 →
  read_hex (String (digit_char d) s) off acc = read_hex s (S off) (acc * 16 + d).
Proof.
  intros Hd Ho Ha. simpl. rewrite hex_val_digit by done.
  destruct (3 <? off)%nat eqn:E; [bool_hyps; lia|].
  destruct (65535 <? acc * 16 + d) eqn:E2; [bool_hyps; lia|done].
Qed.

Lemma read_hex_stop s off acc : stops_hex s = true → read_hex s off acc = Some (acc, off, s).
Proof. destruct s as [|c s]; simpl; [done|]. by destruct (hex_val c). Qed.

Lemma read_hex_group g s :
  0 ≤ g < 65536 → stops_hex s = true →
  ∃ off, off ≠ 0%nat ∧ read_hex (appendHex g +:+ s) 0 0 = Some (g, off, s).
Proof.
  intros Hg Hs. unfold appendHex, digit_str.
  pose proof (Z.div_mod g 16). pose proof (Z.mod_pos_bound g 16).
  replace (g / 256) with (g / 16 / 16) by (rewrite Z.div_div by lia; done).
  replace (g / 4096) with (g / 16 / 16 / 16) by (rewrite !Z.div_div by lia; done).
  pose proof (Z.div_mod (g / 16) 16). pose proof (Z.mod_pos_bound (g / 16) 16).
  pose proof (Z.div_mod (g / 16 / 16) 16). pose proof (Z.mod_pos_bound (g / 16 / 16) 16).
  destruct (4096 <=? g) eqn:E1, (256 <=? g) eqn:E2, (16 <=? g) eqn:E3; bool_hyps; try lia;
    str_norm; rewrite !read_hex_digit by lia; rewrite read_hex_stop by done; eexists;
    (split; [|repeat f_equal; lia]); lia.
Qed.

Lemma appendHex_head g :
  0 ≤ g < 65536 → ∃ d s, 0 ≤ d < 16 ∧ appendHex g = String (digit_char d) s.
Proof.
  intros Hg. unfold appendHex, digit_str.
  assert (0 ≤ g / 4096 < 16) by (split; [apply Z.div_pos; lia|apply Z.div_lt_upper_bound; lia]).
  pose proof (Z.mod_pos_bound (g / 256) 16). pose proof (Z.mod_pos_bound (g / 16) 16).
  pose proof (Z.mod_pos_bound g 16).
  destruct (4096 <=? g), (256 <=? g), (16 <=? g); str_norm; eexists _, _; (split; [|reflexivity]); lia.
Qed.

(** Groups joined by colons. *)
Fixpoint hex_join (gs : list Z) : string :=
  match gs with
  | [] => EmptyString
  | [g] => appendHex g
  | g :: gs' => appendHex g +:+ ":" +:+ hex_join gs'
  end.

Definition is_group (g : Z) : Prop := 0 ≤ g < 65536.

Lemma hex_join_head g gs :
  is_group g → ∃ d s, 0 ≤ d < 16 ∧ hex_join (g :: gs) = String (digit_char d) s.
Proof.
  intros Hg. destruct (appendHex_head g Hg) as (d & s & Hd & E).
  destruct gs as [|g' gs]; simpl; rewrite E; [by eauto|]. str_norm. eauto.
Qed.

Lemma digit_not_colon d : 0 ≤ d < 16 → Ascii.eqb (digit_char d) ":" = false.
Proof.
  intros H. apply negb_true_iff.
  exact (Z_forallb_bounded (λ d, negb (Ascii.eqb (digit_char d) ":")) 16 eq_refl d H).
Qed.

(** One loop iteration over "group:more". *)
Lemma groups_step room g s gs ell d s' :
  is_group g → s = String (digit_char d) s' → 0 ≤ d < 16 →
  parseIPv6Groups (S room) (appendHex g +:+ ":" +:+ s) gs ell =
  parseIPv6Groups room s (gs ++ [g]) ell.
Proof.
  intros Hg -> Hd. destruct (read_hex_group g (":" +:+ String (digit_char d) s') Hg eq_refl) as (off & Ho & E).
  cbn [parseIPv6Groups]. rewrite E. destruct (off =? 0)%nat eqn:E0; [bool_hyps; lia|].
  str_norm. simpl. by rewrite (digit_not_colon d Hd).
Qed.

(** The last group of the text. *)
Lemma groups_last room g gs ell :
  is_group g → parseIPv6Groups (S room) (appendHex g) gs ell = Some (gs ++ [g], ell, EmptyString).
Proof.
  intros Hg. destruct (read_hex_group g "" Hg eq_refl) as (off & Ho & E).
  rewrite app_nil_r_string in E. cbn [parseIPv6Groups]. rewrite E.
  destruct (off =? 0)%nat eqn:E0; [bool_hyps; lia|done].
Qed.

(** A group followed by the ellipsis. *)
Lemma groups_ellipsis room g t gs :
  is_group g →
  parseIPv6Groups (S room) (appendHex g +:+ "::" +:+ t) gs None =
  if is_empty t then Some (gs ++ [g], Some (S (length gs)), EmptyString)
  else parseIPv6Groups room t (gs ++ [g]) (Some (S (length gs))).
Proof.
  intros Hg. destruct (read_hex_group g ("::" +:+ t) Hg eq_refl) as (off & Ho & E).
  cbn [parseIPv6Groups]. rewrite E. destruct (off =? 0)%nat eqn:E0; [bool_hyps; lia|].
  str_norm. reflexivity.
Qed.

Lemma groups_join l room gs ell :
  l ≠ [] → Forall is_group l → (length l ≤ room)%nat →
  parseIPv6Groups room (hex_join l) gs ell = Some (gs ++ l, ell, EmptyString).
Proof.
  revert room gs. induction l as [|g l IH]; intros room gs Hne Hl Hr; [done|].
  apply Forall_cons in Hl as [Hg Hl]. destruct room as [|room]; [simpl in Hr; lia|].
  destruct l as [|g' l]; [by apply groups_last|].
  change (hex_join (g :: g' :: l)) with (appendHex g +:+ ":" +:+ hex_join (g' :: l)).
  pose proof Hl as Hl'. apply Forall_cons in Hl' as [Hg' _].
  destruct (hex_join_head g' l Hg') as (d & s' & Hd & E).
  erewrite groups_step by eassumption. rewrite IH by (simpl in *; done || lia).
  by rewrite <- app_assoc.
Qed.

Lemma groups_join_ellipsis l t room gs :
  l ≠ [] → Forall is_group l → (length l ≤ room)%nat →
  parseIPv6Groups room (hex_join l +:+ "::" +:+ t) gs None =
  if is_empty t then Some (gs ++ l, Some (length (gs ++ l)), EmptyString)
  else parseIPv6Groups (room - length l) t (gs ++ l) (Some (length (gs ++ l))).
Proof.
  revert room gs. induction l as [|g l IH]; intros room gs Hne Hl Hr; [done|].
  apply Forall_cons in Hl as [Hg Hl]. destruct room as [|room]; [simpl in Hr; lia|].
  destruct l as [|g' l].
  - cbn [hex_join]. rewrite groups_ellipsis by done. rewrite length_app.
    replace (length gs + length [g])%nat with (S (length gs)) by (simpl; lia).
    by replace (S room - length [g])%nat with room by (simpl; lia).
  - change (hex_join (g :: g' :: l)) with (appendHex g +:+ ":" +:+ hex_join (g' :: l)).
    rewrite !app_assoc_string. pose proof Hl as Hl'. apply Forall_cons in Hl' as [Hg' _].
    destruct (hex_join_head g' l Hg') as (d & s' & Hd & E).
    erewrite groups_step; [|done|by rewrite E, append_cons|done].
    rewrite IH by (simpl in *; done || lia). by rewrite <- app_assoc.
Qed.

(** *** The compressed zero run *)

Definition run_ok (gs : list Z) (b : nat * nat) : Prop :=
  b = (255, 255)%nat ∨
  ((b.1 + 2 ≤ b.2)%nat ∧ (b.2 ≤ length gs)%nat ∧
   gs = take b.1 gs ++ replicate (b.2 - b.1) 0 ++ drop b.2 gs).

Lemma leading_zeros_spec gs :
  gs = replicate (leading_zeros gs) 0 ++ drop (leading_zeros gs) gs.
Proof.
  induction gs as [|g gs IH]; simpl; [done|].
  destruct (g =? 0) eqn:E; [|done]. bool_hyps. subst. simpl. by f_equal.
Qed.

Lemma leading_zeros_le gs : (leading_zeros gs ≤ length gs)%nat.
Proof. induction gs as [|g gs IH]; simpl; [lia|]. destruct (g =? 0); simpl; lia. Qed.

Lemma zero_run_ok gs : run_ok gs (zero_run gs).
Proof.
  unfold zero_run. set (f := λ best i, _).
  assert (H : ∀ l b, run_ok gs b → run_ok gs (fold_left f l b)).
  { induction l as [|i l IH]; intros b Hb; simpl; [done|]. apply IH. unfold f.
    pose proof (leading_zeros_spec (drop i gs)) as Hz.
    pose proof (leading_zeros_le (drop i gs)) as Hle. rewrite length_drop in Hle.
    set (k := leading_zeros (drop i gs)) in *.
    destruct ((2 <=? k)%nat && (b.2 - b.1 <? k)%nat) eqn:E; [|done].
    bool_hyps. right. cbn [fst snd]. split_and!; [lia|lia|].
    replace (i + k - i)%nat with k by lia.
    rewrite <- (take_drop i gs) at 1. f_equal. rewrite Hz at 1. by rewrite drop_drop. }
  apply H. by left.
Qed.

Lemma groups6_length n : length (groups6 n) = 8%nat.
Proof. done. Qed.

Lemma groups6_range n : Forall is_group (groups6 n).
Proof. unfold groups6, is_group. repeat constructor; apply Z.mod_pos_bound; lia. Qed.

(** What [appendTo6] writes, in terms of [hex_join]. *)
Lemma append_groups_plain gs :
  length gs = 8%nat → append_groups 8 gs 255 255 0 = hex_join gs.
Proof.
  intros H. do 8 (destruct gs as [|? gs]; [done|]). destruct gs; [|done].
  cbn -[appendHex]. by rewrite !app_nil_r_string.
Qed.

Lemma append_groups_run gs zs ze :
  length gs = 8%nat → (zs + 2 ≤ ze)%nat → (ze ≤ 8)%nat →
  append_groups 8 gs zs ze 0 = hex_join (take zs gs) +:+ "::" +:+ hex_join (drop ze gs).
Proof.
  intros H H1 H2. do 8 (destruct gs as [|? gs]; [done|]). destruct gs; [|done].
  assert (Hz : (zs ∈ seq 0 7) ∧ (ze ∈ seq 0 9)) by (rewrite !elem_of_seq; lia).
  destruct Hz as [Hs He]. simpl in Hs, He.
  repeat (rewrite elem_of_cons in Hs || rewrite elem_of_cons in He).
  rewrite elem_of_nil in Hs, He.
  repeat match goal with H : _ ∨ _ |- _ => destruct H as [->|H] end; try lia; try done;
    cbn -[appendHex]; rewrite ?append_nil, ?app_nil_r_string, ?app_assoc_string; reflexivity.
Qed.

(** The bytes of a printed address. *)
Definition addr_byte (c : ascii) : bool :=
  is_some (hex_val c) || Ascii.eqb c "." || Ascii.eqb c ":".

Lemma addr_byte_digit d : 0 ≤ d < 16 → addr_byte (digit_char d) = true.
Proof. intros H. exact (Z_forallb_bounded (λ d, addr_byte (digit_char d)) 16 eq_refl d H). Qed.

Lemma addr_byte_plain c : addr_byte c = true → plain_byte c = true.
Proof. destruct c as [[] [] [] [] [] [] [] []]; vm_compute; congruence. Qed.

Lemma appendDecimal_bytes b : 0 ≤ b < 256 → str_forallb addr_byte (appendDecimal b) = true.
Proof.
  intros Hb. unfold appendDecimal, digit_str.
  assert (0 ≤ b / 100 < 16) by (split; [apply Z.div_pos; lia|apply Z.div_lt_upper_bound; lia]).
  pose proof (Z.mod_pos_bound (b / 10) 10). pose proof (Z.mod_pos_bound b 10).
  destruct (100 <=? b), (10 <=? b); str_norm; cbn [str_forallb];
    rewrite !addr_byte_digit by lia; done.
Qed.

Lemma appendHex_bytes g : is_group g → str_forallb addr_byte (appendHex g) = true.
Proof.
  intros Hg. unfold is_group in Hg. unfold appendHex, digit_str.
  assert (0 ≤ g / 4096 < 16) by (split; [apply Z.div_pos; lia|apply Z.div_lt_upper_bound; lia]).
  pose proof (Z.mod_pos_bound (g / 256) 16). pose proof (Z.mod_pos_bound (g / 16) 16).
  pose proof (Z.mod_pos_bound g 16).
  destruct (4096 <=? g), (256 <=? g), (16 <=? g); str_norm; cbn [str_forallb];
    rewrite !addr_byte_digit by lia; done.
Qed.

Lemma string4_bytes n : 0 ≤ n < 2 ^ 32 → str_forallb addr_byte (string4 n) = true.
Proof.
  intros Hn. pose proof (octets_range n Hn) as Hr. unfold string4, octets in *.
  rewrite !Forall_cons in Hr. rewrite !str_forallb_app, !appendDecimal_bytes by tauto. done.
Qed.

Lemma hex_join_bytes gs : Forall is_group gs → str_forallb addr_byte (hex_join gs) = true.
Proof.
  induction 1 as [|g gs Hg Hgs IH]; [done|]. destruct gs as [|g' gs]; [by apply appendHex_bytes|].
  change (hex_join (g :: g' :: gs)) with (appendHex g +:+ ":" +:+ hex_join (g' :: gs)).
  by rewrite !str_forallb_app, appendHex_bytes, IH.
Qed.

(** The two shapes of a printed IPv6 value. *)
Lemma string6_shape n :
  (string6 n = hex_join (groups6 n)) ∨
  ∃ a b, Forall is_group a ∧ Forall is_group b ∧ (length a + length b ≤ 6)%nat ∧
    string6 n = hex_join a +:+ "::" +:+ hex_join b ∧
    groups6 n = a ++ replicate (8 - length (a ++ b)) 0 ++ b.
Proof.
  unfold string6. pose proof (zero_run_ok (groups6 n)) as Hr.
  pose proof (groups6_range n) as Hg. pose proof (groups6_length n) as Hl.
  destruct (zero_run (groups6 n)) as [zs ze]. destruct Hr as [[= -> ->]|(H1 & H2 & H3)].
  - left. by apply append_groups_plain.
  - right. cbn [fst snd] in *. exists (take zs (groups6 n)), (drop ze (groups6 n)).
    split_and!; [by apply Forall_take|by apply Forall_drop| | |].
    + rewrite length_take, length_drop. lia.
    + apply append_groups_run; lia.
    + rewrite length_app, length_take, length_drop, Hl.
      replace (8 - (zs `min` 8 + (8 - ze)))%nat with (ze - zs)%nat by lia. done.
Qed.

Lemma string6_bytes n : str_forallb addr_byte (string6 n) = true.
Proof.
  destruct (string6_shape n) as [->|(a & b & Ha & Hb & _ & -> & _)].
  - apply hex_join_bytes, groups6_range.
  - by rewrite !str_forallb_app, !hex_join_bytes.
Qed.

Lemma is_empty_hex_join b : Forall is_group b → b ≠ [] → is_empty (hex_join b) = false.
Proof.
  destruct b as [|g b]; [done|]. intros [Hg _]%Forall_cons _.
  destruct (hex_join_head g b Hg) as (d & s & _ & ->). done.
Qed.

Lemma parseIPv6_no_zone s : has_byte "%" s = false → parseIPv6 s = parseIPv6_body s EmptyString.
Proof. intros H. unfold parseIPv6, split_zone. by rewrite cut_byte_none. Qed.

Lemma body_digit_head d s' :
  0 ≤ d < 16 →
  parseIPv6_body (String (digit_char d) s') "" =
  match parseIPv6Groups 8 (String (digit_char d) s') [] None with
  | None => None
  | Some (gs, ell', rest) =>
      if negb (is_empty rest) then None
      else match expand_groups gs ell' with
           | None => None
           | Some gs' => Some (Addr6 (be_value 65536 gs') "")
           end
  end.
Proof.
  intros Hd. pose proof (digit_not_colon d Hd) as H. unfold parseIPv6_body, split_ellipsis.
  destruct (digit_char d) as [[] [] [] [] [] [] [] []]; try done.
Qed.

Lemma body_plain gs :
  Forall is_group gs → length gs = 8%nat →
  parseIPv6_body (hex_join gs) "" = Some (Addr6 (be_value 65536 gs) "").
Proof.
  intros Hg Hl. destruct gs as [|g gs]; [done|].
  pose proof Hg as Hg'. apply Forall_cons in Hg' as [Hg0 _].
  destruct (hex_join_head g gs Hg0) as (d & s' & Hd & E). rewrite E, body_digit_head, <- E by done.
  rewrite groups_join by (done || lia). cbn [app is_empty negb].
  unfold expand_groups. by rewrite Hl.
Qed.

Lemma take_drop_ell (a b : list Z) n :
  take (length a) (a ++ b) ++ n ++ drop (length a) (a ++ b) = a ++ n ++ b.
Proof. by rewrite take_app_length, drop_app_length. Qed.

Lemma be_value_zeros k : be_value 65536 (replicate k 0) = 0.
Proof. unfold be_value. induction k as [|k IH]; simpl; [done|]. by rewrite Z.mul_0_l. Qed.

Lemma expand_ell (a b : list Z) :
  (length a + length b ≤ 6)%nat →
  expand_groups (a ++ b) (Some (length a)) = Some (a ++ replicate (8 - length (a ++ b)) 0 ++ b).
Proof.
  intros H. unfold expand_groups. rewrite length_app.
  destruct (length a + length b <? 8)%nat eqn:E; [|bool_hyps; lia]. by rewrite take_drop_ell.
Qed.

Lemma body_ellipsis_front b :
  Forall is_group b → (length b ≤ 6)%nat →
  parseIPv6_body ("::" +:+ hex_join b) "" =
  Some (Addr6 (be_value 65536 (replicate (8 - length b) 0 ++ b)) "").
Proof.
  intros Hb Hl. unfold parseIPv6_body, split_ellipsis. str_norm. destruct b as [|g b]; [done|].
  cbn [is_some andb]. rewrite is_empty_hex_join, groups_join by (done || lia).
  cbn [app is_empty negb]. pose proof (expand_ell [] (g :: b) Hl) as E.
  change (length []) with 0%nat in E. cbn [app] in E. by rewrite E.
Qed.

Lemma body_ellipsis a b :
  Forall is_group a → Forall is_group b → a ≠ [] → (length a + length b ≤ 6)%nat →
  parseIPv6_body (hex_join a +:+ "::" +:+ hex_join b) "" =
  Some (Addr6 (be_value 65536 (a ++ replicate (8 - length (a ++ b)) 0 ++ b)) "").
Proof.
  intros Ha Hb Hne Hl. destruct a as [|g a]; [done|].
  pose proof Ha as Ha'. apply Forall_cons in Ha' as [Hg _].
  destruct (hex_join_head g a Hg) as (d & s' & Hd & E).
  rewrite E at 1. rewrite append_cons, body_digit_head by done.
  rewrite <- append_cons, <- E, groups_join_ellipsis by (done || lia). cbn [app].
  destruct b as [|g' b].
  - cbn [hex_join is_empty negb]. pose proof (expand_ell (g :: a) [] Hl) as Hx.
    rewrite app_nil_r in Hx. by rewrite Hx, !app_nil_r.
  - rewrite is_empty_hex_join, groups_join by (done || simpl in *; lia).
    cbn [is_empty negb]. change (g :: a ++ g' :: b) with ((g :: a) ++ g' :: b).
    by rewrite (expand_ell (g :: a) (g' :: b)).
Qed.

Lemma groups6_value n : 0 ≤ n < 2 ^ 128 → be_value 65536 (groups6 n) = n.
Proof.
  intros Hn. unfold be_value, groups6. cbn [List.map fold_left].
  set (q := λ i, n / 2 ^ (16 * i)).
  assert (Hstep : ∀ i, 0 ≤ i → q i = q (i + 1) * 65536 + n / 2 ^ (16 * i) mod 65536).
  { intros i Hi. unfold q. rewrite (Z.div_mod (n / 2 ^ (16 * i)) 65536) at 1 by lia.
    rewrite Z.div_div by (try lia; apply pow2_pos; lia).
    replace (2 ^ (16 * i) * 65536) with (2 ^ (16 * (i + 1)))
      by (replace (16 * (i + 1)) with (16 * i + 16) by lia; rewrite pow2_split by lia; done). lia. }
  assert (H8 : q 8 = 0) by (apply Z.div_small; exact Hn).
  assert (H0 : q 0 = n) by (unfold q; apply Z.div_1_r).
  pose proof (Hstep 0 ltac:(lia)) as A0. pose proof (Hstep 1 ltac:(lia)) as A1.
  pose proof (Hstep 2 ltac:(lia)) as A2. pose proof (Hstep 3 ltac:(lia)) as A3.
  pose proof (Hstep 4 ltac:(lia)) as A4. pose proof (Hstep 5 ltac:(lia)) as A5.
  pose proof (Hstep 6 ltac:(lia)) as A6. pose proof (Hstep 7 ltac:(lia)) as A7.
  change (0 + 1) with 1 in A0. change (1 + 1) with 2 in A1. change (2 + 1) with 3 in A2.
  change (3 + 1) with 4 in A3. change (4 + 1) with 5 in A4. change (5 + 1) with 6 in A5.
  change (6 + 1) with 7 in A6. change (7 + 1) with 8 in A7.
  rewrite H8 in A7. rewrite H0 in A0. clear Hstep H8 H0. clearbody q. lia.
Qed.

Lemma addr_kind_hex g s : is_group g → addr_kind (appendHex g +:+ s) = addr_kind s.
Proof.
  intros Hg. unfold is_group in Hg. unfold appendHex, digit_str.
  assert (0 ≤ g / 4096 < 16) by (split; [apply Z.div_pos; lia|apply Z.div_lt_upper_bound; lia]).
  pose proof (Z.mod_pos_bound (g / 256) 16). pose proof (Z.mod_pos_bound (g / 16) 16).
  pose proof (Z.mod_pos_bound g 16).
  destruct (4096 <=? g), (256 <=? g), (16 <=? g); str_norm; rewrite !addr_kind_digit by lia; done.
Qed.

Lemma addr_kind_join gs t :
  Forall is_group gs → addr_kind (hex_join gs +:+ ":" +:+ t) = Some ":"%char.
Proof.
  destruct 1 as [|g gs Hg Hgs]; [done|]. destruct gs as [|g' gs].
  - cbn [hex_join]. by rewrite addr_kind_hex.
  - change (hex_join (g :: g' :: gs)) with (appendHex g +:+ ":" +:+ hex_join (g' :: gs)).
    by rewrite app_assoc_string, addr_kind_hex.
Qed.

Lemma addr_kind_string6 n : addr_kind (string6 n) = Some ":"%char.
Proof.
  destruct (string6_shape n) as [->|(a & b & Ha & Hb & _ & -> & _)].
  - pose proof (groups6_range n) as Hg. unfold groups6 in *. cbn [List.map] in *.
    rewrite Forall_cons in Hg. cbn [hex_join]. rewrite addr_kind_hex by tauto. done.
  - by apply (addr_kind_join a (":" +:+ hex_join b)).
Qed.

Lemma parseIPv6_string6 n : 0 ≤ n < 2 ^ 128 → parseIPv6 (string6 n) = Some (Addr6 n "").
Proof.
  intros Hn. rewrite parseIPv6_no_zone
    by (apply (str_forallb_has_byte addr_byte); [done|apply string6_bytes]).
  rewrite <- (groups6_value n Hn) at 2.
  destruct (string6_shape n) as [->|(a & b & Ha & Hb & Hl & -> & Eg)].
  - apply body_plain; [apply groups6_range|done].
  - rewrite Eg. destruct a as [|g a]; [|by apply body_ellipsis].
    apply (body_ellipsis_front b); [done|simpl in Hl; lia].
Qed.

(** The embedded IPv4 of a mapped address: the octets are read as a group
    first, then again as dotted text. *)
Lemma read_hex_decimal b s :
  0 ≤ b < 256 →
  ∃ v off, off ≠ 0%nat ∧ read_hex (appendDecimal b +:+ "." +:+ s) 0 0 = Some (v, off, "." +:+ s).
Proof.
  intros Hb. unfold appendDecimal, digit_str.
  assert (0 ≤ b / 100 < 3) by (split; [apply Z.div_pos; lia|apply Z.div_lt_upper_bound; lia]).
  pose proof (Z.mod_pos_bound (b / 10) 10). pose proof (Z.mod_pos_bound b 10).
  destruct (100 <=? b), (10 <=? b); str_norm; rewrite !read_hex_digit by lia;
    rewrite read_hex_stop by done; eexists _, _; (split; [|reflexivity]); lia.
Qed.

Lemma mapped_groups n : 0 ≤ n < 2 ^ 32 →
  be_value 65536 [0; 0; 0; 0; 0; 65535; n / 2 ^ 24 * 256 + n / 2 ^ 16 mod 256;
                  n / 2 ^ 8 mod 256 * 256 + n mod 256] = mapped_prefix * 2 ^ 32 + n.
Proof.
  intros Hn. pose proof (octets_value n Hn) as Ho. unfold be_value, octets, mapped_prefix in *.
  cbn [fold_left] in *. lia.
Qed.

Lemma parseIPv6_mapped n :
  0 ≤ n < 2 ^ 32 → parseIPv6 ("::ffff:" +:+ string4 n) = Some (Addr6 (mapped_prefix * 2 ^ 32 + n) "").
Proof.
  intros Hn. rewrite parseIPv6_no_zone by
    (rewrite has_byte_app; apply (str_forallb_has_byte addr_byte); [done|by apply string4_bytes]).
  unfold parseIPv6_body, split_ellipsis. str_norm. cbn [is_some is_empty andb].
  change (String "f" (String "f" (String "f" (String "f" (String ":" (string4 n))))))
    with (appendHex 65535 +:+ ":" +:+ string4 n).
  pose proof (octets_range n Hn) as Hr. pose proof (parse_string4 n Hn) as Hp.
  unfold string4, octets in Hr, Hp |- *. rewrite !Forall_cons in Hr. destruct Hr as (Ha & Hb & Hc & Hd & _).
  set (s4 := appendDecimal (n / 2 ^ 24) +:+ _) in *.
  assert (Hh : ∃ d s', s4 = String (digit_char d) s' ∧ 0 ≤ d < 16).
  { unfold s4, appendDecimal, digit_str. pose proof (Z.mod_pos_bound (n / 2 ^ 24 / 10) 10).
    pose proof (Z.mod_pos_bound (n / 2 ^ 24) 10).
    assert (0 ≤ n / 2 ^ 24 / 100 < 16) by (split; [apply Z.div_pos; lia|apply Z.div_lt_upper_bound; lia]).
    destruct (100 <=? n / 2 ^ 24), (10 <=? n / 2 ^ 24); str_norm; eexists _, _; (split; [reflexivity|]); lia. }
  destruct Hh as (d & s' & Es & Hd').
  rewrite (groups_step 7 65535 s4 [] (Some 0%nat) d s') by (done || unfold is_group; lia).
  cbn [parseIPv6Groups]. unfold s4 at 1.
  destruct (read_hex_decimal (n / 2 ^ 24) (appendDecimal (n / 2 ^ 16 mod 256) +:+ "." +:+
    appendDecimal (n / 2 ^ 8 mod 256) +:+ "." +:+ appendDecimal (n mod 256)) Ha) as (v & off & Hoff & ->).
  destruct (off =? 0)%nat eqn:E0; [bool_hyps; lia|]. str_norm. cbn -[be_value Z.div Z.modulo Z.mul Z.add s4].
  rewrite Hp. cbn -[be_value Z.div Z.modulo Z.mul Z.add Z.pow mapped_prefix]. by rewrite mapped_groups.
Qed.

(** Printing a zone-free address and parsing it gives the address back. *)
Lemma ParseAddr_String a :
  Addr_wf a → Addr_IsValid a = true → Addr_Zone a = ""%string → ParseAddr (Addr_String a) = Some a.
Proof.
  intros Hwf Hv Hz. destruct a as [|n|n z]; [done| |]; simpl in Hwf, Hz.
  - cbn [Addr_String]. unfold ParseAddr. rewrite addr_kind_string4 by done. by apply parseIPv4_string4.
  - subst z. cbn [Addr_String zone_suffix is_empty]. rewrite !app_nil_r_string.
    destruct (is4In6_value n) eqn:E.
    + unfold is4In6_value in E. bool_hyps.
      pose proof (Z.mod_pos_bound n (2 ^ 32)). unfold ParseAddr. cbn -[parseIPv6 Z.pow string4].
      rewrite parseIPv6_mapped by lia. do 2 f_equal.
      rewrite (Z.div_mod n (2 ^ 32)) at 2 by lia. rewrite E. lia.
    + unfold ParseAddr. rewrite addr_kind_string6. by apply parseIPv6_string6.
Qed.
