(* ===== verification/GoIP.v ===== *)
(** * net.IP, net.IPNet, netip.Prefix and net.HardwareAddr

    The rest of the Go networking library the sources use, on top of the
    addresses of GoNet: 4- and 16-byte [net.IP] values, CIDR blocks, prefixes
    and MAC addresses, with the interval characterisation of containment. *)

From S2P Require Import Prelude GoNet.

(** ** net.IP *)

(** A [nil] slice, 4 bytes or 16 bytes (big-endian value). *)
Inductive IP : Type :=
| IPnil
| IP4 (n : Z)
| IP16 (n : Z).

#[export] Instance IP_eq_dec : EqDecision IP.
Proof. solve_decision. Defined.

Definition IP_wf (ip : IP) : Prop :=
  match ip with
  | IPnil => True
  | IP4 n => 0 ≤ n < 2 ^ 32
  | IP16 n => 0 ≤ n < 2 ^ 128
  end.

(** [ip.To4()]: [IPnil] when the address is not IPv4. *)
Definition To4 (ip : IP) : IP :=
  match ip with
  | IP4 n => IP4 n
  | IP16 n => if is4In6_value n then IP4 (n mod 2 ^ 32) else IPnil
  | IPnil => IPnil
  end.

Definition To16 (ip : IP) : IP :=
  match ip with
  | IP4 n => IP16 (mapped_prefix * 2 ^ 32 + n)
  | _ => ip
  end.

(** [netip.Addr.As16] as a slice. *)
Definition As16 (a : Addr) : IP :=
  match a with
  | AddrInvalid => IP16 0
  | Addr4 n => IP16 (mapped_prefix * 2 ^ 32 + n)
  | Addr6 n _ => IP16 n
  end.

Definition ParseIP (s : string) : IP :=
  match ParseAddr s with
  | Some a => if is_empty (Addr_Zone a) then As16 a else IPnil
  | None => IPnil
  end.

Definition IP_String (ip : IP) : string :=
  match To4 ip with
  | IP4 n => string4 n
  | _ => match ip with IP16 n => Addr_String (Addr6 n "") | _ => "<nil>" end
  end.

Definition IP_Equal (a b : IP) : bool :=
  match a, b with
  | IPnil, IPnil => true
  | IP4 x, IP4 y => x =? y
  | IP16 x, IP16 y => x =? y
  | IP4 x, IP16 y => is4In6_value y && (y mod 2 ^ 32 =? x)
  | IP16 x, IP4 y => is4In6_value x && (x mod 2 ^ 32 =? y)
  | _, _ => false
  end.

(** ** net.IPMask and net.IPNet *)

Record IPMask : Type := { mask_ones : Z; mask_bits : Z }.

Definition CIDRMask (ones bits : Z) : IPMask := {| mask_ones := ones; mask_bits := bits |}.
Definition mask_word (m : IPMask) : Z := mask_value (mask_ones m) (mask_bits m).

(** A mask viewed as an address, [net.IP(mask)]. *)
Definition mask_IP (m : IPMask) : IP :=
  if mask_bits m =? 32 then IP4 (mask_word m) else IP16 (mask_word m).

Record IPNet : Type := { net_IP : IP; net_Mask : IPMask }.

(** [ip.Mask(m)] for the 16-byte addresses [net.ParseCIDR] builds. *)
Definition IP_Mask (ip : IP) (m : IPMask) : IP :=
  match ip with
  | IP16 n =>
      if mask_bits m =? 32 then
        if is4In6_value n then IP4 (Z.land (n mod 2 ^ 32) (mask_word m)) else IPnil
      else IP16 (Z.land n (mask_word m))
  | IP4 n => if mask_bits m =? 32 then IP4 (Z.land n (mask_word m)) else IPnil
  | IPnil => IPnil
  end.

(** [net.dtoi]: decimal digits (leading zeros allowed) below 0xFFFFFF. *)
Fixpoint dtoi (s : string) (n : Z) (seen : bool) : option (Z * string) :=
  match s with
  | EmptyString => if seen then Some (n, EmptyString) else None
  | String c s' =>
      match dec_val c with
      | Some d => if 16777215 <=? n * 10 + d then None else dtoi s' (n * 10 + d) true
      | None => if seen then Some (n, s) else None
      end
  end.

Definition ParseCIDR (s : string) : option (IP * IPNet) :=
  match cut_byte "/" s with
  | None => None
  | Some (addr, mask) =>
      match ParseAddr addr with
      | None => None
      | Some a =>
          if negb (is_empty (Addr_Zone a)) then None
          else match dtoi mask 0 false with
               | Some (n, rest) =>
                   if negb (is_empty rest) || (n <? 0) || (Addr_BitLen a <? n) then None
                   else let m := CIDRMask n (Addr_BitLen a) in
                        Some (As16 a, {| net_IP := IP_Mask (As16 a) m; net_Mask := m |})
               | None => None
               end
      end
  end.

(** [networkNumberAndMask]: a mapped 16-byte network is compared on its last
    four bytes. *)
Definition networkNumberAndMask (n : IPNet) : option (IP * Z) :=
  match To4 (net_IP n) with
  | IP4 v => Some (IP4 v, if mask_bits (net_Mask n) =? 32 then mask_word (net_Mask n)
                          else mask_word (net_Mask n) mod 2 ^ 32)
  | _ => match net_IP n with
         | IP16 v => if mask_bits (net_Mask n) =? 32 then None else Some (IP16 v, mask_word (net_Mask n))
         | _ => None
         end
  end.

Definition Contains (n : IPNet) (ip : IP) : bool :=
  let ip' := match To4 ip with IP4 v => IP4 v | _ => ip end in
  match networkNumberAndMask n with
  | Some (IP4 v, m) => match ip' with IP4 x => Z.land v m =? Z.land x m | _ => false end
  | Some (IP16 v, m) => match ip' with IP16 x => Z.land v m =? Z.land x m | _ => false end
  | _ => false
  end.

(** ** netip.Prefix *)

Record Prefix : Type := { pfx_addr : Addr; pfx_bits : Z }.

(** [strconv.Atoi] restricted to the texts [ParsePrefix] lets through: a
    digit, or digits without a leading zero. *)
Fixpoint all_digits (s : string) (n : Z) : option Z :=
  match s with
  | EmptyString => Some n
  | String c s' => match dec_val c with Some d => all_digits s' (n * 10 + d) | None => None end
  end.

Definition prefix_bits (s : string) : option Z :=
  match s with
  | EmptyString => None
  | String c s' =>
      if negb (is_empty s') && ((byte_of c <? 49) || (57 <? byte_of c)) then None
      else all_digits s 0
  end.

Definition ParsePrefix (s : string) : option Prefix :=
  match cut_last_byte "/" s with
  | None => None
  | Some (addr, bs) =>
      match ParseAddr addr with
      | None => None
      | Some a =>
          if Addr_Is6 a && negb (is_empty (Addr_Zone a)) then None
          else match prefix_bits bs with
               | Some b => if Addr_BitLen a <? b then None else Some {| pfx_addr := a; pfx_bits := b |}
               | None => None
               end
      end
  end.

(** [netip.PrefixFrom(a, b).Masked()]: [None] is the zero Prefix. *)
Definition Prefix_Masked (p : Prefix) : Prefix :=
  let m := mask_value (pfx_bits p) (Addr_BitLen (pfx_addr p)) in
  {| pfx_addr := match pfx_addr p with
                 | Addr4 n => Addr4 (Z.land n m)
                 | Addr6 n _ => Addr6 (Z.land n m) ""
                 | AddrInvalid => AddrInvalid
                 end;
     pfx_bits := pfx_bits p |}.

Definition Prefix_Contains (p : Prefix) (a : Addr) : bool :=
  let m := mask_value (pfx_bits p) (Addr_BitLen (pfx_addr p)) in
  match pfx_addr p, a with
  | Addr4 n, Addr4 x => Z.land n m =? Z.land x m
  | Addr6 n _, Addr6 x z => is_empty z && (Z.land n m =? Z.land x m)
  | _, _ => false
  end.

(** Decimal text of a non-negative number ([strconv.Itoa]); numbers printed
    here are prefix lengths, below 1000. *)
Definition itoa_small (n : Z) : string := appendDecimal n.

Definition Prefix_String (p : Prefix) : string :=
  Addr_String (pfx_addr p) +:+ "/" +:+ itoa_small (pfx_bits p).

(** ** net.HardwareAddr *)

Fixpoint hex_pairs (sep : option ascii) (n : nat) (s : string) : option (list Z) :=
  match n with
  | O => if is_empty s then Some [] else None
  | S n' =>
      match s with
      | String a (String b rest) =>
          match hex_val a, hex_val b with
          | Some x, Some y =>
              let rest' := match n', sep, rest with
                           | S _, Some c, String d r => if Ascii.eqb c d then Some r else None
                           | S _, Some _, EmptyString => None
                           | _, _, _ => Some rest
                           end in
              match rest' with
              | Some r => match hex_pairs sep n' r with Some l => Some (x * 16 + y :: l) | None => None end
              | None => None
              end
          | _, _ => None
          end
      | _ => None
      end
  end.

(** The dotted form "xxxx.xxxx.xxxx". *)
Fixpoint hex_quads (n : nat) (s : string) : option (list Z) :=
  match n with
  | O => if is_empty s then Some [] else None
  | S n' =>
      match s with
      | String a (String b (String c (String d rest))) =>
          match hex_val a, hex_val b, hex_val c, hex_val d with
          | Some x, Some y, Some z, Some w =>
              let rest' := match n', rest with
                           | S _, String e r => if Ascii.eqb e "." then Some r else None
                           | S _, EmptyString => None
                           | O, _ => Some rest
                           end in
              match rest' with
              | Some r => match hex_quads n' r with
                          | Some l => Some (x * 16 + y :: z * 16 + w :: l) | None => None end
              | None => None
              end
          | _, _, _, _ => None
          end
      | _ => None
      end
  end.

Definition ParseMAC (s : string) : option (list Z) :=
  let len := String.length s in
  if (len <? 14)%nat then None
  else match String.get 2 s, String.get 4 s with
       | Some c2, Some c4 =>
           if Ascii.eqb c2 ":" || Ascii.eqb c2 "-" then
             if negb ((len + 1) mod 3 =? 0)%nat then None
             else let n := ((len + 1) / 3)%nat in
                  if (n =? 6)%nat || (n =? 8)%nat || (n =? 20)%nat then hex_pairs (Some c2) n s else None
           else if Ascii.eqb c4 "." then
             if negb ((len + 1) mod 5 =? 0)%nat then None
             else let n := (2 * (len + 1) / 5)%nat in
                  if (n =? 6)%nat || (n =? 8)%nat || (n =? 20)%nat then hex_quads (n / 2) s else None
           else None
       | _, _ => None
       end.

Definition hex2 (b : Z) : string := digit_str (b / 16) +:+ digit_str (b mod 16).

(** [HardwareAddr.String]: lower-case colon notation. *)
Fixpoint MAC_String (hw : list Z) : string :=
  match hw with
  | [] => EmptyString
  | [b] => hex2 b
  | b :: hw' => hex2 b +:+ ":" +:+ MAC_String hw'
  end.

Definition mac_byte (b : Z) : Prop := 0 ≤ b < 256.

(** A printed 6-byte MAC parses back to its bytes. *)
Lemma ParseMAC_String b0 b1 b2 b3 b4 b5 :
  Forall mac_byte [b0; b1; b2; b3; b4; b5] →
  ParseMAC (MAC_String [b0; b1; b2; b3; b4; b5]) = Some [b0; b1; b2; b3; b4; b5].
Proof.
  rewrite !Forall_cons. unfold mac_byte. intros H.
  assert (Hx : ∀ b, 0 ≤ b < 256 → hex_val (digit_char (b / 16)) = Some (b / 16) ∧
                     hex_val (digit_char (b mod 16)) = Some (b mod 16) ∧ b / 16 * 16 + b mod 16 = b).
  { intros b Hb. pose proof (Z.mod_pos_bound b 16). pose proof (Z.div_mod b 16).
    rewrite !hex_val_digit; [split_and!; [done|done|lia]|lia|].
    split; [apply Z.div_pos; lia|apply Z.div_lt_upper_bound; lia]. }
  unfold MAC_String, hex2, digit_str. str_norm. unfold ParseMAC.
  cbn -[digit_char hex_val Z.div Z.modulo Z.mul Z.add].
  destruct H as (H0 & H1 & H2 & H3 & H4 & H5 & _).
  repeat match goal with
  | H : 0 ≤ ?b < 256 |- _ =>
      let E1 := fresh in let E2 := fresh in let E3 := fresh in
      destruct (Hx b H) as (E1 & E2 & E3); rewrite E1, E2, E3; clear H E1 E2;
      cbn -[digit_char hex_val Z.div Z.modulo Z.mul Z.add]
  end.
  done.
Qed.

(** ** Facts about net.IP *)

Lemma is4In6_mapped n : 0 ≤ n < 2 ^ 32 → is4In6_value (mapped_prefix * 2 ^ 32 + n) = true.
Proof.
  intros Hn. unfold is4In6_value. apply Z.eqb_eq.
  rewrite Z.add_comm, Z.div_add, Z.div_small by lia. lia.
Qed.

Lemma mapped_mod n : 0 ≤ n < 2 ^ 32 → (mapped_prefix * 2 ^ 32 + n) mod 2 ^ 32 = n.
Proof. intros Hn. rewrite Z.add_comm, Z_mod_plus_full. by apply Z.mod_small. Qed.

Lemma mapped_recompose n :
  is4In6_value n = true → mapped_prefix * 2 ^ 32 + n mod 2 ^ 32 = n.
Proof.
  unfold is4In6_value. intros H%Z.eqb_eq. rewrite <- H.
  rewrite (Z.div_mod n (2 ^ 32)) at 3 by lia. lia.
Qed.

(** The printed form of an address parses to its 16-byte form. *)
Lemma ParseIP_String ip : IP_wf ip → ip ≠ IPnil → ParseIP (IP_String ip) = To16 ip.
Proof.
  intros Hwf Hne. destruct ip as [|n|n]; [done| |]; unfold IP_String, To4, ParseIP.
  - pose proof (ParseAddr_String (Addr4 n) Hwf eq_refl eq_refl) as E.
    cbn [Addr_String] in E. by rewrite E.
  - destruct (is4In6_value n) eqn:E4.
    + assert (Hm : 0 ≤ n mod 2 ^ 32 < 2 ^ 32) by (apply Z.mod_pos_bound; lia).
      pose proof (ParseAddr_String (Addr4 (n mod 2 ^ 32)) Hm eq_refl eq_refl) as E.
      cbn [Addr_String] in E. rewrite E. cbn. by rewrite mapped_recompose.
    + by rewrite (ParseAddr_String (Addr6 n "") Hwf eq_refl eq_refl).
Qed.

(** Two addresses of the same length print alike only when they are equal. *)
Lemma IP_String_inj_4 x y :
  0 ≤ x < 2 ^ 32 → 0 ≤ y < 2 ^ 32 → IP_String (IP4 x) = IP_String (IP4 y) → x = y.
Proof.
  intros Hx Hy E. apply (f_equal ParseIP) in E.
  rewrite !ParseIP_String in E by done. cbn in E. injection E. lia.
Qed.

Lemma IP_String_inj_16 x y :
  0 ≤ x < 2 ^ 128 → 0 ≤ y < 2 ^ 128 → IP_String (IP16 x) = IP_String (IP16 y) → x = y.
Proof.
  intros Hx Hy E. apply (f_equal ParseIP) in E.
  rewrite !ParseIP_String in E by done. cbn in E. by injection E.
Qed.

(** Printed addresses use only hexadecimal digits, dots and colons. *)
Lemma IP_String_bytes ip : IP_wf ip → ip ≠ IPnil → str_forallb addr_byte (IP_String ip) = true.
Proof.
  intros Hwf Hne. destruct ip as [|n|n]; [done| |]; unfold IP_String, To4.
  - by apply string4_bytes.
  - destruct (is4In6_value n) eqn:E.
    + apply string4_bytes, Z.mod_pos_bound. lia.
    + cbn [Addr_String zone_suffix is_empty]. rewrite E, app_nil_r_string. apply string6_bytes.
Qed.

Lemma IP_String_trim ip : IP_wf ip → ip ≠ IPnil → TrimSpace (IP_String ip) = IP_String ip.
Proof.
  intros Hwf Hne. apply TrimSpace_plain, (str_forallb_impl addr_byte);
    [apply addr_byte_plain|by apply IP_String_bytes].
Qed.

Lemma ParseIP_wf_16 s n : ParseIP s = IP16 n → ∃ a, ParseAddr s = Some a ∧ As16 a = IP16 n.
Proof.
  unfold ParseIP. destruct (ParseAddr s) as [a|]; [|done].
  destruct (is_empty (Addr_Zone a)); [eauto|done].
Qed.

(** *** Values of parsed addresses are in range *)

Lemma dec_val_range c d : dec_val c = Some d → 0 ≤ d < 10.
Proof. unfold dec_val. destruct (_ && _) eqn:E; [|done]. intros [= <-]. bool_hyps. lia. Qed.

Lemma hex_val_range c d : hex_val c = Some d → 0 ≤ d < 16.
Proof.
  unfold hex_val. repeat case_match; intros; simplify_eq; bool_hyps; lia.
Qed.

Lemma parseIPv4Fields_range s val dl fs l :
  parseIPv4Fields s val dl fs = Some l → 0 ≤ val ≤ 255 → (length fs ≤ 3)%nat →
  Forall (λ b, 0 ≤ b < 256) fs → length l = 4%nat ∧ Forall (λ b, 0 ≤ b < 256) l.
Proof.
  revert val dl fs. induction s as [|c s IH]; intros val dl fs H Hv Hl Hf; simpl in H.
  - destruct (length fs <? 3)%nat eqn:E; [done|]. simplify_eq. bool_hyps.
    rewrite length_app. split; [simpl; lia|]. apply Forall_app. split; [done|].
    repeat constructor; lia.
  - destruct (dec_val c) as [d|] eqn:Ed.
    + apply dec_val_range in Ed. repeat inv_step H. bool_hyps. eapply IH in H; eauto; lia.
    + repeat inv_step H. bool_hyps. eapply IH in H; eauto; [lia| |].
      * rewrite length_app. simpl. lia.
      * apply Forall_app. split; [done|]. repeat constructor; lia.
Qed.

Lemma be_value_snoc b l d : be_value b (l ++ [d]) = be_value b l * b + d.
Proof. unfold be_value. by rewrite fold_left_app. Qed.

Lemma be_value_range b l :
  0 < b → Forall (λ d, 0 ≤ d < b) l → 0 ≤ be_value b l < b ^ Z.of_nat (length l).
Proof.
  intros Hb. induction l as [|d l IH] using rev_ind; intros H.
  - unfold be_value. simpl. change (b ^ 0) with 1. lia.
  - apply Forall_app in H as [Hl Hd]. rewrite Forall_singleton in Hd. specialize (IH Hl).
    rewrite be_value_snoc, length_app, Nat2Z.inj_add, Z.pow_add_r by lia.
    change (Z.of_nat (length [d])) with 1. rewrite Z.pow_1_r. nia.
Qed.

Lemma parseIPv4_wf s a : parseIPv4 s = Some a → ∃ n, a = Addr4 n ∧ 0 ≤ n < 2 ^ 32.
Proof.
  unfold parseIPv4. destruct (parseIPv4Fields s 0 0 []) as [l|] eqn:E; [|done].
  intros [= <-]. apply parseIPv4Fields_range in E as [Hl Hf]; [|lia|simpl; lia|constructor].
  eexists. split; [done|]. pose proof (be_value_range 256 l ltac:(lia) Hf) as Hr.
  rewrite Hl in Hr. exact Hr.
Qed.

Lemma read_hex_range s off acc v off' rest :
  read_hex s off acc = Some (v, off', rest) → 0 ≤ acc ≤ 65535 → is_group v.
Proof.
  unfold is_group. revert off acc. induction s as [|c s IH]; intros off acc H Ha; simpl in H.
  - simplify_eq. lia.
  - destruct (hex_val c) as [d|] eqn:Ed; [|simplify_eq; lia].
    apply hex_val_range in Ed. repeat inv_step H. bool_hyps. eapply IH in H; lia.
Qed.

Lemma groups_range room s gs ell gs' ell' rest :
  parseIPv6Groups room s gs ell = Some (gs', ell', rest) → (length gs + room ≤ 8)%nat →
  (∀ e, ell = Some e → (e ≤ length gs)%nat) → Forall is_group gs →
  Forall is_group gs' ∧ (length gs' ≤ 8)%nat ∧ (∀ e, ell' = Some e → (e ≤ length gs')%nat).
Proof.
  assert (Hsnoc : ∀ (l : list Z) v, is_group v → Forall is_group l → Forall is_group (l ++ [v])).
  { intros l v Hv Hl. apply Forall_app. split; [done|by constructor]. }
  revert s gs ell. induction room as [|room IH]; intros s gs ell H Hr He Hg; simpl in H.
  { simplify_eq. split_and!; [done|lia|done]. }
  destruct (read_hex s 0 0) as [[[acc off] rest0]|] eqn:Eh; [|done].
  pose proof (read_hex_range _ _ _ _ _ _ Eh ltac:(lia)) as Hacc.
  assert (Hlen : length (gs ++ [acc]) = S (length gs)) by (rewrite length_app; simpl; lia).
  destruct (off =? 0)%nat; [done|]. destruct rest0 as [|c rest0].
  { simplify_eq. split_and!; [by apply Hsnoc|lia|]. intros e ->. specialize (He e eq_refl). lia. }
  destruct (Ascii.eqb c ".") eqn:Edot.
  { destruct (_ && _); [done|]. destruct (8 <? length gs + 2)%nat eqn:E8; [done|].
    destruct (parseIPv4Fields s 0 0 []) as [l|] eqn:E4; [|done].
    apply parseIPv4Fields_range in E4 as [Hl Hf]; [|lia|simpl; lia|constructor].
    do 4 (destruct l as [|? l]; [done|]). destruct l; [|done]. simplify_eq. bool_hyps.
    rewrite !Forall_cons in Hf. rewrite length_app. split_and!.
    - apply Forall_app. split; [done|]. repeat constructor; unfold is_group; lia.
    - simpl. lia.
    - intros e ->. specialize (He e eq_refl). simpl. lia. }
  destruct (Ascii.eqb c ":"); [|done]. destruct rest0 as [|c2 rest0]; [done|].
  destruct (Ascii.eqb c2 ":").
  - destruct ell; [done|]. destruct (is_empty rest0).
    + simplify_eq. split_and!; [by apply Hsnoc|lia|]. intros e [= <-]. lia.
    + eapply IH in H; [done|lia| |by apply Hsnoc]. intros e [= <-]. lia.
  - eapply IH in H; [done|lia| |by apply Hsnoc]. intros e ->. specialize (He e eq_refl). lia.
Qed.

Lemma expand_range gs ell gs' :
  expand_groups gs ell = Some gs' → Forall is_group gs → (length gs ≤ 8)%nat →
  (∀ e, ell = Some e → (e ≤ length gs)%nat) → Forall is_group gs' ∧ length gs' = 8%nat.
Proof.
  unfold expand_groups. intros H Hg Hl He.
  destruct (length gs <? 8)%nat eqn:E; bool_hyps; destruct ell as [e|]; simplify_eq; [|split; [done|lia]].
  specialize (He e eq_refl). split.
  - apply Forall_app. split; [by apply Forall_take|]. apply Forall_app. split; [|by apply Forall_drop].
    apply Forall_replicate. unfold is_group. lia.
  - rewrite !length_app, length_take, length_replicate, length_drop. lia.
Qed.

Lemma parseIPv6_wf s a : parseIPv6 s = Some a → ∃ n z, a = Addr6 n z ∧ 0 ≤ n < 2 ^ 128.
Proof.
  intros H. unfold parseIPv6 in H. destruct (split_zone s) as [[s1 z]|]; [|done].
  unfold parseIPv6_body in H. destruct (split_ellipsis s1) as [ell s2] eqn:Ep.
  assert (Hp : ∀ e, ell = Some e → e = 0%nat).
  { intros e ->. unfold split_ellipsis in Ep. repeat case_match; by simplify_eq. }
  destruct (is_some ell && is_empty s2); [simplify_eq; eexists _, _; split; [done|lia]|].
  destruct (parseIPv6Groups 8 s2 [] ell) as [[[gs ell'] rest]|] eqn:Eg; [|done].
  destruct (negb (is_empty rest)); [done|].
  destruct (expand_groups gs ell') as [gs'|] eqn:Ee; [|done]. simplify_eq.
  apply groups_range in Eg as (Hg & Hl & He);
    [|simpl; lia|intros e Hell; apply Hp in Hell; simpl; lia|constructor].
  apply expand_range in Ee as [Hg' Hl']; [|done..].
  eexists _, _. split; [done|]. pose proof (be_value_range 65536 gs' ltac:(lia) Hg') as Hr.
  rewrite Hl' in Hr. exact Hr.
Qed.

Lemma ParseAddr_wf s a : ParseAddr s = Some a → Addr_wf a ∧ Addr_IsValid a = true.
Proof.
  unfold ParseAddr. destruct (addr_kind s) as [c|]; [|done].
  destruct (Ascii.eqb c "."); [intros H; apply parseIPv4_wf in H as (n & -> & ?); done|].
  destruct (Ascii.eqb c ":"); [intros H; apply parseIPv6_wf in H as (n & z & -> & ?); done|done].
Qed.

Lemma As16_wf a : Addr_wf a → IP_wf (As16 a).
Proof. destruct a; simpl; unfold mapped_prefix; lia. Qed.

Lemma ParseIP_wf s : IP_wf (ParseIP s).
Proof.
  unfold ParseIP. destruct (ParseAddr s) as [a|] eqn:E; [|done].
  destruct (is_empty (Addr_Zone a)); [|done]. apply As16_wf. apply ParseAddr_wf in E. tauto.
Qed.

Lemma ParseIP_cases s : ParseIP s = IPnil ∨ ∃ n, ParseIP s = IP16 n ∧ 0 ≤ n < 2 ^ 128.
Proof.
  pose proof (ParseIP_wf s) as H. unfold ParseIP in *.
  destruct (ParseAddr s) as [a|]; [|by left]. destruct (is_empty (Addr_Zone a)); [|by left].
  right. destruct a; simpl in *; eexists; (split; [done|]); lia.
Qed.

(** ** CIDR blocks as intervals *)

(** The family width and value an address is compared by. *)
Definition canon (ip : IP) : option (Z * Z) :=
  match ip with
  | IPnil => None
  | IP4 n => Some (32, n)
  | IP16 n => if is4In6_value n then Some (32, n mod 2 ^ 32) else Some (128, n)
  end.

(** An aligned block of [2^hbits] addresses of a [width]-bit family. *)
Record block : Type := { blk_width : Z; blk_base : Z; blk_hbits : Z }.

Definition block_ok (b : block) : Prop :=
  (blk_width b = 32 ∨ blk_width b = 128) ∧ 0 ≤ blk_hbits b ≤ blk_width b ∧
  0 ≤ blk_base b < 2 ^ blk_width b ∧ floor_pow2 (blk_hbits b) (blk_base b) = blk_base b.

Definition in_block (b : block) (w x : Z) : Prop :=
  w = blk_width b ∧ blk_base b ≤ x < blk_base b + 2 ^ blk_hbits b.

Definition net_block (n : IPNet) : option block :=
  let h := mask_bits (net_Mask n) - mask_ones (net_Mask n) in
  match canon (net_IP n) with
  | Some (w, v) => Some {| blk_width := w; blk_base := v; blk_hbits := h |}
  | None => None
  end.

(** What [net.ParseCIDR] returns: a masked 4-byte network with a 32-bit mask
    or a masked 16-byte network with a 128-bit mask. *)
Definition net_ok (n : IPNet) : Prop :=
  let p := mask_ones (net_Mask n) in
  match net_IP n with
  | IPnil => False
  | IP4 v => mask_bits (net_Mask n) = 32 ∧ 0 ≤ p ≤ 32 ∧ 0 ≤ v < 2 ^ 32 ∧ floor_pow2 (32 - p) v = v
  | IP16 v => mask_bits (net_Mask n) = 128 ∧ 0 ≤ p ≤ 128 ∧ 0 ≤ v < 2 ^ 128 ∧ floor_pow2 (128 - p) v = v
  end.

Lemma ParseCIDR_ok s ip n : ParseCIDR s = Some (ip, n) → net_ok n ∧ IP_wf ip.
Proof.
  unfold ParseCIDR. destruct (cut_byte "/" s) as [[addr mask]|]; [|done].
  destruct (ParseAddr addr) as [a|] eqn:Ea; [|done].
  destruct (negb (is_empty (Addr_Zone a))); [done|].
  destruct (dtoi mask 0 false) as [[k rest]|]; [|done].
  destruct (_ || _) eqn:Eb; [done|]. intros [= <- <-].
  apply ParseAddr_wf in Ea as [Hwf Hv]. bool_hyps. split; [|by apply As16_wf].
  destruct a as [|v|v z]; [done| |]; unfold net_ok; cbn [As16 Addr_BitLen IP_Mask net_IP net_Mask CIDRMask mask_bits mask_ones] in *.
  - change (32 =? 32) with true. cbv iota. rewrite is4In6_mapped by done.
    rewrite mapped_mod by done. unfold mask_word, CIDRMask. cbn [mask_ones mask_bits].
    rewrite land_mask by (simpl in Hwf; lia). simpl in Hwf. split_and!; try lia.
    + apply floor_pow2_nonneg; lia.
    + pose proof (floor_pow2_range (32 - k) v ltac:(lia)). lia.
    + apply floor_pow2_idemp. lia.
  - change (128 =? 32) with false. cbv iota. unfold mask_word, CIDRMask. cbn [mask_ones mask_bits].
    rewrite land_mask by (simpl in Hwf; lia). simpl in Hwf. split_and!; try lia.
    + apply floor_pow2_nonneg; lia.
    + pose proof (floor_pow2_range (128 - k) v ltac:(lia)). lia.
    + apply floor_pow2_idemp. lia.
Qed.

(** A mapped network keeps the 16 prefix bits, so at most 32 bits are host
    bits. *)
Lemma mapped_hbits k v :
  0 ≤ k → floor_pow2 k v = v → is4In6_value v = true → k ≤ 32.
Proof.
  intros Hk Hf Hm. destruct (decide (k ≤ 32)); [done|]. exfalso.
  unfold is4In6_value, mapped_prefix in Hm. bool_hyps.
  unfold floor_pow2 in Hf. rewrite <- Hf in Hm.
  replace k with ((k - 33) + 1 + 32) in Hm by lia.
  rewrite pow2_split, Z.mul_assoc, Z.div_mul, (pow2_split (k - 33) 1), Z.mul_assoc in Hm by lia.
  change (2 ^ 1) with 2 in Hm. lia.
Qed.

Lemma floor_pow2_mod k w v :
  0 ≤ k ≤ w → floor_pow2 k v = v → floor_pow2 k (v mod 2 ^ w) = v mod 2 ^ w.
Proof.
  intros Hk Hf. pose proof (pow2_pos k ltac:(lia)).
  assert (Hd : (2 ^ k | v mod 2 ^ w)).
  { apply Z.mod_divide; [lia|]. rewrite Z.mod_mod_divide.
    - unfold floor_pow2 in Hf. rewrite <- Hf. apply Z_mod_mult.
    - exists (2 ^ (w - k)). rewrite <- pow2_split by lia. f_equal; lia. }
  destruct Hd as [q Hq]. rewrite Hq. unfold floor_pow2. by rewrite Z.div_mul by lia.
Qed.

Lemma net_block_ok n : net_ok n → ∃ b, net_block n = Some b ∧ block_ok b.
Proof.
  destruct n as [ip [p bits]]. unfold net_ok, net_block, block_ok.
  destruct ip as [|v|v]; cbn [net_IP net_Mask mask_ones mask_bits canon]; [done| |].
  - intros (-> & Hp & Hv & Hf). eexists; split; [done|]. cbn. split_and!; auto; lia.
  - intros (-> & Hp & Hv & Hf). destruct (is4In6_value v) eqn:E.
    + pose proof (mapped_hbits (128 - p) v ltac:(lia) Hf E) as Hk.
      pose proof (Z.mod_pos_bound v (2 ^ 32) ltac:(lia)).
      eexists; split; [done|]. cbn. split_and!; auto; try lia. by apply floor_pow2_mod; [lia|].
    + eexists; split; [done|]. cbn. split_and!; auto; lia.
Qed.

Lemma low_mask k : 0 ≤ k ≤ 32 → mask_value (128 - k) 128 mod 2 ^ 32 = mask_value (32 - k) 32.
Proof.
  intros Hk. rewrite !mask_value_eq by lia.
  replace (128 - (128 - k)) with k by lia. replace (32 - (32 - k)) with k by lia.
  pose proof (pow2_pos k ltac:(lia)). pose proof (pow2_le k 32 ltac:(lia)).
  change (2 ^ 128) with (79228162514264337593543950336 * 2 ^ 32).
  replace (79228162514264337593543950336 * 2 ^ 32 - 2 ^ k)
    with ((2 ^ 32 - 2 ^ k) + 79228162514264337593543950335 * 2 ^ 32) by lia.
  rewrite Z_mod_plus_full. apply Z.mod_small. lia.
Qed.

(** Comparing masked words is an interval test. *)
Lemma land_mask_interval k w v x :
  0 ≤ k ≤ w → 0 ≤ v < 2 ^ w → 0 ≤ x < 2 ^ w → floor_pow2 k v = v →
  (Z.land v (mask_value (w - k) w) =? Z.land x (mask_value (w - k) w)) = true ↔
  v ≤ x < v + 2 ^ k.
Proof.
  intros Hk Hv Hx Hf. rewrite !land_mask by lia. replace (w - (w - k)) with k by lia.
  rewrite Hf, Z.eqb_eq. split.
  - intros E. rewrite <- Hf in E. symmetry in E. apply floor_pow2_eq_iff in E; [|lia]. by rewrite Hf in E.
  - intros Hr. rewrite <- Hf at 1. symmetry. apply floor_pow2_eq_iff; [lia|]. by rewrite Hf.
Qed.

Lemma canon_wf ip w x : IP_wf ip → canon ip = Some (w, x) → (w = 32 ∨ w = 128) ∧ 0 ≤ x < 2 ^ w.
Proof.
  destruct ip as [|n|n]; simpl; intros Hwf E; simplify_eq; [lia|].
  destruct (is4In6_value n); simplify_eq; [|lia].
  split; [lia|]. apply Z.mod_pos_bound. lia.
Qed.

(** [IPNet.Contains] is membership in the block of the network. *)
Theorem Contains_block n b ip :
  net_ok n → net_block n = Some b → IP_wf ip →
  Contains n ip = true ↔ ∃ w x, canon ip = Some (w, x) ∧ in_block b w x.
Proof.
  intros Hn Hb Hip.
  assert (Hred : (∃ w x, canon ip = Some (w, x) ∧ in_block b w x) ↔
    match canon ip with Some (w, x) => in_block b w x | None => False end).
  { destruct (canon ip) as [[w x]|]; split; [intros (?&?&?&?); by simplify_eq|eauto|intros (?&?&?&?); done|done]. }
  rewrite Hred. clear Hred. unfold Contains, networkNumberAndMask.
  destruct n as [nip [p bits]]. unfold net_ok, net_block in *. cbn [net_IP net_Mask mask_ones mask_bits] in *.
  destruct nip as [|v|v]; [done| |].
  - destruct Hn as (-> & Hp & Hv & Hf). cbn [canon] in Hb. injection Hb as <-. cbn [To4].
    unfold mask_word. cbn [mask_ones mask_bits]. change (32 =? 32) with true. cbv iota.
    assert (Hgen : ∀ x, 0 ≤ x < 2 ^ 32 → (Z.land v (mask_value p 32) =? Z.land x (mask_value p 32)) = true ↔
              in_block {| blk_width := 32; blk_base := v; blk_hbits := 32 - p |} 32 x).
    { intros x Hx. replace p with (32 - (32 - p)) by lia. rewrite land_mask_interval by lia.
      unfold in_block. cbn. replace (32 - (32 - (32 - p))) with (32 - p) by lia. tauto. }
    destruct ip as [|x|x]; simpl in Hip |- *; [done|by apply Hgen|].
    destruct (is4In6_value x); [apply Hgen, Z.mod_pos_bound; lia|].
    unfold in_block. cbn. split; [done|lia].
  - destruct Hn as (-> & Hp & Hv & Hf). cbn [canon To4] in *. unfold mask_word, CIDRMask. cbn [mask_ones mask_bits].
    change (128 =? 32) with false. cbv iota.
    destruct (is4In6_value v) eqn:E; injection Hb as <-.
    + pose proof (mapped_hbits (128 - p) v ltac:(lia) Hf E) as Hk.
      pose proof (Z.mod_pos_bound v (2 ^ 32) ltac:(lia)) as Hm.
      assert (Hgen : ∀ x, 0 ≤ x < 2 ^ 32 →
                (Z.land (v mod 2 ^ 32) (mask_value p 128 mod 2 ^ 32) =? Z.land x (mask_value p 128 mod 2 ^ 32)) = true ↔
                in_block {| blk_width := 32; blk_base := v mod 2 ^ 32; blk_hbits := 128 - p |} 32 x).
      { intros x Hx. replace (mask_value p 128) with (mask_value (128 - (128 - p)) 128) by (f_equal; lia).
        rewrite low_mask by lia. rewrite land_mask_interval by (lia || (apply floor_pow2_mod; [lia|done])).
        unfold in_block. cbn. tauto. }
      destruct ip as [|x|x]; simpl in Hip |- *; [done|by apply Hgen|].
      destruct (is4In6_value x); [apply Hgen, Z.mod_pos_bound; lia|].
      unfold in_block. cbn. split; [done|lia].
    + destruct ip as [|x|x]; simpl in Hip |- *; [done|unfold in_block; cbn; split; [done|lia]|].
      destruct (is4In6_value x) eqn:Ex; [unfold in_block; cbn; split; [done|lia]|].
      replace p with (128 - (128 - p)) by lia. rewrite land_mask_interval by lia.
      unfold in_block. cbn. replace (128 - (128 - (128 - p))) with (128 - p) by lia. tauto.
Qed.
