(* ===== verification/Ipnet.v ===== *)
(** * internal/ipnet: CIDR arithmetic and allocation

    The pure library at the heart of the service: parsing a block
    ([Parse]), its usable host range, enumeration ([Hosts]), first-free and
    bulk allocation, overlap, containment, subdivision, gateway and range
    checks (ipnet.go).  [math/big] integers are [Z]. *)

From Stdlib Require Import SpecFloat.
From S2P Require Import Prelude GoNet GoIP.

(** ** Data *)

Definition MaxHostEnumerate : Z := 65536.
Definition MaxSubdivide : Z := 1024.

(** The package's errors.  [ErrNotInside] is the [ErrParse] wrapped with the
    two prefix lengths; [PanicMakeSlice] is Go's run-time panic for a slice
    of negative capacity; [ErrFuel] is not a Go error: it marks exhausted
    fuel of the probing loops and is proved unreachable. *)
Inductive ipnet_error : Type :=
| ErrParse
| ErrNotInside (prefixLen parent : Z)
| ErrTooLarge
| ErrExhausted
| PanicMakeSlice
| ErrFuel.

#[export] Instance ipnet_error_eq_dec : EqDecision ipnet_error.
Proof. solve_decision. Defined.

Record Info : Type := {
  Network : IP;
  Broadcast : IP;
  Mask : IP;
  PrefixLen : Z;
  Total : Z;
  Version : Z
}.

(** ** Helpers *)

Definition ipToInt (ip : IP) : Z :=
  match To4 ip with
  | IP4 n => n
  | _ => match To16 ip with IP16 n => n | _ => 0 end
  end.

(** The low 4 or 16 bytes of the magnitude. *)
Definition intToIP (i version : Z) : IP :=
  if version =? 6 then IP16 (Z.abs i mod 2 ^ 128) else IP4 (Z.abs i mod 2 ^ 32).

Definition normalizeIP (s : string) : string :=
  match ParseIP (TrimSpace s) with
  | IPnil => EmptyString
  | ip => IP_String ip
  end.

(** The set of canonical texts whose exclude entry is [true]. *)
Definition exclude_step (k : string) (v : bool) (out : gset string) : gset string :=
  if v then let n := normalizeIP k in if is_empty n then out else {[n]} ∪ out else out.

Definition normalizeExclude (exclude : gmap string bool) : gset string :=
  map_fold exclude_step ∅ exclude.

Definition add_gateway (gateway : string) (blocked : gset string) : gset string :=
  let gw := normalizeIP gateway in if is_empty gw then blocked else {[gw]} ∪ blocked.

(** ** Parse and ranges *)

Definition total_of (hostBits : Z) : Z :=
  if 63 <=? hostBits then MaxInt64 else 2 ^ hostBits.

Definition Parse (cidr : string) : result ipnet_error Info :=
  match ParseCIDR (TrimSpace cidr) with
  | None => Err ErrParse
  | Some (_, n) =>
      let version := match To4 (net_IP n) with IP4 _ => 4 | _ => 6 end in
      let network := match To4 (net_IP n) with IP4 v => IP4 v | _ => To16 (net_IP n) end in
      let prefix := mask_ones (net_Mask n) in
      let hostBits := mask_bits (net_Mask n) - prefix in
      let last := ipToInt network + 2 ^ hostBits - 1 in
      Ok {| Network := network;
            Broadcast := intToIP last version;
            Mask := mask_IP (net_Mask n);
            PrefixLen := prefix;
            Total := total_of hostBits;
            Version := version |}
  end.

Definition hostRange (info : Info) : Z * Z :=
  let lo := ipToInt (Network info) in
  let hi := ipToInt (Broadcast info) in
  if Version info =? 4 then
    if PrefixLen info <? 31 then (lo + 1, hi - 1) else (lo, hi)
  else if PrefixLen info <? 127 then (lo + 1, hi) else (lo, hi).

Definition boundedRange (info : Info) (skipFirst skipLast : Z) : Z * Z :=
  let '(lo, hi) := hostRange info in
  ((if 0 <? skipFirst then lo + skipFirst else lo),
   (if 0 <? skipLast then hi - skipLast else hi)).

(** [n] consecutive addresses from [cur]. *)
Fixpoint enumerate (n : nat) (cur version : Z) : list IP :=
  match n with
  | O => []
  | S n' => intToIP cur version :: enumerate n' (cur + 1) version
  end.

Definition Hosts (cidr : string) : result ipnet_error (list IP) :=
  match Parse cidr with
  | Err e => Err e
  | Ok info =>
      let '(lo, hi) := hostRange info in
      let count := hi - lo + 1 in
      if MaxHostEnumerate <? count then Err ErrTooLarge
      else if count <? 0 then Err PanicMakeSlice
      else Ok (enumerate (Z.to_nat count) lo (Version info))
  end.

(** ** First-free and bulk allocation *)

(** The probing loop of [FirstFree]: [None] when the fuel ran out,
    [Some None] when the range is exhausted. *)
Fixpoint probe (fuel : nat) (blocked : gset string) (version hi cur : Z) : option (option IP) :=
  match fuel with
  | O => None
  | S f =>
      if cur <=? hi then
        let ip := intToIP cur version in
        if decide (IP_String ip ∈ blocked) then probe f blocked version hi (cur + 1)
        else Some (Some ip)
      else Some None
  end.

(** At most one probe per blocked text, plus the winning one. *)
Definition FirstFree (cidr : string) (exclude : gmap string bool) (gateway : string)
    (skipFirst skipLast : Z) : result ipnet_error IP :=
  match Parse cidr with
  | Err e => Err e
  | Ok info =>
      let '(lo, hi) := boundedRange info skipFirst skipLast in
      let blocked := add_gateway gateway (normalizeExclude exclude) in
      match probe (S (size blocked)) blocked (Version info) hi lo with
      | None => Err ErrFuel
      | Some None => Err ErrExhausted
      | Some (Some ip) => Ok ip
      end
  end.

(** The loop of [BulkFree]: [need] addresses are still missing. *)
Fixpoint collect (fuel : nat) (blocked : gset string) (version hi cur : Z) (need : nat)
  : option (list IP) :=
  match fuel with
  | O => None
  | S f =>
      if (cur <=? hi) && (0 <? need)%nat then
        let ip := intToIP cur version in
        if decide (IP_String ip ∈ blocked) then collect f blocked version hi (cur + 1) need
        else match collect f blocked version hi (cur + 1) (need - 1) with
             | Some l => Some (ip :: l)
             | None => None
             end
      else Some []
  end.

(** [Ok []] is the [nil] slice returned for [n <= 0]. *)
Definition BulkFree (cidr : string) (exclude : gmap string bool) (gateway : string)
    (skipFirst skipLast n : Z) : result ipnet_error (list IP) :=
  if n <=? 0 then Ok []
  else match Parse cidr with
  | Err e => Err e
  | Ok info =>
      let '(lo, hi) := boundedRange info skipFirst skipLast in
      let blocked := add_gateway gateway (normalizeExclude exclude) in
      match collect (S (size blocked + Z.to_nat n)) blocked (Version info) hi lo (Z.to_nat n) with
      | None => Err ErrFuel
      | Some out => if Z.of_nat (length out) <? n then Err ErrExhausted else Ok out
      end
  end.

(** ** Relations between blocks *)

Definition Overlaps (a b : string) : result ipnet_error bool :=
  match ParseCIDR (TrimSpace a) with
  | None => Err ErrParse
  | Some (_, na) =>
      match ParseCIDR (TrimSpace b) with
      | None => Err ErrParse
      | Some (_, nb) => Ok (Contains na (net_IP nb) || Contains nb (net_IP na))
      end
  end.

Definition Within (child parent : string) : bool :=
  match ParseCIDR (TrimSpace child), ParseCIDR (TrimSpace parent) with
  | Some (_, nc), Some (_, np) =>
      (mask_bits (net_Mask nc) =? mask_bits (net_Mask np)) &&
      (mask_ones (net_Mask np) <? mask_ones (net_Mask nc)) &&
      Contains np (net_IP nc)
  | _, _ => false
  end.

(** [fmt.Sprintf("%s/%d", ip, prefixLen)]. *)
Definition cidr_text (ip : IP) (prefixLen : Z) : string :=
  IP_String ip +:+ "/" +:+ itoa_small prefixLen.

Fixpoint subdivide_from (n : nat) (i base step version prefixLen : Z) : list string :=
  match n with
  | O => []
  | S n' => cidr_text (intToIP (base + step * i) version) prefixLen
            :: subdivide_from n' (i + 1) base step version prefixLen
  end.

Definition Subdivide (cidr : string) (prefixLen : Z) : result ipnet_error (list string) :=
  match Parse cidr with
  | Err e => Err e
  | Ok info =>
      let bits := if Version info =? 6 then 128 else 32 in
      if (prefixLen <=? PrefixLen info) || (bits <? prefixLen)
      then Err (ErrNotInside prefixLen (PrefixLen info))
      else
        let countBits := prefixLen - PrefixLen info in
        if 20 <? countBits then Err ErrTooLarge
        else let count := 2 ^ countBits in
             if MaxSubdivide <? count then Err ErrTooLarge
             else let step := 2 ^ (bits - prefixLen) in
                  Ok (subdivide_from (Z.to_nat count) 0 (ipToInt (Network info)) step
                        (Version info) prefixLen)
  end.

Definition ContainsIP (cidr ip : string) : result ipnet_error bool :=
  match ParseCIDR (TrimSpace cidr) with
  | None => Err ErrParse
  | Some (_, n) =>
      match ParseIP (TrimSpace ip) with
      | IPnil => Err ErrParse
      | parsed => Ok (Contains n parsed)
      end
  end.

Definition GatewayInRange (cidr gateway : string) : result ipnet_error bool :=
  match Parse cidr with
  | Err e => Err e
  | Ok info =>
      match ParseIP (TrimSpace gateway) with
      | IPnil => Err ErrParse
      | gw =>
          match ParseCIDR (TrimSpace cidr) with
          | None => Ok false
          | Some (_, n) =>
              if negb (Contains n gw) then Ok false
              else if (Version info =? 4) && (PrefixLen info <? 31) then
                if IP_Equal gw (Network info) || IP_Equal gw (Broadcast info) then Ok false else Ok true
              else Ok true
          end
      end
  end.

(** ** Utilization: IEEE 754 binary64 arithmetic, nearest-even *)

Definition f64_of_Z (n : Z) : spec_float := binary_normalize 53 1024 n 0 false.
Definition f64_div : spec_float → spec_float → spec_float := SFdiv 53 1024.
Definition f64_mul : spec_float → spec_float → spec_float := SFmul 53 1024.

Definition Utilization (used total : Z) : spec_float :=
  if (total <=? 0) || (used <=? 0) then f64_of_Z 0
  else let pct := f64_mul (f64_div (f64_of_Z used) (f64_of_Z total)) (f64_of_Z 100) in
       if SFltb (f64_of_Z 100) pct then f64_of_Z 100 else pct.

(** ** IP-group ranges *)

Definition InRange (rangeSpec ip : string) : bool :=
  match ParseIP (TrimSpace ip) with
  | IPnil => false
  | target =>
      let ti := ipToInt target in
      let spec := TrimSpace rangeSpec in
      match cut_byte "-" spec with
      | None => match ParseIP (TrimSpace spec) with
                | IPnil => false
                | single => ipToInt single =? ti
                end
      | Some (lo, hi) =>
          match ParseIP (TrimSpace lo), ParseIP (TrimSpace hi) with
          | IPnil, _ | _, IPnil => false
          | loIP, hiIP => (ipToInt loIP <=? ti) && (ti <=? ipToInt hiIP)
          end
      end
  end.

(** ** The block behind a parsed CIDR *)

(** The address of a family with a given value. *)
Definition fam_ip (w x : Z) : IP := if w =? 32 then IP4 x else IP16 x.
Definition fam_version (w : Z) : Z := if w =? 32 then 4 else 6.

(** [info] describes block [b], written with a prefix of a [bits]-bit mask
    ([bits = 128] also for an IPv4-mapped network). *)
Definition describes (b : block) (bits : Z) (info : Info) : Prop :=
  Version info = fam_version (blk_width b) ∧
  Network info = fam_ip (blk_width b) (blk_base b) ∧
  Broadcast info = fam_ip (blk_width b) (blk_base b + 2 ^ blk_hbits b - 1) ∧
  Total info = total_of (blk_hbits b) ∧
  PrefixLen info = bits - blk_hbits b ∧
  (bits = blk_width b ∨ bits = 128).

(** A 128-bit block whose value is not IPv4-mapped. *)
Definition base_plain (b : block) : Prop :=
  blk_width b = 128 → is4In6_value (blk_base b) = false.

Lemma intToIP_fam w x :
  w = 32 ∨ w = 128 → 0 ≤ x < 2 ^ w → intToIP x (fam_version w) = fam_ip w x.
Proof.
  intros [-> | ->] Hx; unfold intToIP, fam_ip, fam_version; simpl;
    rewrite Z.abs_eq, Z.mod_small by lia; done.
Qed.

Lemma block_last b : block_ok b → 0 ≤ blk_base b + 2 ^ blk_hbits b - 1 < 2 ^ blk_width b.
Proof.
  intros (Hw & Hk & Hb & Hf). pose proof (pow2_pos (blk_hbits b) ltac:(lia)).
  pose proof (floor_pow2_top (blk_hbits b) (blk_width b) (blk_base b) ltac:(lia) ltac:(lia)). lia.
Qed.

(** What a successful [Parse] means: the text denotes a network whose block
    the [Info] describes. *)
Lemma Parse_block cidr info :
  Parse cidr = Ok info →
  ∃ ip n b, ParseCIDR (TrimSpace cidr) = Some (ip, n) ∧ net_ok n ∧ net_block n = Some b ∧
    block_ok b ∧ base_plain b ∧ describes b (mask_bits (net_Mask n)) info.
Proof.
  unfold Parse. destruct (ParseCIDR (TrimSpace cidr)) as [[ip n]|] eqn:E; [|done].
  apply ParseCIDR_ok in E as Hok. destruct Hok as [Hok _].
  destruct (net_block_ok n Hok) as (b & Hb & Hbok). intros [= <-].
  exists ip, n, b. split_and!; try done; clear ip E; pose proof (block_last b Hbok) as Hlast;
    destruct n as [nip [p bits]]; unfold net_block, net_ok, base_plain, describes in *;
    cbn [net_IP net_Mask mask_ones mask_bits] in *.
  - intros Hw. destruct nip as [|v|v]; [done| |]; cbn [canon] in Hb; [by simplify_eq|].
    destruct (is4In6_value v) eqn:E4; by simplify_eq.
  - destruct nip as [|v|v]; [done| |]; cbn [canon To4 To16] in *.
    + injection Hb as <-. cbn [blk_width blk_base blk_hbits] in *. destruct Hok as (-> & _ & Hv & _).
      cbn [Version Network Broadcast Total PrefixLen ipToInt To4].
      change 4 with (fam_version 32). rewrite intToIP_fam by (auto; lia).
      split_and!; try done; [lia|auto].
    + destruct Hok as (-> & Hp & Hv & Hf).
      destruct (is4In6_value v) eqn:E4; injection Hb as <-; cbn [blk_width blk_base blk_hbits] in *;
        cbn [Version Network Broadcast Total PrefixLen]; unfold ipToInt; cbn [To4 To16]; rewrite ?E4.
      * change 4 with (fam_version 32). rewrite intToIP_fam by (auto; lia).
        split_and!; try done; [lia|auto].
      * change 6 with (fam_version 128). rewrite intToIP_fam by (auto; lia).
        split_and!; try done; [lia|auto].
Qed.

Lemma ipToInt_plain w x :
  w = 32 ∨ w = 128 → (w = 128 → is4In6_value x = false) → ipToInt (fam_ip w x) = x.
Proof.
  intros [-> | ->] H; [done|]. unfold ipToInt, fam_ip. simpl. by rewrite H.
Qed.

Lemma mod_le_value x : 0 ≤ x → x mod 2 ^ 32 ≤ x.
Proof. intros H. apply Z.mod_le; lia. Qed.

(** The probed range always lies inside the block. *)
Lemma boundedRange_inside b bits info sf sl lo hi :
  block_ok b → base_plain b → describes b bits info → boundedRange info sf sl = (lo, hi) →
  blk_base b ≤ lo ∧ hi ≤ blk_base b + 2 ^ blk_hbits b - 1.
Proof.
  intros Hok Hpl (Hv & Hn & Hbc & _ & Hp & _) Hr. pose proof (block_last b Hok) as Hlast.
  destruct Hok as (Hw & Hk & Hb & Hf).
  assert (Hlo : ipToInt (Network info) = blk_base b) by (rewrite Hn; by apply ipToInt_plain).
  assert (Hhi : ipToInt (Broadcast info) ≤ blk_base b + 2 ^ blk_hbits b - 1).
  { rewrite Hbc. destruct Hw as [Hw|Hw]; rewrite Hw in *; unfold ipToInt, fam_ip; simpl; [lia|].
    destruct (is4In6_value _); [|lia]. apply mod_le_value. lia. }
  unfold boundedRange, hostRange in Hr. rewrite Hlo in Hr.
  destruct (Version info =? 4), (PrefixLen info <? 31), (PrefixLen info <? 127),
    (0 <? sf) eqn:E1, (0 <? sl) eqn:E2; simplify_eq; bool_hyps; lia.
Qed.

(** ** Probing loops *)

Section probing.
Context (w : Z) (Hw : w = 32 ∨ w = 128) (blocked : gset string) (hi : Z) (Hhi : hi < 2 ^ w).

Definition taken (x : Z) : Prop := IP_String (fam_ip w x) ∈ blocked.

Lemma fam_String_inj x y :
  0 ≤ x < 2 ^ w → 0 ≤ y < 2 ^ w → IP_String (fam_ip w x) = IP_String (fam_ip w y) → x = y.
Proof using Hw.
  assert (w = 32 ∨ w = 128) as [E|E] by done; rewrite E;
    [apply IP_String_inj_4|apply IP_String_inj_16].
Qed.

(** [rem] still holds every blocked text the loop can meet from [cur] on:
    it shrinks at each blocked probe and so bounds the number of probes. *)
Definition covers (rem : gset string) (cur : Z) : Prop :=
  ∀ y, cur ≤ y ≤ hi → taken y → IP_String (fam_ip w y) ∈ rem.

Lemma covers_step rem cur :
  0 ≤ cur ≤ hi → taken cur → covers rem cur →
  covers (rem ∖ {[IP_String (fam_ip w cur)]}) (cur + 1) ∧
  (size (rem ∖ {[IP_String (fam_ip w cur)]}) < size rem)%nat.
Proof using Hw Hhi.
  intros Hc Ht Hcov. split.
  - intros y Hy Hty. apply elem_of_difference. split; [apply Hcov; [lia|done]|].
    rewrite elem_of_singleton. intros E. apply fam_String_inj in E; lia.
  - apply subset_size. split; [set_solver|].
    intros Hsub. specialize (Hsub (IP_String (fam_ip w cur)) (Hcov cur ltac:(lia) Ht)). set_solver.
Qed.

Lemma covers_skip rem cur : covers rem cur → covers rem (cur + 1).
Proof. intros H y Hy. apply H. lia. Qed.

Lemma probe_spec fuel rem cur :
  0 ≤ cur → covers rem cur → (size rem < fuel)%nat →
  match probe fuel blocked (fam_version w) hi cur with
  | None => False
  | Some None => ∀ y, cur ≤ y ≤ hi → taken y
  | Some (Some ip) =>
      ∃ x, cur ≤ x ≤ hi ∧ ip = fam_ip w x ∧ ¬ taken x ∧ ∀ y, cur ≤ y < x → taken y
  end.
Proof using Hw Hhi.
  revert rem cur. induction fuel as [|f IH]; intros rem cur Hc Hcov Hfuel; simpl; [lia|].
  destruct (cur <=? hi) eqn:E; bool_hyps; [|intros y Hy; lia].
  rewrite intToIP_fam by (auto; lia). case_decide as Hd.
  - destruct (covers_step rem cur ltac:(lia) Hd Hcov) as [Hcov' Hsz].
    specialize (IH _ (cur + 1) ltac:(lia) Hcov' ltac:(lia)).
    assert (Hcur : ∀ y P, cur ≤ y → (y = cur → P) → (cur + 1 ≤ y → P) → P).
    { intros y P Hy H1 H2. destruct (decide (y = cur)); [auto|apply H2; lia]. }
    destruct (probe f blocked (fam_version w) hi (cur + 1)) as [[ip|]|]; [| |done].
    + destruct IH as (x & Hx & -> & Hnt & Hlow). exists x. split_and!; try done; [lia|lia|].
      intros y Hy. apply (Hcur y); [lia|by intros ->|intros; apply Hlow; lia].
    + intros y Hy. apply (Hcur y); [lia|by intros ->|intros; apply IH; lia].
  - exists cur. split_and!; try done; try lia.
Qed.

Lemma collect_spec fuel rem cur need :
  0 ≤ cur → covers rem cur → (size rem + need < fuel)%nat →
  ∃ xs stop, collect fuel blocked (fam_version w) hi cur need = Some (fam_ip w <$> xs) ∧
    StronglySorted Z.lt xs ∧ (∀ x, x ∈ xs ↔ cur ≤ x < stop ∧ x ≤ hi ∧ ¬ taken x) ∧
    (length xs ≤ need)%nat ∧ (length xs = need ∨ hi < stop).
Proof using Hw Hhi.
  revert rem cur need. induction fuel as [|f IH]; intros rem cur need Hc Hcov Hfuel; simpl; [lia|].
  destruct ((cur <=? hi) && (0 <? need)%nat) eqn:E; bool_hyps.
  2:{ exists [], cur. split_and!; [done|constructor| |simpl; lia|].
      - intros x. rewrite elem_of_nil. split; [done|lia].
      - apply andb_false_iff in E. destruct E; bool_hyps; [by right|left; simpl; lia]. }
  rewrite intToIP_fam by (auto; lia). case_decide as Hd.
  - destruct (covers_step rem cur ltac:(lia) Hd Hcov) as [Hcov' Hsz].
    destruct (IH _ (cur + 1) need ltac:(lia) Hcov' ltac:(lia)) as (xs & stop & -> & Hs & Hin & Hl & Hend).
    exists xs, (Z.max stop (cur + 1)). split_and!; try done; [|destruct Hend; [by left|right; lia]].
    intros x. rewrite Hin. split; [intros (?&?&?); split_and!; [lia|lia|lia|done]|].
    intros (Hx & Hxh & Hnt). assert (x ≠ cur) by (intros ->; done). split_and!; try done; lia.
  - destruct (IH rem (cur + 1) (need - 1)%nat ltac:(lia) (covers_skip _ _ Hcov) ltac:(lia))
      as (xs & stop & -> & Hs & Hin & Hl & Hend).
    exists (cur :: xs), (Z.max stop (cur + 1)). split_and!.
    + done.
    + constructor; [done|]. apply Forall_forall. intros x Hx%Hin. lia.
    + intros x. rewrite elem_of_cons, Hin. split.
      * intros [->|(?&?&?)]; split_and!; try done; lia.
      * intros (Hx & Hxh & Hnt). destruct (decide (x = cur)); [by left|right].
        split_and!; try done; lia.
    + simpl. lia.
    + destruct Hend; [left; simpl; lia|right; lia].
Qed.
End probing.

Lemma covers_init w blocked hi cur : covers w blocked hi blocked cur.
Proof. intros y _ H. exact H. Qed.

(** ** The blocked set *)

Lemma To16_String ip : IP_wf ip → IP_String (To16 ip) = IP_String ip.
Proof.
  destruct ip as [|n|n]; [done| |done]. intros Hn. unfold IP_String. cbn [To16 To4].
  by rewrite is4In6_mapped, mapped_mod.
Qed.

(** The texts [normalizeIP] produces are the printed forms of addresses; on
    those it is the identity. *)
Lemma normalizeIP_String ip : IP_wf ip → ip ≠ IPnil → normalizeIP (IP_String ip) = IP_String ip.
Proof.
  intros Hwf Hne. unfold normalizeIP. rewrite IP_String_trim, ParseIP_String by done.
  rewrite <- (To16_String ip Hwf). by destruct ip.
Qed.

Lemma IP_String_nonempty ip : IP_wf ip → is_empty (IP_String ip) = false.
Proof.
  destruct ip as [|n|n]; intros Hwf; [done| |].
  - unfold IP_String, To4, string4, octets. apply appendDecimal_nonempty.
  - destruct (is_empty (IP_String (IP16 n))) eqn:E; [|done]. exfalso.
    apply is_empty_spec in E. pose proof (ParseIP_String (IP16 n) Hwf ltac:(done)) as H.
    rewrite E in H. discriminate.
Qed.

Lemma fam_ip_wf w x : w = 32 ∨ w = 128 → 0 ≤ x < 2 ^ w → IP_wf (fam_ip w x) ∧ fam_ip w x ≠ IPnil.
Proof. by intros [-> | ->]. Qed.

Lemma elem_of_normalizeExclude ex s :
  s ∈ normalizeExclude ex ↔ is_empty s = false ∧ ∃ k, ex !! k = Some true ∧ normalizeIP k = s.
Proof.
  unfold normalizeExclude. induction ex as [|k v ex Hk Hfold IH] using map_fold_fmap_ind.
  - rewrite map_fold_empty, elem_of_empty. setoid_rewrite lookup_empty. naive_solver.
  - assert (Hl : (∃ k', <[k:=v]> ex !! k' = Some true ∧ normalizeIP k' = s) ↔
                 (v = true ∧ normalizeIP k = s) ∨ ∃ k', ex !! k' = Some true ∧ normalizeIP k' = s).
    { split.
      - intros (k' & Hk' & Hs). destruct (decide (k = k')) as [->|Hne].
        + rewrite lookup_insert_eq in Hk'. left. split; congruence.
        + rewrite lookup_insert_ne in Hk' by done. eauto.
      - intros [[-> Hs]|(k' & Hk' & Hs)].
        + exists k. by rewrite lookup_insert_eq.
        + exists k'. rewrite lookup_insert_ne by congruence. done. }
    rewrite Hl. specialize (Hfold bool (gset string) exclude_step id ∅ v).
    rewrite map_fmap_id in Hfold. rewrite Hfold. unfold exclude_step at 1.
    destruct v; cbv zeta; [|rewrite IH; naive_solver].
    destruct (is_empty (normalizeIP k)) eqn:E.
    + rewrite IH. split; [naive_solver|]. intros [Hs [[_ <-]|H]]; [congruence|done].
    + rewrite elem_of_union, elem_of_singleton, IH. split.
      * intros [->|[? ?]]; [split; [done|by left; split]|split; [done|by right]].
      * intros [Hs [[_ <-]|H]]; [by left|by right].
Qed.

(** Everything the allocation must not hand out. *)
Definition blocked_set (exclude : gmap string bool) (gateway : string) : gset string :=
  add_gateway gateway (normalizeExclude exclude).

Lemma elem_of_blocked ex gw s :
  s ∈ blocked_set ex gw ↔
  is_empty s = false ∧ (normalizeIP gw = s ∨ ∃ k, ex !! k = Some true ∧ normalizeIP k = s).
Proof.
  unfold blocked_set, add_gateway. destruct (is_empty (normalizeIP gw)) eqn:E;
    rewrite ?elem_of_union, ?elem_of_singleton, elem_of_normalizeExclude.
  - split; [naive_solver|]. intros [Hs [<-|H]]; [congruence|done].
  - split; [|naive_solver]. intros [->|[? ?]]; [|naive_solver]. split; [done|by left].
Qed.

(** The number [x] of the family is free of [blocked]. *)
Definition is_free (version : Z) (blocked : gset string) (x : Z) : Prop :=
  IP_String (intToIP x version) ∉ blocked.

(** ** Allocation *)

(** Shared set-up of the allocation proofs: the family, its width and the
    bounds of the probed range. *)
Lemma allocation_setup cidr info sf sl lo hi :
  Parse cidr = Ok info → boundedRange info sf sl = (lo, hi) →
  ∃ w, (w = 32 ∨ w = 128) ∧ Version info = fam_version w ∧ 0 ≤ lo ∧ hi < 2 ^ w.
Proof.
  intros Hp Hr. destruct (Parse_block _ _ Hp) as (ip & n & b & _ & _ & _ & Hok & Hpl & Hd).
  pose proof (boundedRange_inside b _ info sf sl lo hi Hok Hpl Hd Hr) as [Hlo Hhi].
  pose proof (block_last b Hok). destruct Hok as (Hw & _ & Hb & _). destruct Hd as (Hv & _).
  exists (blk_width b). split_and!; try done; lia.
Qed.

Lemma is_free_taken w blocked x :
  w = 32 ∨ w = 128 → 0 ≤ x < 2 ^ w → is_free (fam_version w) blocked x ↔ ¬ taken w blocked x.
Proof. intros Hw Hx. unfold is_free, taken. by rewrite intToIP_fam. Qed.

(** The complete behaviour of the first-free search on a parsed block. *)
Lemma FirstFree_spec cidr ex gw sf sl info lo hi :
  Parse cidr = Ok info → boundedRange info sf sl = (lo, hi) →
  match FirstFree cidr ex gw sf sl with
  | Ok ip => ∃ x, lo ≤ x ≤ hi ∧ ip = intToIP x (Version info) ∧
               is_free (Version info) (blocked_set ex gw) x ∧
               ∀ y, lo ≤ y < x → ¬ is_free (Version info) (blocked_set ex gw) y
  | Err ErrExhausted => ∀ y, lo ≤ y ≤ hi → ¬ is_free (Version info) (blocked_set ex gw) y
  | Err _ => False
  end.
Proof.
  intros Hp Hr. destruct (allocation_setup _ _ _ _ _ _ Hp Hr) as (w & Hw & Hv & Hlo & Hhi).
  unfold FirstFree. rewrite Hp, Hr, Hv. fold (blocked_set ex gw). set (B := blocked_set ex gw).
  pose proof (probe_spec w Hw B hi Hhi (S (size B)) B lo Hlo (covers_init _ _ _ _) ltac:(lia)) as H.
  assert (Hnf : ∀ y, lo ≤ y ≤ hi → taken w B y → ¬ is_free (fam_version w) B y).
  { intros y Hy Ht Hf. apply is_free_taken in Hf; [done|done|lia]. }
  destruct (probe _ _ _ _ _) as [[ip|]|]; [| |done].
  - destruct H as (x & Hx & -> & Hnt & Hlow). exists x. split_and!; [lia|lia| | |].
    + by rewrite intToIP_fam by (auto; lia).
    + apply is_free_taken; [done|lia|done].
    + intros y Hy. apply Hnf; [lia|by apply Hlow].
  - intros y Hy. apply Hnf; [lia|by apply H].
Qed.

(** ** The meaning of a CIDR text *)

Definition cidr_block (cidr : string) : option block :=
  match ParseCIDR (TrimSpace cidr) with Some (_, n) => net_block n | None => None end.

(** The block holds no IPv4-mapped IPv6 address: every IPv4 block, and every
    IPv6 block outside [::ffff:0:0/96] and its ancestors. *)
Definition plain_block (b : block) : Prop :=
  blk_width b = 128 → ∀ x, in_block b 128 x → is4In6_value x = false.

Lemma cidr_block_ok cidr b : cidr_block cidr = Some b → block_ok b.
Proof.
  unfold cidr_block. destruct (ParseCIDR (TrimSpace cidr)) as [[ip n]|] eqn:E; [|done].
  apply ParseCIDR_ok in E as [Hok _]. destruct (net_block_ok n Hok) as (b' & -> & ?).
  by intros [= <-].
Qed.

Lemma ParseCIDR_block cidr ip n :
  ParseCIDR (TrimSpace cidr) = Some (ip, n) →
  ∃ b, cidr_block cidr = Some b ∧ net_block n = Some b ∧ net_ok n ∧ block_ok b.
Proof.
  intros E. unfold cidr_block. rewrite E. apply ParseCIDR_ok in E as [Hok _].
  destruct (net_block_ok n Hok) as (b & Hb & ?). eauto.
Qed.

Lemma Parse_Ok_iff cidr : is_Some (cidr_block cidr) ↔ ∃ info, Parse cidr = Ok info.
Proof.
  unfold Parse, cidr_block. destruct (ParseCIDR (TrimSpace cidr)) as [[ip n]|] eqn:E.
  - apply ParseCIDR_ok in E as [Hok _]. destruct (net_block_ok n Hok) as (b & -> & _).
    split; intros _; eauto.
  - split; intros [? ?]; done.
Qed.

Lemma Parse_cidr_block cidr info :
  Parse cidr = Ok info → ∃ b bits, cidr_block cidr = Some b ∧ block_ok b ∧ base_plain b ∧
    describes b bits info.
Proof.
  intros H. destruct (Parse_block _ _ H) as (ip & n & b & E & Hn & Hb & Hok & Hp & Hd).
  exists b, (mask_bits (net_Mask n)). unfold cidr_block. by rewrite E.
Qed.

Lemma canon_net_IP n b :
  net_block n = Some b → canon (net_IP n) = Some (blk_width b, blk_base b).
Proof. unfold net_block. destruct (canon (net_IP n)) as [[w v]|]; [|done]. by intros [= <-]. Qed.

Lemma net_IP_wf n : net_ok n → IP_wf (net_IP n).
Proof. unfold net_ok. destruct (net_IP n); [done|simpl; lia|simpl; lia]. Qed.

Lemma canon_fam w x :
  w = 32 ∨ w = 128 → (w = 128 → is4In6_value x = false) → canon (fam_ip w x) = Some (w, x).
Proof. intros [-> | ->] H; [done|]. unfold fam_ip. simpl. by rewrite H. Qed.

(** Two aligned blocks of one family are nested or disjoint. *)
Lemma blocks_nested b1 b2 w x :
  block_ok b1 → block_ok b2 → in_block b1 w x → in_block b2 w x →
  in_block b1 w (blk_base b2) ∨ in_block b2 w (blk_base b1).
Proof.
  intros (_ & Hk1 & _ & Hf1) (_ & Hk2 & _ & Hf2) [Hw1 H1] [Hw2 H2].
  assert (Hcase : ∀ k1 k2 v1 v2, 0 ≤ k1 → k1 ≤ k2 → floor_pow2 k1 v1 = v1 → floor_pow2 k2 v2 = v2 →
            v1 ≤ x < v1 + 2 ^ k1 → v2 ≤ x < v2 + 2 ^ k2 → v2 ≤ v1 < v2 + 2 ^ k2).
  { intros k1 k2 v1 v2 ?? Hv1 Hv2 Hx1 Hx2. rewrite <- Hv1 in Hx1.
    pose proof (proj2 (floor_pow2_eq_iff k1 x v1 ltac:(lia)) Hx1) as E1.
    rewrite <- Hv2 in Hx2. pose proof (proj2 (floor_pow2_eq_iff k2 x v2 ltac:(lia)) Hx2) as E2.
    pose proof (floor_pow2_coarser k1 k2 x ltac:(lia)) as E3. rewrite E1, Hv1, E2, Hv2 in E3.
    pose proof (floor_pow2_range k2 v1 ltac:(lia)). rewrite E3 in *. lia. }
  destruct (decide (blk_hbits b1 ≤ blk_hbits b2)); [right|left]; (split; [done|]).
  - eapply Hcase; eauto; lia.
  - eapply (Hcase (blk_hbits b2)); eauto; lia.
Qed.
