(* ===== verification/IpnetProps.v ===== *)
(** * Correctness of the CIDR arithmetic (internal/ipnet/ipnet.go)

    What callers of [Ipnet] rely on: allocation returns the lowest free
    usable addresses and nothing else, blocks are compared and split as sets
    of addresses, enumeration is exact and bounded. *)

From S2P Require Import Prelude GoNet GoIP Ipnet.

(** ** Usable ranges *)

(** The documented usable range of a block: an IPv4 block of more than two
    addresses loses its network and broadcast addresses, an IPv6 block of
    more than two addresses loses its first one. *)
Definition usable_lo (b : block) : Z :=
  if 2 <=? blk_hbits b then blk_base b + 1 else blk_base b.
Definition usable_hi (b : block) : Z :=
  if (blk_width b =? 32) && (2 <=? blk_hbits b) then blk_base b + 2 ^ blk_hbits b - 2
  else blk_base b + 2 ^ blk_hbits b - 1.

(** The text writes an IPv4 block in dotted form (an IPv4-mapped CIDR such as
    [::ffff:10.0.0.0/104] carries a 128-bit prefix length). *)
Definition native_cidr (cidr : string) (b : block) : Prop :=
  ∃ ip n, ParseCIDR (TrimSpace cidr) = Some (ip, n) ∧ net_block n = Some b ∧
    mask_bits (net_Mask n) = blk_width b ∧ plain_block b.

Lemma in_block_last b : block_ok b → in_block b (blk_width b) (blk_base b + 2 ^ blk_hbits b - 1).
Proof. intros (_ & Hk & _ & _). pose proof (pow2_pos (blk_hbits b) ltac:(lia)). split; [done|lia]. Qed.

Lemma native_Parse cidr b :
  native_cidr cidr b → ∃ info, Parse cidr = Ok info ∧ block_ok b ∧ plain_block b ∧
    cidr_block cidr = Some b ∧ Version info = fam_version (blk_width b) ∧
    PrefixLen info = blk_width b - blk_hbits b ∧ ipToInt (Network info) = blk_base b ∧
    ipToInt (Broadcast info) = blk_base b + 2 ^ blk_hbits b - 1.
Proof.
  intros (ip & n & E & Hn & Hbits & Hpl).
  destruct (proj1 (Parse_Ok_iff cidr)) as [info Hinfo]; [unfold cidr_block; rewrite E, Hn; eauto|].
  destruct (Parse_block _ _ Hinfo) as (ip' & n' & b' & E' & _ & Hb' & Hok & Hbp & Hd).
  simplify_eq. destruct Hd as (Hv & Hnw & Hbc & _ & Hp & _).
  assert (Hw : blk_width b = 32 ∨ blk_width b = 128) by apply Hok.
  exists info. split_and!; try done.
  - unfold cidr_block. by rewrite E.
  - by rewrite Hp, Hbits.
  - rewrite Hnw. by apply ipToInt_plain.
  - rewrite Hbc. apply ipToInt_plain; [done|]. intros H128. apply Hpl; [done|].
    rewrite <- H128. by apply in_block_last.
Qed.

Lemma hostRange_usable b info :
  block_ok b → Version info = fam_version (blk_width b) →
  PrefixLen info = blk_width b - blk_hbits b → ipToInt (Network info) = blk_base b →
  ipToInt (Broadcast info) = blk_base b + 2 ^ blk_hbits b - 1 →
  hostRange info = (usable_lo b, usable_hi b).
Proof.
  intros (Hw & Hk & _) Hv Hp Hn Hb. unfold hostRange, usable_lo, usable_hi, fam_version in *.
  rewrite Hv, Hp, Hn, Hb. destruct Hw as [E|E]; rewrite E in *; simpl;
    destruct (2 <=? blk_hbits b) eqn:E2; bool_hyps; simpl.
  - rewrite (proj2 (Z.ltb_lt _ _)) by lia. f_equal; lia.
  - rewrite (proj2 (Z.ltb_ge _ _)) by lia. done.
  - rewrite (proj2 (Z.ltb_lt _ _)) by lia. done.
  - rewrite (proj2 (Z.ltb_ge _ _)) by lia. done.
Qed.

Lemma usable_in_block b x :
  block_ok b → usable_lo b ≤ x ≤ usable_hi b → in_block b (blk_width b) x.
Proof.
  intros (_ & Hk & _) Hx. unfold usable_lo, usable_hi, in_block in *.
  split; [done|]. revert Hx. destruct (_ && _), (2 <=? blk_hbits b); lia.
Qed.

Lemma native_hostRange cidr b info :
  native_cidr cidr b → Parse cidr = Ok info → hostRange info = (usable_lo b, usable_hi b).
Proof.
  intros Hn Hp. destruct (native_Parse _ _ Hn) as (info' & ? & ? & ? & ? & ? & ? & ? & ?).
  assert (info' = info) as -> by congruence. apply hostRange_usable; assumption.
Qed.

(** The address with number [x] of a block's family, and its canonical text. *)
Definition addr_text (b : block) (x : Z) : string := IP_String (fam_ip (blk_width b) x).

(** [x] is an allocatable number: usable, inside the carve-outs, and its text
    is neither the gateway nor an excluded address. *)
Definition allocatable (b : block) (ex : gmap string bool) (gw : string) (sf sl x : Z) : Prop :=
  usable_lo b + Z.max 0 sf ≤ x ≤ usable_hi b - Z.max 0 sl ∧
  normalizeIP gw ≠ addr_text b x ∧ (∀ k, ex !! k = Some true → normalizeIP k ≠ addr_text b x).

Lemma boundedRange_max info sf sl lo hi :
  hostRange info = (lo, hi) → boundedRange info sf sl = (lo + Z.max 0 sf, hi - Z.max 0 sl).
Proof.
  intros H. unfold boundedRange. rewrite H.
  destruct (0 <? sf) eqn:E1, (0 <? sl) eqn:E2; bool_hyps; f_equal; lia.
Qed.

Lemma is_free_allocatable b info ex gw sf sl x :
  block_ok b → Version info = fam_version (blk_width b) →
  usable_lo b + Z.max 0 sf ≤ x ≤ usable_hi b - Z.max 0 sl →
  is_free (Version info) (blocked_set ex gw) x ↔ allocatable b ex gw sf sl x.
Proof.
  intros Hok Hv Hx. assert (Hin : in_block b (blk_width b) x) by (apply usable_in_block; [done|lia]).
  pose proof (block_last b Hok). assert (Hw : blk_width b = 32 ∨ blk_width b = 128) by apply Hok.
  destruct Hin as [_ Hin]. assert (0 ≤ x < 2 ^ blk_width b) by (destruct Hok as (_ & _ & ? & _); lia).
  unfold is_free, allocatable, addr_text. rewrite Hv, intToIP_fam, elem_of_blocked by done.
  destruct (fam_ip_wf (blk_width b) x Hw ltac:(lia)) as [Hwf Hne].
  pose proof (IP_String_nonempty _ Hwf). naive_solver.
Qed.

(** ** First-free allocation *)

(** The search on a native CIDR, in terms of allocatable numbers. *)
Lemma FirstFree_native cidr b ex gw sf sl :
  native_cidr cidr b →
  match FirstFree cidr ex gw sf sl with
  | Ok ip => ∃ x, ip = fam_ip (blk_width b) x ∧ allocatable b ex gw sf sl x ∧
               ∀ y, allocatable b ex gw sf sl y → x ≤ y
  | Err e => e = ErrExhausted ∧ ∀ y, ¬ allocatable b ex gw sf sl y
  end.
Proof.
  intros Hn. destruct (native_Parse _ _ Hn) as (info & Hp & Hok & Hpl & _ & Hv & _).
  pose proof (boundedRange_max info sf sl _ _ (native_hostRange _ _ _ Hn Hp)) as Hr.
  assert (Hf : ∀ x, usable_lo b + Z.max 0 sf ≤ x ≤ usable_hi b - Z.max 0 sl →
            is_free (Version info) (blocked_set ex gw) x ↔ allocatable b ex gw sf sl x)
    by (intros; by apply is_free_allocatable).
  pose proof (FirstFree_spec cidr ex gw sf sl info _ _ Hp Hr) as H.
  destruct (FirstFree cidr ex gw sf sl) as [ip|[]]; try done.
  - destruct H as (x & Hx & -> & Hfree & Hlow). exists x. split_and!.
    + rewrite Hv. destruct (usable_in_block b x Hok ltac:(lia)) as [_ Hin].
      pose proof (block_last b Hok). destruct Hok as (? & _ & ? & _). apply intToIP_fam; [done|lia].
    + by apply Hf.
    + intros y Hy. destruct (decide (x ≤ y)); [done|]. exfalso. destruct Hy as [Hr' Hy'].
      apply (Hlow y ltac:(lia)), Hf; [lia|]. split; [done|exact Hy'].
  - split; [done|]. intros y Hy. pose proof (proj1 Hy). apply (H y); [lia|]. by apply Hf.
Qed.

(** C1: on a block without IPv4-mapped addresses, [FirstFree] returns the lowest
    usable address that is not the gateway, not excluded (in any spelling) and
    not carved off by the skips; it reports [ErrExhausted] exactly when there
    is none; and its search always ends within the probes it is given. *)
Theorem FirstFree_lowest cidr b ex gw sf sl :
  native_cidr cidr b →
  match FirstFree cidr ex gw sf sl with
  | Ok ip => ∃ x, ip = fam_ip (blk_width b) x ∧ allocatable b ex gw sf sl x ∧
               ∀ y, allocatable b ex gw sf sl y → x ≤ y
  | Err e => e = ErrExhausted ∧ ∀ y, ¬ allocatable b ex gw sf sl y
  end.
Proof. apply FirstFree_native. Qed.

(** A concrete IPv4 block to instantiate hypotheses with. *)
Definition ex_block : block := {| blk_width := 32; blk_base := 167772160; blk_hbits := 8 |}.

Definition ex_exclude : gmap string bool := {["10.0.0.2" := true]}.

Lemma ex_native : native_cidr "10.0.0.5/24" ex_block.
Proof.
  eexists _, _. split; [vm_compute; reflexivity|].
  split; [vm_compute; reflexivity|]. split; [reflexivity|]. intros [=].
Qed.

Lemma FirstFree_lowest_witness :
  FirstFree "10.0.0.5/24" ex_exclude "10.0.0.1" 0 0 = Ok (IP4 167772163) ∧
  match FirstFree "10.0.0.5/24" ex_exclude "10.0.0.1" 0 0 with
  | Ok ip => ∃ x, ip = fam_ip (blk_width ex_block) x ∧
      allocatable ex_block ex_exclude "10.0.0.1" 0 0 x ∧
      ∀ y, allocatable ex_block ex_exclude "10.0.0.1" 0 0 y → x ≤ y
  | Err e => e = ErrExhausted ∧ ∀ y, ¬ allocatable ex_block ex_exclude "10.0.0.1" 0 0 y
  end.
Proof.
  split; [vm_compute; reflexivity|].
  exact (FirstFree_lowest "10.0.0.5/24" ex_block ex_exclude "10.0.0.1" 0 0 ex_native).
Defined.

Lemma allocatable_in_block b ex gw sf sl x :
  block_ok b → allocatable b ex gw sf sl x → in_block b (blk_width b) x.
Proof. intros Hok [Hx _]. apply usable_in_block; [done|lia]. Qed.

Lemma allocatable_wf b ex gw sf sl x :
  block_ok b → allocatable b ex gw sf sl x →
  IP_wf (fam_ip (blk_width b) x) ∧ fam_ip (blk_width b) x ≠ IPnil ∧ 0 ≤ x < 2 ^ blk_width b.
Proof.
  intros Hok Ha. destruct (allocatable_in_block _ _ _ _ _ _ Hok Ha) as [_ Hin].
  pose proof (block_last b Hok). assert (blk_width b = 32 ∨ blk_width b = 128) by apply Hok.
  assert (0 ≤ x < 2 ^ blk_width b) by (destruct Hok as (_ & _ & ? & _); lia).
  destruct (fam_ip_wf (blk_width b) x) as [??]; done.
Qed.

Lemma canon_To16 ip : IP_wf ip → canon (To16 ip) = canon ip.
Proof.
  destruct ip as [|n|n]; try done. intros Hn. simpl. by rewrite is4In6_mapped, mapped_mod.
Qed.

Lemma ContainsIP_native cidr b x :
  native_cidr cidr b → block_ok b → in_block b (blk_width b) x →
  ContainsIP cidr (addr_text b x) = Ok true.
Proof.
  intros (ip & n & E & Hn & Hbits & Hpl) Hok Hin. unfold ContainsIP, addr_text. rewrite E.
  pose proof (block_last b Hok). assert (Hw : blk_width b = 32 ∨ blk_width b = 128) by apply Hok.
  assert (0 ≤ x < 2 ^ blk_width b) by (destruct Hin; destruct Hok as (_ & _ & ? & _); lia).
  destruct (fam_ip_wf (blk_width b) x) as [Hwf Hne]; [done|done|].
  rewrite IP_String_trim, ParseIP_String by done.
  assert (Hc : Contains n (To16 (fam_ip (blk_width b) x)) = true).
  { apply ParseCIDR_ok in E as [Hnok _]. apply (Contains_block n b); [done|done| |].
    - pose proof (ParseIP_wf (IP_String (fam_ip (blk_width b) x))) as Hp.
      by rewrite ParseIP_String in Hp by done.
    - exists (blk_width b), x. split; [|done]. rewrite canon_To16 by done.
      apply canon_fam; [done|]. intros H128. apply Hpl; [done|]. by rewrite <- H128. }
  destruct (fam_ip (blk_width b) x) as [|v|v]; [done| |]; cbn [To16] in *; by rewrite Hc.
Qed.

(** The address [FirstFree] hands out lies in the CIDR and, written in its
    canonical form, differs from the gateway and from every excluded address. *)
Theorem FirstFree_safe cidr b ex gw sf sl ip :
  native_cidr cidr b → FirstFree cidr ex gw sf sl = Ok ip →
  ContainsIP cidr (IP_String ip) = Ok true ∧ normalizeIP (IP_String ip) = IP_String ip ∧
  normalizeIP gw ≠ IP_String ip ∧ ∀ k, ex !! k = Some true → normalizeIP k ≠ IP_String ip.
Proof.
  intros Hn E. pose proof (FirstFree_native cidr b ex gw sf sl Hn) as H. rewrite E in H.
  destruct H as (x & -> & Ha & _). destruct (native_Parse _ _ Hn) as (info & _ & Hok & _).
  destruct (allocatable_wf _ _ _ _ _ _ Hok Ha) as (Hwf & Hne & _). split_and!.
  - apply (ContainsIP_native cidr b); [done|done|]. by eapply allocatable_in_block.
  - by apply normalizeIP_String.
  - exact (proj1 (proj2 Ha)).
  - exact (proj2 (proj2 Ha)).
Qed.

Lemma FirstFree_safe_witness :
  ContainsIP "10.0.0.5/24" (IP_String (IP4 167772162)) = Ok true ∧
  normalizeIP (IP_String (IP4 167772162)) = IP_String (IP4 167772162) ∧
  normalizeIP "10.0.0.1" ≠ IP_String (IP4 167772162) ∧
  ∀ k, (∅ : gmap string bool) !! k = Some true → normalizeIP k ≠ IP_String (IP4 167772162).
Proof.
  apply (FirstFree_safe "10.0.0.5/24" ex_block ∅ "10.0.0.1" 0 0); [exact ex_native|].
  vm_compute. reflexivity.
Defined.

Lemma ipToInt_allocatable b ex gw sf sl x :
  block_ok b → plain_block b → allocatable b ex gw sf sl x → ipToInt (fam_ip (blk_width b) x) = x.
Proof.
  intros Hok Hpl Ha. apply ipToInt_plain; [apply Hok|]. intros H128. apply Hpl; [done|].
  rewrite <- H128. by eapply allocatable_in_block.
Qed.

(** Allocation is monotone: as excluded addresses accumulate, the next free
    address never moves down, and an exhausted range stays exhausted. *)
Theorem FirstFree_monotone cidr b ex ex' gw sf sl :
  native_cidr cidr b → (∀ k, ex !! k = Some true → ex' !! k = Some true) →
  match FirstFree cidr ex gw sf sl, FirstFree cidr ex' gw sf sl with
  | Ok ip, Ok ip' => ipToInt ip ≤ ipToInt ip'
  | Err _, r => r = Err ErrExhausted
  | Ok _, Err e => e = ErrExhausted
  end.
Proof.
  intros Hn Hex. destruct (native_Parse _ _ Hn) as (info & _ & Hok & Hpl & _).
  assert (Hsub : ∀ y, allocatable b ex' gw sf sl y → allocatable b ex gw sf sl y).
  { intros y (? & ? & Hk). split_and!; try done; lia || auto. }
  pose proof (FirstFree_native cidr b ex gw sf sl Hn) as H.
  pose proof (FirstFree_native cidr b ex' gw sf sl Hn) as H'.
  destruct (FirstFree cidr ex gw sf sl) as [ip|e], (FirstFree cidr ex' gw sf sl) as [ip'|e'].
  - destruct H as (x & -> & Ha & Hlow), H' as (x' & -> & Ha' & _).
    do 2 (erewrite ipToInt_allocatable by eauto). by apply Hlow, Hsub.
  - apply H'.
  - destruct H as [_ H], H' as (x' & _ & Ha' & _). destruct (H x'). by apply Hsub.
  - by destruct H' as [-> _].
Qed.

Lemma FirstFree_monotone_witness :
  match FirstFree "10.0.0.5/24" ∅ "10.0.0.1" 0 0,
        FirstFree "10.0.0.5/24" ex_exclude "10.0.0.1" 0 0 with
  | Ok ip, Ok ip' => ipToInt ip ≤ ipToInt ip'
  | Err _, r => r = Err ErrExhausted
  | Ok _, Err e => e = ErrExhausted
  end.
Proof.
  apply (FirstFree_monotone "10.0.0.5/24" ex_block); [exact ex_native|].
  intros k H. by rewrite lookup_empty in H.
Defined.

(** ** Bulk allocation *)

(** The [n] lowest members of a set of numbers, in order. *)
Definition lowest (P : Z → Prop) (xs : list Z) : Prop :=
  StronglySorted Z.lt xs ∧ Forall P xs ∧ ∀ y, P y → y ∈ xs ∨ Forall (λ x, x < y) xs.

Lemma BulkFree_native cidr b ex gw sf sl n :
  native_cidr cidr b → 0 < n →
  ∃ xs, lowest (allocatable b ex gw sf sl) xs ∧ Z.of_nat (length xs) ≤ n ∧
    (Z.of_nat (length xs) < n → ∀ y, allocatable b ex gw sf sl y → y ∈ xs) ∧
    BulkFree cidr ex gw sf sl n =
      if Z.of_nat (length xs) <? n then Err ErrExhausted else Ok (fam_ip (blk_width b) <$> xs).
Proof.
  intros Hn Hpos. destruct (native_Parse _ _ Hn) as (info & Hp & Hok & Hpl & _ & Hv & _).
  pose proof (boundedRange_max info sf sl _ _ (native_hostRange _ _ _ Hn Hp)) as Hr.
  destruct (allocation_setup _ _ _ _ _ _ Hp Hr) as (w & Hw & Hv' & Hlo & Hhi).
  assert (w = blk_width b) as ->.
  { destruct Hok as [[E|E] _], Hw as [-> | ->]; rewrite Hv, E in Hv'; unfold fam_version in Hv'; simpl in Hv'; congruence. }
  set (B := blocked_set ex gw).
  destruct (collect_spec _ Hw B _ Hhi (S (size B + Z.to_nat n)) B _ (Z.to_nat n) Hlo
              (covers_init _ _ _ _) ltac:(lia)) as (xs & stop & Hc & Hs & Hin & Hl & Hend).
  assert (Hal : ∀ x, usable_lo b + Z.max 0 sf ≤ x ≤ usable_hi b - Z.max 0 sl →
            ¬ taken (blk_width b) B x ↔ allocatable b ex gw sf sl x).
  { intros x Hx. rewrite <- is_free_taken by (done || lia). rewrite <- Hv. by apply is_free_allocatable. }
  assert (Hmem : ∀ y, allocatable b ex gw sf sl y → y < stop → y ∈ xs).
  { intros y Hy Hys. pose proof (proj1 Hy). apply Hin. split_and!; [lia|lia|lia|]. by apply Hal. }
  exists xs. split; [split_and!|split_and!].
  - done.
  - apply Forall_forall. intros x Hx%Hin. apply Hal; [lia|apply Hx].
  - intros y Hy. destruct (decide (y < stop)); [left; by apply Hmem|right].
    apply Forall_forall. intros x Hx%Hin. lia.
  - lia.
  - intros Hlt y Hy. destruct Hend; [lia|]. apply Hmem; [done|]. pose proof (proj1 Hy). lia.
  - unfold BulkFree. rewrite (proj2 (Z.leb_gt _ _)) by lia. rewrite Hp, Hr. fold (blocked_set ex gw).
    fold B. rewrite Hv, Hc, length_fmap. done.
Qed.

(** [BulkFree] returns the [n] lowest allocatable addresses in increasing
    order, or reports [ErrExhausted] when fewer than [n] exist; it never
    returns a shorter list. *)
Theorem BulkFree_lowest cidr b ex gw sf sl n :
  native_cidr cidr b → 0 < n →
  match BulkFree cidr ex gw sf sl n with
  | Ok ips => ∃ xs, ips = fam_ip (blk_width b) <$> xs ∧ Z.of_nat (length xs) = n ∧
                lowest (allocatable b ex gw sf sl) xs
  | Err e => e = ErrExhausted ∧ ∃ xs, Z.of_nat (length xs) < n ∧
               ∀ y, allocatable b ex gw sf sl y → y ∈ xs
  end.
Proof.
  intros Hn Hpos. destruct (BulkFree_native cidr b ex gw sf sl n Hn Hpos) as (xs & Hl & Hle & Hall & ->).
  destruct (Z.of_nat (length xs) <? n) eqn:E; bool_hyps.
  - split; [done|]. exists xs. split; [done|]. by apply Hall.
  - exists xs. split_and!; [done|lia|done].
Qed.

Lemma BulkFree_lowest_witness :
  BulkFree "10.0.0.5/24" ex_exclude "10.0.0.1" 0 0 2 = Ok [IP4 167772163; IP4 167772164] ∧
  match BulkFree "10.0.0.5/24" ex_exclude "10.0.0.1" 0 0 2 with
  | Ok ips => ∃ xs, ips = fam_ip (blk_width ex_block) <$> xs ∧ Z.of_nat (length xs) = 2 ∧
                lowest (allocatable ex_block ex_exclude "10.0.0.1" 0 0) xs
  | Err e => e = ErrExhausted ∧ ∃ xs, Z.of_nat (length xs) < 2 ∧
               ∀ y, allocatable ex_block ex_exclude "10.0.0.1" 0 0 y → y ∈ xs
  end.
Proof.
  split; [vm_compute; reflexivity|].
  apply (BulkFree_lowest "10.0.0.5/24" ex_block); [exact ex_native|reflexivity].
Defined.

(** Bulk allocation as a sequence of single allocations, each excluding what
    the previous ones returned. *)
Fixpoint iterate_FirstFree (n : nat) (cidr : string) (ex : gmap string bool) (gw : string)
    (sf sl : Z) : result ipnet_error (list IP) :=
  match n with
  | O => Ok []
  | S n' =>
      match FirstFree cidr ex gw sf sl with
      | Err e => Err e
      | Ok ip => match iterate_FirstFree n' cidr (<[IP_String ip := true]> ex) gw sf sl with
                 | Err e => Err e
                 | Ok ips => Ok (ip :: ips)
                 end
      end
  end.

Lemma allocatable_insert b ex gw sf sl x y :
  block_ok b → allocatable b ex gw sf sl x →
  allocatable b (<[addr_text b x := true]> ex) gw sf sl y ↔ allocatable b ex gw sf sl y ∧ y ≠ x.
Proof.
  intros Hok Hx. destruct (allocatable_wf _ _ _ _ _ _ Hok Hx) as (Hwf & Hne & Hrx).
  pose proof (normalizeIP_String _ Hwf Hne) as Hnorm.
  assert (Hkey : ∀ k, normalizeIP k = addr_text b y → k = addr_text b x → block_ok b →
             allocatable b ex gw sf sl y → y = x).
  { intros k Hk -> _ Hy. destruct (allocatable_wf _ _ _ _ _ _ Hok Hy) as (_ & _ & Hry).
    unfold addr_text in Hk. rewrite Hnorm in Hk. symmetry.
    apply (fam_String_inj (blk_width b)); [apply Hok|done|done|done]. }
  split.
  - intros (Hr & Hg & Hk). assert (Hy : allocatable b ex gw sf sl y).
    { split_and!; [lia|lia|done|]. intros k Hex. destruct (decide (k = addr_text b x)) as [->|Hkx].
      - apply Hk. by rewrite lookup_insert_eq.
      - apply Hk. by rewrite lookup_insert_ne by done. }
    split; [done|]. intros ->. apply (Hk (addr_text b x)); [by rewrite lookup_insert_eq|done].
  - intros [(Hr & Hg & Hk) Hyx]. split_and!; [lia|lia|done|]. intros k Hl E.
    destruct (decide (k = addr_text b x)) as [->|Hkx].
    + apply Hyx, (Hkey (addr_text b x)); [done|done|done|exact (conj Hr (conj Hg Hk))].
    + rewrite lookup_insert_ne in Hl by done. by apply (Hk k).
Qed.

(** Removing the least element of the lowest members. *)
Lemma lowest_cons (P Q : Z → Prop) x xs :
  (∀ y, Q y ↔ P y ∧ y ≠ x) → P x → (∀ y, P y → x ≤ y) → lowest Q xs → lowest P (x :: xs).
Proof.
  intros HQ Hx Hmin (Hs & Hf & Hlow). split_and!.
  - constructor; [done|]. apply Forall_forall. intros y Hy. rewrite Forall_forall in Hf.
    apply Hf, HQ in Hy as [Hy ?]. specialize (Hmin y Hy). lia.
  - constructor; [done|]. eapply Forall_impl; [exact Hf|]. intros y Hy. by apply HQ.
  - intros y Hy. destruct (decide (y = x)) as [->|Hne]; [left; left|].
    destruct (Hlow y) as [Hin|Hlt]; [by apply HQ|left; by right|right].
    constructor; [specialize (Hmin y Hy); lia|done].
Qed.

(** Lists of lowest members are prefixes of each other. *)
Lemma lowest_unique P xs ys :
  lowest P xs → lowest P ys → length xs = length ys → xs = ys.
Proof.
  revert P ys. induction xs as [|x xs IH]; intros P [|y ys]; [done|done|done|].
  intros (Hs & Hf & Hl) (Hs' & Hf' & Hl') [= Hlen].
  apply StronglySorted_inv in Hs as [Hs Hx], Hs' as [Hs' Hy].
  apply Forall_cons in Hf as [Px Hf], Hf' as [Py Hf'].
  assert (x = y) as <-.
  { destruct (Hl y Py) as [[->|Hin]%elem_of_cons|[Hlt _]%Forall_cons]; [done| |].
    - rewrite Forall_forall in Hx. apply Hx in Hin.
      destruct (Hl' x Px) as [[->|Hin']%elem_of_cons|[Hlt _]%Forall_cons]; [done| |lia].
      rewrite Forall_forall in Hy. apply Hy in Hin'. lia.
    - destruct (Hl' x Px) as [[->|Hin']%elem_of_cons|[Hlt' _]%Forall_cons]; [done| |lia].
      rewrite Forall_forall in Hy. apply Hy in Hin'. lia. }
  f_equal. apply (IH (λ z, P z ∧ x < z)); [| |done].
  - split_and!; [done| |].
    + rewrite Forall_forall in *. intros z Hz. split; auto.
    + intros z [Pz Hz]. destruct (Hl z Pz) as [[->|?]%elem_of_cons|[_ ?]%Forall_cons]; auto. lia.
  - split_and!; [done| |].
    + rewrite Forall_forall in *. intros z Hz. split; auto.
    + intros z [Pz Hz]. destruct (Hl' z Pz) as [[->|?]%elem_of_cons|[_ ?]%Forall_cons]; auto. lia.
Qed.

Lemma lowest_too_many P xs ys :
  lowest P xs → (∀ y, P y → y ∈ ys) → (length xs ≤ length ys)%nat.
Proof.
  intros (Hs & Hf & _) Hall. apply submseteq_length, NoDup_submseteq.
  - clear -Hs. induction Hs as [|x xs Hs IH Hx]; constructor; [|done].
    intros Hin. rewrite Forall_forall in Hx. apply Hx in Hin. lia.
  - intros x Hx. rewrite Forall_forall in Hf. by apply Hall, Hf.
Qed.

Lemma iterate_FirstFree_spec n cidr b ex gw sf sl :
  native_cidr cidr b →
  match iterate_FirstFree n cidr ex gw sf sl with
  | Ok ips => ∃ xs, ips = fam_ip (blk_width b) <$> xs ∧ length xs = n ∧
                lowest (allocatable b ex gw sf sl) xs
  | Err e => e = ErrExhausted ∧ ∃ xs, (length xs < n)%nat ∧
               ∀ y, allocatable b ex gw sf sl y → y ∈ xs
  end.
Proof.
  intros Hn. destruct (native_Parse _ _ Hn) as (info & _ & Hok & _).
  revert ex. induction n as [|n IH]; intros ex; simpl.
  { exists []. split_and!; try done. split_and!; [constructor|constructor|]. intros y _. right. constructor. }
  pose proof (FirstFree_native cidr b ex gw sf sl Hn) as H.
  destruct (FirstFree cidr ex gw sf sl) as [ip|e].
  - destruct H as (x & -> & Ha & Hlow). fold (addr_text b x). specialize (IH (<[addr_text b x:=true]> ex)).
    assert (HQ : ∀ y, allocatable b (<[addr_text b x:=true]> ex) gw sf sl y ↔
              allocatable b ex gw sf sl y ∧ y ≠ x) by (intros; by apply allocatable_insert).
    destruct (iterate_FirstFree n _ _ _ _ _) as [ips|e].
    + destruct IH as (xs & -> & Hlen & Hl). exists (x :: xs). split_and!; [done|simpl; lia|].
      by eapply lowest_cons.
    + destruct IH as [-> (xs & Hlen & Hall)]. split; [done|]. exists (x :: xs). split; [simpl; lia|].
      intros y Hy. destruct (decide (y = x)) as [->|Hne]; [left|right]. apply Hall, HQ. done.
  - destruct H as [-> Hnone]. split; [done|]. exists []. split; [simpl; lia|].
    intros y Hy. by destruct (Hnone y).
Qed.

(** C24: a bulk allocation of [n] addresses is exactly [n] consecutive single
    allocations, each excluding the addresses returned before it, errors
    included. *)
Theorem BulkFree_iterates_FirstFree cidr b ex gw sf sl n :
  native_cidr cidr b → 0 < n →
  BulkFree cidr ex gw sf sl n = iterate_FirstFree (Z.to_nat n) cidr ex gw sf sl.
Proof.
  intros Hn Hpos. destruct (BulkFree_native cidr b ex gw sf sl n Hn Hpos) as (xs & Hl & Hle & Hall & ->).
  pose proof (iterate_FirstFree_spec (Z.to_nat n) cidr b ex gw sf sl Hn) as H.
  destruct (Z.of_nat (length xs) <? n) eqn:E; bool_hyps;
    destruct (iterate_FirstFree _ _ _ _ _ _) as [ips|e].
  - destruct H as (ys & _ & Hlen & Hl'). pose proof (lowest_too_many _ _ _ Hl' (Hall E)). lia.
  - by destruct H as [-> _].
  - destruct H as (ys & -> & Hlen & Hl'). do 2 f_equal. apply (lowest_unique _ _ _ Hl Hl'). lia.
  - destruct H as [_ (ys & Hlen & Hall')]. pose proof (lowest_too_many _ _ _ Hl Hall'). lia.
Qed.

Lemma BulkFree_iterates_FirstFree_witness :
  BulkFree "10.0.0.5/24" ex_exclude "10.0.0.1" 0 0 3 =
  iterate_FirstFree (Z.to_nat 3) "10.0.0.5/24" ex_exclude "10.0.0.1" 0 0.
Proof.
  apply (BulkFree_iterates_FirstFree "10.0.0.5/24" ex_block); [exact ex_native|reflexivity].
Defined.

(** ** Enumeration *)

Lemma enumerate_lookup n cur version i :
  enumerate n cur version !! i =
    if (i <? n)%nat then Some (intToIP (cur + Z.of_nat i) version) else None.
Proof.
  revert cur i. induction n as [|n IH]; intros cur [|i]; simpl; try done.
  - do 2 f_equal. lia.
  - rewrite IH. change (S i <? S n)%nat with (i <? n)%nat. destruct (i <? n)%nat; [|done].
    do 2 f_equal. lia.
Qed.

Lemma enumerate_length n cur version : length (enumerate n cur version) = n.
Proof. revert cur. induction n as [|n IH]; intros cur; simpl; [done|by rewrite IH]. Qed.

(** C26: [Hosts] lists every usable address of a native CIDR exactly once, in
    increasing order, and fails with [ErrTooLarge] exactly when there are more
    than [MaxHostEnumerate]; the slice allocation never panics. *)
Theorem Hosts_exact cidr b :
  native_cidr cidr b →
  let count := usable_hi b - usable_lo b + 1 in
  Hosts cidr = Err ErrTooLarge ∧ MaxHostEnumerate < count ∨
  ∃ ips, Hosts cidr = Ok ips ∧ Z.of_nat (length ips) = count ∧ count ≤ MaxHostEnumerate ∧
    ∀ i, 0 ≤ i < count → ips !! Z.to_nat i = Some (fam_ip (blk_width b) (usable_lo b + i)).
Proof.
  intros Hn. destruct (native_Parse _ _ Hn) as (info & Hp & Hok & _ & _ & Hv & _).
  pose proof (native_hostRange _ _ _ Hn Hp) as Hr. cbv zeta. unfold Hosts. rewrite Hp, Hr.
  pose proof (usable_in_block b) as Hin. pose proof (block_last b Hok) as Hlast.
  assert (Hcount : 1 ≤ usable_hi b - usable_lo b + 1).
  { destruct Hok as (_ & Hk & _). pose proof (pow2_pos (blk_hbits b) ltac:(lia)).
    unfold usable_hi, usable_lo. destruct (2 <=? blk_hbits b) eqn:E; bool_hyps.
    - pose proof (pow2_le 2 (blk_hbits b) ltac:(lia)). change (2 ^ 2) with 4 in *.
      destruct (_ && _); lia.
    - rewrite andb_false_r. lia. }
  destruct (MaxHostEnumerate <? _) eqn:E; bool_hyps; [by left|right].
  rewrite (proj2 (Z.ltb_ge _ _)) by lia. eexists. split; [done|].
  rewrite enumerate_length, Z2Nat.id by lia. split_and!; [done|done|].
  intros i Hi. rewrite enumerate_lookup, (proj2 (Nat.ltb_lt _ _)), Z2Nat.id by lia.
  rewrite Hv, intToIP_fam; [done|apply Hok|].
  destruct (Hin (usable_lo b + i) Hok ltac:(lia)). destruct Hok as (_ & _ & ? & _). lia.
Qed.

Lemma Hosts_exact_witness :
  let count := usable_hi ex_block - usable_lo ex_block + 1 in
  Hosts "10.0.0.5/24" = Err ErrTooLarge ∧ MaxHostEnumerate < count ∨
  ∃ ips, Hosts "10.0.0.5/24" = Ok ips ∧ Z.of_nat (length ips) = count ∧ count ≤ MaxHostEnumerate ∧
    ∀ i, 0 ≤ i < count →
      ips !! Z.to_nat i = Some (fam_ip (blk_width ex_block) (usable_lo ex_block + i)).
Proof. exact (Hosts_exact "10.0.0.5/24" ex_block ex_native). Defined.

(** ** Relations between blocks *)

Lemma Contains_base n1 n2 b1 b2 :
  net_ok n1 → net_ok n2 → net_block n1 = Some b1 → net_block n2 = Some b2 →
  Contains n1 (net_IP n2) = true ↔ in_block b1 (blk_width b2) (blk_base b2).
Proof.
  intros H1 H2 E1 E2. rewrite (Contains_block n1 b1) by (done || by apply net_IP_wf).
  rewrite (canon_net_IP n2 b2 E2). split; [intros (w & x & ? & ?); by simplify_eq|eauto].
Qed.

Lemma base_in_block b : block_ok b → in_block b (blk_width b) (blk_base b).
Proof. intros (_ & Hk & _). pose proof (pow2_pos (blk_hbits b) ltac:(lia)). split; [done|lia]. Qed.

Definition share_address (a b : block) : Prop := ∃ w x, in_block a w x ∧ in_block b w x.

Lemma Overlaps_blocks a b :
  match Overlaps a b with
  | Ok r => ∃ ba bb, cidr_block a = Some ba ∧ cidr_block b = Some bb ∧ (r = true ↔ share_address ba bb)
  | Err e => e = ErrParse ∧ (cidr_block a = None ∨ cidr_block b = None)
  end.
Proof.
  unfold Overlaps. destruct (ParseCIDR (TrimSpace a)) as [[ipa na]|] eqn:Ea.
  2:{ split; [done|]. left. unfold cidr_block. by rewrite Ea. }
  destruct (ParseCIDR (TrimSpace b)) as [[ipb nb]|] eqn:Eb.
  2:{ split; [done|]. right. unfold cidr_block. by rewrite Eb. }
  destruct (ParseCIDR_block _ _ _ Ea) as (ba & Hba & Hna & Hoa & Hka).
  destruct (ParseCIDR_block _ _ _ Eb) as (bb & Hbb & Hnb & Hob & Hkb).
  exists ba, bb. split_and!; [done|done|].
  rewrite orb_true_iff, (Contains_base na nb ba bb), (Contains_base nb na bb ba) by done. split.
  - intros [H|H]; [exists (blk_width bb), (blk_base bb)|exists (blk_width ba), (blk_base ba)];
      split; auto using base_in_block.
  - intros (w & x & H1 & H2). pose proof (proj1 H1) as E1. pose proof (proj1 H2) as E2.
    destruct (blocks_nested ba bb w x Hka Hkb H1 H2) as [H|H]; [left|right]; congruence.
Qed.

(** Two CIDR texts overlap exactly when their blocks share an address, and
    the test fails exactly when one of the texts is not a CIDR. *)
Theorem Overlaps_iff a b :
  match Overlaps a b with
  | Ok r => ∃ ba bb, cidr_block a = Some ba ∧ cidr_block b = Some bb ∧ (r = true ↔ share_address ba bb)
  | Err e => e = ErrParse ∧ (cidr_block a = None ∨ cidr_block b = None)
  end.
Proof. apply Overlaps_blocks. Qed.

(** The family of a mask: the address length it applies to. *)
Definition cidr_family (cidr : string) : option Z :=
  match ParseCIDR (TrimSpace cidr) with Some (_, n) => Some (mask_bits (net_Mask n)) | None => None end.

Definition strictly_inside (c p : block) : Prop :=
  blk_width c = blk_width p ∧ blk_hbits c < blk_hbits p ∧
  ∀ w x, in_block c w x → in_block p w x.

Lemma nested_subset c p :
  block_ok c → block_ok p → blk_hbits c ≤ blk_hbits p → in_block p (blk_width c) (blk_base c) →
  ∀ w x, in_block c w x → in_block p w x.
Proof.
  intros (_ & Hkc & _ & Hfc) (_ & Hkp & _ & Hfp) Hle [Hw Hb] w x [-> Hx]. split; [done|].
  rewrite <- Hfp in Hb. apply (floor_pow2_eq_iff (blk_hbits p)) in Hb; [|lia].
  rewrite <- Hfc in Hx. apply (floor_pow2_eq_iff (blk_hbits c)) in Hx; [|lia].
  pose proof (floor_pow2_coarser (blk_hbits c) (blk_hbits p) x ltac:(lia)) as E.
  rewrite Hx, floor_pow2_coarser, Hb, Hfp in E by lia.
  pose proof (floor_pow2_range (blk_hbits p) x ltac:(lia)). lia.
Qed.

Lemma Within_blocks child parent :
  Within child parent = true ↔
  ∃ bc bp, cidr_block child = Some bc ∧ cidr_block parent = Some bp ∧
    cidr_family child = cidr_family parent ∧ strictly_inside bc bp.
Proof.
  unfold Within, cidr_family. destruct (ParseCIDR (TrimSpace child)) as [[ipc nc]|] eqn:Ec.
  2:{ split; [done|]. intros (? & ? & H & _). unfold cidr_block in H. by rewrite Ec in H. }
  destruct (ParseCIDR (TrimSpace parent)) as [[ipp np]|] eqn:Ep.
  2:{ split; [done|]. intros (? & ? & _ & H & _). unfold cidr_block in H. by rewrite Ep in H. }
  destruct (ParseCIDR_block _ _ _ Ec) as (bc & Hbc & Hnc & Hoc & Hkc).
  destruct (ParseCIDR_block _ _ _ Ep) as (bp & Hbp & Hnp & Hop & Hkp).
  assert (Hh : ∀ n b, net_block n = Some b →
            blk_hbits b = mask_bits (net_Mask n) - mask_ones (net_Mask n)).
  { intros n b H. unfold net_block in H. destruct (canon (net_IP n)) as [[? ?]|]; [|done]. by injection H as <-. }
  pose proof (Hh _ _ Hnc) as Hhc. pose proof (Hh _ _ Hnp) as Hhp.
  rewrite !andb_true_iff, Z.eqb_eq, Z.ltb_lt, (Contains_base np nc bp bc) by done. split.
  - intros [[Hb Ho] Hin]. exists bc, bp. split_and!; [done|done|congruence|].
    split_and!; [apply Hin|lia|]. apply nested_subset; auto. lia.
  - intros (bc' & bp' & Hc' & Hp' & Hf & (Hw & Hlt & Hsub)). simplify_eq.
    split_and!; [congruence|lia|]. apply Hsub. by apply base_in_block.
Qed.

(** [Within] accepts a pair exactly when both texts are CIDRs of one family
    and the child's block is a strictly smaller part of the parent's. *)
Theorem Within_iff child parent :
  Within child parent = true ↔
  ∃ bc bp, cidr_block child = Some bc ∧ cidr_block parent = Some bp ∧
    cidr_family child = cidr_family parent ∧ strictly_inside bc bp.
Proof. apply Within_blocks. Qed.

(** Consequences used by the subnet hierarchy. *)
Lemma Within_irrefl cidr : Within cidr cidr = false.
Proof.
  destruct (Within cidr cidr) eqn:E; [|done].
  apply Within_blocks in E as (bc & bp & ? & ? & _ & _ & ? & _). simplify_eq. lia.
Qed.

Lemma Within_trans a b c : Within a b = true → Within b c = true → Within a c = true.
Proof.
  rewrite !Within_blocks. intros (ba & bb & Ha & Hb & Hf & Hw & Hlt & Hs) (bb' & bc & Hb' & Hc & Hf' & Hw' & Hlt' & Hs').
  simplify_eq. exists ba, bc. split_and!; [done|done|congruence|]. split_and!; [congruence|lia|auto].
Qed.

Lemma Within_Overlaps child parent : Within child parent = true → Overlaps child parent = Ok true.
Proof.
  intros (bc & bp & Hc & Hp & _ & _ & _ & Hs)%Within_blocks.
  pose proof (Overlaps_blocks child parent) as H.
  destruct (Overlaps child parent) as [r|e].
  - destruct H as (ba & bb & Ha & Hb & Hr). simplify_eq. f_equal. apply Hr.
    exists (blk_width bc), (blk_base bc).
    assert (Hin : in_block bc (blk_width bc) (blk_base bc)) by (eapply base_in_block, cidr_block_ok; eauto).
    auto.
  - destruct H as [_ [?|?]]; congruence.
Qed.

Lemma Overlaps_sym a b : Overlaps a b = Overlaps b a.
Proof.
  unfold Overlaps. destruct (ParseCIDR (TrimSpace a)) as [[ipa na]|], (ParseCIDR (TrimSpace b)) as [[ipb nb]|]; try done.
  by rewrite orb_comm.
Qed.

(** ** Subdivision *)

Lemma dtoi_small p : 0 ≤ p < 256 → dtoi (itoa_small p) 0 false = Some (p, EmptyString).
Proof.
  intros Hp. assert (H : match dtoi (itoa_small p) 0 false with
                         | Some (q, EmptyString) => q =? p | _ => false end = true).
  { revert p Hp. apply (Z_forallb_bounded _ 256). vm_compute. reflexivity. }
  destruct (dtoi (itoa_small p) 0 false) as [[q [|]]|]; [|done|done]. bool_hyps. by subst.
Qed.

Lemma cidr_text_trim ip p : IP_wf ip → ip ≠ IPnil → 0 ≤ p < 256 → TrimSpace (cidr_text ip p) = cidr_text ip p.
Proof.
  intros Hwf Hne Hp. apply TrimSpace_plain. unfold cidr_text, itoa_small.
  rewrite !str_forallb_app, (str_forallb_impl addr_byte plain_byte (IP_String ip)), (str_forallb_impl addr_byte plain_byte (appendDecimal p));
    auto using appendDecimal_bytes, IP_String_bytes, addr_byte_plain.
Qed.

(** Printing an aligned block and parsing it gives the block back. *)
Lemma cidr_text_block w x p :
  w = 32 ∨ w = 128 → 0 ≤ x < 2 ^ w → 0 ≤ p ≤ w → floor_pow2 (w - p) x = x →
  (w = 128 → is4In6_value x = false) →
  cidr_block (cidr_text (fam_ip w x) p) = Some {| blk_width := w; blk_base := x; blk_hbits := w - p |}.
Proof.
  intros Hw Hx Hp Hf Hpl. destruct (fam_ip_wf w x Hw Hx) as [Hwf Hne].
  assert (0 ≤ p < 256) by (destruct Hw as [-> | ->]; lia).
  assert (Ha : ParseAddr (IP_String (fam_ip w x)) = Some (if w =? 32 then Addr4 x else Addr6 x "")).
  { destruct Hw as [-> | ->]; unfold fam_ip, IP_String; cbn [To4 Z.eqb Pos.eqb].
    - by apply (ParseAddr_String (Addr4 x)).
    - rewrite Hpl by done. by apply (ParseAddr_String (Addr6 x "")). }
  unfold cidr_block. rewrite cidr_text_trim by done. unfold cidr_text, ParseCIDR.
  change ("/" +:+ itoa_small p) with (String "/" (itoa_small p)).
  rewrite cut_byte_app by (by eapply (str_forallb_has_byte addr_byte); [done|apply IP_String_bytes]).
  rewrite Ha, dtoi_small by done. destruct Hw as [-> | ->]; cbn [Z.eqb Pos.eqb Addr_Zone is_empty negb Addr_BitLen orb].
  - rewrite (proj2 (Z.ltb_ge p 0)), (proj2 (Z.ltb_ge 32 p)) by lia. cbn [orb].
    unfold net_block, As16, IP_Mask. cbn [net_IP net_Mask mask_bits mask_ones CIDRMask Z.eqb Pos.eqb].
    rewrite is4In6_mapped, mapped_mod by done. unfold mask_word, CIDRMask. cbn [mask_ones mask_bits canon].
    by rewrite land_mask, Hf by lia.
  - rewrite (proj2 (Z.ltb_ge p 0)), (proj2 (Z.ltb_ge 128 p)) by lia. cbn [orb].
    unfold net_block, As16, IP_Mask. cbn [net_IP net_Mask mask_bits mask_ones CIDRMask Z.eqb Pos.eqb].
    unfold mask_word, CIDRMask. cbn [mask_ones mask_bits canon].
    by rewrite land_mask, Hf, Hpl by lia.
Qed.

Lemma subdivide_from_lookup n k base step version p i :
  subdivide_from n k base step version p !! i =
    if (i <? n)%nat then Some (cidr_text (intToIP (base + step * (k + Z.of_nat i)) version) p) else None.
Proof.
  revert k i. induction n as [|n IH]; intros k [|i]; simpl; try done.
  - by rewrite Z.add_0_r.
  - rewrite IH. change (S i <? S n)%nat with (i <? n)%nat. destruct (i <? n)%nat; [|done].
    do 4 f_equal. lia.
Qed.

Lemma subdivide_from_length n k base step version p :
  length (subdivide_from n k base step version p) = n.
Proof. revert k. induction n as [|n IH]; intros k; simpl; [done|by rewrite IH]. Qed.

(** The [i]-th of the equal parts of [b] with [h] host bits. *)
Definition child_block (b : block) (h i : Z) : block :=
  {| blk_width := blk_width b; blk_base := blk_base b + 2 ^ h * i; blk_hbits := h |}.

Lemma child_block_ok b h i :
  block_ok b → 0 ≤ h ≤ blk_hbits b → 0 ≤ i < 2 ^ (blk_hbits b - h) →
  block_ok (child_block b h i) ∧ ∀ w x, in_block (child_block b h i) w x → in_block b w x.
Proof.
  intros Hok Hh Hi. pose proof (block_last b Hok) as Hlast. destruct Hok as (Hw & Hk & Hb & Hf).
  pose proof (pow2_pos h ltac:(lia)). pose proof (pow2_pos (blk_hbits b - h) ltac:(lia)).
  assert (E : 2 ^ blk_hbits b = 2 ^ h * 2 ^ (blk_hbits b - h)) by (rewrite <- pow2_split by lia; f_equal; lia).
  assert (2 ^ h * i + 2 ^ h ≤ 2 ^ blk_hbits b) by nia. unfold child_block. split.
  - unfold block_ok; cbn [blk_width blk_base blk_hbits]. split_and!; try done; try nia.
    rewrite <- Hf. unfold floor_pow2. rewrite E.
    replace (blk_base b / (2 ^ h * 2 ^ (blk_hbits b - h)) * (2 ^ h * 2 ^ (blk_hbits b - h)) + 2 ^ h * i)
      with ((blk_base b / (2 ^ h * 2 ^ (blk_hbits b - h)) * 2 ^ (blk_hbits b - h) + i) * 2 ^ h) by lia.
    by rewrite Z.div_mul by lia.
  - intros w x [-> Hx]. cbn in Hx. split; [done|]. nia.
Qed.

(** The parts tile the block: each address is in exactly one of them. *)
Lemma child_block_tiles b h x :
  0 ≤ h ≤ blk_hbits b → in_block b (blk_width b) x →
  ∃ i, 0 ≤ i < 2 ^ (blk_hbits b - h) ∧ in_block (child_block b h i) (blk_width b) x ∧
    ∀ j, in_block (child_block b h j) (blk_width b) x → j = i.
Proof.
  intros Hh [_ Hx]. pose proof (pow2_pos h ltac:(lia)).
  assert (E : 2 ^ blk_hbits b = 2 ^ h * 2 ^ (blk_hbits b - h)) by (rewrite <- pow2_split by lia; f_equal; lia).
  pose proof (Z.div_mod (x - blk_base b) (2 ^ h) ltac:(lia)) as Hd.
  pose proof (Z.mod_pos_bound (x - blk_base b) (2 ^ h) ltac:(lia)).
  exists ((x - blk_base b) / 2 ^ h). unfold in_block, child_block; cbn. split_and!; try done; try nia.
Qed.

Lemma Subdivide_native cidr b p :
  native_cidr cidr b →
  let h := blk_width b - p in
  match Subdivide cidr p with
  | Ok out =>
      0 ≤ h < blk_hbits b ∧ Z.of_nat (length out) = 2 ^ (blk_hbits b - h) ∧
      Z.of_nat (length out) ≤ MaxSubdivide ∧
      (∀ i, 0 ≤ i < Z.of_nat (length out) →
         ∃ t, out !! Z.to_nat i = Some t ∧ cidr_block t = Some (child_block b h i)) ∧
      (∀ x, in_block b (blk_width b) x →
         ∃ i, 0 ≤ i < Z.of_nat (length out) ∧ in_block (child_block b h i) (blk_width b) x ∧
           ∀ j, in_block (child_block b h j) (blk_width b) x → j = i)
  | Err (ErrNotInside q l) => q = p ∧ l = blk_width b - blk_hbits b ∧ ¬ 0 ≤ h < blk_hbits b
  | Err e => e = ErrTooLarge ∧ 0 ≤ h < blk_hbits b ∧ MaxSubdivide < 2 ^ (blk_hbits b - h)
  end.
Proof.
  intros Hn h. destruct (native_Parse _ _ Hn) as (info & Hp & Hok & Hpl & _ & Hv & Hlen & Hnet & _).
  unfold Subdivide. rewrite Hp, Hv, Hlen.
  assert (Hbits : (if fam_version (blk_width b) =? 6 then 128 else 32) = blk_width b).
  { destruct Hok as [[E|E] _]; by rewrite E. }
  rewrite Hbits. replace (p - (blk_width b - blk_hbits b)) with (blk_hbits b - h) by lia.
  fold h. destruct ((p <=? _) || (_ <? p)) eqn:Ep; bool_hyps.
  { split_and!; [done|done|]. apply orb_true_iff in Ep. destruct Ep; bool_hyps; lia. }
  destruct (20 <? blk_hbits b - h) eqn:E20; bool_hyps.
  { split_and!; [done|lia|lia|]. pose proof (pow2_le 20 (blk_hbits b - h) ltac:(lia)).
    unfold MaxSubdivide. lia. }
  destruct (MaxSubdivide <? 2 ^ (blk_hbits b - h)) eqn:Ec; bool_hyps; [split_and!; [done|lia|lia|lia]|].
  pose proof (pow2_pos (blk_hbits b - h) ltac:(lia)).
  rewrite subdivide_from_length, Z2Nat.id by lia. split_and!; try lia.
  - intros i Hi. eexists. rewrite subdivide_from_lookup, (proj2 (Nat.ltb_lt _ _)), Z.add_0_l, Z2Nat.id, Hnet by lia.
    split; [done|]. destruct (child_block_ok b h i Hok ltac:(lia) ltac:(lia)) as [Hcok Hsub].
    destruct (child_block b h i) as [cw cb ch] eqn:Echild. injection Echild as <- <- <-.
    destruct Hcok as (Hw & Hk & Hb & Hf). cbn [blk_width blk_base blk_hbits] in *.
    rewrite intToIP_fam by done. rewrite cidr_text_block; [done|done|done|lia|by fold h|].
    intros H128. apply Hpl; [done|]. apply Hsub. split; [done|cbn].
    pose proof (pow2_pos h ltac:(lia)). lia.
  - intros x Hx. apply child_block_tiles; [lia|done].
Qed.

(** C25: splitting a native CIDR at a longer prefix yields texts that parse back
    to the consecutive equal parts of the block, which tile it exactly, at
    most [MaxSubdivide] of them; it is refused exactly for a prefix outside
    the block or for more parts than the cap. *)
Theorem Subdivide_partition cidr b p :
  native_cidr cidr b →
  let h := blk_width b - p in
  match Subdivide cidr p with
  | Ok out =>
      0 ≤ h < blk_hbits b ∧ Z.of_nat (length out) = 2 ^ (blk_hbits b - h) ∧
      Z.of_nat (length out) ≤ MaxSubdivide ∧
      (∀ i, 0 ≤ i < Z.of_nat (length out) →
         ∃ t, out !! Z.to_nat i = Some t ∧ cidr_block t = Some (child_block b h i)) ∧
      (∀ x, in_block b (blk_width b) x →
         ∃ i, 0 ≤ i < Z.of_nat (length out) ∧ in_block (child_block b h i) (blk_width b) x ∧
           ∀ j, in_block (child_block b h j) (blk_width b) x → j = i)
  | Err (ErrNotInside q l) => q = p ∧ l = blk_width b - blk_hbits b ∧ ¬ 0 ≤ h < blk_hbits b
  | Err e => e = ErrTooLarge ∧ 0 ≤ h < blk_hbits b ∧ MaxSubdivide < 2 ^ (blk_hbits b - h)
  end.
Proof. apply Subdivide_native. Qed.

Lemma Subdivide_partition_witness :
  Subdivide "10.0.0.5/24" 26 = Ok ["10.0.0.0/26"; "10.0.0.64/26"; "10.0.0.128/26"; "10.0.0.192/26"] ∧
  ∀ x, in_block ex_block 32 x → ∃ i, 0 ≤ i < 4 ∧ in_block (child_block ex_block 6 i) 32 x ∧
         ∀ j, in_block (child_block ex_block 6 j) 32 x → j = i.
Proof.
  split; [vm_compute; reflexivity|].
  pose proof (Subdivide_partition "10.0.0.5/24" ex_block 26 ex_native) as H. cbv zeta in H.
  replace (Subdivide "10.0.0.5/24" 26) with
    (Ok (E := ipnet_error) ["10.0.0.0/26"; "10.0.0.64/26"; "10.0.0.128/26"; "10.0.0.192/26"]) in H
    by (vm_compute; reflexivity).
  apply H.
Defined.

(** ** Gateway checks *)

Lemma IP_Equal_canon a b : a ≠ IPnil → b ≠ IPnil →
  IP_Equal a b = true ↔ canon a = canon b.
Proof.
  assert (Hmap : ∀ x y, is4In6_value x = true → is4In6_value y = true →
            x mod 2 ^ 32 = y mod 2 ^ 32 → x = y).
  { intros x y Hx Hy E. rewrite <- (mapped_recompose x Hx), <- (mapped_recompose y Hy). by rewrite E. }
  unfold canon, IP_Equal. generalize dependent (2 ^ 32). intros m Hmap.
  destruct a as [|x|x], b as [|y|y]; intros Hna Hnb; try congruence.
  - rewrite Z.eqb_eq. split; congruence.
  - destruct (is4In6_value y) eqn:Ey; cbn [andb]; [rewrite Z.eqb_eq|]; split; congruence.
  - destruct (is4In6_value x) eqn:Ex; cbn [andb]; [rewrite Z.eqb_eq|]; split; congruence.
  - rewrite Z.eqb_eq. destruct (is4In6_value x) eqn:Ex, (is4In6_value y) eqn:Ey;
      (split; [congruence|]); intros [= E]; try congruence. by apply Hmap.
Qed.

Lemma if_negb_Ok {E} (c d : bool) :
  (if c then if d then Ok false else Ok true else Ok true) = Ok (E := E) (negb (c && d)).
Proof. by destruct c, d. Qed.

(** The network/broadcast test, on numbers. *)
Lemma edge_test b x e1 e2 :
  blk_base b ≤ x < blk_base b + 2 ^ blk_hbits b →
  (blk_width b = 32 → e1 = true ↔ x = blk_base b) →
  (blk_width b = 32 → e2 = true ↔ x = blk_base b + 2 ^ blk_hbits b - 1) →
  negb ((blk_width b =? 32) && (2 <=? blk_hbits b) && (e1 || e2)) = true ↔
  (blk_width b = 32 → usable_lo b ≤ x ≤ usable_hi b).
Proof.
  intros Hx H1 H2. unfold usable_lo, usable_hi. destruct (blk_width b =? 32) eqn:Ew; cbn [andb]; bool_hyps.
  2:{ split; [intros _ ?; done|done]. }
  specialize (H1 Ew). specialize (H2 Ew). destruct (2 <=? blk_hbits b) eqn:E2; cbn [andb]; bool_hyps.
  - rewrite negb_true_iff, orb_false_iff, <- !not_true_iff_false, H1, H2. split; [intros ? _; lia|].
    intros H. specialize (H Ew). lia.
  - split; [intros _ _; lia|done].
Qed.

(** A text is accepted as a gateway exactly when it denotes an address of
    the CIDR's block, other than the network and broadcast addresses of an
    IPv4 block of more than two addresses. *)
Theorem GatewayInRange_iff cidr b gw :
  native_cidr cidr b →
  match GatewayInRange cidr gw with
  | Err e => e = ErrParse ∧ ParseIP (TrimSpace gw) = IPnil
  | Ok r => r = true ↔ ∃ x, canon (ParseIP (TrimSpace gw)) = Some (blk_width b, x) ∧
              in_block b (blk_width b) x ∧
              (blk_width b = 32 → usable_lo b ≤ x ≤ usable_hi b)
  end.
Proof.
  intros Hn. destruct (native_Parse _ _ Hn) as (info & Hp & Hok & Hpl & _ & Hv & Hlen & _).
  destruct (Parse_block _ _ Hp) as (ip & n & b' & E & Hnok & Hnb & _ & _ & (_ & Hnw & Hbc & _)).
  destruct Hn as (ip' & n' & E' & Hnb' & _ & _). rewrite E in E'. injection E' as <- <-.
  rewrite Hnb in Hnb'. injection Hnb' as ->. unfold GatewayInRange. rewrite Hp, E. pose proof (ParseIP_wf (TrimSpace gw)) as Hwf.
  destruct (ParseIP_cases (TrimSpace gw)) as [Hg|(v & Hg & Hvr)]; rewrite Hg in *; [done|].
  destruct (Contains n (IP16 v)) eqn:Ec; cbn [negb].
  2:{ split; [done|]. intros (x & Hc & Hin & _). exfalso.
      assert (Contains n (IP16 v) = true) by (apply (Contains_block n b); eauto). congruence. }
  apply (Contains_block n b) in Ec as (w & x & Hc & Hin); [|done|done|done].
  pose proof (proj1 Hin) as ->. assert (Hw : blk_width b = 32 ∨ blk_width b = 128) by apply Hok.
  assert (Heq : ∀ y, blk_width b = 32 → IP_Equal (IP16 v) (fam_ip (blk_width b) y) = true ↔ x = y).
  { intros y H32. rewrite IP_Equal_canon by (by rewrite ?H32). rewrite Hc, H32. cbn. split; congruence. }
  assert (Hcond : (Version info =? 4) && (PrefixLen info <? 31) = (blk_width b =? 32) && (2 <=? blk_hbits b)).
  { rewrite Hv, Hlen. destruct Hw as [-> | ->]; [|done]. cbn. destruct (2 <=? blk_hbits b) eqn:E2; bool_hyps.
    - apply Z.ltb_lt. lia. - apply Z.ltb_ge. lia. }
  rewrite Hcond, Hnw, Hbc, if_negb_Ok.
  assert (Hsome : ∀ P : Z → Prop, (∃ y, canon (IP16 v) = Some (blk_width b, y) ∧
            in_block b (blk_width b) y ∧ P y) ↔ P x).
  { intros P. split; [intros (y & Hy & _ & HP); rewrite Hc in Hy; by simplify_eq|eauto]. }
  eapply iff_trans; [|symmetry; exact (Hsome (λ y, blk_width b = 32 → usable_lo b ≤ y ≤ usable_hi b))].
  apply edge_test; auto. apply Hin.
Qed.

Lemma GatewayInRange_iff_witness :
  GatewayInRange "10.0.0.5/24" "10.0.0.255" = Ok false ∧
  GatewayInRange "10.0.0.5/24" " 10.0.0.254 " = Ok true ∧
  ∃ x, canon (ParseIP (TrimSpace "10.0.0.254")) = Some (32, x) ∧ in_block ex_block 32 x ∧
    (32 = 32 → usable_lo ex_block ≤ x ≤ usable_hi ex_block).
Proof.
  split; [vm_compute; reflexivity|]. split; [vm_compute; reflexivity|].
  pose proof (GatewayInRange_iff "10.0.0.5/24" ex_block "10.0.0.254" ex_native) as H.
  replace (GatewayInRange "10.0.0.5/24" "10.0.0.254") with (Ok (E := ipnet_error) true) in H
    by (vm_compute; reflexivity).
  apply H. reflexivity.
Defined.
