(* ===== verification/Placement.v ===== *)
(** * internal/ipnet/placement.go: placing an address in a subnet

    Longest-prefix match over the tenant's subnets ([MostSpecific]), the
    network of a reported address ([NetworkOf], [AutoPrefix]) and the address
    classes the host sync records ([Classify]). *)

From S2P Require Import Prelude GoNet GoIP Ipnet IpnetProps.

Inductive placement_error : Type := ErrPrefix.

Record Candidate : Type := { cand_ID : string; cand_CIDR : string }.

#[export] Instance Candidate_eq_dec : EqDecision Candidate.
Proof. solve_decision. Defined.

Definition zero_Candidate : Candidate := {| cand_ID := ""; cand_CIDR := "" |}.
Definition zero_Prefix : Prefix := {| pfx_addr := AddrInvalid; pfx_bits := -1 |}.

(** The loop state of [MostSpecific]: best, bestBits, found. *)
Definition pick_state : Type := Candidate * Z * bool.

(** The prefix of a candidate that contains [addr], if any. *)
Definition covering_bits (addr : Addr) (c : Candidate) : option Z :=
  match ParsePrefix (cand_CIDR c) with
  | None => None
  | Some p => if Prefix_Contains (Prefix_Masked p) addr then Some (pfx_bits p) else None
  end.

Definition pick (addr : Addr) (st : pick_state) (c : Candidate) : pick_state :=
  let '(best, bestBits, _) := st in
  match covering_bits addr c with
  | None => st
  | Some bits =>
      if (bestBits <? bits) || ((bits =? bestBits) && str_ltb (cand_ID c) (cand_ID best))
      then (c, bits, true) else st
  end.

Definition MostSpecific (cands : list Candidate) (addr : Addr) : Candidate * bool :=
  let addr := Addr_WithZone (Addr_Unmap addr) "" in
  let '(best, _, found) := fold_left (pick addr) cands (zero_Candidate, -1, false) in
  (best, found).

Definition NetworkOf (addr : Addr) (bits : Z) : result placement_error Prefix :=
  let addr := Addr_WithZone (Addr_Unmap addr) "" in
  if negb (Addr_IsValid addr) || (bits <? 0) || (Addr_BitLen addr <? bits) then Err ErrPrefix
  else Ok (Prefix_Masked {| pfx_addr := addr; pfx_bits := bits |}).

Definition AutoPrefix (addr : Addr) (bits : Z) : Prefix :=
  let addr := Addr_WithZone (Addr_Unmap addr) "" in
  let bits := if Addr_Is4 addr then if (bits <? 8) || (32 <? bits) then 32 else bits
              else if (bits <? 16) || (128 <=? bits) then 64 else bits in
  match NetworkOf addr bits with Ok p => p | Err _ => zero_Prefix end.

Inductive Class : Type :=
| ClassInvalid | ClassUnspecified | ClassLoopback | ClassLinkLocal | ClassMulticast
| ClassBroadcast | ClassMapped | ClassGlobal | ClassULA.

#[export] Instance Class_eq_dec : EqDecision Class.
Proof. solve_decision. Defined.

Definition Class_String (c : Class) : string :=
  match c with
  | ClassInvalid => "invalid"
  | ClassUnspecified => "unspecified"
  | ClassLoopback => "loopback"
  | ClassLinkLocal => "link_local"
  | ClassMulticast => "multicast"
  | ClassBroadcast => "broadcast"
  | ClassMapped => "mapped"
  | ClassGlobal => "global"
  | ClassULA => "ula"
  end.

Definition Recordable (c : Class) : bool :=
  match c with ClassGlobal | ClassULA => true | _ => false end.

(** [netip.MustParsePrefix("fc00::/7")]. *)
Definition ula : Prefix := {| pfx_addr := Addr6 (252 * 2 ^ 120) ""; pfx_bits := 7 |}.

Definition Classify (addr : Addr) : Class :=
  if negb (Addr_IsValid addr) then ClassInvalid
  else if Addr_Is4In6 addr then ClassMapped
  else if Addr_IsUnspecified addr then ClassUnspecified
  else if Addr_IsLoopback addr then ClassLoopback
  else if Addr_IsMulticast addr then ClassMulticast
  else if decide (addr = Addr4 (2 ^ 32 - 1)) then ClassBroadcast
  else if Addr_IsLinkLocalUnicast addr then ClassLinkLocal
  else if Prefix_Contains ula (Addr_WithZone addr "") then ClassULA
  else ClassGlobal.

Example ula_parses : ParsePrefix "fc00::/7" = Some ula.
Proof. vm_compute. reflexivity. Qed.

(** ** Longest-prefix match *)

(** Whether [c] beats [d] among covering candidates: longer prefix, then
    smaller id. *)
Definition beats (addr : Addr) (c d : Candidate) : Prop :=
  ∃ kc kd, covering_bits addr c = Some kc ∧ covering_bits addr d = Some kd ∧
    (kd < kc ∨ kd = kc ∧ str_ltb (cand_ID d) (cand_ID c) = false).

Lemma prefix_bits_nonneg s b : prefix_bits s = Some b → 0 ≤ b.
Proof.
  assert (Hd : ∀ s n b, 0 ≤ n → all_digits s n = Some b → 0 ≤ b).
  { induction s0 as [|c s0 IH]; intros n b0 Hn H; simpl in H; [by simplify_eq|].
    destruct (dec_val c) as [d|] eqn:Ed; [|done]. apply dec_val_range in Ed. eapply IH; [|done]. lia. }
  destruct s as [|c s]; [done|]. unfold prefix_bits. destruct (_ && _); [done|]. apply Hd. lia.
Qed.

Lemma ParsePrefix_bits s p : ParsePrefix s = Some p → 0 ≤ pfx_bits p ≤ Addr_BitLen (pfx_addr p).
Proof.
  unfold ParsePrefix. intros H. repeat inv_step H. bool_hyps. injection H as <-. simpl.
  split; [by eapply prefix_bits_nonneg|lia].
Qed.

Lemma covering_bits_nonneg addr c k : covering_bits addr c = Some k → 0 ≤ k.
Proof.
  unfold covering_bits. destruct (ParsePrefix _) as [p|] eqn:E; [|done].
  apply ParsePrefix_bits in E. destruct (Prefix_Contains _ _); [|done]. intros [= <-]. lia.
Qed.

(** The invariant of the loop: nothing found yet, or the best of the
    candidates seen so far. *)
Definition pick_inv (addr : Addr) (seen : list Candidate) (st : pick_state) : Prop :=
  match st with
  | (best, k, false) => best = zero_Candidate ∧ k = -1 ∧ ∀ c, c ∈ seen → covering_bits addr c = None
  | (best, k, true) => best ∈ seen ∧ covering_bits addr best = Some k ∧
      ∀ c, c ∈ seen → is_Some (covering_bits addr c) → beats addr best c
  end.

Lemma beats_refl addr c k : covering_bits addr c = Some k → beats addr c c.
Proof. intros H. exists k, k. split_and!; [done|done|]. right. by rewrite str_ltb_irrefl. Qed.

Lemma pick_inv_step addr seen st c :
  pick_inv addr seen st → pick_inv addr (seen ++ [c]) (pick addr st c).
Proof.
  destruct st as [[best k] found]. unfold pick. intros Hinv.
  assert (Hmem : ∀ d, d ∈ seen ++ [c] → d ∈ seen ∨ d = c).
  { intros d [?|?%list_elem_of_singleton]%elem_of_app; auto. }
  destruct (covering_bits addr c) as [bits|] eqn:Ec.
  2:{ destruct found; [|destruct Hinv as (-> & -> & Hn)].
      - destruct Hinv as (Hin & Hk & Hb). split_and!; [by apply elem_of_app; left|done|].
        intros d [Hd| ->]%Hmem [kd Hkd]; [by apply Hb|congruence].
      - split_and!; [done|done|]. intros d [Hd| ->]%Hmem; auto. }
  pose proof (covering_bits_nonneg _ _ _ Ec).
  destruct (_ || _) eqn:E.
  - split_and!; [apply elem_of_app; right; by left|done|].
    intros d [Hd| ->]%Hmem [kd Hkd]; [|by eapply beats_refl].
    destruct found; [|destruct Hinv as (-> & -> & Hn); rewrite Hn in Hkd; done].
    destruct Hinv as (Hin & Hk & Hb). destruct (Hb d Hd) as (k1 & k2 & H1 & H2 & Hbt); [eauto|].
    simplify_eq. exists bits, kd. split_and!; [done|done|].
    apply orb_true_iff in E as [E|[Ek Hlt]%andb_true_iff]; bool_hyps; [left; lia|subst bits].
    destruct Hbt as [?|[-> Hid]]; [left; lia|right]. split; [done|].
    apply str_ltb_asym in Hlt. by eapply str_ltb_false_trans.
  - destruct found; [|destruct Hinv as (-> & -> & Hn); apply orb_false_iff in E as [E _]; bool_hyps; lia].
    destruct Hinv as (Hin & Hk & Hb). split_and!; [by apply elem_of_app; left|done|].
    intros d [Hd| ->]%Hmem Hs; [by apply Hb|].
    exists k, bits. split_and!; [done|done|]. apply orb_false_iff in E as [E1 E2]. bool_hyps.
    destruct (decide (bits = k)) as [->|]; [right; split; [done|]|left; lia].
    by rewrite Z.eqb_refl in E2.
Qed.

Lemma MostSpecific_inv addr cands :
  let a := Addr_WithZone (Addr_Unmap addr) "" in
  ∃ k, pick_inv a cands (fst (MostSpecific cands addr), k, snd (MostSpecific cands addr)).
Proof.
  cbv zeta. unfold MostSpecific. set (a := Addr_WithZone _ _).
  assert (H : ∀ l seen st, pick_inv a seen st → pick_inv a (seen ++ l) (fold_left (pick a) l st)).
  { induction l as [|c l IH]; intros seen st Hst; simpl; [by rewrite app_nil_r|].
    rewrite cons_middle, app_assoc. by apply IH, pick_inv_step. }
  specialize (H cands [] (zero_Candidate, -1, false)).
  destruct (fold_left _ _ _) as [[best k] found]. exists k. apply H. split_and!; try done.
  intros c Hc. by apply elem_of_nil in Hc.
Qed.

(** C27: placement is longest-prefix match: [MostSpecific] finds a candidate
    exactly when some candidate's prefix contains the address (IPv4-mapped
    addresses compared as IPv4), the result is one of the candidates, no
    covering candidate has a longer prefix, and among equal prefixes none has
    a smaller id. *)
Theorem MostSpecific_longest addr cands :
  let a := Addr_WithZone (Addr_Unmap addr) "" in
  let '(best, found) := MostSpecific cands addr in
  (found = true ↔ ∃ c, c ∈ cands ∧ is_Some (covering_bits a c)) ∧
  (found = true → best ∈ cands ∧ ∀ c, c ∈ cands → is_Some (covering_bits a c) → beats a best c).
Proof.
  pose proof (MostSpecific_inv addr cands) as [k H]. cbv zeta in *.
  destruct (MostSpecific cands addr) as [best found]. cbn [fst snd] in H.
  destruct found; cbn [pick_inv] in H.
  - destruct H as (Hin & Hk & Hb). split; [|intros _; auto]. split; [intros _|done].
    exists best. rewrite Hk. eauto.
  - destruct H as (_ & _ & Hn). split; [|done]. split; [done|]. intros (c & Hc & [kc Hkc]).
    rewrite Hn in Hkc; done.
Qed.

Lemma MostSpecific_perm addr cands cands' :
  NoDup (cand_ID <$> cands) → cands ≡ₚ cands' → MostSpecific cands addr = MostSpecific cands' addr.
Proof.
  intros Hnd Hp. pose proof (MostSpecific_inv addr cands) as [k H].
  pose proof (MostSpecific_inv addr cands') as [k' H']. cbv zeta in *.
  set (a := Addr_WithZone (Addr_Unmap addr) "") in *.
  destruct (MostSpecific cands addr) as [best found], (MostSpecific cands' addr) as [best' found'].
  cbn [fst snd] in *. destruct found, found'; cbn [pick_inv] in *.
  - destruct H as (Hin & Hk & Hb), H' as (Hin' & Hk' & Hb').
    destruct (Hb best') as (k1 & k2 & E1 & E2 & H12); [by rewrite Hp|by rewrite Hk'|].
    destruct (Hb' best) as (k3 & k4 & E3 & E4 & H34); [by rewrite <- Hp|by rewrite Hk|].
    simplify_eq. destruct H12 as [?|[? Hid]], H34 as [?|[? Hid']]; try lia.
    pose proof (str_ltb_total _ _ Hid Hid') as Heq. f_equal.
    apply list_elem_of_lookup in Hin as [i Hi]. rewrite <- Hp in Hin'.
    apply list_elem_of_lookup in Hin' as [j Hj].
    assert (i = j) as ->; [|congruence].
    eapply NoDup_lookup; [exact Hnd| |]; rewrite list_lookup_fmap; [by rewrite Hi|by rewrite Hj, <- Heq].
  - destruct H as (Hin & Hk & _), H' as (_ & _ & Hn). rewrite Hn in Hk; [done|by rewrite <- Hp].
  - destruct H as (_ & _ & Hn), H' as (Hin & Hk & _). rewrite Hn in Hk; [done|by rewrite Hp].
  - by destruct H as (-> & _), H' as (-> & _).
Qed.

(** Placement is deterministic: with distinct subnet ids, the order in which
    the store lists the subnets does not change the chosen subnet. *)
Theorem MostSpecific_order_independent addr cands cands' :
  NoDup (cand_ID <$> cands) → cands ≡ₚ cands' → MostSpecific cands addr = MostSpecific cands' addr.
Proof. apply MostSpecific_perm. Qed.

Definition ex_cands : list Candidate :=
  [{| cand_ID := "b"; cand_CIDR := "10.0.0.0/24" |}; {| cand_ID := "a"; cand_CIDR := "10.0.0.0/24" |};
   {| cand_ID := "c"; cand_CIDR := "10.0.0.0/8" |}].

Lemma MostSpecific_order_independent_witness :
  MostSpecific ex_cands (Addr4 167772165) = MostSpecific (rev ex_cands) (Addr4 167772165).
Proof.
  apply MostSpecific_order_independent.
  - apply (bool_decide_unpack _). vm_compute. exact I.
  - apply Permutation_rev.
Defined.

(** ** Networks of reported addresses *)

Definition prefix_block (p : Prefix) : block :=
  let w := Addr_BitLen (pfx_addr p) in
  {| blk_width := w; blk_base := floor_pow2 (w - pfx_bits p) (Addr_value (pfx_addr p));
     blk_hbits := w - pfx_bits p |}.

Definition prefix_ok (p : Prefix) : Prop :=
  Addr_wf (pfx_addr p) ∧ Addr_IsValid (pfx_addr p) = true ∧ Addr_Zone (pfx_addr p) = ""%string ∧
  0 ≤ pfx_bits p ≤ Addr_BitLen (pfx_addr p).

(** Printing a prefix and parsing it gives the prefix back. *)
Lemma ParsePrefix_String p : prefix_ok p → ParsePrefix (Prefix_String p) = Some p.
Proof.
  intros (Hwf & Hv & Hz & Hb). unfold ParsePrefix, Prefix_String.
  assert (Hb' : 0 ≤ pfx_bits p < 129) by (destruct (pfx_addr p); cbn in Hb; lia).
  change ("/" +:+ itoa_small (pfx_bits p)) with (String "/" (itoa_small (pfx_bits p))).
  rewrite cut_last_byte_app, ParseAddr_String, Hz by
    (done || (eapply str_forallb_has_byte; [|apply appendDecimal_bytes]; done || lia)).
  rewrite andb_false_r.
  assert (Hp : prefix_bits (itoa_small (pfx_bits p)) = Some (pfx_bits p)).
  { pose proof (Z_forallb_bounded (λ b, bool_decide (prefix_bits (itoa_small b) = Some b)) 129
      eq_refl _ Hb') as H. by apply bool_decide_eq_true in H. }
  rewrite Hp, (proj2 (Z.ltb_ge _ _)) by lia. by destruct p.
Qed.

Lemma masked_interval k w v x :
  0 ≤ k ≤ w → 0 ≤ v < 2 ^ w → 0 ≤ x < 2 ^ w →
  (Z.land (Z.land v (mask_value k w)) (mask_value k w) =? Z.land x (mask_value k w)) = true ↔
  floor_pow2 (w - k) v ≤ x < floor_pow2 (w - k) v + 2 ^ (w - k).
Proof.
  intros Hk Hv Hx. rewrite (land_mask k w v) by lia.
  pose proof (floor_pow2_nonneg (w - k) v ltac:(lia) ltac:(lia)).
  pose proof (floor_pow2_range (w - k) v ltac:(lia)).
  pose proof (land_mask_interval (w - k) w (floor_pow2 (w - k) v) x) as H'.
  replace (w - (w - k)) with k in H' by lia. apply H'; [lia|lia|lia|]. by apply floor_pow2_idemp; lia.
Qed.

(** [Prefix.Contains] of a masked prefix is membership in its block. *)
Lemma Prefix_Contains_block p x :
  prefix_ok p → Addr_wf x → Addr_IsValid x = true → Addr_Zone x = ""%string →
  Prefix_Contains (Prefix_Masked p) x = true ↔ in_block (prefix_block p) (Addr_BitLen x) (Addr_value x).
Proof.
  intros (Hwf & Hv & _ & Hb) Hx Hxv Hz. destruct p as [[|n|n z] k], x as [|y|y z'];
    unfold Prefix_Contains, Prefix_Masked, prefix_block, in_block in *;
    cbn [pfx_addr pfx_bits Addr_BitLen Addr_value blk_width blk_base blk_hbits Addr_wf Addr_Zone] in *;
    try done; try (split; [done|lia]).
  - rewrite masked_interval by lia. tauto.
  - subst z'. cbn [is_empty andb]. rewrite masked_interval by lia. tauto.
Qed.

Lemma Unmap_facts addr :
  Addr_wf addr → Addr_IsValid addr = true →
  let a := Addr_WithZone (Addr_Unmap addr) "" in
  Addr_wf a ∧ Addr_IsValid a = true ∧ Addr_Zone a = ""%string.
Proof.
  intros Hwf Hv. destruct addr as [|n|n z]; [done|done|]. cbn. destruct (is4In6_value n); cbn; [|done].
  split; [|done]. apply Z.mod_pos_bound. lia.
Qed.

Lemma prefix_ok_masked a k :
  Addr_wf a → Addr_IsValid a = true → Addr_Zone a = ""%string → 0 ≤ k ≤ Addr_BitLen a →
  let p := Prefix_Masked {| pfx_addr := a; pfx_bits := k |} in
  prefix_ok p ∧ in_block (prefix_block p) (Addr_BitLen a) (Addr_value a).
Proof.
  intros Hwf Hv Hz Hk. cbv zeta. unfold Prefix_Masked, prefix_ok, prefix_block, in_block.
  destruct a as [|n|n z]; [done| |];
    cbn [pfx_addr pfx_bits Addr_BitLen Addr_value Addr_wf blk_width blk_base blk_hbits Addr_Zone Addr_IsValid] in *;
    rewrite land_mask, floor_pow2_idemp by lia;
    [pose proof (floor_pow2_range (32 - k) n ltac:(lia)); pose proof (floor_pow2_nonneg (32 - k) n ltac:(lia) ltac:(lia))
    |pose proof (floor_pow2_range (128 - k) n ltac:(lia)); pose proof (floor_pow2_nonneg (128 - k) n ltac:(lia) ltac:(lia))];
    split_and!; done || lia.
Qed.

(** The prefix length [AutoPrefix] settles on. *)
Definition auto_bits (a : Addr) (bits : Z) : Z :=
  if Addr_Is4 a then if (bits <? 8) || (32 <? bits) then 32 else bits
  else if (bits <? 16) || (128 <=? bits) then 64 else bits.

Lemma AutoPrefix_eq addr bits :
  Addr_wf addr → Addr_IsValid addr = true →
  let a := Addr_WithZone (Addr_Unmap addr) "" in
  AutoPrefix addr bits = Prefix_Masked {| pfx_addr := a; pfx_bits := auto_bits a bits |} ∧
  0 ≤ auto_bits a bits ≤ Addr_BitLen a.
Proof.
  intros Hwf Hv. cbv zeta. pose proof (Unmap_facts addr Hwf Hv) as (Hw & Hva & Hz). cbv zeta in *.
  set (a := Addr_WithZone (Addr_Unmap addr) "") in *.
  assert (Hidem : Addr_WithZone (Addr_Unmap a) "" = a).
  { unfold a. destruct addr as [|n|n z]; [done|done|]. cbn. destruct (is4In6_value n) eqn:E; [done|]. cbn. by rewrite E. }
  assert (Hb : 0 ≤ auto_bits a bits ≤ Addr_BitLen a).
  { unfold auto_bits. destruct a as [|n|n z]; [done| |]; cbn.
    - destruct (_ || _) eqn:E; bool_hyps; lia.
    - destruct (_ || _) eqn:E; bool_hyps; lia. }
  split; [|done]. unfold AutoPrefix. fold a. fold (auto_bits a bits). unfold NetworkOf. rewrite Hidem, Hva.
  rewrite (proj2 (Z.ltb_ge _ 0)), (proj2 (Z.ltb_ge _ _)) by lia. done.
Qed.

(** The subnet the host sync creates for an address no subnet contains does
    contain it: its text parses, its block holds the address, an IPv4 network
    is never shorter than /8 and an IPv6 one never a host route, and placement
    over any set of subnets including it succeeds. *)
Theorem AutoPrefix_places addr bits id cands :
  Addr_wf addr → Addr_IsValid addr = true →
  let a := Addr_WithZone (Addr_Unmap addr) "" in
  let p := AutoPrefix addr bits in
  ParsePrefix (Prefix_String p) = Some p ∧
  in_block (prefix_block p) (Addr_BitLen a) (Addr_value a) ∧
  (if Addr_Is4 a then 8 ≤ pfx_bits p ≤ 32 else 16 ≤ pfx_bits p < 128) ∧
  ({| cand_ID := id; cand_CIDR := Prefix_String p |} ∈ cands → snd (MostSpecific cands addr) = true).
Proof.
  intros Hwf Hv. cbv zeta. pose proof (AutoPrefix_eq addr bits Hwf Hv) as [-> Hb].
  pose proof (Unmap_facts addr Hwf Hv) as (Hw & Hva & Hz). cbv zeta in *.
  pose proof (MostSpecific_inv addr cands) as [k Hinv]. cbv zeta in Hinv.
  set (a := Addr_WithZone (Addr_Unmap addr) "") in *.
  destruct (prefix_ok_masked a (auto_bits a bits) Hw Hva Hz Hb) as [Hok Hin].
  set (p := Prefix_Masked _) in *. pose proof (ParsePrefix_String p Hok) as Hpp.
  split_and!; [done|done| |].
  - unfold p, auto_bits. cbn [pfx_bits Prefix_Masked].
    destruct (Addr_Is4 a); destruct (_ || _) eqn:E; bool_hyps; lia.
  - intros Hc. destruct (snd (MostSpecific cands addr)) eqn:Ef; [done|].
    destruct Hinv as (_ & _ & Hn). specialize (Hn _ Hc).
    unfold covering_bits in Hn. cbn [cand_CIDR] in Hn. rewrite Hpp in Hn.
    assert (Hcon : Prefix_Contains (Prefix_Masked p) a = true) by (by apply Prefix_Contains_block).
    rewrite Hcon in Hn. done.
Qed.

Lemma AutoPrefix_places_witness :
  AutoPrefix (Addr4 167772165) 24 = {| pfx_addr := Addr4 167772160; pfx_bits := 24 |} ∧
  snd (MostSpecific [{| cand_ID := "s"; cand_CIDR := Prefix_String (AutoPrefix (Addr4 167772165) 24) |}]
         (Addr4 167772165)) = true.
Proof.
  split; [vm_compute; reflexivity|].
  apply (AutoPrefix_places (Addr4 167772165) 24 "s"); [vm_compute; split; congruence|reflexivity|by left].
Defined.
