(* ===== verification/Models.v ===== *)
(** * internal/store/models.go: the domain types

    One [Record] per struct, with the struct's fields under a per-type prefix,
    and its Go zero value.  Integers are [Z], [time.Time] is a number of
    nanoseconds since Go's zero time, pointers are [option], a
    [map[string]string] is an optional [gmap] ([None] is the nil map), the
    other maps, whose nil the code never tests, are [gmap]s, float64 is
    [spec_float]. *)

From Stdlib Require Import SpecFloat.
From stdpp Require Import strings gmap.
From S2P Require Import Prelude.

(** ** Time *)

Definition Time : Type := Z.
Definition time_zero : Time := 0.
Definition IsZero (t : Time) : bool := t =? time_zero.

(** ** Values of [map[string]any]: audit detail *)

Inductive any : Type :=
| AnyNil
| AnyString (s : string)
| AnyInt (n : Z)
| AnyBool (b : bool)
| AnyTime (t : Time)
| AnyList (l : list any)
| AnyMap (m : list (string * any)).

(** ** Enumerations (stored as text) *)

Definition SubnetActive : string := "active".
Definition SubnetReserved : string := "reserved".
Definition SubnetDeprecated : string := "deprecated".
Definition SubnetDeleted : string := "deleted".
Definition IPActive : string := "active".
Definition IPReserved : string := "reserved".
Definition IPDHCP : string := "dhcp".
Definition IPDeprecated : string := "deprecated".
Definition IPOffline : string := "offline".
Definition AddrHost : string := "host".
Definition AddrGateway : string := "gateway".
Definition AddrBroadcast : string := "broadcast".
Definition AddrNetwork : string := "network".
Definition AddrVirtual : string := "virtual".
Definition AddrAnycast : string := "anycast".
Definition DevServer : string := "server".
Definition DevVM : string := "vm".
Definition DevRouter : string := "router".
Definition DevSwitch : string := "switch".
Definition DevFirewall : string := "firewall".
Definition DevLoadBalancer : string := "load_balancer".
Definition DevAccessPoint : string := "access_point".
Definition DevStorage : string := "storage".
Definition DevPrinter : string := "printer".
Definition DevPhone : string := "phone".
Definition DevWorkstation : string := "workstation".
Definition DevContainer : string := "container".
Definition DevOther : string := "other".
Definition DevStActive : string := "active".
Definition DevStPlanned : string := "planned".
Definition DevStStaged : string := "staged".
Definition DevStDecommissioned : string := "decommissioned".
Definition DevStOffline : string := "offline".
Definition DevStFailed : string := "failed".
Definition DevStAvailable : string := "available".
Definition VlanActive : string := "active".
Definition VlanReserved : string := "reserved".
Definition VlanDeprecated : string := "deprecated".
Definition LocRegion : string := "region".
Definition LocCountry : string := "country".
Definition LocCity : string := "city".
Definition LocDatacenter : string := "datacenter".
Definition LocBuilding : string := "building".
Definition LocFloor : string := "floor".
Definition LocRoom : string := "room".
Definition LocRack : string := "rack".
Definition LocSite : string := "site".
Definition LocBranch : string := "branch".
Definition LocStActive : string := "active".
Definition LocStPlanned : string := "planned".
Definition LocStDecommissioned : string := "decommissioned".
Definition MemberAddress : string := "address".
Definition MemberRange : string := "range".
Definition MemberSubnet : string := "subnet".
Definition GroupActive : string := "active".
Definition GroupInactive : string := "inactive".
Definition ScanPending : string := "pending".
Definition ScanScanning : string := "scanning".
Definition ScanCompleted : string := "completed".
Definition ScanFailed : string := "failed".
Definition ScanCancelled : string := "cancelled".
Definition TriggerAuto : string := "auto".
Definition TriggerManual : string := "manual".
Definition LinkSNMPFDB : string := "snmp_fdb".
Definition LinkLLDP : string := "lldp".
Definition LinkManual : string := "manual".
Definition PowerOn : string := "on".
Definition PowerOff : string := "off".
Definition PowerCycle : string := "cycle".
Definition PowerReset : string := "reset".
Definition PowerSoft : string := "soft".
Definition PowerDiag : string := "diag".
Definition SrcManual : string := "manual".
Definition SrcScan : string := "scan".
Definition SrcHostReport : string := "host_report".
Definition RepReported : string := "reported".
Definition RepNotReported : string := "not_reported".
Definition UpdUnknown : string := "unknown".
Definition UpdUpToDate : string := "up_to_date".
Definition UpdAvailable : string := "updates_available".
Definition UpdUnsupported : string := "unsupported".
Definition UpdError : string := "error".
Definition OriginManual : string := "manual".
Definition OriginHostSync : string := "host_sync".
Definition DevInterfaceKindManagement : string := "management".
Definition HostSyncOK : string := "ok".
Definition HostSyncDegraded : string := "degraded".
Definition HostSyncDisabled : string := "disabled".
Definition GuestVM : string := "vm".
Definition GuestContainer : string := "container".
Definition SNMPStateNone : string := "none".
Definition SNMPStateOwn : string := "own".
Definition SNMPStateInherited : string := "inherited".
Definition SNMPNotRequested : string := "not_requested".
Definition SNMPNoLiveHosts : string := "no_live_hosts".
Definition SNMPNoCredentials : string := "no_credentials".
Definition SNMPUnreadable : string := "credentials_unreadable".
Definition SNMPRan : string := "ran".
Definition HostKindInterface : string := "interface".
Definition HostKindAddress : string := "address".
Definition MACSourceManual : string := "manual".
Definition MACSourceAgent : string := "agent".
Definition MACSourceARP : string := "arp".
Definition OriginARP : string := "arp".
Definition ARPFill : string := "fill".
Definition ARPUpdate : string := "update".
Definition ARPConflict : string := "conflict".
Definition ARPClearConflict : string := "clear_conflict".
Definition ARPCreate : string := "create".
Definition ARPTouch : string := "touch".
Definition ARPIgnoredInvalid : string := "invalid".
Definition ARPIgnoredMulticast : string := "multicast".
Definition ARPIgnoredVirtualRouter : string := "virtual_router".
Definition ARPIgnoredNetworkDevice : string := "network_device".
Definition ARPIgnoredProxy : string := "proxy_arp".
Definition ARPIgnoredOutside : string := "outside_subnets".
Definition ARPIgnoredExcluded : string := "excluded_device".
Definition ARPRan : string := "ran".
Definition ARPDisabled : string := "disabled".
Definition ARPFailed : string := "failed".
Definition ARPDefaultProxyThreshold : Z := 8.
Definition ARPMinProxyThreshold : Z := 2.
Definition ARPMaxProxyThreshold : Z := 256.
Definition ARPMaxExcludedDevices : Z := 256.

(** ** Records *)

Record SNMPSummary : Type := {
  sm_State : string;
  sm_Version : Z;
  sm_SecurityLevel : string;
  sm_Weak : bool;
  sm_SourceSubnetID : string;
  sm_SourceName : string;
  sm_SourceCIDR : string
}.

Definition zero_SNMPSummary : SNMPSummary :=
  {| sm_State := ""; sm_Version := 0; sm_SecurityLevel := ""; sm_Weak := false;
     sm_SourceSubnetID := ""; sm_SourceName := ""; sm_SourceCIDR := "" |}.

Record Subnet : Type := {
  sn_ID : string;
  sn_TenantID : string;
  sn_Name : string;
  sn_CIDR : string;
  sn_Description : string;
  sn_Gateway : string;
  sn_DNSServers : string;
  sn_VlanID : string;
  sn_ParentID : string;
  sn_LocationID : string;
  sn_Status : string;
  sn_IPVersion : Z;
  sn_NetworkAddress : string;
  sn_BroadcastAddr : string;
  sn_Mask : string;
  sn_PrefixLength : Z;
  sn_SNMPSecretRef : string;
  sn_SNMPVersion : Z;
  sn_Tags : option (gmap string string);
  sn_CreatedBy : string;
  sn_CreatedAt : Time;
  sn_UpdatedAt : Time;
  sn_Origin : string;
  sn_TotalAddresses : Z;
  sn_UsedAddresses : Z;
  sn_AvailableAddresses : Z;
  sn_Utilization : spec_float;
  sn_SNMP : option SNMPSummary
}.

Definition zero_Subnet : Subnet :=
  {| sn_ID := ""; sn_TenantID := ""; sn_Name := ""; sn_CIDR := ""; sn_Description := "";
     sn_Gateway := ""; sn_DNSServers := ""; sn_VlanID := ""; sn_ParentID := "";
     sn_LocationID := ""; sn_Status := ""; sn_IPVersion := 0; sn_NetworkAddress := "";
     sn_BroadcastAddr := ""; sn_Mask := ""; sn_PrefixLength := 0; sn_SNMPSecretRef := "";
     sn_SNMPVersion := 0; sn_Tags := None; sn_CreatedBy := ""; sn_CreatedAt := time_zero;
     sn_UpdatedAt := time_zero; sn_Origin := ""; sn_TotalAddresses := 0; sn_UsedAddresses := 0;
     sn_AvailableAddresses := 0; sn_Utilization := (S754_zero false); sn_SNMP := None |}.

Record SubnetSNMP : Type := {
  ss_TenantID : string;
  ss_SubnetID : string;
  ss_Version : Z;
  ss_SecurityLevel : string;
  ss_AuthProtocol : string;
  ss_PrivProtocol : string;
  ss_Sealed : string;
  ss_UpdatedBy : string;
  ss_UpdatedAt : Time
}.

Definition zero_SubnetSNMP : SubnetSNMP :=
  {| ss_TenantID := ""; ss_SubnetID := ""; ss_Version := 0; ss_SecurityLevel := "";
     ss_AuthProtocol := ""; ss_PrivProtocol := ""; ss_Sealed := ""; ss_UpdatedBy := "";
     ss_UpdatedAt := time_zero |}.

Record AddressLink : Type := {
  al_SwitchID : string;
  al_SwitchName : string;
  al_PortID : string;
  al_PortName : string;
  al_VLAN : Z;
  al_Source : string;
  al_LastSeen : option Time
}.

Definition zero_AddressLink : AddressLink :=
  {| al_SwitchID := ""; al_SwitchName := ""; al_PortID := ""; al_PortName := ""; al_VLAN := 0;
     al_Source := ""; al_LastSeen := None |}.

Record HostSwitchLink : Type := {
  hl_SwitchID : string;
  hl_SwitchName : string;
  hl_PortID : string;
  hl_PortName : string;
  hl_VLAN : Z;
  hl_Source : string;
  hl_LastSeen : option Time;
  hl_Primary : bool
}.

Definition zero_HostSwitchLink : HostSwitchLink :=
  {| hl_SwitchID := ""; hl_SwitchName := ""; hl_PortID := ""; hl_PortName := ""; hl_VLAN := 0;
     hl_Source := ""; hl_LastSeen := None; hl_Primary := false |}.

Record IPAddress : Type := {
  ad_ID : string;
  ad_TenantID : string;
  ad_Address : string;
  ad_SubnetID : string;
  ad_Hostname : string;
  ad_MACAddress : string;
  ad_Description : string;
  ad_DeviceID : string;
  ad_InterfaceName : string;
  ad_Status : string;
  ad_AddressType : string;
  ad_IsPrimary : bool;
  ad_PTRRecord : string;
  ad_DNSName : string;
  ad_Owner : string;
  ad_LastSeen : option Time;
  ad_LeaseExpiry : option Time;
  ad_HasReverseDNS : bool;
  ad_Note : string;
  ad_Tags : option (gmap string string);
  ad_CreatedBy : string;
  ad_CreatedAt : Time;
  ad_UpdatedAt : Time;
  ad_ReportState : string;
  ad_PreviousDeviceID : string;
  ad_MovedAt : option Time;
  ad_MoveCount : Z;
  ad_MoveWindowStart : option Time;
  ad_Conflict : bool;
  ad_MACSource : string;
  ad_MACSourceDeviceID : string;
  ad_MACSeenAt : option Time;
  ad_MACConflict : string;
  ad_Origin : string;
  ad_Link : option AddressLink;
  ad_Links : list HostSwitchLink
}.

Definition zero_IPAddress : IPAddress :=
  {| ad_ID := ""; ad_TenantID := ""; ad_Address := ""; ad_SubnetID := ""; ad_Hostname := "";
     ad_MACAddress := ""; ad_Description := ""; ad_DeviceID := ""; ad_InterfaceName := "";
     ad_Status := ""; ad_AddressType := ""; ad_IsPrimary := false; ad_PTRRecord := "";
     ad_DNSName := ""; ad_Owner := ""; ad_LastSeen := None; ad_LeaseExpiry := None;
     ad_HasReverseDNS := false; ad_Note := ""; ad_Tags := None; ad_CreatedBy := "";
     ad_CreatedAt := time_zero; ad_UpdatedAt := time_zero; ad_ReportState := "";
     ad_PreviousDeviceID := ""; ad_MovedAt := None; ad_MoveCount := 0; ad_MoveWindowStart := None;
     ad_Conflict := false; ad_MACSource := ""; ad_MACSourceDeviceID := ""; ad_MACSeenAt := None;
     ad_MACConflict := ""; ad_Origin := ""; ad_Link := None; ad_Links := [] |}.

Record BehindAddress : Type := {
  ba_AddressID : string;
  ba_Address : string;
  ba_Hostname : string
}.

Definition zero_BehindAddress : BehindAddress :=
  {| ba_AddressID := ""; ba_Address := ""; ba_Hostname := "" |}.

Record ARPSettings : Type := {
  as_TenantID : string;
  as_Enabled : bool;
  as_ExcludedDevices : list string;
  as_ProxyThreshold : Z;
  as_UpdatedBy : string;
  as_UpdatedAt : Time
}.

Definition zero_ARPSettings : ARPSettings :=
  {| as_TenantID := ""; as_Enabled := false; as_ExcludedDevices := []; as_ProxyThreshold := 0;
     as_UpdatedBy := ""; as_UpdatedAt := time_zero |}.

Record AuditRow : Type := {
  ar_ID : string;
  ar_TenantID : string;
  ar_At : Time;
  ar_ActorKind : string;
  ar_ActorID : string;
  ar_Action : string;
  ar_SubjectKind : string;
  ar_SubjectID : string;
  ar_Target : string;
  ar_Outcome : string;
  ar_Reason : string;
  ar_Detail : gmap string any
}.

Definition zero_AuditRow : AuditRow :=
  {| ar_ID := ""; ar_TenantID := ""; ar_At := time_zero; ar_ActorKind := ""; ar_ActorID := "";
     ar_Action := ""; ar_SubjectKind := ""; ar_SubjectID := ""; ar_Target := ""; ar_Outcome := "";
     ar_Reason := ""; ar_Detail := ∅ |}.

Record ARPOp : Type := {
  ao_Kind : string;
  ao_AddressID : string;
  ao_Address : string;
  ao_SubnetID : string;
  ao_MAC : string;
  ao_SourceDeviceID : string;
  ao_At : Time;
  ao_Audit : list AuditRow
}.

Definition zero_ARPOp : ARPOp :=
  {| ao_Kind := ""; ao_AddressID := ""; ao_Address := ""; ao_SubnetID := ""; ao_MAC := "";
     ao_SourceDeviceID := ""; ao_At := time_zero; ao_Audit := [] |}.

Record HardwareSummary : Type := {
  hws_CPUModel : string;
  hws_CPUSockets : Z;
  hws_CPUCores : Z;
  hws_CPUThreads : Z;
  hws_MemoryTotalBytes : Z;
  hws_MemoryType : string;
  hws_MemorySlotsTotal : Z;
  hws_MemorySlotsUsed : Z;
  hws_DiskCount : Z;
  hws_DiskTotalBytes : Z;
  hws_ReportedAt : Time
}.

Definition zero_HardwareSummary : HardwareSummary :=
  {| hws_CPUModel := ""; hws_CPUSockets := 0; hws_CPUCores := 0; hws_CPUThreads := 0;
     hws_MemoryTotalBytes := 0; hws_MemoryType := ""; hws_MemorySlotsTotal := 0;
     hws_MemorySlotsUsed := 0; hws_DiskCount := 0; hws_DiskTotalBytes := 0;
     hws_ReportedAt := time_zero |}.

Record Device : Type := {
  dv_ID : string;
  dv_TenantID : string;
  dv_Name : string;
  dv_DeviceType : string;
  dv_Description : string;
  dv_Manufacturer : string;
  dv_Model : string;
  dv_SerialNumber : string;
  dv_AssetTag : string;
  dv_LocationID : string;
  dv_RackID : string;
  dv_RackPosition : Z;
  dv_DeviceHeightU : Z;
  dv_Status : string;
  dv_PrimaryIP : string;
  dv_PrimaryIPv6 : string;
  dv_ManagementIP : string;
  dv_OSType : string;
  dv_OSVersion : string;
  dv_FirmwareVersion : string;
  dv_Contact : string;
  dv_LastSeen : option Time;
  dv_IPMISecretRef : string;
  dv_RebootRequired : bool;
  dv_UnattendedUpgrades : bool;
  dv_Tags : option (gmap string string);
  dv_CreatedBy : string;
  dv_CreatedAt : Time;
  dv_UpdatedAt : Time;
  dv_Source : string;
  dv_InventoryHostID : string;
  dv_VirtualizationKind : string;
  dv_HypervisorDeviceID : string;
  dv_UpdateStatus : string;
  dv_ReportState : string;
  dv_LastReportAt : option Time;
  dv_ReportDigest : string;
  dv_HardwareSummary : option HardwareSummary;
  dv_GuestCount : Z;
  dv_InterfaceCount : Z;
  dv_AddressCount : Z;
  dv_PackageUpdateCount : Z;
  dv_SecurityUpdateCount : Z
}.

Definition zero_Device : Device :=
  {| dv_ID := ""; dv_TenantID := ""; dv_Name := ""; dv_DeviceType := ""; dv_Description := "";
     dv_Manufacturer := ""; dv_Model := ""; dv_SerialNumber := ""; dv_AssetTag := "";
     dv_LocationID := ""; dv_RackID := ""; dv_RackPosition := 0; dv_DeviceHeightU := 0;
     dv_Status := ""; dv_PrimaryIP := ""; dv_PrimaryIPv6 := ""; dv_ManagementIP := "";
     dv_OSType := ""; dv_OSVersion := ""; dv_FirmwareVersion := ""; dv_Contact := "";
     dv_LastSeen := None; dv_IPMISecretRef := ""; dv_RebootRequired := false;
     dv_UnattendedUpgrades := false; dv_Tags := None; dv_CreatedBy := "";
     dv_CreatedAt := time_zero; dv_UpdatedAt := time_zero; dv_Source := "";
     dv_InventoryHostID := ""; dv_VirtualizationKind := ""; dv_HypervisorDeviceID := "";
     dv_UpdateStatus := ""; dv_ReportState := ""; dv_LastReportAt := None; dv_ReportDigest := "";
     dv_HardwareSummary := None; dv_GuestCount := 0; dv_InterfaceCount := 0; dv_AddressCount := 0;
     dv_PackageUpdateCount := 0; dv_SecurityUpdateCount := 0 |}.

Record DeviceInterface : Type := {
  di_ID : string;
  di_TenantID : string;
  di_DeviceID : string;
  di_Name : string;
  di_MACAddress : string;
  di_InterfaceType : string;
  di_Enabled : bool;
  di_SpeedMbps : Z;
  di_Description : string;
  di_IfIndex : Z;
  di_RemoteDeviceID : string;
  di_RemoteInterfaceID : string;
  di_RemotePortName : string;
  di_LinkSource : string;
  di_LinkVlan : Z;
  di_LinkLastSeen : option Time;
  di_CreatedAt : Time;
  di_UpdatedAt : Time;
  di_ReportState : string;
  di_RemoteDeviceName : string;
  di_BehindDeviceID : string;
  di_BehindDeviceName : string;
  di_BehindAddresses : list BehindAddress;
  di_Links : list HostSwitchLink
}.

Definition zero_DeviceInterface : DeviceInterface :=
  {| di_ID := ""; di_TenantID := ""; di_DeviceID := ""; di_Name := ""; di_MACAddress := "";
     di_InterfaceType := ""; di_Enabled := false; di_SpeedMbps := 0; di_Description := "";
     di_IfIndex := 0; di_RemoteDeviceID := ""; di_RemoteInterfaceID := "";
     di_RemotePortName := ""; di_LinkSource := ""; di_LinkVlan := 0; di_LinkLastSeen := None;
     di_CreatedAt := time_zero; di_UpdatedAt := time_zero; di_ReportState := "";
     di_RemoteDeviceName := ""; di_BehindDeviceID := ""; di_BehindDeviceName := "";
     di_BehindAddresses := []; di_Links := [] |}.

Record DeviceInterfaceLink : Type := {
  dl_ID : string;
  dl_TenantID : string;
  dl_InterfaceID : string;
  dl_RemoteDeviceID : string;
  dl_RemoteInterfaceID : string;
  dl_RemotePortName : string;
  dl_LinkSource : string;
  dl_LinkVlan : Z;
  dl_LinkLastSeen : option Time
}.

Definition zero_DeviceInterfaceLink : DeviceInterfaceLink :=
  {| dl_ID := ""; dl_TenantID := ""; dl_InterfaceID := ""; dl_RemoteDeviceID := "";
     dl_RemoteInterfaceID := ""; dl_RemotePortName := ""; dl_LinkSource := ""; dl_LinkVlan := 0;
     dl_LinkLastSeen := None |}.

Record DevicePackage : Type := {
  dp_ID : string;
  dp_TenantID : string;
  dp_DeviceID : string;
  dp_Name : string;
  dp_CurrentVersion : string;
  dp_AvailableVersion : string;
  dp_NeedsUpdate : bool;
  dp_IsSecurityUpdate : bool;
  dp_PackageManager : string;
  dp_Description : string;
  dp_CreatedAt : Time;
  dp_UpdatedAt : Time
}.

Definition zero_DevicePackage : DevicePackage :=
  {| dp_ID := ""; dp_TenantID := ""; dp_DeviceID := ""; dp_Name := ""; dp_CurrentVersion := "";
     dp_AvailableVersion := ""; dp_NeedsUpdate := false; dp_IsSecurityUpdate := false;
     dp_PackageManager := ""; dp_Description := ""; dp_CreatedAt := time_zero;
     dp_UpdatedAt := time_zero |}.

Record HypervisorGuest : Type := {
  hg_ID : string;
  hg_TenantID : string;
  hg_HostDeviceID : string;
  hg_GuestRef : string;
  hg_Name : string;
  hg_Kind : string;
  hg_Platform : string;
  hg_MACs : list string;
  hg_GuestDeviceID : string;
  hg_GuestDeviceName : string;
  hg_LastReportedAt : Time
}.

Definition zero_HypervisorGuest : HypervisorGuest :=
  {| hg_ID := ""; hg_TenantID := ""; hg_HostDeviceID := ""; hg_GuestRef := ""; hg_Name := "";
     hg_Kind := ""; hg_Platform := ""; hg_MACs := []; hg_GuestDeviceID := "";
     hg_GuestDeviceName := ""; hg_LastReportedAt := time_zero |}.

Record HostSyncSettings : Type := {
  hss_TenantID : string;
  hss_Enabled : bool;
  hss_FullIntervalMinutes : Z;
  hss_ExcludedInterfaces : list string;
  hss_ChangedSince : option Time;
  hss_LastPollAt : option Time;
  hss_LastReconcileAt : option Time;
  hss_ReconcileRequested : bool;
  hss_Status : string;
  hss_LastError : string;
  hss_HostsReported : Z;
  hss_HostsFailed : Z;
  hss_UpdatedBy : string;
  hss_UpdatedAt : Time
}.

Definition zero_HostSyncSettings : HostSyncSettings :=
  {| hss_TenantID := ""; hss_Enabled := false; hss_FullIntervalMinutes := 0;
     hss_ExcludedInterfaces := []; hss_ChangedSince := None; hss_LastPollAt := None;
     hss_LastReconcileAt := None; hss_ReconcileRequested := false; hss_Status := "";
     hss_LastError := ""; hss_HostsReported := 0; hss_HostsFailed := 0; hss_UpdatedBy := "";
     hss_UpdatedAt := time_zero |}.

Record HostSyncStatus : Type := {
  hst_Status : string;
  hst_LastError : string;
  hst_ChangedSince : option Time;
  hst_LastPollAt : option Time;
  hst_LastReconcileAt : option Time;
  hst_ClearReconcile : bool;
  hst_HostsReported : Z;
  hst_HostsFailed : Z
}.

Definition zero_HostSyncStatus : HostSyncStatus :=
  {| hst_Status := ""; hst_LastError := ""; hst_ChangedSince := None; hst_LastPollAt := None;
     hst_LastReconcileAt := None; hst_ClearReconcile := false; hst_HostsReported := 0;
     hst_HostsFailed := 0 |}.

Record HostSyncIssue : Type := {
  hsi_Field : string;
  hsi_Reason : string;
  hsi_Count : Z
}.

Definition zero_HostSyncIssue : HostSyncIssue :=
  {| hsi_Field := ""; hsi_Reason := ""; hsi_Count := 0 |}.

Record HostSyncDeviceState : Type := {
  hsd_DeviceID : string;
  hsd_TenantID : string;
  hsd_InventoryHostID : string;
  hsd_SnapshotID : string;
  hsd_CollectedAt : option Time;
  hsd_AppliedAt : option Time;
  hsd_Trigger : string;
  hsd_Changes : Z;
  hsd_Issues : list HostSyncIssue
}.

Definition zero_HostSyncDeviceState : HostSyncDeviceState :=
  {| hsd_DeviceID := ""; hsd_TenantID := ""; hsd_InventoryHostID := ""; hsd_SnapshotID := "";
     hsd_CollectedAt := None; hsd_AppliedAt := None; hsd_Trigger := ""; hsd_Changes := 0;
     hsd_Issues := [] |}.

Record Vlan : Type := {
  vl_ID : string;
  vl_TenantID : string;
  vl_VlanID : Z;
  vl_Name : string;
  vl_Description : string;
  vl_Domain : string;
  vl_LocationID : string;
  vl_Status : string;
  vl_Tags : option (gmap string string);
  vl_CreatedBy : string;
  vl_CreatedAt : Time;
  vl_UpdatedAt : Time;
  vl_SubnetCount : Z
}.

Definition zero_Vlan : Vlan :=
  {| vl_ID := ""; vl_TenantID := ""; vl_VlanID := 0; vl_Name := ""; vl_Description := "";
     vl_Domain := ""; vl_LocationID := ""; vl_Status := ""; vl_Tags := None; vl_CreatedBy := "";
     vl_CreatedAt := time_zero; vl_UpdatedAt := time_zero; vl_SubnetCount := 0 |}.

Record Location : Type := {
  lc_ID : string;
  lc_TenantID : string;
  lc_Name : string;
  lc_Code : string;
  lc_LocationType : string;
  lc_Description : string;
  lc_ParentID : string;
  lc_Path : string;
  lc_Address : string;
  lc_City : string;
  lc_State : string;
  lc_Country : string;
  lc_PostalCode : string;
  lc_Latitude : spec_float;
  lc_Longitude : spec_float;
  lc_Contact : string;
  lc_Phone : string;
  lc_Email : string;
  lc_Status : string;
  lc_RackSizeU : Z;
  lc_Tags : option (gmap string string);
  lc_CreatedBy : string;
  lc_CreatedAt : Time;
  lc_UpdatedAt : Time;
  lc_ChildCount : Z;
  lc_DeviceCount : Z;
  lc_SubnetCount : Z;
  lc_VlanCount : Z
}.

Definition zero_Location : Location :=
  {| lc_ID := ""; lc_TenantID := ""; lc_Name := ""; lc_Code := ""; lc_LocationType := "";
     lc_Description := ""; lc_ParentID := ""; lc_Path := ""; lc_Address := ""; lc_City := "";
     lc_State := ""; lc_Country := ""; lc_PostalCode := ""; lc_Latitude := (S754_zero false);
     lc_Longitude := (S754_zero false); lc_Contact := ""; lc_Phone := ""; lc_Email := "";
     lc_Status := ""; lc_RackSizeU := 0; lc_Tags := None; lc_CreatedBy := "";
     lc_CreatedAt := time_zero; lc_UpdatedAt := time_zero; lc_ChildCount := 0;
     lc_DeviceCount := 0; lc_SubnetCount := 0; lc_VlanCount := 0 |}.

Record IPGroup : Type := {
  ig_ID : string;
  ig_TenantID : string;
  ig_Name : string;
  ig_Description : string;
  ig_Status : string;
  ig_Tags : option (gmap string string);
  ig_CreatedBy : string;
  ig_CreatedAt : Time;
  ig_UpdatedAt : Time;
  ig_MemberCount : Z
}.

Definition zero_IPGroup : IPGroup :=
  {| ig_ID := ""; ig_TenantID := ""; ig_Name := ""; ig_Description := ""; ig_Status := "";
     ig_Tags := None; ig_CreatedBy := ""; ig_CreatedAt := time_zero; ig_UpdatedAt := time_zero;
     ig_MemberCount := 0 |}.

Record IPGroupMember : Type := {
  im_ID : string;
  im_TenantID : string;
  im_IPGroupID : string;
  im_MemberType : string;
  im_Value : string;
  im_Description : string;
  im_Sequence : Z
}.

Definition zero_IPGroupMember : IPGroupMember :=
  {| im_ID := ""; im_TenantID := ""; im_IPGroupID := ""; im_MemberType := ""; im_Value := "";
     im_Description := ""; im_Sequence := 0 |}.

Record HostGroup : Type := {
  hgr_ID : string;
  hgr_TenantID : string;
  hgr_Name : string;
  hgr_Description : string;
  hgr_Status : string;
  hgr_Tags : option (gmap string string);
  hgr_CreatedBy : string;
  hgr_CreatedAt : Time;
  hgr_UpdatedAt : Time;
  hgr_MemberCount : Z
}.

Definition zero_HostGroup : HostGroup :=
  {| hgr_ID := ""; hgr_TenantID := ""; hgr_Name := ""; hgr_Description := ""; hgr_Status := "";
     hgr_Tags := None; hgr_CreatedBy := ""; hgr_CreatedAt := time_zero;
     hgr_UpdatedAt := time_zero; hgr_MemberCount := 0 |}.

Record HostGroupMember : Type := {
  hm_ID : string;
  hm_TenantID : string;
  hm_HostGroupID : string;
  hm_DeviceID : string;
  hm_Sequence : Z;
  hm_DeviceName : string;
  hm_DeviceType : string;
  hm_DeviceStatus : string;
  hm_DevicePrimaryIP : string
}.

Definition zero_HostGroupMember : HostGroupMember :=
  {| hm_ID := ""; hm_TenantID := ""; hm_HostGroupID := ""; hm_DeviceID := ""; hm_Sequence := 0;
     hm_DeviceName := ""; hm_DeviceType := ""; hm_DeviceStatus := ""; hm_DevicePrimaryIP := "" |}.

Record IPScanJob : Type := {
  sj_ID : string;
  sj_TenantID : string;
  sj_SubnetID : string;
  sj_Status : string;
  sj_Progress : Z;
  sj_StatusMessage : string;
  sj_TotalAddresses : Z;
  sj_ScannedCount : Z;
  sj_AliveCount : Z;
  sj_NewCount : Z;
  sj_UpdatedCount : Z;
  sj_SNMPDiscoveredCount : Z;
  sj_SNMPStatus : string;
  sj_SNMPSourceSubnetID : string;
  sj_SNMPProbed : Z;
  sj_SNMPNoAnswer : Z;
  sj_SNMPRejected : Z;
  sj_ARPStatus : string;
  sj_ARPDevices : Z;
  sj_ARPPartial : Z;
  sj_ARPEntries : Z;
  sj_ARPApplied : Z;
  sj_ARPCreated : Z;
  sj_ARPConflicts : Z;
  sj_ARPIgnored : gmap string Z;
  sj_TriggeredBy : string;
  sj_RetryCount : Z;
  sj_MaxRetries : Z;
  sj_NextRetryAt : option Time;
  sj_TimeoutMs : Z;
  sj_Concurrency : Z;
  sj_SkipReverseDNS : bool;
  sj_TCPProbePorts : string;
  sj_EnableSNMP : bool;
  sj_EnableDNSUpdate : bool;
  sj_StartedAt : option Time;
  sj_CompletedAt : option Time;
  sj_CreatedBy : string;
  sj_CreatedAt : Time;
  sj_UpdatedAt : Time
}.

Definition zero_IPScanJob : IPScanJob :=
  {| sj_ID := ""; sj_TenantID := ""; sj_SubnetID := ""; sj_Status := ""; sj_Progress := 0;
     sj_StatusMessage := ""; sj_TotalAddresses := 0; sj_ScannedCount := 0; sj_AliveCount := 0;
     sj_NewCount := 0; sj_UpdatedCount := 0; sj_SNMPDiscoveredCount := 0; sj_SNMPStatus := "";
     sj_SNMPSourceSubnetID := ""; sj_SNMPProbed := 0; sj_SNMPNoAnswer := 0; sj_SNMPRejected := 0;
     sj_ARPStatus := ""; sj_ARPDevices := 0; sj_ARPPartial := 0; sj_ARPEntries := 0;
     sj_ARPApplied := 0; sj_ARPCreated := 0; sj_ARPConflicts := 0; sj_ARPIgnored := ∅;
     sj_TriggeredBy := ""; sj_RetryCount := 0; sj_MaxRetries := 0; sj_NextRetryAt := None;
     sj_TimeoutMs := 0; sj_Concurrency := 0; sj_SkipReverseDNS := false; sj_TCPProbePorts := "";
     sj_EnableSNMP := false; sj_EnableDNSUpdate := false; sj_StartedAt := None;
     sj_CompletedAt := None; sj_CreatedBy := ""; sj_CreatedAt := time_zero;
     sj_UpdatedAt := time_zero |}.

Record DNSConfig : Type := {
  dc_ID : string;
  dc_TenantID : string;
  dc_DNSServers : list string;
  dc_TimeoutMs : Z;
  dc_UseSystemDNSFallback : bool;
  dc_ReverseDNSEnabled : bool;
  dc_CreatedAt : Time;
  dc_UpdatedAt : Time
}.

Definition zero_DNSConfig : DNSConfig :=
  {| dc_ID := ""; dc_TenantID := ""; dc_DNSServers := []; dc_TimeoutMs := 0;
     dc_UseSystemDNSFallback := false; dc_ReverseDNSEnabled := false; dc_CreatedAt := time_zero;
     dc_UpdatedAt := time_zero |}.

Record SubnetFilter : Type := {
  sf_VlanID : string;
  sf_ParentID : string;
  sf_LocationID : string;
  sf_Status : string;
  sf_IPVersion : Z;
  sf_Query : string;
  sf_Limit : Z;
  sf_CursorID : string
}.

Definition zero_SubnetFilter : SubnetFilter :=
  {| sf_VlanID := ""; sf_ParentID := ""; sf_LocationID := ""; sf_Status := ""; sf_IPVersion := 0;
     sf_Query := ""; sf_Limit := 0; sf_CursorID := "" |}.

Record AddressFilter : Type := {
  af_SubnetID : string;
  af_DeviceID : string;
  af_Status : string;
  af_AddressType : string;
  af_AddressPrefix : string;
  af_HostnamePattern : string;
  af_ReportState : string;
  af_Conflict : option bool;
  af_MAC : string;
  af_Limit : Z;
  af_CursorID : string
}.

Definition zero_AddressFilter : AddressFilter :=
  {| af_SubnetID := ""; af_DeviceID := ""; af_Status := ""; af_AddressType := "";
     af_AddressPrefix := ""; af_HostnamePattern := ""; af_ReportState := ""; af_Conflict := None;
     af_MAC := ""; af_Limit := 0; af_CursorID := "" |}.

Record DeviceFilter : Type := {
  df_DeviceType : string;
  df_Status : string;
  df_LocationID : string;
  df_Manufacturer : string;
  df_RackID : string;
  df_Source : string;
  df_ReportState : string;
  df_Query : string;
  df_HasHardware : string;
  df_Limit : Z;
  df_CursorID : string
}.

Definition zero_DeviceFilter : DeviceFilter :=
  {| df_DeviceType := ""; df_Status := ""; df_LocationID := ""; df_Manufacturer := "";
     df_RackID := ""; df_Source := ""; df_ReportState := ""; df_Query := ""; df_HasHardware := "";
     df_Limit := 0; df_CursorID := "" |}.

Record VlanFilter : Type := {
  vf_LocationID : string;
  vf_Domain : string;
  vf_Status : string;
  vf_VlanIDMin : Z;
  vf_VlanIDMax : Z;
  vf_Limit : Z;
  vf_CursorID : string
}.

Definition zero_VlanFilter : VlanFilter :=
  {| vf_LocationID := ""; vf_Domain := ""; vf_Status := ""; vf_VlanIDMin := 0; vf_VlanIDMax := 0;
     vf_Limit := 0; vf_CursorID := "" |}.

Record LocationFilter : Type := {
  lf_ParentID : string;
  lf_LocationType : string;
  lf_Country : string;
  lf_Status : string;
  lf_Limit : Z;
  lf_CursorID : string
}.

Definition zero_LocationFilter : LocationFilter :=
  {| lf_ParentID := ""; lf_LocationType := ""; lf_Country := ""; lf_Status := ""; lf_Limit := 0;
     lf_CursorID := "" |}.

Record ScanFilter : Type := {
  scf_SubnetID : string;
  scf_Status : string;
  scf_Limit : Z;
  scf_CursorID : string
}.

Definition zero_ScanFilter : ScanFilter :=
  {| scf_SubnetID := ""; scf_Status := ""; scf_Limit := 0; scf_CursorID := "" |}.

Record HardwareBIOS : Type := {
  hb_Vendor : string;
  hb_Version : string;
  hb_ReleaseDate : string
}.

Definition zero_HardwareBIOS : HardwareBIOS :=
  {| hb_Vendor := ""; hb_Version := ""; hb_ReleaseDate := "" |}.

Record HardwareSystem : Type := {
  hsy_Manufacturer : string;
  hsy_Product : string;
  hsy_Version : string;
  hsy_Serial : string;
  hsy_UUID : string;
  hsy_SKU : string;
  hsy_Family : string
}.

Definition zero_HardwareSystem : HardwareSystem :=
  {| hsy_Manufacturer := ""; hsy_Product := ""; hsy_Version := ""; hsy_Serial := "";
     hsy_UUID := ""; hsy_SKU := ""; hsy_Family := "" |}.

Record HardwareBoard : Type := {
  hbd_Manufacturer : string;
  hbd_Product : string;
  hbd_Serial : string
}.

Definition zero_HardwareBoard : HardwareBoard :=
  {| hbd_Manufacturer := ""; hbd_Product := ""; hbd_Serial := "" |}.

Record HardwareChassis : Type := {
  hc_Type : string;
  hc_Manufacturer : string;
  hc_Serial : string;
  hc_AssetTag : string
}.

Definition zero_HardwareChassis : HardwareChassis :=
  {| hc_Type := ""; hc_Manufacturer := ""; hc_Serial := ""; hc_AssetTag := "" |}.

Record HardwareProcessor : Type := {
  hpr_Socket : string;
  hpr_Manufacturer : string;
  hpr_Model : string;
  hpr_Family : string;
  hpr_MaxMHz : Z;
  hpr_CurrentMHz : Z;
  hpr_Cores : Z;
  hpr_Threads : Z;
  hpr_Populated : bool
}.

Definition zero_HardwareProcessor : HardwareProcessor :=
  {| hpr_Socket := ""; hpr_Manufacturer := ""; hpr_Model := ""; hpr_Family := ""; hpr_MaxMHz := 0;
     hpr_CurrentMHz := 0; hpr_Cores := 0; hpr_Threads := 0; hpr_Populated := false |}.

Record HardwareMemorySlot : Type := {
  hms_Locator : string;
  hms_Bank : string;
  hms_Populated : bool;
  hms_SizeBytes : Z;
  hms_Type : string;
  hms_FormFactor : string;
  hms_TypeDetail : list string;
  hms_SpeedMTs : Z;
  hms_ConfiguredMTs : Z;
  hms_Manufacturer : string;
  hms_PartNumber : string;
  hms_Serial : string
}.

Definition zero_HardwareMemorySlot : HardwareMemorySlot :=
  {| hms_Locator := ""; hms_Bank := ""; hms_Populated := false; hms_SizeBytes := 0;
     hms_Type := ""; hms_FormFactor := ""; hms_TypeDetail := []; hms_SpeedMTs := 0;
     hms_ConfiguredMTs := 0; hms_Manufacturer := ""; hms_PartNumber := ""; hms_Serial := "" |}.

Record HardwareMemory : Type := {
  hmm_TotalBytes : Z;
  hmm_ErrorCorrection : string;
  hmm_Location : string;
  hmm_Use : string;
  hmm_MaxCapacityBytes : Z;
  hmm_SlotsTotal : Z;
  hmm_SlotsUsed : Z;
  hmm_Slots : list HardwareMemorySlot
}.

Definition zero_HardwareMemory : HardwareMemory :=
  {| hmm_TotalBytes := 0; hmm_ErrorCorrection := ""; hmm_Location := ""; hmm_Use := "";
     hmm_MaxCapacityBytes := 0; hmm_SlotsTotal := 0; hmm_SlotsUsed := 0; hmm_Slots := [] |}.

Record HardwareDisk : Type := {
  hd_Name : string;
  hd_Model : string;
  hd_Vendor : string;
  hd_Serial : string;
  hd_SizeBytes : Z;
  hd_Media : string;
  hd_Interface : string;
  hd_Removable : bool
}.

Definition zero_HardwareDisk : HardwareDisk :=
  {| hd_Name := ""; hd_Model := ""; hd_Vendor := ""; hd_Serial := ""; hd_SizeBytes := 0;
     hd_Media := ""; hd_Interface := ""; hd_Removable := false |}.

Record HardwareFilesystem : Type := {
  hf_Mount : string;
  hf_FS : string;
  hf_SizeBytes : Z;
  hf_FreeBytes : Z;
  hf_Disks : list string
}.

Definition zero_HardwareFilesystem : HardwareFilesystem :=
  {| hf_Mount := ""; hf_FS := ""; hf_SizeBytes := 0; hf_FreeBytes := 0; hf_Disks := [] |}.

Record HardwareAvailability : Type := {
  ha_SMBIOS : string;
  ha_Disks : string
}.

Definition zero_HardwareAvailability : HardwareAvailability :=
  {| ha_SMBIOS := ""; ha_Disks := "" |}.

Record HardwareProfile : Type := {
  hp_Schema : Z;
  hp_BIOS : HardwareBIOS;
  hp_System : HardwareSystem;
  hp_Board : HardwareBoard;
  hp_Chassis : HardwareChassis;
  hp_Processors : list HardwareProcessor;
  hp_Memory : HardwareMemory;
  hp_Disks : list HardwareDisk;
  hp_Filesystems : list HardwareFilesystem;
  hp_Availability : HardwareAvailability;
  hp_Truncated : gmap string Z
}.

Definition zero_HardwareProfile : HardwareProfile :=
  {| hp_Schema := 0; hp_BIOS := zero_HardwareBIOS; hp_System := zero_HardwareSystem;
     hp_Board := zero_HardwareBoard; hp_Chassis := zero_HardwareChassis; hp_Processors := [];
     hp_Memory := zero_HardwareMemory; hp_Disks := []; hp_Filesystems := [];
     hp_Availability := zero_HardwareAvailability; hp_Truncated := ∅ |}.

Record DeviceHardware : Type := {
  dh_DeviceID : string;
  dh_TenantID : string;
  dh_Profile : HardwareProfile;
  dh_Digest : string;
  dh_Summary : HardwareSummary;
  dh_ReportedAt : Time;
  dh_UpdatedAt : Time
}.

Definition zero_DeviceHardware : DeviceHardware :=
  {| dh_DeviceID := ""; dh_TenantID := ""; dh_Profile := zero_HardwareProfile; dh_Digest := "";
     dh_Summary := zero_HardwareSummary; dh_ReportedAt := time_zero; dh_UpdatedAt := time_zero |}.

(** ** Functions of the package *)

Definition DefaultARPSettings (tenantID : string) : ARPSettings :=
  {| zero_ARPSettings with as_TenantID := tenantID; as_Enabled := true;
     as_ExcludedDevices := []; as_ProxyThreshold := ARPDefaultProxyThreshold |}.

Definition IsNetworkDevice (deviceType : string) : bool :=
  (deviceType =s DevRouter) || (deviceType =s DevSwitch) || (deviceType =s DevFirewall) ||
  (deviceType =s DevLoadBalancer).

Fixpoint MACHex (s : string) : string :=
  match s with
  | EmptyString => EmptyString
  | String c s' =>
      let b := byte_of c in
      if ((48 <=? b) && (b <=? 57)) || ((97 <=? b) && (b <=? 102)) then String c (MACHex s')
      else if (65 <=? b) && (b <=? 70) then String (ascii_of_N (Z.to_N (b + 32))) (MACHex s')
      else MACHex s'
  end.

(** [fill]: the closure of [FillEmptyDevice]. *)
Definition fill (d s : string) : string := if is_empty d && negb (is_empty s) then s else d.

Definition FillEmptyDevice (dst src : Device) : Device :=
  {| dst with
     dv_DeviceType := fill (dv_DeviceType dst) (dv_DeviceType src);
     dv_Manufacturer := fill (dv_Manufacturer dst) (dv_Manufacturer src);
     dv_Model := fill (dv_Model dst) (dv_Model src);
     dv_SerialNumber := fill (dv_SerialNumber dst) (dv_SerialNumber src);
     dv_PrimaryIP := fill (dv_PrimaryIP dst) (dv_PrimaryIP src);
     dv_PrimaryIPv6 := fill (dv_PrimaryIPv6 dst) (dv_PrimaryIPv6 src);
     dv_ManagementIP := fill (dv_ManagementIP dst) (dv_ManagementIP src);
     dv_OSType := fill (dv_OSType dst) (dv_OSType src);
     dv_OSVersion := fill (dv_OSVersion dst) (dv_OSVersion src);
     dv_FirmwareVersion := fill (dv_FirmwareVersion dst) (dv_FirmwareVersion src);
     dv_LastSeen := match dv_LastSeen src with Some t => Some t | None => dv_LastSeen dst end |}.

Definition primary_less (a b : HostSwitchLink) : bool :=
  if negb (Bool.eqb (hl_Primary a) (hl_Primary b)) then hl_Primary a
  else if negb (hl_SwitchName a =s hl_SwitchName b) then str_ltb (hl_SwitchName a) (hl_SwitchName b)
  else str_ltb (hl_SwitchID a) (hl_SwitchID b).

Definition MarkPrimary (links : list HostSwitchLink) (primaryPort : string) : list HostSwitchLink :=
  sort_by primary_less
    ((λ l, {| l with hl_Primary := negb (is_empty primaryPort) && (hl_PortID l =s primaryPort) |})
       <$> links).

(** ** Facts *)

(** A fill never replaces a value. *)
Lemma fill_keeps d s : is_empty d = false → fill d s = d.
Proof. unfold fill. by intros ->. Qed.

Lemma fill_idemp d s : fill (fill d s) s = fill d s.
Proof. unfold fill. destruct (is_empty d) eqn:E, (is_empty s) eqn:E2; cbn; by rewrite ?E, ?E2. Qed.

(** Applying the same discovery twice changes nothing more. *)
Lemma FillEmptyDevice_idemp dst src :
  FillEmptyDevice (FillEmptyDevice dst src) src = FillEmptyDevice dst src.
Proof.
  unfold FillEmptyDevice; cbn. rewrite !fill_idemp. by destruct (dv_LastSeen src).
Qed.

Lemma MarkPrimary_length links p : length (MarkPrimary links p) = length links.
Proof. unfold MarkPrimary. by rewrite length_sort_by, length_fmap. Qed.
