(* ===== verification/GoText.v ===== *)
(** * Texts: UTF-8, path.Match and time stamps

    What the host-report code uses of the Go packages unicode/utf8, path and
    time: decoding runes from bytes, matching a name against a shell pattern
    and printing a UTC time. *)

From S2P Require Import Prelude GoNet Models.

(** ** UTF-8 *)

Definition in_bytes (lo hi : Z) (c : ascii) : bool := (lo <=? byte_of c) && (byte_of c <=? hi).
Definition cont_bits (c : ascii) : Z := byte_of c mod 64.

(** The second-byte bounds of a sequence that starts with [b], and its length. *)
Definition lead_class (b : Z) : option (nat * Z * Z) :=
  if (194 <=? b) && (b <=? 223) then Some (2%nat, 128, 191)
  else if b =? 224 then Some (3%nat, 160, 191)
  else if b =? 237 then Some (3%nat, 128, 159)
  else if (225 <=? b) && (b <=? 239) then Some (3%nat, 128, 191)
  else if b =? 240 then Some (4%nat, 144, 191)
  else if (241 <=? b) && (b <=? 243) then Some (4%nat, 128, 191)
  else if b =? 244 then Some (4%nat, 128, 143)
  else None.

Definition RuneError : Z := 65533.

(** [utf8.DecodeRune] of a non-empty text: the rune when the encoding is
    valid, and the bytes after it (after one byte when it is not). *)
Definition decode_rune (c : ascii) (s : list ascii) : option Z * list ascii :=
  let b := byte_of c in
  if b <? 128 then (Some b, s)
  else match lead_class b with
  | None => (None, s)
  | Some (n, lo, hi) =>
      match n, s with
      | 2%nat, c1 :: s1 => if in_bytes lo hi c1 then (Some (b mod 32 * 64 + cont_bits c1), s1) else (None, s)
      | 3%nat, c1 :: c2 :: s2 =>
          if in_bytes lo hi c1 && in_bytes 128 191 c2
          then (Some (b mod 16 * 4096 + cont_bits c1 * 64 + cont_bits c2), s2) else (None, s)
      | 4%nat, c1 :: c2 :: c3 :: s3 =>
          if in_bytes lo hi c1 && in_bytes 128 191 c2 && in_bytes 128 191 c3
          then (Some (b mod 8 * 262144 + cont_bits c1 * 4096 + cont_bits c2 * 64 + cont_bits c3), s3) else (None, s)
      | _, _ => (None, s)
      end
  end.

(** The runes of a text with the bytes of each; [None] marks an invalid byte. *)
Fixpoint runes_of (fuel : nat) (s : list ascii) : list (option Z * list ascii) :=
  match fuel, s with
  | O, _ | _, [] => []
  | S f, c :: s' =>
      let '(r, rest) := decode_rune c s' in
      (r, take (length s - length rest) s) :: runes_of f rest
  end.
Definition runes (s : string) : list (option Z * list ascii) :=
  let l := String.list_ascii_of_string s in runes_of (length l) l.

(** [utf8.ValidString]. *)
Definition ValidString (s : string) : bool := forallb (λ r, is_some (fst r)) (runes s).

(** [strings.ToValidUTF8(s, "")] followed by [strings.Map] with a mapping that
    drops the runes [drop] selects. *)
Definition keep_runes (drop : Z → bool) (s : string) : string :=
  String.string_of_list_ascii (concat (snd <$>
    List.filter (λ r, match fst r with Some x => negb (drop x) | None => false end) (runes s))).

(** [utf8.RuneStart]. *)
Definition RuneStart (c : ascii) : bool := negb (in_bytes 128 191 c).

(** ** Splitting *)

(** [strings.Split(s, sep)] for a one-byte separator. *)
Fixpoint split_byte (sep : ascii) (s : string) : list string :=
  match s with
  | EmptyString => [""]
  | String c s' =>
      if Ascii.eqb c sep then "" :: split_byte sep s'
      else match split_byte sep s' with x :: l => String c x :: l | [] => [String c ""] end
  end.

Definition join (sep : string) (l : list string) : string :=
  match l with [] => "" | x :: l' => x +:+ String.concat "" ((λ y, sep +:+ y) <$> l') end.

(** [strings.Index]. *)
Fixpoint str_index (s sub : string) : option nat :=
  if String.prefix sub s then Some 0%nat
  else match s with EmptyString => None | String _ s' => S <$> str_index s' sub end.
Definition str_before (n : nat) (s : string) : string := String.substring 0 n s.
Definition str_after (n : nat) (s : string) : string := String.substring n (String.length s - n) s.

(** ** path.Match *)

(** The pattern up to the next unescaped star outside brackets. *)
Fixpoint scan_until_star (inrange : bool) (p : list ascii) : list ascii * list ascii :=
  match p with
  | [] => ([], [])
  | c :: p' =>
      if Ascii.eqb c "\" then
        match p' with
        | [] => ([c], [])
        | d :: p'' => let '(a, b) := scan_until_star inrange p'' in (c :: d :: a, b)
        end
      else if Ascii.eqb c "*" && negb inrange then ([], p)
      else
        let inrange := if Ascii.eqb c "[" then true else if Ascii.eqb c "]" then false else inrange in
        let '(a, b) := scan_until_star inrange p' in (c :: a, b)
  end.

Fixpoint drop_stars (p : list ascii) : list ascii :=
  match p with c :: p' => if Ascii.eqb c "*" then drop_stars p' else p | [] => [] end.

Definition scanChunk (p : list ascii) : bool * list ascii * list ascii :=
  let p1 := drop_stars p in
  let '(chunk, rest) := scan_until_star false p1 in (negb (length p1 =? length p)%nat, chunk, rest).

(** [getEsc]: a possibly escaped rune of a bracket; [None] is a bad pattern. *)
Definition getEsc (chunk : list ascii) : option (Z * list ascii) :=
  let read (l : list ascii) :=
    match l with
    | [] => None
    | c :: l' =>
        let '(r, rest) := decode_rune c l' in
        match r with None => None | Some x => if (length rest =? 0)%nat then None else Some (x, rest) end
    end in
  match chunk with
  | [] => None
  | c :: chunk' =>
      if Ascii.eqb c "-" || Ascii.eqb c "]" then None
      else if Ascii.eqb c "\" then read chunk' else read chunk
  end.

(** The ranges of a bracket: whether one holds [r], and what follows. *)
Fixpoint ranges (fuel : nat) (r : Z) (first matched : bool) (chunk : list ascii) : option (bool * list ascii) :=
  match fuel with
  | O => None
  | S f =>
      match chunk with
      | c :: chunk' =>
          if Ascii.eqb c "]" && negb first then Some (matched, chunk')
          else match getEsc chunk with
          | None => None
          | Some (lo, rest) =>
              match rest with
              | d :: rest' =>
                  if Ascii.eqb d "-" then
                    match getEsc rest' with
                    | None => None
                    | Some (hi, rest'') => ranges f r false (matched || ((lo <=? r) && (r <=? hi))) rest''
                    end
                  else ranges f r false (matched || (lo =? r)) rest
              | [] => None
              end
          end
      | [] => None
      end
  end.

Definition drop_rune (s : list ascii) : Z * list ascii :=
  match s with
  | [] => (RuneError, [])
  | c :: s' => let '(r, rest) := decode_rune c s' in (default RuneError r, rest)
  end.

(** [matchChunk]: [None] is a bad pattern, [Some None] no match, [Some (Some t)]
    a match that leaves [t].  After a mismatch the pattern is still checked. *)
Fixpoint matchChunk (fuel : nat) (failed : bool) (chunk s : list ascii) : option (option (list ascii)) :=
  match fuel with
  | O => None
  | S f =>
      match chunk with
      | [] => Some (if failed then None else Some s)
      | c :: chunk' =>
          let failed := failed || (length s =? 0)%nat in
          if Ascii.eqb c "[" then
            let '(r, s1) := if failed then (0, s) else drop_rune s in
            let '(neg, body) := match chunk' with d :: b => if Ascii.eqb d "^" then (true, b) else (false, chunk') | [] => (false, []) end in
            match ranges (S (length body)) r true false body with
            | None => None
            | Some (m, rest) => matchChunk f (failed || Bool.eqb m neg) rest s1
            end
          else if Ascii.eqb c "?" then
            let failed' := failed || match s with d :: _ => Ascii.eqb d "/" | [] => true end in
            matchChunk f failed' chunk' (if failed then s else snd (drop_rune s))
          else
            let lit := if Ascii.eqb c "\" then match chunk' with [] => None | d :: ch => Some (d, ch) end
                       else Some (c, chunk') in
            match lit with
            | None => None
            | Some (d, ch) =>
                if failed then matchChunk f true ch s
                else match s with
                | x :: s' => matchChunk f (negb (Ascii.eqb x d)) ch s'
                | [] => matchChunk f true ch s
                end
            end
      end
  end.
Definition match_chunk (chunk s : list ascii) : option (option (list ascii)) := matchChunk (S (length chunk)) false chunk s.

(** The loop that skips bytes of the name after a star; [last]: no pattern is left. *)
Fixpoint skip_match (chunk : list ascii) (last : bool) (name : list ascii) : option (option (list ascii)) :=
  match name with
  | [] => Some None
  | c :: name' =>
      if Ascii.eqb c "/" then Some None
      else match match_chunk chunk name' with
      | None => None
      | Some (Some t) => if last && negb (length t =? 0)%nat then skip_match chunk last name' else Some (Some t)
      | Some None => skip_match chunk last name'
      end
  end.

(** The syntax check of what is left of the pattern. *)
Fixpoint check_rest (fuel : nat) (p : list ascii) : bool :=
  match fuel, p with
  | O, _ | _, [] => true
  | S f, _ => let '(_, chunk, rest) := scanChunk p in is_some (match_chunk chunk []) && check_rest f rest
  end.

Fixpoint match_loop (fuel : nat) (p name : list ascii) : option bool :=
  match fuel with
  | O => None
  | S f =>
      match p with
      | [] => Some (length name =? 0)%nat
      | _ =>
          let '(star, chunk, rest) := scanChunk p in
          let last := (length rest =? 0)%nat in
          let no := if check_rest (S (length rest)) rest then Some false else None in
          if star && (length chunk =? 0)%nat then Some (forallb (λ c, negb (Ascii.eqb c "/")) name)
          else match match_chunk chunk name with
          | None => None
          | Some r =>
              let here := match r with Some t => if (length t =? 0)%nat || negb last then Some t else None | None => None end in
              match here with
              | Some t => match_loop f rest t
              | None =>
                  if star then
                    match skip_match chunk last name with
                    | None => None
                    | Some (Some t) => match_loop f rest t
                    | Some None => no
                    end
                  else no
              end
          end
      end
  end.

(** [path.Match]: [None] is [ErrBadPattern].  Every round consumes pattern, so
    the length of the pattern bounds the rounds. *)
Definition path_Match (pattern name : string) : option bool :=
  let p := String.list_ascii_of_string pattern in
  match_loop (S (length p)) p (String.list_ascii_of_string name).

(** ** Times *)

(** The civil date of a day count from 0001-01-01 (proleptic Gregorian): eras
    of 400 years counted from 0000-03-01. *)
Definition civil (days : Z) : Z * Z * Z :=
  let z := days + 306 in
  let era := z / 146097 in
  let doe := z mod 146097 in
  let yoe := (doe - doe / 1460 + doe / 36524 - doe / 146096) / 365 in
  let doy := doe - (365 * yoe + yoe / 4 - yoe / 100) in
  let mp := (5 * doy + 2) / 153 in
  let d := doy - (153 * mp + 2) / 5 + 1 in
  let m := if mp <? 10 then mp + 3 else mp - 9 in
  (yoe + era * 400 + (if m <=? 2 then 1 else 0), m, d).

Definition two_digits (n : Z) : string := digit_str (n / 10 mod 10) +:+ digit_str (n mod 10).
Definition four_digits (n : Z) : string := two_digits (n / 100) +:+ two_digits (n mod 100).

(** [t.UTC().Format("2006-01-02T15:04:05Z07:00")] for years below 10000. *)
Definition format_utc (t : Time) : string :=
  let secs := t / 1000000000 in
  let '(y, m, d) := civil (secs / 86400) in
  let s := secs mod 86400 in
  four_digits y +:+ "-" +:+ two_digits m +:+ "-" +:+ two_digits d +:+ "T" +:+
  two_digits (s / 3600) +:+ ":" +:+ two_digits (s / 60 mod 60) +:+ ":" +:+ two_digits (s mod 60) +:+ "Z".

Example format_epoch : format_utc (62135596800 * 1000000000) = "1970-01-01T00:00:00Z".
Proof. vm_compute. reflexivity. Qed.
Example format_leap : format_utc ((62135596800 + 1709211599) * 1000000000) = "2024-02-29T12:59:59Z".
Proof. vm_compute. reflexivity. Qed.
Example match_prefix : path_Match "br-*" "br-0a1b" = Some true ∧ path_Match "br-*" "bridge" = Some false.
Proof. split; vm_compute; reflexivity. Qed.
Example match_class : path_Match "eth[0-3]?" "eth2x" = Some true ∧ path_Match "eth[" "eth2" = None.
Proof. split; vm_compute; reflexivity. Qed.
