(* ===== verification/Store.v ===== *)
(** * The store's state, its errors and the effect monad

    [Mem] is the in-memory repo.Store (internal/memstore): one finite map per
    table.  [World] adds the sources of identifiers and time the code draws
    from and the events it published; [M] is the state-and-error monad every
    store method and service handler is written in.  A store method holds the
    store's mutex for its whole body, so one method is one atomic action.

    The second half is the library of the development for such tables:
    searching, counting, rewriting and deleting rows, and the two invariants
    of a table, rows stored under their own id and unique keys. *)

From stdpp Require Export strings gmap.
From S2P Require Export Prelude Ipnet Models.

(** ** Errors *)

(** Go's [error] values of the modelled packages.  [ValidationError] keeps the
    package, the format and its arguments instead of the rendered text;
    [LoopFuel] is not a Go error, it marks exhausted fuel of a loop. *)
Inductive error : Type :=
| ErrNotFound
| ErrConflict
| ErrNotEmpty
| ErrSyncDisabled
| injectedErr (method : string)
| ErrForbidden (why : string)
| Addresses_ErrNotFound
| Addresses_ErrNoAvailable
| Addresses_ErrConflict
| Subnets_ErrNotFound
| Subnets_ErrNotEmpty
| Probe_error (what : string)
| Snmpcred_FieldError (field msg : string)
| Snmpcred_ErrNoEnvelope
| Snmpcred_ErrUnreadable
| Sealed_ErrTooLarge
| Sealed_ErrTampered
| Scan_ErrTooLarge
| Scan_ErrIPv6
| Scan_ErrActiveScan
| Scan_ErrTerminal
| Seal_error (what : string)
| Devices_ErrNotFound
| Devices_ErrConflict
| Devices_ErrNotEmpty
| Devices_FieldError (field msg : string)
| Arpcfg_FieldError (field msg : string)
| Audit_error (what : string)
| Dns_ParseError (text : string)
| Lookup_error (what : string)
| ValidationError (pkg fmt : string) (args : list any)
| ErrIpnet (e : ipnet_error)
| Hostreport_ErrTenant
| Hostreport_ErrHostID
| Invclient_ErrNotFound
| Invclient_Error (code : string)
| Hostsync_ErrNotHostReported
| Hostsync_ErrValidation (what : string)
| Bmc_ErrNotConfigured
| Bmc_ErrNoAddress
| Bmc_ErrInvalidReference
| Warden_ErrEmptyRef
| Warden_ErrNotFound
| Warden_ErrForbidden
| Warden_ErrUnavailable
| Ipmi_ErrUnknownAction
| Ipmi_ErrUnreachable
| Ipmi_ErrAuthFailed
| Ipmi_error (what : string)
| Kvm_ErrUnreachable
| Kvm_ErrAuthFailed
| Kvm_ErrTwoFactor
| Kvm_ErrSessionLimit
| Kvm_ErrLogin
| Backup_ErrBadSchema (version : Z)
| Http_ErrUnauthenticated
| Http_ErrMalformed
| Http_ErrBodyTooLarge
| Wrapped (context : string) (e : error)
| Ctx_Canceled
| LoopFuel.

(** The error [errors.Is] compares: wrapping with [%w] keeps it. *)
Fixpoint err_root (e : error) : error := match e with Wrapped _ e' => err_root e' | _ => e end.

(** ** Identifiers *)

(** [hex.EncodeToString]. *)
Definition hex_byte (b : Z) : string := GoNet.digit_str (b / 16) +:+ GoNet.digit_str (b mod 16).
Fixpoint hex_bytes (l : list Z) : string :=
  match l with [] => EmptyString | b :: l' => hex_byte b +:+ hex_bytes l' end.

(** [NewID] from the 16 random bytes it draws and the Unix milliseconds it
    reads: a UUIDv7 as canonical text. *)
Definition NewID (b : list Z) (ms : Z) : string :=
  let byte k := ms / 2 ^ k mod 256 in
  let b6 := Z.lor (Z.land (nth 6 b 0) 15) 112 in
  let b8 := Z.lor (Z.land (nth 8 b 0) 63) 128 in
  hex_bytes [byte 40; byte 32; byte 24; byte 16] +:+ "-" +:+ hex_bytes [byte 8; byte 0] +:+ "-" +:+
  hex_bytes [b6; nth 7 b 0] +:+ "-" +:+ hex_bytes [b8; nth 9 b 0] +:+ "-" +:+
  hex_bytes [nth 10 b 0; nth 11 b 0; nth 12 b 0; nth 13 b 0; nth 14 b 0; nth 15 b 0].

(** What the program draws from outside: random bytes and milliseconds of the
    [n]-th identifier, the [n]-th clock reading, and the Unicode case tables
    (applied by [strings.ToLower] and [strings.EqualFold] to text with a
    non-ASCII byte) and its printable runes ([unicode.IsPrint] from U+0080). *)
Class Env : Type := {
  env_rand : nat → list Z;
  env_ms : nat → Z;
  env_clock : nat → Time;
  env_unicode_lower : string → string;
  env_unicode_fold : string → string → bool;
  env_unicode_print : Z → bool
}.

Definition lower_byte (c : ascii) : ascii :=
  if (65 <=? byte_of c) && (byte_of c <=? 90) then ascii_of_N (Z.to_N (byte_of c + 32)) else c.
Fixpoint map_bytes (f : ascii → ascii) (s : string) : string :=
  match s with EmptyString => EmptyString | String c s' => String (f c) (map_bytes f s') end.
Definition is_ascii (s : string) : bool := str_forallb (λ c, byte_of c <? 128) s.
Definition ToLower `{Env} (s : string) : string :=
  if is_ascii s then map_bytes lower_byte s else env_unicode_lower s.

(** [strings.EqualFold]. *)
Definition EqualFold `{Env} (s t : string) : bool :=
  if is_ascii s && is_ascii t then map_bytes lower_byte s =s map_bytes lower_byte t else env_unicode_fold s t.

(** [strings.Contains]. *)
Fixpoint str_contains (s sub : string) : bool :=
  String.prefix sub s || match s with EmptyString => false | String _ s' => str_contains s' sub end.

(** ** The tables *)

(** hostKey: tenant, kind, id. *)
Definition hostKey : Type := string * string * string.

Record Mem : Type := {
  mem_subnets : gmap string Subnet;
  mem_addrs : gmap string IPAddress;
  mem_devices : gmap string Device;
  mem_ifaces : gmap string DeviceInterface;
  mem_links : gmap string (list DeviceInterfaceLink);
  mem_pkgs : gmap string (list DevicePackage);
  mem_vlans : gmap string Vlan;
  mem_locs : gmap string Location;
  mem_ipGroups : gmap string IPGroup;
  mem_ipMembers : gmap string IPGroupMember;
  mem_hostGroups : gmap string HostGroup;
  mem_hostMembers : gmap string HostGroupMember;
  mem_scans : gmap string IPScanJob;
  mem_dns : gmap string DNSConfig;
  mem_audit : list AuditRow;
  mem_guests : gmap string HypervisorGuest;
  mem_hsSettings : gmap string HostSyncSettings;
  mem_devState : gmap string HostSyncDeviceState;
  mem_snmp : gmap string SubnetSNMP;
  mem_arp : gmap string ARPSettings;
  mem_hostLinks : gmap hostKey (list HostSwitchLink);
  mem_hardware : gmap string DeviceHardware;
  mem_failNext : gset string
}.

Definition New : Mem :=
  {| mem_subnets := ∅; mem_addrs := ∅; mem_devices := ∅; mem_ifaces := ∅; mem_links := ∅;
     mem_pkgs := ∅; mem_vlans := ∅; mem_locs := ∅; mem_ipGroups := ∅; mem_ipMembers := ∅;
     mem_hostGroups := ∅; mem_hostMembers := ∅; mem_scans := ∅; mem_dns := ∅; mem_audit := [];
     mem_guests := ∅; mem_hsSettings := ∅; mem_devState := ∅; mem_snmp := ∅; mem_arp := ∅;
     mem_hostLinks := ∅; mem_hardware := ∅; mem_failNext := ∅ |}.

(** A published realtime event. *)
Record event : Type := { ev_tenant : string; ev_type : string; ev_payload : list (string * any) }.

Record World : Type := {
  w_mem : Mem;
  w_ids : nat;      (* identifiers drawn so far *)
  w_ticks : nat;    (* clock readings so far *)
  w_events : list event
}.

Definition init_world : World := {| w_mem := New; w_ids := 0; w_ticks := 0; w_events := [] |}.

(** ** The monad *)

Definition M (A : Type) : Type := World → World * result error A.

#[export] Instance M_ret : MRet M := λ A a w, (w, Ok a).
#[export] Instance M_bind : MBind M := λ A B k m w,
  match m w with (w', Ok a) => k a w' | (w', Err e) => (w', Err e) end.

Definition throw {A} (e : error) : M A := λ w, (w, Err e).
Definition lift {A} (r : result error A) : M A := λ w, (w, r).
Definition mem : M Mem := λ w, (w, Ok (w_mem w)).
Definition set_mem (f : Mem → Mem) : M () := λ w, ({| w with w_mem := f (w_mem w) |}, Ok ()).
Definition publish_event (e : event) : M () :=
  λ w, ({| w with w_events := w_events w ++ [e] |}, Ok ()).
(** The [n]-th identifier drawn. *)
Definition id_at `{Env} (n : nat) : string := NewID (env_rand n) (env_ms n).
Definition newID `{Env} : M string :=
  λ w, ({| w with w_ids := S (w_ids w) |}, Ok (id_at (w_ids w))).
Definition now `{Env} : M Time :=
  λ w, ({| w with w_ticks := S (w_ticks w) |}, Ok (env_clock (w_ticks w))).

(** A call that leaves the process: it may change the world while it waits. *)
Definition Ext (A : Type) : Type := World → World * A.
Definition ext {A} (f : Ext A) : M A := λ w, let '(w', a) := f w in (w', Ok a).

(** [if err := m; err is e' { return g e } ]: rewrites the error of [m]. *)
Definition catch_map {A} (g : error → error) (m : M A) : M A :=
  λ w, match m w with (w', Ok a) => (w', Ok a) | (w', Err e) => (w', Err (g e)) end.

(** The outcome of [m] as a value. *)
Definition try {A} (m : M A) : M (result error A) :=
  λ w, match m w with (w', r) => (w', Ok r) end.

Lemma bind_Ok {A B} (m : M A) (k : A → M B) w w' a : m w = (w', Ok a) → (m ≫= k) w = k a w'.
Proof. intros E. unfold mbind, M_bind. by rewrite E. Qed.
Lemma bind_Err {A B} (m : M A) (k : A → M B) w w' e : m w = (w', Err e) → (m ≫= k) w = (w', Err e).
Proof. intros E. unfold mbind, M_bind. by rewrite E. Qed.

(** [m.fail(method)]: report and disarm an injected failure. *)
Definition fail (method : string) : M () :=
  m ← mem;
  if decide (method ∈ mem_failNext m) then
    set_mem (λ m, {| m with mem_failNext := mem_failNext m ∖ {[method]} |});; throw (injectedErr method)
  else mret ().

Definition FailNext (method : string) : M () :=
  set_mem (λ m, {| m with mem_failNext := {[method]} ∪ mem_failNext m |}).

(** *** Inverting a successful run *)

Lemma bind_inv {A B} (m : M A) (k : A → M B) w w' b :
  (m ≫= k) w = (w', Ok b) → ∃ w1 a, m w = (w1, Ok a) ∧ k a w1 = (w', Ok b).
Proof. unfold mbind, M_bind. destruct (m w) as [w1 [a|e]]; [eauto|done]. Qed.
Lemma ret_inv {A} (a b : A) w w' : (mret a : M A) w = (w', Ok b) → w' = w ∧ b = a.
Proof. by intros [= <- <-]. Qed.
Lemma throw_inv {A} e w w' (a : A) : throw e w = (w', Ok a) → False.
Proof. done. Qed.
Lemma lift_inv {A} (r : result error A) w w' a : lift r w = (w', Ok a) → w' = w ∧ r = Ok a.
Proof. by intros [= <- ->]. Qed.
Lemma mem_inv w w' m : mem w = (w', Ok m) → w' = w ∧ m = w_mem w.
Proof. by intros [= <- <-]. Qed.
Lemma catch_map_inv {A} g (m : M A) w w' a : catch_map g m w = (w', Ok a) → m w = (w', Ok a).
Proof. unfold catch_map. destruct (m w) as [w1 [x|e]]; [done|]. by intros [=]. Qed.
Lemma try_inv {A} (m : M A) w w' r : try m w = (w', Ok r) → m w = (w', r).
Proof. unfold try. destruct (m w) as [w1 x]. by intros [= <- <-]. Qed.
Lemma set_mem_inv f w w' u : set_mem f w = (w', Ok u) → w_mem w' = f (w_mem w) ∧ w_ids w' = w_ids w.
Proof. by intros [= <-]. Qed.
Lemma now_inv `{Env} w w' t : now w = (w', Ok t) → w_mem w' = w_mem w ∧ w_ids w' = w_ids w.
Proof. by intros [= <- _]. Qed.
Lemma newID_inv `{Env} w w' id : newID w = (w', Ok id) → w_mem w' = w_mem w ∧ id = id_at (w_ids w) ∧ w_ids w' = S (w_ids w).
Proof. by intros [= <- <-]. Qed.
Lemma fail_inv method w w' u : fail method w = (w', Ok u) → w' = w.
Proof.
  unfold fail, mbind, M_bind, mem. destruct (decide (method ∈ mem_failNext (w_mem w))); [done|]. by intros [= <-].
Qed.

(** Opens a hypothesis that a program ran successfully. *)
Ltac m_inv_step :=
  match goal with
  | H : (_ ≫= _) ?w = (_, Ok _) |- _ =>
      let w1 := fresh "w" in let a := fresh "a" in let H1 := fresh "Hrun" in
      apply bind_inv in H as (w1 & a & H1 & H); try clear a; cbn beta in H
  | H : @mret M _ _ _ _ = (_, Ok _) |- _ => apply ret_inv in H as [? ?]; subst
  | H : throw _ _ = (_, Ok _) |- _ => destruct (throw_inv _ _ _ _ H)
  | H : lift _ _ = (_, Ok _) |- _ => apply lift_inv in H as [? ?]; subst
  | H : mem _ = (_, Ok _) |- _ => apply mem_inv in H as [? ?]; subst
  | H : fail _ _ = (_, Ok _) |- _ => apply fail_inv in H; subst
  | H : catch_map _ _ _ = (_, Ok _) |- _ => apply catch_map_inv in H
  | H : try _ _ = (_, Ok _) |- _ => apply try_inv in H
  end.
Ltac m_inv := repeat m_inv_step.

Fixpoint mapM_ {A} (f : A → M ()) (l : list A) : M () :=
  match l with [] => mret () | x :: l' => f x;; mapM_ f l' end.

(** ** Tables *)

Section tables.
Context {K : Type} `{Countable K} {V : Type}.
Implicit Types m : gmap K V.

Definition rows m : list V := snd <$> map_to_list m.
Definition map_any (P : V → bool) m : bool := existsb P (rows m).
Definition map_select (P : V → bool) m : list V := List.filter P (rows m).
Definition map_count (P : V → bool) m : Z := Z.of_nat (length (map_select P m)).
Definition map_find (P : V → bool) m : option (K * V) := find_first (λ kv, P (snd kv)) (map_to_list m).
Definition map_delete_where (P : V → bool) m : gmap K V := filter (λ kv, P (snd kv) = false) m.
Definition map_update_where (P : V → bool) (f : V → V) m : gmap K V :=
  (λ v, if P v then f v else v) <$> m.

Lemma elem_of_rows m v : v ∈ rows m ↔ ∃ k, m !! k = Some v.
Proof.
  unfold rows. rewrite list_elem_of_fmap. split.
  - intros ([k v'] & -> & Hin%elem_of_map_to_list). eauto.
  - intros [k Hk%elem_of_map_to_list]. by exists (k, v).
Qed.

Lemma map_any_true P m : map_any P m = true ↔ ∃ k v, m !! k = Some v ∧ P v = true.
Proof.
  unfold map_any. rewrite existsb_exists. setoid_rewrite <- list_elem_of_In.
  setoid_rewrite elem_of_rows. naive_solver.
Qed.

Lemma map_any_false P m : map_any P m = false ↔ ∀ k v, m !! k = Some v → P v = false.
Proof.
  rewrite <- not_true_iff_false, map_any_true. split.
  - intros Hn k v Hk. destruct (P v) eqn:E; [|done]. exfalso. eauto.
  - intros Hall (k & v & Hk & HP). rewrite (Hall k v Hk) in HP. done.
Qed.

Lemma elem_of_map_select P m v : v ∈ map_select P m ↔ P v = true ∧ ∃ k, m !! k = Some v.
Proof.
  unfold map_select. rewrite list_elem_of_In, filter_In, <- list_elem_of_In, elem_of_rows. tauto.
Qed.

Lemma map_find_Some P m k v : map_find P m = Some (k, v) → m !! k = Some v ∧ P v = true.
Proof.
  intros E%find_first_Some. destruct E as [Hin HP]. by apply elem_of_map_to_list in Hin.
Qed.

Lemma map_find_None P m : map_find P m = None ↔ ∀ k v, m !! k = Some v → P v = false.
Proof.
  split.
  - intros E k v Hk%elem_of_map_to_list. exact (find_first_None _ _ _ E Hk).
  - intros Hall. destruct (map_find P m) as [[k v]|] eqn:E; [|done].
    apply map_find_Some in E as [Hk HP]. rewrite (Hall k v Hk) in HP. done.
Qed.

Lemma lookup_delete_where P m k :
  map_delete_where P m !! k = match m !! k with Some v => if P v then None else Some v | None => None end.
Proof.
  apply option_eq. intros v. unfold map_delete_where. rewrite map_lookup_filter_Some.
  destruct (m !! k) as [u|]; [|naive_solver]. simpl. destruct (P u) eqn:E; naive_solver congruence.
Qed.

Lemma lookup_update_where P f m k :
  map_update_where P f m !! k = (λ v, if P v then f v else v) <$> m !! k.
Proof. unfold map_update_where. apply lookup_fmap. Qed.

(** *** Table invariants *)

(** Every row is stored under its own id. *)
Definition keyed (id : V → K) m : Prop := ∀ k v, m !! k = Some v → id v = k.

(** The ids of selected rows are distinct. *)
Lemma keyed_select_NoDup (id : V → K) P m : keyed id m → NoDup (id <$> map_select P m).
Proof.
  intros Hk. unfold map_select, rows.
  assert (E : id <$> (snd <$> map_to_list m) = (map_to_list m).*1).
  { rewrite <- list_fmap_compose. apply list_fmap_ext. intros i [k v] Hx%list_elem_of_lookup_2%elem_of_map_to_list.
    by apply Hk. }
  pose proof (NoDup_fst_map_to_list m) as Hnd. rewrite <- E in Hnd. clear -Hnd.
  induction (snd <$> map_to_list m) as [|x l IH]; cbn; [constructor|].
  cbn in Hnd. apply NoDup_cons in Hnd as [Hx Hnd]. destruct (P x); [|by apply IH].
  constructor; [|by apply IH]. intros (y & Ey & Hy)%list_elem_of_fmap. apply Hx. rewrite Ey.
  apply list_elem_of_fmap_2. apply list_elem_of_In, filter_In in Hy as [Hy _]. by apply list_elem_of_In.
Qed.

(** No two rows share a key ([None]: the row has no key). *)
Definition unique_on {X} (key : V → option X) m : Prop :=
  ∀ k1 k2 v1 v2 x, m !! k1 = Some v1 → m !! k2 = Some v2 →
    key v1 = Some x → key v2 = Some x → k1 = k2.

Lemma keyed_empty id : keyed id ∅.
Proof. intros k v Hk. by rewrite lookup_empty in Hk. Qed.

Lemma unique_empty {X} (key : V → option X) : unique_on key ∅.
Proof. intros k1 k2 v1 v2 x Hk. by rewrite lookup_empty in Hk. Qed.

Lemma keyed_insert id m k v : keyed id m → id v = k → keyed id (<[k:=v]> m).
Proof. intros Hm Hid k' v' [[<- <-]|[_ Hk]]%lookup_insert_Some; auto. Qed.

Lemma keyed_delete id m k : keyed id m → keyed id (delete k m).
Proof. intros Hm k' v [_ Hk]%lookup_delete_Some. auto. Qed.

Lemma keyed_delete_where id P m : keyed id m → keyed id (map_delete_where P m).
Proof.
  intros Hm k v Hk. rewrite lookup_delete_where in Hk. destruct (m !! k) as [u|] eqn:E; [|done].
  destruct (P u); simplify_eq. auto.
Qed.

Lemma keyed_update_where id P f m :
  (∀ v, id (f v) = id v) → keyed id m → keyed id (map_update_where P f m).
Proof.
  intros Hf Hm k v Hk. rewrite lookup_update_where in Hk. destruct (m !! k) as [u|] eqn:E; [|done].
  simpl in Hk. apply Hm in E. destruct (P u); simplify_eq; [by rewrite Hf|done].
Qed.

Lemma unique_insert {X} (key : V → option X) m k v :
  unique_on key m →
  (∀ k' v' x, k' ≠ k → m !! k' = Some v' → key v' = Some x → key v ≠ Some x) →
  unique_on key (<[k:=v]> m).
Proof.
  intros Hm Hnew k1 k2 v1 v2 x [[<- <-]|[Hk1 H1]]%lookup_insert_Some
    [[<- <-]|[Hk2 H2]]%lookup_insert_Some Hx1 Hx2; eauto.
  - exfalso. by eapply Hnew.
  - exfalso. by eapply Hnew.
Qed.

(** Replacing a row by one with the same key. *)
Lemma unique_insert_same {X} (key : V → option X) m k v u :
  unique_on key m → m !! k = Some u → key v = key u → unique_on key (<[k:=v]> m).
Proof.
  intros Hm Hk Hkey. apply unique_insert; [done|]. intros k' v' x Hne Hk' Hx Hv.
  apply Hne. rewrite Hkey in Hv. eauto.
Qed.

Lemma unique_subseteq {X} (key : V → option X) m m' :
  unique_on key m → m' ⊆ m → unique_on key m'.
Proof.
  intros Hm Hs k1 k2 v1 v2 x H1 H2. apply Hm; by eapply lookup_weaken.
Qed.

Lemma delete_where_subseteq P m : map_delete_where P m ⊆ m.
Proof. apply map_filter_subseteq. Qed.

Lemma unique_update_where {X} (key : V → option X) P f m :
  (∀ v, key (f v) = key v) → unique_on key m → unique_on key (map_update_where P f m).
Proof.
  intros Hf Hm k1 k2 v1 v2 x H1 H2. rewrite lookup_update_where in H1, H2.
  destruct (m !! k1) as [u1|] eqn:E1, (m !! k2) as [u2|] eqn:E2; simpl in *; simplify_eq.
  assert (Hkey : ∀ u, key (if P u then f u else u) = key u) by (intros u; destruct (P u); auto).
  rewrite !Hkey. eauto.
Qed.

(** A search for a unique key finds the only row that has it. *)
Lemma map_find_unique {X} (key : V → option X) (P : V → bool) m k v x :
  unique_on key m → (∀ u, P u = true → key u = Some x) → m !! k = Some v → P v = true →
  map_find P m = Some (k, v).
Proof.
  intros Hm HP Hk Hv. destruct (map_find P m) as [[k' v']|] eqn:E.
  - apply map_find_Some in E as [Hk' Hv']. assert (k = k') as <- by (eapply Hm; eauto). by simplify_eq.
  - rewrite (proj1 (map_find_None P m) E k v Hk) in Hv. done.
Qed.
End tables.

#[export] Hint Resolve keyed_empty unique_empty keyed_insert keyed_delete keyed_delete_where
  keyed_update_where unique_update_where delete_where_subseteq delete_subseteq : ipam.

(** [paginate]: newest first by id, the keyset cursor, the limit. *)
Definition paginate {T} (id : T → string) (cursor : string) (limit : Z) (items : list T) : list T :=
  let sorted := sort_by (λ a b, str_ltb (id b) (id a)) items in
  let after := if is_empty cursor then sorted else List.filter (λ it, str_ltb (id it) cursor) sorted in
  if (0 <? limit) && (limit <? Z.of_nat (length after)) then take (Z.to_nat limit) after else after.

(** *** Pages of a table *)

Section pages.
Context {T : Type} (id : T → string).
Implicit Types l items : list T.

Definition newest_first l : list T := sort_by (λ a b, str_ltb (id b) (id a)) l.
Definition take_limit (limit : Z) l : list T :=
  if (0 <? limit) && (limit <? Z.of_nat (length l)) then take (Z.to_nat limit) l else l.

(** Strictly decreasing ids. *)
Definition desc l : Prop := StronglySorted (λ a b, str_ltb (id b) (id a) = true) l.

Lemma paginate_all items : paginate id "" 0 items ≡ₚ items.
Proof. unfold paginate. cbn. apply sort_by_perm. Qed.

Lemma newest_first_desc items : NoDup (id <$> items) → desc (newest_first items).
Proof.
  intros Hnd. unfold newest_first.
  pose proof (sort_by_sorted (λ a b : T, str_ltb (id b) (id a))
    (λ x y, str_ltb_asym _ _) (λ x y z Hxy Hyz, str_ltb_false_trans _ _ _ Hyz Hxy) items) as Hs.
  pose proof (sort_by_perm (λ a b : T, str_ltb (id b) (id a)) items) as Hp. rewrite <- Hp in Hnd. clear Hp.
  unfold desc. induction Hs as [|x l Hl IH Hx]; [constructor|]. cbn in Hnd. apply NoDup_cons in Hnd as [Hnx Hnd].
  constructor; [by apply IH|]. apply Forall_forall. intros y Hy. rewrite Forall_forall in Hx. specialize (Hx y Hy).
  unfold le_by in Hx. destruct (str_ltb (id y) (id x)) eqn:E; [done|]. exfalso. apply Hnx.
  rewrite (str_ltb_total _ _ Hx E). by apply list_elem_of_fmap_2.
Qed.

Lemma paginate_first limit items : paginate id "" limit items = take_limit limit (newest_first items).
Proof. done. Qed.

(** The page after a cursor continues the list. *)
Lemma desc_after pre x rest : desc (pre ++ x :: rest) → List.filter (λ it, str_ltb (id it) (id x)) (pre ++ x :: rest) = rest.
Proof.
  intros Hd. apply StronglySorted_app in Hd as (Hpre & _ & Hd). apply StronglySorted_inv in Hd as [Hd Hx].
  rewrite List.filter_app. replace (List.filter _ pre) with (@nil T).
  - cbn. rewrite str_ltb_irrefl. clear -Hx. induction Hx as [|y rest Hy Hx IH]; cbn; [done|]. by rewrite Hy, IH.
  - symmetry. assert (Hall : Forall (λ y, str_ltb (id x) (id y) = true) pre).
    { apply Forall_forall. intros y Hy. apply (Hpre y x Hy). left. }
    clear -Hall. induction Hall as [|y pre Hy Hall IH]; cbn; [done|]. by rewrite (str_ltb_asym _ _ Hy).
Qed.

Lemma paginate_next limit items pre x rest :
  NoDup (id <$> items) → newest_first items = pre ++ x :: rest → is_empty (id x) = false →
  paginate id (id x) limit items = take_limit limit rest.
Proof.
  intros Hnd E Hne. unfold paginate. rewrite Hne. fold (newest_first items). rewrite E, desc_after; [done|].
  rewrite <- E. by apply newest_first_desc.
Qed.
End pages.
