(* ===== verification/Hostreport.v ===== *)
(** * internal/hostreport: canonical MAC addresses, ids and exclusion patterns

    [NormalizeMAC], the form in which MACs are stored and compared by the
    address service, the ARP collector and the host sync. *)

From S2P Require Import Prelude GoNet GoIP.

Definition NormalizeMAC (s : string) : option string :=
  match ParseMAC (TrimSpace s) with
  | None => None
  | Some hw =>
      if negb (length hw =? 6)%nat || (Z.land (nth 0 hw 0) 1 =? 1) then None
      else if forallb (λ b, b =? 0) hw then None
      else Some (MAC_String hw)
  end.

(** ** Fixed-shape texts *)

Definition hex_byte_class (c : ascii) : bool :=
  let b := byte_of c in ((48 <=? b) && (b <=? 57)) || ((97 <=? b) && (b <=? 102)) || ((65 <=? b) && (b <=? 70)).

(** Exactly [n] bytes of a class, and what follows. *)
Fixpoint take_class (p : ascii → bool) (n : nat) (s : string) : option string :=
  match n, s with
  | O, _ => Some s
  | S n', String c s' => if p c then take_class p n' s' else None
  | S _, EmptyString => None
  end.

(** Groups of hexadecimal digits separated by dashes, to the end. *)
Fixpoint hex_groups (shape : list nat) (s : string) : bool :=
  match shape with
  | [] => false
  | [n] => match take_class hex_byte_class n s with Some EmptyString => true | _ => false end
  | n :: shape' =>
      match take_class hex_byte_class n s with
      | Some (String c rest) => Ascii.eqb c "-" && hex_groups shape' rest
      | _ => false
      end
  end.

(** [uuidRe]. *)
Definition IsUUID (s : string) : bool := hex_groups [8; 4; 4; 4; 12]%nat s.

(** ** Excluded interfaces (exclude.go) *)

Definition MaxPatterns : Z := 64.
Definition KindLoopback : string := "loopback".

Definition DefaultExclusions : list string :=
  ["docker*"; "br-*"; "veth*"; "virbr*"; "cni*"; "flannel*"; "cali*"; "weave*"; "vxlan*";
   "kube-*"; "cilium*"; "podman*"; "fwbr*"; "fwpr*"; "fwln*"; "tap*"; "vnet*"]%string.

(** [patternRe]: 1 to 64 bytes of the class. *)
Definition pattern_class (c : ascii) : bool :=
  let b := byte_of c in
  ((65 <=? b) && (b <=? 90)) || ((97 <=? b) && (b <=? 122)) || ((48 <=? b) && (b <=? 57)) ||
  existsb (Ascii.eqb c) ["*"; "?"; "."; "_"; ":"; "-"]%char.
Definition patternRe (p : string) : bool :=
  (1 <=? String.length p)%nat && (String.length p <=? 64)%nat && str_forallb pattern_class p.

Definition ValidatePatterns (patterns : list string) : bool :=
  (Z.of_nat (length patterns) <=? MaxPatterns) && forallb patternRe patterns.

Lemma hex_pairs_range sep n s l : hex_pairs sep n s = Some l → Forall mac_byte l.
Proof.
  revert s l. induction n as [|n IH]; intros s l E; cbn [hex_pairs] in E.
  { repeat inv_step E. by simplify_eq. }
  destruct s as [|a [|b rest]]; [done|done|].
  destruct (hex_val a) as [x|] eqn:Ea; [|done]. destruct (hex_val b) as [y|] eqn:Eb; [|done].
  destruct (match n with O => Some rest | S _ => _ end) as [r|]; [|done].
  destruct (hex_pairs sep n r) as [l'|] eqn:El; [|done]. simplify_eq.
  apply hex_val_range in Ea, Eb. constructor; [unfold mac_byte; lia|eauto].
Qed.

Lemma hex_quads_range n s l : hex_quads n s = Some l → Forall mac_byte l.
Proof.
  revert s l. induction n as [|n IH]; intros s l E; cbn [hex_quads] in E.
  { repeat inv_step E. by simplify_eq. }
  destruct s as [|a [|b [|c [|d rest]]]]; try done.
  destruct (hex_val a) as [x|] eqn:Ea; [|done]. destruct (hex_val b) as [y|] eqn:Eb; [|done].
  destruct (hex_val c) as [z|] eqn:Ec; [|done]. destruct (hex_val d) as [w|] eqn:Ed; [|done].
  destruct (match n with O => Some rest | S _ => _ end) as [r|]; [|done].
  destruct (hex_quads n r) as [l'|] eqn:El; [|done]. simplify_eq.
  apply hex_val_range in Ea, Eb, Ec, Ed. repeat (constructor; [unfold mac_byte; lia|]). eauto.
Qed.

Lemma ParseMAC_range s l : ParseMAC s = Some l → Forall mac_byte l.
Proof.
  unfold ParseMAC. intros E. repeat inv_step E; eauto using hex_pairs_range, hex_quads_range.
Qed.

Lemma MAC_String_trim hw : Forall mac_byte hw → TrimSpace (MAC_String hw) = MAC_String hw.
Proof.
  intros Hf. apply TrimSpace_plain, (str_forallb_impl addr_byte); [apply addr_byte_plain|].
  assert (Hx : ∀ b, mac_byte b → str_forallb addr_byte (hex2 b) = true).
  { intros b Hb. unfold mac_byte in Hb. unfold hex2, digit_str. rewrite str_forallb_app. cbn.
    pose proof (Z.mod_pos_bound b 16). rewrite !addr_byte_digit; [done|lia|].
    split; [apply Z.div_pos; lia|apply Z.div_lt_upper_bound; lia]. }
  induction Hf as [|b hw Hb Hf IH]; [done|]. destruct hw as [|b' hw]; [by apply Hx|].
  change (MAC_String (b :: b' :: hw)) with (hex2 b +:+ ":" +:+ MAC_String (b' :: hw)).
  rewrite !str_forallb_app, Hx, IH by done. done.
Qed.

Lemma NormalizeMAC_canonical s t :
  NormalizeMAC s = Some t →
  ∃ hw, t = MAC_String hw ∧ length hw = 6%nat ∧ Forall mac_byte hw ∧ NormalizeMAC t = Some t.
Proof.
  unfold NormalizeMAC at 1. destruct (ParseMAC (TrimSpace s)) as [hw|] eqn:E; [|done].
  destruct (_ || _) eqn:Eb; [done|]. destruct (forallb _ hw) eqn:Ez; [done|]. intros [= <-].
  apply ParseMAC_range in E as Hf. exists hw. apply orb_false_iff in Eb as [Hl Hm]. bool_hyps.
  split_and!; [done|done|done|]. unfold NormalizeMAC. rewrite MAC_String_trim by done.
  do 7 (destruct hw as [|? hw]; try done). rewrite ParseMAC_String by done.
  cbn [length nth] in *. rewrite (proj2 (Z.eqb_neq _ _) Hm). cbn [Nat.eqb negb orb]. by rewrite Ez.
Qed.

(** The canonical form of a MAC is a fixed point: normalizing a normalized
    MAC returns it unchanged, so equality of stored texts is equality of
    MACs. *)
Theorem NormalizeMAC_idempotent s t :
  NormalizeMAC s = Some t → NormalizeMAC t = Some t.
Proof. intros E. by destruct (NormalizeMAC_canonical s t E) as (_ & _ & _ & _ & ?). Qed.

Lemma NormalizeMAC_idempotent_witness :
  NormalizeMAC "00-1B-44-11-3A-B7" = Some "00:1b:44:11:3a:b7" ∧
  NormalizeMAC "00:1b:44:11:3a:b7" = Some "00:1b:44:11:3a:b7".
Proof.
  split; [vm_compute; reflexivity|].
  apply (NormalizeMAC_idempotent "00-1B-44-11-3A-B7"). vm_compute. reflexivity.
Defined.
