(* ===== verification/HostNorm.v ===== *)
(** * internal/hostreport: validating a host report

    [Normalize] turns the report inventory hands out (internal/invclient) into
    a bounded, validated report: it rejects a report of another tenant or with
    a malformed host id, and skips every other offending entry with an issue.
    The issues counted so far are threaded through in a small state monad. *)

From S2P Require Import Prelude GoNet GoIP GoText Models Store Hostreport.

(** ** Reports as inventory sends them (internal/invclient/invclient.go) *)

Record inv_Host : Type := {
  ih_ID : string; ih_Hostname : string; ih_SystemSerial : string; ih_Manufacturer : string; ih_Model : string;
  ih_OSName : string; ih_OSVersion : string; ih_Status : string; ih_LastSeen : Time }.
Record inv_Address : Type := {
  ia_Address : string; ia_PrefixLength : Z; ia_Family : string; ia_DHCP : bool; ia_Temporary : bool; ia_Deprecated : bool;
  ia_Scope : string }.
Record inv_Interface : Type := {
  ii_Name : string; ii_MAC : string; ii_IPAddresses : list string; ii_Gateway : string; ii_DHCP : bool; ii_SpeedBps : Z;
  ii_Type : string; ii_Up : bool; ii_Addresses : list inv_Address; ii_DefaultRoute : bool; ii_Master : string; ii_VLANID : Z }.
Record inv_Virtualization : Type := { iv_Role : string; iv_Kind : string; iv_Source : string }.
Record inv_BMCPort : Type := { ip_Channel : Z; ip_MAC : string; ip_Address : string }.
Record inv_BMC : Type := {
  ib_Address : string; ib_PrefixLength : Z; ib_Gateway : string; ib_IPSource : string; ib_VLANID : Z;
  ib_Ports : list inv_BMCPort }.
Record inv_Guest : Type := {
  ing_ID : string; ing_Name : string; ing_Kind : string; ing_Platform : string; ing_MACs : list string }.
Record inv_UpdateState : Type := {
  iu_PackageManager : string; iu_Status : string; iu_RebootRequired : string; iu_AutomaticUpdates : string;
  iu_SecurityClassified : bool; iu_CheckedAt : Time; iu_PendingCount : Z; iu_SecurityCount : Z }.
Record inv_PendingUpdate : Type := {
  ipu_Name : string; ipu_InstalledVersion : string; ipu_AvailableVersion : string; ipu_Security : bool }.
Record inv_Limits : Type := {
  il_Interfaces : Z; il_Addresses : Z; il_Guests : Z; il_Packages : Z; il_BMCPorts : Z;
  il_Disks : Z; il_MemorySlots : Z; il_MemoryArrays : Z; il_Processors : Z; il_Filesystems : Z }.

(** The inventory SDK's hardware profile: the fields the code reads. *)
Record sdk_Processor : Type := {
  sp_SocketDesignation : string; sp_Manufacturer : string; sp_Version : string; sp_Family : string; sp_MaxSpeedMHz : Z;
  sp_CurrentSpeedMHz : Z; sp_CoreCount : Z; sp_ThreadCount : Z; sp_SocketPopulated : bool }.
Record sdk_MemoryModule : Type := {
  sm_DeviceLocator : string; sm_BankLocator : string; sm_Populated : bool; sm_CapacityBytes : Z; sm_MemoryType : string;
  sm_FormFactor : string; sm_TypeDetail : list string; sm_SpeedMTs : Z; sm_ConfiguredSpeedMTs : Z;
  sm_Manufacturer : string; sm_PartNumber : string; sm_SerialNumber : string }.
Record sdk_Memory : Type := {
  sme_TotalPhysicalBytes : Z; sme_ErrorCorrection : string; sme_Location : string; sme_Use : string;
  sme_MaximumCapacity : Z; sme_Modules : list sdk_MemoryModule; sme_SlotsTotal : Z; sme_SlotsPopulated : Z }.
Record sdk_Disk : Type := {
  sd_Name : string; sd_Model : string; sd_Vendor : string; sd_Serial : string; sd_SizeBytes : Z; sd_MediaType : string;
  sd_Interface : string; sd_Removable : bool }.
Record sdk_Filesystem : Type := {
  sf_Mount : string; sf_FS : string; sf_SizeBytes : Z; sf_FreeBytes : Z; sf_Disks : list string }.
Record sdk_Hardware : Type := {
  sh_Schema : Z; sh_BIOS : HardwareBIOS; sh_System : HardwareSystem; sh_Board : HardwareBoard; sh_Chassis : HardwareChassis;
  sh_Processors : list sdk_Processor; sh_Memory : sdk_Memory; sh_Disks : list sdk_Disk;
  sh_Filesystems : list sdk_Filesystem; sh_Availability : HardwareAvailability }.

Record inv_Report : Type := {
  ir_TenantID : string; ir_Host : inv_Host; ir_SnapshotID : string; ir_CollectedAt : Time; ir_ChangedAt : Time;
  ir_Digest : string; ir_AgentVersion : string; ir_OSFamily : string; ir_Interfaces : list inv_Interface;
  ir_PrimaryIPv4 : string; ir_PrimaryIPv6 : string; ir_Virtualization : inv_Virtualization; ir_BMC : option inv_BMC;
  ir_Guests : list inv_Guest; ir_Updates : inv_UpdateState; ir_PendingUpdates : list inv_PendingUpdate;
  ir_Truncated : inv_Limits; ir_Hardware : option sdk_Hardware }.

(** ** Validated reports *)

Definition MaxInterfaces : Z := 256.
Definition MaxAddrsPerIface : Z := 64.
Definition MaxAddrs : Z := 1024.
Definition MaxGuests : Z := 1000.
Definition MaxGuestMACs : Z := 32.
Definition MaxPackages : Z := 5000.
Definition MaxBMCPorts : Z := 8.
Definition MaxHostname : Z := 253.
Definition MaxIfaceName : Z := 64.
Definition MaxGuestName : Z := 128.
Definition MaxPackageName : Z := 256.
Definition MaxVersion : Z := 128.
Definition MaxText : Z := 128.
Definition MaxIssues : Z := 50.
Definition MaxSpeedBps : Z := 1000000000000.
Definition maxSnapshotIDLength : Z := 64.

Definition KindEthernet : string := "ethernet".
Definition KindWireless : string := "wireless".
Definition KindBond : string := "bond".
Definition KindBridge : string := "bridge".
Definition KindVLAN : string := "vlan".
Definition KindVirtual : string := "virtual".
Definition KindOther : string := "other".

Definition RolePhysical : string := "physical".
Definition RoleVM : string := "vm".
Definition RoleContainer : string := "container".
Definition RoleUnknown : string := "unknown".
Definition TriUnknown : string := "unknown".
Definition TriTrue : string := "true".
Definition TriFalse : string := "false".

Inductive report_error : Type := ErrTenant | ErrHostID.

Record Address : Type := { ra_Addr : Addr; ra_Prefix : Z; ra_DHCP : bool; ra_Temporary : bool; ra_Deprecated : bool }.
Record Interface : Type := {
  ri_Name : string; ri_MAC : string; ri_Kind : string; ri_SpeedMbps : Z; ri_Up : bool; ri_Addresses : list Address }.
Record BMCPort : Type := { bp_Channel : Z; bp_MAC : string }.
Record BMC : Type := { bm_Address : Addr; bm_Prefix : Z; bm_Gateway : Addr; bm_Ports : list BMCPort }.
Record Guest : Type := { g_Ref : string; g_Name : string; g_Kind : string; g_Platform : string; g_MACs : list string }.
Record Updates : Type := {
  u_Manager : string; u_Status : string; u_RebootRequired : string; u_AutomaticUpdates : string;
  u_SecurityClassified : bool; u_CheckedAt : Time }.
Record Package : Type := { pk_Name : string; pk_Installed : string; pk_Available : string; pk_Security : bool }.
Record Hardware : Type := { hw_Profile : HardwareProfile; hw_Summary : HardwareSummary; hw_Digest : string }.

Record Report : Type := {
  rp_TenantID : string; rp_HostID : string; rp_Hostname : string; rp_Serial : string; rp_Manufacturer : string;
  rp_Model : string; rp_OSName : string; rp_OSVersion : string; rp_OSFamily : string; rp_HostStatus : string;
  rp_LastSeen : Time; rp_SnapshotID : string; rp_Digest : string; rp_AgentVersion : string; rp_CollectedAt : Time;
  rp_ChangedAt : Time; rp_Interfaces : list Interface; rp_PrimaryIPv4 : Addr; rp_PrimaryIPv6 : Addr; rp_VirtRole : string;
  rp_VirtKind : string; rp_BMC : option BMC; rp_Guests : list Guest; rp_Updates : Updates; rp_Pending : list Package;
  rp_Hardware : option Hardware; rp_Issues : list HostSyncIssue }.

(** ** Issues *)

Definition issues : Type := gmap (string * string) Z.

Definition issues_add (field reason : string) (n : Z) (iss : issues) : issues :=
  if 0 <? n then <[(field, reason) := default 0 (iss !! (field, reason)) + n]> iss else iss.

Definition issue_less (a b : HostSyncIssue) : bool :=
  if hsi_Field a =s hsi_Field b then str_ltb (hsi_Reason a) (hsi_Reason b) else str_ltb (hsi_Field a) (hsi_Field b).

Definition issue_rows (iss : issues) : list HostSyncIssue :=
  (λ kv, {| hsi_Field := fst (fst kv); hsi_Reason := snd (fst kv); hsi_Count := snd kv |}) <$> map_to_list iss.

Definition issues_list (iss : issues) : list HostSyncIssue := take (Z.to_nat MaxIssues) (sort_by issue_less (issue_rows iss)).

(** Issues and the truncation counters of the hardware lists. *)
Record notes : Type := { nt_issues : issues; nt_trunc : gmap string Z }.

Definition Norm (A : Type) : Type := notes → notes * A.
#[export] Instance Norm_ret : MRet Norm := λ A a s, (s, a).
#[export] Instance Norm_bind : MBind Norm := λ A B k m s, let '(s', a) := m s in k a s'.

Definition note (field reason : string) (n : Z) : Norm () :=
  λ s, ({| s with nt_issues := issues_add field reason n (nt_issues s) |}, ()).
Definition noted : Norm issues := λ s, (s, nt_issues s).
Definition truncations : Norm (gmap string Z) := λ s, (s, nt_trunc s).
Definition set_truncations (f : gmap string Z → gmap string Z) : Norm () := λ s, ({| s with nt_trunc := f (nt_trunc s) |}, ()).
Definition boolInt (b : bool) : Z := if b then 1 else 0.

Fixpoint mapN {A B} (f : A → Norm B) (l : list A) : Norm (list B) :=
  match l with [] => mret [] | x :: l' => y ← f x; ys ← mapN f l'; mret (y :: ys) end.

(** A loop whose body may [continue]: it appends or not, over a loop state. *)
Fixpoint foldN {A S} (f : S → A → Norm S) (s : S) (l : list A) : Norm S :=
  match l with [] => mret s | x :: l' => s' ← f s x; foldN f s' l' end.

Section with_env.
Context `{Env}.

(** ** Texts *)

Definition IsPrint (r : Z) : bool := if r <? 128 then (32 <=? r) && (r <=? 126) else env_unicode_print r.

Definition cleanText (s : string) (max : Z) : string * string :=
  let s := TrimSpace s in
  if negb (ValidString s) then ("", "invalid_utf8")
  else if negb (forallb (λ r, match fst r with Some x => IsPrint x | None => false end) (runes s)) then ("", "control_characters")
  else if max <? Z.of_nat (String.length s) then ("", "too_long")
  else (s, "").

Definition text (field s : string) (max : Z) : Norm string :=
  let '(v, reason) := cleanText s max in
  note field reason (boolInt (negb (is_empty reason)));; mret v.

Definition mac (field s : string) : Norm string :=
  if is_empty (TrimSpace s) then mret ""
  else match NormalizeMAC s with
  | Some m => mret m
  | None => note field "invalid_mac" 1;; mret ""
  end.

Definition oneOf (v : string) (set : list string) : bool := existsb (String.eqb v) set.

Definition closed (field v def : string) (set : list string) : Norm string :=
  if oneOf v set then mret v else note field "unknown_value" (boolInt (negb (is_empty v)));; mret def.

Definition parseAddr (s : string) : option Addr := (λ a, Addr_WithZone a "") <$> ParseAddr (TrimSpace s).

(** [guestRefRe], [virtKindRe], [digestRe]. *)
Definition lower_class (c : ascii) : bool := in_bytes 97 122 c.
Definition digit_class (c : ascii) : bool := in_bytes 48 57 c.
Definition sized (lo hi : nat) (p : ascii → bool) (s : string) : bool :=
  (lo <=? String.length s)%nat && (String.length s <=? hi)%nat && str_forallb p s.
Definition guestRefRe : string → bool :=
  sized 1 64 (λ c, in_bytes 65 90 c || lower_class c || digit_class c || existsb (Ascii.eqb c) ["."; "_"; "-"]%char).
Definition virtKindRe : string → bool := sized 1 32 (λ c, lower_class c || digit_class c || Ascii.eqb c "-").
Definition digestRe : string → bool := sized 64 64 (λ c, digit_class c || in_bytes 97 102 c).

(** ** Interfaces and addresses *)

Definition primary (s : string) (v4 : bool) : Norm Addr :=
  if is_empty (TrimSpace s) then mret AddrInvalid
  else match parseAddr s with
  | Some a => if Bool.eqb (Addr_Is4 a) v4 then mret a else note "primary_address" "invalid" 1;; mret AddrInvalid
  | None => note "primary_address" "invalid" 1;; mret AddrInvalid
  end.

Definition read_address (out : list Address) (a : inv_Address) : Norm (list Address) :=
  match parseAddr (ia_Address a) with
  | Some addr =>
      if Addr_BitLen addr <? ia_PrefixLength a then note "address" "invalid" 1;; mret out
      else mret (out ++ [{| ra_Addr := addr; ra_Prefix := ia_PrefixLength a; ra_DHCP := ia_DHCP a;
                            ra_Temporary := ia_Temporary a; ra_Deprecated := ia_Deprecated a |}])
  | None => note "address" "invalid" 1;; mret out
  end.

Definition read_cidr (out : list Address) (c : string) : Norm (list Address) :=
  match ParsePrefix (TrimSpace c) with
  | Some p => mret (out ++ [{| ra_Addr := Addr_WithZone (pfx_addr p) ""; ra_Prefix := pfx_bits p; ra_DHCP := false;
                               ra_Temporary := false; ra_Deprecated := false |}])
  | None => note "address" "invalid" 1;; mret out
  end.

(** The second loop of [normalizeAddresses]: distinct addresses within the bounds. *)
Definition keep_address (st : list Address * Z) (a : Address) : Norm (list Address * Z) :=
  let '(out, total) := st in
  if existsb (λ b, bool_decide (ra_Addr b = ra_Addr a)) out then mret (out, total)
  else if (MaxAddrsPerIface <=? Z.of_nat (length out)) || (MaxAddrs <=? total) then
    note "addresses" "truncated" 1;; mret (out, total)
  else mret (out ++ [a], total + 1).

Definition normalizeAddresses (raw : inv_Interface) (total : Z) : Norm (list Address * Z) :=
  cands ← (if (0 <? length (ii_Addresses raw))%nat then foldN read_address [] (ii_Addresses raw)
           else foldN read_cidr [] (ii_IPAddresses raw));
  foldN keep_address ([], total) cands.

Definition interface_kinds : list string :=
  [KindEthernet; KindWireless; KindBond; KindBridge; KindVLAN; KindVirtual; KindLoopback; KindOther].

Definition read_interface (st : list Interface * Z) (raw : inv_Interface) : Norm (list Interface * Z) :=
  let '(out, total) := st in
  let '(name, reason) := cleanText (ii_Name raw) MaxIfaceName in
  let reason := if is_empty reason && is_empty name then "empty" else reason in
  if negb (is_empty reason) then note "interface_name" reason 1;; mret st
  else if existsb (λ i, ri_Name i =s name) out then note "interface_name" "duplicate" 1;; mret st
  else
    m ← mac "interface_mac" (ii_MAC raw);
    k ← closed "interface_kind" (ToLower (ii_Type raw)) KindOther interface_kinds;
    let kind := if is_empty (ii_Type raw) then if name =s "lo" then KindLoopback else "" else k in
    speed ← (if MaxSpeedBps <? ii_SpeedBps raw then note "interface_speed" "out_of_range" 1;; mret 0
             else mret (ii_SpeedBps raw / 1000000));
    at_ ← normalizeAddresses raw total;
    mret (out ++ [{| ri_Name := name; ri_MAC := m; ri_Kind := kind; ri_SpeedMbps := speed; ri_Up := ii_Up raw;
                     ri_Addresses := fst at_ |}], snd at_).

(** [if len(in) > max { issue; in = in[:max] }]. *)
Definition bounded {A} (field : string) (max : Z) (l : list A) : Norm (list A) :=
  note field "truncated" (Z.of_nat (length l) - max);; mret (take (Z.to_nat max) l).

Definition normalizeInterfaces (l : list inv_Interface) : Norm (list Interface) :=
  l ← bounded "interfaces" MaxInterfaces l;
  st ← foldN read_interface ([], 0) l;
  mret (fst st).

(** ** BMC, guests, packages *)

Definition read_port (out : list BMCPort) (p : inv_BMCPort) : Norm (list BMCPort) :=
  m ← mac "bmc_mac" (ip_MAC p);
  if is_empty m || existsb (λ q, bp_MAC q =s m) out then mret out
  else mret (out ++ [{| bp_Channel := Z.land (ip_Channel p) 255; bp_MAC := m |}]).

Definition normalizeBMC (b : option inv_BMC) : Norm (option BMC) :=
  match b with
  | None => mret None
  | Some b =>
      addr ← (if is_empty (TrimSpace (ib_Address b)) then mret AddrInvalid
              else match parseAddr (ib_Address b) with
              | Some a => mret (if Addr_IsUnspecified a then AddrInvalid else a)
              | None => note "bmc_address" "invalid" 1;; mret AddrInvalid
              end);
      prefix ← (if Addr_IsValid addr && (1 <=? ib_PrefixLength b) && (ib_PrefixLength b <=? Addr_BitLen addr)
                then mret (ib_PrefixLength b)
                else note "bmc_prefix" "invalid" (boolInt (negb (ib_PrefixLength b =? 0)));; mret 0);
      let gw := match parseAddr (ib_Gateway b) with
                | Some g => if Addr_IsUnspecified g then AddrInvalid else g
                | None => AddrInvalid
                end in
      ports ← bounded "bmc_ports" MaxBMCPorts (ib_Ports b);
      out ← foldN read_port [] ports;
      if negb (Addr_IsValid addr) && (length out =? 0)%nat then mret None
      else mret (Some {| bm_Address := addr; bm_Prefix := prefix; bm_Gateway := gw; bm_Ports := out |})
  end.

Definition read_mac (out : list string) (m : string) : Norm (list string) :=
  n ← mac "guest_mac" m;
  if negb (is_empty n) && negb (existsb (String.eqb n) out) then mret (out ++ [n]) else mret out.

Definition read_guest (out : list Guest) (g : inv_Guest) : Norm (list Guest) :=
  let ref := TrimSpace (ing_ID g) in
  let kind := ToLower (TrimSpace (ing_Kind g)) in
  if negb (guestRefRe ref) then note "guest_ref" "invalid" 1;; mret out
  else if existsb (λ x, g_Ref x =s ref) out then note "guest_ref" "duplicate" 1;; mret out
  else if negb (oneOf kind [GuestVM; GuestContainer]) then note "guest_kind" "invalid" 1;; mret out
  else
    name ← text "guest_name" (ing_Name g) MaxGuestName;
    platform ← text "guest_platform" (ing_Platform g) 32;
    macs ← bounded "guest_macs" MaxGuestMACs (ing_MACs g);
    ms ← foldN read_mac [] macs;
    mret (out ++ [{| g_Ref := ref; g_Name := name; g_Kind := kind; g_Platform := default_str platform "proxmox"; g_MACs := ms |}]).

Definition normalizeGuests (l : list inv_Guest) : Norm (list Guest) :=
  l ← bounded "guests" MaxGuests l; foldN read_guest [] l.

Definition firstNonEmpty (a b : string) : string := if is_empty a then b else a.

Definition read_package (out : list Package) (p : inv_PendingUpdate) : Norm (list Package) :=
  let '(name, r1) := cleanText (ipu_Name p) MaxPackageName in
  let '(inst, r2) := cleanText (ipu_InstalledVersion p) MaxVersion in
  let '(avail, r3) := cleanText (ipu_AvailableVersion p) MaxVersion in
  if negb (is_empty r1) || is_empty name then note "package_name" (firstNonEmpty r1 "empty") 1;; mret out
  else if negb (is_empty r2) || negb (is_empty r3) then note "package_version" (firstNonEmpty r2 r3) 1;; mret out
  else if existsb (λ q, pk_Name q =s name) out then note "package_name" "duplicate" 1;; mret out
  else mret (out ++ [{| pk_Name := name; pk_Installed := inst; pk_Available := avail; pk_Security := ipu_Security p |}]).

Definition normalizePackages (l : list inv_PendingUpdate) : Norm (list Package) :=
  l ← bounded "packages" MaxPackages l; foldN read_package [] l.

(** ** Hardware (hardware.go) *)

Definition MaxHWProcessors : Z := 256.
Definition MaxHWSlots : Z := 1024.
Definition MaxHWDisks : Z := 256.
Definition MaxHWFilesystems : Z := 1024.
Definition MaxHWFSDisks : Z := 64.
Definition MaxHWTypeDetail : Z := 16.
Definition MaxHWString : Z := 256.
Definition MaxHWProfileBytes : Z := 262144.
Definition hardwareSchema : Z := 2.

Definition MediaUnknown : string := "unknown".
Definition IfOther : string := "other".
Definition AvailUnknown : string := "unknown".
Definition mediaSet : list string := ["ssd"; "hdd"; "nvme_ssd"; "unknown"]%string.
Definition ifaceSet : list string :=
  ["nvme"; "sata"; "sas"; "scsi"; "usb"; "virtio"; "hyperv"; "xen"; "mmc"; "other"]%string.
Definition availSet : list string := ["ok"; "partial"; "unavailable"; "unsupported"; "unknown"]%string.

(** The last rune boundary at or before position [n]. *)
Fixpoint rune_cut (n : nat) (l : list ascii) : nat :=
  match n with
  | O => O
  | S n' => match l !! n with Some c => if RuneStart c then n else rune_cut n' l | None => n end
  end.

Definition control_rune (r : Z) : bool := (r <? 32) || (r =? 127) || ((128 <=? r) && (r <? 160)).

Definition cleanHW (s : string) : string :=
  let s := TrimSpace (keep_runes control_rune s) in
  if Z.of_nat (String.length s) <=? MaxHWString then s
  else let l := String.list_ascii_of_string s in
       TrimSpace (String.string_of_list_ascii (take (rune_cut (Z.to_nat MaxHWString) l) l)).

Definition clampI64 (v : Z) : Z := if MaxInt64 <? v then MaxInt64 else v.
Definition addSat (a b : Z) : Z := if MaxInt64 - a <? b then MaxInt64 else a + b.

Definition hw_text (s : string) : Norm string :=
  let out := cleanHW s in
  note "hardware_text" "cleaned" (boolInt (negb (out =s TrimSpace s)));; mret out.

Definition hw_bound (list_ : string) (n max reported : Z) : Norm nat :=
  let keep := Z.min n max in
  let total := (n - keep) + reported in
  if 0 <? total then
    set_truncations (λ t, <[list_ := default 0 (t !! list_) + total]> t);;
    note ("hardware_" +:+ list_) "truncated" total;; mret (Z.to_nat keep)
  else mret (Z.to_nat keep).

Definition hw_list_step (max : Z) (st : list string * Z) (s : string) : Norm (list string * Z) :=
  let '(out, dropped) := st in
  v ← hw_text s;
  mret (if is_empty v then st else if Z.of_nat (length out) =? max then (out, dropped + 1) else (out ++ [v], dropped)).

Definition hw_list (l : list string) (max : Z) (field : string) : Norm (list string) :=
  st ← foldN (hw_list_step max) ([], 0) l;
  (if is_empty field then mret () else note field "truncated" (snd st));;
  mret (fst st).

Definition hw_closed (field v bad empty : string) (set : list string) : Norm string :=
  let v := ToLower (TrimSpace v) in
  if is_empty v then mret empty else if oneOf v set then mret v else note field "unknown_value" 1;; mret bad.

Definition hw_processor (c : sdk_Processor) : Norm HardwareProcessor :=
  socket ← hw_text (sp_SocketDesignation c); manufacturer ← hw_text (sp_Manufacturer c); model ← hw_text (sp_Version c);
  family ← hw_text (sp_Family c);
  mret {| hpr_Socket := socket; hpr_Manufacturer := manufacturer; hpr_Model := model; hpr_Family := family;
          hpr_MaxMHz := sp_MaxSpeedMHz c; hpr_CurrentMHz := sp_CurrentSpeedMHz c; hpr_Cores := sp_CoreCount c;
          hpr_Threads := sp_ThreadCount c; hpr_Populated := sp_SocketPopulated c |}.

Definition hw_slot (mod_ : sdk_MemoryModule) : Norm HardwareMemorySlot :=
  locator ← hw_text (sm_DeviceLocator mod_); bank ← hw_text (sm_BankLocator mod_); type ← hw_text (sm_MemoryType mod_);
  form ← hw_text (sm_FormFactor mod_); detail ← hw_list (sm_TypeDetail mod_) MaxHWTypeDetail "";
  manufacturer ← hw_text (sm_Manufacturer mod_); part ← hw_text (sm_PartNumber mod_); serial ← hw_text (sm_SerialNumber mod_);
  mret {| hms_Locator := locator; hms_Bank := bank; hms_Populated := sm_Populated mod_;
          hms_SizeBytes := clampI64 (sm_CapacityBytes mod_); hms_Type := type; hms_FormFactor := form; hms_TypeDetail := detail;
          hms_SpeedMTs := sm_SpeedMTs mod_; hms_ConfiguredMTs := sm_ConfiguredSpeedMTs mod_; hms_Manufacturer := manufacturer;
          hms_PartNumber := part; hms_Serial := serial |}.

Definition hw_disk (d : sdk_Disk) : Norm HardwareDisk :=
  name ← hw_text (sd_Name d); model ← hw_text (sd_Model d); vendor ← hw_text (sd_Vendor d); serial ← hw_text (sd_Serial d);
  media ← hw_closed "hardware_disk_media" (sd_MediaType d) MediaUnknown MediaUnknown mediaSet;
  iface ← hw_closed "hardware_disk_interface" (sd_Interface d) IfOther IfOther ifaceSet;
  mret {| hd_Name := name; hd_Model := model; hd_Vendor := vendor; hd_Serial := serial; hd_SizeBytes := clampI64 (sd_SizeBytes d);
          hd_Media := media; hd_Interface := iface; hd_Removable := sd_Removable d |}.

Definition hw_filesystem (f : sdk_Filesystem) : Norm HardwareFilesystem :=
  mount ← hw_text (sf_Mount f); fs ← hw_text (sf_FS f); disks ← hw_list (sf_Disks f) MaxHWFSDisks "hardware_filesystem_disks";
  mret {| hf_Mount := mount; hf_FS := fs; hf_SizeBytes := clampI64 (sf_SizeBytes f); hf_FreeBytes := clampI64 (sf_FreeBytes f);
          hf_Disks := disks |}.

Definition hw_bios (b : HardwareBIOS) : Norm HardwareBIOS :=
  vendor ← hw_text (hb_Vendor b); version ← hw_text (hb_Version b); date ← hw_text (hb_ReleaseDate b);
  mret {| hb_Vendor := vendor; hb_Version := version; hb_ReleaseDate := date |}.

Definition hw_system (s : HardwareSystem) : Norm HardwareSystem :=
  manufacturer ← hw_text (hsy_Manufacturer s); product ← hw_text (hsy_Product s); version ← hw_text (hsy_Version s);
  serial ← hw_text (hsy_Serial s); uuid ← hw_text (hsy_UUID s); sku ← hw_text (hsy_SKU s); family ← hw_text (hsy_Family s);
  mret {| hsy_Manufacturer := manufacturer; hsy_Product := product; hsy_Version := version; hsy_Serial := serial;
          hsy_UUID := uuid; hsy_SKU := sku; hsy_Family := family |}.

Definition hw_board (b : HardwareBoard) : Norm HardwareBoard :=
  manufacturer ← hw_text (hbd_Manufacturer b); product ← hw_text (hbd_Product b); serial ← hw_text (hbd_Serial b);
  mret {| hbd_Manufacturer := manufacturer; hbd_Product := product; hbd_Serial := serial |}.

Definition hw_chassis (c : HardwareChassis) : Norm HardwareChassis :=
  type ← hw_text (hc_Type c); manufacturer ← hw_text (hc_Manufacturer c); serial ← hw_text (hc_Serial c);
  tag ← hw_text (hc_AssetTag c);
  mret {| hc_Type := type; hc_Manufacturer := manufacturer; hc_Serial := serial; hc_AssetTag := tag |}.

Definition hw_availability (a : HardwareAvailability) : Norm HardwareAvailability :=
  smbios ← hw_closed "hardware_availability" (ha_SMBIOS a) AvailUnknown "" availSet;
  disks ← hw_closed "hardware_availability" (ha_Disks a) AvailUnknown "" availSet;
  mret {| ha_SMBIOS := smbios; ha_Disks := disks |}.

Definition hw_memory (m : sdk_Memory) (lim : inv_Limits) : Norm HardwareMemory :=
  hw_bound "memory_arrays" 0 0 (il_MemoryArrays lim);;
  ec ← hw_text (sme_ErrorCorrection m); location ← hw_text (sme_Location m); use ← hw_text (sme_Use m);
  n ← hw_bound "memory_slots" (Z.of_nat (length (sme_Modules m))) MaxHWSlots (il_MemorySlots lim);
  slots ← mapN hw_slot (take n (sme_Modules m));
  let used := Z.of_nat (length (List.filter hms_Populated slots)) in
  let none := sme_SlotsTotal m =? 0 in
  mret {| hmm_TotalBytes := clampI64 (sme_TotalPhysicalBytes m); hmm_ErrorCorrection := ec; hmm_Location := location;
          hmm_Use := use; hmm_MaxCapacityBytes := clampI64 (sme_MaximumCapacity m);
          hmm_SlotsTotal := if none then Z.of_nat (length slots) else sme_SlotsTotal m;
          hmm_SlotsUsed := if none then used else sme_SlotsPopulated m; hmm_Slots := slots |}.

(** *** The device summary *)

Definition sum_cpu (s : HardwareSummary) (c : HardwareProcessor) : HardwareSummary :=
  if negb (hpr_Populated c) then s
  else {| s with hws_CPUModel := if hws_CPUSockets s =? 0 then default_str (hpr_Model c) (hpr_Family c) else hws_CPUModel s;
          hws_CPUSockets := hws_CPUSockets s + 1; hws_CPUCores := hws_CPUCores s + hpr_Cores c;
          hws_CPUThreads := hws_CPUThreads s + hpr_Threads c |}.

Definition count_type (m : gmap string Z) (sl : HardwareMemorySlot) : gmap string Z :=
  if negb (hms_Populated sl) || is_empty (hms_Type sl) then m else <[hms_Type sl := default 0 (m !! hms_Type sl) + 1]> m.

(** The most common type; the least one on a tie, in any order of the map. *)
Definition best_type (acc : string * Z) (tn : string * Z) : string * Z :=
  let '(best_t, best) := acc in
  if (best <? snd tn) || ((snd tn =? best) && str_ltb (fst tn) best_t) then tn else acc.

Definition sum_disk (s : HardwareSummary) (d : HardwareDisk) : HardwareSummary :=
  if hd_Removable d then s
  else {| s with hws_DiskCount := hws_DiskCount s + 1; hws_DiskTotalBytes := addSat (hws_DiskTotalBytes s) (hd_SizeBytes d) |}.

Definition Summarize (p : HardwareProfile) : HardwareSummary :=
  let mem_ := hp_Memory p in
  let s0 := {| zero_HardwareSummary with hws_MemoryTotalBytes := hmm_TotalBytes mem_;
               hws_MemorySlotsTotal := hmm_SlotsTotal mem_; hws_MemorySlotsUsed := hmm_SlotsUsed mem_ |} in
  let s1 := foldl sum_cpu s0 (hp_Processors p) in
  let sum := foldl (λ acc sl, addSat acc (hms_SizeBytes sl)) 0 (List.filter hms_Populated (hmm_Slots mem_)) in
  let types := foldl count_type ∅ (hmm_Slots mem_) in
  let s2 := {| s1 with hws_MemoryTotalBytes := if hws_MemoryTotalBytes s1 =? 0 then sum else hws_MemoryTotalBytes s1;
               hws_MemoryType := fst (foldl best_type ("", 0) (map_to_list types)) |} in
  foldl sum_disk s2 (hp_Disks p).

(** [encoding/json] and [crypto/sha256] with [hex]: code outside the repository. *)
Context (json_profile : HardwareProfile → string) (sha256_hex : string → string).

Definition no_free (f : HardwareFilesystem) : HardwareFilesystem := {| f with hf_FreeBytes := 0 |}.

Definition HardwareDigest (p : HardwareProfile) : string :=
  sha256_hex (json_profile {| p with hp_Filesystems := no_free <$> hp_Filesystems p |}).

Definition normalizeHardware (h : option sdk_Hardware) (lim : inv_Limits) : Norm (option Hardware) :=
  match h with
  | None => mret None
  | Some h =>
      if sh_Schema h <? hardwareSchema then note "hardware" "legacy_schema" 1;; mret None
      else
        set_truncations (λ _, ∅);;
        bios ← hw_bios (sh_BIOS h); system ← hw_system (sh_System h); board ← hw_board (sh_Board h);
        chassis ← hw_chassis (sh_Chassis h); avail ← hw_availability (sh_Availability h);
        np ← hw_bound "processors" (Z.of_nat (length (sh_Processors h))) MaxHWProcessors (il_Processors lim);
        procs ← mapN hw_processor (take np (sh_Processors h));
        memory ← hw_memory (sh_Memory h) lim;
        nd ← hw_bound "disks" (Z.of_nat (length (sh_Disks h))) MaxHWDisks (il_Disks lim);
        disks ← mapN hw_disk (take nd (sh_Disks h));
        nf ← hw_bound "filesystems" (Z.of_nat (length (sh_Filesystems h))) MaxHWFilesystems (il_Filesystems lim);
        fss ← mapN hw_filesystem (take nf (sh_Filesystems h));
        trunc ← truncations;
        let p := {| hp_Schema := hardwareSchema; hp_BIOS := bios; hp_System := system; hp_Board := board; hp_Chassis := chassis;
                    hp_Processors := procs; hp_Memory := memory; hp_Disks := disks; hp_Filesystems := fss;
                    hp_Availability := avail; hp_Truncated := trunc |} in
        if MaxHWProfileBytes <? Z.of_nat (String.length (json_profile p)) then note "hardware" "too_large" 1;; mret None
        else mret (Some {| hw_Profile := p; hw_Summary := Summarize p; hw_Digest := HardwareDigest p |})
  end.

(** ** The report *)

Definition normalize_body (r : inv_Report) (tenantID : string) : Norm Report :=
  let h := ir_Host r in
  hostname ← text "hostname" (ih_Hostname h) MaxHostname;
  serial ← text "system_serial" (ih_SystemSerial h) MaxText;
  manufacturer ← text "manufacturer" (ih_Manufacturer h) MaxText;
  model ← text "model" (ih_Model h) MaxText;
  os_name ← text "os_name" (ih_OSName h) MaxText;
  os_version ← text "os_version" (ih_OSVersion h) MaxText;
  agent ← text "agent_version" (ir_AgentVersion r) MaxText;
  snapshot ← text "snapshot_id" (ir_SnapshotID r) maxSnapshotIDLength;
  status ← closed "host_status" (ih_Status h) "" ["active"; "stale"; "retired"]%string;
  family ← closed "os_family" (ir_OSFamily r) "" ["linux"; "windows"]%string;
  digest ← (if digestRe (ir_Digest r) then mret (ir_Digest r)
            else note "report_digest" "invalid" (boolInt (negb (is_empty (ir_Digest r))));; mret "");
  ifaces ← normalizeInterfaces (ir_Interfaces r);
  p4 ← primary (ir_PrimaryIPv4 r) true;
  p6 ← primary (ir_PrimaryIPv6 r) false;
  role ← closed "virtualization_role" (iv_Role (ir_Virtualization r)) RoleUnknown [RolePhysical; RoleVM; RoleContainer; RoleUnknown];
  let k := ToLower (TrimSpace (iv_Kind (ir_Virtualization r))) in
  kind ← (if virtKindRe k then mret k else note "virtualization_kind" "invalid" (boolInt (negb (is_empty k)));; mret "");
  bmc ← normalizeBMC (ir_BMC r);
  guests ← normalizeGuests (ir_Guests r);
  let u := ir_Updates r in
  manager ← closed "package_manager" (iu_PackageManager u) "" ["apt"; "dnf"; "yum"; "apk"; "pacman"]%string;
  ustatus ← closed "update_status" (iu_Status u) UpdUnknown [UpdUnknown; UpdUpToDate; UpdAvailable; UpdUnsupported; UpdError];
  reboot ← closed "reboot_required" (iu_RebootRequired u) TriUnknown [TriUnknown; TriTrue; TriFalse];
  auto ← closed "automatic_updates" (iu_AutomaticUpdates u) TriUnknown [TriUnknown; TriTrue; TriFalse];
  pending ← normalizePackages (ir_PendingUpdates r);
  note "interfaces" "truncated" (il_Interfaces (ir_Truncated r));;
  note "addresses" "truncated" (il_Addresses (ir_Truncated r));;
  note "guests" "truncated" (il_Guests (ir_Truncated r));;
  note "packages" "truncated" (il_Packages (ir_Truncated r));;
  note "bmc_ports" "truncated" (il_BMCPorts (ir_Truncated r));;
  hw ← normalizeHardware (ir_Hardware r) (ir_Truncated r);
  found ← noted;
  mret {| rp_TenantID := tenantID; rp_HostID := ToLower (ih_ID h); rp_Hostname := hostname; rp_Serial := serial;
          rp_Manufacturer := manufacturer; rp_Model := model; rp_OSName := os_name; rp_OSVersion := os_version;
          rp_OSFamily := family; rp_HostStatus := status; rp_LastSeen := ih_LastSeen h; rp_SnapshotID := snapshot;
          rp_Digest := digest; rp_AgentVersion := agent; rp_CollectedAt := ir_CollectedAt r; rp_ChangedAt := ir_ChangedAt r;
          rp_Interfaces := ifaces; rp_PrimaryIPv4 := p4; rp_PrimaryIPv6 := p6; rp_VirtRole := role; rp_VirtKind := kind;
          rp_BMC := bmc; rp_Guests := guests;
          rp_Updates := {| u_Manager := manager; u_Status := ustatus; u_RebootRequired := reboot; u_AutomaticUpdates := auto;
                           u_SecurityClassified := iu_SecurityClassified u; u_CheckedAt := iu_CheckedAt u |};
          rp_Pending := pending; rp_Hardware := hw; rp_Issues := issues_list found |}.

Definition Normalize (r : inv_Report) (tenantID : string) : result report_error Report :=
  if negb (IsUUID tenantID) || negb (EqualFold (ir_TenantID r) tenantID) then Err ErrTenant
  else if negb (IsUUID (ih_ID (ir_Host r))) then Err ErrHostID
  else Ok (snd (normalize_body r tenantID {| nt_issues := ∅; nt_trunc := ∅ |})).
End with_env.

(** ** Excluded interfaces (exclude.go) *)

Definition Excluded (name kind : string) (patterns : list string) : bool :=
  (kind =s KindLoopback) || existsb (λ p, default false (path_Match p name)) patterns.
