(* ===== verification/MemNet.v ===== *)
(** * internal/memstore/memstore.go: subnets and addresses

    Each store method as one atomic action of [M]: the injected-failure hook,
    the tenant filter, the uniqueness guards and every row it writes. *)

From Stdlib Require Import SpecFloat.
From S2P Require Import Prelude GoNet GoIP Ipnet Models Store.

Section with_env.
Context `{Env}.

(** ** Helpers *)

Definition subnetTotal (cidr : string) : Z :=
  if is_empty cidr then 0
  else match ParseCIDR cidr with
  | None => 0
  | Some (_, n) =>
      let hostBits := mask_bits (net_Mask n) - mask_ones (net_Mask n) in
      if hostBits <=? 0 then 1 else if 62 <? hostBits then 0 else 2 ^ hostBits
  end.

(** The value of a mutable map cell read with Go's zero default. *)
Definition device_name (m : Mem) (id : string) : string :=
  match mem_devices m !! id with Some d => dv_Name d | None => "" end.

(** ** Host links (memstore/portlink.go) *)

Definition hostLinksLocked (m : Mem) (tenantID kind id primaryPort : string) : list HostSwitchLink :=
  let stored := match mem_hostLinks m !! (tenantID, kind, id) with Some l => l | None => [] end in
  let live := List.filter (λ l,
    match mem_ifaces m !! hl_PortID l with
    | Some p => (di_TenantID p =s tenantID) && (di_DeviceID p =s hl_SwitchID l)
    | None => false
    end) stored in
  let out := (λ l, {| l with hl_SwitchName := device_name m (hl_SwitchID l) |}) <$> live in
  match out with [] => [] | _ => MarkPrimary out primaryPort end.

Definition linkedToLocked (m : Mem) (tenantID kind id portID : string) : bool :=
  existsb (λ l, hl_PortID l =s portID) (hostLinksLocked m tenantID kind id "").

Fixpoint stamp_links (links : list HostSwitchLink) : M (list HostSwitchLink) :=
  match links with
  | [] => mret []
  | l :: rest =>
      seen ← match hl_LastSeen l with Some t => mret (Some t) | None => t ← now; mret (Some t) end;
      rest' ← stamp_links rest;
      mret ({| l with hl_SwitchName := ""; hl_Primary := false; hl_LastSeen := seen |} :: rest')
  end.

Definition setHostLinksLocked (tenantID kind id : string) (links : list HostSwitchLink) : M () :=
  match links with
  | [] => set_mem (λ m, {| m with mem_hostLinks := delete (tenantID, kind, id) (mem_hostLinks m) |})
  | _ => cp ← stamp_links links;
         set_mem (λ m, {| m with mem_hostLinks := <[(tenantID, kind, id) := cp]> (mem_hostLinks m) |})
  end.

(** [decorateAddrLocked] (memstore/arp.go). *)
Definition decorateAddrLocked (m : Mem) (a : IPAddress) : IPAddress :=
  let link := match ad_Link a with
    | None => None
    | Some l => Some match mem_devices m !! al_SwitchID l with
                     | Some d => if dv_TenantID d =s ad_TenantID a
                                 then {| l with al_SwitchName := dv_Name d |} else l
                     | None => l
                     end
    end in
  let primary := match ad_Link a with Some l => al_PortID l | None => "" end in
  {| a with ad_Link := link;
     ad_Links := hostLinksLocked m (ad_TenantID a) HostKindAddress (ad_ID a) primary |}.

(** ** Subnets *)

Definition in_subnet (tenantID subnetID : string) (a : IPAddress) : bool :=
  (ad_TenantID a =s tenantID) && (ad_SubnetID a =s subnetID).

Definition fillSubnet (m : Mem) (s : Subnet) : Subnet :=
  let used := map_count (in_subnet (sn_TenantID s) (sn_ID s)) (mem_addrs m) in
  let total := subnetTotal (sn_CIDR s) in
  {| s with sn_TotalAddresses := total; sn_UsedAddresses := used;
     sn_AvailableAddresses := if 0 <? total then total - used else 0;
     sn_Utilization := if 0 <? total then f64_div (f64_of_Z used) (f64_of_Z total) else f64_of_Z 0 |}.

Definition CreateSubnet (s : Subnet) : M () :=
  fail "CreateSubnet";;
  m ← mem;
  if map_any (λ ex, (sn_TenantID ex =s sn_TenantID s) && (sn_Name ex =s sn_Name s)) (mem_subnets m)
  then throw ErrConflict
  else
    id ← (if is_empty (sn_ID s) then newID else mret (sn_ID s));
    t ← now;
    let s' := {| s with sn_ID := id;
                 sn_Status := default_str (sn_Status s) SubnetActive;
                 sn_IPVersion := if sn_IPVersion s =? 0 then 4 else sn_IPVersion s;
                 sn_Origin := OriginManual;
                 sn_CreatedAt := if IsZero (sn_CreatedAt s) then t else sn_CreatedAt s;
                 sn_UpdatedAt := t |} in
    set_mem (λ m, {| m with mem_subnets := <[id := s']> (mem_subnets m) |}).

Definition GetSubnet (tenantID id : string) : M Subnet :=
  m ← mem;
  match mem_subnets m !! id with
  | Some s => if sn_TenantID s =s tenantID then mret (fillSubnet m s) else throw ErrNotFound
  | None => throw ErrNotFound
  end.

Definition subnet_matches (tenantID : string) (f : SubnetFilter) (s : Subnet) : bool :=
  (sn_TenantID s =s tenantID) &&
  (is_empty (sf_VlanID f) || (sn_VlanID s =s sf_VlanID f)) &&
  (is_empty (sf_ParentID f) || (sn_ParentID s =s sf_ParentID f)) &&
  (is_empty (sf_LocationID f) || (sn_LocationID s =s sf_LocationID f)) &&
  (is_empty (sf_Status f) || (sn_Status s =s sf_Status f)) &&
  ((sf_IPVersion f =? 0) || (sn_IPVersion s =? sf_IPVersion f)) &&
  (is_empty (sf_Query f) ||
   str_contains (ToLower (sn_Name s)) (ToLower (sf_Query f)) ||
   str_contains (ToLower (sn_CIDR s)) (ToLower (sf_Query f))).

Definition ListSubnets (tenantID : string) (f : SubnetFilter) : M (list Subnet) :=
  m ← mem;
  mret (fillSubnet m <$>
        paginate sn_ID (sf_CursorID f) (sf_Limit f) (map_select (subnet_matches tenantID f) (mem_subnets m))).

Definition UpdateSubnet (s : Subnet) : M () :=
  fail "UpdateSubnet";;
  m ← mem;
  match mem_subnets m !! sn_ID s with
  | None => throw ErrNotFound
  | Some ex =>
      if negb (sn_TenantID ex =s sn_TenantID s) then throw ErrNotFound
      else if map_any (λ o, negb (sn_ID o =s sn_ID s) && (sn_TenantID o =s sn_TenantID s) &&
                            (sn_Name o =s sn_Name s)) (mem_subnets m)
      then throw ErrConflict
      else
        t ← now;
        let s' := {| s with sn_CreatedAt := sn_CreatedAt ex; sn_Origin := sn_Origin ex;
                     sn_UpdatedAt := t |} in
        set_mem (λ m, {| m with mem_subnets := <[sn_ID s := s']> (mem_subnets m) |})
  end.

(** The keys of the rows of [P], with their host links of [kind] removed. *)
Definition drop_host_links (tenantID kind : string) (ids : list string)
    (hl : gmap hostKey (list HostSwitchLink)) : gmap hostKey (list HostSwitchLink) :=
  foldr (λ id acc, delete (tenantID, kind, id) acc) hl ids.

Definition keys_where {V} (P : V → bool) (t : gmap string V) : list string :=
  fst <$> List.filter (λ kv, P (snd kv)) (map_to_list t).

Definition DeleteSubnet (tenantID id : string) (force : bool) : M () :=
  fail "DeleteSubnet";;
  m ← mem;
  match mem_subnets m !! id with
  | None => throw ErrNotFound
  | Some s =>
      if negb (sn_TenantID s =s tenantID) then throw ErrNotFound
      else
        let addrIDs := keys_where (in_subnet tenantID id) (mem_addrs m) in
        if (match addrIDs with [] => false | _ => true end) && negb force then throw ErrNotEmpty
        else set_mem (λ m, {| m with
          mem_addrs := map_delete_where (in_subnet tenantID id) (mem_addrs m);
          mem_hostLinks := drop_host_links tenantID HostKindAddress addrIDs (mem_hostLinks m);
          mem_scans := map_delete_where (λ j, (sj_TenantID j =s tenantID) && (sj_SubnetID j =s id))
                         (mem_scans m);
          mem_snmp := delete id (mem_snmp m);
          mem_subnets := delete id (map_update_where (λ c, sn_ParentID c =s id)
                           (λ c, {| c with sn_ParentID := "" |}) (mem_subnets m)) |})
  end.

Definition CountAddressesInSubnet (tenantID subnetID : string) : M Z :=
  m ← mem; mret (map_count (in_subnet tenantID subnetID) (mem_addrs m)).

Definition ListAllocatedAddresses (tenantID subnetID : string) : M (list string) :=
  m ← mem;
  mret (sort_strings (ad_Address <$> map_select (in_subnet tenantID subnetID) (mem_addrs m))).

Definition SubnetsForVlan (tenantID vlanID : string) : M (list Subnet) :=
  m ← mem;
  mret (paginate sn_ID "" 0 (fillSubnet m <$>
    map_select (λ s, (sn_TenantID s =s tenantID) && (sn_VlanID s =s vlanID)) (mem_subnets m))).

Definition AllSubnetCIDRs (tenantID : string) : M (list Subnet) :=
  fail "AllSubnetCIDRs";;
  m ← mem;
  mret (paginate sn_ID "" 0 (map_select (λ s, sn_TenantID s =s tenantID) (mem_subnets m))).

(** ** Addresses *)

Definition has_address (tenantID address : string) (a : IPAddress) : bool :=
  (ad_TenantID a =s tenantID) && (ad_Address a =s address).

Definition findAddrLocked (m : Mem) (tenantID address : string) : option (string * IPAddress) :=
  map_find (has_address tenantID address) (mem_addrs m).

Definition clearAddrServerFields (a : IPAddress) : IPAddress :=
  {| a with ad_ReportState := ""; ad_PreviousDeviceID := ""; ad_MovedAt := None; ad_MoveCount := 0;
     ad_MoveWindowStart := None; ad_Conflict := false; ad_Origin := ""; ad_Link := None |}.

Definition keepAddrServerFields (a ex : IPAddress) : IPAddress :=
  {| a with ad_ReportState := ad_ReportState ex; ad_PreviousDeviceID := ad_PreviousDeviceID ex;
     ad_MovedAt := ad_MovedAt ex; ad_MoveCount := ad_MoveCount ex;
     ad_MoveWindowStart := ad_MoveWindowStart ex; ad_Conflict := ad_Conflict ex;
     ad_Origin := ad_Origin ex; ad_Link := ad_Link ex |}.

Definition put_addr (k : string) (a : IPAddress) : M () :=
  set_mem (λ m, {| m with mem_addrs := <[k := a]> (mem_addrs m) |}).

Definition CreateAddress (a : IPAddress) : M () :=
  fail "CreateAddress";;
  m ← mem;
  match findAddrLocked m (ad_TenantID a) (ad_Address a) with
  | Some _ => throw ErrConflict
  | None =>
      id ← (if is_empty (ad_ID a) then newID else mret (ad_ID a));
      t ← now;
      let a' := clearAddrServerFields
        {| a with ad_ID := id; ad_Status := default_str (ad_Status a) IPActive;
           ad_AddressType := default_str (ad_AddressType a) AddrHost |} in
      put_addr id {| a' with ad_CreatedAt := if IsZero (ad_CreatedAt a) then t else ad_CreatedAt a;
                     ad_UpdatedAt := t |}
  end.

Definition GetAddress (tenantID id : string) : M IPAddress :=
  m ← mem;
  match mem_addrs m !! id with
  | Some a => if ad_TenantID a =s tenantID then mret (decorateAddrLocked m a) else throw ErrNotFound
  | None => throw ErrNotFound
  end.

Definition FindAddress (tenantID address : string) : M IPAddress :=
  m ← mem;
  match findAddrLocked m tenantID address with
  | Some (_, a) => mret (decorateAddrLocked m a)
  | None => throw ErrNotFound
  end.

Definition address_matches (tenantID : string) (f : AddressFilter) (a : IPAddress) : bool :=
  (ad_TenantID a =s tenantID) &&
  (is_empty (af_SubnetID f) || (ad_SubnetID a =s af_SubnetID f)) &&
  (is_empty (af_DeviceID f) || (ad_DeviceID a =s af_DeviceID f)) &&
  (is_empty (af_Status f) || (ad_Status a =s af_Status f)) &&
  (is_empty (af_AddressType f) || (ad_AddressType a =s af_AddressType f)) &&
  (is_empty (af_AddressPrefix f) || String.prefix (af_AddressPrefix f) (ad_Address a)) &&
  (is_empty (af_HostnamePattern f) ||
   str_contains (ToLower (ad_Hostname a)) (ToLower (af_HostnamePattern f))) &&
  (is_empty (af_ReportState f) || (ad_ReportState a =s af_ReportState f)) &&
  match af_Conflict f with Some c => Bool.eqb (ad_Conflict a) c | None => true end &&
  (is_empty (af_MAC f) || str_contains (MACHex (ad_MACAddress a)) (af_MAC f)).

Definition ListAddresses (tenantID : string) (f : AddressFilter) : M (list IPAddress) :=
  fail "ListAddresses";;
  m ← mem;
  mret (paginate ad_ID (af_CursorID f) (af_Limit f)
    (decorateAddrLocked m <$> map_select (address_matches tenantID f) (mem_addrs m))).

Definition UpdateAddress (a : IPAddress) : M () :=
  fail "UpdateAddress";;
  m ← mem;
  match mem_addrs m !! ad_ID a with
  | None => throw ErrNotFound
  | Some ex =>
      if negb (ad_TenantID ex =s ad_TenantID a) then throw ErrNotFound
      else if negb (ad_Address a =s ad_Address ex) &&
              is_some (findAddrLocked m (ad_TenantID a) (ad_Address a))
      then throw ErrConflict
      else
        t ← now;
        let a' := keepAddrServerFields {| a with ad_CreatedAt := ad_CreatedAt ex |} ex in
        put_addr (ad_ID a) {| a' with ad_UpdatedAt := t |}
  end.

Definition DeleteAddress (tenantID id : string) : M () :=
  fail "DeleteAddress";;
  m ← mem;
  match mem_addrs m !! id with
  | None => throw ErrNotFound
  | Some a =>
      if negb (ad_TenantID a =s tenantID) then throw ErrNotFound
      else set_mem (λ m, {| m with mem_addrs := delete id (mem_addrs m);
             mem_hostLinks := delete (tenantID, HostKindAddress, id) (mem_hostLinks m) |})
  end.

(** What a scan may change of an existing row. *)
Definition observe_addr (ex obs : IPAddress) (t : Time) : IPAddress :=
  let reported := ad_ReportState ex =s RepReported in
  let names := negb (is_empty (ad_Hostname obs)) && negb reported in
  {| ex with
     ad_Hostname := if names then ad_Hostname obs else ad_Hostname ex;
     ad_HasReverseDNS := if names then ad_HasReverseDNS obs else ad_HasReverseDNS ex;
     ad_MACAddress := if negb (is_empty (ad_MACAddress obs)) && negb reported
                      then ad_MACAddress obs else ad_MACAddress ex;
     ad_Status := if (ad_Status ex =s IPOffline) && negb (is_empty (ad_Status obs))
                  then ad_Status obs else ad_Status ex;
     ad_LastSeen := ad_LastSeen obs;
     ad_UpdatedAt := t |}.

Definition UpsertAddressByAddress (a : IPAddress) : M bool :=
  fail "UpsertAddressByAddress";;
  t ← now;
  m ← mem;
  match findAddrLocked m (ad_TenantID a) (ad_Address a) with
  | Some (id, ex) => put_addr id (observe_addr ex a t);; mret false
  | None =>
      id ← (if is_empty (ad_ID a) then newID else mret (ad_ID a));
      let a' := clearAddrServerFields
        {| a with ad_ID := id; ad_Status := default_str (ad_Status a) IPActive;
           ad_AddressType := default_str (ad_AddressType a) AddrHost |} in
      put_addr id {| a' with ad_CreatedAt := t; ad_UpdatedAt := t |};; mret true
  end.

Definition AddressesForDevice (tenantID deviceID : string) : M (list IPAddress) :=
  fail "AddressesForDevice";;
  m ← mem;
  mret (paginate ad_ID "" 0 (decorateAddrLocked m <$>
    map_select (λ a, (ad_TenantID a =s tenantID) && (ad_DeviceID a =s deviceID)) (mem_addrs m))).
End with_env.
