(* ===== verification/MemDev.v ===== *)
(** * internal/memstore/memstore.go: devices, interfaces, links, packages

    Go leaves the iteration order of its maps open; where a loop keeps the last
    match ([ListInterfaces]) the model keeps the last in [map_to_list] order. *)

From S2P Require Import Prelude Models Store MemNet.

Section with_env.
Context `{Env}.

(** ** Devices *)

Definition on_device (tenantID deviceID : string) (a : IPAddress) : bool :=
  (ad_TenantID a =s tenantID) && (ad_DeviceID a =s deviceID).
Definition iface_of (tenantID deviceID : string) (i : DeviceInterface) : bool :=
  (di_TenantID i =s tenantID) && (di_DeviceID i =s deviceID).

Definition packages_of (m : Mem) (deviceID : string) : list DevicePackage :=
  match mem_pkgs m !! deviceID with Some l => l | None => [] end.

Definition fillDevice (m : Mem) (d : Device) : Device :=
  let pkgs := List.filter (λ p, dp_TenantID p =s dv_TenantID d) (packages_of m (dv_ID d)) in
  {| d with
     dv_HardwareSummary := match mem_hardware m !! dv_ID d with
       | Some h => if dh_TenantID h =s dv_TenantID d
                   then Some (let s := dh_Summary h in {| s with hws_ReportedAt := dh_ReportedAt h |}) else None
       | None => None
       end;
     dv_GuestCount := map_count (λ g, (hg_TenantID g =s dv_TenantID d) && (hg_HostDeviceID g =s dv_ID d))
                        (mem_guests m);
     dv_InterfaceCount := map_count (iface_of (dv_TenantID d) (dv_ID d)) (mem_ifaces m);
     dv_AddressCount := map_count (on_device (dv_TenantID d) (dv_ID d)) (mem_addrs m);
     dv_PackageUpdateCount := Z.of_nat (length (List.filter dp_NeedsUpdate pkgs));
     dv_SecurityUpdateCount := Z.of_nat (length (List.filter dp_IsSecurityUpdate pkgs)) |}.

(** [set]: the closure of [mergeDevice]. *)
Definition set_str (d s : string) : string := if is_empty s then d else s.
Definition set_int (d s : Z) : Z := if s =? 0 then d else s.
Definition set_ptr {A} (d s : option A) : option A := match s with Some _ => s | None => d end.

Definition mergeDevice (dst src : Device) : Device :=
  {| dst with
     dv_Name := set_str (dv_Name dst) (dv_Name src);
     dv_DeviceType := set_str (dv_DeviceType dst) (dv_DeviceType src);
     dv_Description := set_str (dv_Description dst) (dv_Description src);
     dv_Manufacturer := set_str (dv_Manufacturer dst) (dv_Manufacturer src);
     dv_Model := set_str (dv_Model dst) (dv_Model src);
     dv_SerialNumber := set_str (dv_SerialNumber dst) (dv_SerialNumber src);
     dv_AssetTag := set_str (dv_AssetTag dst) (dv_AssetTag src);
     dv_LocationID := set_str (dv_LocationID dst) (dv_LocationID src);
     dv_RackID := set_str (dv_RackID dst) (dv_RackID src);
     dv_Status := set_str (dv_Status dst) (dv_Status src);
     dv_PrimaryIP := set_str (dv_PrimaryIP dst) (dv_PrimaryIP src);
     dv_PrimaryIPv6 := set_str (dv_PrimaryIPv6 dst) (dv_PrimaryIPv6 src);
     dv_ManagementIP := set_str (dv_ManagementIP dst) (dv_ManagementIP src);
     dv_OSType := set_str (dv_OSType dst) (dv_OSType src);
     dv_OSVersion := set_str (dv_OSVersion dst) (dv_OSVersion src);
     dv_FirmwareVersion := set_str (dv_FirmwareVersion dst) (dv_FirmwareVersion src);
     dv_Contact := set_str (dv_Contact dst) (dv_Contact src);
     dv_IPMISecretRef := set_str (dv_IPMISecretRef dst) (dv_IPMISecretRef src);
     dv_RackPosition := set_int (dv_RackPosition dst) (dv_RackPosition src);
     dv_DeviceHeightU := set_int (dv_DeviceHeightU dst) (dv_DeviceHeightU src);
     dv_LastSeen := set_ptr (dv_LastSeen dst) (dv_LastSeen src);
     dv_Tags := set_ptr (dv_Tags dst) (dv_Tags src);
     dv_RebootRequired := dv_RebootRequired src;
     dv_UnattendedUpgrades := dv_UnattendedUpgrades src |}.

Definition keepDeviceServerFields (d ex : Device) : Device :=
  {| d with dv_Source := dv_Source ex; dv_InventoryHostID := dv_InventoryHostID ex;
     dv_VirtualizationKind := dv_VirtualizationKind ex; dv_HypervisorDeviceID := dv_HypervisorDeviceID ex;
     dv_UpdateStatus := dv_UpdateStatus ex; dv_ReportState := dv_ReportState ex;
     dv_LastReportAt := dv_LastReportAt ex; dv_ReportDigest := dv_ReportDigest ex |}.

Definition same_device_name (tenantID name : string) (d : Device) : bool :=
  (dv_TenantID d =s tenantID) && (dv_Name d =s name).

Definition put_device (k : string) (d : Device) : M () :=
  set_mem (λ m, {| m with mem_devices := <[k := d]> (mem_devices m) |}).

Definition CreateDevice (d : Device) : M () :=
  fail "CreateDevice";;
  m ← mem;
  if map_any (same_device_name (dv_TenantID d) (dv_Name d)) (mem_devices m) then throw ErrConflict
  else
    id ← (if is_empty (dv_ID d) then newID else mret (dv_ID d));
    t ← now;
    let d' := keepDeviceServerFields
      {| d with dv_ID := id; dv_Status := default_str (dv_Status d) DevStActive;
         dv_DeviceType := default_str (dv_DeviceType d) DevOther |}
      {| zero_Device with dv_Source := SrcManual; dv_UpdateStatus := UpdUnknown |} in
    put_device id {| d' with dv_CreatedAt := if IsZero (dv_CreatedAt d) then t else dv_CreatedAt d;
                     dv_UpdatedAt := t |}.

Definition GetDevice (tenantID id : string) : M Device :=
  m ← mem;
  match mem_devices m !! id with
  | Some d => if dv_TenantID d =s tenantID then mret (fillDevice m d) else throw ErrNotFound
  | None => throw ErrNotFound
  end.

Definition device_matches (m : Mem) (tenantID : string) (f : DeviceFilter) (d : Device) : bool :=
  (dv_TenantID d =s tenantID) &&
  (is_empty (df_DeviceType f) || (dv_DeviceType d =s df_DeviceType f)) &&
  (is_empty (df_Status f) || (dv_Status d =s df_Status f)) &&
  (is_empty (df_LocationID f) || (dv_LocationID d =s df_LocationID f)) &&
  (is_empty (df_Manufacturer f) || (dv_Manufacturer d =s df_Manufacturer f)) &&
  (is_empty (df_RackID f) || (dv_RackID d =s df_RackID f)) &&
  (is_empty (df_Source f) || (dv_Source d =s df_Source f)) &&
  (is_empty (df_ReportState f) || (dv_ReportState d =s df_ReportState f)) &&
  (is_empty (df_Query f) ||
   str_contains (ToLower (dv_Name d)) (ToLower (df_Query f)) ||
   str_contains (ToLower (dv_PrimaryIP d)) (ToLower (df_Query f))) &&
  let has := is_some (mem_hardware m !! dv_ID d) in
  negb ((df_HasHardware f =s "true") && negb has || (df_HasHardware f =s "false") && has).

Definition ListDevices (tenantID : string) (f : DeviceFilter) : M (list Device) :=
  m ← mem;
  mret (fillDevice m <$>
        paginate dv_ID (df_CursorID f) (df_Limit f) (map_select (device_matches m tenantID f) (mem_devices m))).

Definition UpdateDevice (d : Device) : M () :=
  fail "UpdateDevice";;
  m ← mem;
  match mem_devices m !! dv_ID d with
  | None => throw ErrNotFound
  | Some ex =>
      if negb (dv_TenantID ex =s dv_TenantID d) then throw ErrNotFound
      else if map_any (λ o, negb (dv_ID o =s dv_ID d) && same_device_name (dv_TenantID d) (dv_Name d) o)
                (mem_devices m)
      then throw ErrConflict
      else
        t ← now;
        let d' := keepDeviceServerFields {| d with dv_CreatedAt := dv_CreatedAt ex |} ex in
        put_device (dv_ID d) {| d' with dv_UpdatedAt := t |}
  end.

(** [deleteDeviceHostSyncLocked] (memstore/hostsync.go). *)
Definition deleteDeviceHostSyncLocked (id : string) (m : Mem) : Mem :=
  {| m with
     mem_devState := delete id (mem_devState m);
     mem_hardware := delete id (mem_hardware m);
     mem_guests := map_update_where (λ g, hg_GuestDeviceID g =s id) (λ g, {| g with hg_GuestDeviceID := "" |})
                     (map_delete_where (λ g, hg_HostDeviceID g =s id) (mem_guests m));
     mem_devices := map_update_where (λ d, dv_HypervisorDeviceID d =s id)
                      (λ d, {| d with dv_HypervisorDeviceID := "" |}) (mem_devices m) |}.

Definition DeleteDevice (tenantID id : string) (force : bool) : M () :=
  fail "DeleteDevice";;
  m ← mem;
  match mem_devices m !! id with
  | None => throw ErrNotFound
  | Some d =>
      if negb (dv_TenantID d =s tenantID) then throw ErrNotFound
      else
        let ifaceIDs := keys_where (iface_of tenantID id) (mem_ifaces m) in
        let boundAddrs := map_count (on_device tenantID id) (mem_addrs m) in
        if ((0 <? Z.of_nat (length ifaceIDs)) || (0 <? boundAddrs)) && negb force then throw ErrNotEmpty
        else
          set_mem (λ m, {| m with
            mem_ifaces := map_delete_where (iface_of tenantID id) (mem_ifaces m);
            mem_links := foldr (λ iid acc, delete iid acc) (mem_links m) ifaceIDs;
            mem_hostLinks := drop_host_links tenantID HostKindInterface ifaceIDs (mem_hostLinks m);
            mem_pkgs := delete id (mem_pkgs m) |});;
          set_mem (deleteDeviceHostSyncLocked id);;
          set_mem (λ m, {| m with
            mem_addrs := map_update_where (on_device tenantID id) (λ a, {| a with ad_DeviceID := "" |})
                           (mem_addrs m);
            mem_hostMembers := map_delete_where
              (λ hm, (hm_TenantID hm =s tenantID) && (hm_DeviceID hm =s id)) (mem_hostMembers m);
            mem_devices := delete id (mem_devices m) |})
  end.

Definition UpsertDeviceByName (d : Device) : M Device :=
  fail "UpsertDeviceByName";;
  t ← now;
  m ← mem;
  match map_find (same_device_name (dv_TenantID d) (dv_Name d)) (mem_devices m) with
  | Some (id, ex) =>
      let merged := if dv_Source ex =s SrcHostReport then FillEmptyDevice ex d else mergeDevice ex d in
      let kept := keepDeviceServerFields {| merged with dv_ID := id; dv_TenantID := dv_TenantID ex |} ex in
      let row := {| kept with dv_CreatedAt := dv_CreatedAt ex; dv_UpdatedAt := t |} in
      put_device id row;; m' ← mem; mret (fillDevice m' row)
  | None =>
      id ← (if is_empty (dv_ID d) then newID else mret (dv_ID d));
      let d' := keepDeviceServerFields
        {| d with dv_ID := id; dv_Status := default_str (dv_Status d) DevStActive;
           dv_DeviceType := default_str (dv_DeviceType d) DevOther |}
        {| zero_Device with dv_Source := SrcScan; dv_UpdateStatus := UpdUnknown |} in
      let row := {| d' with dv_CreatedAt := t; dv_UpdatedAt := t |} in
      put_device id row;; m' ← mem; mret (fillDevice m' row)
  end.

(** [SetDeviceBMCRef] (memstore/bmc.go). *)
Definition appendAuditLocked (row : AuditRow) : M () :=
  id ← (if is_empty (ar_ID row) then newID else mret (ar_ID row));
  at_ ← (if IsZero (ar_At row) then now else mret (ar_At row));
  set_mem (λ m, {| m with mem_audit := mem_audit m ++ [{| row with ar_ID := id; ar_At := at_ |}] |}).

Definition SetDeviceBMCRef (tenantID deviceID ref : string) (audit : AuditRow) : M string :=
  fail "SetDeviceBMCRef";;
  m ← mem;
  match mem_devices m !! deviceID with
  | None => throw ErrNotFound
  | Some d =>
      if negb (dv_TenantID d =s tenantID) then throw ErrNotFound
      else
        t ← now;
        put_device deviceID {| d with dv_IPMISecretRef := ref; dv_UpdatedAt := t |};;
        appendAuditLocked {| audit with ar_TenantID := tenantID |};;
        mret (dv_IPMISecretRef d)
  end.

(** ** Interfaces and links *)

Definition same_iface_name (deviceID name : string) (i : DeviceInterface) : bool :=
  (di_DeviceID i =s deviceID) && (di_Name i =s name).

Definition put_iface (k : string) (i : DeviceInterface) : M () :=
  set_mem (λ m, {| m with mem_ifaces := <[k := i]> (mem_ifaces m) |}).

Definition CreateInterface (i : DeviceInterface) : M () :=
  fail "CreateInterface";;
  m ← mem;
  if map_any (same_iface_name (di_DeviceID i) (di_Name i)) (mem_ifaces m) then throw ErrConflict
  else
    id ← (if is_empty (di_ID i) then newID else mret (di_ID i));
    t ← now;
    put_iface id {| i with di_ID := id; di_ReportState := "";
                    di_CreatedAt := if IsZero (di_CreatedAt i) then t else di_CreatedAt i;
                    di_UpdatedAt := t |}.

Definition GetInterface (tenantID id : string) : M DeviceInterface :=
  m ← mem;
  match mem_ifaces m !! id with
  | Some i => if di_TenantID i =s tenantID then mret i else throw ErrNotFound
  | None => throw ErrNotFound
  end.

Definition behindAddressesLocked (m : Mem) (tenantID portID : string) : list BehindAddress :=
  sort_by (λ x y, str_ltb (ba_Address x) (ba_Address y))
    ((λ a, {| ba_AddressID := ad_ID a; ba_Address := ad_Address a; ba_Hostname := ad_Hostname a |}) <$>
     map_select (λ a, (ad_TenantID a =s tenantID) &&
       (match ad_Link a with Some l => al_PortID l =s portID | None => false end ||
        linkedToLocked m tenantID HostKindAddress (ad_ID a) portID)) (mem_addrs m)).

Definition decorateInterface (m : Mem) (tenantID : string) (i : DeviceInterface) : DeviceInterface :=
  let remote := match mem_devices m !! di_RemoteDeviceID i with
    | Some d => if dv_TenantID d =s tenantID then dv_Name d else di_RemoteDeviceName i
    | None => di_RemoteDeviceName i
    end in
  let behind := last (map_select (λ h, (di_TenantID h =s tenantID) &&
      ((di_RemoteInterfaceID h =s di_ID i) ||
       linkedToLocked m tenantID HostKindInterface (di_ID h) (di_ID i))) (mem_ifaces m)) in
  {| i with di_RemoteDeviceName := remote;
     di_BehindDeviceID := match behind with Some h => di_DeviceID h | None => di_BehindDeviceID i end;
     di_BehindDeviceName := match behind with
       | Some h => device_name m (di_DeviceID h) | None => di_BehindDeviceName i end;
     di_BehindAddresses := behindAddressesLocked m tenantID (di_ID i);
     di_Links := hostLinksLocked m tenantID HostKindInterface (di_ID i) (di_RemoteInterfaceID i) |}.

Definition ListInterfaces (tenantID deviceID : string) : M (list DeviceInterface) :=
  m ← mem;
  mret (paginate di_ID "" 0
    (decorateInterface m tenantID <$> map_select (iface_of tenantID deviceID) (mem_ifaces m))).

Definition UpsertInterfaceByName (i : DeviceInterface) : M DeviceInterface :=
  fail "UpsertInterfaceByName";;
  t ← now;
  m ← mem;
  match map_find (same_iface_name (di_DeviceID i) (di_Name i)) (mem_ifaces m) with
  | Some (id, ex) =>
      let row := {| i with di_ID := id; di_CreatedAt := di_CreatedAt ex; di_ReportState := di_ReportState ex;
                    di_UpdatedAt := t |} in
      put_iface id row;; mret row
  | None =>
      id ← (if is_empty (di_ID i) then newID else mret (di_ID i));
      let row := {| i with di_ID := id; di_CreatedAt := t; di_UpdatedAt := t |} in
      put_iface id row;; mret row
  end.

Definition DeleteInterface (tenantID id : string) : M () :=
  fail "DeleteInterface";;
  m ← mem;
  match mem_ifaces m !! id with
  | None => throw ErrNotFound
  | Some i =>
      if negb (di_TenantID i =s tenantID) then throw ErrNotFound
      else set_mem (λ m, {| m with mem_ifaces := delete id (mem_ifaces m);
             mem_links := delete id (mem_links m);
             mem_hostLinks := delete (tenantID, HostKindInterface, id) (mem_hostLinks m) |})
  end.

(** The copy loop of [ReplaceInterfaceLinks]: [uniq] holds the keys seen. *)
Fixpoint copy_links (tenantID interfaceID : string) (uniq : gset (string * string * string))
    (links : list DeviceInterfaceLink) : M (list DeviceInterfaceLink) :=
  match links with
  | [] => mret []
  | l :: rest =>
      let k := (dl_LinkSource l, dl_RemoteDeviceID l, dl_RemotePortName l) in
      if decide (k ∈ uniq) then throw ErrConflict
      else
        id ← (if is_empty (dl_ID l) then newID else mret (dl_ID l));
        cp ← copy_links tenantID interfaceID ({[k]} ∪ uniq) rest;
        mret ({| l with dl_ID := id; dl_TenantID := tenantID; dl_InterfaceID := interfaceID |} :: cp)
  end.

Definition ReplaceInterfaceLinks (tenantID interfaceID : string) (links : list DeviceInterfaceLink) : M () :=
  fail "ReplaceInterfaceLinks";;
  m ← mem;
  match mem_ifaces m !! interfaceID with
  | None => throw ErrNotFound
  | Some i =>
      if negb (di_TenantID i =s tenantID) then throw ErrNotFound
      else
        cp ← copy_links tenantID interfaceID ∅ links;
        set_mem (λ m, {| m with mem_links := <[interfaceID := cp]> (mem_links m) |})
  end.

Definition ListInterfaceLinks (tenantID interfaceID : string) : M (list DeviceInterfaceLink) :=
  m ← mem;
  let stored := match mem_links m !! interfaceID with Some l => l | None => [] end in
  mret (sort_by (λ a b, str_ltb (dl_ID a) (dl_ID b))
          (List.filter (λ l, dl_TenantID l =s tenantID) stored)).

(** ** Packages *)

Fixpoint copy_packages (tenantID deviceID : string) (t : Time) (seen : gset string)
    (pkgs : list DevicePackage) : M (list DevicePackage) :=
  match pkgs with
  | [] => mret []
  | p :: rest =>
      if decide (dp_Name p ∈ seen) then throw ErrConflict
      else
        id ← (if is_empty (dp_ID p) then newID else mret (dp_ID p));
        cp ← copy_packages tenantID deviceID t ({[dp_Name p]} ∪ seen) rest;
        mret ({| p with dp_ID := id; dp_TenantID := tenantID; dp_DeviceID := deviceID;
                 dp_CreatedAt := if IsZero (dp_CreatedAt p) then t else dp_CreatedAt p;
                 dp_UpdatedAt := t |} :: cp)
  end.

Definition ReplaceDevicePackages (tenantID deviceID : string) (pkgs : list DevicePackage) : M () :=
  fail "ReplaceDevicePackages";;
  t ← now;
  cp ← copy_packages tenantID deviceID t ∅ pkgs;
  set_mem (λ m, {| m with mem_pkgs := <[deviceID := cp]> (mem_pkgs m) |}).

Definition opt_bool_ok (want : option bool) (b : bool) : bool :=
  match want with Some w => Bool.eqb b w | None => true end.

Definition ListDevicePackages (tenantID deviceID : string) (needsUpdate securityOnly : option bool)
    (manager : string) : M (list DevicePackage) :=
  m ← mem;
  mret (sort_by (λ a b, str_ltb (dp_Name a) (dp_Name b))
    (List.filter (λ p, (dp_TenantID p =s tenantID) && opt_bool_ok needsUpdate (dp_NeedsUpdate p) &&
        opt_bool_ok securityOnly (dp_IsSecurityUpdate p) &&
        (is_empty manager || (dp_PackageManager p =s manager))) (packages_of m deviceID))).

Definition DeleteDevicePackages (tenantID deviceID : string) : M () :=
  fail "DeleteDevicePackages";;
  set_mem (λ m, {| m with mem_pkgs := delete deviceID (mem_pkgs m) |}).
End with_env.
