(* ===== verification/MemCat.v ===== *)
(** * internal/memstore/memstore.go: VLANs, locations, IP groups, host groups *)

From S2P Require Import Prelude Models Store MemNet.

Section with_env.
Context `{Env}.

(** ** VLANs *)

Definition fillVlan (m : Mem) (v : Vlan) : Vlan :=
  {| v with vl_SubnetCount :=
       map_count (λ s, (sn_TenantID s =s vl_TenantID v) && (sn_VlanID s =s vl_ID v)) (mem_subnets m) |}.

Definition put_vlan (k : string) (v : Vlan) : M () :=
  set_mem (λ m, {| m with mem_vlans := <[k := v]> (mem_vlans m) |}).

Definition CreateVlan (v : Vlan) : M () :=
  fail "CreateVlan";;
  m ← mem;
  if map_any (λ ex, (vl_TenantID ex =s vl_TenantID v) &&
                    ((vl_VlanID ex =? vl_VlanID v) || (vl_Name ex =s vl_Name v))) (mem_vlans m)
  then throw ErrConflict
  else
    id ← (if is_empty (vl_ID v) then newID else mret (vl_ID v));
    t ← now;
    put_vlan id {| v with vl_ID := id; vl_Status := default_str (vl_Status v) VlanActive;
                   vl_CreatedAt := if IsZero (vl_CreatedAt v) then t else vl_CreatedAt v;
                   vl_UpdatedAt := t |}.

Definition GetVlan (tenantID id : string) : M Vlan :=
  m ← mem;
  match mem_vlans m !! id with
  | Some v => if vl_TenantID v =s tenantID then mret (fillVlan m v) else throw ErrNotFound
  | None => throw ErrNotFound
  end.

Definition vlan_matches (tenantID : string) (f : VlanFilter) (v : Vlan) : bool :=
  (vl_TenantID v =s tenantID) &&
  (is_empty (vf_LocationID f) || (vl_LocationID v =s vf_LocationID f)) &&
  (is_empty (vf_Domain f) || (vl_Domain v =s vf_Domain f)) &&
  (is_empty (vf_Status f) || (vl_Status v =s vf_Status f)) &&
  ((vf_VlanIDMin f =? 0) || (vf_VlanIDMin f <=? vl_VlanID v)) &&
  ((vf_VlanIDMax f =? 0) || (vl_VlanID v <=? vf_VlanIDMax f)).

Definition ListVlans (tenantID : string) (f : VlanFilter) : M (list Vlan) :=
  m ← mem;
  mret (fillVlan m <$>
        paginate vl_ID (vf_CursorID f) (vf_Limit f) (map_select (vlan_matches tenantID f) (mem_vlans m))).

Definition UpdateVlan (v : Vlan) : M () :=
  fail "UpdateVlan";;
  m ← mem;
  match mem_vlans m !! vl_ID v with
  | None => throw ErrNotFound
  | Some ex =>
      if negb (vl_TenantID ex =s vl_TenantID v) then throw ErrNotFound
      else if map_any (λ o, negb (vl_ID o =s vl_ID v) && (vl_TenantID o =s vl_TenantID v) &&
                            ((vl_VlanID o =? vl_VlanID v) || (vl_Name o =s vl_Name v))) (mem_vlans m)
      then throw ErrConflict
      else t ← now; put_vlan (vl_ID v) {| v with vl_CreatedAt := vl_CreatedAt ex; vl_UpdatedAt := t |}
  end.

Definition DeleteVlan (tenantID id : string) (force : bool) : M () :=
  fail "DeleteVlan";;
  m ← mem;
  match mem_vlans m !! id with
  | None => throw ErrNotFound
  | Some v =>
      if negb (vl_TenantID v =s tenantID) then throw ErrNotFound
      else
        let bound := λ s, (sn_TenantID s =s tenantID) && (sn_VlanID s =s id) in
        if map_any bound (mem_subnets m) && negb force then throw ErrNotEmpty
        else set_mem (λ m, {| m with
               mem_subnets := map_update_where bound (λ s, {| s with sn_VlanID := "" |}) (mem_subnets m);
               mem_vlans := delete id (mem_vlans m) |})
  end.

(** ** Locations *)

Definition child_loc (tenantID id : string) (c : Location) : bool :=
  (lc_TenantID c =s tenantID) && (lc_ParentID c =s id).
Definition dev_at (tenantID id : string) (d : Device) : bool :=
  (dv_TenantID d =s tenantID) && (dv_LocationID d =s id).
Definition subnet_at (tenantID id : string) (s : Subnet) : bool :=
  (sn_TenantID s =s tenantID) && (sn_LocationID s =s id).
Definition vlan_at (tenantID id : string) (v : Vlan) : bool :=
  (vl_TenantID v =s tenantID) && (vl_LocationID v =s id).

Definition fillLocation (m : Mem) (l : Location) : Location :=
  {| l with
     lc_ChildCount := map_count (child_loc (lc_TenantID l) (lc_ID l)) (mem_locs m);
     lc_DeviceCount := map_count (dev_at (lc_TenantID l) (lc_ID l)) (mem_devices m);
     lc_SubnetCount := map_count (subnet_at (lc_TenantID l) (lc_ID l)) (mem_subnets m);
     lc_VlanCount := map_count (vlan_at (lc_TenantID l) (lc_ID l)) (mem_vlans m) |}.

Definition put_loc (k : string) (l : Location) : M () :=
  set_mem (λ m, {| m with mem_locs := <[k := l]> (mem_locs m) |}).

(** The name or (non-empty) code of [l] is already taken by [ex]. *)
Definition loc_clash (l ex : Location) : bool :=
  (lc_TenantID ex =s lc_TenantID l) &&
  ((lc_Name ex =s lc_Name l) || negb (is_empty (lc_Code l)) && (lc_Code ex =s lc_Code l)).

Definition CreateLocation (l : Location) : M () :=
  fail "CreateLocation";;
  m ← mem;
  if map_any (loc_clash l) (mem_locs m) then throw ErrConflict
  else
    id ← (if is_empty (lc_ID l) then newID else mret (lc_ID l));
    t ← now;
    put_loc id {| l with lc_ID := id; lc_Status := default_str (lc_Status l) LocStActive;
                  lc_CreatedAt := if IsZero (lc_CreatedAt l) then t else lc_CreatedAt l;
                  lc_UpdatedAt := t |}.

Definition GetLocation (tenantID id : string) : M Location :=
  m ← mem;
  match mem_locs m !! id with
  | Some l => if lc_TenantID l =s tenantID then mret (fillLocation m l) else throw ErrNotFound
  | None => throw ErrNotFound
  end.

Definition location_matches (tenantID : string) (f : LocationFilter) (l : Location) : bool :=
  (lc_TenantID l =s tenantID) &&
  (is_empty (lf_ParentID f) || (lc_ParentID l =s lf_ParentID f)) &&
  (is_empty (lf_LocationType f) || (lc_LocationType l =s lf_LocationType f)) &&
  (is_empty (lf_Country f) || (lc_Country l =s lf_Country f)) &&
  (is_empty (lf_Status f) || (lc_Status l =s lf_Status f)).

Definition ListLocations (tenantID : string) (f : LocationFilter) : M (list Location) :=
  m ← mem;
  mret (fillLocation m <$>
        paginate lc_ID (lf_CursorID f) (lf_Limit f) (map_select (location_matches tenantID f) (mem_locs m))).

Definition UpdateLocation (l : Location) : M () :=
  fail "UpdateLocation";;
  m ← mem;
  match mem_locs m !! lc_ID l with
  | None => throw ErrNotFound
  | Some ex =>
      if negb (lc_TenantID ex =s lc_TenantID l) then throw ErrNotFound
      else if map_any (λ o, negb (lc_ID o =s lc_ID l) && loc_clash l o) (mem_locs m)
      then throw ErrConflict
      else t ← now; put_loc (lc_ID l) {| l with lc_CreatedAt := lc_CreatedAt ex; lc_UpdatedAt := t |}
  end.

Definition DeleteLocation (tenantID id : string) (force : bool) : M () :=
  fail "DeleteLocation";;
  m ← mem;
  match mem_locs m !! id with
  | None => throw ErrNotFound
  | Some l =>
      if negb (lc_TenantID l =s tenantID) then throw ErrNotFound
      else
        let referenced := map_any (child_loc tenantID id) (mem_locs m) ||
          map_any (dev_at tenantID id) (mem_devices m) ||
          map_any (subnet_at tenantID id) (mem_subnets m) ||
          map_any (vlan_at tenantID id) (mem_vlans m) in
        if referenced && negb force then throw ErrNotEmpty
        else set_mem (λ m, {| m with
          mem_locs := delete id (map_update_where (child_loc tenantID id)
                        (λ c, {| c with lc_ParentID := "" |}) (mem_locs m));
          mem_devices := map_update_where (dev_at tenantID id)
                           (λ d, {| d with dv_LocationID := "" |}) (mem_devices m);
          mem_subnets := map_update_where (subnet_at tenantID id)
                           (λ s, {| s with sn_LocationID := "" |}) (mem_subnets m);
          mem_vlans := map_update_where (vlan_at tenantID id)
                         (λ v, {| v with vl_LocationID := "" |}) (mem_vlans m) |})
  end.

(** ** IP groups *)

Definition ip_member_of (tenantID groupID : string) (x : IPGroupMember) : bool :=
  (im_TenantID x =s tenantID) && (im_IPGroupID x =s groupID).

Definition ipGroupMemberCount (m : Mem) (tenantID groupID : string) : Z :=
  map_count (ip_member_of tenantID groupID) (mem_ipMembers m).

Definition put_ipGroup (k : string) (g : IPGroup) : M () :=
  set_mem (λ m, {| m with mem_ipGroups := <[k := g]> (mem_ipGroups m) |}).
Definition put_ipMember (k : string) (x : IPGroupMember) : M () :=
  set_mem (λ m, {| m with mem_ipMembers := <[k := x]> (mem_ipMembers m) |}).

Definition CreateIPGroup (g : IPGroup) : M () :=
  fail "CreateIPGroup";;
  m ← mem;
  if map_any (λ ex, (ig_TenantID ex =s ig_TenantID g) && (ig_Name ex =s ig_Name g)) (mem_ipGroups m)
  then throw ErrConflict
  else
    id ← (if is_empty (ig_ID g) then newID else mret (ig_ID g));
    t ← now;
    put_ipGroup id {| g with ig_ID := id; ig_Status := default_str (ig_Status g) GroupActive;
                      ig_CreatedAt := if IsZero (ig_CreatedAt g) then t else ig_CreatedAt g;
                      ig_UpdatedAt := t |}.

Definition GetIPGroup (tenantID id : string) : M IPGroup :=
  m ← mem;
  match mem_ipGroups m !! id with
  | Some g => if ig_TenantID g =s tenantID
              then mret {| g with ig_MemberCount := ipGroupMemberCount m tenantID id |} else throw ErrNotFound
  | None => throw ErrNotFound
  end.

Definition ListIPGroups (tenantID : string) (limit : Z) (cursorID : string) : M (list IPGroup) :=
  m ← mem;
  mret ((λ g, {| g with ig_MemberCount := ipGroupMemberCount m tenantID (ig_ID g) |}) <$>
        paginate ig_ID cursorID limit (map_select (λ g, ig_TenantID g =s tenantID) (mem_ipGroups m))).

Definition UpdateIPGroup (g : IPGroup) : M () :=
  fail "UpdateIPGroup";;
  m ← mem;
  match mem_ipGroups m !! ig_ID g with
  | None => throw ErrNotFound
  | Some ex =>
      if negb (ig_TenantID ex =s ig_TenantID g) then throw ErrNotFound
      else if map_any (λ o, negb (ig_ID o =s ig_ID g) && (ig_TenantID o =s ig_TenantID g) &&
                            (ig_Name o =s ig_Name g)) (mem_ipGroups m)
      then throw ErrConflict
      else t ← now; put_ipGroup (ig_ID g) {| g with ig_CreatedAt := ig_CreatedAt ex; ig_UpdatedAt := t |}
  end.

Definition DeleteIPGroup (tenantID id : string) : M () :=
  fail "DeleteIPGroup";;
  m ← mem;
  match mem_ipGroups m !! id with
  | None => throw ErrNotFound
  | Some g =>
      if negb (ig_TenantID g =s tenantID) then throw ErrNotFound
      else set_mem (λ m, {| m with
             mem_ipMembers := map_delete_where (λ x, im_IPGroupID x =s id) (mem_ipMembers m);
             mem_ipGroups := delete id (mem_ipGroups m) |})
  end.

Definition AddIPGroupMember (x : IPGroupMember) : M () :=
  fail "AddIPGroupMember";;
  m ← mem;
  match mem_ipGroups m !! im_IPGroupID x with
  | None => throw ErrNotFound
  | Some g =>
      if negb (ig_TenantID g =s im_TenantID x) then throw ErrNotFound
      else if map_any (λ ex, (im_IPGroupID ex =s im_IPGroupID x) && (im_Value ex =s im_Value x))
                (mem_ipMembers m)
      then throw ErrConflict
      else
        id ← (if is_empty (im_ID x) then newID else mret (im_ID x));
        put_ipMember id {| x with im_ID := id; im_MemberType := default_str (im_MemberType x) MemberAddress |}
  end.

Definition RemoveIPGroupMember (tenantID memberID : string) : M () :=
  fail "RemoveIPGroupMember";;
  m ← mem;
  match mem_ipMembers m !! memberID with
  | None => throw ErrNotFound
  | Some x =>
      if negb (im_TenantID x =s tenantID) then throw ErrNotFound
      else set_mem (λ m, {| m with mem_ipMembers := delete memberID (mem_ipMembers m) |})
  end.

Definition UpdateIPGroupMember (x : IPGroupMember) : M () :=
  fail "UpdateIPGroupMember";;
  m ← mem;
  match mem_ipMembers m !! im_ID x with
  | None => throw ErrNotFound
  | Some ex =>
      if negb (im_TenantID ex =s im_TenantID x) then throw ErrNotFound
      else if map_any (λ o, negb (im_ID o =s im_ID x) && (im_IPGroupID o =s im_IPGroupID ex) &&
                            (im_Value o =s im_Value x)) (mem_ipMembers m)
      then throw ErrConflict
      else put_ipMember (im_ID x) {| x with im_IPGroupID := im_IPGroupID ex |}
  end.

Definition ip_member_less (a b : IPGroupMember) : bool :=
  if negb (im_Sequence a =? im_Sequence b) then im_Sequence a <? im_Sequence b
  else str_ltb (im_ID a) (im_ID b).

Definition ListIPGroupMembers (tenantID groupID : string) : M (list IPGroupMember) :=
  m ← mem;
  mret (sort_by ip_member_less (map_select (ip_member_of tenantID groupID) (mem_ipMembers m))).

(** The groups (all when none is named) and the members of each group, keyed
    by group id. *)
Definition AllIPGroupsWithMembers (tenantID : string) (groupIDs : list string)
  : M (list IPGroup * gmap string (list IPGroupMember)) :=
  m ← mem;
  let want := λ id, match groupIDs with [] => true | _ => existsb (String.eqb id) groupIDs end in
  let groups := paginate ig_ID "" 0
    ((λ g, {| g with ig_MemberCount := ipGroupMemberCount m tenantID (ig_ID g) |}) <$>
     map_select (λ g, (ig_TenantID g =s tenantID) && want (ig_ID g)) (mem_ipGroups m)) in
  let mems := map_select (λ x, (im_TenantID x =s tenantID) && want (im_IPGroupID x)) (mem_ipMembers m) in
  let grouped := foldr (λ x acc, <[im_IPGroupID x := x :: default [] (acc !! im_IPGroupID x)]> acc)
                   (∅ : gmap string (list IPGroupMember)) mems in
  mret (groups, sort_by ip_member_less <$> grouped).

(** ** Host groups *)

Definition host_member_of (tenantID groupID : string) (x : HostGroupMember) : bool :=
  (hm_TenantID x =s tenantID) && (hm_HostGroupID x =s groupID).

Definition hostGroupMemberCount (m : Mem) (tenantID groupID : string) : Z :=
  map_count (host_member_of tenantID groupID) (mem_hostMembers m).

Definition put_hostGroup (k : string) (g : HostGroup) : M () :=
  set_mem (λ m, {| m with mem_hostGroups := <[k := g]> (mem_hostGroups m) |}).
Definition put_hostMember (k : string) (x : HostGroupMember) : M () :=
  set_mem (λ m, {| m with mem_hostMembers := <[k := x]> (mem_hostMembers m) |}).

Definition CreateHostGroup (g : HostGroup) : M () :=
  fail "CreateHostGroup";;
  m ← mem;
  if map_any (λ ex, (hgr_TenantID ex =s hgr_TenantID g) && (hgr_Name ex =s hgr_Name g)) (mem_hostGroups m)
  then throw ErrConflict
  else
    id ← (if is_empty (hgr_ID g) then newID else mret (hgr_ID g));
    t ← now;
    put_hostGroup id {| g with hgr_ID := id; hgr_Status := default_str (hgr_Status g) GroupActive;
                        hgr_CreatedAt := if IsZero (hgr_CreatedAt g) then t else hgr_CreatedAt g;
                        hgr_UpdatedAt := t |}.

Definition GetHostGroup (tenantID id : string) : M HostGroup :=
  m ← mem;
  match mem_hostGroups m !! id with
  | Some g => if hgr_TenantID g =s tenantID
              then mret {| g with hgr_MemberCount := hostGroupMemberCount m tenantID id |}
              else throw ErrNotFound
  | None => throw ErrNotFound
  end.

Definition ListHostGroups (tenantID : string) (limit : Z) (cursorID : string) : M (list HostGroup) :=
  m ← mem;
  mret ((λ g, {| g with hgr_MemberCount := hostGroupMemberCount m tenantID (hgr_ID g) |}) <$>
        paginate hgr_ID cursorID limit (map_select (λ g, hgr_TenantID g =s tenantID) (mem_hostGroups m))).

Definition UpdateHostGroup (g : HostGroup) : M () :=
  fail "UpdateHostGroup";;
  m ← mem;
  match mem_hostGroups m !! hgr_ID g with
  | None => throw ErrNotFound
  | Some ex =>
      if negb (hgr_TenantID ex =s hgr_TenantID g) then throw ErrNotFound
      else if map_any (λ o, negb (hgr_ID o =s hgr_ID g) && (hgr_TenantID o =s hgr_TenantID g) &&
                            (hgr_Name o =s hgr_Name g)) (mem_hostGroups m)
      then throw ErrConflict
      else t ← now; put_hostGroup (hgr_ID g) {| g with hgr_CreatedAt := hgr_CreatedAt ex; hgr_UpdatedAt := t |}
  end.

Definition DeleteHostGroup (tenantID id : string) : M () :=
  fail "DeleteHostGroup";;
  m ← mem;
  match mem_hostGroups m !! id with
  | None => throw ErrNotFound
  | Some g =>
      if negb (hgr_TenantID g =s tenantID) then throw ErrNotFound
      else set_mem (λ m, {| m with
             mem_hostMembers := map_delete_where (λ x, hm_HostGroupID x =s id) (mem_hostMembers m);
             mem_hostGroups := delete id (mem_hostGroups m) |})
  end.

Definition AddHostGroupMember (x : HostGroupMember) : M () :=
  fail "AddHostGroupMember";;
  m ← mem;
  match mem_hostGroups m !! hm_HostGroupID x with
  | None => throw ErrNotFound
  | Some g =>
      if negb (hgr_TenantID g =s hm_TenantID x) then throw ErrNotFound
      else if map_any (λ ex, (hm_HostGroupID ex =s hm_HostGroupID x) && (hm_DeviceID ex =s hm_DeviceID x))
                (mem_hostMembers m)
      then throw ErrConflict
      else
        id ← (if is_empty (hm_ID x) then newID else mret (hm_ID x));
        put_hostMember id {| x with hm_ID := id |}
  end.

Definition RemoveHostGroupMember (tenantID memberID : string) : M () :=
  fail "RemoveHostGroupMember";;
  m ← mem;
  match mem_hostMembers m !! memberID with
  | None => throw ErrNotFound
  | Some x =>
      if negb (hm_TenantID x =s tenantID) then throw ErrNotFound
      else set_mem (λ m, {| m with mem_hostMembers := delete memberID (mem_hostMembers m) |})
  end.

Definition UpdateHostGroupMember (x : HostGroupMember) : M () :=
  fail "UpdateHostGroupMember";;
  m ← mem;
  match mem_hostMembers m !! hm_ID x with
  | None => throw ErrNotFound
  | Some ex =>
      if negb (hm_TenantID ex =s hm_TenantID x) then throw ErrNotFound
      else if map_any (λ o, negb (hm_ID o =s hm_ID x) && (hm_HostGroupID o =s hm_HostGroupID ex) &&
                            (hm_DeviceID o =s hm_DeviceID x)) (mem_hostMembers m)
      then throw ErrConflict
      else put_hostMember (hm_ID x) {| x with hm_HostGroupID := hm_HostGroupID ex |}
  end.

Definition enrichHostMember (m : Mem) (x : HostGroupMember) : HostGroupMember :=
  match mem_devices m !! hm_DeviceID x with
  | Some d => {| x with hm_DeviceName := dv_Name d; hm_DeviceType := dv_DeviceType d;
                 hm_DeviceStatus := dv_Status d; hm_DevicePrimaryIP := dv_PrimaryIP d |}
  | None => x
  end.

Definition host_member_less (a b : HostGroupMember) : bool :=
  if negb (hm_Sequence a =? hm_Sequence b) then hm_Sequence a <? hm_Sequence b
  else str_ltb (hm_ID a) (hm_ID b).

Definition ListHostGroupMembers (tenantID groupID : string) : M (list HostGroupMember) :=
  m ← mem;
  mret (sort_by host_member_less
    (enrichHostMember m <$> map_select (host_member_of tenantID groupID) (mem_hostMembers m))).

Definition ListDeviceHostGroups (tenantID deviceID : string) : M (list HostGroup) :=
  m ← mem;
  let ids : gset string := list_to_set (hm_HostGroupID <$>
    map_select (λ x, (hm_TenantID x =s tenantID) && (hm_DeviceID x =s deviceID)) (mem_hostMembers m)) in
  let found := omap (λ id, match mem_hostGroups m !! id with
      | Some g => if hgr_TenantID g =s tenantID
                  then Some {| g with hgr_MemberCount := hostGroupMemberCount m tenantID id |} else None
      | None => None
      end) (elements ids) in
  mret (paginate hgr_ID "" 0 found).
End with_env.
