(* ===== verification/MemScan.v ===== *)
(** * internal/memstore: the scan queue, DNS settings, statistics, audit, ARP
      and SNMP tables (memstore.go, arp.go, snmp.go) *)

From Stdlib Require Import SpecFloat.
From S2P Require Import Prelude GoIP Ipnet Models Store Hostreport MemNet MemDev.

Section with_env.
Context `{Env}.

(** ** Scan jobs *)

Definition put_scan (k : string) (j : IPScanJob) : M () :=
  set_mem (λ m, {| m with mem_scans := <[k := j]> (mem_scans m) |}).

Definition CreateScanJob (j : IPScanJob) : M () :=
  fail "CreateScanJob";;
  id ← (if is_empty (sj_ID j) then newID else mret (sj_ID j));
  t ← now;
  put_scan id {| j with sj_ID := id;
    sj_Status := default_str (sj_Status j) ScanPending;
    sj_TriggeredBy := default_str (sj_TriggeredBy j) TriggerManual;
    sj_MaxRetries := if sj_MaxRetries j =? 0 then 3 else sj_MaxRetries j;
    sj_TimeoutMs := if sj_TimeoutMs j =? 0 then 1000 else sj_TimeoutMs j;
    sj_Concurrency := if sj_Concurrency j =? 0 then 50 else sj_Concurrency j;
    sj_CreatedAt := if IsZero (sj_CreatedAt j) then t else sj_CreatedAt j;
    sj_UpdatedAt := t |}.

Definition GetScanJob (tenantID id : string) : M IPScanJob :=
  m ← mem;
  match mem_scans m !! id with
  | Some j => if sj_TenantID j =s tenantID then mret j else throw ErrNotFound
  | None => throw ErrNotFound
  end.

Definition scan_matches (tenantID : string) (f : ScanFilter) (j : IPScanJob) : bool :=
  (sj_TenantID j =s tenantID) &&
  (is_empty (scf_SubnetID f) || (sj_SubnetID j =s scf_SubnetID f)) &&
  (is_empty (scf_Status f) || (sj_Status j =s scf_Status f)).

Definition ListScanJobs (tenantID : string) (f : ScanFilter) : M (list IPScanJob) :=
  m ← mem;
  mret (paginate sj_ID (scf_CursorID f) (scf_Limit f) (map_select (scan_matches tenantID f) (mem_scans m))).

Definition UpdateScanJob (j : IPScanJob) : M () :=
  fail "UpdateScanJob";;
  m ← mem;
  match mem_scans m !! sj_ID j with
  | None => throw ErrNotFound
  | Some ex =>
      if negb (sj_TenantID ex =s sj_TenantID j) then throw ErrNotFound
      else t ← now; put_scan (sj_ID j) {| j with sj_CreatedAt := sj_CreatedAt ex; sj_UpdatedAt := t |}
  end.

Definition dueKey (j : IPScanJob) : Time :=
  match sj_NextRetryAt j with Some t => t | None => sj_CreatedAt j end.

Definition due_less (a b : IPScanJob) : bool :=
  if negb (dueKey a =? dueKey b) then dueKey a <? dueKey b else str_ltb (sj_ID a) (sj_ID b).

Definition is_due (at_ : Time) (j : IPScanJob) : bool :=
  (sj_Status j =s ScanPending) &&
  match sj_NextRetryAt j with Some t => negb (at_ <? t) | None => true end.

Definition claim (t : Time) (j : IPScanJob) : IPScanJob :=
  {| j with sj_Status := ScanScanning; sj_StartedAt := Some t; sj_UpdatedAt := t |}.

Definition ClaimDueScanJobs (at_ : Time) (limit : Z) : M (list IPScanJob) :=
  fail "ClaimDueScanJobs";;
  m ← mem;
  let due := sort_by due_less (map_select (is_due at_) (mem_scans m)) in
  let due := if (0 <? limit) && (limit <? Z.of_nat (length due)) then take (Z.to_nat limit) due else due in
  t ← now;
  let out := claim t <$> due in
  set_mem (λ m, {| m with mem_scans := foldl (λ acc j, <[sj_ID j := j]> acc) (mem_scans m) out |});;
  mret out.

Definition ActiveScanForSubnet (tenantID subnetID : string) : M bool :=
  m ← mem;
  mret (map_any (λ j, (sj_TenantID j =s tenantID) && (sj_SubnetID j =s subnetID) &&
                      ((sj_Status j =s ScanPending) || (sj_Status j =s ScanScanning))) (mem_scans m)).

(** ** DNS configuration *)

Definition GetDNSConfig (tenantID : string) : M DNSConfig :=
  m ← mem;
  match mem_dns m !! tenantID with Some c => mret c | None => throw ErrNotFound end.

Definition UpsertDNSConfig (c : DNSConfig) : M () :=
  fail "UpsertDNSConfig";;
  t ← now;
  m ← mem;
  c' ← match mem_dns m !! dc_TenantID c with
       | Some ex => mret {| c with dc_ID := dc_ID ex; dc_CreatedAt := dc_CreatedAt ex |}
       | None => id ← (if is_empty (dc_ID c) then newID else mret (dc_ID c));
                 mret {| c with dc_ID := id; dc_CreatedAt := t |}
       end;
  set_mem (λ m, {| m with mem_dns := <[dc_TenantID c :=
    {| c' with dc_TimeoutMs := if dc_TimeoutMs c =? 0 then 5000 else dc_TimeoutMs c;
       dc_UpdatedAt := t |}]> (mem_dns m) |}).

(** ** Statistics (repo.Stats) *)

Record Stats : Type := {
  st_TotalSubnets : Z;
  st_TotalAddresses : Z;
  st_UsedAddresses : Z;
  st_AvailableAddresses : Z;
  st_TotalVlans : Z;
  st_TotalDevices : Z;
  st_TotalLocations : Z;
  st_OverallUtilization : spec_float;
  st_DevicesByType : gmap string Z
}.

(** int64 sums wrap. *)
Definition sum64 (l : list Z) : Z := foldl (λ acc x, wrap64 (acc + x)) 0 l.

Definition TenantStats (tenantID : string) : M Stats :=
  m ← mem;
  let subs := map_select (λ s, sn_TenantID s =s tenantID) (mem_subnets m) in
  let devs := map_select (λ d, dv_TenantID d =s tenantID) (mem_devices m) in
  let totalCap := sum64 (subnetTotal ∘ sn_CIDR <$> subs) in
  let usedTotal := sum64 ((λ s, map_count (in_subnet tenantID (sn_ID s)) (mem_addrs m)) <$> subs) in
  mret {| st_TotalSubnets := Z.of_nat (length subs);
          st_TotalAddresses := totalCap;
          st_UsedAddresses := usedTotal;
          st_AvailableAddresses := if 0 <? totalCap then wrap64 (totalCap - usedTotal) else 0;
          st_OverallUtilization := if 0 <? totalCap then f64_div (f64_of_Z usedTotal) (f64_of_Z totalCap)
                                   else f64_of_Z 0;
          st_TotalVlans := map_count (λ v, vl_TenantID v =s tenantID) (mem_vlans m);
          st_TotalDevices := Z.of_nat (length devs);
          st_TotalLocations := map_count (λ l, lc_TenantID l =s tenantID) (mem_locs m);
          st_DevicesByType := foldl (λ acc d, <[dv_DeviceType d := default 0 (acc !! dv_DeviceType d) + 1]> acc)
                                ∅ devs |}.

Definition TenantIDs : M (list string) :=
  m ← mem;
  let set : gset string := list_to_set ((sn_TenantID <$> rows (mem_subnets m)) ++
    (dv_TenantID <$> rows (mem_devices m)) ++ (vl_TenantID <$> rows (mem_vlans m)) ++
    (lc_TenantID <$> rows (mem_locs m)) ++ (sj_TenantID <$> rows (mem_scans m))) in
  mret (sort_strings (elements set)).

Definition AppendAudit (row : AuditRow) : M () :=
  fail "AppendAudit";; appendAuditLocked row.

(** ** Subnet SNMP credentials (snmp.go) *)

Definition GetSubnetSNMP (tenantID subnetID : string) : M SubnetSNMP :=
  fail "GetSubnetSNMP";;
  m ← mem;
  match mem_snmp m !! subnetID with
  | Some r => if ss_TenantID r =s tenantID then mret r else throw ErrNotFound
  | None => throw ErrNotFound
  end.

Definition PutSubnetSNMP (row : SubnetSNMP) (audit : AuditRow) : M () :=
  fail "PutSubnetSNMP";;
  m ← mem;
  match mem_subnets m !! ss_SubnetID row with
  | None => throw ErrNotFound
  | Some s =>
      if negb (sn_TenantID s =s ss_TenantID row) then throw ErrNotFound
      else
        t ← now;
        set_mem (λ m, {| m with mem_snmp :=
          <[ss_SubnetID row := {| row with ss_UpdatedAt := t |}]> (mem_snmp m) |});;
        appendAuditLocked audit
  end.

Definition DeleteSubnetSNMP (tenantID subnetID : string) (audit : AuditRow) : M () :=
  fail "DeleteSubnetSNMP";;
  m ← mem;
  match mem_snmp m !! subnetID with
  | None => throw ErrNotFound
  | Some r =>
      if negb (ss_TenantID r =s tenantID) then throw ErrNotFound
      else set_mem (λ m, {| m with mem_snmp := delete subnetID (mem_snmp m) |});;
           appendAuditLocked audit
  end.

Definition ListSubnetSNMP (tenantID : string) : M (list SubnetSNMP) :=
  fail "ListSubnetSNMP";;
  m ← mem;
  mret (sort_by (λ a b, str_ltb (ss_SubnetID a) (ss_SubnetID b))
    ((λ r, {| r with ss_Sealed := "" |}) <$>
     map_select (λ r, ss_TenantID r =s tenantID) (mem_snmp m))).

Definition LegacySNMPRefCount : M Z :=
  fail "LegacySNMPRefCount";;
  m ← mem; mret (map_count (λ s, negb (is_empty (sn_SNMPSecretRef s))) (mem_subnets m)).

(** ** ARP (arp.go) *)

Definition GetARPSettings (tenantID : string) : M ARPSettings :=
  fail "GetARPSettings";;
  m ← mem;
  mret (default (DefaultARPSettings tenantID) (mem_arp m !! tenantID)).

Definition PutARPSettings (s : ARPSettings) (audit : AuditRow) : M () :=
  fail "PutARPSettings";;
  t ← now;
  set_mem (λ m, {| m with mem_arp := <[as_TenantID s := {| s with as_UpdatedAt := t |}]> (mem_arp m) |});;
  appendAuditLocked {| audit with ar_TenantID := as_TenantID s |}.

Definition networkMACsLocked (m : Mem) (tenantID : string) : gset string :=
  list_to_set (omap (λ i,
    match mem_devices m !! di_DeviceID i with
    | Some d => if (di_TenantID i =s tenantID) && IsNetworkDevice (dv_DeviceType d)
                then NormalizeMAC (di_MACAddress i) else None
    | None => None
    end) (rows (mem_ifaces m))).

Definition NetworkMACs (tenantID : string) : M (gset string) :=
  fail "NetworkMACs";; m ← mem; mret (networkMACsLocked m tenantID).

Definition arpOwned (a : IPAddress) : bool :=
  is_empty (ad_MACAddress a) || (ad_MACSource a =s MACSourceARP).

(** What an op other than a create does to an address row; [None]: its guard
    refuses it. *)
Definition arp_change (op : ARPOp) (a : IPAddress) : option IPAddress :=
  let at_ := Some (ao_At op) in
  if (ao_Kind op =s ARPFill) || (ao_Kind op =s ARPUpdate) then
    if arpOwned a
    then Some {| a with ad_MACAddress := ao_MAC op; ad_MACSource := MACSourceARP;
                 ad_MACSourceDeviceID := ao_SourceDeviceID op; ad_MACSeenAt := at_; ad_MACConflict := "" |}
    else None
  else if ao_Kind op =s ARPConflict then
    if arpOwned a then None else Some {| a with ad_MACConflict := ao_MAC op |}
  else if ao_Kind op =s ARPClearConflict then
    Some {| a with ad_MACConflict := ""; ad_MACSeenAt := at_ |}
  else if ao_Kind op =s ARPTouch then
    Some {| a with ad_MACSeenAt := at_;
            ad_MACSourceDeviceID := if ad_MACSource a =s MACSourceARP then ao_SourceDeviceID op
                                    else ad_MACSourceDeviceID a |}
  else None.

Definition applyARPOpLocked (tenantID : string) (op : ARPOp) : M bool :=
  m ← mem;
  if ao_Kind op =s ARPCreate then
    let ok := match mem_subnets m !! ao_SubnetID op with
              | Some sub => sn_TenantID sub =s tenantID | None => false end in
    if is_some (findAddrLocked m tenantID (ao_Address op)) || negb ok then mret false
    else if is_some (mem_addrs m !! ao_AddressID op) then mret false
    else
      t1 ← now; t2 ← now;
      put_addr (ao_AddressID op) {| zero_IPAddress with
        ad_ID := ao_AddressID op; ad_TenantID := tenantID; ad_Address := ao_Address op;
        ad_SubnetID := ao_SubnetID op; ad_MACAddress := ao_MAC op; ad_Status := IPActive;
        ad_AddressType := AddrHost; ad_LastSeen := Some (ao_At op); ad_CreatedBy := "arp";
        ad_MACSource := MACSourceARP; ad_MACSourceDeviceID := ao_SourceDeviceID op;
        ad_MACSeenAt := Some (ao_At op); ad_Origin := OriginARP;
        ad_CreatedAt := t1; ad_UpdatedAt := t2 |};;
      mret true
  else match mem_addrs m !! ao_AddressID op with
  | None => mret false
  | Some a =>
      if negb (ad_TenantID a =s tenantID) then mret false
      else match arp_change op a with
      | None => mret false
      | Some a' => t ← now; put_addr (ad_ID a) {| a' with ad_UpdatedAt := t |};; mret true
      end
  end.

Definition append_rows (tenantID : string) (l : list AuditRow) : M () :=
  mapM_ (λ row, appendAuditLocked {| row with ar_TenantID := tenantID |}) l.

Definition ApplyARP (tenantID : string) (ops : list ARPOp) (summary : list AuditRow) : M () :=
  fail "ApplyARP";;
  mapM_ (λ op, done_ ← applyARPOpLocked tenantID op;
               if (done_ : bool) then append_rows tenantID (ao_Audit op) else mret ()) ops;;
  append_rows tenantID summary.

(** ** Switch-port links (arp.go, portlink.go) *)

Definition set_addr_link (tenantID : string) (a : IPAddress) : M () :=
  setHostLinksLocked tenantID HostKindAddress (ad_ID a) (ad_Links a);;
  m ← mem;
  let cur := default zero_IPAddress (mem_addrs m !! ad_ID a) in
  t ← now;
  put_addr (ad_ID a) {| cur with
    ad_Link := match ad_Link a with Some l => Some {| l with al_SwitchName := "" |} | None => None end;
    ad_UpdatedAt := t |}.

Definition SetAddressLinks (tenantID : string) (addrs : list IPAddress) (audit : list AuditRow) : M () :=
  fail "SetAddressLinks";;
  m ← mem;
  if forallb (λ a, match mem_addrs m !! ad_ID a with Some cur => ad_TenantID cur =s tenantID | None => false end)
       addrs
  then mapM_ (set_addr_link tenantID) addrs;; append_rows tenantID audit
  else throw ErrNotFound.

Definition set_iface_link (tenantID : string) (i : DeviceInterface) : M () :=
  setHostLinksLocked tenantID HostKindInterface (di_ID i) (di_Links i);;
  m ← mem;
  let cur := default zero_DeviceInterface (mem_ifaces m !! di_ID i) in
  t ← now;
  put_iface (di_ID i) {| cur with
    di_RemoteDeviceID := di_RemoteDeviceID i; di_RemoteInterfaceID := di_RemoteInterfaceID i;
    di_RemotePortName := di_RemotePortName i; di_LinkSource := di_LinkSource i;
    di_LinkVlan := di_LinkVlan i; di_LinkLastSeen := di_LinkLastSeen i; di_UpdatedAt := t |}.

Definition SetInterfaceLinks (tenantID : string) (ifaces : list DeviceInterface) (audit : list AuditRow) : M () :=
  fail "SetInterfaceLinks";;
  m ← mem;
  if forallb (λ i, match mem_ifaces m !! di_ID i with Some cur => di_TenantID cur =s tenantID | None => false end)
       ifaces
  then mapM_ (set_iface_link tenantID) ifaces;; append_rows tenantID audit
  else throw ErrNotFound.
End with_env.
