(* ===== verification/HostTx.v ===== *)
(** * internal/memstore/hostsync.go: the host-sync tables and transaction

    The settings and state rows of the host sync, and the transaction a report
    is applied in: [ApplyHostReport] runs its callback on the locked store and
    restores every table the callback may write when it fails.  The methods of
    [memTx] take the tenant they are bound to. *)

From S2P Require Import Prelude Models Store Hostreport MemNet MemDev.

Section with_env.
Context `{Env}.

Definition put_settings (k : string) (s : HostSyncSettings) : M () :=
  set_mem (λ m, {| m with mem_hsSettings := <[k := s]> (mem_hsSettings m) |}).
Definition put_guest (k : string) (g : HypervisorGuest) : M () :=
  set_mem (λ m, {| m with mem_guests := <[k := g]> (mem_guests m) |}).

(** ** Settings and state *)

Definition defaultSettings (tenantID : string) : M HostSyncSettings :=
  t ← now;
  mret {| zero_HostSyncSettings with hss_TenantID := tenantID; hss_Enabled := true; hss_FullIntervalMinutes := 60;
          hss_ExcludedInterfaces := DefaultExclusions; hss_Status := HostSyncOK; hss_UpdatedAt := t |}.

Definition ensureSettingsLocked (tenantID : string) : M HostSyncSettings :=
  m ← mem;
  match mem_hsSettings m !! tenantID with
  | Some s => mret s
  | None => s ← defaultSettings tenantID; put_settings tenantID s;; mret s
  end.

Definition EnsureHostSyncSettings (tenantID : string) : M HostSyncSettings :=
  fail "EnsureHostSyncSettings";; ensureSettingsLocked tenantID.

Definition GetHostSyncSettings (tenantID : string) : M HostSyncSettings :=
  fail "GetHostSyncSettings";;
  m ← mem;
  match mem_hsSettings m !! tenantID with Some s => mret s | None => throw ErrNotFound end.

Definition UpdateHostSyncSettings (in_ : HostSyncSettings) (audit : AuditRow) : M () :=
  fail "UpdateHostSyncSettings";;
  cur ← ensureSettingsLocked (hss_TenantID in_);
  t ← now;
  put_settings (hss_TenantID in_)
    {| cur with
       hss_ReconcileRequested := (hss_Enabled in_ && negb (hss_Enabled cur)) || hss_ReconcileRequested cur;
       hss_Enabled := hss_Enabled in_; hss_FullIntervalMinutes := hss_FullIntervalMinutes in_;
       hss_ExcludedInterfaces := hss_ExcludedInterfaces in_; hss_UpdatedBy := hss_UpdatedBy in_; hss_UpdatedAt := t;
       hss_Status := if negb (hss_Enabled in_) then HostSyncDisabled
                     else if hss_Status cur =s HostSyncDisabled then HostSyncOK else hss_Status cur |};;
  appendAuditLocked audit.

Definition RequestReconcile (tenantID : string) (audit : AuditRow) : M () :=
  fail "RequestReconcile";;
  cur ← ensureSettingsLocked tenantID;
  put_settings tenantID {| cur with hss_ReconcileRequested := true |};;
  appendAuditLocked audit.

Definition ListHostSyncSettings : M (list HostSyncSettings) :=
  fail "ListHostSyncSettings";;
  m ← mem;
  mret (sort_by (λ a b, str_ltb (hss_TenantID a) (hss_TenantID b)) (rows (mem_hsSettings m))).

Definition SaveHostSyncState (tenantID : string) (st : HostSyncStatus) : M () :=
  fail "SaveHostSyncState";;
  cur ← ensureSettingsLocked tenantID;
  put_settings tenantID
    {| cur with hss_Status := hst_Status st; hss_LastError := hst_LastError st;
       hss_ChangedSince := set_ptr (hss_ChangedSince cur) (hst_ChangedSince st);
       hss_LastPollAt := set_ptr (hss_LastPollAt cur) (hst_LastPollAt st);
       hss_LastReconcileAt := set_ptr (hss_LastReconcileAt cur) (hst_LastReconcileAt st);
       hss_ReconcileRequested := if hst_ClearReconcile st then false else hss_ReconcileRequested cur;
       hss_HostsReported := hst_HostsReported st; hss_HostsFailed := hst_HostsFailed st |}.

Definition HostDevices (tenantID : string) : M (list Device) :=
  fail "HostDevices";;
  m ← mem;
  mret (sort_by (λ a b, str_ltb (dv_ID a) (dv_ID b))
    (map_select (λ d, (dv_TenantID d =s tenantID) && negb (is_empty (dv_InventoryHostID d))) (mem_devices m))).

Definition GetHostSyncDeviceState (tenantID deviceID : string) : M HostSyncDeviceState :=
  m ← mem;
  match mem_devState m !! deviceID with
  | Some st => if hsd_TenantID st =s tenantID then mret st else throw ErrNotFound
  | None => throw ErrNotFound
  end.

Definition HostSyncCounts (tenantID : string) : M (Z * Z) :=
  fail "HostSyncCounts";;
  m ← mem;
  mret (map_count (λ d, (dv_TenantID d =s tenantID) && (dv_ReportState d =s RepNotReported)) (mem_devices m),
        map_count (λ a, (ad_TenantID a =s tenantID) && ad_Conflict a) (mem_addrs m)).

Definition guestsOfLocked (m : Mem) (tenantID hostDeviceID : string) : list HypervisorGuest :=
  sort_by (λ a b, str_ltb (hg_GuestRef a) (hg_GuestRef b))
    (map_select (λ g, (hg_TenantID g =s tenantID) && (hg_HostDeviceID g =s hostDeviceID)) (mem_guests m)).

Definition ListGuests (tenantID hostDeviceID : string) : M (list HypervisorGuest) :=
  fail "ListGuests";;
  m ← mem;
  mret ((λ g, match mem_devices m !! hg_GuestDeviceID g with
              | Some d => if dv_TenantID d =s tenantID then {| g with hg_GuestDeviceName := dv_Name d |} else g
              | None => g
              end) <$> guestsOfLocked m tenantID hostDeviceID).

Definition ClearAddressConflict (tenantID addressID : string) (audit : AuditRow) : M IPAddress :=
  fail "ClearAddressConflict";;
  m ← mem;
  match mem_addrs m !! addressID with
  | None => throw ErrNotFound
  | Some a =>
      if negb (ad_TenantID a =s tenantID) then throw ErrNotFound
      else
        t ← now;
        let a' := {| a with ad_Conflict := false; ad_MoveCount := 0; ad_MoveWindowStart := None; ad_UpdatedAt := t |} in
        put_addr addressID a';; appendAuditLocked audit;; mret a'
  end.

Definition GetDeviceHardware (tenantID deviceID : string) : M DeviceHardware :=
  fail "GetDeviceHardware";;
  m ← mem;
  match mem_hardware m !! deviceID with
  | Some h => if dh_TenantID h =s tenantID then mret h else throw ErrNotFound
  | None => throw ErrNotFound
  end.

(** ** The transaction *)

Record memSnapshot : Type := {
  sp_devices : gmap string Device;
  sp_ifaces : gmap string DeviceInterface;
  sp_addrs : gmap string IPAddress;
  sp_subnets : gmap string Subnet;
  sp_pkgs : gmap string (list DevicePackage);
  sp_guests : gmap string HypervisorGuest;
  sp_devState : gmap string HostSyncDeviceState;
  sp_hardware : gmap string DeviceHardware;
  sp_audit : nat
}.

Definition snapshotLocked (m : Mem) : memSnapshot :=
  {| sp_devices := mem_devices m; sp_ifaces := mem_ifaces m; sp_addrs := mem_addrs m; sp_subnets := mem_subnets m;
     sp_pkgs := mem_pkgs m; sp_guests := mem_guests m; sp_devState := mem_devState m; sp_hardware := mem_hardware m;
     sp_audit := length (mem_audit m) |}.

Definition restoreLocked (s : memSnapshot) (m : Mem) : Mem :=
  {| m with mem_devices := sp_devices s; mem_ifaces := sp_ifaces s; mem_addrs := sp_addrs s; mem_subnets := sp_subnets s;
     mem_pkgs := sp_pkgs s; mem_guests := sp_guests s; mem_devState := sp_devState s; mem_hardware := sp_hardware s;
     mem_audit := take (sp_audit s) (mem_audit m) |}.

Definition ApplyHostReport {A} (tenantID : string) (fn : M A) : M A :=
  fail "ApplyHostReport";;
  s ← ensureSettingsLocked tenantID;
  if negb (hss_Enabled s) then throw ErrSyncDisabled
  else
    m ← mem;
    r ← try fn;
    match r with
    | Ok a => mret a
    | Err e => set_mem (restoreLocked (snapshotLocked m));; throw e
    end.

(** *** Reads *)

Section tx.
Context (tid : string).

Definition tx_fail (method : string) : M () := fail ("tx." +:+ method).

Definition DeviceByInventoryHost (hostID : string) : M (option Device) :=
  tx_fail "DeviceByInventoryHost";;
  m ← mem;
  mret (snd <$> map_find (λ d, (dv_TenantID d =s tid) && negb (is_empty (dv_InventoryHostID d)) &&
                               EqualFold (dv_InventoryHostID d) hostID) (mem_devices m)).

Definition devicesWhere (pred : Device → bool) (m : Mem) : list Device :=
  sort_by (λ a b, str_ltb (dv_ID a) (dv_ID b)) (map_select (λ d, (dv_TenantID d =s tid) && pred d) (mem_devices m)).

Definition DevicesBySerial (serial : string) : M (list Device) :=
  m ← mem;
  let serial := TrimSpace serial in
  mret (devicesWhere (λ d, negb (is_empty serial) && EqualFold (TrimSpace (dv_SerialNumber d)) serial) m).

Definition DevicesByNames (names : list string) : M (list Device) :=
  m ← mem; mret (devicesWhere (λ d, existsb (EqualFold (dv_Name d)) names) m).

Definition Interfaces (deviceID : string) : M (list DeviceInterface) :=
  m ← mem;
  mret (sort_by (λ a b, str_ltb (di_Name a) (di_Name b)) (map_select (iface_of tid deviceID) (mem_ifaces m))).

Definition addrsWhere (pred : IPAddress → bool) (m : Mem) : list IPAddress :=
  sort_by (λ a b, str_ltb (ad_Address a) (ad_Address b)) (map_select (λ a, (ad_TenantID a =s tid) && pred a) (mem_addrs m)).

Definition AddressesByValue (addrs : list string) : M (list IPAddress) :=
  m ← mem; mret (addrsWhere (λ a, existsb (String.eqb (ad_Address a)) addrs) m).

Definition AddressesOfDevice (deviceID : string) : M (list IPAddress) :=
  m ← mem; mret (addrsWhere (λ a, ad_DeviceID a =s deviceID) m).

Definition Subnets : M (list Subnet) :=
  m ← mem;
  mret (sort_by (λ a b, str_ltb (sn_ID a) (sn_ID b)) (map_select (λ s, sn_TenantID s =s tid) (mem_subnets m))).

Definition Packages (deviceID : string) : M (list DevicePackage) :=
  m ← mem; mret (List.filter (λ p, dp_TenantID p =s tid) (packages_of m deviceID)).

Definition Guests (hostDeviceID : string) : M (list HypervisorGuest) :=
  m ← mem; mret (guestsOfLocked m tid hostDeviceID).

Record MACOwner : Type := { mo_MAC : string; mo_DeviceID : string; mo_HypervisorDeviceID : string }.

Definition owner_less (a b : MACOwner) : bool :=
  if mo_MAC a =s mo_MAC b then str_ltb (mo_DeviceID a) (mo_DeviceID b) else str_ltb (mo_MAC a) (mo_MAC b).

Definition mac_owner (m : Mem) (macs : list string) (i : DeviceInterface) : option MACOwner :=
  if negb (di_TenantID i =s tid) || is_empty (di_MACAddress i) || negb (existsb (String.eqb (ToLower (di_MACAddress i))) macs)
  then None
  else let d := default zero_Device (mem_devices m !! di_DeviceID i) in
       Some {| mo_MAC := ToLower (di_MACAddress i); mo_DeviceID := dv_ID d; mo_HypervisorDeviceID := dv_HypervisorDeviceID d |}.

Definition DevicesByMAC (macs : list string) : M (list MACOwner) :=
  m ← mem; mret (sort_by owner_less (omap (mac_owner m macs) (rows (mem_ifaces m)))).

Definition GuestRowsByMAC (macs : list string) : M (list HypervisorGuest) :=
  m ← mem;
  mret (sort_by (λ a b, str_ltb (hg_ID a) (hg_ID b))
    (map_select (λ g, (hg_TenantID g =s tid) && existsb (λ mac, existsb (String.eqb mac) macs) (hg_MACs g)) (mem_guests m))).

Definition GuestDevicesOf (hostDeviceID : string) : M (list Device) :=
  m ← mem; mret (devicesWhere (λ d, dv_HypervisorDeviceID d =s hostDeviceID) m).

Definition GetHardware (deviceID : string) : M (option DeviceHardware) :=
  tx_fail "GetHardware";;
  m ← mem;
  mret match mem_hardware m !! deviceID with
       | Some h => if dh_TenantID h =s tid then Some h else None
       | None => None
       end.

(** *** Writes *)

Definition nameTaken (m : Mem) (id name : string) : bool :=
  map_any (λ d, (dv_TenantID d =s tid) && negb (dv_ID d =s id) && (dv_Name d =s name)) (mem_devices m).

Definition InsertDevice (d : Device) : M () :=
  tx_fail "InsertDevice";;
  m ← mem;
  if nameTaken m (dv_ID d) (dv_Name d) then throw ErrConflict
  else if map_any (λ o, (dv_TenantID o =s tid) && negb (is_empty (dv_InventoryHostID d)) &&
                        (dv_InventoryHostID o =s dv_InventoryHostID d)) (mem_devices m) then throw ErrConflict
  else t ← now; put_device (dv_ID d) {| d with dv_TenantID := tid; dv_CreatedAt := t; dv_UpdatedAt := t |}.

(** The columns the host sync owns; the others keep their values. *)
Definition reported_columns (cur d : Device) (t : Time) : Device :=
  {| cur with dv_Name := dv_Name d; dv_DeviceType := dv_DeviceType d; dv_VirtualizationKind := dv_VirtualizationKind d;
     dv_OSType := dv_OSType d; dv_OSVersion := dv_OSVersion d; dv_Manufacturer := dv_Manufacturer d; dv_Model := dv_Model d;
     dv_SerialNumber := dv_SerialNumber d; dv_PrimaryIP := dv_PrimaryIP d; dv_PrimaryIPv6 := dv_PrimaryIPv6 d;
     dv_ManagementIP := dv_ManagementIP d; dv_RebootRequired := dv_RebootRequired d;
     dv_UnattendedUpgrades := dv_UnattendedUpgrades d; dv_UpdateStatus := dv_UpdateStatus d; dv_LastSeen := dv_LastSeen d;
     dv_Source := dv_Source d; dv_InventoryHostID := dv_InventoryHostID d; dv_ReportState := dv_ReportState d;
     dv_LastReportAt := dv_LastReportAt d; dv_ReportDigest := dv_ReportDigest d; dv_UpdatedAt := t |}.

Definition UpdateDeviceReported (d : Device) : M () :=
  tx_fail "UpdateDeviceReported";;
  m ← mem;
  match mem_devices m !! dv_ID d with
  | None => throw ErrNotFound
  | Some cur =>
      if negb (dv_TenantID cur =s tid) then throw ErrNotFound
      else if nameTaken m (dv_ID d) (dv_Name d) then throw ErrConflict
      else t ← now; put_device (dv_ID d) (reported_columns cur d t)
  end.

Definition UpsertInterfaceReported (i : DeviceInterface) (create : bool) : M () :=
  tx_fail "UpsertInterfaceReported";;
  t ← now;
  m ← mem;
  if create then
    if map_any (same_iface_name (di_DeviceID i) (di_Name i)) (mem_ifaces m) then throw ErrConflict
    else put_iface (di_ID i) {| i with di_TenantID := tid; di_CreatedAt := t; di_UpdatedAt := t |}
  else match mem_ifaces m !! di_ID i with
  | None => throw ErrNotFound
  | Some cur =>
      if negb (di_TenantID cur =s tid) then throw ErrNotFound
      else put_iface (di_ID i)
             {| cur with di_MACAddress := di_MACAddress i; di_InterfaceType := di_InterfaceType i;
                di_SpeedMbps := di_SpeedMbps i; di_Enabled := di_Enabled i; di_ReportState := di_ReportState i;
                di_UpdatedAt := t |}
  end.

Definition CreateSubnetAuto (s : Subnet) : M () :=
  tx_fail "CreateSubnetAuto";;
  m ← mem;
  if map_any (λ ex, (sn_TenantID ex =s tid) && (sn_Name ex =s sn_Name s)) (mem_subnets m) then throw ErrConflict
  else t ← now;
       set_mem (λ m, {| m with mem_subnets :=
         <[sn_ID s := {| s with sn_TenantID := tid; sn_CreatedAt := t; sn_UpdatedAt := t |}]> (mem_subnets m) |}).

(** The provenance of a MAC address the agent reported. *)
Definition agent_mac (mac : string) (t : Time) (a : IPAddress) : IPAddress :=
  {| a with ad_MACSource := if is_empty mac then "" else MACSourceAgent; ad_MACSourceDeviceID := "";
     ad_MACSeenAt := if is_empty mac then None else Some t |}.

(** The row an inserted address gets. *)
Definition inserted_row (a : IPAddress) (t : Time) : IPAddress :=
  agent_mac (ad_MACAddress a) t
    {| a with ad_TenantID := tid; ad_CreatedAt := t; ad_UpdatedAt := t; ad_MACConflict := ""; ad_Origin := ""; ad_Link := None |}.

Definition InsertAddressReported (a : IPAddress) : M () :=
  tx_fail "InsertAddressReported";;
  m ← mem;
  match findAddrLocked m tid (ad_Address a) with
  | Some _ => throw ErrConflict
  | None => t ← now; put_addr (ad_ID a) (inserted_row a t)
  end.

(** The columns a report owns of an address; the others keep their values. *)
Definition reported_row (cur a : IPAddress) (t : Time) : IPAddress :=
  let next := {| cur with ad_DeviceID := ad_DeviceID a; ad_InterfaceName := ad_InterfaceName a;
    ad_MACAddress := ad_MACAddress a; ad_Hostname := ad_Hostname a; ad_IsPrimary := ad_IsPrimary a;
    ad_LastSeen := ad_LastSeen a; ad_ReportState := ad_ReportState a; ad_PreviousDeviceID := ad_PreviousDeviceID a;
    ad_MovedAt := ad_MovedAt a; ad_MoveCount := ad_MoveCount a; ad_MoveWindowStart := ad_MoveWindowStart a;
    ad_Conflict := ad_Conflict a; ad_UpdatedAt := t |} in
  if ad_ReportState a =s RepReported then agent_mac (ad_MACAddress a) t next else next.

Definition UpdateAddressReported (a : IPAddress) : M () :=
  tx_fail "UpdateAddressReported";;
  m ← mem;
  match mem_addrs m !! ad_ID a with
  | None => throw ErrNotFound
  | Some cur =>
      if negb (ad_TenantID cur =s tid) then throw ErrNotFound
      else t ← now; put_addr (ad_ID a) (reported_row cur a t)
  end.

Fixpoint stamp_packages (deviceID : string) (t : Time) (pkgs : list DevicePackage) : M (list DevicePackage) :=
  match pkgs with
  | [] => mret []
  | p :: rest =>
      id ← (if is_empty (dp_ID p) then newID else mret (dp_ID p));
      cp ← stamp_packages deviceID t rest;
      mret ({| p with dp_TenantID := tid; dp_DeviceID := deviceID; dp_CreatedAt := t; dp_UpdatedAt := t; dp_ID := id |} :: cp)
  end.

Definition ReplacePendingPackages (deviceID : string) (pkgs : list DevicePackage) : M () :=
  tx_fail "ReplacePendingPackages";;
  t ← now;
  cp ← stamp_packages deviceID t pkgs;
  set_mem (λ m, {| m with mem_pkgs := <[deviceID := cp]> (mem_pkgs m) |}).

Definition ReplaceGuests (hostDeviceID : string) (guests : list HypervisorGuest) : M () :=
  tx_fail "ReplaceGuests";;
  set_mem (λ m, {| m with mem_guests :=
    foldl (λ acc g, <[hg_ID g := {| g with hg_TenantID := tid; hg_HostDeviceID := hostDeviceID |}]> acc)
      (map_delete_where (λ g, (hg_TenantID g =s tid) && (hg_HostDeviceID g =s hostDeviceID)) (mem_guests m)) guests |}).

Definition SetHypervisor (deviceID hypervisorID : string) : M () :=
  tx_fail "SetHypervisor";;
  m ← mem;
  match mem_devices m !! deviceID with
  | None => throw ErrNotFound
  | Some d =>
      if negb (dv_TenantID d =s tid) || (deviceID =s hypervisorID) then throw ErrNotFound
      else put_device deviceID {| d with dv_HypervisorDeviceID := hypervisorID |}
  end.

Definition SetGuestDevice (guestRowID deviceID : string) : M () :=
  tx_fail "SetGuestDevice";;
  m ← mem;
  match mem_guests m !! guestRowID with
  | None => throw ErrNotFound
  | Some g =>
      if negb (hg_TenantID g =s tid) then throw ErrNotFound
      else put_guest guestRowID {| g with hg_GuestDeviceID := deviceID |}
  end.

Definition MarkDeviceNotReported (deviceID : string) : M () :=
  tx_fail "MarkDeviceNotReported";;
  m ← mem;
  match mem_devices m !! deviceID with
  | None => throw ErrNotFound
  | Some d =>
      if negb (dv_TenantID d =s tid) then throw ErrNotFound
      else set_mem (λ m, {| m with
        mem_devices := <[deviceID := {| d with dv_ReportState := RepNotReported |}]> (mem_devices m);
        mem_ifaces := map_update_where (λ i, (di_DeviceID i =s deviceID) && (di_ReportState i =s RepReported))
                        (λ i, {| i with di_ReportState := RepNotReported |}) (mem_ifaces m);
        mem_addrs := map_update_where (λ a, (ad_TenantID a =s tid) && (ad_DeviceID a =s deviceID) && (ad_ReportState a =s RepReported))
                       (λ a, {| a with ad_ReportState := RepNotReported |}) (mem_addrs m) |})
  end.

Definition SaveDeviceState (st : HostSyncDeviceState) : M () :=
  tx_fail "SaveDeviceState";;
  set_mem (λ m, {| m with mem_devState := <[hsd_DeviceID st := {| st with hsd_TenantID := tid |}]> (mem_devState m) |}).

Definition tx_AppendAudit (row : AuditRow) : M () :=
  tx_fail "AppendAudit";; appendAuditLocked {| row with ar_TenantID := tid |}.

Definition ReplaceHardware (h : DeviceHardware) : M () :=
  tx_fail "ReplaceHardware";;
  m ← mem;
  match mem_devices m !! dh_DeviceID h with
  | None => throw ErrNotFound
  | Some d =>
      if negb (dv_TenantID d =s tid) then throw ErrNotFound
      else t ← now;
           set_mem (λ m, {| m with mem_hardware := <[dh_DeviceID h := {| h with dh_TenantID := tid; dh_UpdatedAt := t |}]> (mem_hardware m) |})
  end.
End tx.
End with_env.
