(* ===== verification/MemInv.v ===== *)
(** * Integrity of the store

    [mem_ok] states the integrity constraints of the schema that every method
    of the in-memory store enforces.  In every table it names, a row is filed
    under its own id; and it has these UNIQUE constraints: subnet, device, IP
    group and host group names per tenant, addresses per tenant, interface
    names per device, VLAN numbers and names per tenant, location names and
    non-empty codes per tenant, one member row per value or device of a group,
    one link per interface, source, remote device and remote port, one
    credential row per subnet, one DNS and one ARP row per tenant; and these
    references: a member's group, a credential's subnet and a link's interface
    exist.  Every method preserves it, so it holds in every state reachable
    from the empty store by any sequence of calls, successful or failing.

    Of the constraints the schema declares, the in-memory store does not check
    the others, and they are not stated: the device of an inventory host,
    packages and guests are not kept unique by the methods of the host-sync
    transaction, and the references of addresses, interfaces, subnets, VLANs,
    jobs, guests and hardware to their owners are not looked up on insert. *)

From S2P Require Import Prelude Models Store Hostreport MemNet MemDev MemCat MemScan.

(** ** The constraints *)

Definition subnets_ok (t : gmap string Subnet) : Prop :=
  keyed sn_ID t ∧ unique_on (λ s, Some (sn_TenantID s, sn_Name s)) t.
Definition addrs_ok (t : gmap string IPAddress) : Prop :=
  keyed ad_ID t ∧ unique_on (λ a, Some (ad_TenantID a, ad_Address a)) t.
Definition devices_ok (t : gmap string Device) : Prop :=
  keyed dv_ID t ∧ unique_on (λ d, Some (dv_TenantID d, dv_Name d)) t.
Definition ifaces_ok (t : gmap string DeviceInterface) : Prop :=
  keyed di_ID t ∧ unique_on (λ i, Some (di_DeviceID i, di_Name i)) t.
Definition vlans_ok (t : gmap string Vlan) : Prop :=
  keyed vl_ID t ∧ unique_on (λ v, Some (vl_TenantID v, vl_VlanID v)) t ∧
  unique_on (λ v, Some (vl_TenantID v, vl_Name v)) t.
Definition loc_code (l : Location) : option (string * string) :=
  if is_empty (lc_Code l) then None else Some (lc_TenantID l, lc_Code l).
Definition locs_ok (t : gmap string Location) : Prop :=
  keyed lc_ID t ∧ unique_on (λ l, Some (lc_TenantID l, lc_Name l)) t ∧ unique_on loc_code t.
Definition ipGroups_ok (t : gmap string IPGroup) : Prop :=
  keyed ig_ID t ∧ unique_on (λ g, Some (ig_TenantID g, ig_Name g)) t.
Definition hostGroups_ok (t : gmap string HostGroup) : Prop :=
  keyed hgr_ID t ∧ unique_on (λ g, Some (hgr_TenantID g, hgr_Name g)) t.
(** Members: one row per value of a group, and only of existing groups. *)
Definition ipMembers_ok (groups : gmap string IPGroup) (t : gmap string IPGroupMember) : Prop :=
  keyed im_ID t ∧ unique_on (λ x, Some (im_IPGroupID x, im_Value x)) t ∧
  ∀ k x, t !! k = Some x → is_Some (groups !! im_IPGroupID x).
Definition hostMembers_ok (groups : gmap string HostGroup) (t : gmap string HostGroupMember) : Prop :=
  keyed hm_ID t ∧ unique_on (λ x, Some (hm_HostGroupID x, hm_DeviceID x)) t ∧
  ∀ k x, t !! k = Some x → is_Some (groups !! hm_HostGroupID x).
(** Links belong to a stored interface and are unique there. *)
Definition link_key (l : DeviceInterfaceLink) : string * string * string := (dl_LinkSource l, dl_RemoteDeviceID l, dl_RemotePortName l).
Definition links_ok (ifaces : gmap string DeviceInterface) (t : gmap string (list DeviceInterfaceLink)) : Prop :=
  ∀ k l, t !! k = Some l → is_Some (ifaces !! k) ∧ NoDup (link_key <$> l) ∧ Forall (λ x, dl_InterfaceID x = k) l.
(** Credentials belong to a stored subnet. *)
Definition snmp_ok (subs : gmap string Subnet) (t : gmap string SubnetSNMP) : Prop :=
  keyed ss_SubnetID t ∧ ∀ k r, t !! k = Some r → is_Some (subs !! k).

Record mem_ok (m : Mem) : Prop := {
  ok_subnets : subnets_ok (mem_subnets m);
  ok_addrs : addrs_ok (mem_addrs m);
  ok_devices : devices_ok (mem_devices m);
  ok_ifaces : ifaces_ok (mem_ifaces m);
  ok_links : links_ok (mem_ifaces m) (mem_links m);
  ok_vlans : vlans_ok (mem_vlans m);
  ok_locs : locs_ok (mem_locs m);
  ok_ipGroups : ipGroups_ok (mem_ipGroups m);
  ok_hostGroups : hostGroups_ok (mem_hostGroups m);
  ok_ipMembers : ipMembers_ok (mem_ipGroups m) (mem_ipMembers m);
  ok_hostMembers : hostMembers_ok (mem_hostGroups m) (mem_hostMembers m);
  ok_snmp : snmp_ok (mem_subnets m) (mem_snmp m);
  ok_scans : keyed sj_ID (mem_scans m);
  ok_dns : keyed dc_TenantID (mem_dns m);
  ok_arp : keyed as_TenantID (mem_arp m)
}.

#[export] Hint Resolve ok_subnets ok_addrs ok_devices ok_ifaces ok_links ok_vlans ok_locs ok_ipGroups
  ok_hostGroups ok_ipMembers ok_hostMembers ok_snmp ok_scans ok_dns ok_arp : ipam.

Lemma New_ok : mem_ok New.
Proof.
  assert (Hn : ∀ {V} (t : gmap string V) (P : V → Prop), t = ∅ → ∀ k x, t !! k = Some x → P x).
  { intros V t P -> k x Hk. by rewrite lookup_empty in Hk. }
  assert (Hl : links_ok (mem_ifaces New) (mem_links New)) by (intros k l Hk; cbn in Hk; by rewrite lookup_empty in Hk).
  split; try exact Hl; repeat split; cbn; eauto with ipam; try (intros k x Hk; by rewrite lookup_empty in Hk).
Qed.

(** ** Actions that preserve it *)

Definition preserves {A} (op : M A) : Prop := ∀ w, mem_ok (w_mem w) → mem_ok (w_mem (fst (op w))).

Lemma preserves_ret {A} (a : A) : preserves (mret a).
Proof. intros w Hw. exact Hw. Qed.
Lemma preserves_throw {A} e : preserves (throw (A := A) e).
Proof. intros w Hw. exact Hw. Qed.
Lemma preserves_bind {A B} (op : M A) (k : A → M B) :
  preserves op → (∀ a, preserves (k a)) → preserves (op ≫= k).
Proof.
  intros Hop Hk w Hw. unfold mbind, M_bind. specialize (Hop w Hw).
  destruct (op w) as [w' [a|e]]; [by apply Hk|done].
Qed.

(** Reading the tables: the continuation may assume the constraints. *)
Lemma preserves_mem {B} (k : Mem → M B) :
  (∀ m, mem_ok m → ∀ w, w_mem w = m → mem_ok (w_mem (fst (k m w)))) → preserves (mem ≫= k).
Proof. intros Hk w Hw. cbn. by apply Hk. Qed.

Lemma preserves_at {B} (op : M B) m : preserves op → mem_ok m → ∀ w, w_mem w = m → mem_ok (w_mem (fst (op w))).
Proof. intros Hop Hm w <-. by apply Hop. Qed.

Section with_env.
Context `{Env}.

Lemma preserves_newID : preserves newID.
Proof. intros w Hw. exact Hw. Qed.
Lemma preserves_now : preserves now.
Proof. intros w Hw. exact Hw. Qed.
Lemma preserves_id (s : string) : preserves (if is_empty s then newID else mret s).
Proof. destruct (is_empty s); intros w Hw; exact Hw. Qed.

Lemma mem_ok_ext m m' :
  mem_ok m → mem_subnets m' = mem_subnets m → mem_addrs m' = mem_addrs m →
  mem_devices m' = mem_devices m → mem_ifaces m' = mem_ifaces m → mem_links m' = mem_links m → mem_vlans m' = mem_vlans m →
  mem_locs m' = mem_locs m → mem_ipGroups m' = mem_ipGroups m → mem_hostGroups m' = mem_hostGroups m →
  mem_ipMembers m' = mem_ipMembers m → mem_hostMembers m' = mem_hostMembers m →
  mem_snmp m' = mem_snmp m → mem_scans m' = mem_scans m → mem_dns m' = mem_dns m →
  mem_arp m' = mem_arp m → mem_ok m'.
Proof.
  intros Hm ???????????????. split;
    repeat match goal with E : ?f m' = _ |- context [?f m'] => rewrite E end; apply Hm.
Qed.

Lemma preserves_fail method : preserves (fail method).
Proof.
  intros w Hw. unfold fail, mbind, M_bind, mem. destruct (decide _); [|done].
  cbn. by eapply mem_ok_ext.
Qed.

Lemma preserves_audit row : preserves (appendAuditLocked row).
Proof.
  unfold appendAuditLocked. apply preserves_bind; [apply preserves_id|intros id].
  apply preserves_bind; [destruct (IsZero _); intros w Hw; exact Hw|intros t].
  intros w Hw. cbn. by eapply mem_ok_ext.
Qed.

Lemma preserves_mapM_ {A} (f : A → M ()) l : (∀ x, preserves (f x)) → preserves (mapM_ f l).
Proof.
  intros Hf. induction l as [|x l IH]; cbn [mapM_]; [apply preserves_ret|].
  apply preserves_bind; [apply Hf|intros _; exact IH].
Qed.
End with_env.

Lemma preserves_lift {A} (r : result error A) : preserves (lift r).
Proof. intros w Hw. exact Hw. Qed.
Lemma preserves_read : preserves mem.
Proof. intros w Hw. exact Hw. Qed.
Lemma preserves_publish e : preserves (publish_event e).
Proof. intros w Hw. exact Hw. Qed.
Lemma preserves_catch_map {A} g (op : M A) : preserves op → preserves (catch_map g op).
Proof. intros Hop w Hw. unfold catch_map. specialize (Hop w Hw). by destruct (op w) as [w' [a|e]]. Qed.
Lemma preserves_try {A} (op : M A) : preserves op → preserves (try op).
Proof. intros Hop w Hw. unfold try. specialize (Hop w Hw). by destruct (op w) as [w' r]. Qed.

Create HintDb preserves.
#[export] Hint Resolve preserves_ret preserves_throw preserves_lift preserves_read preserves_publish preserves_newID
  preserves_now preserves_id preserves_fail preserves_audit preserves_catch_map preserves_try : preserves.

(** Programs made of actions that preserve the constraints. *)
Ltac preserve :=
  repeat first
    [ solve [eauto with preserves]
    | apply preserves_bind; [|intros ?]
    | apply preserves_catch_map
    | apply preserves_try
    | match goal with
      | |- preserves (if ?b then _ else _) => destruct b
      | |- preserves (match ?x with _ => _ end) => destruct x
      end ].

(** ** Stepping through an action *)

Section stepping.
Context `{Env} {A : Type}.
Implicit Types (w : World) (P : World * result error A → Prop).

Lemma step_id s (k : string → M A) w P :
  (∀ id w', w_mem w' = w_mem w → P (k id w')) → P (((if is_empty s then newID else mret s) ≫= k) w).
Proof. intros HP. unfold mbind, M_bind. destruct (is_empty s); by apply HP. Qed.

Lemma step_now (k : Time → M A) w P :
  (∀ t w', w_mem w' = w_mem w → P (k t w')) → P ((now ≫= k) w).
Proof. intros HP. unfold mbind, M_bind. by apply HP. Qed.

Lemma step_mem (k : Mem → M A) w P : P (k (w_mem w) w) → P ((mem ≫= k) w).
Proof. done. Qed.

Lemma step_set f (k : () → M A) w P :
  (∀ w', w_mem w' = f (w_mem w) → P (k () w')) → P ((set_mem f ≫= k) w).
Proof. intros HP. by apply HP. Qed.
End stepping.

(** The goal after the guards: the tables the action writes. *)
Ltac op_open :=
  apply preserves_bind; [apply preserves_fail|intros _];
  apply preserves_mem; intros m Hm w Hw.

Ltac op_guard :=
  match goal with
  | |- mem_ok (w_mem (fst ((if ?b then _ else _) _))) => destruct b eqn:?
  | |- mem_ok (w_mem (fst ((match ?x with _ => _ end) _))) => destruct x eqn:?
  end; try (cbn; congruence).

Ltac op_id := apply (step_id _ _ _ (λ r, mem_ok (w_mem (fst r)))); intros ?id ?w1 ?Hw1.
Ltac op_now := apply (step_now _ _ (λ r, mem_ok (w_mem (fst r)))); intros ?t ?w2 ?Hw2.

(** The final write: substitute the tables read at the start. *)
Ltac op_write :=
  unfold mbind, M_bind; cbn; repeat match goal with E : w_mem _ = _ |- _ => rewrite E in *; clear E end;
  split; cbn; try solve [eauto with ipam].

(** ** Inserting rows *)

Lemma pair_neq (a b c d : string) : (a =s b) && (c =s d) = false → (a, c) ≠ (b, d).
Proof. intros E [= -> ->]. by rewrite !String.eqb_refl in E. Qed.

Lemma pair_neq_Z (a b : string) (c d : Z) : (a =s b) && (c =? d) = false → (a, c) ≠ (b, d).
Proof. intros E [= -> ->]. by rewrite String.eqb_refl, Z.eqb_refl in E. Qed.

Lemma table_insert {V X} (id : V → string) (key : V → X) (t : gmap string V) k v :
  keyed id t → unique_on (λ v, Some (key v)) t → id v = k →
  (∀ k' v', t !! k' = Some v' → k' ≠ k → key v' ≠ key v) →
  keyed id (<[k:=v]> t) ∧ unique_on (λ v, Some (key v)) (<[k:=v]> t).
Proof.
  intros Hk Hu Hid Hnew. split; [by apply keyed_insert|].
  apply unique_insert; [done|]. intros k' v' x Hne Hk' [= <-] [= E]. by eapply Hnew.
Qed.

Lemma table_replace {V X} (id : V → string) (key : V → X) (t : gmap string V) k v u :
  keyed id t → unique_on (λ v, Some (key v)) t → id v = k → t !! k = Some u → key v = key u →
  keyed id (<[k:=v]> t) ∧ unique_on (λ v, Some (key v)) (<[k:=v]> t).
Proof.
  intros Hk Hu Hid Hl Hkey. split; [by apply keyed_insert|].
  eapply unique_insert_same; [done|done|by rewrite Hkey].
Qed.

Lemma table_delete {V X} (id : V → string) (key : V → option X) (t : gmap string V) k :
  keyed id t → unique_on key t → keyed id (delete k t) ∧ unique_on key (delete k t).
Proof. intros Hk Hu. split; [by apply keyed_delete|]. eapply unique_subseteq; [done|apply delete_subseteq]. Qed.

Lemma table_delete_where {V X} (id : V → string) (key : V → option X) P (t : gmap string V) :
  keyed id t → unique_on key t →
  keyed id (map_delete_where P t) ∧ unique_on key (map_delete_where P t).
Proof.
  intros Hk Hu. split; [by apply keyed_delete_where|].
  eapply unique_subseteq; [done|apply delete_where_subseteq].
Qed.

Lemma table_update_where {V X} (id : V → string) (key : V → option X) P f (t : gmap string V) :
  (∀ v, id (f v) = id v) → (∀ v, key (f v) = key v) → keyed id t → unique_on key t →
  keyed id (map_update_where P f t) ∧ unique_on key (map_update_where P f t).
Proof. intros ????. split; [by apply keyed_update_where|by apply unique_update_where]. Qed.

(** The clash test of an update skips the row itself. *)
Lemma other_row {V} (id : V → string) (t : gmap string V) k v me :
  keyed id t → t !! k = Some v → k ≠ me → (id v =s me) = false.
Proof. intros Hk Hl Hne. rewrite (Hk k v Hl). by apply String.eqb_neq. Qed.

Ltac no_clash Hany :=
  let k := fresh "k'" in let v := fresh "v'" in let Hl := fresh "Hl" in let Hne := fresh "Hne" in
  let E := fresh "E" in
  intros k v Hl Hne; pose proof (proj1 (map_any_false _ _) Hany k v Hl) as E; cbn beta in E;
  rewrite ?(other_row _ _ _ _ _ ltac:(eassumption) Hl Hne) in E; cbn in E |- *;
  try (by apply pair_neq).

Lemma is_Some_insert {V} (t : gmap string V) k v k' : is_Some (t !! k') → is_Some (<[k:=v]> t !! k').
Proof. intros Hs. destruct (decide (k = k')) as [->|?]; [rewrite lookup_insert_eq|rewrite lookup_insert_ne]; eauto. Qed.

Lemma is_Some_update_where {V} P f (t : gmap string V) k :
  is_Some (t !! k) → is_Some (map_update_where P f t !! k).
Proof. rewrite lookup_update_where. intros [v ->]. by eexists. Qed.

(** Tables that refer to others survive writes that keep the referred rows. *)
Lemma snmp_ok_subnets subs subs' t :
  snmp_ok subs t → (∀ k, is_Some (subs !! k) → is_Some (subs' !! k)) → snmp_ok subs' t.
Proof. intros [Hk Hs] Hsub. split; [done|]. eauto. Qed.
Lemma ipMembers_ok_groups gs gs' t :
  ipMembers_ok gs t → (∀ k, is_Some (gs !! k) → is_Some (gs' !! k)) → ipMembers_ok gs' t.
Proof. intros (Hk & Hu & Hs) Hsub. split_and!; eauto. Qed.
Lemma hostMembers_ok_groups gs gs' t :
  hostMembers_ok gs t → (∀ k, is_Some (gs !! k) → is_Some (gs' !! k)) → hostMembers_ok gs' t.
Proof. intros (Hk & Hu & Hs) Hsub. split_and!; eauto. Qed.

Lemma links_ok_ifaces ifs ifs' t :
  links_ok ifs t → (∀ k, is_Some (ifs !! k) → is_Some (ifs' !! k)) → links_ok ifs' t.
Proof. intros Hl Hsub k l Hk. destruct (Hl k l Hk) as (? & ? & ?). eauto. Qed.

#[export] Hint Resolve is_Some_insert is_Some_update_where snmp_ok_subnets ipMembers_ok_groups
  hostMembers_ok_groups links_ok_ifaces : ipam.

(** ** Subnets *)

Section subnets.
Context `{Env}.

Lemma CreateSubnet_preserves s : preserves (CreateSubnet s).
Proof.
  unfold CreateSubnet. op_open. op_guard. op_id. op_now. op_write.
  destruct (ok_subnets _ Hm) as [Hk Hu]. apply table_insert; [done|done|done|]. no_clash Heqb.
Qed.

Lemma UpdateSubnet_preserves s : preserves (UpdateSubnet s).
Proof.
  unfold UpdateSubnet. op_open. op_guard. do 2 op_guard. op_now. op_write.
  destruct (ok_subnets _ Hm) as [Hk Hu]. apply table_insert; [done|done|done|]. no_clash Heqb0.
Qed.

Lemma DeleteSubnet_preserves tenantID id force : preserves (DeleteSubnet tenantID id force).
Proof.
  unfold DeleteSubnet. op_open. op_guard. op_guard. cbv zeta. op_guard. op_write.
  - destruct (ok_subnets _ Hm) as [Hk Hu]. apply table_delete; [apply keyed_update_where|apply unique_update_where]; done.
  - destruct (ok_addrs _ Hm). by apply table_delete_where.
  - destruct (ok_snmp _ Hm) as [Hk Hs]. split; [by apply keyed_delete|]. intros k r [Hne Hl]%lookup_delete_Some.
    rewrite lookup_delete_ne by done. eauto with ipam.
Qed.
End subnets.

(** ** Addresses *)

Section addresses.
Context `{Env}.

Lemma findAddr_none m tn ad k v :
  findAddrLocked m tn ad = None → mem_addrs m !! k = Some v → (ad_TenantID v, ad_Address v) ≠ (tn, ad).
Proof.
  intros Hf Hl. apply pair_neq. exact (proj1 (map_find_None _ _) Hf k v Hl).
Qed.

Lemma addrs_insert_new m k a :
  mem_ok m → findAddrLocked m (ad_TenantID a) (ad_Address a) = None → ad_ID a = k →
  addrs_ok (<[k:=a]> (mem_addrs m)).
Proof.
  intros Hm Hf Hid. destruct (ok_addrs _ Hm) as [Hk Hu]. apply table_insert; [done|done|done|].
  intros k' v' Hl _. by eapply findAddr_none.
Qed.

Lemma addrs_replace m k a u :
  mem_ok m → mem_addrs m !! k = Some u → ad_ID a = k → ad_TenantID a = ad_TenantID u →
  ad_Address a = ad_Address u → addrs_ok (<[k:=a]> (mem_addrs m)).
Proof.
  intros Hm Hl Hid Ht Ha. destruct (ok_addrs _ Hm) as [Hk Hu].
  eapply table_replace; [done|done|done|done|]. by rewrite Ht, Ha.
Qed.

Lemma CreateAddress_preserves a : preserves (CreateAddress a).
Proof.
  unfold CreateAddress. op_open. op_guard. op_id. op_now. op_write. by apply addrs_insert_new.
Qed.

Lemma UpdateAddress_preserves a : preserves (UpdateAddress a).
Proof.
  unfold UpdateAddress. op_open. op_guard. do 2 op_guard. op_now. op_write. bool_hyps.
  destruct (ad_Address a =s ad_Address i) eqn:E; cbn in Heqb0; bool_hyps.
  - by eapply addrs_replace.
  - apply addrs_insert_new; [done| |done]. by apply is_some_false.
Qed.

Lemma DeleteAddress_preserves tenantID id : preserves (DeleteAddress tenantID id).
Proof.
  unfold DeleteAddress. op_open. do 2 op_guard. op_write.
  destruct (ok_addrs _ Hm). by apply table_delete.
Qed.

Lemma UpsertAddressByAddress_preserves a : preserves (UpsertAddressByAddress a).
Proof.
  unfold UpsertAddressByAddress. apply preserves_bind; [apply preserves_fail|intros _].
  apply preserves_bind; [apply preserves_now|intros t]. apply preserves_mem; intros m Hm w Hw.
  destruct (findAddrLocked m (ad_TenantID a) (ad_Address a)) as [[k ex]|] eqn:E.
  - apply map_find_Some in E as [Hl Hp]. pose proof (proj1 (ok_addrs _ Hm) _ _ Hl). op_write.
    by eapply addrs_replace.
  - op_id. op_write. by apply addrs_insert_new.
Qed.
End addresses.

(** ** Devices and interfaces *)

Section devices.
Context `{Env}.

Lemma CreateDevice_preserves d : preserves (CreateDevice d).
Proof.
  unfold CreateDevice. op_open. op_guard. op_id. op_now. op_write.
  destruct (ok_devices _ Hm) as [Hk Hu]. apply table_insert; [done|done|done|]. no_clash Heqb.
Qed.

Lemma UpdateDevice_preserves d : preserves (UpdateDevice d).
Proof.
  unfold UpdateDevice. op_open. op_guard. do 2 op_guard. op_now. op_write.
  destruct (ok_devices _ Hm) as [Hk Hu]. apply table_insert; [done|done|done|]. no_clash Heqb0.
Qed.

Lemma lookup_foldr_delete {V} (t : gmap string V) ks k :
  foldr (λ i acc, delete i acc) t ks !! k = if decide (k ∈ ks) then None else t !! k.
Proof.
  induction ks as [|i ks IH]; cbn; [by rewrite decide_False by apply not_elem_of_nil|].
  destruct (decide (k = i)) as [->|Hne]; [by rewrite lookup_delete_eq, decide_True by left|].
  rewrite lookup_delete_ne, IH by done. apply decide_ext. rewrite elem_of_cons. tauto.
Qed.

(** Deleting interfaces with their links. *)
Lemma links_delete_where P ifs t :
  links_ok ifs t → links_ok (map_delete_where P ifs) (foldr (λ i acc, delete i acc) t (keys_where P ifs)).
Proof.
  intros Hok k l. rewrite lookup_foldr_delete. destruct (decide _) as [|Hno]; [done|]. intros Hl.
  destruct (Hok k l Hl) as ([i Hi] & ? & ?). split; [|done]. rewrite lookup_delete_where, Hi. destruct (P i) eqn:E; [|eauto].
  destruct Hno. unfold keys_where. apply list_elem_of_fmap. exists (k, i). split; [done|].
  apply list_elem_of_In, filter_In. split; [by apply list_elem_of_In, elem_of_map_to_list|done].
Qed.

Lemma DeleteDevice_preserves tenantID id force : preserves (DeleteDevice tenantID id force).
Proof.
  unfold DeleteDevice. op_open. do 2 op_guard. cbv zeta. op_guard. op_write.
  - destruct (ok_addrs _ Hm). by apply table_update_where.
  - destruct (ok_devices _ Hm). apply table_delete; [apply keyed_update_where|apply unique_update_where]; done.
  - destruct (ok_ifaces _ Hm). by apply table_delete_where.
  - apply links_delete_where, (ok_links _ Hm).
  - destruct (ok_hostMembers _ Hm) as (Hk & Hu & Hs).
    destruct (table_delete_where hm_ID (λ x, Some (hm_HostGroupID x, hm_DeviceID x))
                (λ hm, (hm_TenantID hm =s tenantID) && (hm_DeviceID hm =s id)) _ Hk Hu).
    split_and!; [done|done|]. intros k x Hl. apply (Hs k).
    eapply lookup_weaken; [exact Hl|apply delete_where_subseteq].
Qed.

Lemma mergeDevice_name ex d : dv_Name ex = dv_Name d → dv_Name (mergeDevice ex d) = dv_Name ex.
Proof. intros E. cbn. unfold set_str. rewrite E. by destruct (is_empty (dv_Name d)). Qed.

Lemma UpsertDeviceByName_preserves d : preserves (UpsertDeviceByName d).
Proof.
  unfold UpsertDeviceByName. apply preserves_bind; [apply preserves_fail|intros _].
  apply preserves_bind; [apply preserves_now|intros t]. apply preserves_mem; intros m Hm w Hw.
  destruct (ok_devices _ Hm) as [Hk Hu].
  destruct (map_find _ _) as [[k ex]|] eqn:E.
  - apply map_find_Some in E as [Hl Hp]. unfold same_device_name in Hp. bool_hyps. op_write.
    apply (table_replace _ _ _ _ _ ex); [done|done|done|done|]. cbn.
    destruct (dv_Source ex =s SrcHostReport); cbn -[mergeDevice]; [done|].
    by rewrite mergeDevice_name.
  - op_id. op_write. apply table_insert; [done|done|done|].
    intros k' v' Hl _. cbn. apply pair_neq. exact (proj1 (map_find_None _ _) E k' v' Hl).
Qed.

Lemma device_replace m k d u :
  mem_ok m → mem_devices m !! k = Some u → dv_ID d = k → dv_TenantID d = dv_TenantID u →
  dv_Name d = dv_Name u → devices_ok (<[k:=d]> (mem_devices m)).
Proof.
  intros Hm Hl Hid Ht Hn. destruct (ok_devices _ Hm) as [Hk Hu].
  eapply table_replace; [done|done|done|done|]. by rewrite Ht, Hn.
Qed.

Lemma SetDeviceBMCRef_preserves tenantID id ref row : preserves (SetDeviceBMCRef tenantID id ref row).
Proof.
  unfold SetDeviceBMCRef. op_open. do 2 op_guard. op_now.
  apply (step_set _ _ _ (λ r, mem_ok (w_mem (fst r)))). intros w3 Hw3.
  eapply preserves_at; [|shelve|exact Hw3].
  Unshelve.
  - apply preserves_bind; [apply preserves_audit|intros _; apply preserves_ret].
  - pose proof (proj1 (ok_devices _ Hm) _ _ Heqo). op_write. by eapply device_replace.
Qed.

Lemma CreateInterface_preserves i : preserves (CreateInterface i).
Proof.
  unfold CreateInterface. op_open. op_guard. op_id. op_now. op_write.
  destruct (ok_ifaces _ Hm) as [Hk Hu]. apply table_insert; [done|done|done|]. no_clash Heqb.
Qed.

Lemma UpsertInterfaceByName_preserves i : preserves (UpsertInterfaceByName i).
Proof.
  unfold UpsertInterfaceByName. apply preserves_bind; [apply preserves_fail|intros _].
  apply preserves_bind; [apply preserves_now|intros t]. apply preserves_mem; intros m Hm w Hw.
  destruct (ok_ifaces _ Hm) as [Hk Hu]. destruct (map_find _ _) as [[k ex]|] eqn:E.
  - apply map_find_Some in E as [Hl Hp]. unfold same_iface_name in Hp. bool_hyps. op_write.
    apply (table_replace _ _ _ _ _ ex); [done|done|done|done|]. cbn. by f_equal.
  - op_id. op_write. apply table_insert; [done|done|done|].
    intros k' v' Hl _. cbn. apply pair_neq. exact (proj1 (map_find_None _ _) E k' v' Hl).
Qed.

Lemma DeleteInterface_preserves tenantID id : preserves (DeleteInterface tenantID id).
Proof.
  unfold DeleteInterface. op_open. do 2 op_guard. op_write.
  - destruct (ok_ifaces _ Hm). by apply table_delete.
  - intros k l [Hne Hl]%lookup_delete_Some. rewrite lookup_delete_ne by done. by apply (ok_links _ Hm).
Qed.

Lemma copy_links_preserves tn ifc uniq l : preserves (copy_links tn ifc uniq l).
Proof.
  revert uniq. induction l as [|x l IH]; intros uniq; cbn [copy_links]; [apply preserves_ret|].
  destruct (decide _); [apply preserves_throw|].
  apply preserves_bind; [apply preserves_id|intros id].
  apply preserves_bind; [apply IH|intros cp; apply preserves_ret].
Qed.

Lemma copy_links_spec tn ifc l : ∀ uniq w,
  match copy_links tn ifc uniq l w with
  | (w', r) => w_mem w' = w_mem w ∧
      match r with
      | Ok cp => NoDup (link_key <$> cp) ∧ (∀ k, k ∈ link_key <$> cp → k ∉ uniq) ∧ Forall (λ x, dl_InterfaceID x = ifc) cp
      | Err _ => True
      end
  end.
Proof.
  induction l as [|x l IH]; intros uniq w; cbn [copy_links].
  { cbn. split; [done|]. split_and!; [constructor|by intros k ?%elem_of_nil|constructor]. }
  destruct (decide _) as [|Hno]; [done|]. unfold mbind at 1, M_bind at 1.
  assert (Hid : ∃ w1 id, (if is_empty (dl_ID x) then newID else mret (dl_ID x)) w = (w1, Ok id) ∧ w_mem w1 = w_mem w) by (destruct (is_empty _); by eexists _, _).
  destruct Hid as (w1 & id & -> & E1). unfold mbind, M_bind. specialize (IH ({[link_key x]} ∪ uniq) w1).
  change (dl_LinkSource x, dl_RemoteDeviceID x, dl_RemotePortName x) with (link_key x) in *.
  destruct (copy_links tn ifc ({[link_key x]} ∪ uniq) l w1) as [w2 [cp|e]]; destruct IH as [E2 IH]; cbn; (split; [congruence|]); [|done].
  destruct IH as (Hnd & Hout & Hf). change (link_key {| x with dl_ID := id; dl_TenantID := tn; dl_InterfaceID := ifc |}) with (link_key x). split_and!.
  - constructor; [|done]. intros Hin%Hout. set_solver.
  - intros k [->|Hk%Hout]%elem_of_cons; [done|set_solver].
  - by constructor.
Qed.

Lemma ReplaceInterfaceLinks_preserves tn ifc l : preserves (ReplaceInterfaceLinks tn ifc l).
Proof.
  unfold ReplaceInterfaceLinks. op_open. do 2 op_guard. unfold mbind, M_bind.
  pose proof (copy_links_spec tn ifc l ∅ w) as Hc. destruct (copy_links tn ifc ∅ l w) as [w1 [cp|e]]; destruct Hc as [E Hcp]; rewrite Hw in E.
  2: { cbn. by rewrite E. }
  destruct Hcp as (Hnd & _ & Hifc). op_write. intros k lk [[<- <-]|[Hne Hk]]%lookup_insert_Some; [|by apply (ok_links _ Hm)].
  split_and!; eauto.
Qed.

Lemma copy_packages_preserves tn dev t seen l : preserves (copy_packages tn dev t seen l).
Proof.
  revert seen. induction l as [|x l IH]; intros seen; cbn [copy_packages]; [apply preserves_ret|].
  destruct (decide _); [apply preserves_throw|].
  apply preserves_bind; [apply preserves_id|intros id].
  apply preserves_bind; [apply IH|intros cp; apply preserves_ret].
Qed.

Lemma ReplaceDevicePackages_preserves tn dev l : preserves (ReplaceDevicePackages tn dev l).
Proof.
  unfold ReplaceDevicePackages. apply preserves_bind; [apply preserves_fail|intros _].
  apply preserves_bind; [apply preserves_now|intros t].
  apply preserves_bind; [apply copy_packages_preserves|]. intros cp w' Hw'. cbn. by eapply mem_ok_ext.
Qed.

Lemma DeleteDevicePackages_preserves tn dev : preserves (DeleteDevicePackages tn dev).
Proof.
  unfold DeleteDevicePackages. apply preserves_bind; [apply preserves_fail|intros _].
  intros w' Hw'. cbn. by eapply mem_ok_ext.
Qed.
End devices.

(** ** VLANs and locations *)

Section catalogue.
Context `{Env}.

Lemma or_clash (b c d : bool) : b && (c || d) = false → b && c = false ∧ b && d = false.
Proof. by destruct b, c, d. Qed.

Lemma vlans_insert m v k :
  mem_ok m → vl_ID v = k →
  (∀ k' v', mem_vlans m !! k' = Some v' → k' ≠ k →
     (vl_TenantID v' =s vl_TenantID v) && ((vl_VlanID v' =? vl_VlanID v) || (vl_Name v' =s vl_Name v)) = false) →
  vlans_ok (<[k:=v]> (mem_vlans m)).
Proof.
  intros Hm Hid Hc. destruct (ok_vlans _ Hm) as (Hk & Hu1 & Hu2). split_and!.
  - by apply keyed_insert.
  - apply (table_insert vl_ID (λ v, (vl_TenantID v, vl_VlanID v))); [done|done|done|].
    intros k' v' Hl Hne. apply pair_neq_Z, (or_clash _ _ _ (Hc k' v' Hl Hne)).
  - apply (table_insert vl_ID (λ v, (vl_TenantID v, vl_Name v))); [done|done|done|].
    intros k' v' Hl Hne. apply pair_neq, (or_clash _ _ _ (Hc k' v' Hl Hne)).
Qed.

Lemma CreateVlan_preserves v : preserves (CreateVlan v).
Proof.
  unfold CreateVlan. op_open. op_guard. op_id. op_now. op_write.
  apply vlans_insert; [done|done|]. no_clash Heqb. done.
Qed.

Lemma UpdateVlan_preserves v : preserves (UpdateVlan v).
Proof.
  unfold UpdateVlan. op_open. op_guard. do 2 op_guard. op_now. op_write.
  destruct (ok_vlans _ Hm) as (Hk & _). apply vlans_insert; [done|done|]. no_clash Heqb0. done.
Qed.

Lemma vlans_update_where P f m :
  mem_ok m → (∀ v, vl_ID (f v) = vl_ID v ∧ vl_TenantID (f v) = vl_TenantID v ∧
              vl_VlanID (f v) = vl_VlanID v ∧ vl_Name (f v) = vl_Name v) →
  vlans_ok (map_update_where P f (mem_vlans m)).
Proof.
  intros Hm Hf. destruct (ok_vlans _ Hm) as (Hk & Hu1 & Hu2).
  split_and!; [apply keyed_update_where|apply unique_update_where|apply unique_update_where]; try done;
    intros v; destruct (Hf v) as (? & ? & ? & ?); congruence.
Qed.

Lemma subnets_update_where P f m :
  mem_ok m → (∀ s, sn_ID (f s) = sn_ID s ∧ sn_TenantID (f s) = sn_TenantID s ∧ sn_Name (f s) = sn_Name s) →
  subnets_ok (map_update_where P f (mem_subnets m)).
Proof.
  intros Hm Hf. destruct (ok_subnets _ Hm). apply table_update_where; try done;
    intros s; destruct (Hf s) as (? & ? & ?); congruence.
Qed.

Lemma DeleteVlan_preserves tenantID id force : preserves (DeleteVlan tenantID id force).
Proof.
  unfold DeleteVlan. op_open. do 2 op_guard. cbv zeta. op_guard. op_write.
  - by apply subnets_update_where.
  - destruct (ok_vlans _ Hm) as (Hk & Hu1 & Hu2).
    split_and!; [by apply keyed_delete|eapply unique_subseteq; [done|apply delete_subseteq]..].
Qed.

Lemma locs_insert m l k :
  mem_ok m → lc_ID l = k →
  (∀ k' v', mem_locs m !! k' = Some v' → k' ≠ k → loc_clash l v' = false) →
  locs_ok (<[k:=l]> (mem_locs m)).
Proof.
  intros Hm Hid Hc. destruct (ok_locs _ Hm) as (Hk & Hu1 & Hu2). split_and!.
  - by apply keyed_insert.
  - apply (table_insert lc_ID (λ l, (lc_TenantID l, lc_Name l))); [done|done|done|].
    intros k' v' Hl Hne. apply pair_neq, (or_clash _ _ _ (Hc k' v' Hl Hne)).
  - apply unique_insert; [done|]. intros k' v' x Hne Hl Hx Hv.
    pose proof (proj2 (or_clash _ _ _ (Hc k' v' Hl Hne))) as E. unfold loc_code in *.
    destruct (is_empty (lc_Code v')), (is_empty (lc_Code l)); try done.
    simplify_eq. cbn in E. apply pair_neq in E. congruence.
Qed.

Lemma CreateLocation_preserves l : preserves (CreateLocation l).
Proof.
  unfold CreateLocation. op_open. op_guard. op_id. op_now. op_write.
  apply locs_insert; [done|done|]. no_clash Heqb. done.
Qed.

Lemma UpdateLocation_preserves l : preserves (UpdateLocation l).
Proof.
  unfold UpdateLocation. op_open. op_guard. do 2 op_guard. op_now. op_write.
  destruct (ok_locs _ Hm) as (Hk & _). apply locs_insert; [done|done|]. no_clash Heqb0. done.
Qed.

Lemma DeleteLocation_preserves tenantID id force : preserves (DeleteLocation tenantID id force).
Proof.
  unfold DeleteLocation. op_open. do 2 op_guard. cbv zeta. op_guard. op_write.
  - by apply subnets_update_where.
  - destruct (ok_devices _ Hm). by apply table_update_where.
  - by apply vlans_update_where.
  - destruct (ok_locs _ Hm) as (Hk & Hu1 & Hu2). split_and!.
    + by apply keyed_delete, keyed_update_where.
    + eapply unique_subseteq; [|apply delete_subseteq]. by apply unique_update_where.
    + eapply unique_subseteq; [|apply delete_subseteq]. by apply unique_update_where.
Qed.
End catalogue.

(** ** Groups *)

Section groups.
Context `{Env}.

Lemma CreateIPGroup_preserves g : preserves (CreateIPGroup g).
Proof.
  unfold CreateIPGroup. op_open. op_guard. op_id. op_now. op_write.
  destruct (ok_ipGroups _ Hm) as [Hk Hu]. apply table_insert; [done|done|done|]. no_clash Heqb.
Qed.

Lemma UpdateIPGroup_preserves g : preserves (UpdateIPGroup g).
Proof.
  unfold UpdateIPGroup. op_open. op_guard. do 2 op_guard. op_now. op_write.
  destruct (ok_ipGroups _ Hm) as [Hk Hu]. apply table_insert; [done|done|done|]. no_clash Heqb0.
Qed.

Lemma DeleteIPGroup_preserves tenantID id : preserves (DeleteIPGroup tenantID id).
Proof.
  unfold DeleteIPGroup. op_open. do 2 op_guard. op_write.
  - destruct (ok_ipGroups _ Hm). by apply table_delete.
  - destruct (ok_ipMembers _ Hm) as (Hk & Hu & Hs).
    destruct (table_delete_where _ _ (λ x, im_IPGroupID x =s id) _ Hk Hu).
    split_and!; [done|done|]. intros k x Hl. rewrite lookup_delete_where in Hl.
    destruct (mem_ipMembers m !! k) as [y|] eqn:E; [|done]. destruct (im_IPGroupID y =s id) eqn:Ey; [done|].
    simplify_eq. bool_hyps. rewrite lookup_delete_ne by done. eauto.
Qed.

Lemma ipMembers_insert m x k :
  mem_ok m → im_ID x = k → is_Some (mem_ipGroups m !! im_IPGroupID x) →
  (∀ k' v', mem_ipMembers m !! k' = Some v' → k' ≠ k →
     (im_IPGroupID v', im_Value v') ≠ (im_IPGroupID x, im_Value x)) →
  ipMembers_ok (mem_ipGroups m) (<[k:=x]> (mem_ipMembers m)).
Proof.
  intros Hm Hid Hg Hc. destruct (ok_ipMembers _ Hm) as (Hk & Hu & Hs).
  destruct (table_insert im_ID (λ x, (im_IPGroupID x, im_Value x)) _ k x Hk Hu Hid Hc).
  split_and!; [done|done|]. intros k' v' [[_ <-]|[_ Hl]]%lookup_insert_Some; eauto.
Qed.

Lemma AddIPGroupMember_preserves x : preserves (AddIPGroupMember x).
Proof.
  unfold AddIPGroupMember. op_open. do 3 op_guard. op_id. op_write.
  apply ipMembers_insert; [done|done|cbn; by rewrite Heqo|]. no_clash Heqb0.
Qed.

Lemma RemoveIPGroupMember_preserves tn id : preserves (RemoveIPGroupMember tn id).
Proof.
  unfold RemoveIPGroupMember. op_open. do 2 op_guard. op_write.
  destruct (ok_ipMembers _ Hm) as (Hk & Hu & Hs). destruct (table_delete _ _ _ id Hk Hu).
  split_and!; [done|done|]. intros k y [_ Hl]%lookup_delete_Some. eauto.
Qed.

Lemma UpdateIPGroupMember_preserves x : preserves (UpdateIPGroupMember x).
Proof.
  unfold UpdateIPGroupMember. op_open. do 3 op_guard. op_write.
  destruct (ok_ipMembers _ Hm) as (Hk & Hu & Hs).
  apply ipMembers_insert; [done|done|cbn; eauto|]. no_clash Heqb0.
Qed.

Lemma CreateHostGroup_preserves g : preserves (CreateHostGroup g).
Proof.
  unfold CreateHostGroup. op_open. op_guard. op_id. op_now. op_write.
  destruct (ok_hostGroups _ Hm) as [Hk Hu]. apply table_insert; [done|done|done|]. no_clash Heqb.
Qed.

Lemma UpdateHostGroup_preserves g : preserves (UpdateHostGroup g).
Proof.
  unfold UpdateHostGroup. op_open. op_guard. do 2 op_guard. op_now. op_write.
  destruct (ok_hostGroups _ Hm) as [Hk Hu]. apply table_insert; [done|done|done|]. no_clash Heqb0.
Qed.

Lemma DeleteHostGroup_preserves tenantID id : preserves (DeleteHostGroup tenantID id).
Proof.
  unfold DeleteHostGroup. op_open. do 2 op_guard. op_write.
  - destruct (ok_hostGroups _ Hm). by apply table_delete.
  - destruct (ok_hostMembers _ Hm) as (Hk & Hu & Hs).
    destruct (table_delete_where _ _ (λ x, hm_HostGroupID x =s id) _ Hk Hu).
    split_and!; [done|done|]. intros k x Hl. rewrite lookup_delete_where in Hl.
    destruct (mem_hostMembers m !! k) as [y|] eqn:E; [|done]. destruct (hm_HostGroupID y =s id) eqn:Ey; [done|].
    simplify_eq. bool_hyps. rewrite lookup_delete_ne by done. eauto.
Qed.

Lemma hostMembers_insert m x k :
  mem_ok m → hm_ID x = k → is_Some (mem_hostGroups m !! hm_HostGroupID x) →
  (∀ k' v', mem_hostMembers m !! k' = Some v' → k' ≠ k →
     (hm_HostGroupID v', hm_DeviceID v') ≠ (hm_HostGroupID x, hm_DeviceID x)) →
  hostMembers_ok (mem_hostGroups m) (<[k:=x]> (mem_hostMembers m)).
Proof.
  intros Hm Hid Hg Hc. destruct (ok_hostMembers _ Hm) as (Hk & Hu & Hs).
  destruct (table_insert hm_ID (λ x, (hm_HostGroupID x, hm_DeviceID x)) _ k x Hk Hu Hid Hc).
  split_and!; [done|done|]. intros k' v' [[_ <-]|[_ Hl]]%lookup_insert_Some; eauto.
Qed.

Lemma AddHostGroupMember_preserves x : preserves (AddHostGroupMember x).
Proof.
  unfold AddHostGroupMember. op_open. do 3 op_guard. op_id. op_write.
  apply hostMembers_insert; [done|done|cbn; by rewrite Heqo|]. no_clash Heqb0.
Qed.

Lemma RemoveHostGroupMember_preserves tn id : preserves (RemoveHostGroupMember tn id).
Proof.
  unfold RemoveHostGroupMember. op_open. do 2 op_guard. op_write.
  destruct (ok_hostMembers _ Hm) as (Hk & Hu & Hs). destruct (table_delete _ _ _ id Hk Hu).
  split_and!; [done|done|]. intros k y [_ Hl]%lookup_delete_Some. eauto.
Qed.

Lemma UpdateHostGroupMember_preserves x : preserves (UpdateHostGroupMember x).
Proof.
  unfold UpdateHostGroupMember. op_open. do 3 op_guard. op_write.
  destruct (ok_hostMembers _ Hm) as (Hk & Hu & Hs).
  apply hostMembers_insert; [done|done|cbn; eauto|]. no_clash Heqb0.
Qed.
End groups.

(** ** Scan queue, settings, credentials *)

Section scans.
Context `{Env}.

Lemma CreateScanJob_preserves j : preserves (CreateScanJob j).
Proof.
  unfold CreateScanJob. apply preserves_bind; [apply preserves_fail|intros _]. intros w Hm.
  op_id. op_now. op_write.
Qed.

Lemma UpdateScanJob_preserves j : preserves (UpdateScanJob j).
Proof.
  unfold UpdateScanJob. op_open. do 2 op_guard. op_now. op_write.
Qed.

Lemma claim_keyed t (due : list IPScanJob) (tab : gmap string IPScanJob) :
  keyed sj_ID tab → keyed sj_ID (foldl (λ acc j, <[sj_ID j := j]> acc) tab (claim t <$> due)).
Proof.
  revert tab. induction due as [|j due IH]; intros tab Ht; [done|].
  apply IH. by apply keyed_insert.
Qed.

Lemma ClaimDueScanJobs_preserves at_ limit : preserves (ClaimDueScanJobs at_ limit).
Proof.
  unfold ClaimDueScanJobs. op_open. cbv zeta. op_now. op_write. apply claim_keyed, Hm.
Qed.

Lemma UpsertDNSConfig_preserves c : preserves (UpsertDNSConfig c).
Proof.
  unfold UpsertDNSConfig. apply preserves_bind; [apply preserves_fail|intros _].
  apply preserves_bind; [apply preserves_now|intros t]. apply preserves_mem; intros m Hm w Hw.
  destruct (mem_dns m !! dc_TenantID c) as [ex|].
  - op_write.
  - unfold mbind at 1, M_bind at 1. destruct (is_empty (dc_ID c)); op_write.
Qed.

Lemma AppendAudit_preserves row : preserves (AppendAudit row).
Proof. apply preserves_bind; [apply preserves_fail|intros _; apply preserves_audit]. Qed.

Lemma preserves_write f {A} (k : () → M A) m w :
  w_mem w = m → mem_ok (f m) → (∀ u, preserves (k u)) → mem_ok (w_mem (fst ((set_mem f ≫= k) w))).
Proof.
  intros <- Hf Hk. apply (step_set _ _ _ (λ r, mem_ok (w_mem (fst r)))). intros w' Hw'.
  by eapply preserves_at; [apply Hk|exact Hf|exact Hw'].
Qed.

Lemma PutSubnetSNMP_preserves row audit : preserves (PutSubnetSNMP row audit).
Proof.
  unfold PutSubnetSNMP. op_open. do 2 op_guard. op_now.
  eapply preserves_write; [exact Hw2| |intros u; apply preserves_audit].
  rewrite Hw. split; cbn; try solve [eauto with ipam].
  destruct (ok_snmp _ Hm) as [Hk Hs]. split; [by apply keyed_insert|].
  intros k r [[<- <-]|[_ Hl]]%lookup_insert_Some; eauto.
Qed.

Lemma DeleteSubnetSNMP_preserves tn id audit : preserves (DeleteSubnetSNMP tn id audit).
Proof.
  unfold DeleteSubnetSNMP. op_open. do 2 op_guard.
  eapply preserves_write; [exact Hw| |intros u; apply preserves_audit].
  split; cbn; try solve [eauto with ipam].
  destruct (ok_snmp _ Hm) as [Hk Hs]. split; [by apply keyed_delete|].
  intros k r [_ Hl]%lookup_delete_Some; eauto.
Qed.

Lemma PutARPSettings_preserves s audit : preserves (PutARPSettings s audit).
Proof.
  unfold PutARPSettings. apply preserves_bind; [apply preserves_fail|intros _].
  apply preserves_bind; [apply preserves_now|intros t]. intros w Hm.
  eapply preserves_write; [reflexivity| |intros u; apply preserves_audit].
  split; cbn; try solve [eauto with ipam].
Qed.

(** ** ARP and switch-port links *)

Lemma arp_change_same op a a' :
  arp_change op a = Some a' →
  ad_ID a' = ad_ID a ∧ ad_TenantID a' = ad_TenantID a ∧ ad_Address a' = ad_Address a.
Proof. unfold arp_change. intros E. repeat inv_step E; by simplify_eq. Qed.

Lemma applyARPOp_preserves tn op : preserves (applyARPOpLocked tn op).
Proof.
  unfold applyARPOpLocked. apply preserves_mem; intros m Hm w Hw. op_guard.
  - cbv zeta. do 2 op_guard. op_now. op_now. op_write. apply orb_false_iff in Heqb0 as [Hf _].
    by apply addrs_insert_new; [|apply is_some_false|].
  - do 3 op_guard. op_now. destruct (arp_change_same _ _ _ Heqo0) as (Hid & Ht & Ha).
    pose proof (proj1 (ok_addrs _ Hm) _ _ Heqo). op_write. rewrite H0.
    eapply addrs_replace; [done|exact Heqo|cbn; congruence|done|done].
Qed.

Lemma append_rows_preserves tn l : preserves (append_rows tn l).
Proof. apply preserves_mapM_. intros row. apply preserves_audit. Qed.

Lemma ApplyARP_preserves tn ops summary : preserves (ApplyARP tn ops summary).
Proof.
  unfold ApplyARP. apply preserves_bind; [apply preserves_fail|intros _].
  apply preserves_bind; [|intros _; apply append_rows_preserves].
  apply preserves_mapM_. intros op. apply preserves_bind; [apply applyARPOp_preserves|].
  intros []; [apply append_rows_preserves|apply preserves_ret].
Qed.

Lemma stamp_links_mem l w : w_mem (fst (stamp_links l w)) = w_mem w.
Proof.
  revert w. induction l as [|x l IH]; intros w; [done|]. cbn [stamp_links].
  unfold mbind, M_bind. destruct (hl_LastSeen x); cbn;
    match goal with |- context [stamp_links l ?w'] => specialize (IH w'); destruct (stamp_links l w') as [? [?|?]] end;
    cbn in *; done.
Qed.

(** Host links are outside the constrained tables. *)
Lemma setHostLinks_tables tn kind id links w :
  ∃ hl, w_mem (fst (setHostLinksLocked tn kind id links w)) =
    (let m := w_mem w in {| m with mem_hostLinks := hl |}).
Proof.
  unfold setHostLinksLocked. destruct links as [|l links]; [eexists; reflexivity|].
  unfold mbind, M_bind. pose proof (stamp_links_mem (l :: links) w) as E.
  destruct (stamp_links (l :: links) w) as [w' [cp|e]]; cbn in *.
  - rewrite E. by eexists.
  - exists (mem_hostLinks (w_mem w)). rewrite E. by destruct (w_mem w).
Qed.

Lemma setHostLinks_preserves tn kind id links : preserves (setHostLinksLocked tn kind id links).
Proof.
  intros w Hm. destruct (setHostLinks_tables tn kind id links w) as [hl ->]. by eapply mem_ok_ext.
Qed.
End scans.

Section port_links.
Context `{Env}.

(** Writing a link keeps every row present and the constraints. *)
Lemma set_addr_link_step tn a w :
  mem_ok (w_mem w) → is_Some (mem_addrs (w_mem w) !! ad_ID a) →
  let w' := fst (set_addr_link tn a w) in
  mem_ok (w_mem w') ∧ ∀ k, is_Some (mem_addrs (w_mem w) !! k) → is_Some (mem_addrs (w_mem w') !! k).
Proof.
  intros Hm [u Hu]. cbv zeta. unfold set_addr_link, mbind, M_bind.
  destruct (setHostLinks_tables tn HostKindAddress (ad_ID a) (ad_Links a) w) as [hl Hhl].
  destruct (setHostLinksLocked tn HostKindAddress (ad_ID a) (ad_Links a) w) as [w1 [[]|e]]; cbn in Hhl |- *;
    rewrite Hhl; cbn; [|split; [by eapply mem_ok_ext|done]].
  rewrite Hu. cbn. split; [|intros k; apply is_Some_insert].
  split; cbn; try solve [eauto with ipam]. eapply addrs_replace; [done|exact Hu| |done|done].
  cbn. exact (proj1 (ok_addrs _ Hm) _ _ Hu).
Qed.

Lemma set_iface_link_step tn i w :
  mem_ok (w_mem w) → is_Some (mem_ifaces (w_mem w) !! di_ID i) →
  let w' := fst (set_iface_link tn i w) in
  mem_ok (w_mem w') ∧ ∀ k, is_Some (mem_ifaces (w_mem w) !! k) → is_Some (mem_ifaces (w_mem w') !! k).
Proof.
  intros Hm [u Hu]. cbv zeta. unfold set_iface_link, mbind, M_bind.
  destruct (setHostLinks_tables tn HostKindInterface (di_ID i) (di_Links i) w) as [hl Hhl].
  destruct (setHostLinksLocked tn HostKindInterface (di_ID i) (di_Links i) w) as [w1 [[]|e]]; cbn in Hhl |- *;
    rewrite Hhl; cbn; [|split; [by eapply mem_ok_ext|done]].
  rewrite Hu. cbn. split; [|intros k; apply is_Some_insert].
  split; cbn; try solve [eauto with ipam]. destruct (ok_ifaces _ Hm) as [Hk Huq].
  eapply table_replace; [done|done| |exact Hu|done]. cbn. eauto.
Qed.

Lemma mapM_step {X} (f : X → M ()) (good : X → World → Prop) l w :
  (∀ x w, mem_ok (w_mem w) → good x w → mem_ok (w_mem (fst (f x w))) ∧
     ∀ y, good y w → good y (fst (f x w))) →
  mem_ok (w_mem w) → Forall (λ x, good x w) l → mem_ok (w_mem (fst (mapM_ f l w))).
Proof.
  intros Hf. revert w. induction l as [|x l IH]; intros w Hm Hg; [done|].
  apply Forall_cons in Hg as [Hx Hl]. destruct (Hf x w Hm Hx) as [Hm' Hkeep].
  cbn [mapM_]. unfold mbind, M_bind. destruct (f x w) as [w' [[]|e]]; cbn in *; [|done].
  apply IH; [done|]. eapply Forall_impl; [exact Hl|]. auto.
Qed.

Lemma SetAddressLinks_preserves tn l audit : preserves (SetAddressLinks tn l audit).
Proof.
  unfold SetAddressLinks. op_open. op_guard. unfold mbind, M_bind.
  pose proof (mapM_step (set_addr_link tn) (λ a w, is_Some (mem_addrs (w_mem w) !! ad_ID a)) l w) as Hs.
  destruct (mapM_ (set_addr_link tn) l w) as [w' [[]|e]].
  1: apply append_rows_preserves. all: apply Hs; [|by rewrite Hw|].
  1,3: intros x w0 Hm0 Hx; destruct (set_addr_link_step tn x w0 Hm0 Hx); split; auto.
  all: apply Forall_forall; intros x Hx; rewrite forallb_forall in Heqb;
    rewrite list_elem_of_In in Hx; specialize (Heqb x Hx); rewrite Hw;
    destruct (mem_addrs m !! ad_ID x); done.
Qed.

Lemma SetInterfaceLinks_preserves tn l audit : preserves (SetInterfaceLinks tn l audit).
Proof.
  unfold SetInterfaceLinks. op_open. op_guard. unfold mbind, M_bind.
  pose proof (mapM_step (set_iface_link tn) (λ i w, is_Some (mem_ifaces (w_mem w) !! di_ID i)) l w) as Hs.
  destruct (mapM_ (set_iface_link tn) l w) as [w' [[]|e]].
  1: apply append_rows_preserves. all: apply Hs; [|by rewrite Hw|].
  1,3: intros x w0 Hm0 Hx; destruct (set_iface_link_step tn x w0 Hm0 Hx); split; auto.
  all: apply Forall_forall; intros x Hx; rewrite forallb_forall in Heqb;
    rewrite list_elem_of_In in Hx; specialize (Heqb x Hx); rewrite Hw;
    destruct (mem_ifaces m !! di_ID x); done.
Qed.
End port_links.

#[export] Hint Resolve CreateSubnet_preserves UpdateSubnet_preserves DeleteSubnet_preserves CreateAddress_preserves
  UpdateAddress_preserves DeleteAddress_preserves UpsertAddressByAddress_preserves CreateDevice_preserves
  UpdateDevice_preserves DeleteDevice_preserves UpsertDeviceByName_preserves SetDeviceBMCRef_preserves
  CreateInterface_preserves UpsertInterfaceByName_preserves DeleteInterface_preserves copy_links_preserves
  ReplaceInterfaceLinks_preserves copy_packages_preserves ReplaceDevicePackages_preserves DeleteDevicePackages_preserves
  CreateVlan_preserves UpdateVlan_preserves DeleteVlan_preserves CreateLocation_preserves
  UpdateLocation_preserves DeleteLocation_preserves CreateIPGroup_preserves UpdateIPGroup_preserves
  DeleteIPGroup_preserves AddIPGroupMember_preserves RemoveIPGroupMember_preserves UpdateIPGroupMember_preserves
  CreateHostGroup_preserves UpdateHostGroup_preserves DeleteHostGroup_preserves AddHostGroupMember_preserves
  RemoveHostGroupMember_preserves UpdateHostGroupMember_preserves CreateScanJob_preserves UpdateScanJob_preserves
  ClaimDueScanJobs_preserves UpsertDNSConfig_preserves AppendAudit_preserves PutSubnetSNMP_preserves
  DeleteSubnetSNMP_preserves PutARPSettings_preserves applyARPOp_preserves append_rows_preserves
  ApplyARP_preserves setHostLinks_preserves SetAddressLinks_preserves SetInterfaceLinks_preserves : preserves.

Lemma FailNext_preserves x : preserves (FailNext x).
Proof. intros w Hm. cbn. by eapply mem_ok_ext. Qed.

(** An environment to run examples in. *)
Definition ex_env : Env := {|
  env_rand := λ n, List.map (λ i, Z.of_nat n / 256 ^ Z.of_nat (15 - i) mod 256) (seq 0 16);
  env_ms := λ n, 1700000000000 + Z.of_nat n;
  env_clock := λ n, 1000 + Z.of_nat n;
  env_unicode_lower := λ s, s;
  env_unicode_fold := λ s t, s =s t;
  env_unicode_print := λ _, true
|}.
