(* ===== verification/HostTxProps.v ===== *)
(** * The host-sync transaction is all or nothing

    A transaction program only touches the tables [ApplyHostReport] restores,
    appends audit rows and disarms injected failures ([tx_frame]); it keeps the
    integrity constraints.  Both are proved method by method and composed. *)

From S2P Require Import Prelude Models Store Hostreport MemNet MemDev HostTx MemInv.

(** ** The tables a transaction may touch *)

Record tx_frame (m m' : Mem) : Prop := {
  fr_links : mem_links m' = mem_links m;
  fr_vlans : mem_vlans m' = mem_vlans m;
  fr_locs : mem_locs m' = mem_locs m;
  fr_ipGroups : mem_ipGroups m' = mem_ipGroups m;
  fr_ipMembers : mem_ipMembers m' = mem_ipMembers m;
  fr_hostGroups : mem_hostGroups m' = mem_hostGroups m;
  fr_hostMembers : mem_hostMembers m' = mem_hostMembers m;
  fr_scans : mem_scans m' = mem_scans m;
  fr_dns : mem_dns m' = mem_dns m;
  fr_hsSettings : mem_hsSettings m' = mem_hsSettings m;
  fr_snmp : mem_snmp m' = mem_snmp m;
  fr_arp : mem_arp m' = mem_arp m;
  fr_hostLinks : mem_hostLinks m' = mem_hostLinks m;
  fr_audit : ∃ l, mem_audit m' = mem_audit m ++ l;
  fr_failNext : mem_failNext m' ⊆ mem_failNext m
}.

#[export] Instance tx_frame_refl : Reflexive tx_frame.
Proof. intros m. split; try done. by exists []; rewrite app_nil_r. Qed.
#[export] Instance tx_frame_trans : Transitive tx_frame.
Proof.
  intros m1 m2 m3 H12 H23. destruct H12, H23. split; try congruence; [|set_solver].
  destruct fr_audit0 as [l1 E1], fr_audit1 as [l2 E2]. exists (l1 ++ l2). by rewrite E2, E1, app_assoc.
Qed.

(** Only these tables change, and no event is published. *)
Definition framed {A} (op : M A) : Prop :=
  ∀ w, tx_frame (w_mem w) (w_mem (fst (op w))) ∧ w_events (fst (op w)) = w_events w ∧ (w_ids w ≤ w_ids (fst (op w)))%nat.

Lemma framed_pure {A} (op : M A) :
  (∀ w, w_mem (fst (op w)) = w_mem w ∧ w_events (fst (op w)) = w_events w ∧ (w_ids w ≤ w_ids (fst (op w)))%nat) → framed op.
Proof. intros Hp w. by destruct (Hp w) as (-> & -> & ?). Qed.
Lemma framed_ret {A} (a : A) : framed (mret a).
Proof. by apply framed_pure. Qed.
Lemma framed_throw {A} e : framed (throw (A := A) e).
Proof. by apply framed_pure. Qed.
Lemma framed_mem : framed mem.
Proof. by apply framed_pure. Qed.
Lemma framed_newID `{Env} : framed newID.
Proof. apply framed_pure. intros w. cbn. split_and!; [done|done|lia]. Qed.
Lemma framed_now `{Env} : framed now.
Proof. by apply framed_pure. Qed.
Lemma framed_set f : (∀ m, tx_frame m (f m)) → framed (set_mem f).
Proof. intros Hf w. split; [apply Hf|done]. Qed.
Lemma framed_bind {A B} (op : M A) (k : A → M B) : framed op → (∀ a, framed (k a)) → framed (op ≫= k).
Proof.
  intros Hf Hk w. destruct (Hf w) as (Hfr & Hev & Hid). unfold mbind, M_bind. destruct (op w) as [w' [a|e]]; cbn in *; [|done].
  destruct (Hk a w') as (Hfr' & Hev' & Hid'). split_and!; [by transitivity (w_mem w')|by rewrite Hev'|lia].
Qed.
Lemma framed_catch_map {A} g (op : M A) : framed op → framed (catch_map g op).
Proof. intros Hf w. specialize (Hf w). unfold catch_map. by destruct (op w) as [w' [a|e]]. Qed.
Lemma framed_try {A} (op : M A) : framed op → framed (try op).
Proof. intros Hf w. specialize (Hf w). unfold try. by destruct (op w). Qed.
Lemma framed_fail method : framed (fail method).
Proof.
  intros w. unfold fail, mbind, M_bind, mem. destruct (decide _); [|done].
  cbn. split; [|by split]. split; try done; cbn; [by exists []; rewrite app_nil_r|set_solver].
Qed.
Lemma framed_audit `{Env} row : framed (appendAuditLocked row).
Proof.
  intros w. unfold appendAuditLocked, mbind, M_bind.
  destruct (is_empty (ar_ID row)); cbn; destruct (IsZero _); cbn; (split; [split; try done; cbn; by eexists|]); (split; [done|lia]).
Qed.

(** A transaction program: framed, and it keeps the constraints. *)
Definition tx_prog {A} (op : M A) : Prop := preserves op ∧ framed op.

Lemma tx_bind {A B} (op : M A) (k : A → M B) : tx_prog op → (∀ a, tx_prog (k a)) → tx_prog (op ≫= k).
Proof. intros [Hp Hf] Hk. split; [apply preserves_bind|apply framed_bind]; try done; apply Hk. Qed.
Lemma tx_ret {A} (a : A) : tx_prog (mret a).
Proof. split; [apply preserves_ret|apply framed_ret]. Qed.
Lemma tx_throw {A} e : tx_prog (throw (A := A) e).
Proof. split; [apply preserves_throw|apply framed_throw]. Qed.
Lemma tx_mem : tx_prog mem.
Proof. split; [apply preserves_read|apply framed_mem]. Qed.
Lemma tx_newID `{Env} : tx_prog newID.
Proof. split; [apply preserves_newID|apply framed_newID]. Qed.
Lemma tx_now `{Env} : tx_prog now.
Proof. split; [apply preserves_now|apply framed_now]. Qed.
Lemma tx_fail_ method : tx_prog (fail method).
Proof. split; [apply preserves_fail|apply framed_fail]. Qed.
Lemma tx_audit `{Env} row : tx_prog (appendAuditLocked row).
Proof. split; [apply preserves_audit|apply framed_audit]. Qed.
Lemma tx_catch_map {A} g (op : M A) : tx_prog op → tx_prog (catch_map g op).
Proof. intros []. split; [by apply preserves_catch_map|by apply framed_catch_map]. Qed.
Lemma tx_try {A} (op : M A) : tx_prog op → tx_prog (try op).
Proof. intros []. split; [by apply preserves_try|by apply framed_try]. Qed.
Lemma tx_mapM_ {A} (f : A → M ()) l : (∀ x, tx_prog (f x)) → tx_prog (mapM_ f l).
Proof. intros Hf. induction l as [|x l IH]; cbn [mapM_]; [apply tx_ret|]. apply tx_bind; [apply Hf|by intros _]. Qed.

Create HintDb tx.
#[export] Hint Resolve tx_ret tx_throw tx_mem tx_newID tx_now tx_fail_ tx_audit tx_catch_map tx_try tx_mapM_ : tx.
#[export] Hint Resolve framed_ret framed_throw framed_mem framed_newID framed_now framed_fail framed_audit
  framed_catch_map framed_try : tx.

(** Programs made of transaction actions. *)
Ltac tx_run :=
  repeat first
    [ solve [eauto with tx]
    | apply tx_bind; [|intros ?]
    | match goal with
      | |- tx_prog (if ?b then _ else _) => destruct b
      | |- tx_prog (match ?x with _ => _ end) => destruct x
      end ].

(** A method that writes some of the restored tables. *)
Ltac framed_run :=
  repeat first
    [ solve [eauto with tx]
    | apply framed_bind; [|intros ?]
    | apply framed_set; intros ?; split; try done; cbn; by exists []; rewrite app_nil_r
    | match goal with
      | |- framed (if ?b then _ else _) => destruct b
      | |- framed (match ?x with _ => _ end) => destruct x
      end ].

(** ** The methods of memTx *)

Section methods.
Context `{Env} (tid : string).

Lemma nameTaken_free m id d k v :
  mem_ok m → nameTaken tid m id d = false → mem_devices m !! k = Some v → k ≠ id → (dv_TenantID v, dv_Name v) ≠ (tid, d).
Proof.
  intros Hm Hn Hl Hne. pose proof (proj1 (map_any_false _ _) Hn k v Hl) as E. cbn beta in E.
  rewrite (other_row _ _ _ _ id (proj1 (ok_devices _ Hm)) Hl Hne) in E. apply pair_neq. cbn in E. by rewrite andb_true_r in E.
Qed.

Lemma InsertDevice_tx d : tx_prog (InsertDevice tid d).
Proof.
  split; [|unfold InsertDevice, tx_fail, put_device; framed_run].
  unfold InsertDevice, tx_fail. op_open. op_guard. op_guard. op_now. op_write.
  destruct (ok_devices _ Hm) as [Hk Hu]. apply table_insert; [done|done|done|].
  intros k' v' Hl Hne. by eapply nameTaken_free.
Qed.

Lemma UpdateDeviceReported_tx d : tx_prog (UpdateDeviceReported tid d).
Proof.
  split; [|unfold UpdateDeviceReported, tx_fail, put_device; framed_run].
  unfold UpdateDeviceReported, tx_fail. op_open. op_guard. op_guard. op_guard. op_now. op_write.
  apply negb_false_iff, String.eqb_eq in Heqb. destruct (ok_devices _ Hm) as [Hk Hu].
  pose proof (Hk _ _ Heqo) as Hid. apply table_insert; [done|done|done|].
  intros k' v' Hl Hne. cbn. rewrite Heqb. by eapply nameTaken_free.
Qed.

Lemma UpsertInterfaceReported_tx i create : tx_prog (UpsertInterfaceReported tid i create).
Proof.
  split; [|unfold UpsertInterfaceReported, tx_fail, put_iface; framed_run].
  unfold UpsertInterfaceReported, tx_fail. apply preserves_bind; [apply preserves_fail|intros _].
  apply preserves_bind; [apply preserves_now|intros t]. apply preserves_mem; intros m Hm w Hw.
  destruct (ok_ifaces _ Hm) as [Hk Hu]. op_guard.
  - op_guard. op_write. apply table_insert; [done|done|done|]. intros k' v' Hl Hne.
    pose proof (proj1 (map_any_false _ _) Heqb0 k' v' Hl) as E. by apply pair_neq.
  - op_guard. op_guard. op_write. eapply table_replace; [done|done| |exact Heqo|done]. cbn. by apply Hk.
Qed.

Lemma CreateSubnetAuto_tx s : tx_prog (CreateSubnetAuto tid s).
Proof.
  split; [|unfold CreateSubnetAuto, tx_fail; framed_run].
  unfold CreateSubnetAuto, tx_fail. op_open. op_guard. op_now. op_write.
  destruct (ok_subnets _ Hm) as [Hk Hu]. apply table_insert; [done|done|done|]. no_clash Heqb.
Qed.

Lemma InsertAddressReported_tx a : tx_prog (InsertAddressReported tid a).
Proof.
  split; [|unfold InsertAddressReported, tx_fail, put_addr; framed_run].
  unfold InsertAddressReported, tx_fail. op_open. op_guard. op_now. op_write. by apply addrs_insert_new.
Qed.

Lemma UpdateAddressReported_tx a : tx_prog (UpdateAddressReported tid a).
Proof.
  split; [|unfold UpdateAddressReported, tx_fail, put_addr; framed_run].
  unfold UpdateAddressReported, tx_fail. op_open. op_guard. op_guard. op_now.
  pose proof (proj1 (ok_addrs _ Hm) _ _ Heqo) as Hid. op_write.
  unfold reported_row. destruct (ad_ReportState a =s RepReported); (eapply addrs_replace; [done|exact Heqo|done|done|done]).
Qed.

Lemma stamp_packages_tx d t l : tx_prog (stamp_packages tid d t l).
Proof. induction l as [|q l IH]; cbn [stamp_packages]; tx_run. Qed.

(** Writes of tables without constraints. *)
Lemma unconstrained_tx f :
  (∀ m, tx_frame m (f m)) →
  (∀ m, mem_subnets (f m) = mem_subnets m ∧ mem_addrs (f m) = mem_addrs m ∧ mem_devices (f m) = mem_devices m ∧
        mem_ifaces (f m) = mem_ifaces m) → tx_prog (set_mem f).
Proof.
  intros Hf Hs. split; [|by apply framed_set]. intros w Hw. cbn.
  destruct (Hf (w_mem w)), (Hs (w_mem w)) as (?&?&?&?). by eapply mem_ok_ext.
Qed.

Ltac unconstrained :=
  apply unconstrained_tx; intros ?; [split; try done; cbn; by exists []; rewrite app_nil_r|done].

Lemma ReplacePendingPackages_tx d l : tx_prog (ReplacePendingPackages tid d l).
Proof.
  unfold ReplacePendingPackages, tx_fail. apply tx_bind; [apply tx_fail_|intros _].
  apply tx_bind; [apply tx_now|intros t]. apply tx_bind; [apply stamp_packages_tx|intros cp]. unconstrained.
Qed.

Lemma ReplaceGuests_tx d l : tx_prog (ReplaceGuests tid d l).
Proof. unfold ReplaceGuests, tx_fail. apply tx_bind; [apply tx_fail_|intros _]. unconstrained. Qed.

Lemma SetHypervisor_tx d h : tx_prog (SetHypervisor tid d h).
Proof.
  split; [|unfold SetHypervisor, tx_fail, put_device; framed_run].
  unfold SetHypervisor, tx_fail. op_open. op_guard. op_guard. op_write.
  destruct (ok_devices _ Hm) as [Hk Hu]. eapply table_replace; [done|done| |exact Heqo|done]. cbn. by apply Hk.
Qed.

Lemma SetGuestDevice_tx g d : tx_prog (SetGuestDevice tid g d).
Proof.
  unfold SetGuestDevice, tx_fail. apply tx_bind; [apply tx_fail_|intros _]. apply tx_bind; [apply tx_mem|intros m].
  destruct (mem_guests m !! g) as [x|]; [|apply tx_throw]. destruct (negb _); [apply tx_throw|]. unfold put_guest. unconstrained.
Qed.

Lemma MarkDeviceNotReported_tx d : tx_prog (MarkDeviceNotReported tid d).
Proof.
  split; [|unfold MarkDeviceNotReported, tx_fail; framed_run].
  unfold MarkDeviceNotReported, tx_fail. op_open. op_guard. op_guard. op_write.
  - destruct (ok_addrs _ Hm). by apply table_update_where.
  - destruct (ok_devices _ Hm) as [Hk Hu]. eapply table_replace; [done|done| |exact Heqo|done]. cbn. by apply Hk.
  - destruct (ok_ifaces _ Hm). by apply table_update_where.
Qed.

Lemma SaveDeviceState_tx st : tx_prog (SaveDeviceState tid st).
Proof. unfold SaveDeviceState, tx_fail. apply tx_bind; [apply tx_fail_|intros _]. unconstrained. Qed.

Lemma AppendAudit_tx row : tx_prog (tx_AppendAudit tid row).
Proof. unfold tx_AppendAudit, tx_fail. tx_run. Qed.

Lemma ReplaceHardware_tx h : tx_prog (ReplaceHardware tid h).
Proof.
  unfold ReplaceHardware, tx_fail. apply tx_bind; [apply tx_fail_|intros _]. apply tx_bind; [apply tx_mem|intros m].
  destruct (mem_devices m !! dh_DeviceID h) as [x|]; [|apply tx_throw]. destruct (negb _); [apply tx_throw|].
  apply tx_bind; [apply tx_now|intros t]. unconstrained.
Qed.

Lemma DeviceByInventoryHost_tx h : tx_prog (DeviceByInventoryHost tid h).
Proof. unfold DeviceByInventoryHost, tx_fail. tx_run. Qed.
Lemma GetHardware_tx d : tx_prog (GetHardware tid d).
Proof. unfold GetHardware, tx_fail. tx_run. Qed.
End methods.

#[export] Hint Resolve InsertDevice_tx UpdateDeviceReported_tx UpsertInterfaceReported_tx CreateSubnetAuto_tx
  InsertAddressReported_tx UpdateAddressReported_tx ReplacePendingPackages_tx ReplaceGuests_tx SetHypervisor_tx
  SetGuestDevice_tx MarkDeviceNotReported_tx SaveDeviceState_tx AppendAudit_tx ReplaceHardware_tx
  DeviceByInventoryHost_tx GetHardware_tx : tx.

(** ** The transaction *)

(** The tables are as before, but for the settings rows and the injected
    failures. *)
Definition same_tables (m m' : Mem) : Prop :=
  ∃ st f, m' = {| m with mem_hsSettings := st; mem_failNext := f |} ∧ f ⊆ mem_failNext m ∧
    ∀ k s, mem_hsSettings m !! k = Some s → st !! k = Some s.

#[export] Instance same_tables_refl : Reflexive same_tables.
Proof. intros m. exists (mem_hsSettings m), (mem_failNext m). by destruct m. Qed.
#[export] Instance same_tables_trans : Transitive same_tables.
Proof.
  intros m1 m2 m3 (st & f & -> & Hf & Hs) (st' & f' & -> & Hf' & Hs'). exists st', f'. cbn in *. split_and!; [done|set_solver|eauto].
Qed.

Lemma same_tables_ok m m' : same_tables m m' → mem_ok m → mem_ok m'.
Proof. intros (st & f & -> & _) Hm. by eapply mem_ok_ext. Qed.

(** Restoring a snapshot undoes what a transaction program did. *)
Lemma restore_frame m m' : tx_frame m m' → same_tables m (restoreLocked (snapshotLocked m) m').
Proof.
  intros [E1 E2 E3 E4 E5 E6 E7 E8 E9 E10 E11 E12 E13 [l E14] E15]. exists (mem_hsSettings m), (mem_failNext m').
  split_and!; [|done|done]. unfold restoreLocked, snapshotLocked. cbn. rewrite E14, take_app_length.
  destruct m, m'; cbn in *; subst. done.
Qed.

Section transaction.
Context `{Env}.

Lemma ensureSettings_run tid w :
  ∃ w' s, ensureSettingsLocked tid w = (w', Ok s) ∧ same_tables (w_mem w) (w_mem w') ∧ w_events w' = w_events w ∧
    w_ids w' = w_ids w ∧ mem_failNext (w_mem w') = mem_failNext (w_mem w) ∧ mem_hsSettings (w_mem w') !! tid = Some s ∧
    (hss_Enabled s = false → mem_hsSettings (w_mem w) !! tid = Some s).
Proof.
  unfold ensureSettingsLocked, mbind, M_bind, mem. destruct (mem_hsSettings (w_mem w) !! tid) as [s|] eqn:E.
  - exists w, s. by split_and!.
  - eexists _, _. split; [reflexivity|]. cbn. split_and!; try done; [|by rewrite lookup_insert_eq].
    eexists _, _. split; [reflexivity|]. split; [done|]. intros k s Hk. rewrite lookup_insert_ne; [done|]. intros <-. by rewrite E in Hk.
Qed.

Lemma ensureSettings_tables tid w : same_tables (w_mem w) (w_mem (fst (ensureSettingsLocked tid w))).
Proof. destruct (ensureSettings_run tid w) as (w' & s & -> & ? & _). done. Qed.

Lemma fail_tables method w :
  same_tables (w_mem w) (w_mem (fst (fail method w))) ∧ w_events (fst (fail method w)) = w_events w ∧
  w_ids (fst (fail method w)) = w_ids w.
Proof.
  unfold fail, mbind, M_bind, mem. destruct (decide _); cbn; [|done]. split; [|done].
  exists (mem_hsSettings (w_mem w)), (mem_failNext (w_mem w) ∖ {[method]}). split_and!; [done|set_solver|done].
Qed.

(** What [ApplyHostReport] does, by outcome. *)
Lemma ApplyHostReport_run {A} tid (fn : M A) w :
  framed fn →
  let '(w', r) := ApplyHostReport tid fn w in
  match r with
  | Err _ => same_tables (w_mem w) (w_mem w') ∧ w_events w' = w_events w ∧ (w_ids w ≤ w_ids w')%nat
  | Ok a => ∃ w1 s, same_tables (w_mem w) (w_mem w1) ∧ w_events w1 = w_events w ∧ w_ids w1 = w_ids w ∧ mem_hsSettings (w_mem w1) !! tid = Some s ∧
              hss_Enabled s = true ∧ fn w1 = (w', Ok a)
  end.
Proof.
  intros Hfn. unfold ApplyHostReport. unfold mbind at 1, M_bind at 1. destruct (fail_tables "ApplyHostReport" w) as (Hf & Hev & Hid).
  destruct (fail "ApplyHostReport" w) as [w0 [[]|e]]; cbn in Hf, Hev, Hid; [|split_and!; [done|done|lia]].
  destruct (ensureSettings_run tid w0) as (w1 & s & E & Hst & Hev1 & Hid1 & _ & Hl & _).
  rewrite (bind_Ok _ _ w0 w1 s) by done. assert (Hw1 : same_tables (w_mem w) (w_mem w1)) by (by transitivity (w_mem w0)).
  destruct (hss_Enabled s) eqn:Een; cbn [negb]; [|split_and!; [done|congruence|cbn; lia]].
  unfold mbind, M_bind, mem, try. destruct (Hfn w1) as (Hfr & Hev2 & Hid2). destruct (fn w1) as [w2 [a|e]] eqn:Efn; cbn in Hfr, Hev2, Hid2 |- *.
  - exists w1, s. split_and!; congruence.
  - split_and!; [|congruence|lia]. transitivity (w_mem w1); [done|]. by apply restore_frame.
Qed.

Lemma ApplyHostReport_preserves {A} tid (fn : M A) : tx_prog fn → preserves (ApplyHostReport tid fn).
Proof.
  intros [Hp Hf] w Hw. pose proof (ApplyHostReport_run tid fn w Hf) as Hrun.
  destruct (ApplyHostReport tid fn w) as [w' [a|e]]; cbn.
  - destruct Hrun as (w1 & s & Hs & _ & _ & _ & _ & E). assert (Hw1 : mem_ok (w_mem w1)) by (by eapply same_tables_ok).
    specialize (Hp w1 Hw1). by rewrite E in Hp.
  - destruct Hrun as [Hs _]. by eapply same_tables_ok.
Qed.

(** *** The other methods of hostsync.go *)

Lemma ensureSettings_preserves tid : preserves (ensureSettingsLocked tid).
Proof. intros w Hw. eapply same_tables_ok; [apply ensureSettings_tables|done]. Qed.

Lemma put_settings_preserves k s : preserves (put_settings k s).
Proof. intros w Hw. cbn. by eapply mem_ok_ext. Qed.

Lemma EnsureHostSyncSettings_preserves tid : preserves (EnsureHostSyncSettings tid).
Proof. unfold EnsureHostSyncSettings. apply preserves_bind; [apply preserves_fail|intros _; apply ensureSettings_preserves]. Qed.

Lemma UpdateHostSyncSettings_preserves s row : preserves (UpdateHostSyncSettings s row).
Proof.
  unfold UpdateHostSyncSettings. apply preserves_bind; [apply preserves_fail|intros _].
  apply preserves_bind; [apply ensureSettings_preserves|intros cur]. apply preserves_bind; [apply preserves_now|intros t].
  apply preserves_bind; [apply put_settings_preserves|intros _]. apply preserves_audit.
Qed.

Lemma RequestReconcile_preserves tid row : preserves (RequestReconcile tid row).
Proof.
  unfold RequestReconcile. apply preserves_bind; [apply preserves_fail|intros _].
  apply preserves_bind; [apply ensureSettings_preserves|intros cur].
  apply preserves_bind; [apply put_settings_preserves|intros _]. apply preserves_audit.
Qed.

Lemma SaveHostSyncState_preserves tid st : preserves (SaveHostSyncState tid st).
Proof.
  unfold SaveHostSyncState. apply preserves_bind; [apply preserves_fail|intros _].
  apply preserves_bind; [apply ensureSettings_preserves|intros cur]. apply put_settings_preserves.
Qed.

Lemma ClearAddressConflict_preserves tid id row : preserves (ClearAddressConflict tid id row).
Proof.
  unfold ClearAddressConflict. op_open. op_guard. op_guard. op_now. rewrite <- Hw2 in Hw.
  pose proof (proj1 (ok_addrs _ Hm) _ _ Heqo) as Hid. revert w2 Hw Hw2. intros w2 Hw _.
  eapply preserves_write; [exact Hw| |].
  - split; cbn; try solve [eauto with ipam]. eapply addrs_replace; [done|exact Heqo|done|done|done].
  - intros []. apply preserves_bind; [apply preserves_audit|intros _; apply preserves_ret].
Qed.
End transaction.

#[export] Hint Resolve ensureSettings_preserves EnsureHostSyncSettings_preserves UpdateHostSyncSettings_preserves
  RequestReconcile_preserves SaveHostSyncState_preserves ClearAddressConflict_preserves : preserves.
