(* ===== verification/StoreReach.v ===== *)
(** * Every reachable state of the store

    The writing methods of the store as steps, the transaction of the host
    sync included, and the integrity of every state they reach. *)

From S2P Require Import Prelude Models Store MemNet MemDev MemCat MemScan HostTx MemInv HostTxProps.

(** ** Every reachable state *)

Section reachability.
Context `{Env}.

(** What a callback of the host-sync transaction may do: call the methods of
    the transaction in any order, depending on what they returned. *)
Inductive tx_calls (tn : string) : ∀ {A : Type}, M A → Prop :=
| tc_ret {A} (a : A) : tx_calls tn (mret a)
| tc_throw {A} e : tx_calls tn (throw (A := A) e)
| tc_bind {A B} (op : M A) (k : A → M B) : tx_calls tn op → (∀ a, tx_calls tn (k a)) → tx_calls tn (op ≫= k)
| tc_read {A} (f : Mem → A) : tx_calls tn (m ← mem; mret (f m))
| tc_DeviceByInventoryHost h : tx_calls tn (DeviceByInventoryHost tn h)
| tc_GetHardware d : tx_calls tn (GetHardware tn d)
| tc_newID : tx_calls tn newID
| tc_now : tx_calls tn now
| tc_InsertDevice d : tx_calls tn (InsertDevice tn d)
| tc_UpdateDeviceReported d : tx_calls tn (UpdateDeviceReported tn d)
| tc_UpsertInterfaceReported i create : tx_calls tn (UpsertInterfaceReported tn i create)
| tc_CreateSubnetAuto s : tx_calls tn (CreateSubnetAuto tn s)
| tc_InsertAddressReported a : tx_calls tn (InsertAddressReported tn a)
| tc_UpdateAddressReported a : tx_calls tn (UpdateAddressReported tn a)
| tc_ReplacePendingPackages d l : tx_calls tn (ReplacePendingPackages tn d l)
| tc_ReplaceGuests d l : tx_calls tn (ReplaceGuests tn d l)
| tc_SetHypervisor d h : tx_calls tn (SetHypervisor tn d h)
| tc_SetGuestDevice g d : tx_calls tn (SetGuestDevice tn g d)
| tc_MarkDeviceNotReported d : tx_calls tn (MarkDeviceNotReported tn d)
| tc_SaveDeviceState st : tx_calls tn (SaveDeviceState tn st)
| tc_AppendAudit row : tx_calls tn (tx_AppendAudit tn row)
| tc_ReplaceHardware h : tx_calls tn (ReplaceHardware tn h).

Lemma tx_calls_prog tn {A} (op : M A) : tx_calls tn op → tx_prog op.
Proof. induction 1; eauto using tx_bind with tx. Qed.

(** The methods of the store that write. *)
Inductive store_op : ∀ {A : Type}, M A → Prop :=
| op_FailNext x : store_op (FailNext x)
| op_CreateSubnet s : store_op (CreateSubnet s)
| op_UpdateSubnet s : store_op (UpdateSubnet s)
| op_DeleteSubnet tn id force : store_op (DeleteSubnet tn id force)
| op_CreateAddress a : store_op (CreateAddress a)
| op_UpdateAddress a : store_op (UpdateAddress a)
| op_DeleteAddress tn id : store_op (DeleteAddress tn id)
| op_UpsertAddressByAddress a : store_op (UpsertAddressByAddress a)
| op_CreateDevice d : store_op (CreateDevice d)
| op_UpdateDevice d : store_op (UpdateDevice d)
| op_DeleteDevice tn id force : store_op (DeleteDevice tn id force)
| op_UpsertDeviceByName d : store_op (UpsertDeviceByName d)
| op_SetDeviceBMCRef tn id ref row : store_op (SetDeviceBMCRef tn id ref row)
| op_CreateInterface i : store_op (CreateInterface i)
| op_UpsertInterfaceByName i : store_op (UpsertInterfaceByName i)
| op_DeleteInterface tn id : store_op (DeleteInterface tn id)
| op_ReplaceInterfaceLinks tn id l : store_op (ReplaceInterfaceLinks tn id l)
| op_ReplaceDevicePackages tn id l : store_op (ReplaceDevicePackages tn id l)
| op_DeleteDevicePackages tn id : store_op (DeleteDevicePackages tn id)
| op_CreateVlan v : store_op (CreateVlan v)
| op_UpdateVlan v : store_op (UpdateVlan v)
| op_DeleteVlan tn id force : store_op (DeleteVlan tn id force)
| op_CreateLocation l : store_op (CreateLocation l)
| op_UpdateLocation l : store_op (UpdateLocation l)
| op_DeleteLocation tn id force : store_op (DeleteLocation tn id force)
| op_CreateIPGroup g : store_op (CreateIPGroup g)
| op_UpdateIPGroup g : store_op (UpdateIPGroup g)
| op_DeleteIPGroup tn id : store_op (DeleteIPGroup tn id)
| op_AddIPGroupMember x : store_op (AddIPGroupMember x)
| op_RemoveIPGroupMember tn id : store_op (RemoveIPGroupMember tn id)
| op_UpdateIPGroupMember x : store_op (UpdateIPGroupMember x)
| op_CreateHostGroup g : store_op (CreateHostGroup g)
| op_UpdateHostGroup g : store_op (UpdateHostGroup g)
| op_DeleteHostGroup tn id : store_op (DeleteHostGroup tn id)
| op_AddHostGroupMember x : store_op (AddHostGroupMember x)
| op_RemoveHostGroupMember tn id : store_op (RemoveHostGroupMember tn id)
| op_UpdateHostGroupMember x : store_op (UpdateHostGroupMember x)
| op_CreateScanJob j : store_op (CreateScanJob j)
| op_UpdateScanJob j : store_op (UpdateScanJob j)
| op_ClaimDueScanJobs t limit : store_op (ClaimDueScanJobs t limit)
| op_UpsertDNSConfig c : store_op (UpsertDNSConfig c)
| op_AppendAudit row : store_op (AppendAudit row)
| op_PutSubnetSNMP row audit : store_op (PutSubnetSNMP row audit)
| op_DeleteSubnetSNMP tn id audit : store_op (DeleteSubnetSNMP tn id audit)
| op_PutARPSettings s audit : store_op (PutARPSettings s audit)
| op_ApplyARP tn ops summary : store_op (ApplyARP tn ops summary)
| op_SetAddressLinks tn l audit : store_op (SetAddressLinks tn l audit)
| op_SetInterfaceLinks tn l audit : store_op (SetInterfaceLinks tn l audit)
| op_EnsureHostSyncSettings tn : store_op (EnsureHostSyncSettings tn)
| op_UpdateHostSyncSettings s audit : store_op (UpdateHostSyncSettings s audit)
| op_RequestReconcile tn audit : store_op (RequestReconcile tn audit)
| op_SaveHostSyncState tn st : store_op (SaveHostSyncState tn st)
| op_ClearAddressConflict tn id audit : store_op (ClearAddressConflict tn id audit)
| op_ApplyHostReport {A} tn (fn : M A) : tx_calls tn fn → store_op (ApplyHostReport tn fn).

(** One atomic call of a method, whatever its outcome. *)
Inductive store_step : World → World → Prop :=
| store_call {A} (op : M A) w : store_op op → store_step w (fst (op w)).

Definition reachable (w : World) : Prop := rtc store_step init_world w.

Lemma store_op_preserves {A} (op : M A) : store_op op → preserves op.
Proof.
  intros []; eauto using FailNext_preserves with preserves. apply ApplyHostReport_preserves. by eapply tx_calls_prog.
Qed.

Lemma reachable_mem_ok w : reachable w → mem_ok (w_mem w).
Proof.
  assert (Hgen : ∀ w0, rtc store_step w0 w → mem_ok (w_mem w0) → mem_ok (w_mem w)).
  { induction 1 as [|x y z Hstep _ IH]; [done|]. intros Hx. apply IH.
    destruct Hstep as [A op w1 Hop]. by apply (store_op_preserves op Hop). }
  intros Hr. apply (Hgen _ Hr). exact New_ok.
Qed.
End reachability.

(** C3: store integrity: in every state reachable from the empty store by any
    sequence of method calls (including injected failures, refused calls and
    host-report transactions, committed or rolled back), the constraints that
    [mem_ok] lists hold: every row is stored under its own id; names of
    subnets, devices, VLANs, locations and groups, VLAN numbers, location
    codes and addresses are unique per tenant, interface names per device,
    members per group and links per interface; group members belong to
    existing groups, SNMP credentials to existing subnets and links to existing
    interfaces. The other references and UNIQUE constraints of the schema are
    not checked by this store and not part of the claim. *)
Theorem store_integrity `{Env} w : reachable w → mem_ok (w_mem w).
Proof. apply reachable_mem_ok. Qed.

Definition ex_subnet_row : Subnet :=
  {| zero_Subnet with sn_ID := "s1"; sn_TenantID := "t1"; sn_Name := "lab"; sn_CIDR := "10.0.0.0/24" |}.
Definition ex_address : IPAddress :=
  {| zero_IPAddress with ad_TenantID := "t1"; ad_Address := "10.0.0.7"; ad_SubnetID := "s1" |}.
Definition ex_stored_world : World :=
  fst (CreateAddress (H := ex_env) ex_address (fst (CreateSubnet (H := ex_env) ex_subnet_row init_world))).

Lemma store_integrity_witness :
  mem_ok (w_mem ex_stored_world) ∧
  snd (CreateAddress (H := ex_env) ex_address ex_stored_world) = Err ErrConflict ∧
  snd (CreateSubnet (H := ex_env) ex_subnet_row ex_stored_world) = Err ErrConflict.
Proof.
  split; [|split; vm_compute; reflexivity].
  apply (store_integrity (H := ex_env)).
  eapply rtc_l; [exact (store_call (H := ex_env) _ init_world (op_CreateSubnet (H := ex_env) ex_subnet_row))|].
  eapply rtc_l; [exact (store_call (H := ex_env) _ _ (op_CreateAddress (H := ex_env) ex_address))|]. apply rtc_refl.
Defined.
