(* ===== verification/Events.v ===== *)
(** * internal/events: the realtime event vocabulary and payloads

    The types and content-safe payloads of the events the services publish; a
    published event is appended to the events of the world. *)

From S2P Require Import Prelude Models Store.

Definition IPAddressCreated : string := "ipam.ip_address.created".
Definition IPAddressUpdated : string := "ipam.ip_address.updated".
Definition IPAddressDeleted : string := "ipam.ip_address.deleted".
Definition IPAddressScanned : string := "ipam.ip_address.scanned".
Definition EvScanStarted : string := "ipam.scan.started".
Definition EvScanCompleted : string := "ipam.scan.completed".
Definition HostSyncApplied : string := "ipam.hostsync.applied".
Definition EvHostSyncStatus : string := "ipam.hostsync.status".

Definition ActionCreated : string := "created".
Definition ActionMoved : string := "moved".
Definition ActionClaimed : string := "claimed".
Definition ActionReleased : string := "released".
Definition ActionUpdated : string := "updated".

Definition IPAddressPayload (action id address subnetID hostname deviceID : string) : list (string * any) :=
  [("action", AnyString action); ("id", AnyString id); ("address", AnyString address);
   ("subnet_id", AnyString subnetID); ("hostname", AnyString hostname); ("device_id", AnyString deviceID)].

Definition ScanPayload (jobID subnetID : string) (aliveCount newCount : Z) : list (string * any) :=
  [("job_id", AnyString jobID); ("subnet_id", AnyString subnetID); ("alive_count", AnyInt aliveCount);
   ("new_count", AnyInt newCount)].

Definition HostSyncAppliedPayload (deviceID : string) (changes : Z) : list (string * any) :=
  [("device_id", AnyString deviceID); ("changes", AnyInt changes)].

Definition HostSyncStatusPayload (state : string) : list (string * any) := [("state", AnyString state)].
