(* ===== verification/Authz.v ===== *)
(** * internal/authz: the access model *)

From S2P Require Import Prelude Models Store.

Definition ActorUser : string := "user".
Definition ActorService : string := "service".
Definition ActorSystem : string := "system".

Definition RoleAdmin : string := "admin".
Definition RoleOwner : string := "owner".
Definition RolePlatformAdmin : string := "platform-admin".

Record Subjects : Type := {
  su_TenantID : string;
  su_UserID : string;
  su_Roles : list string;
  su_ActorKind : string
}.

Definition hasRole (s : Subjects) (role : string) : bool := existsb (λ r, r =s role) (su_Roles s).

Definition IsAdmin (s : Subjects) : bool :=
  if su_ActorKind s =s ActorSystem then true
  else hasRole s RoleAdmin || hasRole s RoleOwner.

Definition IsPlatformAdmin (s : Subjects) : bool :=
  if su_ActorKind s =s ActorSystem then true
  else hasRole s RolePlatformAdmin || hasRole s RoleAdmin || hasRole s RoleOwner.

Definition ActorID (s : Subjects) : string :=
  if negb (is_empty (su_UserID s)) then su_UserID s else su_ActorKind s.

Definition RequireAdmin (s : Subjects) : result error () :=
  if IsAdmin s then Ok () else Err (ErrForbidden "admin required").

Definition RequirePlatformAdmin (s : Subjects) : result error () :=
  if IsPlatformAdmin s then Ok () else Err (ErrForbidden "platform-admin required").

Definition RequireTenant (s : Subjects) (tenantID : string) : result error () :=
  if is_empty tenantID then Err (ErrForbidden "tenant required")
  else if su_TenantID s =s tenantID then Ok ()
  else if su_ActorKind s =s ActorSystem then Ok ()
  else Err (ErrForbidden "tenant mismatch").

(** Tenant scoping: a caller may act on a tenant exactly when the tenant is
    named and is the caller's own, or the caller is the system scope; an
    ordinary caller can never act on another tenant. *)
Theorem RequireTenant_iff s tenantID :
  RequireTenant s tenantID = Ok () ↔
  tenantID ≠ ""%string ∧ (su_TenantID s = tenantID ∨ su_ActorKind s = ActorSystem).
Proof.
  unfold RequireTenant. destruct (is_empty tenantID) eqn:E.
  - apply is_empty_spec in E. split; [done|]. intros [? _]. done.
  - assert (tenantID ≠ ""%string) by (intros ->; done).
    destruct (su_TenantID s =s tenantID) eqn:E1, (su_ActorKind s =s ActorSystem) eqn:E2; bool_hyps; naive_solver.
Qed.

Lemma RequireTenant_self s : su_TenantID s ≠ ""%string → RequireTenant s (su_TenantID s) = Ok ().
Proof.
  unfold RequireTenant. destruct (is_empty (su_TenantID s)) eqn:E; [by apply is_empty_spec in E|].
  by rewrite String.eqb_refl.
Qed.

(** The roles form a chain as implemented: every tenant admin (admin or
    owner role, or the system scope) also passes the platform-admin gate. *)
Theorem admin_passes_platform_gate s : RequireAdmin s = Ok () → RequirePlatformAdmin s = Ok ().
Proof.
  unfold RequireAdmin, RequirePlatformAdmin, IsAdmin, IsPlatformAdmin.
  destruct (su_ActorKind s =s ActorSystem); [done|].
  destruct (hasRole s RoleAdmin), (hasRole s RoleOwner), (hasRole s RolePlatformAdmin); done.
Qed.

Definition ex_subject : Subjects :=
  {| su_TenantID := "t1"; su_UserID := "u1"; su_Roles := ["admin"]; su_ActorKind := "user" |}.

Lemma admin_passes_platform_gate_witness :
  hasRole ex_subject RolePlatformAdmin = false ∧ RequirePlatformAdmin ex_subject = Ok ().
Proof. split; [reflexivity|]. apply admin_passes_platform_gate. reflexivity. Defined.
