(* ===== verification/Addresses.v ===== *)
(** * internal/addresses: the address service

    CRUD over a tenant's addresses and the allocation paths, over the store's
    methods.  The retry loop of [allocInto] takes fuel; twenty rounds are
    always enough when no start address is given, because the code gives up
    after [maxAllocTries] lost races.  The probers are the injected interfaces
    of the service: functions of the probed address. *)

From Stdlib Require DecimalString.
From S2P Require Import Prelude GoNet GoIP Ipnet Models Store Hostreport MemNet Authz Events.

(** ** The service *)

Definition maxAllocTries : Z := 20.
Definition defaultProbePorts : list Z := [22; 80; 443; 3389].

Record PingResult : Type := {
  pr_Address : string;
  pr_Alive : bool;
  pr_RTTMs : Z;
  pr_Available : bool
}.

Record Service : Type := {
  svc_pub : bool;      (* a publisher is set *)
  svc_skipFirst : Z;
  svc_skipLast : Z;
  svc_ping : option (string → result error (bool * Z));
  svc_scan : option (string → list Z → result error (list Z))
}.

Definition mapErr (e : error) : error :=
  match e with
  | ErrNotFound => Addresses_ErrNotFound
  | ErrConflict => Addresses_ErrConflict
  | _ => e
  end.

Definition redact (a : IPAddress) : IPAddress := {| a with ad_Owner := "" |}.

Definition sameMAC (a b : string) : bool :=
  match NormalizeMAC a, NormalizeMAC b with
  | Some na, Some nb => na =s nb
  | _, _ => a =s b
  end.

Definition ipLess (a b : string) : bool :=
  match ParseIP a, ParseIP b with
  | IPnil, _ | _, IPnil => false
  | ia, ib => match To16 ia, To16 ib with IP16 x, IP16 y => x <? y | _, _ => false end
  end.

Section with_env.
Context `{Env} (svc : Service).

Definition publish (tenantID eventType action : string) (a : IPAddress) : M () :=
  if svc_pub svc then
    publish_event {| ev_tenant := tenantID; ev_type := eventType;
      ev_payload := IPAddressPayload action (ad_ID a) (ad_Address a) (ad_SubnetID a) (ad_Hostname a) (ad_DeviceID a) |}
  else mret ().

Definition manualMAC (in_ : IPAddress) (ex : option IPAddress) : M IPAddress :=
  let mac := default (ad_MACAddress in_) (NormalizeMAC (ad_MACAddress in_)) in
  let base := {| in_ with ad_Origin := ""; ad_Link := None; ad_Links := []; ad_MACAddress := mac;
                 ad_MACSource := ""; ad_MACSourceDeviceID := ""; ad_MACSeenAt := None; ad_MACConflict := "" |} in
  if is_empty mac then mret base
  else match ex with
  | Some e =>
      if sameMAC mac (ad_MACAddress e)
      then mret {| base with ad_MACSource := ad_MACSource e; ad_MACSourceDeviceID := ad_MACSourceDeviceID e;
                   ad_MACSeenAt := ad_MACSeenAt e; ad_MACConflict := ad_MACConflict e |}
      else t ← now; mret {| base with ad_MACSource := MACSourceManual; ad_MACSeenAt := Some t |}
  | None => t ← now; mret {| base with ad_MACSource := MACSourceManual; ad_MACSeenAt := Some t |}
  end.

Definition Create (subj : Subjects) (in_ : IPAddress) : M IPAddress :=
  lift (RequireTenant subj (su_TenantID subj));;
  id ← (if is_empty (ad_ID in_) then newID else mret (ad_ID in_));
  at_ ← (if IsZero (ad_CreatedAt in_) then now else mret (ad_CreatedAt in_));
  a ← manualMAC {| in_ with ad_TenantID := su_TenantID subj; ad_ID := id;
                   ad_Status := default_str (ad_Status in_) IPActive;
                   ad_AddressType := default_str (ad_AddressType in_) AddrHost;
                   ad_CreatedBy := default_str (ad_CreatedBy in_) (ActorID subj);
                   ad_CreatedAt := at_ |} None;
  catch_map mapErr (CreateAddress a);;
  created ← catch_map mapErr (GetAddress (su_TenantID subj) id);
  publish (su_TenantID subj) IPAddressCreated "created" created;;
  mret (redact created).

Definition Get (subj : Subjects) (id : string) : M IPAddress :=
  lift (RequireTenant subj (su_TenantID subj));;
  a ← catch_map mapErr (GetAddress (su_TenantID subj) id);
  mret (redact a).

Definition List_ (subj : Subjects) (f : AddressFilter) : M (list IPAddress) :=
  lift (RequireTenant subj (su_TenantID subj));;
  rows_ ← ListAddresses (su_TenantID subj) f;
  mret (redact <$> rows_).

Definition Update (subj : Subjects) (in_ : IPAddress) : M IPAddress :=
  lift (RequireTenant subj (su_TenantID subj));;
  ex ← catch_map mapErr (GetAddress (su_TenantID subj) (ad_ID in_));
  a ← manualMAC {| in_ with ad_TenantID := su_TenantID subj;
                   ad_Address := default_str (ad_Address in_) (ad_Address ex);
                   ad_SubnetID := default_str (ad_SubnetID in_) (ad_SubnetID ex);
                   ad_Status := default_str (ad_Status in_) (ad_Status ex);
                   ad_AddressType := default_str (ad_AddressType in_) (ad_AddressType ex);
                   ad_CreatedBy := ad_CreatedBy ex; ad_CreatedAt := ad_CreatedAt ex |} (Some ex);
  catch_map mapErr (UpdateAddress a);;
  updated ← catch_map mapErr (GetAddress (su_TenantID subj) (ad_ID in_));
  publish (su_TenantID subj) IPAddressUpdated "updated" updated;;
  mret (redact updated).

Definition Delete (subj : Subjects) (id : string) : M () :=
  lift (RequireTenant subj (su_TenantID subj));;
  a ← catch_map mapErr (GetAddress (su_TenantID subj) id);
  catch_map mapErr (DeleteAddress (su_TenantID subj) id);;
  publish (su_TenantID subj) IPAddressDeleted "deleted" a.

Definition Find (subj : Subjects) (address : string) : M IPAddress :=
  lift (RequireTenant subj (su_TenantID subj));;
  a ← catch_map mapErr (FindAddress (su_TenantID subj) address);
  mret (redact a).

(** ** Allocation *)

(** The exclude set, a Go map shared and mutated by the allocation loop. *)
Definition exclude_set : Type := gmap string bool.

Definition exclude_of (used extra : list string) : exclude_set :=
  let set := foldl (λ (acc : exclude_set) a, <[a := true]> acc) ∅ used in
  foldl (λ (acc : exclude_set) a, if is_empty a then acc else <[a := true]> acc) set extra.

Definition allocatedSet (tenantID subnetID : string) (extra : list string) : M exclude_set :=
  used ← ListAllocatedAddresses tenantID subnetID;
  mret (exclude_of used extra).

(** The new row of an allocation. *)
Definition alloc_row (tenantID : string) (sub : Subnet) (ip hostname : string) (t : Time) : IPAddress :=
  {| zero_IPAddress with ad_TenantID := tenantID; ad_Address := ip; ad_SubnetID := sn_ID sub;
     ad_Hostname := hostname; ad_Status := IPActive; ad_AddressType := AddrHost; ad_CreatedAt := t |}.

(** One claim: the loop of [allocInto], returning the row and the exclude set
    as the loop left it. *)
Fixpoint allocInto (fuel : nat) (tenantID : string) (sub : Subnet) (exclude : exclude_set)
    (startFrom hostname : string) (conflicts : Z) : M (IPAddress * exclude_set) :=
  match fuel with
  | O => throw LoopFuel
  | S fuel' =>
      match FirstFree (sn_CIDR sub) exclude (sn_Gateway sub) (svc_skipFirst svc) (svc_skipLast svc) with
      | Err ErrExhausted => throw Addresses_ErrNoAvailable
      | Err e => throw (ErrIpnet e)
      | Ok ip =>
          let ipStr := IP_String ip in
          if negb (is_empty startFrom) && ipLess ipStr startFrom
          then allocInto fuel' tenantID sub (<[ipStr := true]> exclude) startFrom hostname conflicts
          else
            t ← now;
            r ← try (CreateAddress (alloc_row tenantID sub ipStr hostname t));
            match r with
            | Err ErrConflict =>
                if maxAllocTries <=? conflicts + 1 then throw Addresses_ErrConflict
                else allocInto fuel' tenantID sub (<[ipStr := true]> exclude) startFrom hostname (conflicts + 1)
            | Err e => throw (mapErr e)
            | Ok _ =>
                created ← catch_map mapErr (FindAddress tenantID ipStr);
                publish tenantID IPAddressCreated "created" created;;
                mret (redact created, <[ipStr := true]> exclude)
            end
      end
  end.

Definition AllocateNext (fuel : nat) (subj : Subjects) (subnetID startFrom : string)
    (skipAddresses : list string) : M IPAddress :=
  lift (RequireTenant subj (su_TenantID subj));;
  sub ← catch_map mapErr (GetSubnet (su_TenantID subj) subnetID);
  exclude ← allocatedSet (su_TenantID subj) subnetID skipAddresses;
  r ← allocInto fuel (su_TenantID subj) sub exclude startFrom "" 0;
  mret (fst r).

(** [strconv.Itoa] of a loop counter. *)
Definition nat_text (n : nat) : string := DecimalString.NilEmpty.string_of_uint (Nat.to_uint n).

(** The loop of [BulkAllocate]: rows so far and the error that stopped it. *)
Fixpoint bulk_loop (fuel n i : nat) (tenantID : string) (sub : Subnet) (exclude : exclude_set)
    (hostnamePrefix : string) : M (list IPAddress * option error) :=
  match n with
  | O => mret ([], None)
  | S n' =>
      let hostname := if is_empty hostnamePrefix then ""%string else hostnamePrefix +:+ nat_text i in
      r ← try (allocInto fuel tenantID sub exclude "" hostname 0);
      match r with
      | Err e => mret ([], Some e)
      | Ok (a, exclude') =>
          rest ← bulk_loop fuel n' (S i) tenantID sub exclude' hostnamePrefix;
          mret (a :: fst rest, snd rest)
      end
  end.

Definition BulkAllocate (fuel : nat) (subj : Subjects) (subnetID : string) (count : Z) (hostnamePrefix : string)
  : M (list IPAddress * option error) :=
  lift (RequireTenant subj (su_TenantID subj));;
  if count <=? 0 then mret ([], None)
  else
    sub ← catch_map mapErr (GetSubnet (su_TenantID subj) subnetID);
    exclude ← allocatedSet (su_TenantID subj) subnetID [];
    bulk_loop fuel (Z.to_nat count) 0 (su_TenantID subj) sub exclude hostnamePrefix.

Definition PingAddress (subj : Subjects) (id : string) : M PingResult :=
  lift (RequireTenant subj (su_TenantID subj));;
  a ← catch_map mapErr (GetAddress (su_TenantID subj) id);
  match svc_ping svc with
  | None => mret {| pr_Address := ad_Address a; pr_Alive := false; pr_RTTMs := 0; pr_Available := false |}
  | Some ping =>
      r ← lift (ping (ad_Address a));
      mret {| pr_Address := ad_Address a; pr_Alive := fst r; pr_RTTMs := snd r; pr_Available := true |}
  end.

(** [max] is the number of candidates still wanted. *)
Fixpoint freeCandidates (max : nat) (sub : Subnet) (local : exclude_set) : list string :=
  match max with
  | O => []
  | S max' =>
      match FirstFree (sn_CIDR sub) local (sn_Gateway sub) (svc_skipFirst svc) (svc_skipLast svc) with
      | Err _ => []
      | Ok ip => let ss := IP_String ip in ss :: freeCandidates max' sub (<[ss := true]> local)
      end
  end.

Definition verifyQuiet (ip : string) : result error bool :=
  let* quiet := match svc_ping svc with
                | None => Ok true
                | Some ping => match ping ip with Err e => Err e | Ok (alive, _) => Ok (negb alive) end
                end in
  if negb quiet then Ok false
  else match svc_scan svc with
       | None => Ok true
       | Some scan => match scan ip defaultProbePorts with
                      | Err e => Err e
                      | Ok open => Ok match open with [] => true | _ => false end
                      end
       end.

(** The probing loop: a failed probe drops its candidate. *)
Fixpoint probe_candidates (want : nat) (cands : list string) : list string :=
  match want, cands with
  | O, _ | _, [] => []
  | S want', ip :: rest =>
      match verifyQuiet ip with
      | Ok true => ip :: probe_candidates want' rest
      | _ => probe_candidates want rest
      end
  end.

Definition SuggestAvailableAddresses (subj : Subjects) (subnetID : string) (count : Z) (skip : list string)
  : M (list string) :=
  lift (RequireTenant subj (su_TenantID subj));;
  if count <=? 0 then mret []
  else
    sub ← catch_map mapErr (GetSubnet (su_TenantID subj) subnetID);
    exclude ← allocatedSet (su_TenantID subj) subnetID skip;
    let probing := is_some (svc_ping svc) || is_some (svc_scan svc) in
    let sample := if probing then wrap64 (count * 4) else count in
    let cands := freeCandidates (Z.to_nat sample) sub exclude in
    mret (if probing then probe_candidates (Z.to_nat count) cands else take (Z.to_nat count) cands).
End with_env.
