(* ===== verification/AddressProps.v ===== *)
(** * Correctness of address allocation (internal/addresses over the store)

    The end-to-end contract of allocation: the address handed out is the lowest
    usable one that is neither excluded nor already stored for the tenant, it
    is inserted exactly once, and the retry loop always ends. *)

From S2P Require Import Prelude GoNet GoIP Ipnet IpnetProps Models Store Hostreport MemNet MemDev MemCat MemScan MemInv.
From S2P Require Import Authz Addresses.

(** ** The store's part *)

(** The row [CreateAddress] stores. *)
Definition created_row (a : IPAddress) (id : string) (t : Time) : IPAddress :=
  let a' := clearAddrServerFields
    {| a with ad_ID := id; ad_Status := default_str (ad_Status a) IPActive;
       ad_AddressType := default_str (ad_AddressType a) AddrHost |} in
  {| a' with ad_CreatedAt := if IsZero (ad_CreatedAt a) then t else ad_CreatedAt a; ad_UpdatedAt := t |}.

Definition with_addr (m : Mem) (id : string) (row : IPAddress) : Mem :=
  {| m with mem_addrs := <[id := row]> (mem_addrs m) |}.

(** The tenant already stores the address text. *)
Definition stored (m : Mem) (tenantID address : string) : Prop :=
  ∃ k row, mem_addrs m !! k = Some row ∧ ad_TenantID row = tenantID ∧ ad_Address row = address.

Lemma stored_find m tn ad : stored m tn ad ↔ is_Some (findAddrLocked m tn ad).
Proof.
  unfold stored, findAddrLocked. split.
  - intros (k & row & Hk & Ht & Ha). destruct (map_find _ _) as [kv|] eqn:E; [by eexists|].
    pose proof (proj1 (map_find_None _ _) E k row Hk) as Hf. unfold has_address in Hf.
    rewrite Ht, Ha, !String.eqb_refl in Hf. done.
  - intros [[k row] E]. apply map_find_Some in E as [Hk Hp]. unfold has_address in Hp. bool_hyps. eauto.
Qed.

Lemma not_stored_find m tn ad : ¬ stored m tn ad ↔ findAddrLocked m tn ad = None.
Proof. rewrite stored_find, eq_None_not_Some. done. Qed.

Section with_env.
Context `{Env}.

Lemma fail_unarmed method w : method ∉ mem_failNext (w_mem w) → fail method w = (w, Ok ()).
Proof. intros Hn. unfold fail, mbind, M_bind, mem. by rewrite decide_False. Qed.

Lemma CreateAddress_cases a w :
  "CreateAddress" ∉ mem_failNext (w_mem w) →
  (stored (w_mem w) (ad_TenantID a) (ad_Address a) ∧ CreateAddress a w = (w, Err ErrConflict)) ∨
  (¬ stored (w_mem w) (ad_TenantID a) (ad_Address a) ∧ ∃ w' id t,
     CreateAddress a w = (w', Ok ()) ∧ w_mem w' = with_addr (w_mem w) id (created_row a id t) ∧
     (is_empty (ad_ID a) = true → id = id_at (w_ids w) ∧ w_ids w' = S (w_ids w))).
Proof.
  intros Hn. unfold CreateAddress. rewrite (bind_Ok _ _ _ _ _ (fail_unarmed _ _ Hn)).
  rewrite (bind_Ok mem _ w w (w_mem w) eq_refl).
  destruct (findAddrLocked (w_mem w) (ad_TenantID a) (ad_Address a)) as [kv|] eqn:E.
  - left. split; [|done]. apply stored_find. by rewrite E.
  - right. split; [by apply not_stored_find|].
    destruct (is_empty (ad_ID a)); cbn; eexists _, _, _; (split; [reflexivity|split; [reflexivity|done]]).
Qed.

Lemma find_created m a id t :
  mem_ok (with_addr m id (created_row a id t)) →
  findAddrLocked (with_addr m id (created_row a id t)) (ad_TenantID a) (ad_Address a)
    = Some (id, created_row a id t).
Proof.
  intros Hok. eapply (map_find_unique (λ a, Some (ad_TenantID a, ad_Address a)) _ _ _ _ (ad_TenantID a, ad_Address a)).
  - apply (ok_addrs _ Hok).
  - intros u Hu. unfold has_address in Hu. by bool_hyps; simplify_eq/=; f_equal; f_equal.
  - cbn. by rewrite lookup_insert_eq.
  - unfold has_address. cbn. by rewrite !String.eqb_refl.
Qed.
End with_env.

(** ** One allocation *)

(** The address is below the first one the caller wants. *)
Definition before_start (b : GoIP.block) (startFrom : string) (y : Z) : bool := negb (is_empty startFrom) && ipLess (addr_text b y) startFrom.

(** Against an address of the block's family this is the order of numbers. *)
Lemma before_start_addr b s y : blk_width b = 32 ∨ blk_width b = 128 → 0 ≤ s < 2 ^ blk_width b → 0 ≤ y < 2 ^ blk_width b →
  before_start b (addr_text b s) y = true ↔ y < s.
Proof.
  intros Hw Hs Hy. destruct (fam_ip_wf _ s Hw Hs) as [Hws Hns], (fam_ip_wf _ y Hw Hy) as [Hwy Hny].
  unfold before_start, ipLess, addr_text. rewrite (IP_String_nonempty _ Hws), !ParseIP_String by done. cbn [negb andb].
  unfold fam_ip. destruct Hw as [->| ->]; cbn; rewrite Z.ltb_lt; lia.
Qed.

(** Rounds of the loop that are always enough: one for each address below the
    start and one for each lost race. *)
Definition alloc_fuel (b : GoIP.block) (startFrom : string) : nat :=
  (20 + if is_empty startFrom then 0 else Z.to_nat (usable_hi b - usable_lo b + 1))%nat.

Section allocation.
Context `{Env} (svc : Service) (tenantID : string) (sub : Subnet) (b : GoIP.block) (startFrom hostname : string).
Context (Hnative : native_cidr (sn_CIDR sub) b).

Definition candidate (ex : exclude_set) (y : Z) : Prop :=
  allocatable b ex (sn_Gateway sub) (svc_skipFirst svc) (svc_skipLast svc) y.

Definition taken_by_tenant (m : Mem) (y : Z) : Prop := stored m tenantID (addr_text b y).

Lemma CreateAddress_mem_ok a w w' r : CreateAddress a w = (w', r) → mem_ok (w_mem w) → mem_ok (w_mem w').
Proof. intros E Hm. pose proof (CreateAddress_preserves a w Hm) as Hp. by rewrite E in Hp. Qed.

(** The outcome of one claim, in terms of the world it started from. *)
Definition alloc_outcome (ex : exclude_set) (budget : Z) (w : World)
    (r : World * result error (IPAddress * exclude_set)) : Prop :=
  match r with
  | (w', Ok (a, ex')) =>
      ∃ x id t t', candidate ex x ∧ before_start b startFrom x = false ∧ ¬ taken_by_tenant (w_mem w) x ∧
        (∀ y, candidate ex y → before_start b startFrom y = false → y < x → taken_by_tenant (w_mem w) y) ∧
        (∀ y, candidate ex' y ↔ candidate ex y ∧ x < y) ∧
        w_mem w' = with_addr (w_mem w) id
                     (created_row (alloc_row tenantID sub (addr_text b x) hostname t') id t) ∧
        id = id_at (w_ids w) ∧ w_ids w' = S (w_ids w) ∧ mem_ok (w_mem w') ∧
        a = redact (decorateAddrLocked (w_mem w')
              (created_row (alloc_row tenantID sub (addr_text b x) hostname t') id t))
  | (w', Err Addresses_ErrNoAvailable) =>
      w_mem w' = w_mem w ∧ ∀ y, candidate ex y → before_start b startFrom y = false → taken_by_tenant (w_mem w) y
  | (w', Err Addresses_ErrConflict) =>
      w_mem w' = w_mem w ∧ ∃ ys, NoDup ys ∧ Z.of_nat (length ys) = budget ∧
        Forall (λ y, candidate ex y ∧ before_start b startFrom y = false ∧ taken_by_tenant (w_mem w) y) ys
  | _ => False
  end.

Lemma candidate_usable ex y : candidate ex y → usable_lo b ≤ y ≤ usable_hi b.
Proof. intros (Hr & _). lia. Qed.

(** Passing over the lowest candidate, because it is below the start or
    because the race for it was lost, reduces the claim to the rest. *)
Lemma alloc_outcome_skip ex x budget lost w w1 r :
  block_ok b → candidate ex x → (∀ y, candidate ex y → x ≤ y) →
  (if lost : bool then taken_by_tenant (w_mem w) x ∧ before_start b startFrom x = false else before_start b startFrom x = true) →
  w_mem w1 = w_mem w → w_ids w1 = w_ids w → alloc_outcome (<[addr_text b x := true]> ex) budget w1 r →
  alloc_outcome ex (if lost then budget + 1 else budget) w r.
Proof.
  intros Hok Hx Hmin Hpass Hw1 Hids. unfold alloc_outcome. rewrite Hw1, Hids.
  assert (Hrest : ∀ y, candidate (<[addr_text b x := true]> ex) y ↔ candidate ex y ∧ y ≠ x)
    by (intros y; by apply allocatable_insert).
  assert (Hskip : before_start b startFrom x = false → taken_by_tenant (w_mem w) x) by (destruct lost; [naive_solver|congruence]).
  destruct r as [w' [[a ex']|e]].
  - intros (z & id & t & t' & Hz & Hbz & Hnz & Hlow & Hex' & Hmem & Hid & Hids' & Hok' & Ha).
    apply Hrest in Hz as [Hz Hzx]. pose proof (Hmin z Hz).
    exists z, id, t, t'. split_and!; try done.
    + intros y Hy Hb Hlt. destruct (decide (y = x)) as [->|Hne]; [auto|]. apply Hlow; [by apply Hrest|done|done].
    + intros y. rewrite Hex', Hrest. split; [tauto|]. intros [? ?]. split_and!; [done|lia|lia].
  - destruct e; try done.
    + intros [Hm Hall]. split; [done|]. intros y Hy Hb.
      destruct (decide (y = x)) as [->|Hne]; [auto|]. apply Hall; [by apply Hrest|done].
    + intros [Hm (ys & Hnd & Hlen & Hys)]. split; [done|].
      assert (Hys' : Forall (λ y, candidate ex y ∧ before_start b startFrom y = false ∧ taken_by_tenant (w_mem w) y) ys)
        by (eapply Forall_impl; [exact Hys|]; intros y [[Hy _]%Hrest ?]; done).
      destruct lost; [|by exists ys]. destruct Hpass as [Htk Hbx]. exists (x :: ys). split_and!.
      * constructor; [|done]. intros Hin. rewrite Forall_forall in Hys.
        destruct (Hys x Hin) as [[_ Hne]%Hrest _]. done.
      * cbn [length]. lia.
      * by constructor.
Qed.

(** The addresses from [L] on that may still be passed over. *)
Definition skips (L : Z) : Z := if is_empty startFrom then 0 else Z.max 0 (usable_hi b + 1 - L).

Lemma allocInto_spec fuel conflicts ex L w :
  mem_ok (w_mem w) → "CreateAddress" ∉ mem_failNext (w_mem w) →
  0 ≤ conflicts < maxAllocTries → (∀ y, candidate ex y → L ≤ y) → maxAllocTries - conflicts + skips L ≤ Z.of_nat fuel →
  alloc_outcome ex (maxAllocTries - conflicts) w
    (allocInto svc fuel tenantID sub ex startFrom hostname conflicts w).
Proof.
  destruct (native_Parse _ _ Hnative) as (info & _ & Hok & _).
  revert conflicts ex L w. induction fuel as [|fuel IH]; intros conflicts ex L w Hm Hn Hc HL Hf; [unfold skips in Hf; destruct (is_empty startFrom); lia|].
  cbn [allocInto]. pose proof (FirstFree_native (sn_CIDR sub) b ex (sn_Gateway sub)
    (svc_skipFirst svc) (svc_skipLast svc) Hnative) as Hff.
  destruct (FirstFree (sn_CIDR sub) ex (sn_Gateway sub) (svc_skipFirst svc) (svc_skipLast svc)) as [ip|e].
  2:{ destruct Hff as [-> Hnone]. cbn. split; [done|]. intros y Hy. by destruct (Hnone y). }
  destruct Hff as (x & -> & Hx & Hmin). fold (addr_text b x). fold (before_start b startFrom x).
  pose proof (HL x Hx) as HLx. destruct (candidate_usable ex x Hx) as [_ Hhi].
  assert (Hnext : ∀ y, candidate (<[addr_text b x := true]> ex) y → x + 1 ≤ y).
  { intros y Hy. apply allocatable_insert in Hy as [Hy Hne]; [|done|done]. pose proof (Hmin y Hy). lia. }
  destruct (before_start b startFrom x) eqn:Eb.
  { (* below the start *)
    assert (Hse : is_empty startFrom = false) by (unfold before_start in Eb; by destruct (is_empty startFrom)).
    apply (alloc_outcome_skip ex x (maxAllocTries - conflicts) false w w); [done..|].
    apply (IH _ _ (x + 1)); [done|done|done|exact Hnext|]. unfold skips in *. rewrite Hse in *. lia. }
  set (w1 := {| w_mem := w_mem w; w_ids := w_ids w; w_ticks := S (w_ticks w); w_events := w_events w |}).
  rewrite (bind_Ok now _ w w1 (env_clock (w_ticks w)) eq_refl).
  set (row := alloc_row tenantID sub (addr_text b x) hostname (env_clock (w_ticks w))).
  destruct (CreateAddress_cases row w1 Hn) as [[Hst E]|(Hst & w2 & id & t & E & Hw2 & Hid)]; cbn in Hst;
    erewrite bind_Ok by (unfold try; rewrite E; reflexivity); cbn beta iota.
  - (* lost race *)
    destruct (maxAllocTries <=? conflicts + 1) eqn:Ec; bool_hyps.
    + cbn. split; [done|]. exists [x]. split_and!; [apply NoDup_singleton|cbn; unfold maxAllocTries in *; lia|].
      by constructor.
    + replace (maxAllocTries - conflicts) with ((maxAllocTries - (conflicts + 1)) + 1) by lia.
      apply (alloc_outcome_skip ex x _ true w w1); [done..|].
      apply (IH _ _ (x + 1)); [done|done|lia|exact Hnext|]. unfold skips in *. destruct (is_empty startFrom); lia.
  - (* claimed *)
    pose proof (CreateAddress_mem_ok _ _ _ _ E Hm) as Hm2. rewrite Hw2 in Hm2.
    pose proof (find_created _ _ _ _ Hm2) as Hfind. destruct (Hid eq_refl) as [Hid1 Hid2].
    erewrite bind_Ok.
    2:{ unfold catch_map, FindAddress, mbind, M_bind, mem. rewrite Hw2. cbn [ad_TenantID ad_Address row alloc_row] in Hfind.
        rewrite Hfind. reflexivity. }
    assert (Hout : ∀ w3, w_mem w3 = w_mem w2 → w_ids w3 = w_ids w2 → alloc_outcome ex (maxAllocTries - conflicts) w
      (w3, Ok (redact (decorateAddrLocked (w_mem w2) (created_row row id t)), <[addr_text b x := true]> ex))).
    { intros w3 Hw3 Hi3. cbn. exists x, id, t, (env_clock (w_ticks w)). fold row. split_and!; try done.
      - intros y Hy _ Hlt. pose proof (Hmin y Hy). lia.
      - intros y. unfold candidate. rewrite allocatable_insert by done. split.
        + intros [Hy Hne]. split; [done|]. pose proof (Hmin y Hy). lia.
        + intros [Hy Hlt]. split; [done|lia].
      - by rewrite Hw3, Hw2.
      - by rewrite Hi3, Hid2.
      - by rewrite Hw3, Hw2.
      - by rewrite Hw3. }
    rewrite <- Hw2. unfold publish. destruct (svc_pub svc); apply Hout; done.
Qed.
End allocation.

(** ** The exclude set *)

Lemma exclude_used used (acc : exclude_set) k :
  foldl (λ (acc : exclude_set) a, <[a := true]> acc) acc used !! k = Some true ↔
  k ∈ used ∨ acc !! k = Some true.
Proof.
  unfold exclude_set. revert acc. induction used as [|u used IH]; intros acc; cbn [foldl].
  - rewrite elem_of_nil. tauto.
  - rewrite IH, elem_of_cons. destruct (decide (k = u)) as [->|Hne].
    + rewrite lookup_insert_eq. tauto.
    + rewrite lookup_insert_ne by done. tauto.
Qed.

Lemma exclude_extra extra (acc : exclude_set) k :
  foldl (λ (acc : exclude_set) a, if is_empty a then acc else <[a := true]> acc) acc extra !! k = Some true ↔
  (k ∈ extra ∧ is_empty k = false) ∨ acc !! k = Some true.
Proof.
  unfold exclude_set. revert acc. induction extra as [|u extra IH]; intros acc; cbn [foldl].
  - rewrite elem_of_nil. tauto.
  - rewrite IH, elem_of_cons. destruct (is_empty u) eqn:Eu.
    + split; [tauto|]. intros [[[->|?] ?]|?]; [congruence|tauto|tauto].
    + destruct (decide (k = u)) as [->|Hne].
      * rewrite lookup_insert_eq. tauto.
      * rewrite lookup_insert_ne by done. tauto.
Qed.

Lemma exclude_of_lookup used extra k :
  exclude_of used extra !! k = Some true ↔ k ∈ used ∨ (k ∈ extra ∧ is_empty k = false).
Proof.
  unfold exclude_of. rewrite exclude_extra, exclude_used. unfold exclude_set. rewrite lookup_empty. naive_solver.
Qed.

(** ** Availability of an address number *)

(** [y] can be handed out in [sub]: inside the carved usable range, not the
    gateway, not an address of the subnet and not skipped by the caller, in
    any spelling. *)
Definition available (svc : Service) (m : Mem) (sub : Subnet) (skip : list string) (b : GoIP.block) (y : Z) : Prop :=
  usable_lo b + Z.max 0 (svc_skipFirst svc) ≤ y ≤ usable_hi b - Z.max 0 (svc_skipLast svc) ∧
  normalizeIP (sn_Gateway sub) ≠ addr_text b y ∧
  (∀ k row, mem_addrs m !! k = Some row → in_subnet (sn_TenantID sub) (sn_ID sub) row = true →
     normalizeIP (ad_Address row) ≠ addr_text b y) ∧
  (∀ s, s ∈ skip → normalizeIP s ≠ addr_text b y).

Section service.
Context `{Env} (svc : Service) (subj : Subjects) (sub : Subnet) (b : GoIP.block).
Context (Htenant : su_TenantID subj ≠ ""%string) (Hsub : sn_TenantID sub = su_TenantID subj).
Context (Hnative : native_cidr (sn_CIDR sub) b).

Definition used_addresses (m : Mem) : list string :=
  sort_strings (ad_Address <$> map_select (in_subnet (su_TenantID subj) (sn_ID sub)) (mem_addrs m)).

Lemma addr_text_nonempty y : block_ok b → in_block b (blk_width b) y → addr_text b y ≠ ""%string.
Proof.
  intros Hok [_ Hin]. pose proof (block_last b Hok).
  destruct (fam_ip_wf (blk_width b) y) as [Hwf _]; [apply Hok|destruct Hok as (_ & _ & ? & _); lia|].
  intros E. pose proof (IP_String_nonempty _ Hwf) as Hne. unfold addr_text in E. by rewrite E in Hne.
Qed.

Lemma candidate_available m skip y :
  candidate svc sub b (exclude_of (used_addresses m) skip) y ↔ available svc m sub skip b y.
Proof using Hsub Hnative.
  destruct (native_Parse _ _ Hnative) as (info & _ & Hok & _).
  unfold candidate, available, allocatable. rewrite Hsub.
  split; intros (Hr & Hg & Hx); (split; [exact Hr|]); (split; [exact Hg|]).
  - assert (Hne : addr_text b y ≠ ""%string) by (apply addr_text_nonempty, usable_in_block; [done|done|lia]).
    split.
    + intros k row Hk Hin. apply Hx, exclude_of_lookup. left. unfold used_addresses, sort_strings.
      apply elem_of_sort_by, list_elem_of_fmap. exists row. split; [done|].
      apply elem_of_map_select. eauto.
    + intros s Hs. destruct (is_empty s) eqn:Es.
      * apply is_empty_spec in Es as ->. intros E. apply Hne. rewrite <- E. reflexivity.
      * apply Hx, exclude_of_lookup. by right.
  - destruct Hx as [Hrows Hskip]. intros k [Hk|[Hk _]]%exclude_of_lookup; [|by apply Hskip].
    unfold used_addresses, sort_strings in Hk.
    apply elem_of_sort_by, list_elem_of_fmap in Hk as (row & -> & [Hin [k' Hk']]%elem_of_map_select).
    by apply (Hrows k').
Qed.

Lemma GetSubnet_run m w :
  w_mem w = m → mem_subnets m !! sn_ID sub = Some sub →
  catch_map mapErr (GetSubnet (su_TenantID subj) (sn_ID sub)) w = (w, Ok (fillSubnet m sub)).
Proof using Hsub.
  intros <- Hl. unfold catch_map, GetSubnet, mbind, M_bind, mem. rewrite Hl, Hsub, String.eqb_refl. done.
Qed.

(** The prefix common to the allocation handlers. *)
Lemma AllocateNext_run fuel start skip w :
  mem_subnets (w_mem w) !! sn_ID sub = Some sub →
  AllocateNext svc fuel subj (sn_ID sub) start skip w =
  match allocInto svc fuel (su_TenantID subj) (fillSubnet (w_mem w) sub)
          (exclude_of (used_addresses (w_mem w)) skip) start "" 0 w with
  | (w', Ok r) => (w', Ok (fst r))
  | (w', Err e) => (w', Err e)
  end.
Proof using Htenant Hsub.
  intros Hl. unfold AllocateNext.
  rewrite (bind_Ok (lift _) _ w w ()) by (unfold lift; by rewrite RequireTenant_self).
  rewrite (bind_Ok _ _ _ _ _ (GetSubnet_run _ w eq_refl Hl)).
  rewrite (bind_Ok _ _ w w (exclude_of (used_addresses (w_mem w)) skip)) by reflexivity.
  unfold mbind, M_bind. by destruct (allocInto _ _ _ _ _ _ _ _ w) as [w' [r|e]].
Qed.
End service.

(** C2: allocation end to end: for a stored subnet of the caller's tenant whose
    CIDR is native (not an IPv4-mapped IPv6 block), and any start address, given
    or empty, with enough rounds of fuel (twenty, and with a start one more per
    usable address), [AllocateNext] returns the lowest available address, not
    below the start, that the tenant does not already hold, having inserted
    exactly one row for it; it reports no available address only when the
    tenant holds every available one from the start on, and a conflict only
    after losing twenty races; in both cases nothing is written. *)
Theorem AllocateNext_lowest `{Env} svc subj sub b fuel startFrom skip w :
  su_TenantID subj ≠ ""%string → sn_TenantID sub = su_TenantID subj → native_cidr (sn_CIDR sub) b →
  mem_ok (w_mem w) → "CreateAddress" ∉ mem_failNext (w_mem w) →
  mem_subnets (w_mem w) !! sn_ID sub = Some sub → (alloc_fuel b startFrom ≤ fuel)%nat →
  let held y := stored (w_mem w) (su_TenantID subj) (addr_text b y) in
  let wanted y := available svc (w_mem w) sub skip b y ∧ before_start b startFrom y = false in
  match AllocateNext svc fuel subj (sn_ID sub) startFrom skip w with
  | (w', Ok a) =>
      ∃ x row, wanted x ∧ ¬ held x ∧ (∀ y, wanted y → y < x → held y) ∧
        w_mem w' = with_addr (w_mem w) (ad_ID row) row ∧
        ad_TenantID row = su_TenantID subj ∧ ad_SubnetID row = sn_ID sub ∧
        ad_Address row = addr_text b x ∧ ad_Address a = addr_text b x ∧ ad_ID a = ad_ID row ∧
        ad_Owner a = ""%string
  | (w', Err Addresses_ErrNoAvailable) => w_mem w' = w_mem w ∧ ∀ y, wanted y → held y
  | (w', Err Addresses_ErrConflict) =>
      w_mem w' = w_mem w ∧ ∃ ys, NoDup ys ∧ length ys = 20%nat ∧ Forall (λ y, wanted y ∧ held y) ys
  | (_, Err _) => False
  end.
Proof.
  intros Ht Hs Hnat Hm Hn Hl Hfuel held wanted. rewrite (AllocateNext_run svc subj sub) by done.
  assert (Hnat' : native_cidr (sn_CIDR (fillSubnet (w_mem w) sub)) b) by exact Hnat.
  pose proof (allocInto_spec svc (su_TenantID subj) (fillSubnet (w_mem w) sub) b startFrom "" Hnat' fuel 0
    (exclude_of (used_addresses subj sub (w_mem w)) skip) (usable_lo b) w Hm Hn) as Hspec.
  specialize (Hspec ltac:(unfold maxAllocTries; lia) (λ y Hy, proj1 (candidate_usable _ _ _ _ y Hy))).
  specialize (Hspec ltac:(unfold maxAllocTries, skips, alloc_fuel in *; destruct (is_empty startFrom); lia)).
  assert (Hcand : ∀ y, candidate svc (fillSubnet (w_mem w) sub) b (exclude_of (used_addresses subj sub (w_mem w)) skip) y
            ↔ available svc (w_mem w) sub skip b y)
    by (intros y; exact (candidate_available svc subj sub b Hs Hnat (w_mem w) skip y)).
  destruct (allocInto _ _ _ _ _ _ _ _ w) as [w' [[a ex']|e]]; cbn [alloc_outcome] in Hspec.
  - destruct Hspec as (x & id & t & t' & Hx & Hbx & Hnx & Hlow & _ & Hmem & _ & _ & _ & ->).
    exists x, (created_row (alloc_row (su_TenantID subj) (fillSubnet (w_mem w) sub) (addr_text b x) "" t') id t).
    split_and!; try done; [split; [by apply Hcand|done]|]. intros y [Hy Hb]. apply Hlow; [by apply Hcand|done].
  - destruct e; try done.
    + destruct Hspec as [Hmem Hall]. split; [done|]. intros y [Hy Hb]. apply Hall; [by apply Hcand|done].
    + destruct Hspec as [Hmem (ys & Hnd & Hlen & Hys)]. split; [done|]. exists ys.
      split_and!; [done|unfold maxAllocTries in Hlen; lia|].
      eapply Forall_impl; [exact Hys|]. intros y (Hy%Hcand & Hb & Hst). done.
Qed.

Definition ex_service : Service :=
  {| svc_pub := true; svc_skipFirst := 0; svc_skipLast := 0; svc_ping := None; svc_scan := None |}.

Definition ex_subnet : Subnet :=
  {| zero_Subnet with sn_ID := "s1"; sn_TenantID := "t1"; sn_Name := "lan"; sn_CIDR := "10.0.0.5/24";
     sn_Gateway := "10.0.0.1" |}.

(** A world whose tenant [t1] has the subnet and nothing else. *)
Definition ex_world : World :=
  {| w_mem := {| New with mem_subnets := {["s1" := ex_subnet]} |}; w_ids := 0; w_ticks := 0; w_events := [] |}.

Lemma ex_world_ok : mem_ok (w_mem ex_world).
Proof.
  destruct New_ok as [_ ? ? ? ? ? ? ? ? ? ? Hsnmp ? ? ?]. split; try assumption.
  - split; [by apply keyed_insert; auto with ipam|].
    cbn. intros k1 k2 v1 v2 x [<- _]%lookup_singleton_Some [<- _]%lookup_singleton_Some _ _. done.
  - split; [apply Hsnmp|]. intros k v Hk. cbn in Hk. by rewrite lookup_empty in Hk.
Qed.

(** From 10.0.0.9 on, with 10.0.0.9 itself skipped. *)
Lemma AllocateNext_lowest_witness :
  let skip := ["10.0.0.9"]%string in
  let held y := stored (w_mem ex_world) (su_TenantID ex_subject) (addr_text ex_block y) in
  let wanted y := available ex_service (w_mem ex_world) ex_subnet skip ex_block y ∧ before_start ex_block "10.0.0.9" y = false in
  (let '(_, r) := AllocateNext (H := ex_env) ex_service (alloc_fuel ex_block "10.0.0.9") ex_subject "s1" "10.0.0.9" skip ex_world in
   match r with Ok a => ad_Address a | Err _ => ""%string end) = "10.0.0.10"%string ∧
  match AllocateNext (H := ex_env) ex_service (alloc_fuel ex_block "10.0.0.9") ex_subject "s1" "10.0.0.9" skip ex_world with
  | (w', Ok a) =>
      ∃ x row, wanted x ∧ ¬ held x ∧ (∀ y, wanted y → y < x → held y) ∧
        w_mem w' = with_addr (w_mem ex_world) (ad_ID row) row ∧
        ad_TenantID row = su_TenantID ex_subject ∧ ad_SubnetID row = sn_ID ex_subnet ∧
        ad_Address row = addr_text ex_block x ∧ ad_Address a = addr_text ex_block x ∧ ad_ID a = ad_ID row ∧
        ad_Owner a = ""%string
  | (w', Err Addresses_ErrNoAvailable) => w_mem w' = w_mem ex_world ∧ ∀ y, wanted y → held y
  | (w', Err Addresses_ErrConflict) =>
      w_mem w' = w_mem ex_world ∧ ∃ ys, NoDup ys ∧ length ys = 20%nat ∧ Forall (λ y, wanted y ∧ held y) ys
  | (_, Err _) => False
  end.
Proof.
  split; [vm_compute; reflexivity|].
  apply (AllocateNext_lowest (H := ex_env) ex_service ex_subject ex_subnet ex_block (alloc_fuel ex_block "10.0.0.9") "10.0.0.9" ["10.0.0.9"]%string ex_world);
    [discriminate|reflexivity|exact ex_native|exact ex_world_ok| |reflexivity|reflexivity].
  apply not_elem_of_empty.
Defined.

(** ** Bulk allocation *)

Lemma lowest_proper (P Q : Z → Prop) xs : (∀ y, P y ↔ Q y) → lowest P xs → lowest Q xs.
Proof.
  intros HPQ (Hs & Hf & Hl). split_and!; [done| |].
  - eapply Forall_impl; [exact Hf|]. intros y. apply HPQ.
  - intros y Hy. apply Hl. by apply HPQ.
Qed.

(** The next [n] identifiers are unused and distinct, as random UUIDs are. *)
Definition fresh_ids `{Env} (m : Mem) (from n : nat) : Prop :=
  (∀ i, (from ≤ i < from + n)%nat → mem_addrs m !! id_at i = None) ∧
  (∀ i j, (from ≤ i < from + n)%nat → (from ≤ j < from + n)%nat → id_at i = id_at j → i = j).

Lemma stored_with_addr m id row tn ad :
  mem_addrs m !! id = None → ad_TenantID row = tn →
  stored (with_addr m id row) tn ad ↔ stored m tn ad ∨ ad = ad_Address row.
Proof.
  intros Hid Ht. unfold stored, with_addr; cbn. split.
  - intros (k & r & Hk & Hr & <-). apply lookup_insert_Some in Hk as [[_ <-]|[_ Hk]]; [by right|left; eauto].
  - intros [(k & r & Hk & Hr)| -> ].
    + exists k, r. split; [|done]. rewrite lookup_insert_ne; [done|]. congruence.
    + exists id, row. by rewrite lookup_insert_eq.
Qed.

Lemma fresh_ids_next `{Env} m from n row :
  fresh_ids m from (S n) → fresh_ids (with_addr m (id_at from) row) (S from) n.
Proof.
  intros [Hf Hd]. split.
  - intros i Hi. cbn. rewrite lookup_insert_ne; [apply Hf; lia|].
    intros E%Hd; lia.
  - intros i j Hi Hj. apply Hd; lia.
Qed.

(** The host name of the [i]-th row of a bulk allocation. *)
Definition bulk_hostname (hostnamePrefix : string) (i : nat) : string :=
  if is_empty hostnamePrefix then ""%string else hostnamePrefix +:+ nat_text i.

Section bulk.
Context `{Env} (svc : Service) (tenantID : string) (sub : Subnet) (b : GoIP.block) (prefix : string).
Context (Hnative : native_cidr (sn_CIDR sub) b).

Definition unheld (ex : exclude_set) (m : Mem) (y : Z) : Prop :=
  candidate svc sub b ex y ∧ ¬ taken_by_tenant tenantID b m y.

(** The outcome of the loop that still has [n] rows to allocate. *)
Definition bulk_outcome (P : Z → Prop) (n i : nat) (w : World)
    (r : World * result error (list IPAddress * option error)) : Prop :=
  match r with
  | (w', Ok (rows_, stop)) => ∃ xs, lowest P xs ∧
      ad_Address <$> rows_ = addr_text b <$> xs ∧
      ad_Hostname <$> rows_ = bulk_hostname prefix <$> seq i (length xs) ∧
      (∀ ad, stored (w_mem w') tenantID ad ↔ stored (w_mem w) tenantID ad ∨ ad ∈ addr_text b <$> xs) ∧
      match stop with
      | None => length xs = n
      | Some Addresses_ErrNoAvailable => (length xs < n)%nat ∧ ∀ y, P y → y ∈ xs
      | Some Addresses_ErrConflict => (length xs < n)%nat
      | Some _ => False
      end
  | (_, Err _) => False
  end.

Lemma unheld_next ex ex' m m' x :
  block_ok b → candidate svc sub b ex x → ¬ taken_by_tenant tenantID b m x →
  (∀ y, candidate svc sub b ex y → y < x → taken_by_tenant tenantID b m y) →
  (∀ y, candidate svc sub b ex' y ↔ candidate svc sub b ex y ∧ x < y) →
  (∀ ad, stored m' tenantID ad ↔ stored m tenantID ad ∨ ad = addr_text b x) →
  (∀ y, unheld ex' m' y ↔ unheld ex m y ∧ y ≠ x) ∧ ∀ y, unheld ex m y → x ≤ y.
Proof.
  intros Hok Hx Hnx Hlow Hex' Hst.
  assert (Hmin : ∀ y, unheld ex m y → x ≤ y).
  { intros y [Hy Hny]. destruct (decide (y < x)) as [Hlt|?]; [|lia]. by destruct Hny; apply Hlow. }
  split; [|done]. intros y. unfold unheld, taken_by_tenant in *. rewrite Hex', Hst. split.
  - intros [[Hy Hlt] Hns]. split; [split; [done|tauto]|lia].
  - intros [[Hy Hns] Hne]. pose proof (Hmin y (conj Hy Hns)). split; [split; [done|lia]|].
    intros [?|E]; [done|]. apply Hne.
    destruct (allocatable_wf _ _ _ _ _ _ Hok Hx) as (_ & _ & Hrx).
    destruct (allocatable_wf _ _ _ _ _ _ Hok Hy) as (_ & _ & Hry).
    apply (fam_String_inj (blk_width b)); [apply Hok|done|done|exact E].
Qed.

Lemma bulk_loop_spec fuel n i ex w :
  mem_ok (w_mem w) → "CreateAddress" ∉ mem_failNext (w_mem w) → (20 ≤ fuel)%nat →
  fresh_ids (w_mem w) (w_ids w) n →
  bulk_outcome (unheld ex (w_mem w)) n i w (bulk_loop svc fuel n i tenantID sub ex prefix w).
Proof.
  destruct (native_Parse _ _ Hnative) as (info & _ & Hok & _).
  intros Hm Hn Hfuel. revert i ex w Hm Hn. induction n as [|n IH]; intros i ex w Hm Hn Hfresh; cbn [bulk_loop].
  { exists []. split_and!; try done; [|intros ad; cbn; set_solver].
    split_and!; [constructor|constructor|]. intros y _. right. constructor. }
  fold (bulk_hostname prefix i).
  pose proof (allocInto_spec svc tenantID sub b "" (bulk_hostname prefix i) Hnative fuel 0 ex (usable_lo b) w Hm Hn
    ltac:(unfold maxAllocTries; lia) (λ y Hy, proj1 (candidate_usable _ _ _ _ y Hy)) ltac:(unfold maxAllocTries, skips; cbn; lia)) as Hspec.
  destruct (allocInto _ _ _ _ _ _ _ _ w) as [w1 [[a ex']|e]] eqn:E;
    erewrite bind_Ok by (unfold try; rewrite E; reflexivity); cbn beta iota.
  - cbn [alloc_outcome] in Hspec.
    destruct Hspec as (x & id & t & t' & Hx & _ & Hnx & Hlow' & Hex' & Hmem & -> & Hids & Hok1 & ->).
    assert (Hlow : ∀ y, candidate svc sub b ex y → y < x → taken_by_tenant tenantID b (w_mem w) y) by (intros y Hy; by apply Hlow').
    assert (Hst : ∀ ad, stored (w_mem w1) tenantID ad ↔ stored (w_mem w) tenantID ad ∨ ad = addr_text b x).
    { intros ad. rewrite Hmem. apply (stored_with_addr (w_mem w)); [|done]. apply Hfresh; lia. }
    destruct (unheld_next _ _ _ _ _ Hok Hx Hnx Hlow Hex' Hst) as [Hrest Hmin].
    assert (Hn1 : "CreateAddress" ∉ mem_failNext (w_mem w1)) by (rewrite Hmem; exact Hn).
    assert (Hf1 : fresh_ids (w_mem w1) (w_ids w1) n) by (rewrite Hmem, Hids; by apply fresh_ids_next).
    specialize (IH (S i) ex' w1 Hok1 Hn1 Hf1).
    destruct (bulk_loop _ _ _ _ _ _ _ _ w1) as [w2 [[rows_ stop]|e]] eqn:E2; [|done].
    erewrite bind_Ok by exact E2. cbn [mret M_ret fst snd bulk_outcome].
    destruct IH as (xs & Hlw & Haddr & Hhost & Hst2 & Hstop). exists (x :: xs). split_and!.
    + by eapply lowest_cons.
    + rewrite fmap_cons, Haddr. done.
    + cbn [length seq]. rewrite !fmap_cons, Hhost. done.
    + intros ad. rewrite Hst2, Hst, fmap_cons, elem_of_cons. tauto.
    + destruct stop as [e|]; [destruct e; try done|cbn [length]; lia]; cbn [length].
      * destruct Hstop as [Hl Hall]. split; [lia|]. intros y Hy.
        destruct (decide (y = x)) as [->|Hne]; [by left|right]. apply Hall, Hrest. done.
      * lia.
  - cbn [mret M_ret bulk_outcome]. exists [].
    assert (Hnil : ∀ P, lowest P []) by (intros P; split_and!; [constructor|constructor|]; intros y _; right; constructor).
    cbn [alloc_outcome] in Hspec.
    assert (Hsame : w_mem w1 = w_mem w → ∀ ad,
      stored (w_mem w1) tenantID ad ↔ stored (w_mem w) tenantID ad ∨ ad ∈ addr_text b <$> [])
      by (intros -> ad; rewrite fmap_nil, elem_of_nil; tauto).
    destruct e; try done; destruct Hspec as [Hmem Hrest].
    + split_and!; [apply Hnil|done|done|by apply Hsame|cbn; lia|].
      intros y [Hy Hny]. destruct Hny. by apply Hrest.
    + split_and!; [apply Hnil|done|done|by apply Hsame|cbn; lia].
Qed.
End bulk.

(** C16: bulk allocation end to end: [BulkAllocate] of [count] addresses inserts
    the lowest available addresses the tenant does not hold, in increasing
    order, named with the prefix and the index, and exactly those; it returns
    all [count] of them, or stops early reporting no available address when
    every available one is now held, or a conflict after twenty lost races on
    one address, keeping the rows already claimed. *)
Theorem BulkAllocate_lowest `{Env} svc subj sub b fuel count prefix w :
  su_TenantID subj ≠ ""%string → sn_TenantID sub = su_TenantID subj → native_cidr (sn_CIDR sub) b →
  mem_ok (w_mem w) → "CreateAddress" ∉ mem_failNext (w_mem w) →
  mem_subnets (w_mem w) !! sn_ID sub = Some sub → (20 ≤ fuel)%nat → 0 < count →
  fresh_ids (w_mem w) (w_ids w) (Z.to_nat count) →
  bulk_outcome (su_TenantID subj) b prefix
    (λ y, available svc (w_mem w) sub [] b y ∧ ¬ stored (w_mem w) (su_TenantID subj) (addr_text b y))
    (Z.to_nat count) 0 w (BulkAllocate svc fuel subj (sn_ID sub) count prefix w).
Proof.
  intros Ht Hs Hnat Hm Hn Hl Hfuel Hc Hfresh. unfold BulkAllocate.
  rewrite (bind_Ok (lift _) _ w w ()) by (unfold lift; by rewrite RequireTenant_self).
  replace (count <=? 0) with false by lia.
  rewrite (bind_Ok _ _ _ _ _ (GetSubnet_run subj sub Hs _ w eq_refl Hl)).
  rewrite (bind_Ok _ _ w w (exclude_of (used_addresses subj sub (w_mem w)) [])) by reflexivity.
  assert (Hnat' : native_cidr (sn_CIDR (fillSubnet (w_mem w) sub)) b) by exact Hnat.
  pose proof (bulk_loop_spec svc (su_TenantID subj) (fillSubnet (w_mem w) sub) b prefix Hnat' fuel (Z.to_nat count) 0
    (exclude_of (used_addresses subj sub (w_mem w)) []) w Hm Hn Hfuel Hfresh) as Hspec.
  assert (Hequiv : ∀ y,
    unheld svc (su_TenantID subj) (fillSubnet (w_mem w) sub) b (exclude_of (used_addresses subj sub (w_mem w)) []) (w_mem w) y ↔
    available svc (w_mem w) sub [] b y ∧ ¬ stored (w_mem w) (su_TenantID subj) (addr_text b y)).
  { intros y. unfold unheld. apply and_iff_compat_r.
    exact (candidate_available svc subj sub b Hs Hnat (w_mem w) [] y). }
  destruct (bulk_loop _ _ _ _ _ _ _ _ w) as [w' [[rows_ stop]|e]]; [|done].
  destruct Hspec as (xs & Hlw & Ha & Hh & Hst & Hstop). exists xs. split_and!; try done.
  - by eapply lowest_proper.
  - destruct stop as [e|]; [|done]. destruct e; try done. destruct Hstop as [? Hall].
    split; [done|]. intros y Hy. by apply Hall, Hequiv.
Qed.

Lemma BulkAllocate_lowest_witness :
  (let '(_, r) := BulkAllocate (H := ex_env) ex_service 20 ex_subject "s1" 2 "web" ex_world in
   match r with Ok (l, stop) => ((λ a, (ad_Address a, ad_Hostname a)) <$> l, is_some stop) | Err _ => ([], true) end)
   = ([("10.0.0.2", "web0"); ("10.0.0.3", "web1")]%string, false) ∧
  bulk_outcome (su_TenantID ex_subject) ex_block "web"
    (λ y, available ex_service (w_mem ex_world) ex_subnet [] ex_block y ∧
          ¬ stored (w_mem ex_world) (su_TenantID ex_subject) (addr_text ex_block y))
    2 0 ex_world (BulkAllocate (H := ex_env) ex_service 20 ex_subject "s1" 2 "web" ex_world).
Proof.
  split; [vm_compute; reflexivity|].
  apply (BulkAllocate_lowest (H := ex_env) ex_service ex_subject ex_subnet ex_block 20 2 "web" ex_world);
    [discriminate|reflexivity|exact ex_native|exact ex_world_ok|apply not_elem_of_empty
    |reflexivity|reflexivity|reflexivity|].
  split; [intros i _; reflexivity|]. intros i j Hi Hj.
  destruct i as [|[|i]], j as [|[|j]]; try reflexivity; try (cbn in Hi, Hj; lia); vm_compute; discriminate.
Defined.

(** ** Suggestions *)

Section suggest.
Context (svc : Service) (sub : Subnet) (b : GoIP.block).
Context (Hnative : native_cidr (sn_CIDR sub) b).

Lemma freeCandidates_spec n ex :
  ∃ xs, freeCandidates svc n sub ex = addr_text b <$> xs ∧ lowest (candidate svc sub b ex) xs ∧
    (length xs ≤ n)%nat ∧ ((length xs < n)%nat → ∀ y, candidate svc sub b ex y → y ∈ xs).
Proof using Hnative.
  destruct (native_Parse _ _ Hnative) as (info & _ & Hok & _).
  revert ex. induction n as [|n IH]; intros ex; cbn [freeCandidates].
  { exists []. split_and!; [done| |done|cbn; lia]. split_and!; [constructor|constructor|]. intros y _. right. constructor. }
  pose proof (FirstFree_native (sn_CIDR sub) b ex (sn_Gateway sub) (svc_skipFirst svc) (svc_skipLast svc) Hnative) as Hff.
  destruct (FirstFree _ _ _ _ _) as [ip|e].
  - destruct Hff as (x & -> & Hx & Hmin). fold (addr_text b x).
    destruct (IH (<[addr_text b x := true]> ex)) as (xs & -> & Hlw & Hlen & Hall).
    assert (HQ : ∀ y, candidate svc sub b (<[addr_text b x := true]> ex) y ↔ candidate svc sub b ex y ∧ y ≠ x)
      by (intros y; by apply allocatable_insert).
    exists (x :: xs). split_and!; [done|by eapply lowest_cons|cbn; lia|].
    cbn [length]. intros Hlt y Hy. destruct (decide (y = x)) as [->|Hne]; [left|right].
    apply Hall; [lia|]. by apply HQ.
  - destruct Hff as [-> Hnone]. exists []. split_and!; [done| |cbn; lia|intros _ y Hy; by destruct (Hnone y)].
    split_and!; [constructor|constructor|]. intros y _. right. constructor.
Qed.

Lemma probe_candidates_spec want cands :
  probe_candidates svc want cands `sublist_of` cands ∧ (length (probe_candidates svc want cands) ≤ want)%nat ∧
  Forall (λ ip, verifyQuiet svc ip = Ok true) (probe_candidates svc want cands).
Proof.
  revert want. induction cands as [|ip cands IH]; intros [|want]; cbn; try (split_and!; [apply sublist_nil_l|cbn; lia|done]).
  destruct (verifyQuiet svc ip) as [[]|e] eqn:E.
  - destruct (IH want) as (Hs & Hl & Hf). split_and!; [by apply sublist_skip|cbn; lia|by constructor].
  - destruct (IH (S want)) as (Hs & Hl & Hf). split_and!; [by apply sublist_cons|done|done].
  - destruct (IH (S want)) as (Hs & Hl & Hf). split_and!; [by apply sublist_cons|done|done].
Qed.
End suggest.

(** Suggestions: [SuggestAvailableAddresses] writes nothing and returns at
    most [count] available addresses, in increasing order, each of which
    answered neither the ping nor the port probe; without probers they are the
    lowest available ones, fewer than [count] only when there are no more. *)
Theorem SuggestAvailableAddresses_free svc subj sub b count skip w :
  su_TenantID subj ≠ ""%string → sn_TenantID sub = su_TenantID subj → native_cidr (sn_CIDR sub) b →
  mem_subnets (w_mem w) !! sn_ID sub = Some sub → 0 < count →
  ∃ xs, SuggestAvailableAddresses svc subj (sn_ID sub) count skip w = (w, Ok (addr_text b <$> xs)) ∧
    StronglySorted Z.lt xs ∧ Z.of_nat (length xs) ≤ count ∧
    Forall (λ x, available svc (w_mem w) sub skip b x ∧ verifyQuiet svc (addr_text b x) = Ok true) xs ∧
    (svc_ping svc = None → svc_scan svc = None →
     lowest (available svc (w_mem w) sub skip b) xs ∧
     (Z.of_nat (length xs) < count → ∀ y, available svc (w_mem w) sub skip b y → y ∈ xs)).
Proof.
  intros Ht Hs Hnat Hl Hc. unfold SuggestAvailableAddresses.
  rewrite (bind_Ok (lift _) _ w w ()) by (unfold lift; by rewrite RequireTenant_self).
  replace (count <=? 0) with false by lia.
  rewrite (bind_Ok _ _ _ _ _ (GetSubnet_run subj sub Hs _ w eq_refl Hl)).
  rewrite (bind_Ok _ _ w w (exclude_of (used_addresses subj sub (w_mem w)) skip)) by reflexivity.
  assert (Hnat' : native_cidr (sn_CIDR (fillSubnet (w_mem w) sub)) b) by exact Hnat.
  set (sample := if is_some (svc_ping svc) || is_some (svc_scan svc) then wrap64 (count * 4) else count).
  destruct (freeCandidates_spec svc (fillSubnet (w_mem w) sub) b Hnat' (Z.to_nat sample)
    (exclude_of (used_addresses subj sub (w_mem w)) skip)) as (xs & -> & Hlw & Hlen & Hall).
  assert (Hequiv : ∀ y, candidate svc (fillSubnet (w_mem w) sub) b (exclude_of (used_addresses subj sub (w_mem w)) skip) y ↔
    available svc (w_mem w) sub skip b y)
    by exact (candidate_available svc subj sub b Hs Hnat (w_mem w) skip).
  apply (lowest_proper _ _ _ Hequiv) in Hlw. destruct (Hlw) as (Hsorted & Hav & _).
  subst sample. destruct (is_some (svc_ping svc) || is_some (svc_scan svc)) eqn:Ep; cbn [mret M_ret].
  - destruct (probe_candidates_spec svc (Z.to_nat count) (addr_text b <$> xs)) as (Hsub & Hl' & Hq).
    destruct (sublist_fmap_inv _ _ _ Hsub) as (ys & Hys & E). rewrite E in *.
    exists ys. split_and!; [done|by eapply StronglySorted_sublist| | |].
    + rewrite length_fmap in Hl'. lia.
    + rewrite Forall_fmap in Hq. apply Forall_and. split; [by eapply Forall_sublist|exact Hq].
    + intros E1 E2. by rewrite E1, E2 in Ep.
  - apply orb_false_iff in Ep as [Ep%is_some_false Es%is_some_false].
    rewrite take_ge by (rewrite length_fmap; lia). exists xs. split_and!; [done|done|lia| |].
    + eapply Forall_impl; [exact Hav|]. intros x Hx. split; [done|]. unfold verifyQuiet. by rewrite Ep, Es.
    + intros _ _. split; [done|]. intros Hlt y Hy. apply Hall; [lia|]. by apply Hequiv.
Qed.

(** A prober for which [10.0.0.2] answers ping and [10.0.0.3] listens. *)
Definition ex_probing : Service :=
  {| ex_service with svc_ping := Some (λ ip, Ok (ip =s "10.0.0.2", 1));
     svc_scan := Some (λ ip ports, Ok (if ip =s "10.0.0.3" then [22] else [])) |}.

Lemma SuggestAvailableAddresses_free_witness :
  snd (SuggestAvailableAddresses ex_probing ex_subject "s1" 2 [] ex_world)
    = Ok ["10.0.0.4"; "10.0.0.5"]%string ∧
  ∃ xs, SuggestAvailableAddresses ex_probing ex_subject "s1" 2 [] ex_world
          = (ex_world, Ok (addr_text ex_block <$> xs)) ∧ StronglySorted Z.lt xs.
Proof.
  split; [vm_compute; reflexivity|].
  destruct (SuggestAvailableAddresses_free ex_probing ex_subject ex_subnet ex_block 2 [] ex_world)
    as (xs & E & Hs & _); [discriminate|reflexivity|exact ex_native|reflexivity|reflexivity|].
  exists xs. split; [exact E|exact Hs].
Defined.
