(* ===== verification/Forest.v ===== *)
(** * Parent chains and forests

    The services keep hierarchies as rows with a parent id.  This file has what
    they share: walking a chain of parents, and nesting rows into trees with
    the theorem that the nesting shows every row whose chain ends at a root
    exactly once.  The depth of the recursion is bounded by the number of rows
    because a chain that ends at a root never repeats a row. *)

From S2P Require Import Prelude Store.

(** ** Chains of parents *)

Section chains.
Context (parents : gmap string string).

Definition parent_of (id : string) : option string := if is_empty id then None else parents !! id.

(** The [n]-th ancestor. *)
Fixpoint up (n : nat) (id : string) : option string :=
  match n with O => Some id | S n' => parent_of id ≫= up n' end.

Lemma up_add m n id : up (m + n) id = up m id ≫= up n.
Proof.
  revert id. induction m as [|m IH]; intros id; cbn; [done|].
  destruct (parent_of id) as [p|]; [apply IH|done].
Qed.

(** The subnets or locations on the chain that starts at [id]. *)
Definition on_chain (id x : string) : Prop := x ≠ ""%string ∧ ∃ n, up n id = Some x.

(** Collecting a chain until it ends or repeats. *)
Fixpoint walk (fuel : nat) (id : string) (seen : gset string) : gset string :=
  match fuel with
  | O => seen
  | S fuel' =>
      if is_empty id || bool_decide (id ∈ seen) then seen
      else walk fuel' (default ""%string (parents !! id)) ({[id]} ∪ seen)
  end.

(** Every collected id's parent is collected, or is the next to visit. *)
Definition closed_towards (seen : gset string) (id : string) : Prop :=
  ∀ s p, s ∈ seen → parent_of s = Some p → p ≠ ""%string → p ∈ seen ∨ p = id.

Lemma closed_chain seen id n x s :
  closed_towards seen id → (id ∈ seen ∨ id = ""%string) → s ∈ seen → up n s = Some x → x ≠ ""%string → x ∈ seen.
Proof.
  intros Hc Hid. revert s. induction n as [|n IH]; intros s Hs Hu Hx; cbn in Hu; [by simplify_eq|].
  destruct (parent_of s) as [p|] eqn:Ep; [|done]. cbn in Hu.
  assert (Hp : p ≠ ""%string).
  { intros ->. destruct n; cbn in Hu; [by simplify_eq|]. done. }
  eapply IH; [|exact Hu|exact Hx]. destruct (Hc s p Hs Ep Hp) as [?| ->]; [done|]. naive_solver.
Qed.

Lemma walk_spec fuel id seen :
  closed_towards seen id → (size (dom parents ∖ seen) + 1 < fuel)%nat →
  ∀ x, x ∈ walk fuel id seen ↔ x ∈ seen ∨ on_chain id x.
Proof.
  revert id seen. induction fuel as [|fuel IH]; intros id seen Hc Hf x; [lia|]. cbn [walk].
  destruct (is_empty id) eqn:He; cbn [orb].
  { apply is_empty_spec in He as ->. split; [by left|]. intros [?|[Hx [[|n] Hn]]]; [done|cbn in Hn; by simplify_eq|done]. }
  assert (Hid : id ≠ ""%string) by (intros ->; done).
  case_bool_decide as Hin.
  - split; [by left|]. intros [?|[Hx [n Hn]]]; [done|]. eapply closed_chain; eauto.
  - destruct (parents !! id) as [p|] eqn:Ep; cbn [default].
    + assert (Hpo : parent_of id = Some p) by (unfold parent_of; by rewrite He).
      assert (Hsz : (size (dom parents ∖ ({[id]} ∪ seen)) < size (dom parents ∖ seen))%nat).
      { apply subset_size. assert (id ∈ dom parents) by (apply elem_of_dom; eauto). set_solver. }
      assert (Hc' : closed_towards ({[id]} ∪ seen) p).
      { intros s q [->%elem_of_singleton|Hs]%elem_of_union Hq Hne; [right; congruence|left].
        destruct (Hc s q Hs Hq Hne) as [?| ->]; set_solver. }
      rewrite (IH p _ Hc') by lia.
      rewrite elem_of_union, elem_of_singleton. split.
      * intros [[->|?]|[Hx [n Hn]]]; [right; split; [done|by exists O]|by left|].
        right. split; [done|]. exists (S n). cbn. by rewrite Hpo.
      * intros [?|[Hx [[|n] Hn]]]; [left; by right|cbn in Hn; simplify_eq; left; by left|].
        right. split; [done|]. exists n. cbn in Hn. by rewrite Hpo in Hn.
    + assert (Hpo : parent_of id = None) by (unfold parent_of; by rewrite He).
      assert (Hend : walk fuel "" ({[id]} ∪ seen) = {[id]} ∪ seen) by (by destruct fuel).
      rewrite Hend, elem_of_union, elem_of_singleton. split.
      * intros [->|?]; [right; split; [done|by exists O]|by left].
      * intros [?|[Hx [[|n] Hn]]]; [by right|cbn in Hn; simplify_eq; by left|]. cbn in Hn. by rewrite Hpo in Hn.
Qed.

Lemma walk_chain id x : x ∈ walk (size parents + 2) id ∅ ↔ on_chain id x.
Proof.
  rewrite walk_spec.
  - rewrite elem_of_empty. tauto.
  - intros s p Hs. by apply not_elem_of_empty in Hs.
  - rewrite difference_empty_L, size_dom. lia.
Qed.

(** *** Chains that end *)

(** The chain of parents above [p] ends. *)
Definition rooted (p : string) : Prop := ∃ n, up n p = None.

Lemma up_none_mono n m id : up n id = None → (n ≤ m)%nat → up m id = None.
Proof. intros Hn Hle. replace m with (n + (m - n))%nat by lia. by rewrite up_add, Hn. Qed.

Lemma rooted_no_cycle p c : rooted c → up (S p) c ≠ Some c.
Proof.
  intros [k Hk] Hc. assert (Hq : ∀ q, up (q * S p) c = Some c).
  { induction q as [|q IH]; [done|]. replace (S q * S p)%nat with (S p + q * S p)%nat by lia. by rewrite up_add, Hc. }
  specialize (Hq k). rewrite (up_none_mono k) in Hq; [done|done|]. nia.
Qed.

(** A chain without repetitions visits at most every known id once. *)
Lemma chain_nodes n a b :
  (∀ c, rooted c) → up n a = Some b →
  ∃ l, length l = n ∧ NoDup l ∧ ∀ x, x ∈ l → x ∈ dom parents ∧ ∃ i, up i a = Some x.
Proof.
  intros Hac. revert a. induction n as [|n IH]; intros a Hu; [by exists []; split_and!; [done|constructor|intros x ?%elem_of_nil]|].
  cbn in Hu. destruct (parent_of a) as [p|] eqn:Ep; [|done]. cbn in Hu.
  destruct (IH p Hu) as (l & Hl & Hnd & Hin). exists (a :: l). split_and!; [cbn; lia| |].
  - constructor; [|done]. intros [_ [i Hi]]%Hin. apply (rooted_no_cycle i a (Hac a)). cbn. by rewrite Ep.
  - intros x [->|[Hx [i Hi]]%Hin]%elem_of_cons.
    + split; [|by exists O]. unfold parent_of in Ep. destruct (is_empty a); [done|]. apply elem_of_dom. eauto.
    + split; [done|]. exists (S i). cbn. by rewrite Ep.
Qed.

Lemma chain_length n a b : (∀ c, rooted c) → up n a = Some b → (n ≤ size parents)%nat.
Proof.
  intros Hac Hu. destruct (chain_nodes n a b Hac Hu) as (l & <- & Hnd & Hin). rewrite <- size_dom.
  apply NoDup_subset_size; [done|]. intros x Hx. by apply Hin.
Qed.
End chains.

(** Re-parenting [id] under a chain that does not pass through it keeps every
    chain ending. *)
Section reparent.
Context (parents : gmap string string) (id np : string).
Local Notation parents' := (<[id := np]> parents).

Lemma parent_of_other x : x ≠ id → parent_of parents' x = parent_of parents x.
Proof. intros Hx. unfold parent_of. destruct (is_empty x); [done|]. by rewrite lookup_insert_ne. Qed.

Lemma up_avoiding n a : (∀ i, (i < n)%nat → up parents i a ≠ Some id) → up parents' n a = up parents n a.
Proof.
  revert a. induction n as [|n IH]; intros a Ha; [done|]. cbn.
  rewrite parent_of_other by (intros ->; by apply (Ha O); [lia|]).
  destruct (parent_of parents a) as [p|] eqn:Ep; [|done]. cbn. apply IH. intros i Hi Hu.
  apply (Ha (S i)); [lia|]. cbn. by rewrite Ep.
Qed.

Lemma reparent_acyclic :
  id ≠ ""%string → (∀ c, rooted parents c) → (∀ n, up parents n np ≠ Some id) → ∀ c, rooted parents' c.
Proof.
  intros Hid Hac Hnp. assert (Hroot : rooted parents' np).
  { destruct (Hac np) as [k Hk]. exists k. rewrite up_avoiding; auto. }
  assert (Hself : rooted parents' id).
  { destruct Hroot as [k Hk]. exists (S k). cbn. unfold parent_of.
    destruct (is_empty id) eqn:E; [by apply is_empty_spec in E|]. rewrite lookup_insert_eq. exact Hk. }
  intros c. destruct (Hac c) as [k Hk]. revert c Hk. induction k as [|k IH]; intros c Hk; [done|].
  destruct (decide (c = id)) as [->|Hne]; [done|]. cbn in Hk.
  destruct (parent_of parents c) as [p|] eqn:Ep.
  - destruct (IH p Hk) as [j Hj]. exists (S j). cbn. by rewrite parent_of_other, Ep.
  - exists 1%nat. cbn. by rewrite parent_of_other, Ep.
Qed.
End reparent.

(** ** Forests *)

Section forest.
Context {A : Type} (ID parent : A → string) (rows_ : list A).

Definition present (id : string) : bool := existsb (λ r, ID r =s id) rows_.
Definition is_root (r : A) : bool := is_empty (parent r) || negb (present (parent r)).

Definition sort_ids : list A → list A := sort_by (λ a b, str_ltb (ID a) (ID b)).

Definition children (id : string) : list A :=
  sort_ids (List.filter (λ r, negb (is_root r) && (parent r =s id)) rows_).

Inductive tree : Type := TNode (a : A) (cs : list tree).

Fixpoint build (fuel : nat) (r : A) : tree :=
  TNode r match fuel with O => [] | S fuel' => build fuel' <$> children (ID r) end.

Definition forest : list tree := build (length rows_) <$> sort_ids (List.filter is_root rows_).

(** The rows of a tree, in the order they are shown. *)
Fixpoint tree_rows (t : tree) : list A :=
  match t with TNode a cs => a :: concat (List.map tree_rows cs) end.

Definition forest_rows : list A := concat (List.map tree_rows forest).

(** [x] is nested directly under [y]. *)
Definition child (x y : A) : Prop := x ∈ rows_ ∧ y ∈ rows_ ∧ is_root x = false ∧ parent x = ID y.

(** The row's chain of parents ends at a root. *)
Definition grounded (r : A) : Prop := ∃ n root, nsteps child n r root ∧ root ∈ rows_ ∧ is_root root = true.

Context (Hids : NoDup (ID <$> rows_)).

Lemma same_row x y : x ∈ rows_ → y ∈ rows_ → ID x = ID y → x = y.
Proof using Hids.
  intros [i Hi]%list_elem_of_lookup [j Hj]%list_elem_of_lookup E.
  assert (i = j) as <-; [|congruence].
  eapply (NoDup_lookup (ID <$> rows_) i j (ID x)); [done|by rewrite list_lookup_fmap, Hi|].
  by rewrite list_lookup_fmap, Hj, E.
Qed.

Lemma child_det x y z : child x y → child x z → y = z.
Proof using Hids. intros (_ & Hy & _ & E1) (_ & Hz & _ & E2). apply same_row; congruence. Qed.

Lemma nsteps_det n x y z : nsteps child n x y → nsteps child n x z → y = z.
Proof using Hids.
  revert x. induction n as [|n IH]; intros x H1 H2.
  - inversion H1; subst. by inversion H2.
  - inversion_clear H1 as [|? ? a ? Ha Hay]. inversion_clear H2 as [|? ? b ? Hb Hbz].
    rewrite (child_det _ _ _ Hb Ha) in Hbz. by eapply IH.
Qed.

(** Chains of a row to a root have one length. *)
Lemma depth_unique n m x r : nsteps child n x r → nsteps child m x r → is_root r = true → n = m.
Proof using Hids.
  intros H1 H2 Hr. assert (Hlt : ∀ a b, nsteps child a x r → nsteps child b x r → ¬ (a < b)%nat).
  { intros a b Ha Hb Hab. replace b with (a + (b - a))%nat in Hb by lia.
    apply nsteps_add_inv in Hb as (y & Hy & Hyr). rewrite <- (nsteps_det _ _ _ _ Ha Hy) in Hyr.
    destruct (b - a)%nat as [|k] eqn:E; [lia|]. inversion_clear Hyr as [|? ? z ? (_ & _ & Hf & _)]. congruence. }
  destruct (lt_eq_lt_dec n m) as [[?|?]|?]; [by destruct (Hlt n m)|done|by destruct (Hlt m n)].
Qed.

Lemma chain_bound n x r :
  nsteps child n x r → x ∈ rows_ → r ∈ rows_ → is_root r = true →
  ∃ l, length l = S n ∧ NoDup l ∧ (∀ y, y ∈ l → y ∈ rows_ ∧ ∃ k, (k ≤ n)%nat ∧ nsteps child k y r).
Proof using Hids.
  revert x. induction n as [|n IH]; intros x Hn Hx Hr Hroot.
  { exists [x]. split; [done|]. split; [apply NoDup_singleton|]. intros y ->%list_elem_of_singleton. eauto. }
  inversion_clear Hn as [|? ? c ? Hc Hcr].
  destruct (IH c Hcr ltac:(apply Hc) Hr Hroot) as (l & Hl & Hnd & Hin).
  exists (x :: l). split; [cbn; lia|]. split.
  - constructor; [|done]. intros (_ & k & Hk & Hkr)%Hin.
    assert (k = S n) by (eapply depth_unique; [exact Hkr| |done]; econstructor; eauto). lia.
  - intros y [->|(? & k & Hk & Hkr)%Hin]%elem_of_cons.
    + split; [done|]. exists (S n). split; [lia|]. econstructor; eauto.
    + split; [done|]. exists k. split; [lia|done].
Qed.

Lemma depth_bound n x r : nsteps child n x r → x ∈ rows_ → r ∈ rows_ → is_root r = true → (n < length rows_)%nat.
Proof using Hids.
  intros Hn Hx Hr Hroot. destruct (chain_bound _ _ _ Hn Hx Hr Hroot) as (l & Hl & Hnd & Hin).
  assert (length l ≤ length rows_)%nat; [|lia]. apply submseteq_length, NoDup_submseteq; [done|].
  intros y Hy. by apply Hin.
Qed.

Lemma elem_of_children c r : r ∈ rows_ → c ∈ children (ID r) ↔ child c r.
Proof.
  intros Hr. unfold children, sort_ids. rewrite elem_of_sort_by, list_elem_of_In, filter_In, <- list_elem_of_In.
  unfold child. rewrite andb_true_iff, negb_true_iff, String.eqb_eq. naive_solver.
Qed.

Lemma elem_of_concat_map {B} (f : tree → list B) ts x : x ∈ concat (List.map f ts) ↔ ∃ t, t ∈ ts ∧ x ∈ f t.
Proof.
  rewrite list_elem_of_In, in_concat. setoid_rewrite in_map_iff. setoid_rewrite list_elem_of_In. naive_solver.
Qed.

Lemma tree_rows_spec fuel r x :
  r ∈ rows_ → x ∈ tree_rows (build fuel r) ↔ ∃ n, (n ≤ fuel)%nat ∧ nsteps child n x r.
Proof.
  revert r. induction fuel as [|fuel IH]; intros r Hr; cbn [build tree_rows].
  - cbn. rewrite list_elem_of_singleton. split; [intros ->; exists O; split; [lia|constructor]|].
    intros (n & Hn & Hs). assert (n = O) as -> by lia. by inversion_clear Hs.
  - rewrite elem_of_cons, elem_of_concat_map. split.
    + intros [->|(t & (c & -> & Hc)%list_elem_of_fmap & Hx)]; [exists O; split; [lia|constructor]|].
      apply elem_of_children in Hc; [|done]. apply IH in Hx as (n & Hn & Hs); [|apply Hc].
      exists (S n). split; [lia|]. by eapply nsteps_r.
    + intros ([|n] & Hn & Hs); [inversion_clear Hs; by left|right].
      apply nsteps_inv_r in Hs as (c & Hs & Hc). exists (build fuel c). split.
      * apply list_elem_of_fmap. exists c. split; [done|]. by apply elem_of_children.
      * apply IH; [apply Hc|]. exists n. split; [lia|done].
Qed.

Lemma NoDup_sorted_filter (P : A → bool) : NoDup (sort_ids (List.filter P rows_)).
Proof using Hids.
  unfold sort_ids. rewrite sort_by_perm. apply NoDup_fmap_1 in Hids. clear -Hids.
  induction Hids as [|x l Hx Hl IH]; cbn; [constructor|]. destruct (P x); [|done]. constructor; [|done].
  rewrite list_elem_of_In, filter_In, <- list_elem_of_In. naive_solver.
Qed.

(** Disjoint subtrees concatenate without repetition. *)
Lemma NoDup_concat_trees fuel (l : list A) :
  NoDup l → (∀ c, c ∈ l → NoDup (tree_rows (build fuel c))) →
  (∀ c1 c2 x, c1 ∈ l → c2 ∈ l → x ∈ tree_rows (build fuel c1) → x ∈ tree_rows (build fuel c2) → c1 = c2) →
  NoDup (concat (List.map tree_rows (build fuel <$> l))).
Proof.
  induction l as [|c l IH]; intros Hl Hn Hd; cbn; [constructor|].
  apply NoDup_cons in Hl as [Hc Hl]. apply NoDup_app. split_and!.
  - apply Hn. left.
  - intros x Hx (t & (c2 & -> & Hc2)%list_elem_of_fmap & Hx2)%elem_of_concat_map.
    apply Hc. rewrite (Hd c c2 x); [done|left|by right|done|done].
  - apply IH; [done| |]; intros; [apply Hn; by right|]. eapply Hd; [by right|by right|done|done].
Qed.

Lemma tree_rows_NoDup fuel r : r ∈ rows_ → grounded r → NoDup (tree_rows (build fuel r)).
Proof using Hids.
  revert r. induction fuel as [|fuel IH]; intros r Hr (d & root & Hd & Hroot & Hst); cbn [build tree_rows].
  { apply NoDup_singleton. }
  assert (Hdepth : ∀ c n x, child c r → nsteps child n x c → nsteps child (n + S d) x root).
  { intros c n x Hc Hx. eapply nsteps_trans; [exact Hx|]. econstructor; eauto. }
  constructor.
  - intros (t & (c & -> & Hc)%list_elem_of_fmap & Hx)%elem_of_concat_map.
    apply elem_of_children in Hc; [|done]. apply tree_rows_spec in Hx as (n & _ & Hs); [|apply Hc].
    assert (n + S d = d)%nat by (eapply depth_unique; [by eapply Hdepth|exact Hd|done]). lia.
  - apply NoDup_concat_trees; [apply NoDup_sorted_filter| |].
    + intros c Hc%elem_of_children; [|done]. apply IH; [apply Hc|].
      exists (S d), root. split; [econstructor; eauto|done].
    + intros c1 c2 x Hc1%elem_of_children Hc2%elem_of_children; [|done|done].
      intros (n1 & _ & H1)%tree_rows_spec (n2 & _ & H2)%tree_rows_spec; [|apply Hc2|apply Hc1].
      assert (n1 + S d = n2 + S d)%nat by exact (depth_unique _ _ x root (Hdepth c1 n1 x Hc1 H1) (Hdepth c2 n2 x Hc2 H2) Hst).
      assert (n1 = n2) as -> by lia. by eapply nsteps_det.
Qed.

Lemma elem_of_roots r : r ∈ sort_ids (List.filter is_root rows_) ↔ r ∈ rows_ ∧ is_root r = true.
Proof. unfold sort_ids. by rewrite elem_of_sort_by, list_elem_of_In, filter_In, <- list_elem_of_In. Qed.

(** The forest shows exactly the grounded rows, each once. *)
Lemma forest_spec : NoDup forest_rows ∧ ∀ r, r ∈ forest_rows ↔ r ∈ rows_ ∧ grounded r.
Proof using Hids.
  unfold forest_rows, forest. split.
  - apply NoDup_concat_trees; [apply NoDup_sorted_filter| |].
    + intros c [Hc Hroot]%elem_of_roots. apply tree_rows_NoDup; [done|]. exists O, c. split; [constructor|done].
    + intros c1 c2 x [Hc1 Hr1]%elem_of_roots [Hc2 Hr2]%elem_of_roots.
      intros (n1 & _ & H1)%tree_rows_spec (n2 & _ & H2)%tree_rows_spec; [|done|done].
      destruct (decide (n1 ≤ n2)%nat) as [Hle|Hle].
      * replace n2 with (n1 + (n2 - n1))%nat in H2 by lia. apply nsteps_add_inv in H2 as (y & Hy & Hyc).
        rewrite <- (nsteps_det _ _ _ _ H1 Hy) in Hyc.
        inversion_clear Hyc as [|? ? z ? (_ & _ & Hf & _)]; [done|congruence].
      * replace n1 with (n2 + (n1 - n2))%nat in H1 by lia. apply nsteps_add_inv in H1 as (y & Hy & Hyc).
        rewrite <- (nsteps_det _ _ _ _ H2 Hy) in Hyc.
        inversion_clear Hyc as [|? ? z ? (_ & _ & Hf & _)]; [done|congruence].
  - intros r. rewrite elem_of_concat_map. split.
    + intros (t & (c & -> & [Hc Hroot]%elem_of_roots)%list_elem_of_fmap & (n & _ & Hs)%tree_rows_spec); [|done].
      split; [|by exists n, c]. destruct Hs as [|? ? ? ? (Hx & _)]; done.
    + intros (Hr & n & root & Hs & Hroot & Hst). exists (build (length rows_) root). split.
      * apply list_elem_of_fmap. exists root. split; [done|]. by apply elem_of_roots.
      * apply tree_rows_spec; [done|]. exists n. split; [|done].
        pose proof (depth_bound _ _ _ Hs Hr Hroot Hst). lia.
Qed.

(** The parent of every row, by id. *)
Definition parent_map : gmap string string := list_to_map ((λ r, (ID r, parent r)) <$> rows_).

Lemma parent_map_lookup k p : parent_map !! k = Some p ↔ ∃ r, r ∈ rows_ ∧ ID r = k ∧ parent r = p.
Proof using Hids.
  unfold parent_map. rewrite <- elem_of_list_to_map.
  - rewrite list_elem_of_fmap. naive_solver.
  - rewrite <- list_fmap_compose. exact Hids.
Qed.

Lemma present_true id : present id = true ↔ is_Some (parent_map !! id).
Proof using Hids.
  unfold present. rewrite existsb_exists. setoid_rewrite <- list_elem_of_In. split.
  - intros (r & Hr & E). bool_hyps. exists (parent r). apply parent_map_lookup. eauto.
  - intros [p (r & Hr & E & _)%parent_map_lookup]. exists r. split; [done|]. by apply String.eqb_eq.
Qed.

Lemma is_root_true r : is_root r = true ↔ parent_of parent_map (parent r) = None.
Proof using Hids.
  unfold is_root, parent_of. rewrite orb_true_iff, negb_true_iff. destruct (is_empty (parent r)); [tauto|].
  destruct (present (parent r)) eqn:E.
  - apply present_true in E as [p E]. rewrite E. naive_solver.
  - split; [|tauto]. intros _. destruct (parent_map !! parent r) eqn:E'; [|done].
    rewrite (proj2 (present_true (parent r))) in E by eauto. done.
Qed.

Lemma grounded_rooted r : r ∈ rows_ → grounded r ↔ rooted parent_map (parent r).
Proof using Hids.
  intros Hr. split.
  - intros (n & root & Hs & Hroot & Hst). induction Hs as [x|n x c y Hc Hs IH].
    + exists 1%nat. cbn. by rewrite (proj1 (is_root_true x)).
    + destruct (IH ltac:(apply Hc) Hroot Hst) as [k Hk]. exists (S k). cbn. destruct Hc as (_ & Hc & Hnr & E).
      unfold parent_of. assert (Hne : is_empty (parent x) = false).
      { unfold is_root in Hnr. by apply orb_false_iff in Hnr as [? _]. }
      rewrite Hne, (proj2 (parent_map_lookup (parent x) (parent c))) by eauto. exact Hk.
  - intros [n Hn]. revert r Hr Hn. induction n as [|n IH]; intros r Hr Hn; [done|]. cbn in Hn.
    destruct (parent_of parent_map (parent r)) as [p|] eqn:Ep.
    + cbn in Hn. assert (Hnr : is_root r = false).
      { destruct (is_root r) eqn:E; [|done]. apply is_root_true in E. congruence. }
      unfold parent_of in Ep. destruct (is_empty (parent r)); [done|].
      apply parent_map_lookup in Ep as (c & Hc & E & <-).
      destruct (IH c Hc Hn) as (k & root & Hs & Hroot). exists (S k), root. split; [|done].
      econstructor; [|exact Hs]. by split_and!.
    + exists O, r. split; [constructor|]. split; [done|]. by apply is_root_true.
Qed.

(** The ids a forest shows, for rows given by a map of parents. *)
Lemma forest_ids parents :
  (∀ id p, (∃ r, r ∈ rows_ ∧ ID r = id ∧ parent r = p) ↔ parents !! id = Some p) →
  NoDup (ID <$> forest_rows) ∧
  ∀ id, id ∈ ID <$> forest_rows ↔ ∃ p, parents !! id = Some p ∧ rooted parents p.
Proof using Hids.
  intros Hrows. assert (Hmap : parent_map = parents).
  { apply map_eq. intros k. apply option_eq. intros p. by rewrite parent_map_lookup, Hrows. }
  destruct forest_spec as [Hnd Hin]. split.
  - apply NoDup_fmap_2_strong; [|done]. intros x y [Hx _]%Hin [Hy _]%Hin E. by apply same_row.
  - intros id. rewrite list_elem_of_fmap. split.
    + intros (r & -> & [Hr Hg]%Hin). apply grounded_rooted in Hg; [|done]. rewrite Hmap in Hg.
      exists (parent r). split; [|done]. apply Hrows. eauto.
    + intros (p & Hp & Hg). apply Hrows in Hp as (r & Hr & <- & <-). exists r. split; [done|]. apply Hin.
      split; [done|]. apply grounded_rooted; [done|]. by rewrite Hmap.
Qed.
End forest.
