(* ===== verification/Snmpcred.v ===== *)
(** * internal/snmpcred: rules for subnet SNMP credentials

    Input validation, the metadata/secret split and the inheritance of
    credentials from the nearest ancestor subnet.  [Resolve] walks at most
    [MaxDepth] + 1 subnets: its recursion is on the steps left. *)

From S2P Require Import Prelude Models Store Forest.

Definition MaxValueLen : Z := 256.
Definition MinPasswordLen : Z := 8.
Definition MaxDepth : nat := 64.
Definition LevelAuthNoPriv : string := "authNoPriv".
Definition LevelAuthPriv : string := "authPriv".

Definition authProtocols : list string := ["MD5"; "SHA"; "SHA224"; "SHA256"; "SHA384"; "SHA512"].
Definition privProtocols : list string := ["DES"; "AES"; "AES192"; "AES256"; "AES192C"; "AES256C"].
Definition weak : list string := ["MD5"; "SHA"; "DES"].

Definition contains (set : list string) (v : string) : bool := existsb (λ s, s =s v) set.
Definition validAuth (p : string) : bool := contains authProtocols p.
Definition validPriv (p : string) : bool := contains privProtocols p.
Definition Weak (protocol : string) : bool := contains weak protocol.

Record Meta : Type := {
  me_Version : Z;
  me_SecurityLevel : string;
  me_AuthProtocol : string;
  me_PrivProtocol : string
}.

Definition Meta_Weak (m : Meta) : bool := Weak (me_AuthProtocol m) || Weak (me_PrivProtocol m).

Record Secret : Type := {
  se_Community : string;
  se_User : string;
  se_AuthPassword : string;
  se_PrivPassword : string
}.

Record Input : Type := {
  in_Version : Z;
  in_Community : string;
  in_User : string;
  in_SecurityLevel : string;
  in_AuthProtocol : string;
  in_AuthPassword : string;
  in_PrivProtocol : string;
  in_PrivPassword : string
}.

(** ** Validation *)

(** [utf8.RuneCountInString]: the width of the sequence a first byte starts,
    with the range its second byte must be in; anything else is one rune of
    one byte. *)
Definition rune_start (c : Z) : option (nat * Z * Z) :=
  if c <? 194 then None
  else if c <=? 223 then Some (2%nat, 128, 191)
  else if c =? 224 then Some (3%nat, 160, 191)
  else if c =? 237 then Some (3%nat, 128, 159)
  else if c <=? 239 then Some (3%nat, 128, 191)
  else if c =? 240 then Some (4%nat, 144, 191)
  else if c <=? 243 then Some (4%nat, 128, 191)
  else if c =? 244 then Some (4%nat, 128, 143)
  else None.

Definition is_cont (b : Z) : bool := (128 <=? b) && (b <=? 191).

Definition rune_width (s : list Z) : nat :=
  match s with
  | [] => 0
  | c :: rest =>
      match rune_start c with
      | None => 1
      | Some (w, lo, hi) =>
          match rest with
          | b1 :: rest1 =>
              if (lo <=? b1) && (b1 <=? hi) && ((pred w - 1) <=? length rest1)%nat &&
                 forallb is_cont (take (pred w - 1) rest1)
              then w else 1
          | [] => 1
          end
      end
  end.

Fixpoint rune_count (fuel : nat) (s : list Z) : Z :=
  match fuel, s with
  | S fuel', _ :: _ => 1 + rune_count fuel' (drop (rune_width s) s)
  | _, _ => 0
  end.

Definition RuneCountInString (s : string) : Z :=
  let l := byte_of <$> String.list_ascii_of_string s in rune_count (length l) l.

(** A rejected field and the reason. *)
Record FieldError : Type := { fe_Field : string; fe_Msg : string }.
Definition fieldErr (field msg : string) : result FieldError () := Err {| fe_Field := field; fe_Msg := msg |}.

Definition value (field v : string) (minLen : Z) : result FieldError () :=
  let n := RuneCountInString v in
  if n =? 0 then fieldErr field "required"
  else if n <? minLen then fieldErr field "too short"
  else if MaxValueLen <? n then fieldErr field "too long"
  else Ok ().

Definition validateV3 (i : Input) : result FieldError () :=
  if negb (is_empty (in_Community i)) then fieldErr "community" "not allowed for SNMP v3"
  else
    let* _ := value "user" (in_User i) 1 in
    if negb (in_SecurityLevel i =s LevelAuthNoPriv) && negb (in_SecurityLevel i =s LevelAuthPriv)
    then fieldErr "security_level" "must be authNoPriv or authPriv"
    else if negb (validAuth (in_AuthProtocol i)) then fieldErr "auth_protocol" "unsupported protocol"
    else
      let* _ := value "auth_password" (in_AuthPassword i) MinPasswordLen in
      if in_SecurityLevel i =s LevelAuthNoPriv then
        if negb (is_empty (in_PrivProtocol i)) then fieldErr "priv_protocol" "not allowed for authNoPriv"
        else if negb (is_empty (in_PrivPassword i)) then fieldErr "priv_password" "not allowed for authNoPriv"
        else Ok ()
      else if negb (validPriv (in_PrivProtocol i)) then fieldErr "priv_protocol" "unsupported protocol"
      else value "priv_password" (in_PrivPassword i) MinPasswordLen.

Fixpoint refuse_set (fields : list (string * string)) : result FieldError () :=
  match fields with
  | [] => Ok ()
  | (name, v) :: rest => if negb (is_empty v) then fieldErr name "not allowed for SNMP v2c" else refuse_set rest
  end.

Definition Validate (i : Input) : result FieldError () :=
  if in_Version i =? 2 then
    let* _ := value "community" (in_Community i) 1 in
    refuse_set [("user", in_User i); ("security_level", in_SecurityLevel i); ("auth_protocol", in_AuthProtocol i);
                ("auth_password", in_AuthPassword i); ("priv_protocol", in_PrivProtocol i);
                ("priv_password", in_PrivPassword i)]
  else if in_Version i =? 3 then validateV3 i
  else fieldErr "version" "must be 2 or 3".

Definition Input_Meta (i : Input) : Meta :=
  if negb (in_Version i =? 3)
  then {| me_Version := in_Version i; me_SecurityLevel := ""; me_AuthProtocol := ""; me_PrivProtocol := "" |}
  else {| me_Version := 3; me_SecurityLevel := in_SecurityLevel i; me_AuthProtocol := in_AuthProtocol i;
          me_PrivProtocol := in_PrivProtocol i |}.

Definition secretOf (i : Input) : Secret :=
  {| se_Community := in_Community i; se_User := in_User i; se_AuthPassword := in_AuthPassword i;
     se_PrivPassword := in_PrivPassword i |}.

(** ** The SNMP client's credentials *)

Record Creds : Type := {
  cr_Version : Z;
  cr_Community : string;
  cr_User : string;
  cr_SecurityLevel : string;
  cr_AuthProtocol : string;
  cr_AuthPassword : string;
  cr_PrivProtocol : string;
  cr_PrivPassword : string;
  cr_TimeoutMs : Z;
  cr_Retries : Z;
  cr_CollectARP : bool
}.

Definition ToCreds (m : Meta) (s : Secret) (timeoutMs retries : Z) : Creds :=
  if negb (me_Version m =? 3) then
    {| cr_Version := me_Version m; cr_Community := se_Community s; cr_User := ""; cr_SecurityLevel := "";
       cr_AuthProtocol := ""; cr_AuthPassword := ""; cr_PrivProtocol := ""; cr_PrivPassword := "";
       cr_TimeoutMs := timeoutMs; cr_Retries := retries; cr_CollectARP := false |}
  else
    let priv := me_SecurityLevel m =s LevelAuthPriv in
    {| cr_Version := me_Version m; cr_Community := ""; cr_User := se_User s;
       cr_SecurityLevel := me_SecurityLevel m; cr_AuthProtocol := me_AuthProtocol m;
       cr_AuthPassword := se_AuthPassword s;
       cr_PrivProtocol := if priv then me_PrivProtocol m else "";
       cr_PrivPassword := if priv then se_PrivPassword s else "";
       cr_TimeoutMs := timeoutMs; cr_Retries := retries; cr_CollectARP := false |}.

(** ** Inheritance *)

Section walk.
Context (parents : gmap string string) (own : gmap string bool).

(** The loop of [Resolve] with [steps] iterations left. *)
Fixpoint resolve_from (steps : nat) (id : string) (seen : gset string) : option string :=
  match steps with
  | O => None
  | S steps' =>
      if is_empty id || bool_decide (id ∈ seen) then None
      else match parents !! id with
           | None => None
           | Some parent =>
               if default false (own !! id) then Some id
               else resolve_from steps' parent ({[id]} ∪ seen)
           end
  end.

Definition Resolve (subnetID : string) : option string := resolve_from (S MaxDepth) subnetID ∅.
End walk.

Record Index : Type := {
  ix_subnets : gmap string Subnet;
  ix_parents : gmap string string;
  ix_own : gmap string bool;
  ix_rows : gmap string SubnetSNMP
}.

Definition NewIndex (subnets : list Subnet) (rows_ : list SubnetSNMP) : Index :=
  {| ix_subnets := foldl (λ (acc : gmap string Subnet) s, <[sn_ID s := s]> acc) ∅ subnets;
     ix_parents := foldl (λ (acc : gmap string string) s, <[sn_ID s := sn_ParentID s]> acc) ∅ subnets;
     ix_own := foldl (λ (acc : gmap string bool) r, <[ss_SubnetID r := true]> acc) ∅ rows_;
     ix_rows := foldl (λ (acc : gmap string SubnetSNMP) r, <[ss_SubnetID r := {| r with ss_Sealed := "" |}]> acc) ∅ rows_ |}.

Definition Own (x : Index) (subnetID : string) : option SubnetSNMP := ix_rows x !! subnetID.

Definition MetaOf (r : SubnetSNMP) : Meta :=
  {| me_Version := ss_Version r; me_SecurityLevel := ss_SecurityLevel r; me_AuthProtocol := ss_AuthProtocol r;
     me_PrivProtocol := ss_PrivProtocol r |}.

Definition Effective (x : Index) (subnetID : string) : SNMPSummary * option SubnetSNMP :=
  match Resolve (ix_parents x) (ix_own x) subnetID with
  | None => ({| zero_SNMPSummary with sm_State := SNMPStateNone |}, None)
  | Some src =>
      let row := default zero_SubnetSNMP (ix_rows x !! src) in
      let sub := default zero_Subnet (ix_subnets x !! src) in
      ({| sm_State := if src =s subnetID then SNMPStateOwn else SNMPStateInherited;
          sm_Version := ss_Version row; sm_SecurityLevel := ss_SecurityLevel row;
          sm_Weak := Meta_Weak (MetaOf row);
          sm_SourceSubnetID := src; sm_SourceName := sn_Name sub; sm_SourceCIDR := sn_CIDR sub |}, Some row)
  end.

(** ** Sealing *)

Fixpoint json_bytes (fuel : nat) (s : list Z) : string :=
  match fuel, s with
  | S fuel', c :: rest =>
      if c <? 128 then
        (if (c =? 34) || (c =? 92) then String "092" (String (ascii_of_N (Z.to_N c)) "")
         else if c =? 8 then "\b" else if c =? 12 then "\f" else if c =? 10 then "\n"
         else if c =? 13 then "\r" else if c =? 9 then "\t"
         else if (c <? 32) || (c =? 38) || (c =? 60) || (c =? 62) then "\u00" +:+ hex_byte c
         else String (ascii_of_N (Z.to_N c)) "") +:+ json_bytes fuel' rest
      else
        let w := rune_width s in
        (if (w =? 1)%nat then "\ufffd"
         else match take w s with
              | [226; 128; 168] => "\u2028"
              | [226; 128; 169] => "\u2029"
              | bs => String.string_of_list_ascii ((λ b, ascii_of_N (Z.to_N b)) <$> bs)
              end) +:+ json_bytes fuel' (drop w s)
  | _, _ => ""
  end.

(** [json.Marshal] of a string. *)
Definition json_string (s : string) : string :=
  let l := byte_of <$> String.list_ascii_of_string s in
  String "034" (json_bytes (length l) l +:+ String "034" "").

Definition json_field (name v : string) : list string :=
  if is_empty v then [] else [json_string name +:+ ":" +:+ json_string v].

(** [json.Marshal] of a [Secret]: empty fields are omitted. *)
Definition json_Secret (s : Secret) : string :=
  "{" +:+ String.concat "," (json_field "community" (se_Community s) ++ json_field "user" (se_User s) ++
    json_field "auth_password" (se_AuthPassword s) ++ json_field "priv_password" (se_PrivPassword s)) +:+ "}".

(** The associated data of a subnet's blob (internal/sealed). *)
Definition ADSNMP (tenantID subnetID : string) : string := "snmp:" +:+ tenantID +:+ ":" +:+ subnetID.

(** The sealing half of the [Sealer] interface: plaintext and associated data. *)
Definition Sealer : Type := string → string → result error string.

Definition Seal (env : option Sealer) (tenantID subnetID : string) (i : Input) : result error string :=
  match env with
  | None => Err Snmpcred_ErrNoEnvelope
  | Some seal => seal (json_Secret (secretOf i)) (ADSNMP tenantID subnetID)
  end.

(** ** Properties *)

Section nearest.
Context (parents : gmap string string) (own : gmap string bool).
Local Notation parent_of := (parent_of parents).
Local Notation up := (up parents).

Definition owns (id : string) : Prop := own !! id = Some true.

(** [src] is the nearest subnet, from [id] upwards, with credentials of its own. *)
Definition nearest_own (n : nat) (id src : string) : Prop :=
  up n id = Some src ∧ is_Some (parent_of src) ∧ owns src ∧
  ∀ i a, (i < n)%nat → up i id = Some a → ¬ owns a.

(** Nothing on a cycle that has no credentials finds any. *)
Lemma cycle_barren p id :
  up (S p) id = Some id → (∀ i a, (i < S p)%nat → up i id = Some a → ¬ owns a) →
  ∀ n a, up n id = Some a → ¬ owns a.
Proof.
  intros Hcyc Hfree n. induction n as [n IH] using lt_wf_ind. intros a Ha.
  destruct (decide (n < S p)%nat) as [Hlt|Hge]; [by eapply Hfree|].
  apply (IH (n - S p)%nat); [lia|]. replace n with (S p + (n - S p))%nat in Ha by lia.
  by rewrite up_add, Hcyc in Ha.
Qed.

Lemma nearest_step id p n src :
  parent_of id = Some p → ¬ owns id → nearest_own (S n) id src ↔ nearest_own n p src.
Proof.
  intros Hp Hid. unfold nearest_own. cbn [up]. rewrite Hp. cbn [mbind option_bind].
  split; intros (Hu & Hk & Ho & Hn); (split_and!; try done).
  - intros i a Hi Ha. apply (Hn (S i)); [lia|]. cbn. by rewrite Hp.
  - intros [|i] a Hi Ha; cbn in Ha; [by simplify_eq|]. rewrite Hp in Ha. apply (Hn i a); [lia|done].
Qed.

Lemma nearest_here id n src :
  owns id → is_Some (parent_of id) → nearest_own n id src ↔ n = O ∧ src = id.
Proof.
  intros Ho Hk. split.
  - intros (Hu & _ & _ & Hn). destruct n as [|n]; [cbn in Hu; by simplify_eq|].
    exfalso. by apply (Hn O id); [lia| |].
  - intros [-> ->]. split_and!; try done. intros i a Hi. lia.
Qed.

(** Every subnet already seen leads to [id] through subnets without credentials. *)
Definition barren_to (seen : gset string) (id : string) : Prop :=
  ∀ s, s ∈ seen → ∃ p, up (S p) s = Some id ∧ ∀ i a, (i < S p)%nat → up i s = Some a → ¬ owns a.

Lemma resolve_from_nearest steps id seen src :
  barren_to seen id →
  resolve_from parents own steps id seen = Some src ↔ ∃ n, (n < steps)%nat ∧ nearest_own n id src.
Proof.
  revert id seen. induction steps as [|steps IH]; intros id seen Hseen; cbn [resolve_from].
  { split; [done|]. intros (n & Hn & _). lia. }
  destruct (parent_of id) as [parent|] eqn:Ep.
  2:{ assert (Hnone : ¬ ∃ n, (n < S steps)%nat ∧ nearest_own n id src).
      { intros ([|n] & _ & Hu & [q Hk] & _); cbn in Hu; [simplify_eq; congruence|by rewrite Ep in Hu]. }
      unfold parent_of in Ep. destruct (is_empty id); cbn; [split; [done|by intros ?%Hnone]|].
      destruct (bool_decide (id ∈ seen)); [split; [done|by intros ?%Hnone]|].
      rewrite Ep. split; [done|by intros ?%Hnone]. }
  assert (He : is_empty id = false ∧ parents !! id = Some parent)
    by (unfold parent_of in Ep; by destruct (is_empty id)).
  destruct He as [He Hp]. rewrite He, Hp. cbn [orb].
  case_bool_decide as Hin.
  - destruct (Hseen id Hin) as (p & Hcyc & Hfree). split; [done|].
    intros (n & _ & Hu & _ & Ho & _). exfalso. by eapply (cycle_barren p id).
  - assert (Hown : default false (own !! id) = true ↔ owns id)
      by (unfold owns; destruct (own !! id) as [[]|]; cbn; naive_solver).
    destruct (default false (own !! id)).
    + assert (Ho : owns id) by by apply Hown. split.
      * intros [= <-]. exists O. split; [lia|]. apply nearest_here; eauto.
      * intros (n & _ & Hn). apply nearest_here in Hn as [_ ->]; eauto.
    + assert (Ho : ¬ owns id) by (intros ?%Hown; done).
      rewrite IH.
      * split; intros (n & Hn & Hnear).
        -- exists (S n). split; [lia|]. by eapply nearest_step.
        -- destruct n as [|n]; [destruct Hnear as (Hu & _ & Ho' & _); cbn in Hu; by simplify_eq|].
           exists n. split; [lia|]. by eapply nearest_step.
      * intros s [->%elem_of_singleton|Hs]%elem_of_union.
        -- exists O. cbn. rewrite Ep. split; [done|]. intros [|i] a Hi Ha; [cbn in Ha; by simplify_eq|lia].
        -- destruct (Hseen s Hs) as (p & Hu & Hfree). exists (S p).
           replace (S (S p)) with (S p + 1)%nat by lia. rewrite up_add, Hu. cbn. rewrite Ep. split; [done|].
           intros i a Hi Ha. destruct (decide (i < S p)%nat); [by eapply Hfree|].
           replace i with (S p) in Ha by lia. by simplify_eq.
Qed.
End nearest.

(** C23: inheritance: [Resolve] returns a subnet exactly when it is the nearest
    one, from the subnet itself upwards, that has credentials of its own, at
    most [MaxDepth] levels up; a cycle or an unknown ancestor never hides or
    invents credentials. *)
Theorem Resolve_nearest parents own subnetID src :
  Resolve parents own subnetID = Some src ↔ ∃ n, (n ≤ MaxDepth)%nat ∧ nearest_own parents own n subnetID src.
Proof.
  unfold Resolve. rewrite resolve_from_nearest by (intros s Hs; by apply not_elem_of_empty in Hs).
  split; intros (n & Hn & ?); exists n; split; (lia || done).
Qed.

Lemma rune_count_nonneg fuel s : 0 ≤ rune_count fuel s.
Proof. revert s. induction fuel as [|fuel IH]; intros [|b s]; cbn; try lia. pose proof (IH (drop (rune_width (b :: s)) (b :: s))). cbn in *. lia. Qed.

Lemma then_Ok {E} (r k : result E ()) : (let* _ := r in k) = Ok () ↔ r = Ok () ∧ k = Ok ().
Proof. destruct r as [[]|e]; split; naive_solver. Qed.

Lemma value_Ok field v k :
  1 ≤ k → value field v k = Ok () ↔ k ≤ RuneCountInString v ≤ MaxValueLen.
Proof.
  intros Hk. unfold value, fieldErr. pose proof (rune_count_nonneg (length (byte_of <$> String.list_ascii_of_string v))
    (byte_of <$> String.list_ascii_of_string v)) as Hn. fold (RuneCountInString v) in Hn.
  destruct (RuneCountInString v =? 0) eqn:E0, (RuneCountInString v <? k) eqn:E1,
    (MaxValueLen <? RuneCountInString v) eqn:E2; bool_hyps; split; intros; try done; try lia.
Qed.

Lemma contains_In set v : contains set v = true ↔ In v set.
Proof.
  unfold contains. rewrite existsb_exists. split.
  - intros (x & Hx & E). by bool_hyps; subst.
  - intros Hv. exists v. split; [done|apply String.eqb_refl].
Qed.

Lemma refuse_set_Ok fields : refuse_set fields = Ok () ↔ Forall (λ f, snd f = ""%string) fields.
Proof.
  induction fields as [|[n v] fields IH]; cbn; [split; [constructor|done]|].
  rewrite Forall_cons. destruct (is_empty v) eqn:E; cbn.
  - apply is_empty_spec in E. tauto.
  - split; [done|]. intros [Hv _]. apply is_empty_spec in Hv. congruence.
Qed.

Lemma refuse_Ok {E} (c : bool) (e : E) k : (if c then Err e else k) = Ok () ↔ c = false ∧ k = Ok ().
Proof. destruct c; split; naive_solver. Qed.

Lemma nonempty_false s : negb (is_empty s) = false ↔ s = ""%string.
Proof. rewrite negb_false_iff. apply is_empty_spec. Qed.

Lemma validateV3_Ok i :
  validateV3 i = Ok () ↔
  in_Community i = ""%string ∧ 1 ≤ RuneCountInString (in_User i) ≤ MaxValueLen ∧
  In (in_AuthProtocol i) authProtocols ∧ MinPasswordLen ≤ RuneCountInString (in_AuthPassword i) ≤ MaxValueLen ∧
  ((in_SecurityLevel i = LevelAuthNoPriv ∧ in_PrivProtocol i = ""%string ∧ in_PrivPassword i = ""%string) ∨
   (in_SecurityLevel i = LevelAuthPriv ∧ In (in_PrivProtocol i) privProtocols ∧
    MinPasswordLen ≤ RuneCountInString (in_PrivPassword i) ≤ MaxValueLen)).
Proof.
  unfold validateV3, fieldErr.
  rewrite refuse_Ok, nonempty_false, then_Ok, value_Ok, !refuse_Ok, then_Ok, value_Ok
    by (unfold MinPasswordLen; lia).
  rewrite negb_false_iff. fold (contains authProtocols (in_AuthProtocol i)).
  unfold validAuth, validPriv. rewrite contains_In.
  destruct (in_SecurityLevel i =s LevelAuthNoPriv) eqn:E1, (in_SecurityLevel i =s LevelAuthPriv) eqn:E2; bool_hyps; cbn [andb negb].
  - rewrite E1 in E2. done.
  - rewrite !refuse_Ok, !nonempty_false. rewrite E1. split; [naive_solver|]. intros (?&?&?&?&[?|[? _]]); [naive_solver|done].
  - rewrite refuse_Ok, negb_false_iff, contains_In, value_Ok by (unfold MinPasswordLen; lia).
    rewrite E2. split; [naive_solver|]. intros (?&?&?&?&[[? _]|?]); [done|naive_solver].
  - split; [naive_solver|]. intros (?&?&?&?&[[? _]|[? _]]); done.
Qed.

(** Credential validation: an input is accepted exactly when it is a v2c
    community alone, or a complete v3 user with supported protocols, passwords
    of 8 to 256 characters, and privacy fields exactly for [authPriv]. *)
Theorem Validate_iff i :
  Validate i = Ok () ↔
  let len s := RuneCountInString s in
  (in_Version i = 2 ∧ 1 ≤ len (in_Community i) ≤ 256 ∧ in_User i = ""%string ∧ in_SecurityLevel i = ""%string ∧
   in_AuthProtocol i = ""%string ∧ in_AuthPassword i = ""%string ∧ in_PrivProtocol i = ""%string ∧
   in_PrivPassword i = ""%string) ∨
  (in_Version i = 3 ∧ in_Community i = ""%string ∧ 1 ≤ len (in_User i) ≤ 256 ∧
   In (in_AuthProtocol i) authProtocols ∧ 8 ≤ len (in_AuthPassword i) ≤ 256 ∧
   ((in_SecurityLevel i = LevelAuthNoPriv ∧ in_PrivProtocol i = ""%string ∧ in_PrivPassword i = ""%string) ∨
    (in_SecurityLevel i = LevelAuthPriv ∧ In (in_PrivProtocol i) privProtocols ∧
     8 ≤ len (in_PrivPassword i) ≤ 256))).
Proof.
  unfold Validate. destruct (in_Version i =? 2) eqn:E2; bool_hyps; [|destruct (in_Version i =? 3) eqn:E3; bool_hyps].
  - rewrite then_Ok, value_Ok, refuse_set_Ok by lia. rewrite !Forall_cons, Forall_nil. cbn [snd].
    unfold MaxValueLen. split; [left; tauto|]. intros [?|[? _]]; [tauto|lia].
  - rewrite validateV3_Ok. unfold MaxValueLen, MinPasswordLen. split; [right; tauto|]. intros [[? _]|?]; [lia|tauto].
  - split; [done|]. intros [[? _]|[? _]]; lia.
Qed.

Definition ex_v3 : Input :=
  {| in_Version := 3; in_Community := ""; in_User := "monitor"; in_SecurityLevel := LevelAuthPriv;
     in_AuthProtocol := "SHA256"; in_AuthPassword := "longenough"; in_PrivProtocol := "AES";
     in_PrivPassword := "alsolongenough" |}.

Example Validate_v3 : Validate ex_v3 = Ok ().
Proof. reflexivity. Qed.
