(* ===== verification/Json.v ===== *)
(** * encoding/json: recognising and decoding documents

    What the code uses of Go's encoding/json: [Valid], decoding a string
    literal (escapes, surrogate pairs, invalid UTF-8 replaced) and decoding
    the members of an object whose known fields are strings.  The encoder is
    [json_string] of the SNMP credentials; [str_lit_json_string] is the round
    trip of the two. *)

From S2P Require Import Prelude GoNet GoText Models Store HostNorm Snmpcred.

(** [encoding/json]'s [Valid]: a recursive-descent recogniser on the bytes;
    each function returns the rest.  The fuel is the number of bytes, and a
    payload is shorter than the nesting limit of the library allows. *)
Module JSON.
Definition is_ws (c : ascii) : bool := existsb (λ b, byte_of c =? b) [32; 9; 13; 10].

Fixpoint skip_ws (s : string) : string := match s with String c s' => if is_ws c then skip_ws s' else s | EmptyString => "" end.

Definition is_hex (c : ascii) : bool := digit_class c || in_bytes 97 102 c || in_bytes 65 70 c.

(** After the opening quote. *)
Fixpoint str_body (s : string) : option string :=
  match s with
  | EmptyString => None
  | String c s' =>
      if byte_of c =? 34 then Some s'
      else if byte_of c =? 92 then
        match s' with
        | String e s2 =>
            if byte_of e =? 117 then
              match s2 with
              | String a (String b (String d (String f s3))) => if is_hex a && is_hex b && is_hex d && is_hex f then str_body s3 else None
              | _ => None
              end
            else if existsb (λ b, byte_of e =? b) [34; 92; 47; 98; 102; 110; 114; 116] then str_body s2 else None
        | EmptyString => None
        end
      else if byte_of c <? 32 then None else str_body s'
  end.

Fixpoint digits (s : string) : string := match s with String c s' => if digit_class c then digits s' else s | EmptyString => "" end.
Definition digits1 (s : string) : option string :=
  match s with String c s' => if digit_class c then Some (digits s') else None | EmptyString => None end.

Definition frac (s : string) : option string := match s with String "." s' => digits1 s' | _ => Some s end.
Definition exponent (s : string) : option string :=
  match s with
  | String c s' =>
      if (byte_of c =? 101) || (byte_of c =? 69) then
        match s' with String d s2 => digits1 (if (byte_of d =? 43) || (byte_of d =? 45) then s2 else s') | EmptyString => None end
      else Some s
  | EmptyString => Some s
  end.

Definition number (s : string) : option string :=
  let s1 := match s with String "-" s' => s' | _ => s end in
  r ← match s1 with String "0" s' => Some s' | _ => digits1 s1 end;
  r2 ← frac r; exponent r2.

Definition literal (w s : string) : option string := if String.prefix w s then Some (String.substring (String.length w) (String.length s) s) else None.

Fixpoint json_value (fuel : nat) (s : string) : option string :=
  match fuel with
  | O => None
  | S f =>
      match skip_ws s with
      | String "{" s' =>
          match skip_ws s' with
          | String "}" r => Some r
          | s2 => (fix members (g : nat) (s : string) : option string :=
                     match g with
                     | O => None
                     | S g' =>
                         match skip_ws s with
                         | String c s3 =>
                             if byte_of c =? 34 then
                               r ← str_body s3;
                               match skip_ws r with
                               | String ":" r2 => r3 ← json_value f r2;
                                   match skip_ws r3 with String "," r4 => members g' r4 | String "}" r4 => Some r4 | _ => None end
                               | _ => None
                               end
                             else None
                         | EmptyString => None
                         end
                     end) f s2
          end
      | String "[" s' =>
          match skip_ws s' with
          | String "]" r => Some r
          | s2 => (fix elements (g : nat) (s : string) : option string :=
                     match g with
                     | O => None
                     | S g' => r ← json_value f s; match skip_ws r with String "," r2 => elements g' r2 | String "]" r2 => Some r2 | _ => None end
                     end) f s2
          end
      | String c s' as s1 =>
          if byte_of c =? 34 then str_body s'
          else if byte_of c =? 116 then literal "true" s1
          else if byte_of c =? 102 then literal "false" s1
          else if byte_of c =? 110 then literal "null" s1
          else number s1
      | EmptyString => None
      end
  end.

Definition Valid (s : string) : bool :=
  match json_value (S (String.length s)) s with Some r => is_empty (skip_ws r) | None => false end.

(** *** String literals *)

Definition hex_digit_val (c : ascii) : Z :=
  let b := byte_of c in if b <=? 57 then b - 48 else if b <=? 70 then b - 55 else b - 87.
Definition hex4 (a b c d : ascii) : option Z :=
  if is_hex a && is_hex b && is_hex c && is_hex d
  then Some (((hex_digit_val a * 16 + hex_digit_val b) * 16 + hex_digit_val c) * 16 + hex_digit_val d) else None.

Definition byte_char (b : Z) : ascii := ascii_of_N (Z.to_N b).

(** [utf8.AppendRune]: surrogates are written as the replacement character. *)
Definition encode_rune (r : Z) : list Z :=
  if r <? 128 then [r]
  else if r <? 2048 then [192 + r / 64; 128 + r mod 64]
  else if (55296 <=? r) && (r <=? 57343) then [239; 191; 189]
  else if r <? 65536 then [224 + r / 4096; 128 + r / 64 mod 64; 128 + r mod 64]
  else [240 + r / 262144; 128 + r / 4096 mod 64; 128 + r / 64 mod 64; 128 + r mod 64].

Definition of_bytes (l : list Z) : string := String.string_of_list_ascii (byte_char <$> l).
Definition to_bytes (s : string) : list Z := byte_of <$> String.list_ascii_of_string s.

Definition is_surrogate (r : Z) : bool := (55296 <=? r) && (r <=? 57343).

(** [utf16.DecodeRune] of two code units that form a pair. *)
Definition surrogate_pair (r1 r2 : Z) : option Z :=
  if (55296 <=? r1) && (r1 <? 56320) && (56320 <=? r2) && (r2 <? 57344)
  then Some ((r1 - 55296) * 1024 + (r2 - 56320) + 65536) else None.

Definition escape_of (e : Z) : option Z :=
  if (e =? 34) || (e =? 92) || (e =? 47) then Some e
  else if e =? 98 then Some 8 else if e =? 102 then Some 12 else if e =? 110 then Some 10
  else if e =? 114 then Some 13 else if e =? 116 then Some 9 else None.

Definition emit (l : list Z) (r : option (string * string)) : option (string * string) :=
  match r with Some (v, rest) => Some (of_bytes l +:+ v, rest) | None => None end.

(** After the opening quote: the value of the literal and what follows it. *)
Fixpoint str_lit (s : string) : option (string * string) :=
  match s with
  | EmptyString => None
  | String c s' =>
      let b := byte_of c in
      if b =? 34 then Some ("", s')
      else if b =? 92 then
        match s' with
        | EmptyString => None
        | String e s2 =>
            if byte_of e =? 117 then
              match s2 with
              | String h1 (String h2 (String h3 (String h4 s3))) =>
                  match hex4 h1 h2 h3 h4 with
                  | None => None
                  | Some r =>
                      if is_surrogate r then
                        match s3 with
                        | String e1 (String e2 (String g1 (String g2 (String g3 (String g4 s4))))) =>
                            match (if (byte_of e1 =? 92) && (byte_of e2 =? 117) then hex4 g1 g2 g3 g4 else None) with
                            | Some r2 => match surrogate_pair r r2 with
                                         | Some x => emit (encode_rune x) (str_lit s4)
                                         | None => emit (encode_rune RuneError) (str_lit s3)
                                         end
                            | None => emit (encode_rune RuneError) (str_lit s3)
                            end
                        | _ => emit (encode_rune RuneError) (str_lit s3)
                        end
                      else emit (encode_rune r) (str_lit s3)
                  end
              | _ => None
              end
            else match escape_of (byte_of e) with Some x => emit [x] (str_lit s2) | None => None end
        end
      else if b <? 32 then None
      else if b <? 128 then emit [b] (str_lit s')
      else
        match rune_width (to_bytes s), s' with
        | 2%nat, String c1 t => emit [b; byte_of c1] (str_lit t)
        | 3%nat, String c1 (String c2 t) => emit [b; byte_of c1; byte_of c2] (str_lit t)
        | 4%nat, String c1 (String c2 (String c3 t)) => emit [b; byte_of c1; byte_of c2; byte_of c3] (str_lit t)
        | _, _ => emit (encode_rune RuneError) (str_lit s')
        end
  end.

(** *** Objects with string fields *)

(** What decoding into a string field makes of a value. *)
Inductive field_value : Type := FString (s : string) | FNull | FOther.

Definition field_val (fuel : nat) (s : string) : option (field_value * string) :=
  match skip_ws s with
  | String c s' =>
      if byte_of c =? 34 then '(v, r) ← str_lit s'; Some (FString v, r)
      else if byte_of c =? 110 then r ← literal "null" (String c s'); Some (FNull, r)
      else r ← json_value fuel (String c s'); Some (FOther, r)
  | EmptyString => None
  end.

(** The members after the opening brace (at least one) and what follows. *)
Fixpoint members (fuel : nat) (s : string) : option (list (string * field_value) * string) :=
  match fuel with
  | O => None
  | S f =>
      match skip_ws s with
      | String c s1 =>
          if byte_of c =? 34 then
            '(k, r) ← str_lit s1;
            match skip_ws r with
            | String ":" r2 =>
                '(v, r3) ← field_val f r2;
                match skip_ws r3 with
                | String "," r4 => '(l, r5) ← members f r4; Some ((k, v) :: l, r5)
                | String "}" r4 => Some ([(k, v)], r4)
                | _ => None
                end
            | _ => None
            end
          else None
      | EmptyString => None
      end
  end.

(** The members of a document that is one object, [null] (no members) or
    another value ([None]: not decodable into a struct). *)
Definition object (s : string) : option (list (string * field_value)) :=
  let fuel := S (String.length s) in
  match skip_ws s with
  | String "{" s' =>
      '(l, r) ← match skip_ws s' with String "}" r => Some ([], r) | s2 => members fuel s2 end;
      if is_empty (skip_ws r) then Some l else None
  | String c s' => if byte_of c =? 110 then r ← literal "null" (String c s'); if is_empty (skip_ws r) then Some [] else None
                   else None
  | EmptyString => None
  end.

(** [foldName]: letters are lowered, and the two non-ASCII runes that fold to
    a letter (long s, Kelvin sign) become it. *)
Fixpoint fold_name (s : string) : string :=
  match s with
  | EmptyString => ""
  | String c s' =>
      match s' with
      | String d s2 =>
          if (byte_of c =? 197) && (byte_of d =? 191) then String "s" (fold_name s2)
          else match s2 with
               | String e s3 =>
                   if (byte_of c =? 226) && (byte_of d =? 132) && (byte_of e =? 170) then String "k" (fold_name s3)
                   else String (lower_byte c) (fold_name s')
               | EmptyString => String (lower_byte c) (fold_name s')
               end
      | EmptyString => String (lower_byte c) (fold_name s')
      end
  end.
End JSON.

(** ** Decoding what was encoded *)

(** Well-formed UTF-8, on bytes. *)
Fixpoint valid_utf8 (fuel : nat) (l : list Z) : bool :=
  match fuel, l with
  | _, [] => true
  | O, _ => false
  | S f, c :: _ => ((c <? 128) || (1 <? rune_width l)%nat) && valid_utf8 f (drop (rune_width l) l)
  end.
Definition ValidUTF8 (s : string) : bool := let l := JSON.to_bytes s in valid_utf8 (length l) l.

Definition is_byte (b : Z) : Prop := 0 ≤ b < 256.

Lemma byte_of_range c : is_byte (byte_of c).
Proof. unfold is_byte, byte_of. pose proof (N_ascii_bounded c). lia. Qed.
Lemma byte_of_char b : is_byte b → byte_of (JSON.byte_char b) = b.
Proof. unfold is_byte, byte_of, JSON.byte_char. intros Hb. rewrite N_ascii_embedding; lia. Qed.
Lemma char_of_byte c : JSON.byte_char (byte_of c) = c.
Proof. unfold JSON.byte_char, byte_of. by rewrite N2Z.id, ascii_N_embedding. Qed.
Lemma to_bytes_of l : Forall is_byte l → JSON.to_bytes (JSON.of_bytes l) = l.
Proof.
  unfold JSON.to_bytes, JSON.of_bytes. rewrite String.list_ascii_of_string_of_list_ascii.
  induction 1 as [|b l Hb _ IH]; [done|]. cbn. by rewrite byte_of_char, IH.
Qed.
Lemma of_bytes_to s : JSON.of_bytes (JSON.to_bytes s) = s.
Proof. unfold JSON.to_bytes, JSON.of_bytes. induction s as [|c s IH]; [done|]. cbn in *. by rewrite char_of_byte, IH. Qed.
Lemma of_bytes_app l k : JSON.of_bytes (l ++ k) = JSON.of_bytes l +:+ JSON.of_bytes k.
Proof. unfold JSON.of_bytes. induction l as [|b l IH]; [done|]. exact (f_equal (String _) IH). Qed.
Lemma to_bytes_app s t : JSON.to_bytes (s +:+ t) = JSON.to_bytes s ++ JSON.to_bytes t.
Proof. unfold JSON.to_bytes. induction s as [|c s IH]; [done|]. exact (f_equal (cons _) IH). Qed.
Lemma to_bytes_bytes s : Forall is_byte (JSON.to_bytes s).
Proof. unfold JSON.to_bytes. induction s; constructor; [apply byte_of_range|done]. Qed.
Lemma str_app_assoc (a b c : string) : (a +:+ b) +:+ c = a +:+ (b +:+ c).
Proof. induction a as [|x a IH]; [done|]. exact (f_equal (String _) IH). Qed.
Lemma str_app_nil_r (a : string) : a +:+ "" = a.
Proof. induction a as [|x a IH]; [done|]. exact (f_equal (String _) IH). Qed.

(** A multi-byte rune is recognised from its own bytes. *)
Lemma rune_width_le l : (rune_width l ≤ 4)%nat.
Proof.
  destruct l as [|c l]; cbn; [lia|]. unfold rune_start. repeat case_match; simplify_eq; lia.
Qed.
Lemma rune_width_length l : (rune_width l ≤ length l)%nat.
Proof.
  destruct l as [|c l]; cbn; [lia|]. destruct (rune_start c) as [[[w lo] hi]|]; [|lia].
  destruct l as [|b1 l]; cbn; [lia|]. case_match; bool_hyps; lia.
Qed.
Lemma rune_width_take l w k : rune_width l = w → (1 < w)%nat → rune_width (take w l ++ k) = w.
Proof.
  intros Hw Hlt. destruct l as [|c l]; [cbn in Hw; lia|]. cbn in Hw.
  destruct (rune_start c) as [[[w0 lo] hi]|] eqn:Es; [|lia]. destruct l as [|b1 l]; [lia|].
  destruct ((_ && _) && _ && _) eqn:E in Hw; [|lia]. subst w0.
  destruct w as [|[|w]]; [lia..|]. cbn. rewrite Es. cbn in E. rewrite Nat.sub_0_r in *.
  destruct (lo <=? b1); [|done]. destruct (b1 <=? hi); [|done]. cbn in *.
  destruct (w <=? length l)%nat eqn:El; [|done]. apply Nat.leb_le in El. cbn in E.
  rewrite !Nat.sub_0_r, length_app, length_take, Nat.min_l by lia.
  replace (w <=? w + length k)%nat with true by (symmetry; apply Nat.leb_le; lia).
  rewrite take_app_le by (rewrite length_take; lia). rewrite take_take, Nat.min_l, E by lia. done.
Qed.

(** *** Escapes *)

Definition is_hex_escape (c : Z) : bool :=
  match hex_byte c with
  | String h3 (String h4 EmptyString) => match JSON.hex4 "0" "0" h3 h4 with Some x => x =? c | None => false end
  | _ => false
  end.

Lemma hex_escape c : 0 ≤ c < 128 → ∃ h3 h4, hex_byte c = String h3 (String h4 "") ∧ JSON.hex4 "0" "0" h3 h4 = Some c.
Proof.
  intros Hc. assert (Hall : forallb is_hex_escape (seqZ 0 128) = true) by (vm_compute; reflexivity).
  rewrite forallb_forall in Hall. assert (Hin : In c (seqZ 0 128)) by (apply list_elem_of_In, elem_of_seqZ; lia).
  specialize (Hall c Hin). unfold is_hex_escape in Hall. destruct (hex_byte c) as [|h3 [|h4 [|? ?]]]; try done.
  destruct (JSON.hex4 "0" "0" h3 h4) eqn:E; [|done]. apply Z.eqb_eq in Hall as ->. eauto.
Qed.

Section literals.
Import JSON.

Lemma byte_char_cases c (b : Z) : is_byte c → (byte_of (byte_char c) =? b) = (c =? b).
Proof. intros Hc. by rewrite byte_of_char. Qed.

Lemma str_lit_plain c s : 32 ≤ c < 128 → c ≠ 34 → c ≠ 92 → str_lit (String (byte_char c) s) = emit [c] (str_lit s).
Proof.
  intros Hc H34 H92. cbn [str_lit]. rewrite byte_of_char by (unfold is_byte; lia). cbv zeta.
  replace (c =? 34) with false by lia. replace (c =? 92) with false by lia.
  replace (c <? 32) with false by lia. by replace (c <? 128) with true by lia.
Qed.
Lemma str_lit_escape e x s : escape_of (byte_of e) = Some x → (byte_of e =? 117) = false →
  str_lit (String "092" (String e s)) = emit [x] (str_lit s).
Proof. intros Hx Hu. cbn [str_lit]. change (byte_of "092") with 92. cbn [Z.eqb Pos.eqb]. by rewrite Hu, Hx. Qed.
Lemma str_lit_unicode h1 h2 h3 h4 r s : hex4 h1 h2 h3 h4 = Some r → is_surrogate r = false →
  str_lit (String "092" (String "117" (String h1 (String h2 (String h3 (String h4 s)))))) = emit (encode_rune r) (str_lit s).
Proof.
  intros Hr Hs. cbn [str_lit]. change (byte_of "092") with 92. change (byte_of "117") with 117.
  cbn [Z.eqb Pos.eqb]. by rewrite Hr, Hs.
Qed.

Lemma of_bytes_cons b l t : of_bytes (b :: l) +:+ t = String (byte_char b) (of_bytes l +:+ t).
Proof. done. Qed.
Lemma of_bytes_nil t : of_bytes [] +:+ t = t.
Proof. done. Qed.
Lemma str_lit_rune l w s : Forall is_byte l → rune_width l = w → (1 < w)%nat →
  str_lit (of_bytes (take w l) +:+ s) = emit (take w l) (str_lit s).
Proof.
  intros Hl Hw Hlt. pose proof (rune_width_length l) as Hlen. pose proof (rune_width_le l) as H4. rewrite Hw in Hlen, H4.
  destruct l as [|c l]; [cbn in Hlen; lia|].
  assert (Hc : 194 ≤ c).
  { cbn in Hw. unfold rune_start in Hw. destruct (c <? 194) eqn:E; [lia|]. lia. }
  pose proof (rune_width_take _ _ (to_bytes s) Hw Hlt) as Hrw. apply Forall_cons in Hl as [Hcb Hl].
  destruct w as [|[|[|[|[|w]]]]]; [lia|lia| | | |lia].
  all: destruct l as [|b1 l]; [cbn in Hlen; lia|]; apply Forall_cons in Hl as [Hb1 Hl].
  2,3: destruct l as [|b2 l]; [cbn in Hlen; lia|]; apply Forall_cons in Hl as [Hb2 Hl].
  3: destruct l as [|b3 l]; [cbn in Hlen; lia|]; apply Forall_cons in Hl as [Hb3 Hl].
  all: cbn [firstn] in *; rewrite ?take_0 in *.
  all: match goal with |- str_lit (of_bytes ?k +:+ ?t) = _ =>
         assert (Hb : Forall is_byte k) by (repeat (apply Forall_cons_2; [done|]); apply Forall_nil_2);
         pose proof (to_bytes_app (of_bytes k) t) as Htb; rewrite (to_bytes_of k Hb) in Htb end.
  all: rewrite !of_bytes_cons, of_bytes_nil in *; cbn [str_lit]; rewrite Htb, Hrw.
  all: rewrite !byte_of_char by done; cbv zeta.
  all: replace (c =? 34) with false by lia; replace (c =? 92) with false by lia.
  all: replace (c <? 32) with false by lia; replace (c <? 128) with false by lia; done.
Qed.

Lemma emit_app l r : emit l (Some r) = Some (of_bytes l +:+ fst r, snd r).
Proof. by destruct r. Qed.

(** What [json_bytes] writes for one byte below 128 decodes to that byte. *)
Lemma str_lit_ascii c n l s : 0 ≤ c < 128 → ∃ e, json_bytes (S n) (c :: l) = e +:+ json_bytes n l ∧ str_lit (e +:+ s) = emit [c] (str_lit s).
Proof.
  intros Hc. cbn [json_bytes]. replace (c <? 128) with true by lia.
  destruct ((c =? 34) || (c =? 92)) eqn:E1.
  { eexists. split; [reflexivity|]. apply orb_true_iff in E1. by destruct E1 as [->%Z.eqb_eq| ->%Z.eqb_eq]. }
  apply orb_false_iff in E1 as [E34 E92].
  destruct (c =? 8) eqn:E8; [apply Z.eqb_eq in E8 as ->; eexists; split; reflexivity|].
  destruct (c =? 12) eqn:E12; [apply Z.eqb_eq in E12 as ->; eexists; split; reflexivity|].
  destruct (c =? 10) eqn:E10; [apply Z.eqb_eq in E10 as ->; eexists; split; reflexivity|].
  destruct (c =? 13) eqn:E13; [apply Z.eqb_eq in E13 as ->; eexists; split; reflexivity|].
  destruct (c =? 9) eqn:E9; [apply Z.eqb_eq in E9 as ->; eexists; split; reflexivity|].
  destruct ((c <? 32) || _ || _ || _) eqn:Eu.
  - eexists. split; [reflexivity|]. destruct (hex_escape c Hc) as (h3 & h4 & -> & Hhex).
    refine (eq_trans (str_lit_unicode _ _ _ _ c s Hhex _) _); [unfold is_surrogate; lia|].
    unfold encode_rune. by replace (c <? 128) with true by lia.
  - eexists. split; [reflexivity|]. apply (str_lit_plain c s); lia.
Qed.

Lemma str_lit_wide c n l s : Forall is_byte (c :: l) → 128 ≤ c → (1 < rune_width (c :: l))%nat →
  let w := rune_width (c :: l) in
  ∃ e, json_bytes (S n) (c :: l) = e +:+ json_bytes n (drop w (c :: l)) ∧ str_lit (e +:+ s) = emit (take w (c :: l)) (str_lit s).
Proof.
  intros Hl Hc Hlt w. cbn [json_bytes]. replace (c <? 128) with false by lia.
  cbv zeta. fold w. replace (w =? 1)%nat with false by (symmetry; apply Nat.eqb_neq; lia).
  pose proof (str_lit_rune _ w s Hl eq_refl Hlt) as Hr. unfold of_bytes, byte_char in Hr.
  destruct (decide (take w (c :: l) = [226; 128; 168])) as [->|H1]; [eexists; split; reflexivity|].
  destruct (decide (take w (c :: l) = [226; 128; 169])) as [->|H2]; [eexists; split; reflexivity|].
  eexists. split; [|exact Hr].
  f_equal. repeat (case_match; try done).
Qed.
Lemma str_lit_json_bytes n l rest : (length l ≤ n)%nat → Forall is_byte l → valid_utf8 n l = true →
  str_lit (json_bytes n l +:+ String "034" rest) = Some (of_bytes l, rest).
Proof.
  revert l. induction n as [|n IH]; intros [|c l] Hlen Hl Hv; [done|cbn in Hlen; lia|done|].
  cbn [valid_utf8] in Hv. apply andb_true_iff in Hv as [Hw Hv]. cbn [length] in Hlen.
  destruct (decide (c < 128)) as [Hc|Hc].
  - pose proof (Forall_inv Hl) as Hb. unfold is_byte in Hb.
    destruct (str_lit_ascii c n l (json_bytes n l +:+ String "034" rest)) as (e & -> & E); [lia|].
    assert (rune_width (c :: l) = 1%nat) as Hone.
    { cbn. unfold rune_start. by replace (c <? 194) with true by lia. }
    rewrite Hone in Hv. cbn [drop] in Hv. rewrite drop_0 in Hv.
    rewrite str_app_assoc, E, IH; [done|lia|by apply Forall_inv_tail in Hl|done].
  - replace (c <? 128) with false in Hw by lia. cbn [orb] in Hw. apply Nat.ltb_lt in Hw.
    destruct (str_lit_wide c n l (json_bytes n (drop (rune_width (c :: l)) (c :: l)) +:+ String "034" rest)) as (e & -> & E); [done|lia|done|].
    rewrite str_app_assoc, E, IH; [|rewrite length_drop; cbn [length]; lia|by apply Forall_drop|done].
    rewrite emit_app. cbn [fst snd]. rewrite <- of_bytes_app, take_drop. done.
Qed.

(** Encoding a well-formed text and decoding it gives it back. *)
Lemma str_lit_json_string s rest : ValidUTF8 s = true →
  ∃ body, json_string s +:+ rest = String "034" body ∧ str_lit body = Some (s, rest).
Proof.
  intros Hv. unfold json_string. fold (to_bytes s). cbv zeta. eexists. split; [reflexivity|].
  rewrite str_app_assoc. refine (eq_trans (str_lit_json_bytes _ _ rest _ (to_bytes_bytes s) Hv) _); [lia|].
  by rewrite of_bytes_to.
Qed.
End literals.
