(* ===== verification/Sealed.v ===== *)
(** * internal/sealed: the envelope, settings and scrubbing

    An envelope encrypts a document under a fresh data key, and the data key
    under the key-encryption key, both bound to associated data.  AES-256-GCM
    is a parameter ([AEAD]) with the laws its documentation states; the random
    bytes a seal draws are arguments.  The second half opens the SNMP
    credentials a subnet stores (internal/snmpcred/seal.go) and shows that
    they are the ones that were sealed. *)

From S2P Require Import Prelude GoNet GoText Models Store Snmpcred Json.

Import JSON.

Definition MaxSettingsBytes : Z := 8192.
Definition Marker : string := "__set__".

(** ** The envelope *)

(** An authenticated cipher under one key: nonce, text, associated data. *)
Record AEAD : Type := {
  aead_Seal : string → string → string → string;
  aead_Open : string → string → string → option string
}.
Definition NonceSize : nat := 12.
Definition Overhead : nat := 16.

(** The key sizes of AES. *)
Definition valid_key (key : string) : Prop := String.length key ∈ [16; 24; 32]%nat.

(** crypto/cipher, for the key and nonce sizes it accepts: what was sealed
    opens with the same nonce and data, and a ciphertext is [Overhead] bytes
    longer than its text. *)
Class AEADLaws (gcm : string → AEAD) : Prop := {
  aead_open_seal : ∀ key n pt ad, valid_key key → String.length n = NonceSize →
    aead_Open (gcm key) n (aead_Seal (gcm key) n pt ad) ad = Some pt;
  aead_length : ∀ key n pt ad, valid_key key → String.length n = NonceSize →
    String.length (aead_Seal (gcm key) n pt ad) = (String.length pt + Overhead)%nat
}.

Lemma valid_key_32 key : String.length key = 32%nat → valid_key key.
Proof. intros E. unfold valid_key. rewrite E. set_solver. Qed.

Definition str_take (n : nat) (s : string) : string := String.substring 0 n s.
Definition str_drop (n : nat) (s : string) : string := String.substring n (String.length s - n) s.

Section envelope.
Context (gcm : string → AEAD).

Definition Envelope_Seal (kek dek n1 n2 : string) (plaintext ad : string) : result error string :=
  if MaxSettingsBytes <? Z.of_nat (String.length plaintext) then Err Sealed_ErrTooLarge
  else Ok (n1 +:+ aead_Seal (gcm kek) n1 dek ad +:+ n2 +:+ aead_Seal (gcm dek) n2 plaintext ad).

Definition Envelope_Open (kek : string) (blob ad : string) : result error string :=
  let wrapLen := (32 + Overhead)%nat in
  if (String.length blob <? NonceSize + wrapLen + NonceSize + 16)%nat then Err Sealed_ErrTampered
  else match aead_Open (gcm kek) (str_take NonceSize blob) (str_take wrapLen (str_drop NonceSize blob)) ad with
  | None => Err Sealed_ErrTampered
  | Some dek =>
      let rest := str_drop (NonceSize + wrapLen) blob in
      match aead_Open (gcm dek) (str_take NonceSize rest) (str_drop NonceSize rest) ad with
      | None => Err Sealed_ErrTampered
      | Some pt => Ok pt
      end
  end.
End envelope.

(** ** Settings *)

Notation Settings := (gmap string any).

Definition any_str (v : any) : string := match v with AnyString s => s | _ => "" end.

Definition redact_field (out : Settings) (f : string) : Settings :=
  match out !! f with
  | Some v => if is_empty (any_str v) then delete f out else <[f := AnyString Marker]> out
  | None => out
  end.
Definition Redact (s : Settings) (secretFields : list string) : Settings := foldl redact_field s secretFields.

Definition Public (s : Settings) (secretFields : list string) : Settings := foldl (λ out f, delete f out) s secretFields.

Definition merge_field (stored incoming : Settings) (out : Settings) (f : string) : Settings :=
  let str := any_str (default AnyNil (incoming !! f)) in
  if negb (is_some (incoming !! f)) || (str =s Marker) then
    match stored !! f with Some old => <[f := old]> out | None => delete f out end
  else if is_empty str then delete f out
  else out.
Definition Merge (stored incoming : Settings) (secretFields : list string) : Settings :=
  foldl (merge_field stored incoming) incoming secretFields.

(** ** Scrubbing *)

(** [text\[:i\]] for the first carriage return or line feed. *)
Fixpoint first_line (s : string) : string :=
  match s with
  | EmptyString => ""
  | String c s' => if (byte_of c =? 10) || (byte_of c =? 13) then "" else String c (first_line s')
  end.

(** [strings.ReplaceAll] of a non-empty [old]; [skip] bytes are inside a match. *)
Fixpoint replace_from (old new : string) (skip : nat) (s : string) : string :=
  match s with
  | EmptyString => ""
  | String c s' =>
      match skip with
      | S k => replace_from old new k s'
      | O => if String.prefix old s then new +:+ replace_from old new (String.length old - 1) s'
             else String c (replace_from old new 0 s')
      end
  end.
Definition ReplaceAll (s old new : string) : string := replace_from old new 0 s.

Definition b64_char (n : Z) : ascii :=
  byte_char (if n <? 26 then 65 + n else if n <? 52 then 71 + n else if n <? 62 then n - 4 else if n =? 62 then 43 else 47).

(** [base64.StdEncoding.EncodeToString]. *)
Fixpoint b64_encode (s : string) : string :=
  match s with
  | String a (String b (String c s')) =>
      let n := (byte_of a * 256 + byte_of b) * 256 + byte_of c in
      String (b64_char (n / 262144)) (String (b64_char (n / 4096 mod 64)) (String (b64_char (n / 64 mod 64)) (String (b64_char (n mod 64)) (b64_encode s'))))
  | String a (String b EmptyString) =>
      let n := (byte_of a * 256 + byte_of b) * 4 in
      String (b64_char (n / 4096)) (String (b64_char (n / 64 mod 64)) (String (b64_char (n mod 64)) "="))
  | String a EmptyString => let n := byte_of a * 16 in String (b64_char (n / 64)) (String (b64_char (n mod 64)) "==")
  | EmptyString => ""
  end.

Definition Redacted : string := "[REDACTED]".
Definition scrub_field (stored : Settings) (text : string) (f : string) : string :=
  let v := any_str (default AnyNil (stored !! f)) in
  if is_empty v then text
  else let text := ReplaceAll text v Redacted in
       let enc := b64_encode v in
       if is_empty enc then text else ReplaceAll text enc Redacted.
Definition Scrub (text : string) (stored : Settings) (secretFields : list string) : string :=
  let text := foldl (scrub_field stored) (first_line text) secretFields in
  if (1024 <? String.length text)%nat then str_take 1024 text else text.

Definition secretFields : list string := ["community"; "user"; "auth_password"; "priv_password"].
Definition scrub_secret (text : string) (s : Secret) : string :=
  Scrub text (list_to_map [("community", AnyString (se_Community s)); ("user", AnyString (se_User s));
    ("auth_password", AnyString (se_AuthPassword s)); ("priv_password", AnyString (se_PrivPassword s))]) secretFields.

(** ** Opening SNMP credentials (snmpcred/seal.go) *)

Definition Opener : Type := string → string → result error string.

Definition set_secret (s : Secret) (name v : string) : Secret :=
  if name =s "community" then {| s with se_Community := v |}
  else if name =s "user" then {| s with se_User := v |}
  else if name =s "auth_password" then {| s with se_AuthPassword := v |}
  else if name =s "priv_password" then {| s with se_PrivPassword := v |}
  else s.

Definition is_field (k : string) : bool := existsb (λ f, f =s k) secretFields.

(** [json.Unmarshal] into a [Secret]: fields by exact name, then by folded
    name; a value that is neither a string nor null in a known field is an
    error, an unknown field is ignored. *)
Definition unmarshal_step (acc : Secret * bool) (kv : string * field_value) : Secret * bool :=
  let k := if is_field (fst kv) then fst kv else fold_name (fst kv) in
  if is_field k then
    match snd kv with
    | FString v => (set_secret (fst acc) k v, snd acc)
    | FNull => acc
    | FOther => (fst acc, false)
    end
  else acc.
Definition zero_Secret : Secret := {| se_Community := ""; se_User := ""; se_AuthPassword := ""; se_PrivPassword := "" |}.
Definition unmarshal_Secret (doc : string) : option Secret :=
  l ← object doc;
  let '(s, ok) := foldl unmarshal_step (zero_Secret, true) l in
  if (ok : bool) then Some s else None.

Definition Open (env : option Opener) (tenantID subnetID blob : string) : result error Secret :=
  match env with
  | None => Err Snmpcred_ErrUnreadable
  | Some open =>
      match open blob (ADSNMP tenantID subnetID) with
      | Err _ => Err Snmpcred_ErrUnreadable
      | Ok doc => match unmarshal_Secret doc with Some s => Ok s | None => Err Snmpcred_ErrUnreadable end
      end
  end.

(** ** Sealing and opening *)

Lemma str_take_app a b n : String.length a = n → str_take n (a +:+ b) = a.
Proof.
  intros <-. unfold str_take. induction a as [|c a IH]; [by destruct b|]. exact (f_equal (String c) IH).
Qed.
Lemma substring_all s : String.substring 0 (String.length s) s = s.
Proof. induction s as [|c s IH]; [done|]. exact (f_equal (String c) IH). Qed.
Lemma substring_skip a b k m : String.length a = k → String.substring k m (a +:+ b) = String.substring 0 m b.
Proof. intros <-. induction a as [|c a IH]; [done|]. exact IH. Qed.
Lemma str_length_app a b : String.length (a +:+ b) = (String.length a + String.length b)%nat.
Proof. induction a as [|c a IH]; [done|]. exact (f_equal S IH). Qed.
Lemma str_drop_app a b n : String.length a = n → str_drop n (a +:+ b) = b.
Proof.
  intros Hn. unfold str_drop. rewrite substring_skip by done. rewrite str_length_app, Hn.
  replace (n + String.length b - n)%nat with (String.length b) by lia. apply substring_all.
Qed.

(** What an envelope sealed it opens, under the same associated data. *)
Lemma Envelope_Open_Seal gcm `{AEADLaws gcm} kek dek n1 n2 pt ad blob :
  String.length kek = 32%nat → String.length dek = 32%nat → String.length n1 = NonceSize → String.length n2 = NonceSize →
  Envelope_Seal gcm kek dek n1 n2 pt ad = Ok blob → Envelope_Open gcm kek blob ad = Ok pt.
Proof.
  unfold Envelope_Seal, Envelope_Open. intros Hk Hd H1 H2. destruct (_ <? _); [done|]. intros [= <-].
  apply valid_key_32 in Hk. pose proof (valid_key_32 _ Hd) as Hdv.
  set (wd := aead_Seal (gcm kek) n1 dek ad). set (ct := aead_Seal (gcm dek) n2 pt ad).
  assert (Hwd : String.length wd = (32 + Overhead)%nat) by (unfold wd; rewrite aead_length by done; lia).
  assert (Hct : (16 ≤ String.length ct)%nat) by (unfold ct; rewrite aead_length by done; unfold Overhead; lia).
  rewrite !str_length_app, H1, H2, Hwd.
  destruct (Nat.ltb_spec (NonceSize + (32 + Overhead + (NonceSize + String.length ct))) (NonceSize + (32 + Overhead) + NonceSize + 16)); [lia|].
  rewrite (str_take_app n1) by done. rewrite (str_drop_app n1) by done. rewrite (str_take_app wd) by done.
  rewrite (aead_open_seal (gcm := gcm) kek n1 dek ad Hk H1 : aead_Open (gcm kek) n1 wd ad = Some dek).
  rewrite <- (str_app_assoc n1). rewrite str_drop_app by (rewrite str_length_app; lia).
  rewrite str_take_app, str_drop_app by done.
  by rewrite (aead_open_seal (gcm := gcm) dek n2 pt ad Hdv H2 : aead_Open (gcm dek) n2 ct ad = Some pt).
Qed.

(** *** Decoding a marshalled secret *)

Definition enc_field (kv : string * string) : string := json_string (fst kv) +:+ ":" +:+ json_string (snd kv).

Definition utf8_pair (kv : string * string) : Prop := ValidUTF8 (fst kv) = true ∧ ValidUTF8 (snd kv) = true.

(** One member: its name, its value, and the text from the next separator. *)
Lemma members_one fuel k v c rest : utf8_pair (k, v) → is_ws c = false →
  ∃ s1 r, enc_field (k, v) +:+ String c rest = String "034" s1 ∧ str_lit s1 = Some (k, String ":" r) ∧
    field_val fuel r = Some (FString v, String c rest) ∧ skip_ws (String c rest) = String c rest.
Proof.
  intros [Hk Hv] Hc. cbn [fst snd] in *. unfold enc_field. rewrite !str_app_assoc. cbn [fst snd].
  destruct (str_lit_json_string k (":" +:+ json_string v +:+ String c rest) Hk) as (s1 & E1 & L1).
  destruct (str_lit_json_string v (String c rest) Hv) as (s2 & E2 & L2).
  exists s1, (json_string v +:+ String c rest). split; [exact E1|]. split; [exact L1|]. split.
  - rewrite E2. unfold field_val. change (skip_ws (String "034" s2)) with (String "034" s2). cbv iota.
    change (byte_of "034" =? 34) with true. cbv iota. by rewrite L2.
  - cbn [skip_ws]. by rewrite Hc.
Qed.

Lemma members_fields l fuel rest : l ≠ [] → Forall utf8_pair l → (length l ≤ fuel)%nat →
  members fuel (String.concat "," (enc_field <$> l) +:+ String "}" rest) = Some ((λ kv, (fst kv, FString (snd kv))) <$> l, rest).
Proof.
  revert fuel. induction l as [|[k v] l IH]; [done|]. intros [|fuel] _ Hl Hlen; [cbn in Hlen; lia|].
  apply Forall_cons in Hl as [Hkv Hl]. cbn [length] in Hlen. destruct l as [|kv' l].
  - cbn [fmap list_fmap String.concat]. destruct (members_one fuel k v "}" rest Hkv eq_refl) as (s1 & r & E & L & F & W).
    rewrite E. cbn [members]. change (skip_ws (String "034" s1)) with (String "034" s1). cbv iota. change (byte_of "034" =? 34) with true. cbv iota.
    rewrite L. cbn [mbind option_bind]. change (skip_ws (String ":" r)) with (String ":" r). cbv iota. rewrite F. cbn [mbind option_bind]. by rewrite W.
  - remember (kv' :: l) as tl eqn:Etl.
    replace (String.concat "," (enc_field <$> (k, v) :: tl)) with (enc_field (k, v) +:+ "," +:+ String.concat "," (enc_field <$> tl)) by (by subst tl).
    rewrite !str_app_assoc.
    destruct (members_one fuel k v "," (String.concat "," (enc_field <$> tl) +:+ String "}" rest) Hkv eq_refl) as (s1 & r & E & L & F & W).
    change ("," +:+ (String.concat "," (enc_field <$> tl) +:+ String "}" rest)) with (String "," (String.concat "," (enc_field <$> tl) +:+ String "}" rest)).
    rewrite E. cbn [members]. change (skip_ws (String "034" s1)) with (String "034" s1). cbv iota. change (byte_of "034" =? 34) with true. cbv iota.
    rewrite L. cbn [mbind option_bind]. change (skip_ws (String ":" r)) with (String ":" r). cbv iota. rewrite F. cbn [mbind option_bind]. rewrite W. cbv iota.
    rewrite IH; [done|by subst tl|done|lia].
Qed.

Definition secret_fields (s : Secret) : list (string * string) :=
  List.filter (λ kv, negb (is_empty (snd kv)))
    [("community", se_Community s); ("user", se_User s); ("auth_password", se_AuthPassword s); ("priv_password", se_PrivPassword s)].

Lemma json_Secret_fields s : json_Secret s = "{" +:+ String.concat "," (enc_field <$> secret_fields s) +:+ "}".
Proof.
  unfold json_Secret, secret_fields, json_field. cbn [List.filter snd].
  destruct (is_empty (se_Community s)), (is_empty (se_User s)), (is_empty (se_AuthPassword s)), (is_empty (se_PrivPassword s)); reflexivity.
Qed.

Definition utf8_secret (s : Secret) : bool :=
  ValidUTF8 (se_Community s) && ValidUTF8 (se_User s) && ValidUTF8 (se_AuthPassword s) && ValidUTF8 (se_PrivPassword s).

Lemma secret_fields_utf8 s : utf8_secret s = true → Forall utf8_pair (secret_fields s).
Proof.
  unfold utf8_secret. rewrite !andb_true_iff. intros [[[H1 H2] H3] H4]. apply Forall_forall.
  intros kv Hkv%list_elem_of_In. unfold secret_fields in Hkv. apply filter_In in Hkv as [Hkv _].
  cbn in Hkv. unfold utf8_pair. destruct Hkv as [<-|[<-|[<-|[<-|[]]]]]; split; done.
Qed.

Lemma object_fields l : Forall utf8_pair l →
  object ("{" +:+ String.concat "," (enc_field <$> l) +:+ "}") = Some ((λ kv, (fst kv, FString (snd kv))) <$> l).
Proof.
  intros Hl. destruct l as [|kv l]; [reflexivity|]. set (tl := kv :: l) in *.
  set (body := String.concat "," (enc_field <$> tl) +:+ "}").
  change (object (String "{" body) = Some ((λ kv, (fst kv, FString (snd kv))) <$> tl)).
  assert (Hlen : (length tl ≤ S (String.length (String "{" body)))%nat).
  { cbn [String.length]. unfold body. rewrite str_length_app. clearbody tl. clear.
    enough (length tl ≤ S (String.length (String.concat "," (enc_field <$> tl))))%nat by lia.
    induction tl as [|kv [|kv' tl] IH]; [cbn; lia..|].
    replace (String.concat "," (enc_field <$> kv :: kv' :: tl)) with (enc_field kv +:+ "," +:+ String.concat "," (enc_field <$> kv' :: tl)) by done.
    rewrite !str_length_app. cbn [length] in *. change (String.length ",") with 1%nat. lia. }
  pose proof (members_fields tl _ "" ltac:(done) Hl Hlen) as Hm. fold body in Hm.
  assert (Hq : ∃ x, body = String "034" x).
  { unfold body, tl, enc_field, json_string. destruct l; eexists; reflexivity. }
  destruct Hq as [x Hx]. unfold object. change (skip_ws (String "{" body)) with (String "{" body). cbv iota.
  rewrite Hx in Hm |- *. change (skip_ws (String "034" x)) with (String "034" x). cbv iota zeta beta. rewrite Hm. reflexivity.
Qed.

Lemma unmarshal_json_Secret s : utf8_secret s = true → unmarshal_Secret (json_Secret s) = Some s.
Proof.
  intros Hu. unfold unmarshal_Secret. rewrite json_Secret_fields, (object_fields _ (secret_fields_utf8 s Hu)).
  destruct s as [c u a p]. unfold secret_fields. cbn [List.filter snd se_Community se_User se_AuthPassword se_PrivPassword].
  destruct (is_empty c) eqn:Ec, (is_empty u) eqn:Eu, (is_empty a) eqn:Ea, (is_empty p) eqn:Ep;
    repeat match goal with H : is_empty _ = true |- _ => apply is_empty_spec in H as -> end; reflexivity.
Qed.

(** *** The size of a document *)

Lemma json_bytes_length n l : Forall is_byte l → (String.length (json_bytes n l) ≤ 6 * Z.to_nat (rune_count n l))%nat ∧ 0 ≤ rune_count n l.
Proof.
  revert l. induction n as [|n IH]; intros [|c l] Hl; [cbn; lia..|].
  cbn [rune_count]. destruct (IH (drop (rune_width (c :: l)) (c :: l)) ltac:(by apply Forall_drop)) as [Hlen H0]. split; [|lia].
  pose proof (Forall_inv Hl) as Hb. unfold is_byte in Hb.
  destruct (decide (c < 128)) as [Hc|Hc].
  - assert (rune_width (c :: l) = 1%nat) as Hone.
    { cbn. unfold rune_start. by replace (c <? 194) with true by lia. }
    rewrite Hone in Hlen, H0 |- *. cbn [drop] in *. rewrite drop_0 in *. cbn [json_bytes]. replace (c <? 128) with true by lia.
    rewrite str_length_app. match goal with |- (String.length ?e + _ ≤ _)%nat => assert (String.length e ≤ 6)%nat end; [|lia].
    destruct (hex_escape c) as (h3 & h4 & Hx & _); [lia|]. rewrite Hx. repeat case_match; cbn; try lia. rewrite str_length_app. cbn. lia.
  - cbn [json_bytes]. replace (c <? 128) with false by lia. cbv zeta. rewrite str_length_app.
    match goal with |- (String.length ?e + _ ≤ _)%nat => assert (String.length e ≤ 6)%nat end; [|lia].
    destruct (_ =? 1)%nat; [cbn; lia|]. pose proof (rune_width_le (c :: l)) as H4.
    assert (Htk : (length (take (rune_width (c :: l)) (c :: l)) ≤ 4)%nat) by (rewrite length_take; lia).
    destruct (decide (take (rune_width (c :: l)) (c :: l) = [226; 128; 168])) as [->|N1]; [cbn; lia|].
    destruct (decide (take (rune_width (c :: l)) (c :: l) = [226; 128; 169])) as [->|N2]; [cbn; lia|].
    transitivity (length (take (rune_width (c :: l)) (c :: l))); [|lia].
    assert (Hs : ∀ k : list Z, (String.length (String.string_of_list_ascii ((λ b, ascii_of_N (Z.to_N b)) <$> k)) ≤ length k)%nat).
    { induction k as [|b k IHk]; cbn; [lia|]. cbn in IHk. lia. }
    repeat (case_match; try done); try (etrans; [apply Hs|cbn; lia]).
Qed.

(** A value of at most [k] runes is at most [6 k + 2] bytes as a literal. *)
Lemma json_string_length s k : RuneCountInString s ≤ k → (String.length (json_string s) ≤ 6 * Z.to_nat k + 2)%nat.
Proof.
  intros Hk. unfold json_string, RuneCountInString in *. fold (to_bytes s) in *. cbv zeta in *.
  destruct (json_bytes_length (length (to_bytes s)) (to_bytes s) (to_bytes_bytes s)) as [Hl H0].
  cbn [String.length]. rewrite str_length_app. cbn. lia.
Qed.

Definition short_value (v : string) : Prop := RuneCountInString v ≤ MaxValueLen.

Lemma Validate_short i : Validate i = Ok () →
  short_value (in_Community i) ∧ short_value (in_User i) ∧ short_value (in_AuthPassword i) ∧ short_value (in_PrivPassword i).
Proof.
  assert (Hnil : ∀ v, v = ""%string → short_value v) by (by intros v ->).
  unfold Validate. destruct (in_Version i =? 2); [|destruct (in_Version i =? 3); [|done]].
  - rewrite then_Ok, value_Ok, refuse_set_Ok by lia. rewrite !Forall_cons, Forall_nil. cbn [snd]. unfold short_value. naive_solver.
  - rewrite validateV3_Ok. unfold short_value in *. unfold MaxValueLen in *. naive_solver lia.
Qed.

Lemma concat_length l : (String.length (String.concat "," l) ≤ foldr (λ s n, String.length s + S n) 0 l)%nat.
Proof.
  induction l as [|s [|s' l] IH]; [done|cbn; lia|].
  replace (String.concat "," (s :: s' :: l)) with (s +:+ "," +:+ String.concat "," (s' :: l)) by done.
  rewrite !str_length_app. cbn [foldr] in *. change (String.length ",") with 1%nat. lia.
Qed.

Lemma json_field_length name v : short_value v → ∀ n,
  (foldr (λ s n, String.length s + S n) n (json_field name v) ≤ String.length (json_string name) + 1540 + n)%nat.
Proof.
  intros Hv n. unfold json_field. destruct (is_empty v); cbn [foldr]; [lia|]. rewrite !str_length_app.
  pose proof (json_string_length v _ Hv) as Hl. change (Z.to_nat MaxValueLen) with 256%nat in Hl. change (String.length ":") with 1%nat. lia.
Qed.

(** Accepted credentials always fit the envelope. *)
Lemma json_Secret_length i : Validate i = Ok () → Z.of_nat (String.length (json_Secret (secretOf i))) ≤ MaxSettingsBytes.
Proof.
  intros (H1 & H2 & H3 & H4)%Validate_short. unfold json_Secret. rewrite !str_length_app. cbn [secretOf se_Community se_User se_AuthPassword se_PrivPassword].
  match goal with |- context [String.concat "," ?l] => pose proof (concat_length l) as L0 end. rewrite !foldr_app in L0.
  pose proof (json_field_length "priv_password" _ H4 0%nat) as L4. set (n4 := foldr _ 0%nat _) in *. 
  pose proof (json_field_length "auth_password" _ H3 n4) as L3. set (n3 := foldr _ n4 _) in *.
  pose proof (json_field_length "user" _ H2 n3) as L2. set (n2 := foldr _ n3 _) in *.
  pose proof (json_field_length "community" _ H1 n2) as L1. set (n1 := foldr _ n2 _) in *.
  change (String.length "{") with 1%nat. change (String.length "}") with 1%nat.
  change (String.length (json_string "community")) with 11%nat in L1. change (String.length (json_string "user")) with 6%nat in L2.
  change (String.length (json_string "auth_password")) with 15%nat in L3. change (String.length (json_string "priv_password")) with 15%nat in L4.
  clearbody n1 n2 n3 n4. unfold MaxSettingsBytes. lia.
Qed.

(** C21: credentials survive storage.  Credentials the service accepts, with
    values in UTF-8, always fit the envelope: under a key NewEnvelope accepts
    (32 bytes), sealing them for a subnet succeeds, and opening the blob for the same tenant and subnet gives back
    exactly the values that were sealed. *)
Theorem Open_Seal gcm `{!AEADLaws gcm} kek dek n1 n2 tenantID subnetID i :
  String.length kek = 32%nat → String.length dek = 32%nat → String.length n1 = NonceSize → String.length n2 = NonceSize →
  Validate i = Ok () → utf8_secret (secretOf i) = true →
  ∃ blob, Seal (Some (Envelope_Seal gcm kek dek n1 n2)) tenantID subnetID i = Ok blob ∧
    Open (Some (Envelope_Open gcm kek)) tenantID subnetID blob = Ok (secretOf i).
Proof.
  intros Hk Hd H1 H2 Hv Hu. pose proof (json_Secret_length i Hv) as Hlen. unfold Seal.
  destruct (Envelope_Seal gcm kek dek n1 n2 (json_Secret (secretOf i)) (ADSNMP tenantID subnetID)) as [blob|e] eqn:E.
  - exists blob. split; [done|]. unfold Open. rewrite (Envelope_Open_Seal gcm _ _ _ _ _ _ _ Hk Hd H1 H2 E).
    by rewrite unmarshal_json_Secret.
  - exfalso. unfold Envelope_Seal in E. destruct (MaxSettingsBytes <? _) eqn:El; [lia|done].
Qed.

(** A cipher with the laws: the tag repeats the length of the associated
    data, the key's and the nonce's. *)
Definition toy_tag (key n ad : string) : string :=
  JSON.of_bytes (replicate 16 ((Z.of_nat (String.length ad) + Z.of_nat (String.length key) * 3 + Z.of_nat (String.length n) * 7) mod 256)).
Definition toy_gcm (key : string) : AEAD :=
  {| aead_Seal := λ n pt ad, toy_tag key n ad +:+ pt;
     aead_Open := λ n ct ad, if str_take 16 ct =s toy_tag key n ad then Some (str_drop 16 ct) else None |}.
#[export] Instance toy_laws : AEADLaws toy_gcm.
Proof.
  split; intros key n pt ad _ _; cbn [toy_gcm aead_Seal aead_Open].
  - rewrite str_take_app, str_drop_app by reflexivity. by rewrite String.eqb_refl.
  - rewrite str_length_app. change (String.length (toy_tag key n ad)) with 16%nat. unfold Overhead. lia.
Qed.

Definition ex_kek : string := JSON.of_bytes (replicate 32 65).

Lemma Open_Seal_witness :
  ∃ blob, Seal (Some (Envelope_Seal toy_gcm ex_kek (JSON.of_bytes (replicate 32 7)) "nonce-one-12" "nonce-two-12")) "t1" "s1" ex_v3 = Ok blob ∧
    Open (Some (Envelope_Open toy_gcm ex_kek)) "t1" "s1" blob = Ok (secretOf ex_v3).
Proof.
  apply (Open_Seal toy_gcm ex_kek (JSON.of_bytes (replicate 32 7)) "nonce-one-12" "nonce-two-12" "t1" "s1" ex_v3); reflexivity.
Defined.

(** ** Settings *)

(** What [Redact] shows of a field. *)
Definition redacted (v : option any) : option any :=
  v ← v; if is_empty (any_str v) then None else Some (AnyString Marker).

Lemma redact_field_lookup s f k : redact_field s f !! k = if decide (f = k) then redacted (s !! k) else s !! k.
Proof.
  unfold redact_field, redacted. destruct (decide (f = k)) as [->|Hne].
  - destruct (s !! k) as [v|] eqn:E; [|done]. cbn. destruct (is_empty (any_str v)); [apply lookup_delete_eq|apply lookup_insert_eq].
  - destruct (s !! f) as [v|]; [|done]. destruct (is_empty _); [by apply lookup_delete_ne|by apply lookup_insert_ne].
Qed.
Lemma redacted_idem v : redacted (redacted v) = redacted v.
Proof. destruct v as [v|]; [|done]. cbn. by destruct (is_empty (any_str v)) eqn:E. Qed.

Lemma Redact_lookup s F k : Redact s F !! k = if decide (k ∈ F) then redacted (s !! k) else s !! k.
Proof.
  unfold Redact. revert s. induction F as [|f F IH]; intros s; [done|]. cbn [foldl]. rewrite IH, redact_field_lookup.
  destruct (decide (f = k)) as [->|Hne].
  - rewrite (decide_True (P := k ∈ k :: F)) by set_solver. case_decide; [apply redacted_idem|done].
  - rewrite (decide_ext (k ∈ f :: F) (k ∈ F)) by set_solver. done.
Qed.

Lemma merge_field_lookup stored F out f k :
  f ∈ F → merge_field stored (Redact stored F) out f !! k = if decide (f = k) then stored !! k else out !! k.
Proof.
  intros Hf. unfold merge_field. rewrite Redact_lookup, decide_True by done.
  assert (Hm : negb (is_some (redacted (stored !! f))) || (any_str (default AnyNil (redacted (stored !! f))) =s Marker) = true).
  { destruct (stored !! f) as [v|]; [|done]. cbn. by destruct (is_empty (any_str v)). }
  rewrite Hm. destruct (decide (f = k)) as [->|Hne].
  - destruct (stored !! k) as [v|]; [apply lookup_insert_eq|apply lookup_delete_eq].
  - destruct (stored !! f) as [v|]; [by apply lookup_insert_ne|by apply lookup_delete_ne].
Qed.

(** Reading settings with the credentials masked and sending them back
    unchanged stores exactly what was stored. *)
Lemma Merge_Redact stored F : Merge stored (Redact stored F) F = stored.
Proof.
  apply map_eq. intros k. unfold Merge.
  assert (Hgen : ∀ l out, (∀ f, f ∈ l → f ∈ F) → foldl (merge_field stored (Redact stored F)) out l !! k =
    if decide (k ∈ l) then stored !! k else out !! k).
  { induction l as [|f l IH]; intros out Hin; [done|]. cbn [foldl]. rewrite IH by set_solver.
    rewrite merge_field_lookup by set_solver. destruct (decide (f = k)) as [->|Hne].
    - rewrite (decide_True (P := k ∈ k :: l)) by set_solver. by case_decide.
    - by rewrite (decide_ext (k ∈ f :: l) (k ∈ l)) by set_solver. }
  rewrite Hgen by done. case_decide as Hk; [done|]. by rewrite Redact_lookup, decide_False.
Qed.

(** No credential is shown: a masked field is gone or the marker, and the
    public part has none of them. *)
Lemma Redact_hides s F k v : k ∈ F → Redact s F !! k = Some v → v = AnyString Marker.
Proof. intros Hk. rewrite Redact_lookup, decide_True by done. destruct (s !! k) as [u|]; [|done]. cbn. by destruct (is_empty _); [|intros [= <-]]. Qed.
Lemma Public_lookup s F k : Public s F !! k = if decide (k ∈ F) then None else s !! k.
Proof.
  unfold Public. revert s. induction F as [|f F IH]; intros s; [done|]. cbn [foldl]. rewrite IH.
  destruct (decide (f = k)) as [->|Hne].
  - rewrite lookup_delete_eq, (decide_True (P := k ∈ k :: F)) by set_solver. by case_decide.
  - rewrite lookup_delete_ne by done. by rewrite (decide_ext (k ∈ f :: F) (k ∈ F)) by set_solver.
Qed.
