(* ===== verification/AuditLog.v ===== *)
(** * internal/audit: the audit vocabulary, the detail guard and the writer

    [Row] validates an event and builds a guarded audit row.  [Writer] is the
    buffered writer: callers run [Record], [Flush] and [Close] under its mutex,
    one goroutine runs [run]; the interleavings are the steps of a transition
    system over the channel's buffer. *)

From S2P Require Import Prelude Models Store.

Definition EventType : Type := string.

Definition SubnetCreated : EventType := "subnet_created".
Definition SubnetUpdated : EventType := "subnet_updated".
Definition SubnetDeleted : EventType := "subnet_deleted".
Definition AddressCreated : EventType := "address_created".
Definition AddressUpdated : EventType := "address_updated".
Definition AddressDeleted : EventType := "address_deleted".
Definition AddressAllocated : EventType := "address_allocated".
Definition DeviceCreated : EventType := "device_created".
Definition DeviceUpdated : EventType := "device_updated".
Definition DeviceDeleted : EventType := "device_deleted".
Definition VlanCreated : EventType := "vlan_created".
Definition VlanUpdated : EventType := "vlan_updated".
Definition VlanDeleted : EventType := "vlan_deleted".
Definition LocationCreated : EventType := "location_created".
Definition LocationUpdated : EventType := "location_updated".
Definition LocationDeleted : EventType := "location_deleted".
Definition GroupCreated : EventType := "group_created".
Definition GroupUpdated : EventType := "group_updated".
Definition GroupDeleted : EventType := "group_deleted".
Definition ScanStarted : EventType := "scan_started".
Definition ScanCancelled : EventType := "scan_cancelled".
Definition ScanCompleted : EventType := "scan_completed".
Definition PowerAction : EventType := "power_action".
Definition KVMSessionStarted : EventType := "kvm_session_started".
Definition DNSConfigUpdated : EventType := "dns_config_updated".
Definition BackupExported : EventType := "backup_exported".
Definition BackupImported : EventType := "backup_imported".
Definition AccessRefused : EventType := "access_refused".
Definition InterfaceCreated : EventType := "interface_created".
Definition InterfaceUpdated : EventType := "interface_updated".
Definition InterfaceNotReported : EventType := "interface_not_reported".
Definition AddressMoved : EventType := "address_moved".
Definition AddressReleased : EventType := "address_released".
Definition AddressConflict : EventType := "address_conflict".
Definition AddressConflictCleared : EventType := "address_conflict_cleared".
Definition PackagesUpdated : EventType := "packages_updated".
Definition HypervisorLinked : EventType := "hypervisor_linked".
Definition HypervisorUnlinked : EventType := "hypervisor_unlinked".
Definition PortLinked : EventType := "port_linked".
Definition PortUnlinked : EventType := "port_unlinked".
Definition DeviceNotReported : EventType := "device_not_reported".
Definition HostSyncSettingsUpdated : EventType := "hostsync_settings_updated".
Definition HostSyncResyncRequested : EventType := "hostsync_resync_requested".
Definition HostSyncRun : EventType := "hostsync_run".
Definition SNMPCredentialsSet : EventType := "snmp_credentials_set".
Definition SNMPCredentialsReplaced : EventType := "snmp_credentials_replaced".
Definition SNMPCredentialsCleared : EventType := "snmp_credentials_cleared".
Definition SNMPCredentialsTested : EventType := "snmp_credentials_tested".
Definition MACLearned : EventType := "mac_learned".
Definition MACChanged : EventType := "mac_changed".
Definition MACConflict : EventType := "mac_conflict".
Definition ARPRun : EventType := "arp_run".
Definition ARPSettingsUpdated : EventType := "arp_settings_updated".
Definition HardwareReported : EventType := "hardware_reported".
Definition HardwareUpdated : EventType := "hardware_updated".
Definition BMCReferenceSet : EventType := "bmc_reference_set".
Definition BMCReferenceChanged : EventType := "bmc_reference_changed".
Definition BMCReferenceCleared : EventType := "bmc_reference_cleared".

Definition HostSyncActor : string := "hostsync".
Definition ScanActor : string := "scan".

Definition SubjectSubnet : string := "subnet".
Definition SubjectAddress : string := "address".
Definition SubjectDevice : string := "device".
Definition SubjectInterface : string := "interface".
Definition SubjectVlan : string := "vlan".
Definition SubjectLocation : string := "location".
Definition SubjectGroup : string := "group".
Definition SubjectScan : string := "scan".
Definition SubjectPower : string := "power".
Definition SubjectKVM : string := "kvm".
Definition SubjectDNS : string := "dns".
Definition SubjectBackup : string := "backup".
Definition SubjectSystem : string := "system".
Definition SubjectPackage : string := "package".
Definition SubjectHostSync : string := "hostsync".
Definition SubjectTenant : string := "tenant".
Definition OutcomeOK : string := "ok".
Definition OutcomeRefused : string := "refused".
Definition OutcomeError : string := "error".
Definition ActorUser : string := "user".
Definition ActorService : string := "service".
Definition ActorSystem : string := "system".

Definition known : list EventType :=
  [SubnetCreated; SubnetUpdated; SubnetDeleted; AddressCreated; AddressUpdated; AddressDeleted;
   AddressAllocated; DeviceCreated; DeviceUpdated; DeviceDeleted; VlanCreated; VlanUpdated; VlanDeleted;
   LocationCreated; LocationUpdated; LocationDeleted; GroupCreated; GroupUpdated; GroupDeleted; ScanStarted;
   ScanCancelled; ScanCompleted; PowerAction; KVMSessionStarted; DNSConfigUpdated; BackupExported;
   BackupImported; AccessRefused; InterfaceCreated; InterfaceUpdated; InterfaceNotReported; AddressMoved;
   AddressReleased; AddressConflict; AddressConflictCleared; PackagesUpdated; HypervisorLinked;
   HypervisorUnlinked; PortLinked; PortUnlinked; DeviceNotReported; HostSyncSettingsUpdated;
   HostSyncResyncRequested; HostSyncRun; SNMPCredentialsSet; SNMPCredentialsReplaced; SNMPCredentialsCleared;
   SNMPCredentialsTested; MACLearned; MACChanged; MACConflict; ARPRun; ARPSettingsUpdated; HardwareReported;
   HardwareUpdated; BMCReferenceSet; BMCReferenceChanged; BMCReferenceCleared].

Definition Known (t : string) : bool := existsb (λ k, k =s t) known.

Record Event : Type := {
  e_TenantID : string;
  e_EventType : EventType;
  e_ActorKind : string;
  e_ActorID : string;
  e_SubjectKind : string;
  e_SubjectID : string;
  e_Target : string;
  e_Outcome : string;
  e_Reason : string;
  e_Details : list (string * any)
}.

Definition subject_kinds : list string :=
  [SubjectSubnet; SubjectAddress; SubjectDevice; SubjectInterface; SubjectVlan; SubjectLocation; SubjectGroup;
   SubjectScan; SubjectPower; SubjectKVM; SubjectDNS; SubjectBackup; SubjectSystem; SubjectPackage;
   SubjectHostSync; SubjectTenant].

Inductive audit_error : Type :=
| UnknownEventType (t : string)
| TenantRequired
| BadActorKind (k : string)
| BadSubjectKind (k : string)
| BadOutcome (o : string)
| WriterClosed.

Definition one_of (set : list string) (v : string) : bool := existsb (λ s, s =s v) set.

Definition Validate (e : Event) : result audit_error () :=
  if negb (Known (e_EventType e)) then Err (UnknownEventType (e_EventType e))
  else if is_empty (e_TenantID e) then Err TenantRequired
  else if negb (one_of [ActorUser; ActorService; ActorSystem] (e_ActorKind e)) then Err (BadActorKind (e_ActorKind e))
  else if negb (one_of subject_kinds (e_SubjectKind e)) then Err (BadSubjectKind (e_SubjectKind e))
  else if negb (one_of [OutcomeOK; OutcomeRefused; OutcomeError] (e_Outcome e)) then Err (BadOutcome (e_Outcome e))
  else Ok ().

(** ** The detail guard *)

Definition forbidden : list string :=
  ["secret"; "credential"; "snmp"; "ipmi"; "password"; "passphrase"; "community"; "owner"; "contact"].

Section guard.
Context `{Env}.

Definition forbiddenKey (k : string) : bool := existsb (str_contains (ToLower k)) forbidden.

(** [guardValue] with the body of [guardMap] for a nested map in place.  The
    values are those the callers of the package put in the details; a value of
    another type, such as a []string or a map[string]string, falls to the
    default branch of the switch and would be returned as it is, its strings
    and keys unguarded. *)
Fixpoint guardValue (v : any) : any :=
  match v with
  | AnyString s => AnyString (if (256 <? String.length s)%nat then String.substring 0 256 s else s)
  | AnyMap m => AnyMap (omap (λ kv, if forbiddenKey (fst kv) then None else Some (fst kv, guardValue (snd kv))) m)
  | AnyList l => AnyList (guardValue <$> l)
  | _ => v
  end.

Definition guardMap (m : list (string * any)) : list (string * any) :=
  omap (λ kv, if forbiddenKey (fst kv) then None else Some (fst kv, guardValue (snd kv))) m.

(** The row of a valid event, with its id. *)
Definition row_of (e : Event) (id : string) (at_ : Time) : AuditRow :=
  {| ar_ID := id; ar_TenantID := e_TenantID e; ar_At := at_; ar_ActorKind := e_ActorKind e;
     ar_ActorID := e_ActorID e; ar_Action := e_EventType e; ar_SubjectKind := e_SubjectKind e;
     ar_SubjectID := e_SubjectID e; ar_Target := e_Target e; ar_Outcome := e_Outcome e;
     ar_Reason := e_Reason e; ar_Detail := list_to_map (guardMap (e_Details e)) |}.

Definition Row (e : Event) (at_ : Time) : M (result audit_error AuditRow) :=
  match Validate e with
  | Err err => mret (Err err)
  | Ok _ => id ← newID; mret (Ok (row_of e id at_))
  end.
End guard.

(** ** Properties of the guard *)

(** Induction over nested detail values. *)
Lemma any_nested_ind (P : any → Prop) :
  P AnyNil → (∀ s, P (AnyString s)) → (∀ n, P (AnyInt n)) → (∀ b, P (AnyBool b)) → (∀ t, P (AnyTime t)) →
  (∀ l, Forall P l → P (AnyList l)) → (∀ m, Forall (λ kv, P (snd kv)) m → P (AnyMap m)) → ∀ v, P v.
Proof.
  intros Hnil Hs Hi Hb Ht Hl Hm. fix IH 1. intros [|s|n|b|t|l|m]; [apply Hnil|apply Hs|apply Hi|apply Hb|apply Ht| |].
  - apply Hl. induction l as [|v l IHl]; constructor; [apply IH|apply IHl].
  - apply Hm. induction m as [|[k v] m IHm]; constructor; [apply IH|apply IHm].
Qed.

Section guard_props.
Context `{Env}.

(** No forbidden key at any depth, no text over 256 bytes. *)
Inductive clean : any → Prop :=
| clean_nil : clean AnyNil
| clean_string s : (String.length s ≤ 256)%nat → clean (AnyString s)
| clean_int n : clean (AnyInt n)
| clean_bool b : clean (AnyBool b)
| clean_time t : clean (AnyTime t)
| clean_list l : Forall clean l → clean (AnyList l)
| clean_map m : Forall (λ kv, forbiddenKey (fst kv) = false ∧ clean (snd kv)) m → clean (AnyMap m).

Lemma length_substring_le n s : (String.length (String.substring 0 n s) ≤ n)%nat.
Proof. revert s. induction n as [|n IH]; intros [|c s]; cbn; try lia. specialize (IH s). lia. Qed.

Lemma guardMap_clean_step m :
  Forall (λ kv, clean (guardValue (snd kv))) m →
  Forall (λ kv, forbiddenKey (fst kv) = false ∧ clean (snd kv)) (guardMap m).
Proof.
  unfold guardMap. induction 1 as [|[k v] m Hv Hm IH]; cbn -[forbiddenKey]; [constructor|].
  destruct (forbiddenKey k) eqn:E; [exact IH|]. constructor; [by split|exact IH].
Qed.

Lemma guardValue_clean v : clean (guardValue v).
Proof.
  induction v as [|s|n|b|t|l IH|m IH] using any_nested_ind; cbn [guardValue]; try constructor.
  - destruct (256 <? String.length s)%nat eqn:E; [apply length_substring_le|]. apply Nat.ltb_ge in E. lia.
  - apply Forall_fmap. exact IH.
  - by apply guardMap_clean_step.
Qed.

Lemma guardMap_lookup m k v :
  (k, v) ∈ guardMap m ↔ ∃ v0, (k, v0) ∈ m ∧ forbiddenKey k = false ∧ v = guardValue v0.
Proof.
  unfold guardMap. rewrite list_elem_of_omap. split.
  - intros ([k0 v0] & Hin & E). cbn -[forbiddenKey] in E. destruct (forbiddenKey k0) eqn:Ek; simplify_eq. eauto.
  - intros (v0 & Hin & Hk & ->). exists (k, v0). cbn -[forbiddenKey]. by rewrite Hk.
Qed.

Lemma omap_keys_sublist m : (guardMap m).*1 `sublist_of` m.*1.
Proof.
  unfold guardMap. induction m as [|[k v] m IH]; cbn -[forbiddenKey]; [constructor|].
  destruct (forbiddenKey k); cbn -[forbiddenKey]; [by apply sublist_cons|by apply sublist_skip].
Qed.
End guard_props.

(** C33: the detail guard: the detail of every row [Row] builds has exactly the
    event's keys that carry no forbidden word, and no forbidden key at any
    depth and no text over 256 bytes remains in it. *)
Theorem Row_guarded `{Env} e at_ w :
  NoDup (e_Details e).*1 →
  match Row e at_ w with
  | (w', Ok (Ok row)) =>
      w_mem w' = w_mem w ∧ Validate e = Ok () ∧
      ∀ k v, ar_Detail row !! k = Some v ↔
        ∃ v0, (k, v0) ∈ e_Details e ∧ forbiddenKey k = false ∧ v = guardValue v0 ∧ clean v
  | (w', Ok (Err err)) => w' = w ∧ Validate e = Err err
  | (_, Err _) => False
  end.
Proof.
  intros Hnd. unfold Row. destruct (Validate e) as [[]|err]; [|done].
  split_and!; [done|done|]. intros k v. unfold row_of, ar_Detail. rewrite <- elem_of_list_to_map.
  - rewrite guardMap_lookup. split.
    + intros (v0 & Hin & Hk & ->). eauto using guardValue_clean.
    + intros (v0 & Hin & Hk & -> & _). eauto.
  - eapply sublist_NoDup; [exact Hnd|]. apply omap_keys_sublist.
Qed.

(** An event whose nested detail carries a credential. *)
Definition ex_event : Event :=
  {| e_TenantID := "t1"; e_EventType := SNMPCredentialsTested; e_ActorKind := ActorUser; e_ActorID := "u1";
     e_SubjectKind := SubjectSubnet; e_SubjectID := "s1"; e_Target := ""; e_Outcome := OutcomeOK; e_Reason := "";
     e_Details := [("target", AnyString "10.0.0.1"); ("Community", AnyString "public");
                   ("result", AnyMap [("auth_password", AnyString "x"); ("ok", AnyBool true)])] |}.

(** An environment with one identifier and one clock reading. *)
Definition audit_env : Env :=
  {| env_rand := λ _, []; env_ms := λ _, 0; env_clock := λ _, 0; env_unicode_lower := λ s, s;
     env_unicode_fold := λ s t, s =s t; env_unicode_print := λ _, true |}.

Lemma Row_guarded_witness :
  guardMap (H := audit_env) (e_Details ex_event) =
    [("target", AnyString "10.0.0.1"); ("result", AnyMap [("ok", AnyBool true)])]%string ∧
  match Row (H := audit_env) ex_event 5 init_world with
  | (w', Ok (Ok row)) =>
      ∀ k v, ar_Detail row !! k = Some v ↔
        ∃ v0, (k, v0) ∈ e_Details ex_event ∧ forbiddenKey (H := audit_env) k = false ∧
              v = guardValue (H := audit_env) v0 ∧ clean (H := audit_env) v
  | _ => False
  end.
Proof.
  split; [vm_compute; reflexivity|].
  pose proof (Row_guarded (H := audit_env) ex_event 5 init_world) as Hg.
  assert (Hnd : NoDup (e_Details ex_event).*1) by (apply (bool_decide_unpack _); vm_compute; reflexivity).
  specialize (Hg Hnd). destruct (Row (H := audit_env) ex_event 5 init_world) as [w' [[row|err]|e]] eqn:E.
  - apply Hg.
  - discriminate (proj2 Hg).
  - exact Hg.
Defined.

(** ** The buffered writer *)

(** What the goroutine [run] is doing. *)
Inductive run_mode : Type := Running | Flushing | Stopped.

Record Writer : Type := {
  wr_ch : list AuditRow;      (* the channel's buffer *)
  wr_cap : nat;
  wr_closed : bool;           (* set together with close(w.ch) *)
  wr_dropped : Z;
  wr_flushers : nat;          (* callers of [Flush] past its check, blocked on the send *)
  wr_mode : run_mode
}.

Definition newWriter (queue : nat) : Writer :=
  {| wr_ch := []; wr_cap := queue; wr_closed := false; wr_dropped := 0; wr_flushers := 0; wr_mode := Running |}.

(** The part of [Record] under the mutex. *)
Definition enqueue (row : AuditRow) (w : Writer) : Writer * result audit_error () :=
  if wr_closed w then ({| w with wr_dropped := wrap64 (wr_dropped w + 1) |}, Err WriterClosed)
  else if (length (wr_ch w) <? wr_cap w)%nat then ({| w with wr_ch := wr_ch w ++ [row] |}, Ok ())
  else ({| w with wr_dropped := wrap64 (wr_dropped w + 1) |}, Ok ()).

Definition RecordEvent `{Env} (e : Event) (id : string) (at_ : Time) (w : Writer) : Writer * result audit_error () :=
  match Validate e with
  | Err err => (w, Err err)
  | Ok _ => enqueue (row_of e id at_) w
  end.

Definition Close (w : Writer) : Writer := {| w with wr_closed := true |}.

(** What an observer sees of a step. [Failed] is a row the goroutine took
    from the channel and [AppendAudit] refused. *)
Inductive label : Type := Accepted (r : AuditRow) | Dropped | Wrote (r : AuditRow) | Failed (r : AuditRow) | Tau.

(** The store stores the row, or reports an error, which goes to [onError]:
    the row is not queued again. *)
Inductive writeRow (r : AuditRow) : label → Prop :=
| writeRow_stored : writeRow r (Wrote r)
| writeRow_failed : writeRow r (Failed r).

(** One step of a caller or of [run]. A receive from a closed, empty channel
    yields the zero row. *)
Inductive step : Writer → label → Writer → Prop :=
| step_accept row w w' :
    enqueue row w = (w', Ok ()) → wr_dropped w' = wr_dropped w → step w (Accepted row) w'
| step_drop row w w' r :
    enqueue row w = (w', r) → wr_dropped w' ≠ wr_dropped w → step w Dropped w'
| step_flush_call w :
    wr_closed w = false → step w Tau {| w with wr_flushers := S (wr_flushers w) |}
| step_flush_cancel w n :
    wr_flushers w = S n → step w Tau {| w with wr_flushers := n |}
| step_close w : step w Tau (Close w)
| step_recv w r q a :
    wr_mode w = Running → wr_ch w = r :: q → writeRow r a → step w a {| w with wr_ch := q |}
| step_exit w :
    wr_mode w = Running → wr_ch w = [] → wr_closed w = true → step w Tau {| w with wr_mode := Stopped |}
| step_flush_recv w n :
    wr_mode w = Running → wr_flushers w = S n → step w Tau {| w with wr_mode := Flushing; wr_flushers := n |}
| step_drain w r q a :
    wr_mode w = Flushing → wr_ch w = r :: q → writeRow r a → step w a {| w with wr_ch := q |}
| step_drain_closed w a :
    wr_mode w = Flushing → wr_ch w = [] → wr_closed w = true → writeRow zero_AuditRow a → step w a w
| step_drain_done w :
    wr_mode w = Flushing → wr_ch w = [] → wr_closed w = false → step w Tau {| w with wr_mode := Running |}.

Inductive steps : Writer → list label → Writer → Prop :=
| steps_nil w : steps w [] w
| steps_snoc w l w1 a w2 : steps w l w1 → step w1 a w2 → steps w (l ++ [a]) w2.

Definition accepted (l : list label) : list AuditRow := omap (λ a, match a with Accepted r => Some r | _ => None end) l.
Definition wrote (l : list label) : list AuditRow := omap (λ a, match a with Wrote r => Some r | _ => None end) l.
Definition failed (l : list label) : list AuditRow := omap (λ a, match a with Failed r => Some r | _ => None end) l.

(** The rows the goroutine took from the channel, in order. *)
Definition received (l : list label) : list AuditRow :=
  omap (λ a, match a with Wrote r | Failed r => Some r | _ => None end) l.

(** The rows [Record] refused or dropped. *)
Definition dropped (l : list label) : Z := Z.of_nat (length (omap (λ a, match a with Dropped => Some () | _ => None end) l)).

(** A flush caught by [Close]: the drain loop receives from the closed channel. *)
Definition flush_stuck (w : Writer) : Prop := wr_mode w = Flushing ∧ wr_ch w = [] ∧ wr_closed w = true.

Lemma omap_snoc {A B} (f : A → option B) l x :
  omap f (l ++ [x]) = omap f l ++ match f x with Some y => [y] | None => [] end.
Proof. rewrite omap_app. cbn. by destruct (f x). Qed.

Lemma accepted_snoc l a :
  accepted (l ++ [a]) = accepted l ++ match a with Accepted r => [r] | _ => [] end.
Proof. unfold accepted. rewrite omap_snoc. by destruct a. Qed.

Lemma received_snoc l a :
  received (l ++ [a]) = received l ++ match a with Wrote r | Failed r => [r] | _ => [] end.
Proof. unfold received. rewrite omap_snoc. by destruct a. Qed.

Lemma dropped_snoc l a : dropped (l ++ [a]) = dropped l + match a with Dropped => 1 | _ => 0 end.
Proof.
  unfold dropped. rewrite omap_snoc, length_app. destruct a; cbn; lia.
Qed.

Lemma writeRow_label r a :
  writeRow r a →
  (match a with Accepted r => [r] | _ => [] end) = [] ∧
  (match a with Wrote r | Failed r => [r] | _ => [] end) = [r] ∧ (match a with Dropped => 1 | _ => 0 end) = 0.
Proof. by intros [|]. Qed.

(** The stored rows are the received ones less those the store refused. *)
Lemma wrote_received l :
  wrote l `sublist_of` received l ∧ received l ≡ₚ wrote l ++ failed l.
Proof.
  unfold wrote, received, failed. induction l as [|[r| |r|r|] l [IH1 IH2]]; cbn; try done.
  - split; [by apply sublist_skip|by apply Permutation_skip].
  - split; [by apply sublist_cons|]. rewrite IH2. apply Permutation_middle.
Qed.

Lemma wrap64_wrap64_add d n : wrap64 (wrap64 d + n) = wrap64 (d + n).
Proof.
  unfold wrap64. f_equal.
  replace ((d + 2 ^ 63) `mod` 2 ^ 64 - 2 ^ 63 + n + 2 ^ 63) with ((d + 2 ^ 63) `mod` 2 ^ 64 + n) by lia.
  rewrite Zplus_mod_idemp_l. f_equal. lia.
Qed.

Lemma wrap64_succ_neq d : wrap64 (d + 1) ≠ d.
Proof.
  unfold wrap64. intros E. pose proof (Z.div_mod (d + 1 + 2 ^ 63) (2 ^ 64) ltac:(lia)).
  assert (1 = 2 ^ 64 * ((d + 1 + 2 ^ 63) / 2 ^ 64)) by lia. nia.
Qed.

Lemma enqueue_accept row w w' :
  enqueue row w = (w', Ok ()) → wr_dropped w' = wr_dropped w →
  wr_closed w = false ∧ (length (wr_ch w) < wr_cap w)%nat ∧ w' = {| w with wr_ch := wr_ch w ++ [row] |}.
Proof.
  unfold enqueue. destruct (wr_closed w); [done|].
  destruct (length (wr_ch w) <? wr_cap w)%nat eqn:E; intros [= <-]; cbn.
  - apply Nat.ltb_lt in E. done.
  - intros Hd. by apply wrap64_succ_neq in Hd.
Qed.

Lemma enqueue_drop row w w' r :
  enqueue row w = (w', r) → wr_dropped w' ≠ wr_dropped w →
  w' = {| w with wr_dropped := wr_dropped w' |} ∧ wr_dropped w' = wrap64 (wr_dropped w + 1).
Proof.
  unfold enqueue. destruct w as [ch cap closed dr fl md]; cbn -[Nat.ltb]. destruct closed; [intros ?; simplify_eq; done|].
  destruct (length ch <? cap)%nat; intros ? Hd; simplify_eq; done.
Qed.

(** What every run of the writer maintains. *)
Definition writer_inv (cap : nat) (l : list label) (w : Writer) : Prop :=
  wr_cap w = cap ∧ (length (wr_ch w) ≤ cap)%nat ∧ wr_dropped w = wrap64 (dropped l) ∧
  (wr_mode w = Stopped → wr_ch w = [] ∧ wr_closed w = true) ∧
  ∃ k, received l ++ wr_ch w = accepted l ++ replicate k zero_AuditRow ∧ (k ≠ O → flush_stuck w).

(** A receive moves the head of the buffer to the received rows. *)
Lemma writer_inv_receive cap l w r q a :
  writer_inv cap l w → wr_mode w ≠ Stopped → wr_ch w = r :: q → writeRow r a →
  writer_inv cap (l ++ [a]) {| w with wr_ch := q |}.
Proof.
  intros (Hcap & Hlen & Hdr & Hstop & k & Hk & Hstuck) Hm Hq (Ea & Er & Ed)%writeRow_label.
  unfold writer_inv. rewrite accepted_snoc, received_snoc, dropped_snoc, Ea, Er, Ed, Z.add_0_r, app_nil_r. cbn.
  rewrite Hq in *. assert (k = O) as ->.
  { destruct (decide (k = O)) as [|Hne]; [done|]. destruct (Hstuck Hne) as (_ & ? & _). congruence. }
  split_and!; [done|cbn in Hlen; lia|done|done|]. exists O. split; [|done]. rewrite <- app_assoc. exact Hk.
Qed.

Lemma writer_inv_step cap l w a w' : writer_inv cap l w → step w a w' → writer_inv cap (l ++ [a]) w'.
Proof.
  intros Hinv Hs. pose proof Hinv as (Hcap & Hlen & Hdr & Hstop & k & Hk & Hstuck).
  assert (Hk0 : wr_closed w = false ∨ wr_mode w = Running → k = O).
  { intros Hc. destruct (decide (k = O)) as [?|Hne]; [done|]. destruct (Hstuck Hne) as (E1 & E2 & E3).
    destruct Hc as [Hc|Hc]; congruence. }
  destruct Hs as [row w w' He Hd|row w w' r He Hd|w Hc|w n Hn|w|w r q a Hm Hq Ha|w Hm Hq Hc|w n Hm Hn|w r q a Hm Hq Ha|w a Hm Hq Hc Ha|w Hm Hq Hc].
  6, 9: eapply writer_inv_receive; eauto; congruence.
  all: unfold writer_inv; rewrite accepted_snoc, received_snoc, dropped_snoc.
  all: try (rewrite Z.add_0_r, !app_nil_r; cbn).
  - apply enqueue_accept in He as (Hc & Hl & ->); [|done]. cbn. rewrite (Hk0 (or_introl Hc)) in Hk.
    cbn in Hk. split_and!; [done|rewrite length_app; cbn; lia|done|intros E; destruct (Hstop E); congruence|].
    exists O. cbn. rewrite !app_nil_r in *. rewrite app_assoc, Hk. done.
  - apply enqueue_drop in He as [He Hn]; [|done]. rewrite He. cbn. rewrite !app_nil_r.
    split_and!; [done|done|rewrite Hn, Hdr; apply wrap64_wrap64_add|done|eauto].
  - split_and!; try done. exists k. split; [done|]. intros Hne. destruct (Hne (Hk0 (or_introl Hc))).
  - eauto 10.
  - split_and!; [done|done|done|naive_solver|]. exists k. split; [done|].
    intros Hne. destruct (Hstuck Hne) as (? & ? & ?). done.
  - split_and!; [done|done|done|done|]. exists k. rewrite (Hk0 ltac:(auto)) in *. done.
  - split_and!; [done|done|done|done|]. exists k. rewrite (Hk0 ltac:(auto)) in *. done.
  - apply writeRow_label in Ha as (-> & -> & ->). rewrite Z.add_0_r, Hq in *. rewrite !app_nil_r in *.
    split_and!; [done|done|done|naive_solver|]. exists (S k). split; [|done].
    rewrite Hk, <- app_assoc, <- replicate_cons_app. done.
  - split_and!; [done|done|done|done|]. exists k. rewrite (Hk0 ltac:(auto)) in *. done.
Qed.

Lemma writer_inv_steps cap l w : steps (newWriter cap) l w → writer_inv cap l w.
Proof.
  intros Hs. remember (newWriter cap) as w0 eqn:E. induction Hs as [w|w l w1 a w2 Hs IH Ha].
  - subst. unfold writer_inv. cbn. split_and!; [done|lia|done|done|]. by exists O.
  - eapply writer_inv_step; eauto.
Qed.

(** C22: the audit writer, in every interleaving of callers and the writing
    goroutine, with a store that may refuse any row: the rows taken for
    writing followed by the rows still buffered are the accepted rows in the
    order they were accepted, none skipped and none repeated; the rows stored
    are the rows taken less those [AppendAudit] refused, in order, and a
    refused row is not tried again; the buffer never exceeds its capacity,
    [dropped] counts every row [Record] turned away, and a stopped writer has
    tried every accepted row. The only other state is a flush caught by
    [Close], which has tried every accepted row and then zero rows. *)
Theorem writer_fifo cap l w :
  steps (newWriter cap) l w →
  (length (wr_ch w) ≤ cap)%nat ∧ wr_dropped w = wrap64 (dropped l) ∧
  wrote l `sublist_of` received l ∧ received l ≡ₚ wrote l ++ failed l ∧
  (wr_mode w = Stopped → received l = accepted l) ∧
  (received l ++ wr_ch w = accepted l ∨
   flush_stuck w ∧ ∃ k, received l = accepted l ++ replicate k zero_AuditRow).
Proof.
  intros (Hcap & Hlen & Hdr & Hstop & k & Hk & Hstuck)%writer_inv_steps.
  assert (Hcases : received l ++ wr_ch w = accepted l ∨ flush_stuck w ∧ ∃ k, received l = accepted l ++ replicate k zero_AuditRow).
  { destruct k as [|k]; [left; by rewrite app_nil_r in Hk|right]. specialize (Hstuck ltac:(done)).
    split; [done|]. exists (S k). destruct Hstuck as (_ & Hc & _). by rewrite Hc, app_nil_r in Hk. }
  destruct (wrote_received l) as [Hsub Hperm].
  split_and!; [done|done|done|done| |done]. intros Hm. destruct (Hstop Hm) as [Hc _].
  destruct Hcases as [E|[(E & _) _]]; [by rewrite Hc, app_nil_r in E|congruence].
Qed.

Definition ex_row : AuditRow := {| zero_AuditRow with ar_ID := "r1"; ar_TenantID := "t1" |}.
Definition ex_row2 : AuditRow := {| zero_AuditRow with ar_ID := "r2"; ar_TenantID := "t1" |}.

(** A writer of capacity two with the given buffer. *)
Definition ex_writer (ch : list AuditRow) (closed : bool) (dr : Z) (mode : run_mode) : Writer :=
  {| wr_ch := ch; wr_cap := 2; wr_closed := closed; wr_dropped := dr; wr_flushers := 0; wr_mode := mode |}.

(** Two rows accepted, a third turned away, the first refused by the store and
    the second stored, then a close and the goroutine's exit. *)
Definition ex_fail_run : list label :=
  [Accepted ex_row; Accepted ex_row2; Dropped; Failed ex_row; Tau; Wrote ex_row2; Tau].

Lemma ex_fail_steps : steps (newWriter 2) ex_fail_run (ex_writer [] true 1 Stopped).
Proof.
  unfold ex_fail_run.
  apply (steps_snoc _ [_; _; _; _; _; _] (ex_writer [] true 1 Running)); [|by apply (step_exit (ex_writer [] true 1 Running))].
  apply (steps_snoc _ [_; _; _; _; _] (ex_writer [ex_row2] true 1 Running));
    [|eapply (step_recv (ex_writer [ex_row2] true 1 Running)); [done|done|constructor]].
  apply (steps_snoc _ [_; _; _; _] (ex_writer [ex_row2] false 1 Running)); [|apply (step_close (ex_writer [ex_row2] false 1 Running))].
  apply (steps_snoc _ [_; _; _] (ex_writer [ex_row; ex_row2] false 1 Running));
    [|eapply (step_recv (ex_writer [ex_row; ex_row2] false 1 Running)); [done|done|constructor]].
  apply (steps_snoc _ [_; _] (ex_writer [ex_row; ex_row2] false 0 Running));
    [|by apply (step_drop ex_row (ex_writer [ex_row; ex_row2] false 0 Running) _ (Ok ()))].
  apply (steps_snoc _ [_] (ex_writer [ex_row] false 0 Running)); [|by apply (step_accept ex_row2 (ex_writer [ex_row] false 0 Running))].
  apply (steps_snoc _ [] (newWriter 2)); [constructor|]. by apply (step_accept ex_row (newWriter 2)).
Qed.

Lemma writer_fifo_witness :
  steps (newWriter 2) ex_fail_run (ex_writer [] true 1 Stopped) ∧
  received ex_fail_run = accepted ex_fail_run ∧ accepted ex_fail_run = [ex_row; ex_row2] ∧
  wrote ex_fail_run = [ex_row2] ∧ failed ex_fail_run = [ex_row] ∧ wrap64 (dropped ex_fail_run) = 1.
Proof.
  destruct (writer_fifo 2 ex_fail_run _ ex_fail_steps) as (_ & Hd & _ & _ & Hs & _).
  split; [exact ex_fail_steps|]. split; [exact (Hs eq_refl)|]. split; [reflexivity|].
  split; [reflexivity|]. split; [reflexivity|exact (eq_sym Hd)].
Defined.

(** A run that accepts a row, starts a flush and is closed during it. *)
Definition ex_flush_run : list label := [Accepted ex_row; Tau; Tau; Tau; Wrote ex_row].

Lemma ex_flush_steps : steps (newWriter 4) ex_flush_run
  {| wr_ch := []; wr_cap := 4; wr_closed := true; wr_dropped := 0; wr_flushers := 0; wr_mode := Flushing |}.
Proof.
  unfold ex_flush_run.
  apply (steps_snoc _ [_; _; _; _] {| wr_ch := [ex_row]; wr_cap := 4; wr_closed := true; wr_dropped := 0; wr_flushers := 0; wr_mode := Flushing |});
    [|eapply (step_drain {| wr_ch := [ex_row]; wr_cap := 4; wr_closed := true; wr_dropped := 0; wr_flushers := 0; wr_mode := Flushing |}); [done|done|constructor]].
  apply (steps_snoc _ [_; _; _] {| wr_ch := [ex_row]; wr_cap := 4; wr_closed := false; wr_dropped := 0; wr_flushers := 0; wr_mode := Flushing |});
    [|apply (step_close {| wr_ch := [ex_row]; wr_cap := 4; wr_closed := false; wr_dropped := 0; wr_flushers := 0; wr_mode := Flushing |})].
  apply (steps_snoc _ [_; _] {| wr_ch := [ex_row]; wr_cap := 4; wr_closed := false; wr_dropped := 0; wr_flushers := 1; wr_mode := Running |});
    [|by apply (step_flush_recv {| wr_ch := [ex_row]; wr_cap := 4; wr_closed := false; wr_dropped := 0; wr_flushers := 1; wr_mode := Running |} 0)].
  apply (steps_snoc _ [_] {| wr_ch := [ex_row]; wr_cap := 4; wr_closed := false; wr_dropped := 0; wr_flushers := 0; wr_mode := Running |});
    [|by apply (step_flush_call {| wr_ch := [ex_row]; wr_cap := 4; wr_closed := false; wr_dropped := 0; wr_flushers := 0; wr_mode := Running |})].
  apply (steps_snoc _ [] (newWriter 4)); [constructor|]. by apply (step_accept ex_row (newWriter 4)).
Qed.

Lemma flush_stuck_step w a w' :
  flush_stuck w → step w a w' → flush_stuck w' ∧ (a = Tau ∨ a = Dropped ∨ writeRow zero_AuditRow a).
Proof.
  intros (Hm & Hq & Hc) Hs. unfold flush_stuck. destruct Hs; cbn; try congruence; try (by split_and!; auto).
  - apply enqueue_accept in H as (? & _); [congruence|done].
  - apply enqueue_drop in H as [H _]; [|done]. rewrite H. cbn. split_and!; auto.
Qed.

(** C40: a [Close] that comes while a flush is draining leaves the writer in a
    loop: the drain receives zero rows from the closed channel for ever, every
    further row it takes and every further row it stores is a zero row and the
    goroutine never stops. *)
Theorem flush_close_livelock :
  ∃ l w, steps (newWriter 4) l w ∧ flush_stuck w ∧ step w (Wrote zero_AuditRow) w ∧
    ∀ l' w', steps w l' w' → wr_mode w' = Flushing ∧ Forall (λ r, r = zero_AuditRow) (received l') ∧
      Forall (λ r, r = zero_AuditRow) (wrote l').
Proof.
  eexists _, _. split; [exact ex_flush_steps|]. split; [done|]. split; [apply step_drain_closed; [done..|constructor]|].
  intros l' w' Hs. assert (flush_stuck w' ∧ Forall (λ r, r = zero_AuditRow) (received l')) as [(? & _) Hf].
  { match type of Hs with steps ?w0 _ _ => assert (Hst : flush_stuck w0) by done; generalize dependent w0 end.
    intros w0 Hs Hst. induction Hs as [w|w l w1 a w2 Hs IH Ha]; [by split|].
    destruct (IH Hst) as [Hst1 Hf]. destruct (flush_stuck_step _ _ _ Hst1 Ha) as [Hst2 Hcase].
    split; [done|]. rewrite received_snoc. apply Forall_app_2; [done|].
    destruct Hcase as [->|[->|Hw]]; [constructor..|]. destruct Hw; repeat constructor. }
  split_and!; [done|done|]. by eapply Forall_sublist, Hf; first apply wrote_received.
Qed.
