(* ===== verification/Subnets.v ===== *)
(** * internal/subnets: the subnet service

    CRUD over a tenant's CIDR blocks with the validation that precedes a write
    (derived fields, gateway, overlap and nesting), splitting, the tree, the
    capacity rollup and the SNMP credential status.  The walks up the parent
    chain take fuel; [size byID + 2] rounds are enough because each round but
    the last two visits a new stored subnet. *)

From Stdlib Require DecimalZ.
From S2P Require Import Prelude GoNet GoIP Ipnet Models Store MemNet MemScan Authz Forest Snmpcred AuditLog.

Definition mapErr (e : error) : error :=
  match e with
  | ErrNotFound => Subnets_ErrNotFound
  | ErrNotEmpty => Subnets_ErrNotEmpty
  | _ => e
  end.

Definition validation {A} (fmt : string) (args : list string) : result error A :=
  Err (ValidationError "subnets" fmt (AnyString <$> args)).

(** ** Field validation *)

Definition dropLegacySNMP (s : Subnet) : Subnet :=
  {| s with sn_SNMPSecretRef := ""; sn_SNMPVersion := 0; sn_SNMP := None |}.

Definition deriveCIDR (sub : Subnet) : result error Subnet :=
  match Parse (sn_CIDR sub) with
  | Err _ => validation "invalid cidr %q" [sn_CIDR sub]
  | Ok info =>
      Ok {| sub with sn_NetworkAddress := IP_String (Network info);
            sn_BroadcastAddr := IP_String (Broadcast info);
            sn_Mask := IP_String (Mask info);
            sn_PrefixLength := PrefixLen info;
            sn_IPVersion := Version info;
            sn_TotalAddresses := Total info |}
  end.

Definition checkGateway (cidr gateway : string) : result error () :=
  if is_empty gateway then Ok ()
  else match GatewayInRange cidr gateway with
       | Ok true => Ok ()
       | _ => validation "gateway %q not in range of %q" [gateway; cidr]
       end.

(** ** Nesting and overlap *)

Section nesting.
Context (byID : gmap string Subnet).

Definition parentID_of (id : string) : string := sn_ParentID (default zero_Subnet (byID !! id)).

(** [for id := parentID; id != "" && !out[id]; id = byID[id].ParentID]. *)
Fixpoint above (fuel : nat) (id : string) (out : gset string) : gset string :=
  match fuel with
  | O => out
  | S fuel' =>
      if is_empty id || bool_decide (id ∈ out) then out
      else above fuel' (parentID_of id) ({[id]} ∪ out)
  end.

(** [for p := sub.ParentID; p != "" && !seen[p]; p = byID[p].ParentID]. *)
Fixpoint below (fuel : nat) (selfID p : string) (seen : gset string) : bool :=
  match fuel with
  | O => false
  | S fuel' =>
      if is_empty p || bool_decide (p ∈ seen) then false
      else if p =s selfID then true
      else below fuel' selfID (parentID_of p) ({[p]} ∪ seen)
  end.

Definition walk_fuel : nat := size byID + 2.

(** The ids the loop over [byID] marks. *)
Definition all_below (selfID : string) : gset string :=
  list_to_set (fst <$> List.filter (λ kv, below walk_fuel selfID (sn_ParentID (snd kv)) ∅) (map_to_list byID)).

Definition nestedWith (cidr selfID parentID : string) : result error (gset string) :=
  let* out :=
    if is_empty parentID then Ok ∅
    else match byID !! parentID with
         | None => validation "parent subnet %s not found" [parentID]
         | Some parent =>
             if negb (Within cidr (sn_CIDR parent))
             then validation "cidr %q is not inside parent %s" [cidr; sn_CIDR parent]
             else Ok (above walk_fuel parentID ∅)
         end in
  if is_empty selfID then Ok out
  else Ok (out ∪ all_below selfID).
End nesting.

(** The first stored block the new one collides with. *)
Definition collides (cidr selfID : string) (nested : gset string) (ex : Subnet) : bool :=
  negb (sn_ID ex =s selfID) && negb (is_empty (sn_CIDR ex)) && negb (bool_decide (sn_ID ex ∈ nested)) &&
  match Overlaps cidr (sn_CIDR ex) with Ok b => b | Err _ => false end.

Definition index_by_id (l : list Subnet) : gmap string Subnet :=
  foldl (λ (acc : gmap string Subnet) s, <[sn_ID s := s]> acc) ∅ l.

Definition checkOverlap (tenantID cidr selfID parentID : string) : M () :=
  existing ← AllSubnetCIDRs tenantID;
  nested ← lift (nestedWith (index_by_id existing) cidr selfID parentID);
  match find_first (collides cidr selfID nested) existing with
  | Some ex => lift (validation "cidr %q overlaps existing subnet %s (%s)" [cidr; sn_ID ex; sn_CIDR ex])
  | None => mret ()
  end.

(** ** Reading *)

Definition fill (tenantID : string) (sub : Subnet) : M Subnet :=
  let total := match Parse (sn_CIDR sub) with Ok info => Total info | Err _ => 0 end in
  r ← try (CountAddressesInSubnet tenantID (sn_ID sub));
  let used := match r with Ok n => n | Err _ => 0 end in
  let avail := wrap64 (total - used) in
  mret {| sub with sn_TotalAddresses := total; sn_UsedAddresses := used;
          sn_AvailableAddresses := if 0 <? avail then avail else 0;
          sn_Utilization := Utilization used total |}.

Fixpoint fill_all (tenantID : string) (subs : list Subnet) : M (list Subnet) :=
  match subs with
  | [] => mret []
  | s :: rest => s' ← fill tenantID s; rest' ← fill_all tenantID rest; mret (s' :: rest')
  end.

Definition SNMPIndex (tenantID : string) : M Index :=
  subs ← AllSubnetCIDRs tenantID;
  rows_ ← ListSubnetSNMP tenantID;
  mret (NewIndex subs rows_).

Definition show_snmp (idx : Index) (sub : Subnet) : Subnet :=
  let eff := fst (Effective idx (sn_ID sub)) in
  {| sub with sn_SNMP := Some eff; sn_SNMPVersion := sm_Version eff; sn_SNMPSecretRef := "" |}.

Definition withSNMP (tenantID : string) (subs : list Subnet) : M (list Subnet) :=
  idx ← SNMPIndex tenantID; mret (show_snmp idx <$> subs).

Definition Get (subj : Subjects) (id : string) : M Subnet :=
  lift (RequireTenant subj (su_TenantID subj));;
  sub ← catch_map mapErr (GetSubnet (su_TenantID subj) id);
  sub' ← fill (su_TenantID subj) sub;
  idx ← SNMPIndex (su_TenantID subj);
  mret (show_snmp idx sub').

Record Stats : Type := {
  st_TotalSubnets : Z;
  st_TotalAddresses : Z;
  st_UsedAddresses : Z;
  st_AvailableAddresses : Z;
  st_ReservedAddresses : Z;
  st_Utilization : SpecFloat.spec_float
}.

Record SNMPOwn : Type := {
  so_Version : Z;
  so_SecurityLevel : string;
  so_AuthProtocol : string;
  so_PrivProtocol : string;
  so_Weak : bool;
  so_UpdatedBy : string;
  so_UpdatedAt : Time
}.

(** The credential status shown to callers: metadata only, never a blob. *)
Record SNMPStatus : Type := {
  sns_Own : option SNMPOwn;
  sns_Effective : SNMPSummary
}.

Record SplitResult : Type := {
  sp_Parent : Subnet;
  sp_Created : list Subnet;
  sp_Skipped : list (string * string)   (* the block and the block it overlaps *)
}.

Definition overlapsAny (block parentID : string) (existing : list Subnet) : option string :=
  sn_CIDR <$> find_first (λ ex, negb ((sn_ID ex =s parentID) || is_empty (sn_CIDR ex)) &&
                                match Overlaps block (sn_CIDR ex) with Ok b => b | Err _ => false end) existing.

Section with_env.
Context `{Env} (sealer : option Sealer).

Definition List_ (subj : Subjects) (f : SubnetFilter) : M (list Subnet) :=
  lift (RequireTenant subj (su_TenantID subj));;
  subs ← ListSubnets (su_TenantID subj) f;
  subs' ← fill_all (su_TenantID subj) subs;
  withSNMP (su_TenantID subj) subs'.

(** ** Writing *)

Definition Create (subj : Subjects) (in_ : Subnet) (allowOverlap : bool) : M Subnet :=
  lift (RequireTenant subj (su_TenantID subj));;
  let s0 := dropLegacySNMP {| in_ with sn_TenantID := su_TenantID subj |} in
  if is_empty (sn_Name s0) then lift (validation "name required" [])
  else
    s1 ← lift (deriveCIDR s0);
    lift (checkGateway (sn_CIDR s1) (sn_Gateway s1));;
    (if allowOverlap then mret () else checkOverlap (su_TenantID subj) (sn_CIDR s1) "" (sn_ParentID s1));;
    id ← (if is_empty (sn_ID s1) then newID else mret (sn_ID s1));
    at_ ← (if IsZero (sn_CreatedAt s1) then now else mret (sn_CreatedAt s1));
    catch_map mapErr (CreateSubnet {| s1 with sn_ID := id; sn_Status := default_str (sn_Status s1) SubnetActive;
      sn_CreatedBy := default_str (sn_CreatedBy s1) (ActorID subj); sn_CreatedAt := at_ |});;
    Get subj id.

Definition Update (subj : Subjects) (in_ : Subnet) (allowOverlap : bool) : M Subnet :=
  lift (RequireTenant subj (su_TenantID subj));;
  let s0 := dropLegacySNMP {| in_ with sn_TenantID := su_TenantID subj |} in
  ex ← catch_map mapErr (GetSubnet (su_TenantID subj) (sn_ID s0));
  s1 ← lift (deriveCIDR {| s0 with sn_Name := default_str (sn_Name s0) (sn_Name ex);
                           sn_CIDR := default_str (sn_CIDR s0) (sn_CIDR ex) |});
  lift (checkGateway (sn_CIDR s1) (sn_Gateway s1));;
  (if allowOverlap then mret () else checkOverlap (su_TenantID subj) (sn_CIDR s1) (sn_ID s1) (sn_ParentID s1));;
  catch_map mapErr (UpdateSubnet {| s1 with sn_CreatedBy := sn_CreatedBy ex; sn_CreatedAt := sn_CreatedAt ex;
    sn_Status := default_str (sn_Status s1) (sn_Status ex) |});;
  Get subj (sn_ID s1).

Definition Delete (subj : Subjects) (id : string) (force : bool) : M () :=
  lift (RequireTenant subj (su_TenantID subj));;
  (if force then mret ()
   else n ← CountAddressesInSubnet (su_TenantID subj) id;
        if 0 <? n then throw Subnets_ErrNotEmpty else mret ());;
  catch_map mapErr (DeleteSubnet (su_TenantID subj) id force).

(** ** Splitting *)

Definition dash : string := String "226" (String "128" (String "148" "")).


(** The child of one block. *)
Definition split_child (parent : Subnet) (block : string) (i n : nat) : Subnet :=
  {| zero_Subnet with sn_Name := sn_Name parent +:+ " " +:+ dash +:+ " " +:+ block; sn_CIDR := block;
     sn_Description := "split " +:+ Z_text (Z.of_nat i + 1) +:+ " of " +:+ Z_text (Z.of_nat n) +:+ " from " +:+ sn_CIDR parent;
     sn_ParentID := sn_ID parent; sn_VlanID := sn_VlanID parent; sn_LocationID := sn_LocationID parent;
     sn_Status := SubnetActive |}.

(** The loop over the blocks, from the [i]-th of [n]. *)
Fixpoint split_loop (subj : Subjects) (parent : Subnet) (dryRun : bool) (n i : nat) (blocks : list string)
    (existing : list Subnet) : M (list Subnet * list (string * string)) :=
  match blocks with
  | [] => mret ([], [])
  | block :: rest =>
      match overlapsAny block (sn_ID parent) existing with
      | Some by_ =>
          r ← split_loop subj parent dryRun n (S i) rest existing;
          mret (fst r, (block, by_) :: snd r)
      | None =>
          let child := split_child parent block i n in
          if dryRun then
            child' ← lift (deriveCIDR child);
            r ← split_loop subj parent dryRun n (S i) rest existing;
            mret (child' :: fst r, snd r)
          else
            created ← Create subj child true;
            r ← split_loop subj parent dryRun n (S i) rest
                  (existing ++ [{| zero_Subnet with sn_ID := sn_ID created; sn_CIDR := sn_CIDR created |}]);
            mret (created :: fst r, snd r)
      end
  end.

(** The result is reported also when no block was free. *)
Definition Split (subj : Subjects) (id : string) (prefixLen : Z) (dryRun : bool) : M (SplitResult * option error) :=
  parent ← Get subj id;
  match Subdivide (sn_CIDR parent) prefixLen with
  | Err e => throw (ValidationError "subnets" "cannot split %q into /%d: %v"
                      [AnyString (sn_CIDR parent); AnyInt prefixLen])
  | Ok blocks =>
      existing ← AllSubnetCIDRs (su_TenantID subj);
      r ← split_loop subj parent dryRun (length blocks) 0 blocks existing;
      let res := {| sp_Parent := parent; sp_Created := fst r; sp_Skipped := snd r |} in
      mret (res, match fst r with
                 | [] => Some (ValidationError "subnets" "no free /%d block inside %s"
                                 [AnyInt prefixLen; AnyString (sn_CIDR parent)])
                 | _ => None
                 end)
  end.

(** ** Tree and rollup *)

Definition GetTree (subj : Subjects) : M (list (tree (A := Subnet))) :=
  subs ← List_ subj zero_SubnetFilter;
  mret (forest sn_ID sn_ParentID subs).

(** The accumulation loop of [GetStats]. *)
Fixpoint sum_subnets (tenantID : string) (subs : list Subnet) (st : Stats) : M Stats :=
  match subs with
  | [] => mret st
  | sub :: rest =>
      let total := match Parse (sn_CIDR sub) with Ok info => Total info | Err _ => 0 end in
      used ← CountAddressesInSubnet tenantID (sn_ID sub);
      sum_subnets tenantID rest
        {| st with st_TotalSubnets := wrap64 (st_TotalSubnets st + 1);
           st_TotalAddresses := wrap64 (st_TotalAddresses st + total);
           st_UsedAddresses := wrap64 (st_UsedAddresses st + used) |}
  end.

Definition zero_Stats : Stats :=
  {| st_TotalSubnets := 0; st_TotalAddresses := 0; st_UsedAddresses := 0; st_AvailableAddresses := 0;
     st_ReservedAddresses := 0; st_Utilization := SpecFloat.S754_zero false |}.

Definition reserved_filter : AddressFilter := {| zero_AddressFilter with af_Status := IPReserved |}.

Definition GetStats (subj : Subjects) : M Stats :=
  lift (RequireTenant subj (su_TenantID subj));;
  subs ← ListSubnets (su_TenantID subj) zero_SubnetFilter;
  st ← sum_subnets (su_TenantID subj) subs zero_Stats;
  reserved ← ListAddresses (su_TenantID subj) reserved_filter;
  let avail := wrap64 (st_TotalAddresses st - st_UsedAddresses st) in
  mret {| st with st_ReservedAddresses := Z.of_nat (length reserved);
          st_AvailableAddresses := if 0 <? avail then avail else 0;
          st_Utilization := Utilization (st_UsedAddresses st) (st_TotalAddresses st) |}.

(** ** SNMP credentials (snmp.go) *)

Definition GetSNMP (subj : Subjects) (subnetID : string) : M SNMPStatus :=
  lift (RequireTenant subj (su_TenantID subj));;
  catch_map mapErr (GetSubnet (su_TenantID subj) subnetID);;
  idx ← SNMPIndex (su_TenantID subj);
  mret {| sns_Own := (λ r, {| so_Version := ss_Version r; so_SecurityLevel := ss_SecurityLevel r;
            so_AuthProtocol := ss_AuthProtocol r; so_PrivProtocol := ss_PrivProtocol r;
            so_Weak := Meta_Weak (MetaOf r); so_UpdatedBy := ss_UpdatedBy r; so_UpdatedAt := ss_UpdatedAt r |})
            <$> Own idx subnetID;
          sns_Effective := fst (Effective idx subnetID) |}.

(** The audit row of a credential change; an invalid event gives the zero row. *)
Definition snmpAudit (subj : Subjects) (t : EventType) (subnetID : string) (detail : list (string * any)) : M AuditRow :=
  at_ ← now;
  r ← Row {| e_TenantID := su_TenantID subj; e_EventType := t; e_ActorKind := ActorUser; e_ActorID := ActorID subj;
             e_SubjectKind := SubjectSubnet; e_SubjectID := subnetID; e_Target := ""; e_Outcome := OutcomeOK;
             e_Reason := ""; e_Details := detail |} at_;
  mret match r with Ok row => row | Err _ => zero_AuditRow end.

Definition SetSNMP (subj : Subjects) (subnetID : string) (in_ : Input) : M SNMPStatus :=
  lift (RequireTenant subj (su_TenantID subj));;
  lift (map_err (λ e, Snmpcred_FieldError (fe_Field e) (fe_Msg e)) (Snmpcred.Validate in_));;
  let tid := su_TenantID subj in
  catch_map mapErr (GetSubnet tid subnetID);;
  prev ← try (GetSubnetSNMP tid subnetID);
  lift match prev with Ok _ | Err ErrNotFound => Ok () | Err e => Err e end;;
  blob ← lift (Seal sealer tid subnetID in_);
  let meta := Input_Meta in_ in
  let detail := [("protocol_version", AnyInt (me_Version meta)); ("security_level", AnyString (me_SecurityLevel meta))] in
  audit ← match prev with
          | Ok p => snmpAudit subj SNMPCredentialsReplaced subnetID (detail ++ [("previous_version", AnyInt (ss_Version p))])
          | Err _ => snmpAudit subj SNMPCredentialsSet subnetID detail
          end;
  catch_map mapErr (PutSubnetSNMP
    {| ss_TenantID := tid; ss_SubnetID := subnetID; ss_Version := me_Version meta;
       ss_SecurityLevel := me_SecurityLevel meta; ss_AuthProtocol := me_AuthProtocol meta;
       ss_PrivProtocol := me_PrivProtocol meta; ss_Sealed := blob; ss_UpdatedBy := ActorID subj;
       ss_UpdatedAt := time_zero |} audit);;
  GetSNMP subj subnetID.

Definition ClearSNMP (subj : Subjects) (subnetID : string) : M () :=
  lift (RequireTenant subj (su_TenantID subj));;
  let tid := su_TenantID subj in
  catch_map mapErr (GetSubnet tid subnetID);;
  prev ← try (GetSubnetSNMP tid subnetID);
  match prev with
  | Err ErrNotFound => mret ()
  | Err e => throw e
  | Ok p =>
      row ← snmpAudit subj SNMPCredentialsCleared subnetID [("previous_version", AnyInt (ss_Version p))];
      r ← try (DeleteSubnetSNMP tid subnetID row);
      match r with Ok _ | Err ErrNotFound => mret () | Err e => throw e end
  end.
End with_env.
