(* ===== verification/SubnetProps.v ===== *)
(** * Correctness of the subnet service

    Which blocks are accepted, what a created subnet guarantees, what a split
    produces and what the tree shows. *)

From S2P Require Import Prelude GoNet GoIP Ipnet IpnetProps Models Store MemNet MemScan MemInv Authz Forest.
From S2P Require Import Snmpcred Subnets.

(** ** The tenant's subnets *)

Definition tenant_subnets (m : Mem) (tenantID : string) : gmap string Subnet :=
  filter (λ kv, (sn_TenantID (snd kv) =s tenantID) = true) (mem_subnets m).

Definition parents_in (byID : gmap string Subnet) : gmap string string := sn_ParentID <$> byID.

Lemma index_lookup l k s :
  NoDup (sn_ID <$> l) → index_by_id l !! k = Some s ↔ s ∈ l ∧ sn_ID s = k.
Proof.
  unfold index_by_id. revert k s. induction l as [|x l IH] using rev_ind; intros k s Hnd.
  { cbn. rewrite lookup_empty. split; [done|]. by intros [?%elem_of_nil _]. }
  rewrite foldl_snoc, fmap_app in *. apply NoDup_app in Hnd as (Hnd & Hx & _).
  rewrite elem_of_app, list_elem_of_singleton.
  destruct (decide (k = sn_ID x)) as [->|Hne].
  - rewrite lookup_insert_eq. split; [intros [= ->]; auto|]. intros [[Hs| ->] E]; [|done].
    exfalso. apply (Hx (sn_ID x)); [|by left]. rewrite <- E. by apply list_elem_of_fmap_2.
  - rewrite lookup_insert_ne, IH by done. naive_solver.
Qed.

Section all_subnets.
Context (m : Mem) (tenantID : string) (Hok : mem_ok m).

Lemma tenant_rows_keys l :
  l ≡ₚ map_select (λ s, sn_TenantID s =s tenantID) (mem_subnets m) → NoDup (sn_ID <$> l).
Proof using Hok.
  intros ->. apply keyed_select_NoDup, (ok_subnets _ Hok).
Qed.

Lemma index_all l :
  l ≡ₚ map_select (λ s, sn_TenantID s =s tenantID) (mem_subnets m) → index_by_id l = tenant_subnets m tenantID.
Proof using Hok.
  intros Hl. apply map_eq. intros k. apply option_eq. intros s.
  rewrite index_lookup by by apply tenant_rows_keys.
  unfold tenant_subnets. rewrite map_lookup_filter_Some, Hl, elem_of_map_select. cbn.
  destruct (ok_subnets _ Hok) as [Hk _]. split.
  - intros ([Ht [k' Hk']] & <-). by rewrite (Hk _ _ Hk') in *.
  - intros [Hs Ht]. split; [eauto|]. by apply Hk.
Qed.
End all_subnets.

Lemma AllSubnetCIDRs_run tenantID w :
  "AllSubnetCIDRs" ∉ mem_failNext (w_mem w) →
  ∃ l, AllSubnetCIDRs tenantID w = (w, Ok l) ∧ l ≡ₚ map_select (λ s, sn_TenantID s =s tenantID) (mem_subnets (w_mem w)).
Proof.
  intros Hn. eexists. split; [|apply paginate_all]. unfold AllSubnetCIDRs, fail, mbind, M_bind, mem.
  rewrite decide_False by done. reflexivity.
Qed.

(** ** The walks *)

Section walks.
Context (byID : gmap string Subnet).

Lemma parentID_of_default id : parentID_of byID id = default ""%string (parents_in byID !! id).
Proof. unfold parentID_of, parents_in. rewrite lookup_fmap. by destruct (byID !! id). Qed.

Lemma above_walk fuel id out : above byID fuel id out = walk (parents_in byID) fuel id out.
Proof.
  revert id out. induction fuel as [|fuel IH]; intros id out; cbn; [done|].
  destruct (is_empty id || bool_decide (id ∈ out)); [done|]. by rewrite IH, parentID_of_default.
Qed.

Lemma walk_mono parents fuel id seen : seen ⊆ walk parents fuel id seen.
Proof.
  revert id seen. induction fuel as [|fuel IH]; intros id seen; cbn; [done|].
  destruct (is_empty id || bool_decide (id ∈ seen)); [done|].
  etrans; [|apply IH]. set_solver.
Qed.

Lemma below_walk fuel selfID p seen :
  selfID ∉ seen → below byID fuel selfID p seen = bool_decide (selfID ∈ walk (parents_in byID) fuel p seen).
Proof.
  revert p seen. induction fuel as [|fuel IH]; intros p seen Hs; cbn [below walk].
  { by rewrite bool_decide_eq_false_2. }
  destruct (is_empty p || bool_decide (p ∈ seen)); [by rewrite bool_decide_eq_false_2|].
  destruct (p =s selfID) eqn:E; bool_hyps.
  - subst. rewrite bool_decide_eq_true_2; [done|]. apply walk_mono. set_solver.
  - rewrite IH by set_solver. by rewrite parentID_of_default.
Qed.

Lemma size_parents : size (parents_in byID) = size byID.
Proof. unfold parents_in. apply map_size_fmap. Qed.

Lemma elem_of_above id x :
  x ∈ above byID (walk_fuel byID) id ∅ ↔ on_chain (parents_in byID) id x.
Proof. unfold walk_fuel. rewrite above_walk, <- size_parents. apply walk_chain. Qed.

Lemma below_true selfID p :
  below byID (walk_fuel byID) selfID p ∅ = true ↔ on_chain (parents_in byID) p selfID.
Proof.
  unfold walk_fuel. rewrite below_walk by set_solver.
  rewrite bool_decide_eq_true, <- size_parents. apply walk_chain.
Qed.

Lemma on_chain_empty parents x : ¬ on_chain parents "" x.
Proof. intros [Hx [[|n] Hn]]; cbn in Hn; [by simplify_eq|done]. Qed.
End walks.

(** ** Which blocks are accepted *)

(** The declared parent exists and strictly contains the block, and every other
    stored block it meets is above its parent or below the row being updated. *)
Definition placeable (byID : gmap string Subnet) (cidr selfID parentID : string) : Prop :=
  (parentID ≠ ""%string → ∃ p, byID !! parentID = Some p ∧ Within cidr (sn_CIDR p) = true) ∧
  ∀ k s, byID !! k = Some s → Overlaps cidr (sn_CIDR s) = Ok true →
    k = selfID ∨ on_chain (parents_in byID) parentID k ∨ on_chain (parents_in byID) (sn_ParentID s) selfID.

Lemma elem_of_all_below byID selfID k s :
  byID !! k = Some s → k ∈ all_below byID selfID ↔ on_chain (parents_in byID) (sn_ParentID s) selfID.
Proof.
  intros Hk. unfold all_below. rewrite elem_of_list_to_set, list_elem_of_fmap. split.
  - intros ([k' s'] & -> & Hin). apply list_elem_of_In, filter_In in Hin as [Hin Hb].
    apply list_elem_of_In, elem_of_map_to_list in Hin. cbn in *. simplify_eq. by apply below_true.
  - intros Hc%below_true. exists (k, s). split; [done|]. apply list_elem_of_In, filter_In. split; [|done].
    by apply list_elem_of_In, elem_of_map_to_list.
Qed.

Definition inside_parent (byID : gmap string Subnet) (cidr parentID : string) : Prop :=
  parentID ≠ ""%string → ∃ p, byID !! parentID = Some p ∧ Within cidr (sn_CIDR p) = true.

Lemma nestedWith_spec byID cidr selfID parentID :
  match nestedWith byID cidr selfID parentID with
  | Ok out => inside_parent byID cidr parentID ∧
      ∀ k s, byID !! k = Some s →
        k ∈ out ↔ on_chain (parents_in byID) parentID k ∨ on_chain (parents_in byID) (sn_ParentID s) selfID
  | Err _ => ¬ inside_parent byID cidr parentID
  end.
Proof.
  unfold nestedWith, inside_parent.
  assert (Hfinish : ∀ out : gset string, (∀ k, k ∈ out ↔ on_chain (parents_in byID) parentID k) →
    ∀ k s, byID !! k = Some s → k ∈ (if is_empty selfID then out else out ∪ all_below byID selfID) ↔
      on_chain (parents_in byID) parentID k ∨ on_chain (parents_in byID) (sn_ParentID s) selfID).
  { intros out Hout k s Hk. destruct (is_empty selfID) eqn:Es.
    - apply is_empty_spec in Es as ->. rewrite Hout. split; [by left|]. intros [?|[? _]]; done.
    - by rewrite elem_of_union, Hout, (elem_of_all_below _ _ _ _ Hk). }
  destruct (is_empty parentID) eqn:Ep.
  - apply is_empty_spec in Ep as ->. specialize (Hfinish ∅).
    assert (H0 : ∀ k, k ∈ (∅ : gset string) ↔ on_chain (parents_in byID) "" k).
    { intros k. rewrite elem_of_empty. split; [done|]. apply on_chain_empty. }
    destruct (is_empty selfID); (split; [done|exact (Hfinish H0)]).
  - assert (Hne : parentID ≠ ""%string) by (intros ->; done).
    destruct (byID !! parentID) as [p|] eqn:E; cbn; [|intros Hp; destruct (Hp Hne) as (? & ? & _); congruence].
    destruct (Within cidr (sn_CIDR p)) eqn:Ew; cbn.
    + specialize (Hfinish (above byID (walk_fuel byID) parentID ∅) (elem_of_above byID parentID)).
      destruct (is_empty selfID); (split; [by eauto|exact Hfinish]).
    + intros Hp. destruct (Hp Hne) as (? & ? & ?). simplify_eq. congruence.
Qed.

Lemma Overlaps_empty cidr : Overlaps cidr "" ≠ Ok true.
Proof. unfold Overlaps. destruct (ParseCIDR _) as [[]|]; [|done]. cbn. done. Qed.

Lemma checkOverlap_spec tenantID cidr selfID parentID w :
  mem_ok (w_mem w) → "AllSubnetCIDRs" ∉ mem_failNext (w_mem w) →
  ∃ r, checkOverlap tenantID cidr selfID parentID w = (w, r) ∧
    (r = Ok () ↔ placeable (tenant_subnets (w_mem w) tenantID) cidr selfID parentID).
Proof.
  intros Hok Hn. unfold checkOverlap. destruct (AllSubnetCIDRs_run tenantID w Hn) as (l & E & Hl).
  rewrite (bind_Ok _ _ _ _ _ E). rewrite (index_all _ _ Hok _ Hl).
  set (byID := tenant_subnets (w_mem w) tenantID).
  assert (Hin : ∀ s, s ∈ l ↔ byID !! sn_ID s = Some s).
  { intros s. unfold byID. rewrite <- (index_all _ _ Hok _ Hl), index_lookup; [tauto|].
    by apply (tenant_rows_keys (w_mem w) tenantID). }
  pose proof (nestedWith_spec byID cidr selfID parentID) as Hnest. unfold placeable.
  change (parentID ≠ ""%string → ∃ p, byID !! parentID = Some p ∧ Within cidr (sn_CIDR p) = true)
    with (inside_parent byID cidr parentID).
  destruct (nestedWith byID cidr selfID parentID) as [nested|e].
  2:{ eexists. split; [reflexivity|]. split; [done|]. intros [Hp _]. done. }
  destruct Hnest as [Hp Hnest].
  assert (Hcol : ∀ s, s ∈ l → collides cidr selfID nested s = true ↔
    Overlaps cidr (sn_CIDR s) = Ok true ∧
    ¬ (sn_ID s = selfID ∨ on_chain (parents_in byID) parentID (sn_ID s) ∨ on_chain (parents_in byID) (sn_ParentID s) selfID)).
  { intros s Hs%Hin. unfold collides. rewrite !andb_true_iff, !negb_true_iff, bool_decide_eq_false, (Hnest _ _ Hs).
    rewrite String.eqb_neq. split.
    - intros [[[Hne _] Hnn] Ho]. split; [|tauto]. by destruct (Overlaps _ _) as [[]|].
    - intros [Ho Hnn]. rewrite Ho. split_and!; [tauto| |tauto|done].
      destruct (is_empty (sn_CIDR s)) eqn:Ee; [|done]. apply is_empty_spec in Ee. rewrite Ee in Ho.
      by apply Overlaps_empty in Ho. }
  unfold mbind, M_bind, lift. destruct (find_first (collides cidr selfID nested) l) as [s|] eqn:Ef.
  - eexists. split; [reflexivity|]. split; [done|]. intros [_ Hall]. exfalso.
    apply find_first_Some in Ef as [Hs Hc]. apply (Hcol _ Hs) in Hc as [Ho Hnn].
    apply Hnn, (Hall (sn_ID s) s); [by apply Hin|done].
  - eexists. split; [reflexivity|]. split; [|done]. intros _. split; [done|]. intros k s Hk Ho.
    assert (Hid : sn_ID s = k).
    { destruct (ok_subnets _ Hok) as [Hkey _]. apply Hkey. unfold byID, tenant_subnets in Hk.
      by apply map_lookup_filter_Some in Hk as [? _]. }
    subst k. assert (Hs : s ∈ l) by by apply Hin.
    pose proof (find_first_None _ _ _ Ef Hs) as Hc.
    destruct (decide (sn_ID s = selfID)) as [?|Hself]; [by left|right].
    destruct (decide (sn_ID s ∈ nested)) as [Hn'|Hn']; [by apply (Hnest _ _ Hk)|].
    exfalso. unfold collides in Hc. rewrite Ho in Hc. apply String.eqb_neq in Hself. rewrite Hself in Hc.
    rewrite bool_decide_eq_false_2 in Hc by done. cbn in Hc.
    destruct (is_empty (sn_CIDR s)) eqn:Ee; [|done]. apply is_empty_spec in Ee. rewrite Ee in Ho.
    by apply Overlaps_empty in Ho.
Qed.

(** C17: the overlap guard: with the tenant's stored subnets, a block is accepted
    exactly when its declared parent exists and strictly contains it and every
    stored block it shares an address with is the row itself, its parent or an
    ancestor of it, or a descendant of the row; the parent walks always end,
    also on cyclic or dangling parents, and the guard writes nothing. *)
Theorem checkOverlap_iff tenantID cidr selfID parentID w :
  mem_ok (w_mem w) → "AllSubnetCIDRs" ∉ mem_failNext (w_mem w) →
  ∃ r, checkOverlap tenantID cidr selfID parentID w = (w, r) ∧
    (r = Ok () ↔ placeable (tenant_subnets (w_mem w) tenantID) cidr selfID parentID).
Proof. apply checkOverlap_spec. Qed.

(** A chain of nested subnets and a world holding it. *)
Definition ex_super : Subnet := {| zero_Subnet with sn_ID := "a"; sn_TenantID := "t1"; sn_Name := "super"; sn_CIDR := "10.0.0.0/8" |}.
Definition ex_middle : Subnet :=
  {| zero_Subnet with sn_ID := "b"; sn_TenantID := "t1"; sn_Name := "middle"; sn_CIDR := "10.1.0.0/16"; sn_ParentID := "a" |}.

Definition ex_nested_world : World :=
  fst (CreateSubnet (H := ex_env) ex_middle (fst (CreateSubnet (H := ex_env) ex_super init_world))).

Lemma ex_nested_ok : mem_ok (w_mem ex_nested_world).
Proof. apply (CreateSubnet_preserves (H := ex_env)), (CreateSubnet_preserves (H := ex_env)), New_ok. Qed.

Lemma ex_nested_unarmed method : method ∉ mem_failNext (w_mem ex_nested_world).
Proof. change (mem_failNext (w_mem ex_nested_world)) with (∅ : gset string). apply not_elem_of_empty. Qed.

Lemma checkOverlap_iff_witness :
  snd (checkOverlap "t1" "10.1.2.0/24" "" "b" ex_nested_world) = Ok () ∧
  ∃ r, checkOverlap "t1" "10.1.2.0/24" "" "b" ex_nested_world = (ex_nested_world, r) ∧
    (r = Ok () ↔ placeable (tenant_subnets (w_mem ex_nested_world) "t1") "10.1.2.0/24" "" "b").
Proof.
  split; [vm_compute; reflexivity|].
  exact (checkOverlap_iff "t1" "10.1.2.0/24" "" "b" ex_nested_world ex_nested_ok (ex_nested_unarmed _)).
Defined.

(** ** Creation *)

Definition with_subnet (m : Mem) (row : Subnet) : Mem :=
  {| m with mem_subnets := <[sn_ID row := row]> (mem_subnets m) |}.

(** The row keeps the columns that place the subnet. *)
Definition placed_as (s row : Subnet) : Prop :=
  sn_VlanID row = sn_VlanID s ∧ sn_LocationID row = sn_LocationID s ∧ sn_Description row = sn_Description s ∧
  sn_Status row = default_str (sn_Status s) SubnetActive.

Section with_env.
Context `{Env}.

Lemma CreateSubnet_inv s w w' u :
  CreateSubnet s w = (w', Ok u) →
  ∃ row, w_mem w' = with_subnet (w_mem w) row ∧
    sn_TenantID row = sn_TenantID s ∧ sn_Name row = sn_Name s ∧ sn_CIDR row = sn_CIDR s ∧
    sn_Gateway row = sn_Gateway s ∧ sn_ParentID row = sn_ParentID s ∧
    sn_NetworkAddress row = sn_NetworkAddress s ∧ sn_BroadcastAddr row = sn_BroadcastAddr s ∧
    sn_PrefixLength row = sn_PrefixLength s ∧ sn_SNMPSecretRef row = sn_SNMPSecretRef s ∧
    (sn_ID s ≠ ""%string → sn_ID row = sn_ID s) ∧
    (∀ k o, mem_subnets (w_mem w) !! k = Some o → sn_TenantID o = sn_TenantID s → sn_Name o ≠ sn_Name s) ∧
    placed_as s row.
Proof.
  unfold CreateSubnet. intros Hrun. m_inv.
  destruct (map_any _ (mem_subnets (w_mem w))) eqn:Edup; [by m_inv|].
  pose proof (proj1 (map_any_false _ _) Edup) as Hdup.
  apply bind_inv in Hrun as (w1 & id & Hid & Hrun). apply bind_inv in Hrun as (w2 & t & Ht & Hrun).
  apply now_inv in Ht as [Hw2 _]. apply set_mem_inv in Hrun as [Hmem _].
  assert (Hw1 : w_mem w1 = w_mem w ∧ (sn_ID s ≠ ""%string → id = sn_ID s)).
  { destruct (is_empty (sn_ID s)) eqn:Ee.
    - apply newID_inv in Hid as (? & _). split; [done|]. apply is_empty_spec in Ee. done.
    - apply ret_inv in Hid as [-> ->]. done. }
  destruct Hw1 as [Hw1 Hideq]. rewrite Hw2, Hw1 in Hmem.
  eexists. split; [exact Hmem|]. cbn. split_and!; try done.
  intros k o Hk Ht Hname. specialize (Hdup k o Hk). cbn in Hdup. by rewrite Ht, Hname, !String.eqb_refl in Hdup.
Qed.

Lemma checkOverlap_inv tenantID cidr selfID parentID w w' u :
  mem_ok (w_mem w) → checkOverlap tenantID cidr selfID parentID w = (w', Ok u) →
  w' = w ∧ placeable (tenant_subnets (w_mem w) tenantID) cidr selfID parentID.
Proof.
  intros Hok Hrun. destruct (decide ("AllSubnetCIDRs" ∈ mem_failNext (w_mem w))) as [Ha|Ha].
  - exfalso. unfold checkOverlap, AllSubnetCIDRs, fail, mbind, M_bind, mem in Hrun.
    rewrite decide_True in Hrun by done. done.
  - destruct (checkOverlap_spec tenantID cidr selfID parentID w Hok Ha) as (r & E & Hr).
    rewrite E in Hrun. injection Hrun as <- ->. split; [done|]. apply Hr. by destruct u.
Qed.

Lemma Get_inv subj id w w' s : Get subj id w = (w', Ok s) → w' = w.
Proof.
  unfold Get, fill, SNMPIndex. intros Hrun. m_inv.
  unfold GetSubnet in *. m_inv. destruct (mem_subnets (w_mem _) !! id); [|by m_inv].
  destruct (sn_TenantID _ =s _); [|by m_inv]. m_inv.
  unfold CountAddressesInSubnet in *. m_inv. unfold ListSubnetSNMP, AllSubnetCIDRs in *. m_inv.
  match goal with H : (mem ≫= _) w = _ |- _ => by injection H end.
Qed.
Lemma NewID_nonempty b ms : NewID b ms ≠ ""%string.
Proof. unfold NewID. by destruct (hex_bytes [ms / 2 ^ 40 mod 256; ms / 2 ^ 32 mod 256; ms / 2 ^ 24 mod 256; ms / 2 ^ 16 mod 256]). Qed.

Lemma Get_shows subj id w w' s :
  Get subj id w = (w', Ok s) →
  w' = w ∧ ∃ row, mem_subnets (w_mem w) !! id = Some row ∧ sn_TenantID row = su_TenantID subj ∧
    sn_ID s = sn_ID row ∧ sn_CIDR s = sn_CIDR row ∧
    sn_Name s = sn_Name row ∧ sn_VlanID s = sn_VlanID row ∧ sn_LocationID s = sn_LocationID row.
Proof.
  intros Hrun. pose proof (Get_inv _ _ _ _ _ Hrun) as ->. split; [done|].
  unfold Get, fill, SNMPIndex in Hrun. m_inv.
  unfold GetSubnet in *. m_inv. destruct (mem_subnets (w_mem _) !! id) as [row|] eqn:E; [|by m_inv].
  destruct (sn_TenantID row =s _) eqn:Et; [|by m_inv]. bool_hyps. m_inv. exists row.
  by split_and!.
Qed.
(** Everything a successful creation establishes. *)
Lemma Create_inv subj in_ allowOverlap w w' s :
  mem_ok (w_mem w) → Create subj in_ allowOverlap w = (w', Ok s) →
  ∃ row info, w_mem w' = with_subnet (w_mem w) row ∧
    sn_TenantID row = su_TenantID subj ∧ sn_Name row = sn_Name in_ ∧ sn_CIDR row = sn_CIDR in_ ∧
    sn_ParentID row = sn_ParentID in_ ∧
    Parse (sn_CIDR in_) = Ok info ∧ sn_NetworkAddress row = IP_String (Network info) ∧
    sn_BroadcastAddr row = IP_String (Broadcast info) ∧ sn_PrefixLength row = PrefixLen info ∧
    (sn_Gateway row = ""%string ∨ GatewayInRange (sn_CIDR in_) (sn_Gateway row) = Ok true) ∧
    (allowOverlap = false → placeable (tenant_subnets (w_mem w) (su_TenantID subj)) (sn_CIDR in_) "" (sn_ParentID in_)) ∧
    (∀ k o, mem_subnets (w_mem w) !! k = Some o → sn_TenantID o = su_TenantID subj → sn_Name o ≠ sn_Name in_) ∧
    sn_ID s = sn_ID row ∧ sn_CIDR s = sn_CIDR in_ ∧ placed_as in_ row.
Proof.
  intros Hok Hrun. unfold Create in Hrun. m_inv_step. m_inv. cbn [sn_Name dropLegacySNMP] in Hrun.
  destruct (is_empty (sn_Name in_)) eqn:En; [by m_inv|].
  apply bind_inv in Hrun as (w1 & s1 & Hs1 & Hrun). apply lift_inv in Hs1 as [-> Hs1].
  apply bind_inv in Hrun as (w2 & [] & Hgw & Hrun). apply lift_inv in Hgw as [-> Hgw].
  apply bind_inv in Hrun as (w3 & [] & Hov & Hrun).
  apply bind_inv in Hrun as (w4 & id & Hid & Hrun). apply bind_inv in Hrun as (w5 & at_ & Hat & Hrun).
  apply bind_inv in Hrun as (w6 & [] & Hcs & Hget). apply catch_map_inv, CreateSubnet_inv in Hcs.
  apply Get_shows in Hget as (-> & shown & Hshown & _ & HsID & HsC & _).
  unfold deriveCIDR in Hs1. cbn [sn_CIDR dropLegacySNMP] in Hs1.
  destruct (Parse (sn_CIDR in_)) as [info|e] eqn:Ep; [|done]. injection Hs1 as <-. cbn in *.
  assert (Hpl : w3 = w ∧ (allowOverlap = false →
      placeable (tenant_subnets (w_mem w) (su_TenantID subj)) (sn_CIDR in_) "" (sn_ParentID in_))).
  { destruct allowOverlap; [by apply ret_inv in Hov as [-> _]|].
    apply checkOverlap_inv in Hov as [-> Hpl]; [|done]. done. }
  destruct Hpl as [-> Hpl].
  assert (E4 : w_mem w4 = w_mem w ∧ id ≠ ""%string).
  { destruct (is_empty (sn_ID in_)) eqn:Ei.
    - apply newID_inv in Hid as (? & -> & _). split; [done|]. apply NewID_nonempty.
    - apply ret_inv in Hid as [-> ->]. split; [done|]. intros E. apply is_empty_spec in E. congruence. }
  assert (E5 : w_mem w5 = w_mem w4).
  { destruct (IsZero (sn_CreatedAt in_)); [by apply now_inv in Hat as [? _]|by apply ret_inv in Hat as [-> _]]. }
  destruct E4 as [E4 Hne]. rewrite E5, E4 in Hcs.
  destruct Hcs as (row & Hmem & Ht & Hn & Hc & Hg & Hp & Hnet & Hbc & Hpre & _ & Hrid & Hnames & Hplaced).
  cbn in *. specialize (Hrid Hne). rewrite Hmem in Hshown. cbn in Hshown. rewrite Hrid, lookup_insert_eq in Hshown.
  injection Hshown as <-. exists row, info. split_and!; try done; [|congruence|].
  2:{ unfold placed_as in *. cbn in Hplaced. destruct (sn_Status in_); naive_solver. }
  rewrite Hg. unfold checkGateway in Hgw. destruct (is_empty (sn_Gateway in_)) eqn:Eg.
  - left. by apply is_empty_spec.
  - right. by destruct (GatewayInRange _ _) as [[]|].
Qed.

(** C28: a created subnet: when [Create] accepts a block without the overlap
    option, exactly one row is stored, in the caller's tenant, under a name the
    tenant did not use; its network, broadcast and prefix length are those of
    its CIDR, its gateway is empty or a usable address of the block, it lies
    strictly inside its declared parent and shares addresses with stored blocks
    of the tenant only along its chain of parents. *)
Theorem Create_sound subj in_ w w' s :
  mem_ok (w_mem w) → Create subj in_ false w = (w', Ok s) →
  ∃ row info, w_mem w' = with_subnet (w_mem w) row ∧
    sn_TenantID row = su_TenantID subj ∧ sn_Name row = sn_Name in_ ∧ sn_CIDR row = sn_CIDR in_ ∧
    sn_ParentID row = sn_ParentID in_ ∧
    Parse (sn_CIDR in_) = Ok info ∧ sn_NetworkAddress row = IP_String (Network info) ∧
    sn_BroadcastAddr row = IP_String (Broadcast info) ∧ sn_PrefixLength row = PrefixLen info ∧
    (sn_Gateway row = ""%string ∨ GatewayInRange (sn_CIDR in_) (sn_Gateway row) = Ok true) ∧
    placeable (tenant_subnets (w_mem w) (su_TenantID subj)) (sn_CIDR in_) "" (sn_ParentID in_) ∧
    (∀ k o, mem_subnets (w_mem w) !! k = Some o → sn_TenantID o = su_TenantID subj → sn_Name o ≠ sn_Name in_).
Proof.
  intros Hok Hrun. destruct (Create_inv _ _ _ _ _ _ Hok Hrun) as (row & info & Hall). exists row, info. naive_solver.
Qed.
End with_env.

Definition ex_new : Subnet :=
  {| zero_Subnet with sn_Name := "lab"; sn_CIDR := "10.1.2.0/24"; sn_Gateway := "10.1.2.1"; sn_ParentID := "b" |}.

Lemma Create_sound_witness :
  ∃ row info, w_mem (fst (Create (H := ex_env) ex_subject ex_new false ex_nested_world)) = with_subnet (w_mem ex_nested_world) row ∧
    Parse "10.1.2.0/24" = Ok info ∧ sn_NetworkAddress row = IP_String (Network info) ∧
    placeable (tenant_subnets (w_mem ex_nested_world) "t1") "10.1.2.0/24" "" "b".
Proof.
  destruct (Create (H := ex_env) ex_subject ex_new false ex_nested_world) as [w' [s|e]] eqn:E.
  - destruct (Create_sound (H := ex_env) ex_subject ex_new ex_nested_world w' s ex_nested_ok E)
      as (row & info & Hm & _ & _ & _ & _ & Hp & Hnet & _ & _ & _ & Hpl & _). eauto 10.
  - exfalso. apply (f_equal snd) in E. vm_compute in E. discriminate E.
Defined.

(** ** Splitting *)

Section split.
Context `{Env}.

Lemma subnets_Get_preserves subj id : preserves (Get subj id).
Proof. unfold Get, GetSubnet, fill, CountAddressesInSubnet, SNMPIndex, AllSubnetCIDRs, ListSubnetSNMP. preserve. Qed.

Lemma subnets_Create_preserves subj in_ allowOverlap : preserves (Create subj in_ allowOverlap).
Proof.
  pose proof subnets_Get_preserves. unfold Create, checkOverlap, AllSubnetCIDRs. preserve.
Qed.

Lemma overlapsAny_None block parentID existing ex :
  overlapsAny block parentID existing = None → ex ∈ existing → sn_ID ex ≠ parentID →
  Overlaps block (sn_CIDR ex) ≠ Ok true.
Proof.
  unfold overlapsAny. rewrite fmap_None. intros Hf Hin Hne Ho. pose proof (find_first_None _ _ _ Hf Hin) as Hc.
  cbn in Hc. apply String.eqb_neq in Hne. rewrite Hne, Ho in Hc.
  destruct (is_empty (sn_CIDR ex)) eqn:Ee; [|done]. apply is_empty_spec in Ee. rewrite Ee in Ho. by apply Overlaps_empty in Ho.
Qed.

Lemma overlapsAny_app_None block parentID l1 l2 :
  overlapsAny block parentID (l1 ++ l2) = None → overlapsAny block parentID l1 = None.
Proof.
  unfold overlapsAny. rewrite !fmap_None. induction l1 as [|x l1 IH]; cbn; [done|].
  destruct (negb _ && _); [done|]. exact IH.
Qed.

Lemma overlapsAny_Some block parentID existing by_ :
  overlapsAny block parentID existing = Some by_ →
  Overlaps block by_ = Ok true ∧ ∃ ex, ex ∈ existing ∧ sn_ID ex ≠ parentID ∧ sn_CIDR ex = by_.
Proof.
  unfold overlapsAny. rewrite fmap_Some. intros (ex & [Hin Hc]%find_first_Some & ->).
  rewrite andb_true_iff, negb_true_iff, orb_false_iff, String.eqb_neq in Hc. destruct Hc as [[Hne _] Ho].
  split; [by destruct (Overlaps _ _) as [[]|]|eauto].
Qed.

(** The stored row of the part [c] of [parent]. *)
Definition split_row (tenantID : string) (parent c row : Subnet) : Prop :=
  sn_ID row = sn_ID c ∧ sn_CIDR row = sn_CIDR c ∧ sn_TenantID row = tenantID ∧ sn_ParentID row = sn_ID parent ∧
  sn_Name row = sn_Name parent +:+ " " +:+ dash +:+ " " +:+ sn_CIDR c ∧
  sn_VlanID row = sn_VlanID parent ∧ sn_LocationID row = sn_LocationID parent ∧ sn_Status row = SubnetActive ∧
  ∃ info, Parse (sn_CIDR c) = Ok info ∧ sn_NetworkAddress row = IP_String (Network info) ∧
    sn_BroadcastAddr row = IP_String (Broadcast info) ∧ sn_PrefixLength row = PrefixLen info.

(** What the store holds after the loop: one row per created block, or, in a
    dry run, what it held before. *)
Definition split_stored (dryRun : bool) (tenantID : string) (parent : Subnet) (created : list Subnet) (w w' : World) : Prop :=
  if dryRun then w' = w
  else ∃ rows, w_mem w' = foldl with_subnet (w_mem w) rows ∧ Forall2 (split_row tenantID parent) created rows.

(** A skipped block meets a row of [existing] other than the parent, or a
    block created before it. *)
Definition skip_true (parentID : string) (existing created : list Subnet) (sk : string * string) : Prop :=
  Overlaps (fst sk) (snd sk) = Ok true ∧
  ((∃ ex, ex ∈ existing ∧ sn_ID ex ≠ parentID ∧ sn_CIDR ex = snd sk) ∨ snd sk ∈ sn_CIDR <$> created).

Lemma split_create subj parent block i n w w' c :
  mem_ok (w_mem w) → Create subj (split_child parent block i n) true w = (w', Ok c) →
  mem_ok (w_mem w') ∧ sn_CIDR c = block ∧
  ∃ row, w_mem w' = with_subnet (w_mem w) row ∧ split_row (su_TenantID subj) parent c row.
Proof.
  intros Hok Hrun.
  destruct (Create_inv _ _ _ _ _ _ Hok Hrun)
    as (row & info & Hmem & Ht & Hn & Hc & Hp & Hinfo & Hnet & Hbc & Hpre & _ & _ & _ & Hid & Hcidr & Hv & Hl & _ & Hst).
  pose proof (subnets_Create_preserves subj (split_child parent block i n) true w Hok) as Hpres. rewrite Hrun in Hpres.
  cbn [split_child sn_CIDR sn_Name sn_ParentID sn_VlanID sn_LocationID sn_Status] in *.
  split_and!; [done|done|]. exists row. split; [done|]. unfold split_row. rewrite Hcidr. split_and!; eauto.
Qed.

Lemma split_loop_spec subj parent dryRun n i blocks existing w w' created skipped :
  mem_ok (w_mem w) →
  split_loop subj parent dryRun n i blocks existing w = (w', Ok (created, skipped)) →
  (sn_CIDR <$> created) ++ skipped.*1 ≡ₚ blocks ∧ (sn_CIDR <$> created) `sublist_of` blocks ∧
  (∀ c, c ∈ created → overlapsAny (sn_CIDR c) (sn_ID parent) existing = None) ∧
  Forall (skip_true (sn_ID parent) existing created) skipped ∧
  (created = [] → w' = w) ∧ split_stored dryRun (su_TenantID subj) parent created w w'.
Proof.
  revert i existing w created skipped. induction blocks as [|block rest IH]; intros i existing w created skipped Hok Hrun; cbn in Hrun.
  { apply ret_inv in Hrun as [-> [= -> ->]]. split_and!; try done; [by intros c ?%elem_of_nil|]. destruct dryRun; [done|]. by exists []. }
  destruct (overlapsAny block (sn_ID parent) existing) as [by_|] eqn:Eo; [|destruct dryRun].
  - apply bind_inv in Hrun as (w1 & [cr sk] & Hrun & Hret). apply ret_inv in Hret as [-> [= -> ->]].
    apply IH in Hrun as (Hperm & Hsub & Hno & Hsk & Hw & Hst); [|done]. apply overlapsAny_Some in Eo as [Ho Hex].
    split_and!; try done; [cbn; by rewrite <- Hperm, Permutation_middle|by apply sublist_cons|].
    constructor; [split; [done|by left]|done].
  - apply bind_inv in Hrun as (w1 & ch & Hch & Hrun). apply lift_inv in Hch as [-> Hch].
    apply bind_inv in Hrun as (w2 & [cr sk] & Hrun & Hret). apply ret_inv in Hret as [-> [= -> ->]].
    apply IH in Hrun as (Hperm & Hsub & Hno & Hsk & Hw & Hst); [|done].
    assert (Hcidr : sn_CIDR ch = block).
    { unfold deriveCIDR in Hch. cbn [split_child sn_CIDR] in Hch. destruct (Parse block); [|done]. by injection Hch as <-. }
    split_and!; [cbn; by rewrite Hcidr, <- Hperm|cbn; rewrite Hcidr; by apply sublist_skip| | |done|done].
    + intros c [->|Hc]%elem_of_cons; [by rewrite Hcidr|by apply Hno].
    + eapply Forall_impl; [exact Hsk|]. intros x [? [?|?]]; split; auto. right. by right.
  - apply bind_inv in Hrun as (w1 & ch & Hch & Hrun).
    apply split_create in Hch as (Hok1 & Hcidr & row & Hmem & Hrow); [|done].
    apply bind_inv in Hrun as (w2 & [cr sk] & Hrun & Hret). apply ret_inv in Hret as [-> [= -> ->]].
    apply IH in Hrun as (Hperm & Hsub & Hno & Hsk & Hw & rows & Hrows & Hall); [|done].
    split_and!; [cbn; by rewrite Hcidr, <- Hperm|cbn; rewrite Hcidr; by apply sublist_skip| | |done|].
    + intros c [->|Hc]%elem_of_cons; [by rewrite Hcidr|]. by eapply overlapsAny_app_None, Hno.
    + eapply Forall_impl; [exact Hsk|]. unfold skip_true. cbn. intros x [? [(ex & Hin & ? & ?)|?]]; (split; [done|]).
      * apply elem_of_app in Hin as [Hin|E%list_elem_of_singleton]; [left; eauto|]. right. subst ex. cbn in *. apply elem_of_cons. left. congruence.
      * right. by right.
    + exists (row :: rows). cbn. rewrite <- Hmem. split; [done|]. by constructor.
Qed.

Lemma split_stored_parent dryRun tenantID p1 p2 created w w' :
  sn_ID p1 = sn_ID p2 → sn_Name p1 = sn_Name p2 → sn_VlanID p1 = sn_VlanID p2 → sn_LocationID p1 = sn_LocationID p2 →
  split_stored dryRun tenantID p1 created w w' → split_stored dryRun tenantID p2 created w w'.
Proof.
  intros E1 E2 E3 E4. unfold split_stored. destruct dryRun; [done|]. intros (rows & Hm & Hall). exists rows. split; [done|].
  eapply Forall2_impl; [exact Hall|]. unfold split_row. intros c r. by rewrite E1, E2, E3, E4.
Qed.

Lemma Split_inv subj id p dryRun w w' res stop :
  mem_ok (w_mem w) → Split subj id p dryRun w = (w', Ok (res, stop)) →
  let byID := tenant_subnets (w_mem w) (su_TenantID subj) in
  ∃ row blocks, mem_subnets (w_mem w) !! id = Some row ∧ sn_TenantID row = su_TenantID subj ∧
    Subdivide (sn_CIDR row) p = Ok blocks ∧
    (sn_CIDR <$> sp_Created res) ++ (sp_Skipped res).*1 ≡ₚ blocks ∧ (sn_CIDR <$> sp_Created res) `sublist_of` blocks ∧
    (∀ c k s, c ∈ sp_Created res → byID !! k = Some s → k ≠ id → Overlaps (sn_CIDR c) (sn_CIDR s) ≠ Ok true) ∧
    (∀ block by_, (block, by_) ∈ sp_Skipped res → Overlaps block by_ = Ok true ∧
       ((∃ k s, byID !! k = Some s ∧ k ≠ id ∧ sn_CIDR s = by_) ∨ by_ ∈ sn_CIDR <$> sp_Created res)) ∧
    (stop = None ↔ sp_Created res ≠ []) ∧ (sp_Created res = [] → w' = w) ∧
    split_stored dryRun (su_TenantID subj) row (sp_Created res) w w'.
Proof.
  intros Hok Hrun byID. unfold Split in Hrun.
  apply bind_inv in Hrun as (w1 & parent & Hget & Hrun).
  apply Get_shows in Hget as (-> & row & Hrow & Ht & HpID & HpC & HpN & HpV & HpL).
  assert (Hid : sn_ID row = id) by (destruct (ok_subnets _ Hok) as [Hk _]; by apply Hk).
  rewrite HpC in Hrun. destruct (Subdivide (sn_CIDR row) p) as [blocks|e] eqn:Es; [|done].
  apply bind_inv in Hrun as (w2 & existing & Hex & Hrun).
  assert (Hall : w2 = w ∧ existing ≡ₚ map_select (λ s, sn_TenantID s =s su_TenantID subj) (mem_subnets (w_mem w))).
  { unfold AllSubnetCIDRs in Hex. m_inv. split; [done|]. apply paginate_all. }
  destruct Hall as [-> Hall].
  assert (Hby : ∀ k s, byID !! k = Some s ↔ s ∈ existing ∧ sn_ID s = k).
  { intros k s. unfold byID. rewrite <- (index_all _ _ Hok _ Hall). apply index_lookup, (tenant_rows_keys _ _ Hok _ Hall). }
  apply bind_inv in Hrun as (w3 & [cr sk] & Hloop & Hrun). apply ret_inv in Hrun as [-> [= -> ->]].
  apply split_loop_spec in Hloop as (Hperm & Hsub & Hno & Hsk & Hw & Hst); [|done].
  exists row, blocks. cbn [sp_Created sp_Skipped fst snd]. split_and!; try done.
  - intros c k s Hc [Hin Hk]%Hby Hne. eapply overlapsAny_None; [by apply Hno|done|]. rewrite HpID, Hid, Hk. done.
  - intros block by_ Hin. rewrite Forall_forall in Hsk. apply Hsk in Hin as [Ho [(ex & Hex' & Hne & Hc)|Hc]]; (split; [done|]); [left|by right].
    exists (sn_ID ex), ex. rewrite Hby. rewrite HpID, Hid in Hne. done.
  - destruct cr; naive_solver.
  - by eapply split_stored_parent, Hst.
Qed.
End split.

(** C29: splitting: the blocks of a successful [Split] are exactly the parts of
    the subnet at the requested prefix, each either created, in address order,
    or skipped; a created block shares no address with any subnet of the
    tenant stored before other than the one split, and a skipped block does
    share one with the subnet it names: a stored subnet of the tenant other
    than the one split, or a block created before it. A real run writes one
    row per created block and changes nothing else: under the block's id, in
    the caller's tenant, below the split subnet, with its VLAN and location,
    active, and with the network, broadcast and prefix length of the block. A
    dry run writes nothing, nor does a run that creates nothing, and the error
    is set exactly then. *)
Theorem Split_sound `{Env} subj id p dryRun w w' res stop :
  mem_ok (w_mem w) → Split subj id p dryRun w = (w', Ok (res, stop)) →
  let byID := tenant_subnets (w_mem w) (su_TenantID subj) in
  ∃ row blocks, mem_subnets (w_mem w) !! id = Some row ∧ sn_TenantID row = su_TenantID subj ∧
    Subdivide (sn_CIDR row) p = Ok blocks ∧
    (sn_CIDR <$> sp_Created res) ++ (sp_Skipped res).*1 ≡ₚ blocks ∧ (sn_CIDR <$> sp_Created res) `sublist_of` blocks ∧
    (∀ c k s, c ∈ sp_Created res → byID !! k = Some s → k ≠ id → Overlaps (sn_CIDR c) (sn_CIDR s) ≠ Ok true) ∧
    (∀ block by_, (block, by_) ∈ sp_Skipped res → Overlaps block by_ = Ok true ∧
       ((∃ k s, byID !! k = Some s ∧ k ≠ id ∧ sn_CIDR s = by_) ∨ by_ ∈ sn_CIDR <$> sp_Created res)) ∧
    (stop = None ↔ sp_Created res ≠ []) ∧ (sp_Created res = [] → w' = w) ∧
    split_stored dryRun (su_TenantID subj) row (sp_Created res) w w'.
Proof. apply Split_inv. Qed.

Lemma Split_sound_witness :
  let r := Split (H := ex_env) ex_subject "a" 9 false ex_nested_world in
  match snd r with Ok (res, None) => (sn_CIDR <$> sp_Created res, (sp_Skipped res)) | _ => ([], []) end
    = (["10.128.0.0/9"], [("10.0.0.0/9", "10.1.0.0/16")])%string ∧
  match snd r with
  | Ok (res, stop) => ∃ blocks row, Subdivide "10.0.0.0/8" 9 = Ok blocks ∧
      (sn_CIDR <$> sp_Created res) ++ (sp_Skipped res).*1 ≡ₚ blocks ∧
      mem_subnets (w_mem ex_nested_world) !! "a"%string = Some row ∧
      ∃ rows, w_mem (fst r) = foldl with_subnet (w_mem ex_nested_world) rows ∧
        Forall2 (split_row (su_TenantID ex_subject) row) (sp_Created res) rows
  | Err _ => False
  end.
Proof.
  split; [vm_compute; reflexivity|].
  destruct (Split (H := ex_env) ex_subject "a" 9 false ex_nested_world) as [w' [[res stop]|e]] eqn:E.
  - destruct (Split_sound (H := ex_env) ex_subject "a" 9 false ex_nested_world w' res stop ex_nested_ok E)
      as (row & blocks & Hrow & _ & Hb & Hp & _ & _ & _ & _ & _ & Hst).
    assert (Hc : sn_CIDR <$> mem_subnets (w_mem ex_nested_world) !! "a"%string = Some "10.0.0.0/8"%string) by (vm_compute; reflexivity).
    rewrite Hrow in Hc. injection Hc as Hc. rewrite Hc in Hb. exists blocks, row.
    split; [exact Hb|]. split; [exact Hp|]. split; [exact Hrow|exact Hst].
  - apply (f_equal snd) in E. vm_compute in E. discriminate E.
Defined.

(** The parts of a block meet every block that contains it. *)
Lemma Subdivide_overlaps cidr b p out t g :
  native_cidr cidr b → Subdivide cidr p = Ok out → t ∈ out → Within cidr g = true → Overlaps t g = Ok true.
Proof.
  intros Hn Hs [i Hi]%list_elem_of_lookup Hw. pose proof (Subdivide_native cidr b p Hn) as Hsub. rewrite Hs in Hsub.
  destruct Hsub as (Hh & Hlen & _ & Htexts & _). destruct (native_Parse _ _ Hn) as (info & _ & Hok & _).
  set (h := blk_width b - p) in *. pose proof (lookup_lt_Some _ _ _ Hi) as Hlt.
  destruct (Htexts (Z.of_nat i) ltac:(lia)) as (t' & Ht' & Hbt). rewrite Nat2Z.id, Hi in Ht'. injection Ht' as <-.
  apply Within_blocks in Hw as (bc & bg & Hbc & Hbg & _ & Hwd & _ & Hsub).
  assert (Hb : cidr_block cidr = Some b).
  { destruct Hn as (ip & n & E & Hnb & _). unfold cidr_block. by rewrite E. }
  rewrite Hb in Hbc. injection Hbc as <-. pose proof (Overlaps_blocks t g) as Ho.
  assert (Hshare : share_address (child_block b h (Z.of_nat i)) bg).
  { pose proof (pow2_pos h ltac:(lia)).
    assert (E : 2 ^ blk_hbits b = 2 ^ h * 2 ^ (blk_hbits b - h)) by (rewrite <- pow2_split by lia; f_equal; lia).
    exists (blk_width b), (blk_base b + Z.of_nat i * 2 ^ h). split.
    - unfold in_block, child_block; cbn. split; [done|lia].
    - rewrite Hwd. apply Hsub. unfold in_block. split; [done|]. nia. }
  destruct (Overlaps t g) as [r|e].
  - destruct Ho as (ba & bb & E1 & E2 & Hr). rewrite Hbt in E1. rewrite Hbg in E2. simplify_eq. f_equal. by apply Hr.
  - destruct Ho as [_ [E|E]]; congruence.
Qed.

(** A subnet that lies inside another stored subnet of the tenant can never
    be split: every part overlaps the enclosing subnet, which only the subnet
    being split itself is exempt from, so nothing is created. *)
Theorem Split_nested_creates_nothing `{Env} subj id row b k g p dryRun w w' res stop :
  mem_ok (w_mem w) → mem_subnets (w_mem w) !! id = Some row → native_cidr (sn_CIDR row) b →
  tenant_subnets (w_mem w) (su_TenantID subj) !! k = Some g → Within (sn_CIDR row) (sn_CIDR g) = true →
  Split subj id p dryRun w = (w', Ok (res, stop)) →
  sp_Created res = [] ∧ stop ≠ None ∧ w' = w.
Proof.
  intros Hok Hrow Hn Hg Hw Hrun.
  destruct (Split_inv _ _ _ _ _ _ _ _ Hok Hrun) as (row' & blocks & Hrow' & _ & Hsub & Hperm & _ & Hno & _ & Hstop & Hdry & _).
  rewrite Hrow in Hrow'. injection Hrow' as <-.
  assert (Hkid : k ≠ id).
  { intros ->. apply map_lookup_filter_Some in Hg as [Hg _]. rewrite Hrow in Hg. simplify_eq. by rewrite Within_irrefl in Hw. }
  assert (Hnil : sp_Created res = []).
  { destruct (sp_Created res) as [|c cs] eqn:Ec; [done|]. exfalso.
    apply (Hno c k g ltac:(left) Hg Hkid). eapply Subdivide_overlaps; eauto.
    rewrite <- Hperm. cbn. left. }
  split_and!; [done| |auto]. rewrite Hstop, Hnil. naive_solver.
Qed.

Definition ex_middle_block : GoIP.block := {| blk_width := 32; blk_base := 167837696; blk_hbits := 16 |}.

Definition ex_stored (id : string) : Subnet := default zero_Subnet (mem_subnets (w_mem ex_nested_world) !! id).

Lemma ex_stored_b : mem_subnets (w_mem ex_nested_world) !! "b"%string = Some (ex_stored "b").
Proof. vm_compute. reflexivity. Qed.
Lemma ex_stored_a : tenant_subnets (w_mem ex_nested_world) (su_TenantID ex_subject) !! "a"%string = Some (ex_stored "a").
Proof. vm_compute. reflexivity. Qed.
Lemma ex_stored_within : Within (sn_CIDR (ex_stored "b")) (sn_CIDR (ex_stored "a")) = true.
Proof. vm_compute. reflexivity. Qed.
Lemma ex_stored_native : native_cidr (sn_CIDR (ex_stored "b")) ex_middle_block.
Proof.
  replace (sn_CIDR (ex_stored "b")) with "10.1.0.0/16"%string by (vm_compute; reflexivity).
  eexists _, _. split; [vm_compute; reflexivity|]. split; [vm_compute; reflexivity|]. split; [reflexivity|]. intros [=].
Qed.

Lemma Split_nested_creates_nothing_witness :
  match snd (Split (H := ex_env) ex_subject "b" 18 true ex_nested_world) with
  | Ok (res, stop) => sp_Created res = [] ∧ stop ≠ None
  | Err _ => False
  end.
Proof.
  destruct (Split (H := ex_env) ex_subject "b" 18 true ex_nested_world) as [w' [[res stop]|e]] eqn:E.
  - destruct (Split_nested_creates_nothing (H := ex_env) ex_subject "b" (ex_stored "b") ex_middle_block "a" (ex_stored "a")
      18 true ex_nested_world w' res stop ex_nested_ok ex_stored_b ex_stored_native ex_stored_a ex_stored_within E)
      as (Hc & Hs & _). exact (conj Hc Hs).
  - apply (f_equal snd) in E. vm_compute in E. discriminate E.
Defined.

(** ** The tree *)

Definition tree_key (s : Subnet) : string * string := (sn_ID s, sn_ParentID s).

Lemma fill_all_keys tenantID subs w w' l :
  fill_all tenantID subs w = (w', Ok l) → w' = w ∧ tree_key <$> l = tree_key <$> subs.
Proof.
  revert w l. induction subs as [|s subs IH]; intros w l Hrun; cbn in Hrun; [by m_inv|].
  apply bind_inv in Hrun as (w1 & s' & Hs & Hrun). apply bind_inv in Hrun as (w2 & rest & Hrest & Hrun).
  apply ret_inv in Hrun as [-> ->]. unfold fill in Hs. apply bind_inv in Hs as (w3 & r & Hc & Hs).
  apply try_inv in Hc. injection Hc as <- <-. apply ret_inv in Hs as [-> ->].
  apply IH in Hrest as [-> E]. split; [done|]. cbn. by rewrite E.
Qed.

Lemma List_keys `{Env} subj w w' l :
  List_ subj zero_SubnetFilter w = (w', Ok l) →
  w' = w ∧ tree_key <$> l ≡ₚ tree_key <$> map_select (λ s, sn_TenantID s =s su_TenantID subj) (mem_subnets (w_mem w)).
Proof.
  unfold List_, withSNMP, SNMPIndex, AllSubnetCIDRs, ListSubnetSNMP. intros Hrun.
  apply bind_inv in Hrun as (w1 & [] & Ht & Hrun). apply lift_inv in Ht as [-> _].
  apply bind_inv in Hrun as (w1 & subs & Hl & Hrun). unfold ListSubnets in Hl. apply bind_inv in Hl as (w2 & m & Hm & Hl).
  apply mem_inv in Hm as [-> ->]. apply ret_inv in Hl as [-> ->].
  apply bind_inv in Hrun as (w1 & subs' & Hf & Hrun). apply fill_all_keys in Hf as [-> Hkeys]. m_inv. split; [done|].
  rewrite <- list_fmap_compose. change (tree_key ∘ show_snmp _) with tree_key. rewrite Hkeys, <- list_fmap_compose.
  change (tree_key ∘ fillSubnet (w_mem w)) with tree_key. rewrite paginate_all. apply reflexive_eq. f_equal.
  unfold map_select. apply List.filter_ext. intros s. unfold subnet_matches. cbn. by rewrite !andb_true_r.
Qed.

(** The tree: [GetTree] shows each of the tenant's subnets whose chain of
    parents ends exactly once, and nothing else; a subnet is left out exactly
    when its parents form a cycle. *)
Theorem GetTree_complete `{Env} subj w w' f :
  mem_ok (w_mem w) → GetTree subj w = (w', Ok f) →
  let shown := sn_ID <$> concat (List.map tree_rows f) in
  let byID := tenant_subnets (w_mem w) (su_TenantID subj) in
  w' = w ∧ NoDup shown ∧
  ∀ id, id ∈ shown ↔ ∃ s, byID !! id = Some s ∧ rooted (parents_in byID) (sn_ParentID s).
Proof.
  intros Hok Hrun shown byID. unfold GetTree in Hrun. apply bind_inv in Hrun as (w1 & l & Hl & Hrun).
  apply ret_inv in Hrun as [-> ->]. apply List_keys in Hl as [-> Hkeys]. split; [done|].
  set (sel := map_select (λ s, sn_TenantID s =s su_TenantID subj) (mem_subnets (w_mem w))) in *.
  assert (Hids : NoDup (sn_ID <$> l)).
  { assert (E : ∀ l : list Subnet, sn_ID <$> l = fst <$> (tree_key <$> l)) by (intros l'; by rewrite <- list_fmap_compose).
    rewrite E, Hkeys, <- E. exact (tenant_rows_keys _ (su_TenantID subj) Hok sel ltac:(done)). }
  assert (Hrows : ∀ id p, (∃ r, r ∈ l ∧ sn_ID r = id ∧ sn_ParentID r = p) ↔ parents_in byID !! id = Some p).
  { intros id p. unfold parents_in. rewrite lookup_fmap_Some.
    transitivity ((id, p) ∈ tree_key <$> l); [rewrite list_elem_of_fmap; unfold tree_key; naive_solver|].
    rewrite Hkeys, list_elem_of_fmap. unfold tree_key, byID. rewrite <- (index_all _ _ Hok sel) by done.
    setoid_rewrite index_lookup; [naive_solver|exact (tenant_rows_keys _ (su_TenantID subj) Hok sel ltac:(done))]. }
  destruct (forest_ids sn_ID sn_ParentID l Hids _ Hrows) as [Hnd Hin]. split; [exact Hnd|].
  intros id. unfold shown. rewrite (Hin id). unfold parents_in. setoid_rewrite lookup_fmap_Some. naive_solver.
Qed.

Lemma GetTree_complete_witness :
  match snd (GetTree (H := ex_env) ex_subject ex_nested_world) with
  | Ok f => sn_ID <$> concat (List.map tree_rows f) = ["a"; "b"]%string ∧ NoDup (sn_ID <$> concat (List.map tree_rows f))
  | Err _ => False
  end.
Proof.
  destruct (GetTree (H := ex_env) ex_subject ex_nested_world) as [w' [f|e]] eqn:E.
  - destruct (GetTree_complete (H := ex_env) ex_subject ex_nested_world w' f ex_nested_ok E) as (_ & Hnd & _).
    split; [|exact Hnd].
    apply (f_equal (λ r, match snd r with Ok f => sn_ID <$> concat (List.map tree_rows f) | Err _ => [] end)) in E.
    vm_compute in E. symmetry. exact E.
  - apply (f_equal snd) in E. vm_compute in E. discriminate E.
Defined.
