(* ===== verification/Vlans.v ===== *)
(** * internal/vlans: the VLAN service

    CRUD over a tenant's 802.1Q VLANs on top of the store's VLAN table; the id
    range is checked before the store is touched, and a delete without force
    is refused while subnets are bound to the VLAN. *)

From S2P Require Import Prelude Models Store MemNet MemCat Authz.

Definition MinVlanID : Z := 1.
Definition MaxVlanID : Z := 4094.

Definition validate (v : Vlan) : result error () :=
  if (vl_VlanID v <? MinVlanID) || (MaxVlanID <? vl_VlanID v)
  then Err (ValidationError "vlans" "vlan_id %d out of range (%d..%d)" [AnyInt (vl_VlanID v); AnyInt MinVlanID; AnyInt MaxVlanID])
  else if is_empty (vl_Name v) then Err (ValidationError "vlans" "name required" [])
  else Ok ().

Definition Get (subj : Subjects) (id : string) : M Vlan :=
  lift (RequireTenant subj (su_TenantID subj));;
  GetVlan (su_TenantID subj) id.

Section with_env.
Context `{Env}.

Definition List_ (subj : Subjects) (f : VlanFilter) : M (list Vlan) :=
  lift (RequireTenant subj (su_TenantID subj));;
  ListVlans (su_TenantID subj) f.

Definition Create (subj : Subjects) (v : Vlan) : M Vlan :=
  lift (RequireTenant subj (su_TenantID subj));;
  let v0 := {| v with vl_TenantID := su_TenantID subj |} in
  lift (validate v0);;
  id ← (if is_empty (vl_ID v0) then newID else mret (vl_ID v0));
  CreateVlan {| v0 with vl_ID := id; vl_Status := default_str (vl_Status v0) VlanActive;
                vl_CreatedBy := default_str (vl_CreatedBy v0) (ActorID subj) |};;
  GetVlan (su_TenantID subj) id.

Definition Update (subj : Subjects) (v : Vlan) : M Vlan :=
  lift (RequireTenant subj (su_TenantID subj));;
  let v0 := {| v with vl_TenantID := su_TenantID subj |} in
  lift (validate v0);;
  ex ← GetVlan (su_TenantID subj) (vl_ID v0);
  UpdateVlan {| v0 with vl_CreatedBy := vl_CreatedBy ex; vl_Status := default_str (vl_Status v0) (vl_Status ex) |};;
  GetVlan (su_TenantID subj) (vl_ID v0).
End with_env.

Definition Delete (subj : Subjects) (id : string) (force : bool) : M () :=
  lift (RequireTenant subj (su_TenantID subj));;
  (if force then mret ()
   else subs ← SubnetsForVlan (su_TenantID subj) id;
        match subs with [] => mret () | _ => throw ErrNotEmpty end);;
  DeleteVlan (su_TenantID subj) id force.

Definition GetSubnets (subj : Subjects) (id : string) : M (list Subnet) :=
  lift (RequireTenant subj (su_TenantID subj));;
  SubnetsForVlan (su_TenantID subj) id.
