(* ===== verification/Devices.v ===== *)
(** * internal/devices: the device service

    CRUD over a tenant's devices, their interfaces and packages.  The store's
    sentinels are masked by the package's own; the BMC credential reference is
    read-only through the device body. *)

From S2P Require Import Prelude Models Store MemNet MemDev Authz.

Definition mapErr (e : error) : error :=
  match e with
  | ErrNotFound => Devices_ErrNotFound
  | ErrConflict => Devices_ErrConflict
  | ErrNotEmpty => Devices_ErrNotEmpty
  | _ => e
  end.

Definition ErrBMCRefReadOnly : error :=
  Devices_FieldError "ipmi_secret_ref" "set BMC credentials through the device BMC credentials endpoint".

Record SyncResult : Type := { sr_Total : Z; sr_Updates : Z; sr_Security : Z }.

Definition Get (subj : Subjects) (id : string) : M Device :=
  lift (RequireTenant subj (su_TenantID subj));;
  catch_map mapErr (GetDevice (su_TenantID subj) id).

Definition Delete (subj : Subjects) (id : string) (force : bool) : M () :=
  lift (RequireTenant subj (su_TenantID subj));;
  (if force then mret ()
   else addrs ← AddressesForDevice (su_TenantID subj) id;
        match addrs with [] => mret () | _ => throw Devices_ErrNotEmpty end);;
  catch_map mapErr (DeleteDevice (su_TenantID subj) id force).

Definition GetAddresses (subj : Subjects) (deviceID : string) : M (list IPAddress) :=
  lift (RequireTenant subj (su_TenantID subj));;
  rows_ ← AddressesForDevice (su_TenantID subj) deviceID;
  mret ((λ a, {| a with ad_Owner := "" |}) <$> rows_).

Definition ListInterfaces (subj : Subjects) (deviceID : string) : M (list DeviceInterface) :=
  lift (RequireTenant subj (su_TenantID subj));;
  MemDev.ListInterfaces (su_TenantID subj) deviceID.

Definition DeleteInterface (subj : Subjects) (id : string) : M () :=
  lift (RequireTenant subj (su_TenantID subj));;
  catch_map mapErr (MemDev.DeleteInterface (su_TenantID subj) id).

Definition ListPackages (subj : Subjects) (deviceID : string) (needsUpdate securityOnly : option bool)
    (manager : string) : M (list DevicePackage) :=
  lift (RequireTenant subj (su_TenantID subj));;
  ListDevicePackages (su_TenantID subj) deviceID needsUpdate securityOnly manager.

Section with_env.
Context `{Env}.

Definition List_ (subj : Subjects) (f : DeviceFilter) : M (list Device) :=
  lift (RequireTenant subj (su_TenantID subj));;
  ListDevices (su_TenantID subj) f.

Definition Create (subj : Subjects) (in_ : Device) : M Device :=
  lift (RequireTenant subj (su_TenantID subj));;
  if negb (is_empty (dv_IPMISecretRef in_)) then throw ErrBMCRefReadOnly
  else
    id ← (if is_empty (dv_ID in_) then newID else mret (dv_ID in_));
    at_ ← (if IsZero (dv_CreatedAt in_) then now else mret (dv_CreatedAt in_));
    catch_map mapErr (CreateDevice
      {| in_ with dv_TenantID := su_TenantID subj; dv_ID := id; dv_Status := default_str (dv_Status in_) DevStActive;
         dv_DeviceType := default_str (dv_DeviceType in_) DevOther;
         dv_CreatedBy := default_str (dv_CreatedBy in_) (ActorID subj); dv_CreatedAt := at_ |});;
    Get subj id.

Definition Update (subj : Subjects) (in_ : Device) : M Device :=
  lift (RequireTenant subj (su_TenantID subj));;
  ex ← catch_map mapErr (GetDevice (su_TenantID subj) (dv_ID in_));
  if negb (is_empty (dv_IPMISecretRef in_)) && negb (EqualFold (dv_IPMISecretRef in_) (dv_IPMISecretRef ex))
  then throw ErrBMCRefReadOnly
  else
    catch_map mapErr (UpdateDevice
      {| in_ with dv_TenantID := su_TenantID subj; dv_Name := default_str (dv_Name in_) (dv_Name ex);
         dv_Status := default_str (dv_Status in_) (dv_Status ex);
         dv_DeviceType := default_str (dv_DeviceType in_) (dv_DeviceType ex);
         dv_IPMISecretRef := dv_IPMISecretRef ex; dv_CreatedBy := dv_CreatedBy ex; dv_CreatedAt := dv_CreatedAt ex |});;
    Get subj (dv_ID in_).

Definition CreateInterface (subj : Subjects) (deviceID : string) (in_ : DeviceInterface) : M DeviceInterface :=
  lift (RequireTenant subj (su_TenantID subj));;
  catch_map mapErr (GetDevice (su_TenantID subj) deviceID);;
  id ← (if is_empty (di_ID in_) then newID else mret (di_ID in_));
  at_ ← (if IsZero (di_CreatedAt in_) then now else mret (di_CreatedAt in_));
  catch_map mapErr (MemDev.CreateInterface
    {| in_ with di_TenantID := su_TenantID subj; di_DeviceID := deviceID; di_ID := id; di_CreatedAt := at_ |});;
  catch_map mapErr (GetInterface (su_TenantID subj) id).

Definition SyncPackages (subj : Subjects) (deviceID : string) (pkgs : list DevicePackage) : M SyncResult :=
  lift (RequireTenant subj (su_TenantID subj));;
  catch_map mapErr (GetDevice (su_TenantID subj) deviceID);;
  catch_map mapErr (ReplaceDevicePackages (su_TenantID subj) deviceID pkgs);;
  mret {| sr_Total := Z.of_nat (length pkgs);
          sr_Updates := Z.of_nat (length (List.filter dp_NeedsUpdate pkgs));
          sr_Security := Z.of_nat (length (List.filter dp_IsSecurityUpdate pkgs)) |}.
End with_env.
