(* ===== verification/Groups.v ===== *)
(** * internal/groups: IP groups and host groups

    CRUD over the two kinds of group and the reachability question
    [CheckIpInGroup].  The second half gives members a meaning (the set of
    addresses a member stands for) and shows that the matcher decides it and
    that the handler returns exactly the groups with a matching member. *)

From S2P Require Import Prelude GoNet GoIP Ipnet Models Store MemCat MemInv Authz.

Definition validation {A} (msg : string) : result error A := Err (ValidationError "groups" msg []).

(** ** The matcher *)

Definition Matches (member : IPGroupMember) (ip : string) : bool :=
  if im_MemberType member =s MemberAddress then
    match ParseIP (TrimSpace (im_Value member)), ParseIP (TrimSpace ip) with
    | IPnil, _ | _, IPnil => false
    | a, b => IP_Equal a b
    end
  else if im_MemberType member =s MemberRange then InRange (im_Value member) ip
  else if im_MemberType member =s MemberSubnet then
    match ContainsIP (im_Value member) ip with Ok ok => ok | Err _ => false end
  else false.

Definition is_nil (ip : IP) : bool := match ip with IPnil => true | _ => false end.

Definition validateMemberValue (memberType value : string) : result error () :=
  let v := TrimSpace value in
  if is_empty v then validation "member value required"
  else if memberType =s MemberAddress then
    if is_nil (ParseIP v) then Err (ValidationError "groups" "invalid address value: %s" [AnyString value]) else Ok ()
  else if memberType =s MemberRange then
    match cut_byte "-" v with
    | Some (lo, hi) =>
        if is_nil (ParseIP (TrimSpace lo)) || is_nil (ParseIP (TrimSpace hi))
        then Err (ValidationError "groups" "invalid range value (want lo-hi): %s" [AnyString value]) else Ok ()
    | None => Err (ValidationError "groups" "invalid range value (want lo-hi): %s" [AnyString value])
    end
  else if memberType =s MemberSubnet then
    match ParseCIDR v with
    | None => Err (ValidationError "groups" "invalid subnet value: %s" [AnyString value])
    | Some _ => Ok ()
    end
  else Err (ValidationError "groups" "unknown member_type: %s" [AnyString memberType]).

(** ** IP groups *)

Definition GetIPGroup (subj : Subjects) (id : string) : M IPGroup :=
  lift (RequireTenant subj (su_TenantID subj));;
  MemCat.GetIPGroup (su_TenantID subj) id.

Definition ListIPGroups (subj : Subjects) (limit : Z) (cursorID : string) : M (list IPGroup) :=
  lift (RequireTenant subj (su_TenantID subj));;
  MemCat.ListIPGroups (su_TenantID subj) limit cursorID.

Definition DeleteIPGroup (subj : Subjects) (id : string) : M () :=
  lift (RequireTenant subj (su_TenantID subj));;
  MemCat.DeleteIPGroup (su_TenantID subj) id.

Definition RemoveIPGroupMember (subj : Subjects) (memberID : string) : M () :=
  lift (RequireTenant subj (su_TenantID subj));;
  MemCat.RemoveIPGroupMember (su_TenantID subj) memberID.

Definition ListIPGroupMembers (subj : Subjects) (groupID : string) : M (list IPGroupMember) :=
  lift (RequireTenant subj (su_TenantID subj));;
  MemCat.ListIPGroupMembers (su_TenantID subj) groupID.

Definition CheckIpInGroup (subj : Subjects) (ip : string) (groupIDs : list string) : M (list IPGroup) :=
  lift (RequireTenant subj (su_TenantID subj));;
  gm ← AllIPGroupsWithMembers (su_TenantID subj) groupIDs;
  mret (List.filter (λ g, existsb (λ m, Matches m ip) (default [] (snd gm !! ig_ID g))) (fst gm)).

Section with_env.
Context `{Env}.

Definition CreateIPGroup (subj : Subjects) (g : IPGroup) : M IPGroup :=
  lift (RequireTenant subj (su_TenantID subj));;
  if is_empty (ig_Name g) then lift (validation "name required")
  else
    id ← (if is_empty (ig_ID g) then newID else mret (ig_ID g));
    MemCat.CreateIPGroup {| g with ig_TenantID := su_TenantID subj; ig_ID := id;
      ig_Status := default_str (ig_Status g) GroupActive; ig_CreatedBy := default_str (ig_CreatedBy g) (ActorID subj) |};;
    MemCat.GetIPGroup (su_TenantID subj) id.

Definition UpdateIPGroup (subj : Subjects) (g : IPGroup) : M IPGroup :=
  lift (RequireTenant subj (su_TenantID subj));;
  if is_empty (ig_Name g) then lift (validation "name required")
  else
    ex ← MemCat.GetIPGroup (su_TenantID subj) (ig_ID g);
    MemCat.UpdateIPGroup {| g with ig_TenantID := su_TenantID subj; ig_CreatedBy := ig_CreatedBy ex;
      ig_Status := default_str (ig_Status g) (ig_Status ex) |};;
    MemCat.GetIPGroup (su_TenantID subj) (ig_ID g).

Definition AddIPGroupMember (subj : Subjects) (m : IPGroupMember) : M IPGroupMember :=
  lift (RequireTenant subj (su_TenantID subj));;
  let m0 := {| m with im_TenantID := su_TenantID subj; im_MemberType := default_str (im_MemberType m) MemberAddress |} in
  lift (validateMemberValue (im_MemberType m0) (im_Value m0));;
  id ← (if is_empty (im_ID m0) then newID else mret (im_ID m0));
  MemCat.AddIPGroupMember {| m0 with im_ID := id |};;
  mret {| m0 with im_ID := id |}.

Definition UpdateIPGroupMember (subj : Subjects) (m : IPGroupMember) : M IPGroupMember :=
  lift (RequireTenant subj (su_TenantID subj));;
  let m0 := {| m with im_TenantID := su_TenantID subj; im_MemberType := default_str (im_MemberType m) MemberAddress |} in
  lift (validateMemberValue (im_MemberType m0) (im_Value m0));;
  MemCat.UpdateIPGroupMember m0;;
  mret m0.

(** ** Host groups *)

Definition CreateHostGroup (subj : Subjects) (g : HostGroup) : M HostGroup :=
  lift (RequireTenant subj (su_TenantID subj));;
  if is_empty (hgr_Name g) then lift (validation "name required")
  else
    id ← (if is_empty (hgr_ID g) then newID else mret (hgr_ID g));
    MemCat.CreateHostGroup {| g with hgr_TenantID := su_TenantID subj; hgr_ID := id;
      hgr_Status := default_str (hgr_Status g) GroupActive; hgr_CreatedBy := default_str (hgr_CreatedBy g) (ActorID subj) |};;
    MemCat.GetHostGroup (su_TenantID subj) id.

Definition UpdateHostGroup (subj : Subjects) (g : HostGroup) : M HostGroup :=
  lift (RequireTenant subj (su_TenantID subj));;
  if is_empty (hgr_Name g) then lift (validation "name required")
  else
    ex ← MemCat.GetHostGroup (su_TenantID subj) (hgr_ID g);
    MemCat.UpdateHostGroup {| g with hgr_TenantID := su_TenantID subj; hgr_CreatedBy := hgr_CreatedBy ex;
      hgr_Status := default_str (hgr_Status g) (hgr_Status ex) |};;
    MemCat.GetHostGroup (su_TenantID subj) (hgr_ID g).

Definition AddHostGroupMember (subj : Subjects) (m : HostGroupMember) : M HostGroupMember :=
  lift (RequireTenant subj (su_TenantID subj));;
  if is_empty (hm_DeviceID m) then lift (validation "device_id required")
  else
    id ← (if is_empty (hm_ID m) then newID else mret (hm_ID m));
    let m1 := {| m with hm_TenantID := su_TenantID subj; hm_ID := id |} in
    MemCat.AddHostGroupMember m1;;
    mret m1.
End with_env.

Definition UpdateHostGroupMember (subj : Subjects) (m : HostGroupMember) : M HostGroupMember :=
  lift (RequireTenant subj (su_TenantID subj));;
  if is_empty (hm_DeviceID m) then lift (validation "device_id required")
  else
    let m1 := {| m with hm_TenantID := su_TenantID subj |} in
    MemCat.UpdateHostGroupMember m1;;
    mret m1.

Definition GetHostGroup (subj : Subjects) (id : string) : M HostGroup :=
  lift (RequireTenant subj (su_TenantID subj));;
  MemCat.GetHostGroup (su_TenantID subj) id.

Definition ListHostGroups (subj : Subjects) (limit : Z) (cursorID : string) : M (list HostGroup) :=
  lift (RequireTenant subj (su_TenantID subj));;
  MemCat.ListHostGroups (su_TenantID subj) limit cursorID.

Definition DeleteHostGroup (subj : Subjects) (id : string) : M () :=
  lift (RequireTenant subj (su_TenantID subj));;
  MemCat.DeleteHostGroup (su_TenantID subj) id.

Definition RemoveHostGroupMember (subj : Subjects) (memberID : string) : M () :=
  lift (RequireTenant subj (su_TenantID subj));;
  MemCat.RemoveHostGroupMember (su_TenantID subj) memberID.

Definition ListHostGroupMembers (subj : Subjects) (groupID : string) : M (list HostGroupMember) :=
  lift (RequireTenant subj (su_TenantID subj));;
  MemCat.ListHostGroupMembers (su_TenantID subj) groupID.

Definition ListDeviceHostGroups (subj : Subjects) (deviceID : string) : M (list HostGroup) :=
  lift (RequireTenant subj (su_TenantID subj));;
  MemCat.ListDeviceHostGroups (su_TenantID subj) deviceID.

(** ** What a member stands for *)

(** The address a text names, by family width and value. *)
Definition address_of (s : string) : option (Z * Z) := canon (ParseIP (TrimSpace s)).

(** The addresses of a member: one address; the span between two addresses,
    by number and regardless of the family; the addresses of a CIDR block. *)
Definition denotes (member : IPGroupMember) (w x : Z) : Prop :=
  if im_MemberType member =s MemberAddress then address_of (im_Value member) = Some (w, x)
  else if im_MemberType member =s MemberRange then
    match cut_byte "-" (TrimSpace (im_Value member)) with
    | None => ∃ w', address_of (TrimSpace (im_Value member)) = Some (w', x)
    | Some (lo, hi) => ∃ wl l wh h, address_of lo = Some (wl, l) ∧ address_of hi = Some (wh, h) ∧ l ≤ x ≤ h
    end
  else if im_MemberType member =s MemberSubnet then
    ∃ b, cidr_block (im_Value member) = Some b ∧ in_block b w x
  else False.

Lemma member_IP_Equal a b :
  IP_wf a → IP_wf b → a ≠ IPnil → b ≠ IPnil → IP_Equal a b = true ↔ canon a = canon b.
Proof.
  intros Ha Hb Hna Hnb. destruct a as [|x|x], b as [|y|y]; try done; cbn in Ha, Hb |- *.
  - rewrite Z.eqb_eq. naive_solver.
  - destruct (is4In6_value y) eqn:E; cbn; [rewrite Z.eqb_eq|]; naive_solver.
  - destruct (is4In6_value x) eqn:E; cbn; [rewrite Z.eqb_eq|]; naive_solver.
  - rewrite Z.eqb_eq. destruct (is4In6_value x) eqn:Ex, (is4In6_value y) eqn:Ey; split; intros E; simplify_eq; try congruence.
    unfold is4In6_value in *. bool_hyps. rewrite (Z.div_mod x (2 ^ 32)), (Z.div_mod y (2 ^ 32)) by lia. congruence.
Qed.

Lemma ipToInt_canon ip w x : IP_wf ip → canon ip = Some (w, x) → ipToInt ip = x.
Proof.
  destruct ip as [|n|n]; cbn; intros Hwf E; simplify_eq; try done.
  unfold ipToInt. cbn. destruct (is4In6_value n); by simplify_eq.
Qed.

(** The result of parsing a text as an address: nothing, or an address with a
    canonical family and value. *)
Lemma address_cases s :
  (ParseIP (TrimSpace s) = IPnil ∧ address_of s = None) ∨
  ∃ w x, address_of s = Some (w, x) ∧ ipToInt (ParseIP (TrimSpace s)) = x ∧ ParseIP (TrimSpace s) ≠ IPnil.
Proof.
  unfold address_of. pose proof (ParseIP_wf (TrimSpace s)) as Hwf. destruct (ParseIP (TrimSpace s)) as [|n|n] eqn:E; [by left| |].
  - right. eexists _, _. split; [done|]. split; [done|done].
  - right. destruct (canon (IP16 n)) as [[w x]|] eqn:Ec; [|cbn in Ec; by destruct (is4In6_value n)].
    eexists _, _. split; [done|]. split; [by eapply ipToInt_canon|done].
Qed.

(** [Matches] decides whether the address is one the member stands for. *)
Lemma Matches_denotes m ip :
  Matches m ip = true ↔ ∃ w x, address_of ip = Some (w, x) ∧ denotes m w x.
Proof.
  unfold Matches, denotes.
  assert (Hnone : address_of ip = None → ¬ ∃ w x, address_of ip = Some (w, x) ∧ denotes m w x) by naive_solver.
  unfold denotes in Hnone. destruct (im_MemberType m =s MemberAddress).
  { destruct (address_cases (im_Value m)) as [[-> ->]|(wv & v & Ev & _ & Hv)]; [naive_solver|].
    destruct (address_cases ip) as [[Ep ?]|(wi & i & Ei & _ & Hi)].
    { rewrite Ep. destruct (ParseIP (TrimSpace (im_Value m))); naive_solver. }
    transitivity (IP_Equal (ParseIP (TrimSpace (im_Value m))) (ParseIP (TrimSpace ip)) = true).
    { destruct (ParseIP (TrimSpace (im_Value m))), (ParseIP (TrimSpace ip)); done. }
    rewrite member_IP_Equal by (try apply ParseIP_wf; done). unfold address_of in *. rewrite Ev, Ei. naive_solver. }
  destruct (im_MemberType m =s MemberRange).
  { unfold InRange. destruct (address_cases ip) as [[-> ?]|(wi & i & Ei & Hval & Hi)]; [naive_solver|].
    destruct (ParseIP (TrimSpace ip)) as [|n|n] eqn:Ep; [done| |];
      (destruct (cut_byte "-" (TrimSpace (im_Value m))) as [[lo hi]|];
       [destruct (address_cases lo) as [[-> El]|(wl & l & El & Hl & Hnl)];
          [destruct (ParseIP (TrimSpace hi)); naive_solver|];
        destruct (address_cases hi) as [[-> Eh]|(wh & h & Eh & Hh & Hnh)];
          [destruct (ParseIP (TrimSpace lo)); naive_solver|];
        destruct (ParseIP (TrimSpace lo)) eqn:Epl; [done| |]; destruct (ParseIP (TrimSpace hi)) eqn:Eph; try done;
        rewrite Hl, Hh, Hval, andb_true_iff, !Z.leb_le; naive_solver
       |destruct (address_cases (TrimSpace (im_Value m))) as [[-> El]|(wl & l & El & Hl & Hnl)]; [naive_solver|];
        destruct (ParseIP (TrimSpace (TrimSpace (im_Value m)))); try done; rewrite Hl, Hval, Z.eqb_eq;
        (split; [intros ->; eauto|intros (? & ? & ? & ? & ?); congruence])]). }
  destruct (im_MemberType m =s MemberSubnet); [|naive_solver].
  unfold ContainsIP, cidr_block. destruct (ParseCIDR (TrimSpace (im_Value m))) as [[cip n]|] eqn:E;
    [|split; [done|]; by intros (? & ? & _ & ? & ? & _)].
  destruct (address_cases ip) as [[-> ?]|(wi & i & Ei & Hval & Hi)]; [naive_solver|].
  destruct (ParseCIDR_ok _ _ _ E) as [Hn _]. destruct (net_block_ok n Hn) as (b & Hb & Hok). rewrite Hb.
  transitivity (Contains n (ParseIP (TrimSpace ip)) = true); [destruct (ParseIP (TrimSpace ip)); done|].
  rewrite (Contains_block n b) by (try apply ParseIP_wf; done). unfold address_of. naive_solver.
Qed.

(** Members grouped by their group id. *)
Lemma grouped_lookup (l : list IPGroupMember) id :
  default [] (foldr (λ x acc, <[im_IPGroupID x := x :: default [] (acc !! im_IPGroupID x)]> acc)
               (∅ : gmap string (list IPGroupMember)) l !! id)
  = List.filter (λ x, im_IPGroupID x =s id) l.
Proof.
  induction l as [|x l IH]; [done|]. cbn [foldr List.filter]. destruct (String.eqb_spec (im_IPGroupID x) id) as [<-|Hne].
  - rewrite lookup_insert_eq. cbn. by rewrite <- IH.
  - by rewrite lookup_insert_ne.
Qed.

Lemma existsb_sort {A} (less : A → A → bool) p l : existsb p (sort_by less l) = existsb p l.
Proof.
  apply eq_bool_prop_intro. rewrite !Is_true_true, !existsb_exists. setoid_rewrite <- list_elem_of_In.
  by setoid_rewrite (sort_by_perm less l).
Qed.

Lemma desc_filter {T} (id : T → string) (P : T → bool) l : desc id l → desc id (List.filter P l).
Proof.
  unfold desc. induction 1 as [|x l Hl IH Hx]; [constructor|]. cbn. destruct (P x); [|done]. constructor; [done|].
  rewrite Forall_forall in *. intros y Hy. apply list_elem_of_In, filter_In in Hy as [Hy _]. by apply Hx, list_elem_of_In.
Qed.

(** The tenant's stored group [id] is asked for and has a member that stands
    for the address. *)
Definition in_group (m : Mem) (tenantID ip : string) (groupIDs : list string) (id : string) : Prop :=
  (∃ g, mem_ipGroups m !! id = Some g ∧ ig_TenantID g = tenantID) ∧ (groupIDs = [] ∨ id ∈ groupIDs) ∧
  ∃ k mb w x, mem_ipMembers m !! k = Some mb ∧ im_TenantID mb = tenantID ∧ im_IPGroupID mb = id ∧
    address_of ip = Some (w, x) ∧ denotes mb w x.

Definition wanted (groupIDs : list string) (id : string) : bool :=
  match groupIDs with [] => true | _ => existsb (String.eqb id) groupIDs end.

Lemma wanted_iff groupIDs id : wanted groupIDs id = true ↔ groupIDs = [] ∨ id ∈ groupIDs.
Proof.
  unfold wanted. destruct groupIDs as [|x l]; [naive_solver|]. rewrite existsb_exists.
  setoid_rewrite String.eqb_eq. setoid_rewrite <- list_elem_of_In. naive_solver.
Qed.

(** Whether a wanted group has a matching member, as the handler tests it. *)
Lemma member_test m tenantID ip groupIDs id :
  wanted groupIDs id = true →
  existsb (λ mb, Matches mb ip)
    (default [] ((sort_by ip_member_less <$>
       foldr (λ x acc, <[im_IPGroupID x := x :: default [] (acc !! im_IPGroupID x)]> acc)
         (∅ : gmap string (list IPGroupMember))
         (map_select (λ x, (im_TenantID x =s tenantID) && wanted groupIDs (im_IPGroupID x)) (mem_ipMembers m))) !! id)) = true ↔
  ∃ k mb w x, mem_ipMembers m !! k = Some mb ∧ im_TenantID mb = tenantID ∧ im_IPGroupID mb = id ∧
    address_of ip = Some (w, x) ∧ denotes mb w x.
Proof.
  intros Hwant. rewrite lookup_fmap. set (sel := map_select _ _). set (f := foldr _ _ _).
  assert (E : existsb (λ mb, Matches mb ip) (default [] (sort_by ip_member_less <$> f !! id))
            = existsb (λ mb, Matches mb ip) (List.filter (λ x, im_IPGroupID x =s id) sel)).
  { rewrite <- grouped_lookup. fold f. destruct (f !! id) as [l|]; [|done]. apply existsb_sort. }
  rewrite E, existsb_exists. setoid_rewrite filter_In. setoid_rewrite <- list_elem_of_In. unfold sel.
  setoid_rewrite elem_of_map_select. setoid_rewrite andb_true_iff. setoid_rewrite String.eqb_eq.
  setoid_rewrite Matches_denotes. split.
  - intros (mb & [[[Ht _] [k Hk]] Hid] & w & x & ?). eauto 10.
  - intros (k & mb & w & x & Hk & Ht & Hid & ? & ?). exists mb. rewrite Hid. eauto 10.
Qed.

(** Reachability: [CheckIpInGroup] answers without changing anything, and
    returns exactly the asked-for groups of the caller's tenant (all of them
    when none is named) that have a member standing for the address - the same
    address for an address member, a number between the ends for a range, an
    address of the block for a subnet - newest first and each once. *)
Theorem CheckIpInGroup_exact subj ip groupIDs w :
  mem_ok (w_mem w) → RequireTenant subj (su_TenantID subj) = Ok () →
  ∃ out, CheckIpInGroup subj ip groupIDs w = (w, Ok out) ∧ desc ig_ID out ∧
    ∀ id, id ∈ ig_ID <$> out ↔ in_group (w_mem w) (su_TenantID subj) ip groupIDs id.
Proof.
  intros Hok Hsubj. set (T := su_TenantID subj).
  set (sel := map_select (λ g, (ig_TenantID g =s T) && wanted groupIDs (ig_ID g)) (mem_ipGroups (w_mem w))).
  set (fill := λ g, {| g with ig_MemberCount := ipGroupMemberCount (w_mem w) T (ig_ID g) |}).
  set (grouped := sort_by ip_member_less <$>
    foldr (λ x acc, <[im_IPGroupID x := x :: default [] (acc !! im_IPGroupID x)]> acc)
      (∅ : gmap string (list IPGroupMember))
      (map_select (λ x, (im_TenantID x =s T) && wanted groupIDs (im_IPGroupID x)) (mem_ipMembers (w_mem w)))).
  exists (List.filter (λ g, existsb (λ m, Matches m ip) (default [] (grouped !! ig_ID g))) (paginate ig_ID "" 0 (fill <$> sel))).
  split; [unfold CheckIpInGroup; by rewrite Hsubj|].
  assert (Hids : ig_ID <$> (fill <$> sel) = ig_ID <$> sel) by (rewrite <- list_fmap_compose; by apply list_fmap_ext).
  destruct (ok_ipGroups _ Hok) as [Hkeyed _]. split.
  - apply desc_filter, newest_first_desc. rewrite Hids. by apply keyed_select_NoDup.
  - intros id. rewrite list_elem_of_fmap. setoid_rewrite list_elem_of_In. setoid_rewrite filter_In.
    setoid_rewrite <- list_elem_of_In. setoid_rewrite (paginate_all ig_ID (fill <$> sel)).
    unfold in_group. fold T. split.
    + intros (g & -> & Hg & Hm). apply list_elem_of_fmap in Hg as (g0 & -> & Hg0). cbn [ig_ID fill] in *.
      unfold sel in Hg0. rewrite elem_of_map_select, andb_true_iff, String.eqb_eq in Hg0. destruct Hg0 as [[Ht Hw] [k Hk]].
      unfold grouped in Hm. rewrite member_test in Hm by done. pose proof (Hkeyed _ _ Hk) as <-. apply wanted_iff in Hw. eauto.
    + intros ((g & Hg & Ht) & Hw & Hm). apply wanted_iff in Hw. pose proof (Hkeyed _ _ Hg) as Hid.
      exists (fill g). cbn [ig_ID fill]. split; [done|]. split.
      * apply list_elem_of_fmap. exists g. split; [done|]. unfold sel.
        rewrite elem_of_map_select, andb_true_iff, String.eqb_eq, Hid. eauto.
      * rewrite Hid. unfold grouped. by apply member_test.
Qed.

(** ** An example: one group with an address range *)

Definition ex_range : IPGroupMember :=
  {| zero_IPGroupMember with im_ID := "m1"; im_TenantID := "t1"; im_IPGroupID := "g1"; im_MemberType := MemberRange;
     im_Value := "10.0.0.1-10.0.0.20" |}.
Definition ex_group_world : World :=
  fst (MemCat.AddIPGroupMember (H := ex_env) ex_range
    (fst (MemCat.CreateIPGroup (H := ex_env)
      {| zero_IPGroup with ig_ID := "g1"; ig_TenantID := "t1"; ig_Name := "servers" |} init_world))).

Lemma ex_group_ok : mem_ok (w_mem ex_group_world).
Proof. apply (AddIPGroupMember_preserves (H := ex_env)), (CreateIPGroup_preserves (H := ex_env)), New_ok. Qed.

Definition found (ip : string) : list string :=
  match snd (CheckIpInGroup ex_subject ip [] ex_group_world) with Ok l => ig_ID <$> l | Err _ => [] end.

Lemma CheckIpInGroup_exact_witness :
  in_group (w_mem ex_group_world) "t1" "10.0.0.5" [] "g1" ∧ ¬ in_group (w_mem ex_group_world) "t1" "10.0.1.5" [] "g1".
Proof.
  assert (Hyes : found "10.0.0.5" = ["g1"%string]) by (vm_compute; reflexivity).
  assert (Hno : found "10.0.1.5" = []) by (vm_compute; reflexivity). unfold found in *.
  destruct (CheckIpInGroup_exact ex_subject "10.0.0.5" [] ex_group_world ex_group_ok eq_refl) as (out & E & _ & H).
  destruct (CheckIpInGroup_exact ex_subject "10.0.1.5" [] ex_group_world ex_group_ok eq_refl) as (out' & E' & _ & H').
  rewrite E in Hyes. rewrite E' in Hno. cbn [snd] in Hyes, Hno. split.
  - apply H. rewrite Hyes. apply list_elem_of_here.
  - rewrite <- (H' "g1"%string), Hno. apply not_elem_of_nil.
Defined.

(** A range compares bare numbers: the IPv6 address [::a00:5] is reported
    as a member of the IPv4 range [10.0.0.1-10.0.0.20], which the service
    accepts as valid and whose enclosing subnet does not contain it. *)
Theorem range_conflates_families :
  validateMemberValue MemberRange (im_Value ex_range) = Ok () ∧ Matches ex_range "::a00:5" = true ∧
  Matches {| ex_range with im_MemberType := MemberSubnet; im_Value := "10.0.0.0/8" |} "::a00:5" = false ∧
  ∃ out, CheckIpInGroup ex_subject "::a00:5" [] ex_group_world = (ex_group_world, Ok out) ∧ ig_ID <$> out = ["g1"]%string.
Proof.
  split; [reflexivity|]. split; [reflexivity|]. split; [reflexivity|]. eexists. split; [reflexivity|]. reflexivity.
Qed.
