(* ===== verification/Arpcfg.v ===== *)
(** * internal/arpcfg: a tenant's ARP settings

    [Update] validates the whole body before anything is written; the excluded
    devices are checked against the store and lose their duplicates, and the
    settings are written together with an audit row. *)

From S2P Require Import Prelude Models Store Hostreport MemDev MemScan MemInv Authz AuditLog.

Record Input : Type := {
  in_Enabled : option bool;
  in_ExcludedDevices : list string;
  in_ProxyThreshold : option Z
}.

Definition Get (subj : Subjects) : M ARPSettings :=
  lift (RequireTenant subj (su_TenantID subj));;
  GetARPSettings (su_TenantID subj).

Definition refuse {A} (field msg : string) : M A := throw (Arpcfg_FieldError field msg).

Definition check (in_ : Input) : M (bool * Z) :=
  match in_Enabled in_, in_ProxyThreshold in_ with
  | None, _ => refuse "enabled" "required"
  | _, None => refuse "proxy_threshold" "required"
  | Some enabled, Some threshold =>
      if (threshold <? ARPMinProxyThreshold) || (ARPMaxProxyThreshold <? threshold)
      then refuse "proxy_threshold" "must be between 2 and 256"
      else if ARPMaxExcludedDevices <? Z.of_nat (length (in_ExcludedDevices in_))
      then refuse "excluded_devices" "at most 256 devices"
      else mret (enabled, threshold)
  end.

(** The loop over the excluded devices; [seen] are the ids accepted so far. *)
Fixpoint exclude_devices (tenantID : string) (ids : list string) (seen : gset string) : M (list string) :=
  match ids with
  | [] => mret []
  | id :: rest =>
      if negb (IsUUID id) then refuse "excluded_devices" "not a device id"
      else if decide (id ∈ seen) then exclude_devices tenantID rest seen
      else
        catch_map (λ e, match e with ErrNotFound => Arpcfg_FieldError "excluded_devices" "unknown device" | _ => e end)
          (GetDevice tenantID id);;
        out ← exclude_devices tenantID rest ({[id]} ∪ seen);
        mret (id :: out)
  end.

Section with_env.
Context `{Env}.

Definition Update (subj : Subjects) (in_ : Input) : M ARPSettings :=
  lift (RequireTenant subj (su_TenantID subj));;
  et ← check in_;
  excluded ← exclude_devices (su_TenantID subj) (in_ExcludedDevices in_) ∅;
  let next := {| zero_ARPSettings with as_TenantID := su_TenantID subj; as_Enabled := fst et;
                 as_ExcludedDevices := excluded; as_ProxyThreshold := snd et; as_UpdatedBy := ActorID subj |} in
  t ← now;
  r ← Row {| e_TenantID := su_TenantID subj; e_EventType := ARPSettingsUpdated; e_ActorKind := AuditLog.ActorUser;
             e_ActorID := ActorID subj; e_SubjectKind := SubjectTenant; e_SubjectID := su_TenantID subj; e_Target := "";
             e_Outcome := OutcomeOK; e_Reason := "";
             e_Details := [("enabled", AnyBool (fst et)); ("excluded_count", AnyInt (Z.of_nat (length excluded)));
                           ("proxy_threshold", AnyInt (snd et))] |} t;
  row ← match r with Ok row => mret row | Err _ => throw (Audit_error "arp_settings_updated") end;
  PutARPSettings next row;;
  GetARPSettings (su_TenantID subj).
End with_env.
