(* ===== verification/Dnscfg.v ===== *)
(** * internal/dnscfg: a tenant's DNS configuration

    The stored configuration with its default, and the reverse-lookup probe.
    The resolver ([LookupFunc]) is a parameter: given the timeout in
    nanoseconds and an address it returns names or an error. *)

From S2P Require Import Prelude GoNet GoIP Models Store MemScan Authz.

Definition DefaultTimeoutMs : Z := 5000.

Definition LookupFunc : Type := Z → string → result error (list string).

Definition defaultConfig (tenantID : string) : DNSConfig :=
  {| zero_DNSConfig with dc_TenantID := tenantID; dc_TimeoutMs := DefaultTimeoutMs; dc_UseSystemDNSFallback := true;
     dc_ReverseDNSEnabled := true |}.

Definition Get (subj : Subjects) : M DNSConfig :=
  lift (RequireTenant subj (su_TenantID subj));;
  r ← try (GetDNSConfig (su_TenantID subj));
  match r with
  | Ok c => mret c
  | Err ErrNotFound => mret (defaultConfig (su_TenantID subj))
  | Err e => throw e
  end.

Section with_env.
Context `{Env}.

Definition Update (subj : Subjects) (cfg : DNSConfig) : M DNSConfig :=
  lift (RequireTenant subj (su_TenantID subj));;
  lift (RequireAdmin subj);;
  UpsertDNSConfig {| cfg with dc_TenantID := su_TenantID subj;
                     dc_TimeoutMs := if dc_TimeoutMs cfg <=? 0 then DefaultTimeoutMs else dc_TimeoutMs cfg |};;
  GetDNSConfig (su_TenantID subj).

Definition nanos_per_ms : Z := 1000000.

(** The name, the elapsed milliseconds and the lookup's error. *)
Definition Test_ (lookup : LookupFunc) (subj : Subjects) (testIP : string) : M (string * Z * option error) :=
  lift (RequireTenant subj (su_TenantID subj));;
  match ParseIP testIP with
  | IPnil => throw (Dns_ParseError testIP)
  | _ =>
      cfg ← Get subj;
      let timeout := wrap64 (dc_TimeoutMs cfg * nanos_per_ms) in
      let timeout := if timeout <=? 0 then DefaultTimeoutMs * nanos_per_ms else timeout in
      start ← now;
      let r := lookup timeout testIP in
      stop ← now;
      let latencyMs := Z.quot (stop - start) nanos_per_ms in
      mret match r with
           | Err e => ("", latencyMs, Some e)
           | Ok names => (default "" (head names), latencyMs, None)
           end
  end.
End with_env.
