(* ===== verification/Locations.v ===== *)
(** * internal/locations: the location service

    CRUD over a tenant's tree of places, the materialised path and the cycle
    guard, and the nested projection, which pages through the whole table.
    The guard's loop is the code's, bounded at 256 rounds; the paging loop
    takes fuel, one round more than there are rows is enough because every
    full page advances the cursor by at least one row. *)

From S2P Require Import Prelude Models Store MemCat Authz Forest.

Definition validation {A} (msg : string) : result error A := Err (ValidationError "locations" msg []).

Definition validate (l : Location) : result error () :=
  if is_empty (lc_Name l) then validation "name required"
  else if negb (is_empty (lc_ParentID l)) && (lc_ParentID l =s lc_ID l)
  then validation "location cannot be its own parent"
  else Ok ().

(** [strings.TrimRight(s, "/")]. *)
Fixpoint trim_right_slash (s : string) : string :=
  match s with
  | EmptyString => EmptyString
  | String c s' =>
      let t := trim_right_slash s' in
      if is_empty t && Ascii.eqb c "/" then EmptyString else String c t
  end.

Definition computePath (tenantID parentID name : string) : M string :=
  if is_empty parentID then mret ("/" +:+ name)
  else
    parent ← catch_map (λ e, match e with ErrNotFound => ValidationError "locations" "parent location not found" [] | _ => e end)
               (GetLocation tenantID parentID);
    let base := if is_empty (lc_Path parent) then "/" +:+ lc_Name parent else lc_Path parent in
    mret (trim_right_slash base +:+ "/" +:+ name).

(** The loop of [guardCycle] with [i] rounds left. *)
Fixpoint guard_loop (i : nat) (tenantID id cur : string) : M () :=
  match i with
  | O => mret ()
  | S i' =>
      if is_empty cur then mret ()
      else if cur =s id then lift (validation "parent change would create a cycle")
      else
        r ← try (GetLocation tenantID cur);
        match r with
        | Err ErrNotFound => mret ()
        | Err e => throw e
        | Ok p => guard_loop i' tenantID id (lc_ParentID p)
        end
  end.

Definition guardCycle (tenantID id parentID : string) : M () := guard_loop 256 tenantID id parentID.

Definition Get (subj : Subjects) (id : string) : M Location :=
  lift (RequireTenant subj (su_TenantID subj));;
  GetLocation (su_TenantID subj) id.

Definition List_ (subj : Subjects) (f : LocationFilter) : M (list Location) :=
  lift (RequireTenant subj (su_TenantID subj));;
  ListLocations (su_TenantID subj) f.

Section with_env.
Context `{Env}.

Definition Create (subj : Subjects) (l : Location) : M Location :=
  lift (RequireTenant subj (su_TenantID subj));;
  let l0 := {| l with lc_TenantID := su_TenantID subj |} in
  lift (validate l0);;
  id ← (if is_empty (lc_ID l0) then newID else mret (lc_ID l0));
  path ← computePath (su_TenantID subj) (lc_ParentID l0) (lc_Name l0);
  CreateLocation {| l0 with lc_ID := id; lc_Status := default_str (lc_Status l0) LocStActive;
                    lc_CreatedBy := default_str (lc_CreatedBy l0) (ActorID subj); lc_Path := path |};;
  GetLocation (su_TenantID subj) id.

Definition Update (subj : Subjects) (l : Location) : M Location :=
  lift (RequireTenant subj (su_TenantID subj));;
  let l0 := {| l with lc_TenantID := su_TenantID subj |} in
  lift (validate l0);;
  ex ← GetLocation (su_TenantID subj) (lc_ID l0);
  path ← (if negb (lc_ParentID l0 =s lc_ParentID ex) || negb (lc_Name l0 =s lc_Name ex) then
            guardCycle (su_TenantID subj) (lc_ID l0) (lc_ParentID l0);;
            computePath (su_TenantID subj) (lc_ParentID l0) (lc_Name l0)
          else mret (lc_Path ex));
  UpdateLocation {| l0 with lc_CreatedBy := lc_CreatedBy ex; lc_Status := default_str (lc_Status l0) (lc_Status ex);
                    lc_Path := path |};;
  GetLocation (su_TenantID subj) (lc_ID l0).

Definition Delete (subj : Subjects) (id : string) (force : bool) : M () :=
  lift (RequireTenant subj (su_TenantID subj));;
  (if force then mret ()
   else l ← GetLocation (su_TenantID subj) id;
        if 0 <? lc_ChildCount l then throw ErrNotEmpty else mret ());;
  DeleteLocation (su_TenantID subj) id force.

(** ** The nested projection *)

Definition page_limit : Z := 500.

(** The paging loop from a cursor. *)
Fixpoint all_pages (fuel : nat) (tenantID cursor : string) : M (list Location) :=
  match fuel with
  | O => throw LoopFuel
  | S fuel' =>
      page ← ListLocations tenantID {| zero_LocationFilter with lf_Limit := page_limit; lf_CursorID := cursor |};
      if Z.of_nat (length page) <? page_limit then mret page
      else
        rest ← all_pages fuel' tenantID match last page with Some l => lc_ID l | None => "" end;
        mret (page ++ rest)
  end.

Definition GetTree (fuel : nat) (subj : Subjects) : M (list (tree (A := Location))) :=
  lift (RequireTenant subj (su_TenantID subj));;
  all ← all_pages fuel (su_TenantID subj) "";
  mret (forest lc_ID lc_ParentID all).
End with_env.
