(* ===== verification/LocationProps.v ===== *)
(** * Correctness of the location service

    The paging loop reads the whole table, the tree shows it, and the cycle
    guard keeps the hierarchy a forest as long as it has at most 256 places. *)

From S2P Require Import Prelude Models Store MemCat MemInv Authz Forest Locations.

(** ** The tenant's locations *)

Definition tenant_locs (m : Mem) (tenantID : string) : gmap string Location :=
  filter (λ kv, (lc_TenantID (snd kv) =s tenantID) = true) (mem_locs m).

Definition loc_parents (m : Mem) (tenantID : string) : gmap string string := lc_ParentID <$> tenant_locs m tenantID.

(** Every chain of parents ends. *)
Definition acyclic (parents : gmap string string) : Prop := ∀ id, rooted parents id.

Section tables.
Context (m : Mem) (tenantID : string) (Hok : mem_ok m).
Local Notation sel := (map_select (λ l, lc_TenantID l =s tenantID) (mem_locs m)).

Lemma elem_of_locs l : l ∈ sel ↔ tenant_locs m tenantID !! lc_ID l = Some l.
Proof using Hok.
  rewrite elem_of_map_select. unfold tenant_locs. rewrite map_lookup_filter_Some. cbn.
  destruct (ok_locs _ Hok) as [Hk _]. split.
  - intros [Ht [k Hl]]. by rewrite (Hk _ _ Hl).
  - intros [Hl Ht]. eauto.
Qed.

Lemma tenant_locs_id k l : tenant_locs m tenantID !! k = Some l → lc_ID l = k ∧ lc_TenantID l = tenantID.
Proof using Hok.
  unfold tenant_locs. rewrite map_lookup_filter_Some. cbn. intros [Hl Ht]. bool_hyps.
  destruct (ok_locs _ Hok) as [Hk _]. split; [by apply Hk|done].
Qed.

Lemma locs_keys : NoDup (lc_ID <$> sel).
Proof using Hok.
  apply keyed_select_NoDup, (ok_locs _ Hok).
Qed.
End tables.

(** ** Paging *)

Lemma ListLocations_page tenantID cursor w :
  ListLocations tenantID {| zero_LocationFilter with lf_Limit := page_limit; lf_CursorID := cursor |} w =
  (w, Ok (fillLocation (w_mem w) <$>
     paginate lc_ID cursor page_limit (map_select (λ l, lc_TenantID l =s tenantID) (mem_locs (w_mem w))))).
Proof.
  unfold ListLocations, mbind, M_bind, mem, mret, M_ret. cbn [lf_Limit lf_CursorID]. do 4 f_equal.
  unfold map_select. apply List.filter_ext. intros l. unfold location_matches. cbn. by rewrite !andb_true_r.
Qed.

Section paging.
Context (w : World) (tenantID : string).
Local Notation sel := (map_select (λ l, lc_TenantID l =s tenantID) (mem_locs (w_mem w))).
Context (Hok : mem_ok (w_mem w)) (Hne : mem_locs (w_mem w) !! ""%string = None).

Lemma loc_id_nonempty l : l ∈ sel → is_empty (lc_ID l) = false.
Proof using Hok Hne.
  intros Hl%elem_of_locs; [|done]. destruct (is_empty (lc_ID l)) eqn:E; [|done]. exfalso.
  apply is_empty_spec in E. rewrite E in Hl. apply map_lookup_filter_Some in Hl as [Hl _]. congruence.
Qed.

Lemma all_pages_from fuel cursor rest :
  (∀ limit, paginate lc_ID cursor limit sel = take_limit limit rest) →
  (∃ pre, newest_first lc_ID sel = pre ++ rest) → (length rest < fuel)%nat →
  all_pages fuel tenantID cursor w = (w, Ok (fillLocation (w_mem w) <$> rest)).
Proof using Hok Hne.
  revert cursor rest. induction fuel as [|fuel IH]; intros cursor rest Hpage [pre Hpre] Hf; [lia|].
  cbn [all_pages]. rewrite (bind_Ok _ _ _ _ _ (ListLocations_page tenantID cursor w)), Hpage, length_fmap.
  unfold take_limit, page_limit.
  destruct (decide (Z.of_nat (length rest) < 500)) as [Hlt|Hge].
  { replace (500 <? Z.of_nat (length rest)) with false by lia. rewrite andb_false_r.
    replace (Z.of_nat (length rest) <? 500) with true by lia. done. }
  assert (Hpg : (if (0 <? 500) && (500 <? Z.of_nat (length rest)) then take (Z.to_nat 500) rest else rest) = take 500 rest).
  { destruct (500 <? Z.of_nat (length rest)) eqn:E; cbn; [done|]. rewrite take_ge by lia. done. }
  assert (Hfull : length (take 500 rest) = 500%nat) by (rewrite length_take; lia).
  rewrite Hpg. replace (Z.of_nat (length (take 500 rest)) <? 500) with false by (rewrite Hfull; reflexivity).
  destruct (take 500 rest) as [|x page _] eqn:Et using rev_ind; [done|].
  rewrite fmap_app. change (fillLocation (w_mem w) <$> [x]) with [fillLocation (w_mem w) x]. rewrite last_snoc.
  change (lc_ID (fillLocation (w_mem w) x)) with (lc_ID x).
  pose proof (take_drop 500 rest) as Hsplit. rewrite Et in Hsplit.
  assert (Hx : is_empty (lc_ID x) = false).
  { apply loc_id_nonempty. rewrite <- (sort_by_perm (λ a b, str_ltb (lc_ID b) (lc_ID a))).
    fold (newest_first lc_ID sel). rewrite Hpre, <- Hsplit. set_solver. }
  rewrite (bind_Ok _ _ w w (fillLocation (w_mem w) <$> drop 500 rest)).
  - pose proof (f_equal (fmap (fillLocation (w_mem w))) Hsplit) as Hall. rewrite !fmap_app in Hall.
    rewrite <- Hall. done.
  - apply IH.
    + intros limit. apply (paginate_next lc_ID limit sel (pre ++ page)); [by apply locs_keys| |done].
      rewrite Hpre, <- app_assoc. f_equal. rewrite <- Hsplit at 1. by rewrite <- app_assoc.
    + exists (pre ++ take 500 rest). by rewrite Hpre, <- app_assoc, take_drop.
    + rewrite length_drop. lia.
Qed.
End paging.

(** C31: the location tree: with more rounds of fuel than the tenant has
    locations, [GetTree] reads every page of the table and shows each location
    whose chain of parents ends exactly once, and nothing else. *)
Theorem locations_GetTree_complete subj fuel w :
  mem_ok (w_mem w) → mem_locs (w_mem w) !! ""%string = None → su_TenantID subj ≠ ""%string →
  map_count (λ l, lc_TenantID l =s su_TenantID subj) (mem_locs (w_mem w)) < Z.of_nat fuel →
  let parents := loc_parents (w_mem w) (su_TenantID subj) in
  ∃ f, GetTree fuel subj w = (w, Ok f) ∧
    let shown := lc_ID <$> concat (List.map tree_rows f) in
    NoDup shown ∧ ∀ id, id ∈ shown ↔ ∃ p, parents !! id = Some p ∧ rooted parents p.
Proof.
  intros Hok Hne Ht Hf parents. unfold GetTree.
  rewrite (bind_Ok (lift _) _ w w ()) by (unfold lift; by rewrite RequireTenant_self).
  set (sel := map_select (λ l, lc_TenantID l =s su_TenantID subj) (mem_locs (w_mem w))).
  assert (Hperm : newest_first lc_ID sel ≡ₚ sel) by apply sort_by_perm.
  rewrite (bind_Ok _ _ w w (fillLocation (w_mem w) <$> newest_first lc_ID sel)).
  2:{ apply all_pages_from; [done|done|intros limit; apply paginate_first|by exists []|].
      rewrite Hperm. unfold map_count in Hf. fold sel in Hf. lia. }
  eexists. split; [reflexivity|]. cbn zeta.
  set (l := fillLocation (w_mem w) <$> newest_first lc_ID sel).
  assert (Hids : NoDup (lc_ID <$> l)).
  { unfold l. rewrite <- list_fmap_compose. change (lc_ID ∘ fillLocation (w_mem w)) with lc_ID.
    rewrite Hperm. by apply locs_keys. }
  apply (forest_ids lc_ID lc_ParentID l Hids). intros id p. unfold parents, loc_parents. rewrite lookup_fmap_Some.
  unfold l. split.
  - intros (r & (r0 & -> & Hr0)%list_elem_of_fmap & <- & <-). exists r0. split; [done|].
    rewrite Hperm in Hr0. by apply elem_of_locs in Hr0.
  - intros (r & <- & Hr). destruct (tenant_locs_id _ _ Hok _ _ Hr) as [<- _].
    exists (fillLocation (w_mem w) r). split; [|done]. apply list_elem_of_fmap_2. rewrite Hperm. by apply elem_of_locs.
Qed.

(** ** The cycle guard *)

Definition ex_region : Location :=
  {| zero_Location with lc_ID := "r"; lc_TenantID := "t1"; lc_Name := "region"; lc_Path := "/region" |}.
Definition ex_site : Location :=
  {| zero_Location with lc_ID := "s"; lc_TenantID := "t1"; lc_Name := "site"; lc_ParentID := "r"; lc_Path := "/region/site" |}.

Definition ex_loc_world : World :=
  fst (CreateLocation (H := ex_env) ex_site (fst (CreateLocation (H := ex_env) ex_region init_world))).

Lemma ex_loc_ok : mem_ok (w_mem ex_loc_world).
Proof. apply (CreateLocation_preserves (H := ex_env)), (CreateLocation_preserves (H := ex_env)), New_ok. Qed.

Lemma locations_GetTree_complete_witness :
  ∃ f, GetTree 3 ex_subject ex_loc_world = (ex_loc_world, Ok f) ∧ NoDup (lc_ID <$> concat (List.map tree_rows f)).
Proof.
  destruct (locations_GetTree_complete ex_subject 3 ex_loc_world ex_loc_ok) as (f & E & Hnd & _);
    [vm_compute; reflexivity|discriminate|vm_compute; reflexivity|].
  exists f. split; [exact E|exact Hnd].
Defined.

Section guard.
Context (w : World) (tenantID : string).
Local Notation parents := (loc_parents (w_mem w) tenantID).

Lemma GetLocation_parent cur :
  match GetLocation tenantID cur w with
  | (w', Ok p) => w' = w ∧ parents !! cur = Some (lc_ParentID p)
  | (w', Err e) => w' = w ∧ e = ErrNotFound ∧ parents !! cur = None
  end.
Proof.
  unfold GetLocation, mbind, M_bind, mem, loc_parents, tenant_locs. rewrite lookup_fmap, map_lookup_filter.
  destruct (mem_locs (w_mem w) !! cur) as [l|]; cbn; [|done].
  destruct (lc_TenantID l =s tenantID) eqn:E; cbn; done.
Qed.

Lemma guard_loop_world i id cur w' u : guard_loop i tenantID id cur w = (w', Ok u) → w' = w.
Proof.
  revert cur. induction i as [|i IH]; intros cur Hrun; cbn in Hrun; [by m_inv|].
  destruct (is_empty cur); [by m_inv|]. destruct (cur =s id); [by m_inv|].
  apply bind_inv in Hrun as (w1 & r & Hget & Hrun). apply try_inv in Hget.
  pose proof (GetLocation_parent cur) as Hp. rewrite Hget in Hp. destruct r as [p|e].
  - destruct Hp as [-> _]. by eapply IH.
  - destruct Hp as (-> & -> & _). by m_inv.
Qed.

Lemma guard_loop_inv i id cur w' u :
  id ≠ ""%string → guard_loop i tenantID id cur w = (w', Ok u) →
  w' = w ∧ ∀ n, (n < i)%nat → up parents n cur ≠ Some id.
Proof.
  intros Hid. revert cur. induction i as [|i IH]; intros cur Hrun; cbn in Hrun.
  { m_inv. split; [done|]. intros n Hn. lia. }
  destruct (is_empty cur) eqn:Ee.
  { m_inv. apply is_empty_spec in Ee as ->. split; [done|]. intros [|n] _; cbn; [congruence|done]. }
  destruct (cur =s id) eqn:Ec; [by m_inv|]. bool_hyps.
  apply bind_inv in Hrun as (w1 & r & Hget & Hrun). apply try_inv in Hget.
  pose proof (GetLocation_parent cur) as Hp. rewrite Hget in Hp. destruct r as [p|e].
  - destruct Hp as [-> Hp]. apply IH in Hrun as [-> Hn]. split; [done|].
    intros [|n] Hlt; cbn; [congruence|]. unfold parent_of. rewrite Ee, Hp. apply Hn. lia.
  - destruct Hp as (-> & -> & Hp). m_inv. split; [done|].
    intros [|n] _; cbn; [congruence|]. unfold parent_of. by rewrite Ee, Hp.
Qed.
End guard.

(** A read that succeeds leaves the world as it is. *)
Lemma GetLocation_inv tenantID id w w' l :
  GetLocation tenantID id w = (w', Ok l) → w' = w ∧ loc_parents (w_mem w) tenantID !! id = Some (lc_ParentID l).
Proof. intros Hrun. pose proof (GetLocation_parent w tenantID id) as Hp. by rewrite Hrun in Hp. Qed.

Lemma computePath_inv tenantID parentID name w w' p : computePath tenantID parentID name w = (w', Ok p) → w' = w.
Proof.
  unfold computePath. destruct (is_empty parentID); intros Hrun; m_inv; [done|].
  by match goal with H : GetLocation _ _ _ = _ |- _ => apply GetLocation_inv in H as [-> _] end.
Qed.

Lemma UpdateLocation_inv `{Env} l w w' u :
  UpdateLocation l w = (w', Ok u) →
  loc_parents (w_mem w') (lc_TenantID l) = <[lc_ID l := lc_ParentID l]> (loc_parents (w_mem w) (lc_TenantID l)).
Proof.
  unfold UpdateLocation. intros Hrun. m_inv. destruct (mem_locs (w_mem w) !! lc_ID l) as [ex|] eqn:El; [|by m_inv].
  destruct (negb (lc_TenantID ex =s lc_TenantID l)); [by m_inv|]. destruct (map_any _ _); [by m_inv|].
  apply bind_inv in Hrun as (w1 & t & Ht & Hrun). apply now_inv in Ht as [Hw1 _]. apply set_mem_inv in Hrun as [-> _].
  rewrite Hw1. unfold loc_parents, tenant_locs. cbn. rewrite map_filter_insert_True by (cbn; apply String.eqb_refl).
  by rewrite fmap_insert.
Qed.

(** C32: the cycle guard: as long as a tenant has at most 256 locations and every
    chain of parents ends, every chain of parents still ends after an update
    of a location that succeeds, whatever parent it names. *)
Theorem locations_Update_acyclic `{Env} subj l w w' l' :
  mem_locs (w_mem w) !! ""%string = None →
  acyclic (loc_parents (w_mem w) (su_TenantID subj)) →
  (size (loc_parents (w_mem w) (su_TenantID subj)) ≤ 256)%nat →
  Update subj l w = (w', Ok l') → acyclic (loc_parents (w_mem w') (su_TenantID subj)).
Proof.
  intros Hne Hac Hsize Hrun. unfold Update in Hrun.
  apply bind_inv in Hrun as (w1 & [] & Ht & Hrun). apply lift_inv in Ht as [-> _].
  apply bind_inv in Hrun as (w1 & [] & Hv & Hrun). apply lift_inv in Hv as [-> _]. cbn [lc_ID lc_TenantID lc_ParentID lc_Name] in Hrun.
  apply bind_inv in Hrun as (w1 & ex & Hget & Hrun). apply GetLocation_inv in Hget as [-> Hex].
  apply bind_inv in Hrun as (w2 & path & Hpath & Hrun).
  apply bind_inv in Hrun as (w3 & [] & Hupd & Hget). apply GetLocation_inv in Hget as [-> _].
  apply UpdateLocation_inv in Hupd. cbn [lc_ID lc_TenantID lc_ParentID] in Hupd. rewrite Hupd. clear Hupd.
  set (parents := loc_parents (w_mem w) (su_TenantID subj)) in *.
  assert (Hid : lc_ID l ≠ ""%string).
  { intros E. rewrite E in Hex. unfold parents, loc_parents in Hex. apply lookup_fmap_Some in Hex as (x & _ & Hx).
    apply map_lookup_filter_Some in Hx as [Hx _]. congruence. }
  destruct (negb (lc_ParentID l =s lc_ParentID ex) || negb (lc_Name l =s lc_Name ex)) eqn:Ech.
  - apply bind_inv in Hpath as (w4 & [] & Hg & Hp). apply guard_loop_inv in Hg as [-> Hguard]; [|done].
    apply computePath_inv in Hp as ->. fold parents in Hguard. fold parents.
    intros c. apply (reparent_acyclic parents); [done|exact Hac|].
    intros n Hn. destruct (decide (n < 256)%nat) as [Hlt|Hge]; [by apply (Hguard n)|].
    assert (S n ≤ size parents)%nat; [|lia].
    apply (chain_length parents (S n) (lc_ParentID l) (lc_ParentID ex)); [exact Hac|].
    replace (S n) with (n + 1)%nat by lia. rewrite up_add, Hn. cbn. unfold parent_of.
    destruct (is_empty (lc_ID l)) eqn:E; [by apply is_empty_spec in E|]. by rewrite Hex.
  - apply ret_inv in Hpath as [-> _]. apply orb_false_iff in Ech as [Ech _]. apply negb_false_iff, String.eqb_eq in Ech.
    rewrite Ech, insert_id; [exact Hac|exact Hex].
Qed.

Definition ex_parents : gmap string string := <["s" := "r"]> (<["r" := ""]> ∅).

Lemma ex_loc_parents : loc_parents (w_mem ex_loc_world) (su_TenantID ex_subject) = ex_parents.
Proof. vm_compute. reflexivity. Qed.

Lemma ex_acyclic : acyclic ex_parents.
Proof.
  intros c. destruct (decide (c = "s"%string)) as [->|Hs]; [by exists 3%nat|].
  destruct (decide (c = "r"%string)) as [->|Hr]; [by exists 2%nat|].
  exists 1%nat. cbn [up]. unfold parent_of. destruct (is_empty c); [done|].
  unfold ex_parents. by rewrite !lookup_insert_ne, lookup_empty by congruence.
Qed.

Lemma locations_Update_acyclic_witness :
  let moved := {| ex_region with lc_ParentID := "s" |} in
  let renamed := {| ex_site with lc_Name := "campus" |} in
  snd (Update (H := ex_env) ex_subject moved ex_loc_world)
    = Err (ValidationError "locations" "parent change would create a cycle" []) ∧
  acyclic (loc_parents (w_mem (fst (Update (H := ex_env) ex_subject renamed ex_loc_world))) (su_TenantID ex_subject)).
Proof.
  split; [vm_compute; reflexivity|].
  destruct (Update (H := ex_env) ex_subject {| ex_site with lc_Name := "campus" |} ex_loc_world) as [w' [l'|e]] eqn:E.
  - apply (locations_Update_acyclic (H := ex_env) ex_subject {| ex_site with lc_Name := "campus" |} ex_loc_world w' l');
      [vm_compute; reflexivity|rewrite ex_loc_parents; exact ex_acyclic|rewrite ex_loc_parents; vm_compute; lia|exact E].
  - apply (f_equal snd) in E. vm_compute in E. discriminate E.
Defined.

Lemma UpdateLocation_row `{Env} l w w' u :
  UpdateLocation l w = (w', Ok u) →
  ∃ row, w_mem w' = (let m := w_mem w in {| m with mem_locs := <[lc_ID l := row]> (mem_locs m) |}) ∧
    lc_ParentID row = lc_ParentID l ∧ lc_Name row = lc_Name l ∧ lc_Path row = lc_Path l ∧ lc_TenantID row = lc_TenantID l.
Proof.
  unfold UpdateLocation. intros Hrun. m_inv. destruct (mem_locs (w_mem w) !! lc_ID l) as [ex|] eqn:El; [|by m_inv].
  destruct (negb (lc_TenantID ex =s lc_TenantID l)); [by m_inv|]. destruct (map_any _ _); [by m_inv|].
  apply bind_inv in Hrun as (w1 & t & Ht & Hrun). apply now_inv in Ht as [Hw1 _]. apply set_mem_inv in Hrun as [Hm _].
  eexists. rewrite Hm, Hw1. split; [reflexivity|done].
Qed.

(** The path of a place under a stored parent. *)
Definition path_under (m : Mem) (tenantID parentID name path : string) : Prop :=
  if is_empty parentID then path = "/" +:+ name
  else ∃ p, tenant_locs m tenantID !! parentID = Some p ∧
    path = trim_right_slash (if is_empty (lc_Path p) then "/" +:+ lc_Name p else lc_Path p) +:+ "/" +:+ name.

Lemma computePath_path tenantID parentID name w w' p :
  computePath tenantID parentID name w = (w', Ok p) → path_under (w_mem w) tenantID parentID name p.
Proof.
  unfold computePath, path_under. destruct (is_empty parentID); intros Hrun; [by m_inv|].
  apply bind_inv in Hrun as (w1 & parent & Hget & Hrun). apply ret_inv in Hrun as [_ ->]. apply catch_map_inv in Hget.
  unfold GetLocation, mbind, M_bind, mem in Hget. destruct (mem_locs (w_mem w) !! parentID) as [l|] eqn:El; [|done].
  destruct (lc_TenantID l =s tenantID) eqn:Et; [|done]. injection Hget as <- <-. exists l. split; [|done].
  by apply map_lookup_filter_Some.
Qed.

(** Moving or renaming a location: a successful [Update] that changes the
    parent or the name stores the path derived from the new parent's stored
    path, and rewrites no other row: the paths stored for its descendants
    stay as they were. *)
Theorem locations_Update_path `{Env} subj l w w' l' :
  Update subj l w = (w', Ok l') →
  ∃ ex row, mem_locs (w_mem w) !! lc_ID l = Some ex ∧
    w_mem w' = (let m := w_mem w in {| m with mem_locs := <[lc_ID l := row]> (mem_locs m) |}) ∧
    lc_ParentID row = lc_ParentID l ∧ lc_Name row = lc_Name l ∧
    (lc_ParentID l ≠ lc_ParentID ex ∨ lc_Name l ≠ lc_Name ex →
       path_under (w_mem w) (su_TenantID subj) (lc_ParentID l) (lc_Name l) (lc_Path row)) ∧
    (lc_ParentID l = lc_ParentID ex ∧ lc_Name l = lc_Name ex → lc_Path row = lc_Path ex) ∧
    ∀ k, k ≠ lc_ID l → mem_locs (w_mem w') !! k = mem_locs (w_mem w) !! k.
Proof.
  intros Hrun. unfold Update in Hrun.
  apply bind_inv in Hrun as (w1 & [] & Ht & Hrun). apply lift_inv in Ht as [-> _].
  apply bind_inv in Hrun as (w1 & [] & Hv & Hrun). apply lift_inv in Hv as [-> _]. cbn [lc_ID lc_TenantID lc_ParentID lc_Name] in Hrun.
  apply bind_inv in Hrun as (w1 & shown & Hget & Hrun).
  assert (Hex : w1 = w ∧ ∃ ex, mem_locs (w_mem w) !! lc_ID l = Some ex ∧ shown = fillLocation (w_mem w) ex).
  { unfold GetLocation, mbind, M_bind, mem in Hget. destruct (mem_locs (w_mem w) !! lc_ID l) as [ex|]; [|done].
    destruct (lc_TenantID ex =s _); [|done]. injection Hget as <- <-. eauto. }
  destruct Hex as (-> & ex & Hex & ->). cbn [fillLocation lc_ParentID lc_Name lc_Path] in Hrun.
  apply bind_inv in Hrun as (w2 & path & Hpath & Hrun).
  apply bind_inv in Hrun as (w3 & [] & Hupd & Hget'). apply GetLocation_inv in Hget' as [-> _].
  apply UpdateLocation_row in Hupd as (row & Hm & Hp & Hn & Hpa & _). cbn [lc_ID lc_ParentID lc_Name lc_Path] in *.
  assert (Hw2 : w_mem w2 = w_mem w ∧
    (lc_ParentID l ≠ lc_ParentID ex ∨ lc_Name l ≠ lc_Name ex → path_under (w_mem w) (su_TenantID subj) (lc_ParentID l) (lc_Name l) path) ∧
    (lc_ParentID l = lc_ParentID ex ∧ lc_Name l = lc_Name ex → path = lc_Path ex)).
  { destruct (lc_ParentID l =s lc_ParentID ex) eqn:E1, (lc_Name l =s lc_Name ex) eqn:E2; bool_hyps; cbn [negb orb] in Hpath.
    1: { apply ret_inv in Hpath as [-> ->]. naive_solver. }
    all: apply bind_inv in Hpath as (w4 & [] & Hg & Hcp).
    all: apply guard_loop_world in Hg as ->.
    all: pose proof (computePath_inv _ _ _ _ _ _ Hcp) as ->; apply computePath_path in Hcp; naive_solver. }
  destruct Hw2 as (E2 & Hpth & Hsame). rewrite E2 in Hm. exists ex, row. split_and!; try done.
  - rewrite Hpa. exact Hpth.
  - rewrite Hpa. exact Hsame.
  - intros k Hk. rewrite Hm. cbn. by rewrite lookup_insert_ne.
Qed.

Lemma locations_Update_path_witness :
  let renamed := {| ex_region with lc_Name := "emea" |} in
  let r := Update (H := ex_env) ex_subject renamed ex_loc_world in
  (lc_Path <$> mem_locs (w_mem (fst r)) !! "r"%string = Some "/emea"%string) ∧
  (lc_Path <$> mem_locs (w_mem (fst r)) !! "s"%string = Some "/region/site"%string).
Proof.
  destruct (Update (H := ex_env) ex_subject {| ex_region with lc_Name := "emea" |} ex_loc_world) as [w' [l'|e]] eqn:E; cbn zeta.
  - destruct (locations_Update_path (H := ex_env) ex_subject {| ex_region with lc_Name := "emea" |} ex_loc_world w' l' E)
      as (ex & row & Hex & Hm & Hp & Hn & Hpath & _ & Hother).
    rewrite E. cbn [fst]. split; [|rewrite (Hother "s"%string) by discriminate; vm_compute; reflexivity].
    rewrite Hm. cbn [mem_locs]. rewrite lookup_insert_eq. cbn.
    assert (Hname : lc_Name <$> mem_locs (w_mem ex_loc_world) !! "r"%string = Some "region"%string) by (vm_compute; reflexivity).
    change (mem_locs (w_mem ex_loc_world) !! "r"%string = Some ex) in Hex. rewrite Hex in Hname. injection Hname as Hname.
    rewrite Hpath; [reflexivity|]. right. cbn. rewrite Hname. discriminate.
  - apply (f_equal snd) in E. vm_compute in E. discriminate E.
Defined.
