(* ===== verification/StoreProps.v ===== *)
(** * Properties of store operations

    The scan queue hands out each due job once and in order, ARP observations
    never overwrite a MAC address another source owns, and identifiers are
    ordered by creation time. *)

From S2P Require Import Prelude GoNet Models Store MemNet MemDev MemScan MemInv.

(** ** The scan queue *)

Lemma fold_insert_lookup {V} (id : V → string) (l : list V) (acc : gmap string V) k :
  NoDup (id <$> l) →
  foldl (λ acc j, <[id j := j]> acc) acc l !! k =
  match find_first (λ j, id j =s k) l with Some j => Some j | None => acc !! k end.
Proof.
  revert acc. induction l as [|x l IH]; intros acc Hnd; cbn [foldl find_first]; [done|].
  cbn in Hnd. apply NoDup_cons in Hnd as [Hx Hnd]. rewrite IH by done.
  destruct (id x =s k) eqn:E; bool_hyps.
  - subst k. destruct (find_first _ l) as [j|] eqn:Ef; [|by rewrite lookup_insert_eq].
    exfalso. apply find_first_Some in Ef as [Hj Ej]. bool_hyps. apply Hx. rewrite <- Ej. by apply list_elem_of_fmap_2.
  - destruct (find_first _ l); [done|]. by rewrite lookup_insert_ne.
Qed.

Lemma due_less_asym x y : due_less x y = true → due_less y x = false.
Proof.
  unfold due_less. destruct (dueKey x =? dueKey y) eqn:E1, (dueKey y =? dueKey x) eqn:E2; bool_hyps; cbn; intros; try lia.
  by apply str_ltb_asym.
Qed.

Lemma due_less_trans x y z : due_less y x = false → due_less z y = false → due_less z x = false.
Proof.
  unfold due_less.
  destruct (dueKey y =? dueKey x) eqn:E1, (dueKey z =? dueKey y) eqn:E2, (dueKey z =? dueKey x) eqn:E3;
    bool_hyps; cbn; intros; try lia. by eapply str_ltb_false_trans.
Qed.

(** Keeping the first [limit] elements of a sorted list keeps the least ones. *)
Lemma take_limit_sorted {A} (less : A → A → bool) limit (l : list A) :
  StronglySorted (le_by less) l →
  (∀ x, x ∈ take_limit limit l → x ∈ l) ∧
  ∀ x, x ∈ l → x ∉ take_limit limit l →
    0 < limit ∧ Z.of_nat (length (take_limit limit l)) = limit ∧ ∀ d, d ∈ take_limit limit l → less x d = false.
Proof.
  intros Hs. unfold take_limit. destruct ((0 <? limit) && (limit <? Z.of_nat (length l))) eqn:E; [|done]. bool_hyps.
  split; [intros x Hx; by eapply elem_of_sublist, sublist_take|]. intros x Hx Hnx. split_and!; [lia|rewrite length_take; lia|].
  intros d Hd. rewrite <- (take_drop (Z.to_nat limit) l) in Hx, Hs. apply elem_of_app in Hx as [?|Hx]; [done|].
  apply StronglySorted_app in Hs as (Hle & _). exact (Hle d x Hd Hx).
Qed.

Section claim.
Context `{Env}.

Lemma ClaimDueScanJobs_inv at_ limit w w' out :
  ClaimDueScanJobs at_ limit w = (w', Ok out) →
  ∃ t, let due := take_limit limit (sort_by due_less (map_select (is_due at_) (mem_scans (w_mem w)))) in
    out = claim t <$> due ∧
    mem_scans (w_mem w') = foldl (λ acc j, <[sj_ID j := j]> acc) (mem_scans (w_mem w)) out.
Proof.
  unfold ClaimDueScanJobs. intros Hrun. apply bind_inv in Hrun as (w0 & [] & Hf & Hrun). apply fail_inv in Hf as ->.
  apply bind_inv in Hrun as (w0 & m & Hm & Hrun). apply mem_inv in Hm as [-> ->].
  apply bind_inv in Hrun as (w1 & t & Ht & Hrun).
  apply now_inv in Ht as [Hw1 _]. apply bind_inv in Hrun as (w2 & [] & Hset & Hrun). apply set_mem_inv in Hset as [Hm _].
  apply ret_inv in Hrun as [-> ->]. exists t. split; [done|]. rewrite Hm, Hw1. done.
Qed.

Lemma ClaimDueScanJobs_spec at_ limit w w' out :
  keyed sj_ID (mem_scans (w_mem w)) → ClaimDueScanJobs at_ limit w = (w', Ok out) →
  ∃ t due, out = claim t <$> due ∧ NoDup (sj_ID <$> due) ∧
    (∀ j, j ∈ due → mem_scans (w_mem w) !! sj_ID j = Some j ∧ is_due at_ j = true ∧
       mem_scans (w_mem w') !! sj_ID j = Some (claim t j)) ∧
    (∀ k, k ∉ sj_ID <$> due → mem_scans (w_mem w') !! k = mem_scans (w_mem w) !! k) ∧
    (∀ k j, mem_scans (w_mem w) !! k = Some j → is_due at_ j = true → j ∉ due →
       0 < limit ∧ Z.of_nat (length due) = limit ∧ ∀ d, d ∈ due → due_less j d = false).
Proof.
  intros Hok (t & -> & Hm)%ClaimDueScanJobs_inv. set (sel := map_select (is_due at_) (mem_scans (w_mem w))) in *.
  destruct (take_limit_sorted due_less limit (sort_by due_less sel)
    (sort_by_sorted due_less due_less_asym due_less_trans sel)) as [Hsub Hleft].
  set (due := take_limit limit (sort_by due_less sel)) in *.
  assert (Hnd : NoDup (sj_ID <$> due)).
  { assert (Hall : NoDup (sj_ID <$> sort_by due_less sel)).
    { rewrite sort_by_perm. by apply keyed_select_NoDup. }
    unfold due, take_limit. destruct (_ && _); [|done]. eapply sublist_NoDup; [exact Hall|].
    apply fmap_sublist, sublist_take. }
  assert (Hin : ∀ j, j ∈ due → mem_scans (w_mem w) !! sj_ID j = Some j ∧ is_due at_ j = true).
  { intros j Hj%Hsub. apply elem_of_sort_by, elem_of_map_select in Hj as [Hd [k Hk]].
    by rewrite (Hok _ _ Hk). }
  assert (Hlook : ∀ k, mem_scans (w_mem w') !! k =
    match find_first (λ j, sj_ID j =s k) (claim t <$> due) with Some j => Some j | None => mem_scans (w_mem w) !! k end).
  { intros k. rewrite Hm. apply fold_insert_lookup. rewrite <- list_fmap_compose. exact Hnd. }
  exists t, due. split_and!; [done|done| | |].
  - intros j Hj. destruct (Hin j Hj) as [Hl Hd]. split_and!; [done|done|]. rewrite Hlook.
    destruct (find_first _ _) as [j'|] eqn:Ef.
    + apply find_first_Some in Ef as [(j0 & -> & Hj0)%list_elem_of_fmap E]. bool_hyps.
      destruct (Hin j0 Hj0) as [Hl0 _]. change (sj_ID j0 = sj_ID j) in E. rewrite E in Hl0. congruence.
    + assert (Hc : claim t j ∈ claim t <$> due) by by apply list_elem_of_fmap_2.
      pose proof (find_first_None _ _ _ Ef Hc) as Hf. cbn in Hf. by rewrite String.eqb_refl in Hf.
  - intros k Hk. rewrite Hlook. destruct (find_first _ _) as [j'|] eqn:Ef; [|done]. exfalso. apply Hk.
    apply find_first_Some in Ef as [(j0 & -> & Hj0)%list_elem_of_fmap E]. bool_hyps.
    change (sj_ID j0 = k) in E. subst k. by apply list_elem_of_fmap_2.
  - intros k j Hj Hd Hn. apply Hleft; [|done]. apply elem_of_sort_by, elem_of_map_select. eauto.
Qed.
End claim.

(** C30: claiming due scans: [ClaimDueScanJobs] claims jobs that were pending and
    due, each once, marks exactly those as scanning and leaves every other job
    alone; it leaves a due job only when the limit is used up by jobs that are
    not later than it; a later claim never returns a claimed job again. *)
Theorem ClaimDueScanJobs_exact `{Env} at_ limit w w' out :
  mem_ok (w_mem w) → ClaimDueScanJobs at_ limit w = (w', Ok out) →
  ∃ t due, out = claim t <$> due ∧ NoDup (sj_ID <$> due) ∧
    (∀ j, j ∈ due → mem_scans (w_mem w) !! sj_ID j = Some j ∧ is_due at_ j = true ∧
       mem_scans (w_mem w') !! sj_ID j = Some (claim t j)) ∧
    (∀ k, k ∉ sj_ID <$> due → mem_scans (w_mem w') !! k = mem_scans (w_mem w) !! k) ∧
    (∀ k j, mem_scans (w_mem w) !! k = Some j → is_due at_ j = true → j ∉ due →
       0 < limit ∧ Z.of_nat (length due) = limit ∧ ∀ d, d ∈ due → due_less j d = false) ∧
    (∀ at2 limit2 w2 out2, ClaimDueScanJobs at2 limit2 w' = (w2, Ok out2) →
       ∀ id, id ∈ sj_ID <$> out → id ∉ sj_ID <$> out2).
Proof.
  intros Hok Hrun. pose proof (ClaimDueScanJobs_preserves at_ limit w Hok) as Hok'. rewrite Hrun in Hok'. cbn in Hok'.
  destruct (ClaimDueScanJobs_spec _ _ _ _ _ (ok_scans _ Hok) Hrun) as (t & due & -> & Hnd & Hin & Hout & Hleft).
  exists t, due. split_and!; try done. intros at2 limit2 w2 out2 Hrun2 id Hid Hid2.
  destruct (ClaimDueScanJobs_spec _ _ _ _ _ (ok_scans _ Hok') Hrun2) as (t2 & due2 & -> & _ & Hin2 & _).
  apply list_elem_of_fmap in Hid as (? & -> & (j & -> & Hj)%list_elem_of_fmap).
  apply list_elem_of_fmap in Hid2 as (? & E & (j2 & -> & Hj2)%list_elem_of_fmap).
  destruct (Hin j Hj) as (_ & _ & H1). destruct (Hin2 j2 Hj2) as (H2 & Hd2 & _).
  change (sj_ID j = sj_ID j2) in E. rewrite <- E, H1 in H2. injection H2 as <-. by destruct t2.
Qed.

Definition ex_job (id : string) (at_ : Time) : IPScanJob :=
  {| zero_IPScanJob with sj_ID := id; sj_TenantID := "t1"; sj_Status := ScanPending; sj_CreatedAt := at_ |}.

Definition ex_scan_world : World :=
  fst (CreateScanJob (H := ex_env) (ex_job "late" 20) (fst (CreateScanJob (H := ex_env) (ex_job "early" 10) init_world))).

Lemma ClaimDueScanJobs_exact_witness :
  ∃ w' out t due, ClaimDueScanJobs (H := ex_env) 100 1 ex_scan_world = (w', Ok out) ∧ sj_ID <$> out = ["early"%string] ∧
    out = claim t <$> due ∧ ∀ at2 limit2 w2 out2, ClaimDueScanJobs (H := ex_env) at2 limit2 w' = (w2, Ok out2) →
      ∀ id, id ∈ sj_ID <$> out → id ∉ sj_ID <$> out2.
Proof.
  destruct (ClaimDueScanJobs (H := ex_env) 100 1 ex_scan_world) as [w' [out|e]] eqn:E.
  - destruct (ClaimDueScanJobs_exact (H := ex_env) 100 1 ex_scan_world w' out) as (t & due & Ho & _ & _ & _ & _ & Hn);
      [apply (CreateScanJob_preserves (H := ex_env)), (CreateScanJob_preserves (H := ex_env)), New_ok|exact E|].
    exists w', out, t, due. split; [reflexivity|]. split; [|exact (conj Ho Hn)].
    apply (f_equal (λ r, match snd r with Ok o => sj_ID <$> o | Err _ => [] end)) in E. vm_compute in E. symmetry. exact E.
  - apply (f_equal snd) in E. vm_compute in E. discriminate E.
Defined.

(** ** ARP observations *)

(** The row with only the bookkeeping of an observation changed. *)
Definition noted (a a' : IPAddress) : Prop :=
  ∃ conflict seen source updated,
    a' = {| a with ad_MACConflict := conflict; ad_MACSeenAt := seen; ad_MACSourceDeviceID := source; ad_UpdatedAt := updated |}.

(** What an ARP op for [tenantID] may do to a stored row. *)
Definition arp_kept (tenantID : string) (a a' : IPAddress) : Prop :=
  ad_TenantID a' = ad_TenantID a ∧ (ad_TenantID a ≠ tenantID → a' = a) ∧ (arpOwned a = false → noted a a').

Lemma noted_refl a : noted a a.
Proof. exists (ad_MACConflict a), (ad_MACSeenAt a), (ad_MACSourceDeviceID a), (ad_UpdatedAt a). by destruct a. Qed.

Lemma noted_trans a b c : noted a b → noted b c → noted a c.
Proof. intros (?&?&?&?&->) (?&?&?&?&->). by eexists _, _, _, _. Qed.

Lemma noted_owned a a' : noted a a' → arpOwned a' = arpOwned a.
Proof. by intros (?&?&?&?&->). Qed.

Lemma arp_kept_refl t a : arp_kept t a a.
Proof. split_and!; [done|done|]. intros _. apply noted_refl. Qed.

Lemma arp_kept_trans t a b c : arp_kept t a b → arp_kept t b c → arp_kept t a c.
Proof.
  intros (T1 & O1 & N1) (T2 & O2 & N2). split_and!; [congruence| |].
  - intros Hne. rewrite O2 by congruence. by apply O1.
  - intros Ho. pose proof (N1 Ho) as Hn. eapply noted_trans; [exact Hn|]. apply N2. by rewrite (noted_owned _ _ Hn).
Qed.

(** Every stored row is kept. *)
Definition addrs_kept (t : string) (m m' : Mem) : Prop :=
  ∀ k a, mem_addrs m !! k = Some a → ∃ a', mem_addrs m' !! k = Some a' ∧ arp_kept t a a'.

Lemma addrs_kept_same t m m' : mem_addrs m' = mem_addrs m → addrs_kept t m m'.
Proof. intros E k a Hk. exists a. rewrite E. split; [done|apply arp_kept_refl]. Qed.

Lemma addrs_kept_trans t m1 m2 m3 : addrs_kept t m1 m2 → addrs_kept t m2 m3 → addrs_kept t m1 m3.
Proof.
  intros H1 H2 k a Hk. destruct (H1 k a Hk) as (a2 & Ha2 & K1). destruct (H2 k a2 Ha2) as (a3 & Ha3 & K2).
  exists a3. split; [done|]. by eapply arp_kept_trans.
Qed.

Section arp.
Context `{Env} (tenantID : string).

Lemma arp_change_kept op a a' u :
  arp_change op a = Some a' → ad_TenantID a = tenantID →
  arp_kept tenantID a {| a' with ad_UpdatedAt := u |}.
Proof.
  intros Hc Ht. unfold arp_kept. split_and!; [|congruence|].
  - unfold arp_change in Hc. repeat (case_match; simplify_eq; try done).
  - intros Ho. unfold arp_change in Hc. rewrite Ho in Hc. unfold noted.
    repeat (case_match; simplify_eq; try done); by eexists _, _, _, _.
Qed.

Lemma applyARPOp_kept op w w' r :
  mem_ok (w_mem w) → applyARPOpLocked tenantID op w = (w', r) → addrs_kept tenantID (w_mem w) (w_mem w').
Proof.
  intros Hok. unfold applyARPOpLocked. rewrite (bind_Ok mem _ w w (w_mem w) eq_refl).
  destruct (ao_Kind op =s ARPCreate).
  - destruct (is_some (findAddrLocked _ _ _) || _); [intros [= <- _]; by apply addrs_kept_same|].
    destruct (is_some (mem_addrs (w_mem w) !! ao_AddressID op)) eqn:Ei; [intros [= <- _]; by apply addrs_kept_same|].
    intros [= <- _]. intros k a Hk. exists a. split; [|apply arp_kept_refl]. cbn. rewrite lookup_insert_ne; [done|].
    intros <-. by rewrite Hk in Ei.
  - destruct (mem_addrs (w_mem w) !! ao_AddressID op) as [a|] eqn:Ea; [|intros [= <- _]; by apply addrs_kept_same].
    destruct (ad_TenantID a =s tenantID) eqn:Et; cbn [negb]; [|intros [= <- _]; by apply addrs_kept_same]. bool_hyps.
    destruct (arp_change op a) as [a'|] eqn:Ec; [|intros [= <- _]; by apply addrs_kept_same].
    intros [= <- _]. intros k x Hk. cbn. destruct (ok_addrs _ Hok) as [Hkey _]. rewrite (Hkey _ _ Ea).
    destruct (decide (k = ao_AddressID op)) as [->|Hne].
    + rewrite lookup_insert_eq. rewrite Ea in Hk. injection Hk as <-. eexists. split; [reflexivity|]. by eapply arp_change_kept.
    + rewrite lookup_insert_ne by done. exists x. split; [done|apply arp_kept_refl].
Qed.

Lemma appendAudit_run row w :
  ∃ w1, appendAuditLocked row w = (w1, Ok ()) ∧ mem_addrs (w_mem w1) = mem_addrs (w_mem w).
Proof.
  unfold appendAuditLocked, mbind, M_bind. destruct (is_empty (ar_ID row)), (IsZero (ar_At row)); cbn;
    eexists; (split; [reflexivity|done]).
Qed.

Lemma append_rows_addrs l w w' r : append_rows tenantID l w = (w', r) → mem_addrs (w_mem w') = mem_addrs (w_mem w).
Proof.
  unfold append_rows. revert w. induction l as [|row l IH]; intros w Hrun; cbn [mapM_] in Hrun; [by injection Hrun as <- _|].
  destruct (appendAudit_run {| row with ar_TenantID := tenantID |} w) as (w1 & E & Hw1).
  rewrite (bind_Ok _ _ _ _ _ E) in Hrun. by rewrite (IH _ Hrun), Hw1.
Qed.

Lemma mapM_kept ops w w' r :
  mem_ok (w_mem w) →
  mapM_ (λ op, done_ ← applyARPOpLocked tenantID op;
               if (done_ : bool) then append_rows tenantID (ao_Audit op) else mret ()) ops w = (w', r) →
  mem_ok (w_mem w') ∧ addrs_kept tenantID (w_mem w) (w_mem w').
Proof.
  revert w. induction ops as [|op ops IH]; intros w Hok Hrun; cbn [mapM_] in Hrun.
  { injection Hrun as <- _. split; [done|by apply addrs_kept_same]. }
  unfold mbind at 1, M_bind at 1 in Hrun.
  destruct ((done_ ← applyARPOpLocked tenantID op; if (done_ : bool) then append_rows tenantID (ao_Audit op) else mret ()) w)
    as [w1 r1] eqn:E1.
  assert (Hstep : mem_ok (w_mem w1) ∧ addrs_kept tenantID (w_mem w) (w_mem w1)).
  { unfold mbind, M_bind in E1. destruct (applyARPOpLocked tenantID op w) as [w2 [b|e]] eqn:E2.
    - pose proof (applyARPOp_kept op w w2 _ Hok E2) as Hk2.
      pose proof (applyARPOp_preserves tenantID op w Hok) as Hok2. rewrite E2 in Hok2. cbn in Hok2. destruct b.
      + pose proof (append_rows_preserves tenantID (ao_Audit op) w2 Hok2) as Hok1. rewrite E1 in Hok1. cbn in Hok1.
        split; [done|]. eapply addrs_kept_trans; [exact Hk2|]. apply addrs_kept_same. by eapply append_rows_addrs.
      + injection E1 as <- _. done.
    - injection E1 as <- _. pose proof (applyARPOp_preserves tenantID op w Hok) as Hok2. rewrite E2 in Hok2.
      split; [done|]. by eapply applyARPOp_kept. }
  destruct Hstep as [Hok1 Hk1]. destruct r1 as [[]|e]; [|by injection Hrun as <- _].
  apply IH in Hrun as [Hok' Hk']; [|done]. split; [done|]. by eapply addrs_kept_trans.
Qed.
End arp.

(** Ownership of MAC addresses: applying any list of ARP operations of a
    tenant, in any order, keeps every stored address; a row whose MAC address
    another source set keeps its MAC address, its source and every field but
    the observation's bookkeeping; rows of other tenants do not change at all. *)
Theorem ApplyARP_respects_owner `{Env} tenantID ops summary w w' r k a :
  mem_ok (w_mem w) → ApplyARP tenantID ops summary w = (w', r) → mem_addrs (w_mem w) !! k = Some a →
  ∃ a', mem_addrs (w_mem w') !! k = Some a' ∧ arp_kept tenantID a a'.
Proof.
  intros Hok Hrun. revert k a. change (addrs_kept tenantID (w_mem w) (w_mem w')).
  unfold ApplyARP in Hrun. unfold mbind at 1, M_bind at 1 in Hrun.
  destruct (fail "ApplyARP" w) as [w1 r1] eqn:Ef.
  assert (Hf : mem_addrs (w_mem w1) = mem_addrs (w_mem w)).
  { unfold fail, mbind, M_bind, mem in Ef. destruct (decide _); by injection Ef as <- _. }
  pose proof (preserves_fail "ApplyARP" w Hok) as Hok1. rewrite Ef in Hok1. cbn in Hok1.
  destruct r1 as [[]|e]; [|injection Hrun as <- _; by apply addrs_kept_same].
  unfold mbind, M_bind in Hrun. destruct (mapM_ _ ops w1) as [w2 r2] eqn:E2.
  destruct (mapM_kept tenantID ops w1 w2 r2 Hok1 E2) as [Hok2 Hk2].
  eapply addrs_kept_trans; [by apply addrs_kept_same|]. eapply addrs_kept_trans; [exact Hk2|].
  destruct r2 as [[]|e]; [|injection Hrun as <- _; by apply addrs_kept_same].
  apply addrs_kept_same. by eapply append_rows_addrs.
Qed.

Definition ex_manual : IPAddress :=
  {| zero_IPAddress with ad_ID := "a1"; ad_TenantID := "t1"; ad_Address := "10.0.0.7"; ad_SubnetID := "s1";
     ad_MACAddress := "02:00:00:00:00:01"; ad_MACSource := MACSourceManual |}.

Definition ex_arp_world : World := fst (CreateAddress (H := ex_env) ex_manual init_world).

Definition ex_fill : ARPOp :=
  {| zero_ARPOp with ao_Kind := ARPFill; ao_AddressID := "a1"; ao_MAC := "02:00:00:00:00:99"; ao_At := 7 |}.

Lemma ApplyARP_respects_owner_witness :
  ∃ a a', mem_addrs (w_mem ex_arp_world) !! "a1"%string = Some a ∧
    mem_addrs (w_mem (fst (ApplyARP (H := ex_env) "t1" [ex_fill] [] ex_arp_world))) !! "a1"%string = Some a' ∧
    arpOwned a = false ∧ arp_kept "t1" a a'.
Proof.
  destruct (mem_addrs (w_mem ex_arp_world) !! "a1"%string) as [a|] eqn:Ea; [|vm_compute in Ea; discriminate Ea].
  destruct (ApplyARP (H := ex_env) "t1" [ex_fill] [] ex_arp_world) as [w' r] eqn:E.
  destruct (ApplyARP_respects_owner (H := ex_env) "t1" [ex_fill] [] ex_arp_world w' r "a1" a) as (a' & Ha' & Hk);
    [apply (CreateAddress_preserves (H := ex_env)), New_ok|exact E|exact Ea|].
  exists a, a'. split; [reflexivity|]. split; [exact Ha'|]. split; [|exact Hk].
  apply (f_equal (λ o, match o with Some x => arpOwned x | None => true end)) in Ea. vm_compute in Ea. symmetry. exact Ea.
Defined.

(** ** Identifiers *)

Lemma digit_char_mono d1 d2 : 0 ≤ d1 < d2 → d2 < 16 → Ascii.compare (digit_char d1) (digit_char d2) = Lt.
Proof.
  intros H1 H2.
  assert (Hall : forallb (λ n, forallb (λ k, negb (k <? n)%nat ||
      match Ascii.compare (digit_char (Z.of_nat k)) (digit_char (Z.of_nat n)) with Lt => true | _ => false end)
      (seq 0 16)) (seq 0 16) = true) by (vm_compute; reflexivity).
  rewrite forallb_forall in Hall. specialize (Hall (Z.to_nat d2) ltac:(apply in_seq; lia)).
  rewrite forallb_forall in Hall. specialize (Hall (Z.to_nat d1) ltac:(apply in_seq; lia)).
  rewrite !Z2Nat.id in Hall by lia. replace (Z.to_nat d1 <? Z.to_nat d2)%nat with true in Hall by (symmetry; apply Nat.ltb_lt; lia).
  cbn [negb orb] in Hall. by destruct (Ascii.compare _ _).
Qed.

Lemma ascii_compare_refl c : Ascii.compare c c = Eq.
Proof. unfold Ascii.compare. apply N.compare_refl. Qed.

Lemma compare_cons c1 s1 c2 s2 :
  String.compare (String c1 s1) (String c2 s2) =
  match Ascii.compare c1 c2 with Eq => String.compare s1 s2 | r => r end.
Proof. reflexivity. Qed.

(** Hexadecimal text orders like the bytes it writes. *)
Lemma hex_byte_lt b1 b2 s1 s2 :
  0 ≤ b1 < b2 → b2 < 256 → str_ltb (hex_byte b1 +:+ s1) (hex_byte b2 +:+ s2) = true.
Proof.
  intros H1 H2. apply str_ltb_lt. unfold hex_byte, digit_str. str_norm. rewrite compare_cons.
  destruct (decide (b1 / 16 < b2 / 16)) as [Hlt|Hge].
  - rewrite digit_char_mono; [done|..]; Z.to_euclidean_division_equations; lia.
  - assert (E : b1 / 16 = b2 / 16) by (Z.to_euclidean_division_equations; lia).
    rewrite E, ascii_compare_refl, compare_cons, digit_char_mono; [done|..]; Z.to_euclidean_division_equations; lia.
Qed.

Lemma str_ltb_app p s1 s2 : str_ltb (p +:+ s1) (p +:+ s2) = str_ltb s1 s2.
Proof.
  induction p as [|c p IH]; [done|]. unfold str_ltb, String.ltb in *.
  rewrite !append_cons, compare_cons, ascii_compare_refl. exact IH.
Qed.

Lemma str_ltb_cons c s1 s2 : str_ltb (String c s1) (String c s2) = str_ltb s1 s2.
Proof. apply (str_ltb_app (String c "")). Qed.

(** The six time bytes of an identifier. *)
Lemma ms_bytes ms :
  0 ≤ ms < 2 ^ 48 →
  let byte k := ms / 2 ^ k mod 256 in
  (∀ k, 0 ≤ byte k < 256) ∧
  ms = byte 40 * 2 ^ 40 + byte 32 * 2 ^ 32 + byte 24 * 2 ^ 24 + byte 16 * 2 ^ 16 + byte 8 * 2 ^ 8 + byte 0.
Proof.
  intros Hms byte. split; [intros k; apply Z.mod_pos_bound; lia|]. unfold byte.
  change (2 ^ 40) with 1099511627776. change (2 ^ 32) with 4294967296. change (2 ^ 24) with 16777216.
  change (2 ^ 16) with 65536. change (2 ^ 8) with 256. change (2 ^ 0) with 1. rewrite ?Z.div_1_r.
  Z.to_euclidean_division_equations. lia.
Qed.

(** Compares one time byte and leaves the case where it is equal. *)
Ltac byte_step H k :=
  apply H;
  match goal with |- ?a / 2 ^ k mod 256 < ?b / 2 ^ k mod 256 ∨ _ =>
    destruct (Z.lt_trichotomy (a / 2 ^ k mod 256) (b / 2 ^ k mod 256)) as [?|[?|?]]; [by left|right; split; [done|]|lia]
  end.

(** Identifiers are time-ordered: of two identifiers drawn in different
    milliseconds the later one is greater as text, whatever random bytes they
    carry, so ordering rows by id orders them by creation. *)
Theorem NewID_time_ordered b1 b2 ms1 ms2 :
  0 ≤ ms1 < ms2 → ms2 < 2 ^ 48 → str_ltb (NewID b1 ms1) (NewID b2 ms2) = true.
Proof.
  intros H1 H2. destruct (ms_bytes ms1 ltac:(lia)) as [Hb1 E1]. destruct (ms_bytes ms2 ltac:(lia)) as [Hb2 E2].
  unfold NewID, hex_bytes. cbn zeta. str_norm.
  assert (Hstep : ∀ k s1 s2, ms1 / 2 ^ k mod 256 < ms2 / 2 ^ k mod 256 ∨
    ms1 / 2 ^ k mod 256 = ms2 / 2 ^ k mod 256 ∧ str_ltb s1 s2 = true →
    str_ltb (hex_byte (ms1 / 2 ^ k mod 256) +:+ s1) (hex_byte (ms2 / 2 ^ k mod 256) +:+ s2) = true).
  { intros k s1 s2 [Hlt|[-> Hs]]; [apply hex_byte_lt; [split; [apply Hb1|done]|apply Hb2]|by rewrite str_ltb_app]. }
  pose proof (Hb1 40). pose proof (Hb1 32). pose proof (Hb1 24). pose proof (Hb1 16). pose proof (Hb1 8). pose proof (Hb1 0).
  pose proof (Hb2 40). pose proof (Hb2 32). pose proof (Hb2 24). pose proof (Hb2 16). pose proof (Hb2 8). pose proof (Hb2 0).
  byte_step Hstep 40. byte_step Hstep 32. byte_step Hstep 24. byte_step Hstep 16. rewrite str_ltb_cons.
  byte_step Hstep 8. byte_step Hstep 0. lia.
Qed.

Lemma NewID_time_ordered_witness :
  str_ltb (NewID (replicate 16 255) 1700000000000) (NewID (replicate 16 0) 1700000000001) = true.
Proof. apply NewID_time_ordered; lia. Defined.
