(* ===== verification/ArpPlan.v ===== *)
(** * internal/arpplan and the ARP phase of a scan (internal/scan/arp.go)

    The pure planner that turns the ARP entries devices reported into
    operations on addresses, and the phase that loads its input from the
    store, plans and applies.  The planner runs in the monad for the
    identifiers it draws; it reads and writes nothing. *)

From S2P Require Import Prelude GoNet GoIP Ipnet Placement Models Store Hostreport MemNet MemScan AuditLog.

(** ** Data *)

(** scan/snmp: one row of an ARP or neighbour table. *)
Record ARPEntry : Type := { ae_IP : string; ae_MAC : string; ae_IfIndex : Z }.

Record Observation : Type := { ob_DeviceID : string; ob_Entries : list ARPEntry }.

Record Input : Type := {
  in_TenantID : string;
  in_JobID : string;
  in_Now : Time;
  in_Observations : list Observation;
  in_Subnets : list Subnet;
  in_Addresses : list IPAddress;
  in_NetworkMACs : gset string;
  in_ProxyThreshold : Z;
  in_ExcludedDevices : list string
}.

Record Plan : Type := {
  pl_Ops : list ARPOp;
  pl_Ignored : gmap string Z;
  pl_Entries : Z;
  pl_Applied : Z;
  pl_Created : Z;
  pl_Conflicts : Z
}.

Record candidate : Type := { c_ip : Addr; c_mac : string; c_device : string }.

(** ** Filters (filter.go) *)

Definition virtualRouter (hw : list Z) : bool :=
  let b i := nth i hw 0 in
  if (b 0%nat =? 0) && (b 1%nat =? 0) && (b 2%nat =? 94) && (b 3%nat =? 0) then (b 4%nat =? 1) || (b 4%nat =? 2)
  else if (b 0%nat =? 0) && (b 1%nat =? 0) && (b 2%nat =? 12) then
    ((b 3%nat =? 7) && (b 4%nat =? 172)) || ((b 3%nat =? 159) && (Z.land (b 4%nat) 240 =? 240))
  else false.

Definition classifyMAC (s : string) (network : gset string) : string * string :=
  match ParseMAC s with
  | None => ("", ARPIgnoredInvalid)
  | Some hw =>
      if negb (length hw =? 6)%nat then ("", ARPIgnoredInvalid)
      else if foldl Z.lor 0 hw =? 0 then ("", ARPIgnoredInvalid)
      else if Z.land (nth 0 hw 0) 1 =? 1 then ("", ARPIgnoredMulticast)
      else if virtualRouter hw then ("", ARPIgnoredVirtualRouter)
      else
        let mac := MAC_String hw in
        if decide (mac ∈ network) then ("", ARPIgnoredNetworkDevice) else (mac, "")
  end.

Definition count_ignored (reason : string) (m : gmap string Z) : gmap string Z :=
  <[reason := default 0 (m !! reason) + 1]> m.

Definition mac_ips (cands : list candidate) : gmap string (gset Addr) :=
  foldl (λ m c, <[c_mac c := {[c_ip c]} ∪ default ∅ (m !! c_mac c)]> m) ∅ cands.

Definition over_threshold (ips : gmap string (gset Addr)) (threshold : Z) (c : candidate) : bool :=
  threshold <? Z.of_nat (size (default ∅ (ips !! c_mac c))).

Definition filterProxy (cands : list candidate) (threshold : Z) (ignored : gmap string Z)
  : list candidate * gmap string Z :=
  let ips := mac_ips cands in
  foldl (λ st c, if over_threshold ips threshold c then (fst st, count_ignored ARPIgnoredProxy (snd st))
                 else (fst st ++ [c], snd st)) ([], ignored) cands.

Definition subnetOf (subnets : list Candidate) (ip : Addr) : string * bool :=
  let r := MostSpecific subnets ip in (cand_ID (fst r), snd r).

(** ** The plan (plan.go) *)

(** [ip.Unmap().WithZone("")]. *)
Definition canon_addr (ip : Addr) : Addr := Addr_WithZone (Addr_Unmap ip) "".

(** The first loop: entries read, ignored by reason, candidates kept. *)
Record reading : Type := { rd_Entries : Z; rd_Ignored : gmap string Z; rd_cands : list candidate }.

Definition read_entry (network excluded : gset string) (st : reading) (de : string * ARPEntry) : reading :=
  let '(dev, e) := de in
  let st := {| st with rd_Entries := rd_Entries st + 1 |} in
  let ignore reason := {| st with rd_Ignored := count_ignored reason (rd_Ignored st) |} in
  if decide (dev ∈ excluded) then ignore ARPIgnoredExcluded
  else match ParseAddr (ae_IP e) with
  | None => ignore ARPIgnoredInvalid
  | Some ip =>
      let '(mac, reason) := classifyMAC (ae_MAC e) network in
      if negb (is_empty reason) then ignore reason
      else {| st with rd_cands := rd_cands st ++ [{| c_ip := canon_addr ip; c_mac := mac; c_device := dev |}] |}
  end.

Definition entries_of (obs : list Observation) : list (string * ARPEntry) :=
  concat (List.map (λ o, List.map (λ e, (ob_DeviceID o, e)) (ob_Entries o)) obs).

(** The second loop: the last candidate of an address wins. *)
Record placing : Type := {
  pc_winner : gmap Addr candidate;
  pc_placed : gmap Addr string;
  pc_disagree : gset Addr;
  pc_Ignored : gmap string Z
}.

Definition place_candidate (subnets : list Candidate) (st : placing) (c : candidate) : placing :=
  let '(sid, ok) := subnetOf subnets (c_ip c) in
  if negb ok then {| st with pc_Ignored := count_ignored ARPIgnoredOutside (pc_Ignored st) |}
  else
    let dis := match pc_winner st !! c_ip c with Some prev => negb (c_mac prev =s c_mac c) | None => false end in
    {| st with pc_winner := <[c_ip c := c]> (pc_winner st); pc_placed := <[c_ip c := sid]> (pc_placed st);
       pc_disagree := if dis then {[c_ip c]} ∪ pc_disagree st else pc_disagree st |}.

(** The tenant's addresses by canonical address; a later row replaces an
    earlier one. *)
Definition index_address (tenantID : string) (m : gmap Addr IPAddress) (a : IPAddress) : gmap Addr IPAddress :=
  match ParseAddr (ad_Address a) with
  | Some ip => if ad_TenantID a =s tenantID then <[canon_addr ip := a]> m else m
  | None => m
  end.

Definition address_index (tenantID : string) (l : list IPAddress) : gmap Addr IPAddress :=
  foldl (index_address tenantID) ∅ l.

Definition tenant_cands (tenantID : string) (l : list Subnet) : list Candidate :=
  (λ s, {| cand_ID := sn_ID s; cand_CIDR := sn_CIDR s |}) <$> List.filter (λ s, sn_TenantID s =s tenantID) l.

Section with_env.
Context `{Env}.

Definition row (in_ : Input) (t : EventType) (subjectID : string) (detail : list (string * any)) : M AuditRow :=
  r ← Row {| e_TenantID := in_TenantID in_; e_EventType := t; e_ActorKind := ActorSystem; e_ActorID := ScanActor;
             e_SubjectKind := SubjectAddress; e_SubjectID := subjectID; e_Target := ""; e_Outcome := OutcomeOK;
             e_Reason := ""; e_Details := detail |} (in_Now in_);
  mret match r with Ok row => row | Err _ => zero_AuditRow end.

Definition op (in_ : Input) (kind : string) (addressID subnetID : string) (c : candidate) (rows_ : list AuditRow)
    (p : Plan) : Plan :=
  {| p with pl_Ops := pl_Ops p ++
     [{| ao_Kind := kind; ao_AddressID := addressID; ao_Address := Addr_String (c_ip c); ao_SubnetID := subnetID;
         ao_MAC := c_mac c; ao_SourceDeviceID := c_device c; ao_At := in_Now in_; ao_Audit := rows_ |}] |}.

Definition create (in_ : Input) (c : candidate) (subnetID id : string) (p : Plan) : M Plan :=
  r ← row in_ AddressCreated id
        [("address", AnyString (Addr_String (c_ip c))); ("origin", AnyString OriginARP); ("mac", AnyString (c_mac c));
         ("subnet_id", AnyString subnetID); ("source_device_id", AnyString (c_device c))];
  let p1 := op in_ ARPCreate id subnetID c [r] p in
  mret {| p1 with pl_Created := pl_Created p1 + 1 |}.

Definition address (in_ : Input) (a : IPAddress) (c : candidate) (p : Plan) : M Plan :=
  let addr := AnyString (Addr_String (c_ip c)) in
  let stored := default "" (NormalizeMAC (ad_MACAddress a)) in
  if is_empty (ad_MACAddress a) then
    r ← row in_ MACLearned (ad_ID a) [("address", addr); ("mac", AnyString (c_mac c));
          ("source_device_id", AnyString (c_device c)); ("job_id", AnyString (in_JobID in_))];
    let p1 := op in_ ARPFill (ad_ID a) (ad_SubnetID a) c [r] p in
    mret {| p1 with pl_Applied := pl_Applied p1 + 1 |}
  else if (stored =s c_mac c) && negb (is_empty (ad_MACConflict a)) then
    mret (op in_ ARPClearConflict (ad_ID a) (ad_SubnetID a) c [] p)
  else if stored =s c_mac c then mret (op in_ ARPTouch (ad_ID a) (ad_SubnetID a) c [] p)
  else if ad_MACSource a =s MACSourceARP then
    r ← row in_ MACChanged (ad_ID a) [("address", addr); ("mac", AnyString (c_mac c));
          ("previous_mac", AnyString (ad_MACAddress a)); ("source_device_id", AnyString (c_device c));
          ("job_id", AnyString (in_JobID in_))];
    let p1 := op in_ ARPUpdate (ad_ID a) (ad_SubnetID a) c [r] p in
    mret {| p1 with pl_Applied := pl_Applied p1 + 1 |}
  else
    let p1 := {| p with pl_Conflicts := pl_Conflicts p + 1 |} in
    if ad_MACConflict a =s c_mac c then mret p1
    else
      r ← row in_ MACConflict (ad_ID a) [("address", addr); ("mac", AnyString (ad_MACAddress a));
            ("observed_mac", AnyString (c_mac c)); ("source_device_id", AnyString (c_device c))];
      mret (op in_ ARPConflict (ad_ID a) (ad_SubnetID a) c [r] p1).

(** The last loop, over the addresses in order. *)
Fixpoint plan_ips (in_ : Input) (pc : placing) (addrs : gmap Addr IPAddress) (ips : list Addr) (p : Plan) : M Plan :=
  match ips with
  | [] => mret p
  | ip :: rest =>
      match pc_winner pc !! ip with
      | None => plan_ips in_ pc addrs rest p
      | Some c =>
          p1 ← match addrs !! ip with
               | None => id ← newID; create in_ c (default "" (pc_placed pc !! ip)) id p
               | Some a => address in_ a c p
               end;
          plan_ips in_ pc addrs rest p1
      end
  end.

(** What the loops before the last compute: the entries read, the placed
    winners. *)
Definition observed (in_ : Input) : reading :=
  let obs := sort_by (λ a b, str_ltb (ob_DeviceID a) (ob_DeviceID b)) (in_Observations in_) in
  foldl (read_entry (in_NetworkMACs in_) (list_to_set (in_ExcludedDevices in_)))
    {| rd_Entries := 0; rd_Ignored := ∅; rd_cands := [] |} (entries_of obs).

Definition proxy_filtered (in_ : Input) : list candidate * gmap string Z :=
  let threshold := if in_ProxyThreshold in_ <? 1 then ARPDefaultProxyThreshold else in_ProxyThreshold in_ in
  filterProxy (rd_cands (observed in_)) threshold (rd_Ignored (observed in_)).

Definition placement_of (in_ : Input) : placing :=
  foldl (place_candidate (tenant_cands (in_TenantID in_) (in_Subnets in_)))
    {| pc_winner := ∅; pc_placed := ∅; pc_disagree := ∅; pc_Ignored := snd (proxy_filtered in_) |}
    (fst (proxy_filtered in_)).

Definition winner_ips (pc : placing) : list Addr := sort_by Addr_Less (fst <$> map_to_list (pc_winner pc)).

Definition Build (in_ : Input) : M Plan :=
  let pc := placement_of in_ in
  let p := {| pl_Ops := []; pl_Ignored := pc_Ignored pc; pl_Entries := rd_Entries (observed in_); pl_Applied := 0;
              pl_Created := 0; pl_Conflicts := Z.of_nat (size (pc_disagree pc)) |} in
  plan_ips in_ pc (address_index (in_TenantID in_) (in_Addresses in_)) (winner_ips pc) p.

(** ** The phase (scan/arp.go) *)

Record arpRead : Type := { ard_obs : list Observation; ard_partial : Z }.

Definition planARP (job : IPScanJob) (cfg : ARPSettings) (read : arpRead) : M Plan :=
  subnets ← AllSubnetCIDRs (sj_TenantID job);
  addrs ← ListAddresses (sj_TenantID job) zero_AddressFilter;
  network ← NetworkMACs (sj_TenantID job);
  t ← now;
  Build {| in_TenantID := sj_TenantID job; in_JobID := sj_ID job; in_Now := t; in_Observations := ard_obs read;
           in_Subnets := subnets; in_Addresses := addrs; in_NetworkMACs := network;
           in_ProxyThreshold := as_ProxyThreshold cfg; in_ExcludedDevices := as_ExcludedDevices cfg |}.

Definition arpRunRow (job : IPScanJob) : M AuditRow :=
  t ← now;
  r ← Row {| e_TenantID := sj_TenantID job; e_EventType := ARPRun; e_ActorKind := ActorSystem; e_ActorID := ScanActor;
             e_SubjectKind := SubjectScan; e_SubjectID := sj_ID job; e_Target := ""; e_Outcome := OutcomeOK; e_Reason := "";
             e_Details := [("devices", AnyInt (sj_ARPDevices job)); ("partial", AnyInt (sj_ARPPartial job));
               ("entries", AnyInt (sj_ARPEntries job)); ("applied", AnyInt (sj_ARPApplied job));
               ("created", AnyInt (sj_ARPCreated job)); ("conflicts", AnyInt (sj_ARPConflicts job));
               ("ignored", AnyMap ((λ kv, (fst kv, AnyInt (snd kv))) <$> map_to_list (sj_ARPIgnored job)))] |} t;
  mret match r with Ok row => row | Err _ => zero_AuditRow end.

(** The job after the phase; the phase never fails the scan. *)
Definition arpPhase (job : IPScanJob) (cfg : result error ARPSettings) (read : arpRead) : M IPScanJob :=
  match cfg with
  | Err _ => mret {| job with sj_ARPStatus := ARPFailed |}
  | Ok cfg =>
      if negb (as_Enabled cfg) then mret {| job with sj_ARPStatus := ARPDisabled |}
      else
        let job := {| job with sj_ARPDevices := Z.of_nat (length (ard_obs read)); sj_ARPPartial := ard_partial read |} in
        r ← try (planARP job cfg read);
        match r with
        | Err _ => mret {| job with sj_ARPStatus := ARPFailed |}
        | Ok plan =>
            let job := {| job with sj_ARPEntries := pl_Entries plan; sj_ARPApplied := pl_Applied plan;
                          sj_ARPCreated := pl_Created plan; sj_ARPConflicts := pl_Conflicts plan;
                          sj_ARPIgnored := pl_Ignored plan |} in
            summary ← arpRunRow job;
            r ← try (ApplyARP (sj_TenantID job) (pl_Ops plan) [summary]);
            mret {| job with sj_ARPStatus := match r with Ok _ => ARPRan | Err _ => ARPFailed end |}
        end
  end.
End with_env.
