(* ===== verification/ArpPlanProps.v ===== *)
(** * The ARP phase: what it does to the stored addresses

    The plan is related to the accepted observations ([planned]), and applying
    it to the table is shown to give, row by row, the result the provenance
    rules prescribe ([arp_expected]): the composition of the planner with the
    store's operation is a pure function of the observation and the row. *)

From S2P Require Import Prelude GoNet GoIP Ipnet Placement Models Store Hostreport MemNet MemDev MemScan MemInv AuditLog AddressProps StoreProps ArpPlan.

(** ** The rules *)

(** The operation the planner chooses for a stored row, if any. *)
Definition arp_kind (a : IPAddress) (c : candidate) : option string :=
  let same := default "" (NormalizeMAC (ad_MACAddress a)) =s c_mac c in
  if is_empty (ad_MACAddress a) then Some ARPFill
  else if same then Some (if is_empty (ad_MACConflict a) then ARPTouch else ARPClearConflict)
  else if ad_MACSource a =s MACSourceARP then Some ARPUpdate
  else if ad_MACConflict a =s c_mac c then None else Some ARPConflict.

(** The row after an accepted observation: an empty MAC address, or one ARP
    learned itself, becomes the observed one; a MAC address another source set
    stays and a disagreement is recorded next to it; an agreement clears a
    recorded disagreement and refreshes when and by whom it was seen. *)
Definition arp_expected (at_ : Time) (c : candidate) (a : IPAddress) : IPAddress :=
  let same := default "" (NormalizeMAC (ad_MACAddress a)) =s c_mac c in
  if is_empty (ad_MACAddress a) || (negb same && (ad_MACSource a =s MACSourceARP)) then
    {| a with ad_MACAddress := c_mac c; ad_MACSource := MACSourceARP; ad_MACSourceDeviceID := c_device c;
       ad_MACSeenAt := Some at_; ad_MACConflict := "" |}
  else if same then
    if is_empty (ad_MACConflict a) then
      {| a with ad_MACSeenAt := Some at_;
         ad_MACSourceDeviceID := if ad_MACSource a =s MACSourceARP then c_device c else ad_MACSourceDeviceID a |}
    else {| a with ad_MACConflict := ""; ad_MACSeenAt := Some at_ |}
  else {| a with ad_MACConflict := c_mac c |}.

(** The row of an address seen for the first time. *)
Definition arp_created (tenantID : string) (at_ : Time) (c : candidate) (subnetID id : string) (a : IPAddress) : Prop :=
  ∃ t1 t2, a = {| zero_IPAddress with
    ad_ID := id; ad_TenantID := tenantID; ad_Address := Addr_String (c_ip c); ad_SubnetID := subnetID;
    ad_MACAddress := c_mac c; ad_Status := IPActive; ad_AddressType := AddrHost; ad_LastSeen := Some at_;
    ad_CreatedBy := "arp"; ad_MACSource := MACSourceARP; ad_MACSourceDeviceID := c_device c; ad_MACSeenAt := Some at_;
    ad_Origin := OriginARP; ad_CreatedAt := t1; ad_UpdatedAt := t2 |}.

Definition mk_op (in_ : Input) (kind id subnetID : string) (c : candidate) (rows_ : list AuditRow) : ARPOp :=
  {| ao_Kind := kind; ao_AddressID := id; ao_Address := Addr_String (c_ip c); ao_SubnetID := subnetID; ao_MAC := c_mac c;
     ao_SourceDeviceID := c_device c; ao_At := in_Now in_; ao_Audit := rows_ |}.

Lemma arp_change_expected in_ kind id sid c rows_ a :
  arp_kind a c = Some kind →
  arp_change (mk_op in_ kind id sid c rows_) a = Some (arp_expected (in_Now in_) c a) ∧ kind ≠ ARPCreate.
Proof.
  unfold arp_kind, arp_expected, arp_change, mk_op, arpOwned. cbn [ao_Kind ao_MAC ao_SourceDeviceID ao_At].
  destruct (is_empty (ad_MACAddress a)); [by intros [= <-]|]. cbn [orb].
  destruct (default "" (NormalizeMAC (ad_MACAddress a)) =s c_mac c).
  - destruct (is_empty (ad_MACConflict a)); by intros [= <-].
  - destruct (ad_MACSource a =s MACSourceARP); [by intros [= <-]|].
    destruct (ad_MACConflict a =s c_mac c); [done|]. by intros [= <-].
Qed.

Lemma arp_skip_expected at_ c a : arp_kind a c = None → arp_expected at_ c a = a.
Proof.
  unfold arp_kind, arp_expected. destruct (is_empty (ad_MACAddress a)); [done|]. cbn [orb].
  destruct (default "" (NormalizeMAC (ad_MACAddress a)) =s c_mac c); [by destruct (is_empty (ad_MACConflict a))|].
  destruct (ad_MACSource a =s MACSourceARP); [done|].
  destruct (String.eqb_spec (ad_MACConflict a) (c_mac c)) as [E|]; [|done]. cbn [andb negb]. intros _. rewrite <- E. by destruct a.
Qed.

(** ** The planner *)

Section planner.
Context `{Env} (in_ : Input) (pc : placing) (addrs : gmap Addr IPAddress).

(** The operations planned for a list of addresses, with the number of
    identifiers drawn before; at most two per address. *)
Inductive planned : nat → list Addr → list ARPOp → Prop :=
| planned_nil n : planned n [] []
| planned_create n n' ip rest c rows_ ops :
    pc_winner pc !! ip = Some c → addrs !! ip = None → (n < n' ≤ n + 2)%nat → planned n' rest ops →
    planned n (ip :: rest) (mk_op in_ ARPCreate (id_at n) (default "" (pc_placed pc !! ip)) c rows_ :: ops)
| planned_change n n' ip rest c a kind rows_ ops :
    pc_winner pc !! ip = Some c → addrs !! ip = Some a → arp_kind a c = Some kind → (n ≤ n' ≤ n + 2)%nat →
    planned n' rest ops → planned n (ip :: rest) (mk_op in_ kind (ad_ID a) (ad_SubnetID a) c rows_ :: ops)
| planned_skip n n' ip rest c a ops :
    pc_winner pc !! ip = Some c → addrs !! ip = Some a → arp_kind a c = None → (n ≤ n' ≤ n + 2)%nat →
    planned n' rest ops → planned n (ip :: rest) ops.

Lemma row_run t s d w :
  ∃ w1 r, row in_ t s d w = (w1, Ok r) ∧ w_mem w1 = w_mem w ∧ (w_ids w ≤ w_ids w1 ≤ S (w_ids w))%nat.
Proof.
  unfold row, Row. destruct (Validate _) as [[]|e].
  - eexists _, _. split; [reflexivity|]. cbn. split; [done|lia].
  - eexists _, _. split; [reflexivity|]. cbn. split; [done|lia].
Qed.

Lemma create_run c sid id p w :
  ∃ w1 p1 rows_, create in_ c sid id p w = (w1, Ok p1) ∧ w_mem w1 = w_mem w ∧ (w_ids w ≤ w_ids w1 ≤ S (w_ids w))%nat ∧
    pl_Ops p1 = pl_Ops p ++ [mk_op in_ ARPCreate id sid c rows_].
Proof.
  unfold create. destruct (row_run AddressCreated id
    [("address", AnyString (Addr_String (c_ip c))); ("origin", AnyString OriginARP); ("mac", AnyString (c_mac c));
     ("subnet_id", AnyString sid); ("source_device_id", AnyString (c_device c))]%string w) as (w1 & r & E & Hm & Hn).
  rewrite (bind_Ok _ _ _ _ _ E). eexists _, _, [r]. split; [reflexivity|]. done.
Qed.

Lemma address_run a c p w :
  ∃ w1 p1 ops, address in_ a c p w = (w1, Ok p1) ∧ w_mem w1 = w_mem w ∧ (w_ids w ≤ w_ids w1 ≤ S (w_ids w))%nat ∧
    pl_Ops p1 = pl_Ops p ++ ops ∧
    match arp_kind a c with
    | Some kind => ∃ rows_, ops = [mk_op in_ kind (ad_ID a) (ad_SubnetID a) c rows_]
    | None => ops = []
    end.
Proof.
  unfold address, arp_kind.
  assert (Hrow : ∀ t s d (k : AuditRow → Plan) kind, 
    (∀ r, pl_Ops (k r) = pl_Ops p ++ [mk_op in_ kind (ad_ID a) (ad_SubnetID a) c [r]]) →
    ∃ w1 p1 ops, (r ← row in_ t s d; mret (k r)) w = (w1, Ok p1) ∧ w_mem w1 = w_mem w ∧
      (w_ids w ≤ w_ids w1 ≤ S (w_ids w))%nat ∧ pl_Ops p1 = pl_Ops p ++ ops ∧
      ∃ rows_, ops = [mk_op in_ kind (ad_ID a) (ad_SubnetID a) c rows_]).
  { intros t s d k kind Hk. destruct (row_run t s d w) as (w1 & r & E & Hm & Hn). rewrite (bind_Ok _ _ _ _ _ E).
    eexists _, _, _. split; [reflexivity|]. split; [done|]. split; [done|]. split; [apply Hk|eauto]. }
  destruct (is_empty (ad_MACAddress a)); [by apply Hrow|].
  destruct (default "" (NormalizeMAC (ad_MACAddress a)) =s c_mac c); cbn [andb].
  { destruct (is_empty (ad_MACConflict a)); cbn [negb]; eexists _, _, _;
      (split; [reflexivity|]; split; [done|]; split; [lia|]; split; [reflexivity|]; by eexists). }
  destruct (ad_MACSource a =s MACSourceARP); [by apply Hrow|].
  destruct (ad_MACConflict a =s c_mac c); [|by apply Hrow].
  eexists _, _, []. split; [reflexivity|]. split; [done|]. split; [lia|]. split; [by rewrite app_nil_r|done].
Qed.

Lemma plan_ips_run ips p w :
  (∀ ip, ip ∈ ips → is_Some (pc_winner pc !! ip)) →
  ∃ w' p' ops, plan_ips in_ pc addrs ips p w = (w', Ok p') ∧ w_mem w' = w_mem w ∧
    pl_Ops p' = pl_Ops p ++ ops ∧ planned (w_ids w) ips ops.
Proof.
  revert p w. induction ips as [|ip ips IH]; intros p w Hw; cbn [plan_ips].
  { eexists w, p, []. split; [reflexivity|]. rewrite app_nil_r. split; [done|]. split; [done|constructor]. }
  destruct (Hw ip ltac:(left)) as [c Hc]. rewrite Hc.
  assert (Hstep : ∃ w1 p1 ops1,
    (match addrs !! ip with
     | None => id ← newID; create in_ c (default "" (pc_placed pc !! ip)) id p
     | Some a => address in_ a c p
     end) w = (w1, Ok p1) ∧ w_mem w1 = w_mem w ∧ pl_Ops p1 = pl_Ops p ++ ops1 ∧
    ∀ ops, planned (w_ids w1) ips ops → planned (w_ids w) (ip :: ips) (ops1 ++ ops)).
  { destruct (addrs !! ip) as [a|] eqn:Ea.
    - destruct (address_run a c p w) as (w1 & p1 & ops1 & E & Hm & Hn & Hops & Hk). exists w1, p1, ops1.
      split; [done|]. split; [done|]. split; [done|]. intros ops Hpl. destruct (arp_kind a c) as [kind|] eqn:Ek.
      + destruct Hk as [rows_ ->]. apply (planned_change (w_ids w) (w_ids w1) ip ips c a kind); auto with lia.
      + subst ops1. apply (planned_skip (w_ids w) (w_ids w1) ip ips c a); auto with lia.
    - set (w0 := {| w with w_ids := S (w_ids w) |}).
      destruct (create_run c (default "" (pc_placed pc !! ip)) (id_at (w_ids w)) p w0) as (w1 & p1 & rows_ & E & Hm & Hn & Hops).
      exists w1, p1, [mk_op in_ ARPCreate (id_at (w_ids w)) (default "" (pc_placed pc !! ip)) c rows_].
      split; [rewrite (bind_Ok newID _ w w0 (id_at (w_ids w)) eq_refl); exact E|].
      split; [exact Hm|]. split; [exact Hops|]. intros ops Hpl. subst w0. cbn in Hn.
      apply (planned_create (w_ids w) (w_ids w1) ip ips c); auto with lia. }
  destruct Hstep as (w1 & p1 & ops1 & E & Hm & Hops & Hpl). rewrite (bind_Ok _ _ _ _ _ E).
  destruct (IH p1 w1) as (w' & p' & ops & E' & Hm' & Hops' & Hpl'); [intros ip' Hip'; apply Hw; by right|].
  exists w', p', (ops1 ++ ops). split; [done|]. split; [congruence|]. split; [by rewrite Hops', Hops, <- app_assoc|]. by apply Hpl.
Qed.
End planner.

(** ** Applying the plan *)

Section apply.
Context `{Env} (in_ : Input) (pc : placing) (addrs : gmap Addr IPAddress).
Let T := in_TenantID in_.

(** What the plan for [ips] relies on in the table. *)
Record plan_ready (n : nat) (ips : list Addr) (m : Mem) : Prop := {
  pr_nodup : NoDup ips;
  pr_text : ∀ ip ip', ip ∈ ips → ip' ∈ ips → Addr_String ip = Addr_String ip' → ip = ip';
  pr_ip : ∀ ip c, pc_winner pc !! ip = Some c → c_ip c = ip;
  pr_rows : ∀ ip a, ip ∈ ips → addrs !! ip = Some a → mem_addrs m !! ad_ID a = Some a ∧ ad_TenantID a = T;
  pr_ids : ∀ ip ip' a a', addrs !! ip = Some a → addrs !! ip' = Some a' → ad_ID a = ad_ID a' → ip = ip';
  pr_new : ∀ ip, ip ∈ ips → addrs !! ip = None → ¬ stored m T (Addr_String ip);
  pr_subnet : ∀ ip, ip ∈ ips → ∃ s, mem_subnets m !! default "" (pc_placed pc !! ip) = Some s ∧ sn_TenantID s = T;
  pr_fresh : fresh_ids m n (2 * length ips)
}.

(** The table after the accepted observations of [ips]. *)
Record plan_done (ips : list Addr) (m m' : Mem) : Prop := {
  pd_rows : ∀ ip a c, ip ∈ ips → addrs !! ip = Some a → pc_winner pc !! ip = Some c →
    ∃ t, let e := arp_expected (in_Now in_) c a in mem_addrs m' !! ad_ID a = Some {| e with ad_UpdatedAt := t |};
  pd_rest : ∀ k a, mem_addrs m !! k = Some a → (∀ ip b, ip ∈ ips → addrs !! ip = Some b → ad_ID b ≠ k) →
    mem_addrs m' !! k = Some a;
  pd_new : ∀ ip c, ip ∈ ips → addrs !! ip = None → pc_winner pc !! ip = Some c →
    ∃ k a, mem_addrs m !! k = None ∧ mem_addrs m' !! k = Some a ∧
      arp_created T (in_Now in_) c (default "" (pc_placed pc !! ip)) k a;
  pd_only : ∀ k a, mem_addrs m' !! k = Some a → mem_addrs m !! k = None →
    ∃ ip c, ip ∈ ips ∧ addrs !! ip = None ∧ pc_winner pc !! ip = Some c ∧
      arp_created T (in_Now in_) c (default "" (pc_placed pc !! ip)) k a
}.

(** One operation and its audit rows. *)
Definition apply_op (op : ARPOp) : M () :=
  done_ ← applyARPOpLocked T op; if (done_ : bool) then append_rows T (ao_Audit op) else mret ().

Lemma appendAudit_tables r w :
  ∃ w1, appendAuditLocked r w = (w1, Ok ()) ∧ mem_addrs (w_mem w1) = mem_addrs (w_mem w) ∧
    mem_subnets (w_mem w1) = mem_subnets (w_mem w).
Proof.
  unfold appendAuditLocked, mbind, M_bind. destruct (is_empty (ar_ID r)), (IsZero (ar_At r)); cbn;
    eexists; (split; [reflexivity|done]).
Qed.

Lemma append_rows_tables l w :
  ∃ w1, append_rows T l w = (w1, Ok ()) ∧ mem_addrs (w_mem w1) = mem_addrs (w_mem w) ∧
    mem_subnets (w_mem w1) = mem_subnets (w_mem w).
Proof.
  unfold append_rows. revert w. induction l as [|r l IH]; intros w; cbn [mapM_]; [by eexists|].
  destruct (appendAudit_tables {| r with ar_TenantID := T |} w) as (w1 & E & Ha & Hs). rewrite (bind_Ok _ _ _ _ _ E).
  destruct (IH w1) as (w2 & E2 & Ha2 & Hs2). exists w2. split; [done|]. split; congruence.
Qed.

Lemma apply_create id sid c rows_ w s :
  ¬ stored (w_mem w) T (Addr_String (c_ip c)) → mem_addrs (w_mem w) !! id = None →
  mem_subnets (w_mem w) !! sid = Some s → sn_TenantID s = T →
  ∃ w1 a, apply_op (mk_op in_ ARPCreate id sid c rows_) w = (w1, Ok ()) ∧ arp_created T (in_Now in_) c sid id a ∧
    mem_addrs (w_mem w1) = <[id := a]> (mem_addrs (w_mem w)) ∧ mem_subnets (w_mem w1) = mem_subnets (w_mem w).
Proof.
  intros Hst Hid Hs Ht. apply not_stored_find in Hst.
  unfold apply_op, applyARPOpLocked, mk_op. cbn [ao_Kind ao_SubnetID ao_Address ao_AddressID ao_Audit]. change (ARPCreate =s ARPCreate) with true. cbv iota.
  set (w0 := {| w with w_mem := let m := w_mem w in {| m with mem_addrs := <[id := {| zero_IPAddress with
    ad_ID := id; ad_TenantID := T; ad_Address := Addr_String (c_ip c); ad_SubnetID := sid;
    ad_MACAddress := c_mac c; ad_Status := IPActive; ad_AddressType := AddrHost; ad_LastSeen := Some (in_Now in_);
    ad_CreatedBy := "arp"; ad_MACSource := MACSourceARP; ad_MACSourceDeviceID := c_device c; ad_MACSeenAt := Some (in_Now in_);
    ad_Origin := OriginARP; ad_CreatedAt := env_clock (w_ticks w); ad_UpdatedAt := env_clock (S (w_ticks w)) |}]> (mem_addrs m) |};
    w_ticks := S (S (w_ticks w)) |}).
  destruct (append_rows_tables rows_ w0) as (w1 & E & Ha & Hsub).
  exists w1. eexists. split.
  - rewrite <- E. unfold mbind, M_bind, mem. rewrite Hst, Hs, Ht, String.eqb_refl, Hid. reflexivity.
  - split; [by eexists _, _|]. split; [exact Ha|exact Hsub].
Qed.

Lemma apply_change a c kind rows_ w :
  mem_addrs (w_mem w) !! ad_ID a = Some a → ad_TenantID a = T → arp_kind a c = Some kind →
  ∃ w1 t, let e := arp_expected (in_Now in_) c a in
    apply_op (mk_op in_ kind (ad_ID a) (ad_SubnetID a) c rows_) w = (w1, Ok ()) ∧
    mem_addrs (w_mem w1) = <[ad_ID a := {| e with ad_UpdatedAt := t |}]> (mem_addrs (w_mem w)) ∧
    mem_subnets (w_mem w1) = mem_subnets (w_mem w).
Proof.
  intros Ha Ht Hk. destruct (arp_change_expected in_ kind (ad_ID a) (ad_SubnetID a) c rows_ a Hk) as [Hc Hne].
  unfold apply_op, applyARPOpLocked. cbn zeta. set (o := mk_op in_ kind (ad_ID a) (ad_SubnetID a) c rows_) in *.
  change (ao_Kind o) with kind. change (ao_AddressID o) with (ad_ID a). change (ao_Audit o) with rows_.
  apply String.eqb_neq in Hne. rewrite Hne. set (e := arp_expected (in_Now in_) c a) in *.
  set (w0 := {| w with w_mem := let m := w_mem w in {| m with mem_addrs := <[ad_ID a := {| e with ad_UpdatedAt := env_clock (w_ticks w) |}]> (mem_addrs m) |};
                w_ticks := S (w_ticks w) |}).
  destruct (append_rows_tables rows_ w0) as (w1 & E & Haddr & Hsub). exists w1, (env_clock (w_ticks w)). split.
  - rewrite <- E. unfold mbind, M_bind, mem. rewrite Ha, Ht, String.eqb_refl. cbn [negb]. rewrite Hc. reflexivity.
  - split; [exact Haddr|exact Hsub].
Qed.

(** Writing the row of the first address leaves the others ready. *)
Lemma ready_tail n n' ip ips m m1 k r :
  plan_ready n (ip :: ips) m → (n ≤ n' ≤ n + 2)%nat →
  mem_subnets m1 = mem_subnets m → mem_addrs m1 = <[k := r]> (mem_addrs m) →
  (∀ ip' b, ip' ∈ ips → addrs !! ip' = Some b → ad_ID b ≠ k) →
  (∀ i, (n' ≤ i < n + 2 * length (ip :: ips))%nat → id_at i ≠ k) →
  (∀ s, stored m1 T s → stored m T s ∨ s = Addr_String ip) →
  plan_ready n' ips m1.
Proof.
  intros [Hnd Htext Hip Hrows Hids Hnew Hsub [Hf1 Hf2]] Hn Hs Ha Hk Hidk Hst. apply NoDup_cons in Hnd as [Hnin Hnd]. split; auto.
  - intros ip1 ip2 H1 H2. apply Htext; by right.
  - intros ip' a Hip' Ha'. destruct (Hrows ip' a ltac:(by right) Ha') as [Hl Ht]. split; [|done].
    rewrite Ha, lookup_insert_ne; [done|]. intros E. by eapply Hk.
  - intros ip' Hip' Ha' [Hold|E]%Hst; [by apply (Hnew ip' ltac:(by right) Ha')|].
    apply Hnin. rewrite (Htext ip ip'); [done|by left|by right|done].
  - intros ip' Hip'. rewrite Hs. apply Hsub. by right.
  - cbn [length] in *. split; [|intros i j Hi Hj; apply Hf2; lia].
    intros i Hi. rewrite Ha, lookup_insert_ne; [apply Hf1; lia|]. intros E. by apply (Hidk i ltac:(lia)).
Qed.

(** The first row written, then the rest done. *)
Lemma done_cons ip ips m m1 m' k r c :
  NoDup (ip :: ips) → pc_winner pc !! ip = Some c → mem_addrs m1 = <[k := r]> (mem_addrs m) →
  (∀ ip' b, ip' ∈ ips → addrs !! ip' = Some b → ad_ID b ≠ k) →
  match addrs !! ip with
  | Some a => k = ad_ID a ∧ is_Some (mem_addrs m !! k) ∧
              ∃ t, let e := arp_expected (in_Now in_) c a in r = {| e with ad_UpdatedAt := t |}
  | None => mem_addrs m !! k = None ∧ arp_created T (in_Now in_) c (default "" (pc_placed pc !! ip)) k r
  end →
  plan_done ips m1 m' → plan_done (ip :: ips) m m'.
Proof.
  intros [Hnin Hnd]%NoDup_cons Hc Ha Hk Hhead [Drows Drest Dnew Donly].
  assert (Hkeep : mem_addrs m' !! k = Some r) by (apply Drest; [by rewrite Ha, lookup_insert_eq|done]).
  split.
  - intros ip' a' c' [->|Hip']%elem_of_cons Ha' Hc'; [|by eapply Drows]. rewrite Ha' in Hhead. destruct Hhead as (-> & _ & t & ->).
    rewrite Hc in Hc'. injection Hc' as <-. by exists t.
  - intros k' a' Hk' Hother. apply Drest.
    + rewrite Ha, lookup_insert_ne; [done|]. intros <-. destruct (addrs !! ip) as [a|] eqn:E.
      * destruct Hhead as (-> & _). by apply (Hother ip a ltac:(by left) E).
      * destruct Hhead as [Hn _]. by rewrite Hn in Hk'.
    + intros ip' b Hip'. apply Hother. by right.
  - intros ip' c' [->|Hip']%elem_of_cons Hn' Hc'.
    + rewrite Hn' in Hhead. destruct Hhead as [Hnone Hr]. rewrite Hc in Hc'. injection Hc' as <-. eauto.
    + destruct (Dnew ip' c' Hip' Hn' Hc') as (k' & a' & Hnone & Hsome & Hcr). exists k', a'. split; [|done].
      rewrite Ha, lookup_insert_None in Hnone. by destruct Hnone.
  - intros k' a' Hk' Hnone. destruct (decide (k' = k)) as [->|Hne].
    + destruct (addrs !! ip) as [a|] eqn:E; [destruct Hhead as (_ & [? Hs] & _); by rewrite Hs in Hnone|].
      destruct Hhead as [_ Hr]. rewrite Hkeep in Hk'. injection Hk' as <-. exists ip, c. split; [by left|done].
    + destruct (Donly k' a' Hk') as (ip' & c' & Hip' & ?); [by rewrite Ha, lookup_insert_ne|]. exists ip', c'. split; [by right|done].
Qed.

Lemma stored_insert_same m m1 k r a s :
  mem_addrs m1 = <[k := r]> (mem_addrs m) → mem_addrs m !! k = Some a →
  ad_TenantID r = ad_TenantID a → ad_Address r = ad_Address a → stored m1 T s → stored m T s.
Proof.
  intros Ha Hk Ht Had (k' & x & Hx & Hxt & Hxa). rewrite Ha in Hx. destruct (decide (k' = k)) as [->|Hne].
  - rewrite lookup_insert_eq in Hx. injection Hx as <-. exists k, a. split; [done|]. split; congruence.
  - rewrite lookup_insert_ne in Hx by done. by exists k', x.
Qed.

Lemma arp_expected_kept at_ c a :
  ad_TenantID (arp_expected at_ c a) = ad_TenantID a ∧ ad_Address (arp_expected at_ c a) = ad_Address a.
Proof. unfold arp_expected. repeat case_match; done. Qed.

(** An operation planned for an address, applied. *)
Lemma apply_planned n ips ops w :
  planned in_ pc addrs n ips ops → plan_ready n ips (w_mem w) →
  ∃ w', mapM_ apply_op ops w = (w', Ok ()) ∧ plan_done ips (w_mem w) (w_mem w').
Proof.
  intros Hpl. revert w. induction Hpl as [n|n n' ip ips c rows_ ops Hc Ha Hn Hpl IH|n n' ip ips c a kind rows_ ops Hc Ha Hkind Hn Hpl IH
    |n n' ip ips c a ops Hc Ha Hkind Hn Hpl IH]; intros w Hready.
  - eexists. split; [reflexivity|]. split; set_solver.
  - destruct Hready as [Hnd Htext Hip Hrows Hids Hnew Hsub Hfresh] eqn:E; clear E. destruct (Hsub ip ltac:(by left)) as (s & Hs & Ht).
    pose proof Hfresh as [Hf1 Hf2]. cbn [length] in Hf1, Hf2.
    destruct (apply_create (id_at n) (default "" (pc_placed pc !! ip)) c rows_ w s) as (w1 & r & E & Hr & Haddr & Hsubs); [|apply Hf1; lia|exact Hs|exact Ht|].
    { rewrite (Hip ip c Hc). by apply Hnew; [left|]. }
    assert (Hk : ∀ ip' b, ip' ∈ ips → addrs !! ip' = Some b → ad_ID b ≠ id_at n).
    { intros ip' b Hip' Hb Eid. destruct (Hrows ip' b ltac:(by right) Hb) as [Hl _]. rewrite Eid, Hf1 in Hl by lia. done. }
    destruct (IH w1) as (w' & E' & Hdone).
    { eapply (ready_tail n n' ip ips _ _ (id_at n) r Hready); try done; [lia| |].
      - cbn [length]. intros i Hi Eid%Hf2; lia.
      - intros s' (k' & x & Hx & Hxt & Hxa). rewrite Haddr in Hx. destruct (decide (k' = id_at n)) as [->|Hne].
        + rewrite lookup_insert_eq in Hx. injection Hx as <-. right. destruct Hr as (t1 & t2 & ->). cbn in Hxa. by rewrite <- Hxa, (Hip ip c Hc).
        + rewrite lookup_insert_ne in Hx by done. left. by exists k', x. }
    exists w'. cbn [mapM_]. rewrite (bind_Ok _ _ _ _ _ E). split; [exact E'|].
    eapply (done_cons ip ips _ _ _ (id_at n) r c); try done. rewrite Ha. split; [apply Hf1; lia|done].
  - destruct Hready as [Hnd Htext Hip Hrows Hids Hnew Hsub Hfresh] eqn:E; clear E. destruct (Hrows ip a ltac:(by left) Ha) as [Hl Ht].
    pose proof Hfresh as [Hf1 Hf2]. cbn [length] in Hf1, Hf2.
    destruct (apply_change a c kind rows_ w Hl Ht Hkind) as (w1 & t & E & Haddr & Hsubs).
    set (r := let e := arp_expected (in_Now in_) c a in {| e with ad_UpdatedAt := t |}) in *.
    assert (Hk : ∀ ip' b, ip' ∈ ips → addrs !! ip' = Some b → ad_ID b ≠ ad_ID a).
    { intros ip' b Hip' Hb Eid. apply NoDup_cons in Hnd as [Hnin _]. apply Hnin. by rewrite <- (Hids ip' ip b a Hb Ha Eid). }
    destruct (IH w1) as (w' & E' & Hdone).
    { eapply (ready_tail n n' ip ips _ _ (ad_ID a) r Hready); try done.
      - cbn [length]. intros i Hi Eid. rewrite <- Eid, Hf1 in Hl by lia. done.
      - intros s' Hst. left. destruct (arp_expected_kept (in_Now in_) c a) as [Hkt Hka]. by eapply (stored_insert_same _ _ (ad_ID a) r a). }
    exists w'. cbn [mapM_]. rewrite (bind_Ok _ _ _ _ _ E). split; [exact E'|].
    eapply (done_cons ip ips _ _ _ (ad_ID a) r c); try done. rewrite Ha. split; [done|]. split; [by eexists|by exists t].
  - destruct Hready as [Hnd Htext Hip Hrows Hids Hnew Hsub Hfresh] eqn:E; clear E. destruct (Hrows ip a ltac:(by left) Ha) as [Hl Ht].
    pose proof Hfresh as [Hf1 Hf2]. cbn [length] in Hf1, Hf2.
    assert (Hsame : mem_addrs (w_mem w) = <[ad_ID a := a]> (mem_addrs (w_mem w))) by (by rewrite insert_id).
    assert (Hk : ∀ ip' b, ip' ∈ ips → addrs !! ip' = Some b → ad_ID b ≠ ad_ID a).
    { intros ip' b Hip' Hb Eid. apply NoDup_cons in Hnd as [Hnin _]. apply Hnin. by rewrite <- (Hids ip' ip b a Hb Ha Eid). }
    destruct (IH w) as (w' & E' & Hdone).
    { eapply (ready_tail n n' ip ips _ _ (ad_ID a) a Hready); try done.
      - cbn [length]. intros i Hi Eid. rewrite <- Eid, Hf1 in Hl by lia. done.
      - intros s' Hst. by left. }
    exists w'. split; [exact E'|].
    eapply (done_cons ip ips _ _ _ (ad_ID a) a c); try done. rewrite Ha. split; [done|]. split; [by eexists|].
    exists (ad_UpdatedAt a). cbn zeta. rewrite arp_skip_expected by done. by destruct a.
Qed.
End apply.

(** ** The accepted observations *)

(** The candidate an entry gives, unless it is filtered. *)
Definition accept (network excluded : gset string) (de : string * ARPEntry) : option candidate :=
  let '(dev, e) := de in
  if decide (dev ∈ excluded) then None
  else match ParseAddr (ae_IP e) with
  | None => None
  | Some ip =>
      let '(mac, reason) := classifyMAC (ae_MAC e) network in
      if is_empty reason then Some {| c_ip := canon_addr ip; c_mac := mac; c_device := dev |} else None
  end.

Definition ignored_total (m : gmap string Z) : Z := map_fold (λ _ n acc, n + acc) 0 m.
#[local] Arguments ignored_total : simpl never.
#[local] Arguments count_ignored : simpl never.
#[local] Arguments Z.of_nat : simpl never.

Lemma ignored_total_insert k n m : m !! k = None → ignored_total (<[k := n]> m) = n + ignored_total m.
Proof. intros Hk. unfold ignored_total. rewrite map_fold_insert_L; [done| |done]. intros. lia. Qed.

Lemma ignored_total_count reason m : ignored_total (count_ignored reason m) = ignored_total m + 1.
Proof.
  unfold count_ignored. destruct (m !! reason) as [n|] eqn:E; cbn [default].
  - rewrite <- (insert_delete_id m reason n E) at 2. rewrite <- insert_delete_eq.
    rewrite !ignored_total_insert by apply lookup_delete_eq. cbn. lia.
  - rewrite ignored_total_insert by done. cbn. lia.
Qed.

Lemma read_entries_spec network excluded l st :
  let st' := foldl (read_entry network excluded) st l in
  rd_cands st' = rd_cands st ++ omap (accept network excluded) l ∧
  rd_Entries st' = rd_Entries st + Z.of_nat (length l) ∧
  rd_Entries st' - ignored_total (rd_Ignored st') - Z.of_nat (length (rd_cands st')) =
  rd_Entries st - ignored_total (rd_Ignored st) - Z.of_nat (length (rd_cands st)).
Proof.
  revert st. induction l as [|[dev e] l IH]; intros st; cbn [foldl omap list_omap length]; [rewrite app_nil_r; split; [done|lia]|].
  specialize (IH (read_entry network excluded st (dev, e))). cbn zeta in IH |- *. destruct IH as (Hc & He & Hs).
  rewrite Hs, He, Hc. unfold read_entry, accept.
  destruct (decide (dev ∈ excluded)); [cbn; rewrite ignored_total_count; split; [done|lia]|].
  destruct (ParseAddr (ae_IP e)) as [ip|]; [|cbn; rewrite ignored_total_count; split; [done|lia]].
  destruct (classifyMAC (ae_MAC e) network) as [mac reason]. destruct (is_empty reason); cbn.
  - rewrite <- app_assoc, length_app. cbn. split; [done|lia].
  - rewrite ignored_total_count. split; [done|lia].
Qed.

Lemma filterProxy_spec threshold ips l st :
  let st' := foldl (λ st c, if over_threshold ips threshold c then (fst st, count_ignored ARPIgnoredProxy (snd st))
                            else (fst st ++ [c], snd st)) st l in
  fst st' = fst st ++ List.filter (λ c, negb (over_threshold ips threshold c)) l ∧
  ignored_total (snd st') + Z.of_nat (length (fst st')) =
  ignored_total (snd st) + Z.of_nat (length (fst st)) + Z.of_nat (length l).
Proof.
  revert st. induction l as [|c l IH]; intros st; cbn [foldl List.filter length]; [rewrite app_nil_r; split; [done|lia]|].
  specialize (IH (if over_threshold ips threshold c then (fst st, count_ignored ARPIgnoredProxy (snd st)) else (fst st ++ [c], snd st))).
  cbn zeta in IH |- *. destruct IH as (Hc & Hs). rewrite Hs, Hc. destruct (over_threshold ips threshold c); cbn.
  - rewrite ignored_total_count. split; [done|lia].
  - rewrite <- app_assoc, length_app. cbn. split; [done|lia].
Qed.

(** The addresses a MAC answers for. *)
Lemma mac_ips_spec l mac ip :
  ip ∈ default ∅ (mac_ips l !! mac) ↔ ∃ c, c ∈ l ∧ c_mac c = mac ∧ c_ip c = ip.
Proof.
  unfold mac_ips.
  assert (Hgen : ∀ m : gmap string (gset Addr), ip ∈ default ∅ (foldl (λ m c, <[c_mac c := {[c_ip c]} ∪ default ∅ (m !! c_mac c)]> m) m l !! mac) ↔
            ip ∈ default ∅ (m !! mac) ∨ ∃ c, c ∈ l ∧ c_mac c = mac ∧ c_ip c = ip).
  { induction l as [|c l IH]; intros m; cbn [foldl]; [set_solver|]. rewrite IH.
    destruct (decide (c_mac c = mac)) as [<-|Hne].
    - rewrite lookup_insert_eq. cbn. set_solver.
    - rewrite lookup_insert_ne by done. set_solver. }
  rewrite Hgen, lookup_empty. cbn. set_solver.
Qed.

Section placing.
Context (subnets : list Candidate).

Definition placeable (c : candidate) : bool := snd (subnetOf subnets (c_ip c)).

(** What the second loop knows after a list of candidates. *)
Record placing_inv (l : list candidate) (st : placing) : Prop := {
  pi_winner : ∀ ip c, pc_winner st !! ip = Some c → c ∈ l ∧ c_ip c = ip ∧ placeable c = true;
  pi_all : ∀ c, c ∈ l → placeable c = true → is_Some (pc_winner st !! c_ip c);
  pi_placed : ∀ ip, is_Some (pc_winner st !! ip) → pc_placed st !! ip = Some (fst (subnetOf subnets ip))
}.

Lemma place_spec l st :
  let st' := foldl (place_candidate subnets) st l in
  (∀ done_, placing_inv done_ st → placing_inv (done_ ++ l) st') ∧
  ignored_total (pc_Ignored st') + Z.of_nat (length (List.filter placeable l)) =
  ignored_total (pc_Ignored st) + Z.of_nat (length l).
Proof.
  revert st. induction l as [|c l IH]; intros st; cbn [foldl List.filter length].
  { split; [intros d Hd; by rewrite app_nil_r|lia]. }
  destruct (IH (place_candidate subnets st c)) as [Hinv Hsum]. cbn zeta. split.
  - intros d [Hw Ha Hp]. rewrite (cons_middle c d l), app_assoc. apply Hinv. unfold place_candidate.
    destruct (subnetOf subnets (c_ip c)) as [sid ok] eqn:E. destruct ok; cbn [negb]; split; cbn [pc_winner pc_placed].
    + intros ip c' Hc'. destruct (decide (c_ip c = ip)) as [<-|Hne].
      * rewrite lookup_insert_eq in Hc'. injection Hc' as <-. unfold placeable. rewrite E. set_solver.
      * rewrite lookup_insert_ne in Hc' by done. destruct (Hw _ _ Hc') as (? & ? & ?). set_solver.
    + intros c' [Hc'|Hc'%list_elem_of_singleton]%elem_of_app Hpl.
      * destruct (decide (c_ip c = c_ip c')) as [->|Hne]; [rewrite lookup_insert_eq; eauto|]. rewrite lookup_insert_ne by done. eauto.
      * subst c'. rewrite lookup_insert_eq. eauto.
    + intros ip Hip. destruct (decide (c_ip c = ip)) as [<-|Hne].
      * by rewrite lookup_insert_eq, E.
      * rewrite lookup_insert_ne in Hip by done. rewrite lookup_insert_ne by done. by apply Hp.
    + intros ip c' Hc'. destruct (Hw _ _ Hc') as (? & ? & ?). set_solver.
    + intros c' [Hc'|Hc'%list_elem_of_singleton]%elem_of_app Hpl; [by apply Ha|]. subst c'. unfold placeable in Hpl. by rewrite E in Hpl.
    + exact Hp.
  - clear Hinv. revert Hsum. unfold place_candidate. destruct (placeable c) eqn:Epl; unfold placeable in Epl;
      destruct (subnetOf subnets (c_ip c)) as [sid ok]; cbn [snd] in Epl; subst ok; cbn [negb pc_Ignored length];
      rewrite ?ignored_total_count; lia.
Qed.
End placing.

(** ** The planner's contract *)

Section contract.
Context (in_ : Input).
Let pc := placement_of in_.

Definition threshold_of (in_ : Input) : Z :=
  if in_ProxyThreshold in_ <? 1 then ARPDefaultProxyThreshold else in_ProxyThreshold in_.

(** The candidates the per-entry filters let through, in device order. *)
Definition accepted_cands (in_ : Input) : list candidate :=
  omap (accept (in_NetworkMACs in_) (list_to_set (in_ExcludedDevices in_)))
    (entries_of (sort_by (λ a b, str_ltb (ob_DeviceID a) (ob_DeviceID b)) (in_Observations in_))).

Lemma observed_spec :
  rd_cands (observed in_) = accepted_cands in_ ∧
  rd_Entries (observed in_) = ignored_total (rd_Ignored (observed in_)) + Z.of_nat (length (accepted_cands in_)).
Proof.
  unfold observed. set (l := entries_of _).
  destruct (read_entries_spec (in_NetworkMACs in_) (list_to_set (in_ExcludedDevices in_)) l
    {| rd_Entries := 0; rd_Ignored := ∅; rd_cands := [] |}) as (Hc & _ & Hs). cbn in Hc, Hs. split; [exact Hc|].
  rewrite Hc in Hs. unfold accepted_cands. fold l. change (ignored_total ∅) with 0 in Hs. lia.
Qed.

Lemma filtered_spec :
  fst (proxy_filtered in_) =
    List.filter (λ c, negb (over_threshold (mac_ips (accepted_cands in_)) (threshold_of in_) c)) (accepted_cands in_) ∧
  ignored_total (snd (proxy_filtered in_)) + Z.of_nat (length (fst (proxy_filtered in_))) =
    ignored_total (rd_Ignored (observed in_)) + Z.of_nat (length (accepted_cands in_)).
Proof.
  unfold proxy_filtered, filterProxy. destruct observed_spec as [-> _]. fold (threshold_of in_).
  destruct (filterProxy_spec (threshold_of in_) (mac_ips (accepted_cands in_)) (accepted_cands in_)
    ([], rd_Ignored (observed in_))) as [Hc Hs]. cbn zeta in Hc, Hs. rewrite Hs. split; [exact Hc|]. cbn. lia.
Qed.

Lemma placement_inv : placing_inv (tenant_cands (in_TenantID in_) (in_Subnets in_)) (fst (proxy_filtered in_)) pc.
Proof.
  destruct (place_spec (tenant_cands (in_TenantID in_) (in_Subnets in_)) (fst (proxy_filtered in_))
    {| pc_winner := ∅; pc_placed := ∅; pc_disagree := ∅; pc_Ignored := snd (proxy_filtered in_) |}) as [Hinv _].
  apply (Hinv []). split; cbn; [|set_solver|]; intros ip; rewrite lookup_empty; [done|by intros [? ?]].
Qed.

(** Every entry is counted as ignored under one reason or placed. *)
Lemma entries_accounted :
  rd_Entries (observed in_) = ignored_total (pc_Ignored pc) +
    Z.of_nat (length (List.filter (placeable (tenant_cands (in_TenantID in_) (in_Subnets in_))) (fst (proxy_filtered in_)))).
Proof.
  destruct (place_spec (tenant_cands (in_TenantID in_) (in_Subnets in_)) (fst (proxy_filtered in_))
    {| pc_winner := ∅; pc_placed := ∅; pc_disagree := ∅; pc_Ignored := snd (proxy_filtered in_) |}) as [_ Hs].
  cbn [pc_Ignored] in Hs. destruct observed_spec as [_ He]. destruct filtered_spec as [_ Hf].
  unfold pc, placement_of. lia.
Qed.

Lemma canon_addr_ok ip :
  Addr_wf ip → Addr_IsValid ip = true →
  let c := canon_addr ip in Addr_wf c ∧ Addr_IsValid c = true ∧ Addr_Zone c = ""%string ∧ canon_addr c = c.
Proof.
  intros Hwf Hv. unfold canon_addr. destruct ip as [|n|n z]; [done|done|]. cbn [Addr_Unmap].
  destruct (is4In6_value n) eqn:E; cbn; [|rewrite E; done]. split; [|done]. apply Z.mod_pos_bound. lia.
Qed.

(** What the filters guarantee of the candidate that wins an address. *)
Lemma winner_accepted ip c :
  pc_winner pc !! ip = Some c →
  c_ip c = ip ∧ c ∈ accepted_cands in_ ∧
  over_threshold (mac_ips (accepted_cands in_)) (threshold_of in_) c = false ∧
  (Addr_wf ip ∧ Addr_IsValid ip = true ∧ Addr_Zone ip = ""%string ∧ canon_addr ip = ip) ∧
  ∃ s, s ∈ in_Subnets in_ ∧ sn_TenantID s = in_TenantID in_ ∧ pc_placed pc !! ip = Some (sn_ID s) ∧
    MostSpecific (tenant_cands (in_TenantID in_) (in_Subnets in_)) ip = ({| cand_ID := sn_ID s; cand_CIDR := sn_CIDR s |}, true).
Proof.
  intros Hc. destruct placement_inv as [Hw _ Hp]. destruct (Hw _ _ Hc) as (Hin & Hip & Hpl).
  rewrite (proj1 filtered_spec) in Hin. apply list_elem_of_In, filter_In in Hin as [Hin Hth].
  apply list_elem_of_In in Hin. apply negb_true_iff in Hth. split; [done|]. split; [done|]. split; [done|]. split.
  - unfold accepted_cands in Hin. apply list_elem_of_omap in Hin as ([dev e] & _ & Hacc). unfold accept in Hacc.
    destruct (decide _); [done|]. destruct (ParseAddr (ae_IP e)) as [a|] eqn:Ea; [|done].
    destruct (classifyMAC _ _) as [mac reason]. destruct (is_empty reason); [|done]. injection Hacc as <-. cbn in Hip. subst ip.
    apply ParseAddr_wf in Ea as [??]. by apply canon_addr_ok.
  - specialize (Hp ip ltac:(eauto)). rewrite <- Hip in Hp |- *. unfold placeable, subnetOf in *. cbn [fst snd] in *.
    destruct (MostSpecific _ (c_ip c)) as [cand ok] eqn:Em. cbn in Hpl, Hp. subst ok.
    assert (Hcand : cand ∈ tenant_cands (in_TenantID in_) (in_Subnets in_)).
    { destruct (MostSpecific_inv (c_ip c) (tenant_cands (in_TenantID in_) (in_Subnets in_))) as [k Hms]. rewrite Em in Hms. apply Hms. }
    unfold tenant_cands in Hcand. apply list_elem_of_fmap in Hcand as (s & -> & Hs).
    apply list_elem_of_In, filter_In in Hs as [Hs Ht]. apply list_elem_of_In in Hs. apply String.eqb_eq in Ht. eauto.
Qed.
End contract.

(** The operation on an address comes from the candidate that won it. *)
Lemma planned_op `{Env} in_ pc addrs n ips ops o :
  planned in_ pc addrs n ips ops → o ∈ ops →
  ∃ ip c, ip ∈ ips ∧ pc_winner pc !! ip = Some c ∧ ao_Address o = Addr_String (c_ip c) ∧ ao_MAC o = c_mac c ∧
    ao_SourceDeviceID o = c_device c ∧
    match addrs !! ip with
    | None => ao_Kind o = ARPCreate ∧ ao_SubnetID o = default "" (pc_placed pc !! ip)
    | Some a => arp_kind a c = Some (ao_Kind o) ∧ ao_AddressID o = ad_ID a
    end.
Proof.
  induction 1 as [n|n n' ip ips c rows_ ops Hc Ha Hn Hpl IH|n n' ip ips c a kind rows_ ops Hc Ha Hkind Hn Hpl IH
    |n n' ip ips c a ops Hc Ha Hkind Hn Hpl IH]; intros Ho.
  - by apply elem_of_nil in Ho.
  - apply elem_of_cons in Ho as [->|Ho]; [exists ip, c; rewrite Ha; split; [by left|done]|].
    destruct (IH Ho) as (ip' & c' & Hip & ?). exists ip', c'. split; [by right|done].
  - apply elem_of_cons in Ho as [->|Ho]; [exists ip, c; rewrite Ha; split; [by left|done]|].
    destruct (IH Ho) as (ip' & c' & Hip & ?). exists ip', c'. split; [by right|done].
  - destruct (IH Ho) as (ip' & c' & Hip & ?). exists ip', c'. split; [by right|done].
Qed.

Lemma planned_addresses `{Env} in_ pc addrs n ips ops :
  (∀ ip c, pc_winner pc !! ip = Some c → c_ip c = ip) →
  planned in_ pc addrs n ips ops → ao_Address <$> ops `sublist_of` Addr_String <$> ips.
Proof.
  intros Hip. induction 1 as [n|n n' ip ips c rows_ ops Hc Ha Hn Hpl IH|n n' ip ips c a kind rows_ ops Hc Ha Hkind Hn Hpl IH
    |n n' ip ips c a ops Hc Ha Hkind Hn Hpl IH]; cbn; [constructor| | |by constructor];
    rewrite (Hip _ _ Hc); by constructor.
Qed.

Lemma winner_text_inj in_ ip ip' c c' :
  pc_winner (placement_of in_) !! ip = Some c → pc_winner (placement_of in_) !! ip' = Some c' →
  Addr_String ip = Addr_String ip' → ip = ip'.
Proof.
  intros (_ & _ & _ & (Hwf & Hv & Hz & _) & _)%winner_accepted (_ & _ & _ & (Hwf' & Hv' & Hz' & _) & _)%winner_accepted E.
  pose proof (ParseAddr_String ip Hwf Hv Hz) as P. rewrite E, (ParseAddr_String ip' Hwf' Hv' Hz') in P. by injection P.
Qed.

Lemma winner_ips_spec pc ip : ip ∈ winner_ips pc ↔ is_Some (pc_winner pc !! ip).
Proof.
  unfold winner_ips. rewrite elem_of_sort_by, list_elem_of_fmap. split.
  - intros ([k c] & -> & Hin). apply elem_of_map_to_list in Hin. eauto.
  - intros [c Hc]. exists (ip, c). split; [done|]. by apply elem_of_map_to_list.
Qed.

Lemma winner_ips_NoDup pc : NoDup (winner_ips pc).
Proof. unfold winner_ips. rewrite (sort_by_perm Addr_Less). apply NoDup_fst_map_to_list. Qed.

(** The MAC addresses the filters let through. *)
Lemma classifyMAC_usable s network mac reason :
  classifyMAC s network = (mac, reason) → is_empty reason = true →
  ∃ hw, ParseMAC s = Some hw ∧ length hw = 6%nat ∧ mac = MAC_String hw ∧ foldl Z.lor 0 hw ≠ 0 ∧
    Z.land (nth 0 hw 0) 1 ≠ 1 ∧ virtualRouter hw = false ∧ mac ∉ network.
Proof.
  unfold classifyMAC. destruct (ParseMAC s) as [hw|]; [|by intros [= <- <-]].
  destruct (length hw =? 6)%nat eqn:E6; cbn [negb]; [|by intros [= <- <-]].
  destruct (foldl Z.lor 0 hw =? 0) eqn:E0; [by intros [= <- <-]|].
  destruct (Z.land (nth 0 hw 0) 1 =? 1) eqn:E1; [by intros [= <- <-]|].
  destruct (virtualRouter hw) eqn:Ev; [by intros [= <- <-]|].
  destruct (decide _) as [Hin|Hout]; [by intros [= <- <-]|]. intros [= <- <-] _.
  apply Nat.eqb_eq in E6. apply Z.eqb_neq in E0, E1. by exists hw.
Qed.

(** An operation justified by what was reported: a device that is not
    excluded reported the address with this MAC address, which is a unicast,
    non-zero 6-byte address, not a virtual router's nor a network device's,
    and answers for at most the threshold of addresses; a created address is
    placed in the tenant's most specific subnet. *)
Definition justified (in_ : Input) (o : ARPOp) : Prop :=
  ∃ ob e ip hw, ob ∈ in_Observations in_ ∧ e ∈ ob_Entries ob ∧ ob_DeviceID ob = ao_SourceDeviceID o ∧
    ob_DeviceID ob ∉ in_ExcludedDevices in_ ∧
    ParseAddr (ae_IP e) = Some ip ∧ ao_Address o = Addr_String (canon_addr ip) ∧
    ParseMAC (ae_MAC e) = Some hw ∧ ao_MAC o = MAC_String hw ∧ length hw = 6%nat ∧ foldl Z.lor 0 hw ≠ 0 ∧
    Z.land (nth 0 hw 0) 1 ≠ 1 ∧ virtualRouter hw = false ∧ ao_MAC o ∉ in_NetworkMACs in_ ∧
    (∀ l, NoDup l → (∀ x, x ∈ l → ∃ c, c ∈ accepted_cands in_ ∧ c_mac c = ao_MAC o ∧ c_ip c = x) →
       Z.of_nat (length l) ≤ threshold_of in_) ∧
    (ao_Kind o = ARPCreate → ∃ s, s ∈ in_Subnets in_ ∧ sn_TenantID s = in_TenantID in_ ∧ sn_ID s = ao_SubnetID o ∧
       MostSpecific (tenant_cands (in_TenantID in_) (in_Subnets in_)) (canon_addr ip) =
         ({| cand_ID := sn_ID s; cand_CIDR := sn_CIDR s |}, true)).

(** The last loop leaves the counters of the first two alone. *)
Lemma plan_ips_counts `{Env} in_ pc addrs ips p w w' p' :
  plan_ips in_ pc addrs ips p w = (w', Ok p') → pl_Entries p' = pl_Entries p ∧ pl_Ignored p' = pl_Ignored p.
Proof.
  assert (Hc : ∀ c sid id p w w' p', create in_ c sid id p w = (w', Ok p') → pl_Entries p' = pl_Entries p ∧ pl_Ignored p' = pl_Ignored p).
  { intros c sid id q v v' q' Hrun. unfold create in Hrun. m_inv. done. }
  assert (Ha : ∀ a c p w w' p', address in_ a c p w = (w', Ok p') → pl_Entries p' = pl_Entries p ∧ pl_Ignored p' = pl_Ignored p).
  { intros a c q v v' q' Hrun. unfold address in Hrun. repeat case_match; m_inv; done. }
  revert p w. induction ips as [|ip ips IH]; intros p w Hrun; cbn [plan_ips] in Hrun; [m_inv; done|].
  destruct (pc_winner pc !! ip) as [c|]; [|by eapply IH].
  apply bind_inv in Hrun as (w1 & p1 & E1 & E2). destruct (IH _ _ E2) as [-> ->].
  destruct (addrs !! ip) as [a|]; [by eapply Ha|]. apply bind_inv in E1 as (w0 & id & _ & E1). by eapply Hc.
Qed.

Lemma op_justified `{Env} in_ n ops o :
  planned in_ (placement_of in_) (address_index (in_TenantID in_) (in_Addresses in_)) n (winner_ips (placement_of in_)) ops →
  o ∈ ops → justified in_ o.
Proof.
  intros Hpl Ho. destruct (planned_op _ _ _ _ _ _ _ Hpl Ho) as (ip & c & _ & Hc & Haddr & Hmac & Hdev & Hkind).
  destruct (winner_accepted in_ ip c Hc) as (Hip & Hacc & Hth & (_ & _ & _ & Hcanon) & s & Hs & Ht & Hp & Hms).
  unfold accepted_cands in Hacc. apply list_elem_of_omap in Hacc as ([dev e] & Hin & Hacc).
  unfold entries_of in Hin. apply list_elem_of_In, in_concat in Hin as (row_ & Hrow & Hin).
  apply in_map_iff in Hrow as (ob & <- & Hob). apply in_map_iff in Hin as (e' & [= <- ->] & He).
  rewrite <- list_elem_of_In, elem_of_sort_by in Hob. apply list_elem_of_In in He.
  unfold accept in Hacc. destruct (decide _) as [|Hex]; [done|]. destruct (ParseAddr (ae_IP e)) as [a|] eqn:Ea; [|done].
  destruct (classifyMAC (ae_MAC e) (in_NetworkMACs in_)) as [mac reason] eqn:Ecl. destruct (is_empty reason) eqn:Er; [|done].
  injection Hacc as <-. cbn [c_ip c_mac c_device] in *.
  destruct (classifyMAC_usable _ _ _ _ Ecl Er) as (hw & Hhw & Hlen & Hm & H0 & H1 & Hv & Hnet).
  exists ob, e, a, hw. split_and!; try done; try congruence.
  - intros Hbad. apply Hex. by apply elem_of_list_to_set.
  - intros l Hnd Hall. unfold over_threshold in Hth. apply Z.ltb_ge in Hth. cbn [c_mac] in Hth.
    etrans; [|exact Hth]. apply Nat2Z.inj_le, NoDup_subset_size; [done|]. intros x Hx. apply mac_ips_spec. rewrite <- Hmac. by apply Hall.
  - intros Hcreate. exists s. split; [done|]. split; [done|]. rewrite Hip. split; [|done].
    destruct (address_index _ _ !! ip) as [row_|] eqn:Eidx.
    + destruct Hkind as [Hk _]. destruct (arp_change_expected in_ _ "" "" _ [] _ Hk) as [_ Hne]. by rewrite Hcreate in Hne.
    + destruct Hkind as [_ ->]. by rewrite Hp.
Qed.

(** The ARP planner: planning always succeeds and only draws identifiers;
    every entry read is counted under one reason or was placed in a subnet;
    there is at most one operation per address; and every operation is justified by a trustworthy report. *)
Theorem Build_sound `{Env} in_ w :
  ∃ w' p, Build in_ w = (w', Ok p) ∧ w_mem w' = w_mem w ∧
    pl_Entries p = Z.of_nat (length (entries_of (in_Observations in_))) ∧
    (∃ placed, placed `sublist_of` accepted_cands in_ ∧
       pl_Entries p = ignored_total (pl_Ignored p) + Z.of_nat (length placed) ∧
       ∀ c, c ∈ placed → snd (MostSpecific (tenant_cands (in_TenantID in_) (in_Subnets in_)) (c_ip c)) = true) ∧
    NoDup (ao_Address <$> pl_Ops p) ∧ Forall (justified in_) (pl_Ops p).
Proof.
  set (pc := placement_of in_). unfold Build. fold pc.
  set (p0 := {| pl_Ops := []; pl_Ignored := pc_Ignored pc; pl_Entries := rd_Entries (observed in_); pl_Applied := 0;
                pl_Created := 0; pl_Conflicts := Z.of_nat (size (pc_disagree pc)) |}).
  destruct (plan_ips_run in_ pc (address_index (in_TenantID in_) (in_Addresses in_)) (winner_ips pc) p0 w)
    as (w' & p & ops & E & Hm & Hops & Hpl); [intros ip; by rewrite winner_ips_spec|].
  cbn [app pl_Ops p0] in Hops.
  assert (Hkeep : pl_Entries p = pl_Entries p0 ∧ pl_Ignored p = pl_Ignored p0) by (eapply plan_ips_counts; exact E).
  destruct Hkeep as [He Hi]. exists w', p. split; [done|]. split; [done|]. rewrite He, Hi, Hops. split_and!.
  - cbn [pl_Entries p0]. unfold observed. destruct (read_entries_spec (in_NetworkMACs in_) (list_to_set (in_ExcludedDevices in_))
      (entries_of (sort_by (λ a b, str_ltb (ob_DeviceID a) (ob_DeviceID b)) (in_Observations in_)))
      {| rd_Entries := 0; rd_Ignored := ∅; rd_cands := [] |}) as (_ & -> & _). cbn [rd_Entries]. rewrite Z.add_0_l. f_equal.
    unfold entries_of. rewrite <- !flat_map_concat_map. by apply Permutation_length, Permutation_flat_map, sort_by_perm.
  - eexists. split; [|split; [exact (entries_accounted in_)|]].
    + etrans; [apply filter_sublist|]. rewrite (proj1 (filtered_spec in_)). apply filter_sublist.
    + intros c Hc. apply list_elem_of_In, filter_In in Hc as [_ Hc]. exact Hc.
  - eapply sublist_NoDup; [|apply (planned_addresses in_ pc _ _ _ _ (λ ip c Hc, proj1 (winner_accepted in_ ip c Hc)) Hpl)].
    apply NoDup_fmap_2_strong; [|apply winner_ips_NoDup].
    intros x y [c Hc]%winner_ips_spec [c' Hc']%winner_ips_spec. by eapply winner_text_inj.
  - apply Forall_forall. intros o. by eapply op_justified.
Qed.

(** ** The phase *)

Lemma insert_by_fmap {A} (f : A → A) (less : A → A → bool) x l :
  (∀ x y, less (f x) (f y) = less x y) → insert_by less (f x) (f <$> l) = f <$> insert_by less x l.
Proof. intros Hf. induction l as [|y l IH]; cbn; [done|]. rewrite Hf. destruct (less x y); [done|]. cbn. by rewrite IH. Qed.

Lemma sort_by_fmap {A} (f : A → A) (less : A → A → bool) l :
  (∀ x y, less (f x) (f y) = less x y) → sort_by less (f <$> l) = f <$> sort_by less l.
Proof.
  intros Hf. unfold sort_by.
  assert (Hgen : ∀ acc, fold_left (λ acc x, insert_by less x acc) (f <$> l) (f <$> acc) =
            f <$> fold_left (λ acc x, insert_by less x acc) l acc); [|exact (Hgen [])].
  induction l as [|x l IH]; intros acc; cbn; [done|]. by rewrite insert_by_fmap.
Qed.

Section index.
Context (T : string).

Lemma address_index_fmap (f : IPAddress → IPAddress) l :
  (∀ a, ad_Address (f a) = ad_Address a) → (∀ a, ad_TenantID (f a) = ad_TenantID a) →
  address_index T (f <$> l) = f <$> address_index T l.
Proof.
  intros Ha Ht. unfold address_index.
  assert (Hgen : ∀ m, foldl (index_address T) (f <$> m) (f <$> l) = f <$> foldl (index_address T) m l).
  { induction l as [|a l IH]; intros m; cbn; [done|]. rewrite <- IH. f_equal. unfold index_address. rewrite Ha, Ht.
    destruct (ParseAddr (ad_Address a)) as [ip|]; [|done]. destruct (ad_TenantID a =s T); [|done]. by rewrite <- fmap_insert. }
  rewrite <- (fmap_empty f) at 1. apply Hgen.
Qed.

(** The canonical address a row of the tenant is indexed under. *)
Definition indexed_at (a : IPAddress) (ip : Addr) : Prop :=
  ad_TenantID a = T ∧ ∃ i, ParseAddr (ad_Address a) = Some i ∧ canon_addr i = ip.

Lemma address_index_spec l ip :
  match address_index T l !! ip with
  | Some a => a ∈ l ∧ indexed_at a ip
  | None => ∀ a, a ∈ l → ¬ indexed_at a ip
  end.
Proof.
  unfold address_index.
  assert (Hgen : ∀ (m : gmap Addr IPAddress) seen,
    match m !! ip with Some a => a ∈ seen ∧ indexed_at a ip | None => ∀ a, a ∈ seen → ¬ indexed_at a ip end →
    match foldl (index_address T) m l !! ip with
    | Some a => a ∈ seen ++ l ∧ indexed_at a ip
    | None => ∀ a, a ∈ seen ++ l → ¬ indexed_at a ip
    end).
  { induction l as [|a l IH]; intros m seen Hm; cbn [foldl]; [by rewrite app_nil_r|].
    rewrite (cons_middle a seen l), app_assoc. apply IH. unfold index_address.
    assert (Hskip : ¬ indexed_at a ip →
      match m !! ip with Some a' => a' ∈ seen ++ [a] ∧ indexed_at a' ip | None => ∀ a', a' ∈ seen ++ [a] → ¬ indexed_at a' ip end).
    { destruct (m !! ip); [set_solver|]. intros Hn a' [Ha'|Ha'%list_elem_of_singleton]%elem_of_app; [by apply Hm|by subst]. }
    destruct (ParseAddr (ad_Address a)) as [i|] eqn:Ei; [|apply Hskip; intros (_ & ? & ? & _); congruence].
    destruct (String.eqb_spec (ad_TenantID a) T) as [Et|]; [|apply Hskip; by intros [? _]].
    destruct (decide (canon_addr i = ip)) as [<-|Hne].
    - rewrite lookup_insert_eq. split; [set_solver|]. unfold indexed_at. eauto.
    - rewrite lookup_insert_ne by done. apply Hskip. intros (_ & ? & ? & ?); congruence. }
  apply (Hgen ∅ []). rewrite lookup_empty. intros a Ha. by apply elem_of_nil in Ha.
Qed.
End index.

(** The tenant's stored addresses by canonical address; among several
    spellings of one address the oldest row counts. *)
Definition stored_index (m : Mem) (T : string) : gmap Addr IPAddress :=
  address_index T (paginate ad_ID "" 0 (map_select (λ a, ad_TenantID a =s T) (mem_addrs m))).

Lemma stored_index_spec m T ip :
  match stored_index m T !! ip with
  | Some a => (∃ k, mem_addrs m !! k = Some a) ∧ indexed_at T a ip
  | None => ∀ k a, mem_addrs m !! k = Some a → ¬ indexed_at T a ip
  end.
Proof.
  unfold stored_index. pose proof (address_index_spec T (paginate ad_ID "" 0 (map_select (λ a, ad_TenantID a =s T) (mem_addrs m))) ip) as Hs.
  destruct (address_index _ _ !! ip) as [a|].
  - destruct Hs as [Hin Hi]. rewrite paginate_all, elem_of_map_select in Hin. by destruct Hin as [_ ?].
  - intros k a Hk Hi. apply (Hs a); [|done]. rewrite paginate_all, elem_of_map_select. destruct Hi as [-> _].
    rewrite String.eqb_refl. eauto.
Qed.

(** The planner's input as the phase loads it. *)
Definition phase_input `{Env} (m : Mem) (t : Time) (job : IPScanJob) (cfg : ARPSettings) (read : arpRead) : Input :=
  {| in_TenantID := sj_TenantID job; in_JobID := sj_ID job; in_Now := t; in_Observations := ard_obs read;
     in_Subnets := paginate sn_ID "" 0 (map_select (λ s, sn_TenantID s =s sj_TenantID job) (mem_subnets m));
     in_Addresses := decorateAddrLocked m <$> paginate ad_ID "" 0 (map_select (λ a, ad_TenantID a =s sj_TenantID job) (mem_addrs m));
     in_NetworkMACs := networkMACsLocked m (sj_TenantID job); in_ProxyThreshold := as_ProxyThreshold cfg;
     in_ExcludedDevices := as_ExcludedDevices cfg |}.

Lemma planned_decorated `{Env} in_ pc addrs m n ips ops :
  planned in_ pc (decorateAddrLocked m <$> addrs) n ips ops → planned in_ pc addrs n ips ops.
Proof.
  remember (decorateAddrLocked m <$> addrs) as d eqn:Ed.
  induction 1 as [n|n n' ip ips c rows_ ops Hc Ha Hn Hpl IH|n n' ip ips c a kind rows_ ops Hc Ha Hkind Hn Hpl IH
    |n n' ip ips c a ops Hc Ha Hkind Hn Hpl IH]; subst d; [constructor| | |].
  - rewrite lookup_fmap, fmap_None in Ha. apply (planned_create _ _ _ n n' ip ips c); auto.
  - rewrite lookup_fmap in Ha. apply fmap_Some in Ha as (b & Hb & ->).
    apply (planned_change _ _ _ n n' ip ips c b kind); auto.
  - rewrite lookup_fmap in Ha. apply fmap_Some in Ha as (b & Hb & ->). apply (planned_skip _ _ _ n n' ip ips c b); auto.
Qed.

Section phase.
Context `{Env} (job : IPScanJob) (cfg : ARPSettings) (read : arpRead).
Let T := sj_TenantID job.

Lemma planARP_run w :
  {["AllSubnetCIDRs"; "ListAddresses"; "NetworkMACs"]}%string ## mem_failNext (w_mem w) →
  planARP job cfg read w = Build (phase_input (w_mem w) (env_clock (w_ticks w)) job cfg read) {| w with w_ticks := S (w_ticks w) |}.
Proof.
  intros Hf.
  assert (Hno : ∀ s, s ∈ ({["AllSubnetCIDRs"; "ListAddresses"; "NetworkMACs"]} : gset string)%string → fail s w = (w, Ok ())).
  { intros s Hs. apply fail_unarmed. set_solver. }
  assert (Hlist : paginate ad_ID "" 0 (decorateAddrLocked (w_mem w) <$> map_select (address_matches T zero_AddressFilter) (mem_addrs (w_mem w)))
            = decorateAddrLocked (w_mem w) <$> paginate ad_ID "" 0 (map_select (λ a, ad_TenantID a =s T) (mem_addrs (w_mem w)))).
  { assert (Hsel : map_select (address_matches T zero_AddressFilter) (mem_addrs (w_mem w)) = map_select (λ a, ad_TenantID a =s T) (mem_addrs (w_mem w))).
    { apply filter_ext. intros a. unfold address_matches. cbn. by rewrite !andb_true_r. }
    rewrite Hsel. unfold paginate. cbn. by rewrite sort_by_fmap. }
  assert (Hl : ListAddresses T zero_AddressFilter w =
            (w, Ok (decorateAddrLocked (w_mem w) <$> paginate ad_ID "" 0 (map_select (λ a, ad_TenantID a =s T) (mem_addrs (w_mem w)))))).
  { rewrite <- Hlist. unfold ListAddresses. rewrite (bind_Ok _ _ w w ()) by (apply Hno; set_solver). reflexivity. }
  unfold planARP. erewrite bind_Ok; [|unfold AllSubnetCIDRs; rewrite (bind_Ok _ _ w w ()) by (apply Hno; set_solver); reflexivity].
  erewrite bind_Ok by exact Hl.
  erewrite bind_Ok; [|unfold NetworkMACs; rewrite (bind_Ok _ _ w w ()) by (apply Hno; set_solver); reflexivity].
  erewrite bind_Ok; [|reflexivity]. reflexivity.
Qed.

Lemma phase_ready w :
  let in_ := phase_input (w_mem w) (env_clock (w_ticks w)) job cfg read in
  let pc := placement_of in_ in
  mem_ok (w_mem w) → fresh_ids (w_mem w) (w_ids w) (2 * size (pc_winner pc)) →
  plan_ready in_ pc (stored_index (w_mem w) T) (w_ids w) (winner_ips pc) (w_mem w).
Proof.
  intros in_ pc Hok Hfresh. destruct (ok_addrs _ Hok) as [Hkey _].
  assert (Hw : ∀ ip, ip ∈ winner_ips pc → ∃ c, pc_winner pc !! ip = Some c) by (intros ip; rewrite winner_ips_spec; by intros [c Hc]; exists c).
  split.
  - apply winner_ips_NoDup.
  - intros ip ip' [c Hc]%Hw [c' Hc']%Hw. by eapply winner_text_inj.
  - intros ip c Hc. apply (winner_accepted in_ ip c Hc).
  - intros ip a _ Ha. pose proof (stored_index_spec (w_mem w) T ip) as Hs. rewrite Ha in Hs. destruct Hs as [[k Hk] [Ht _]].
    by rewrite (Hkey _ _ Hk).
  - intros ip ip' a a' Ha Ha' Eid. pose proof (stored_index_spec (w_mem w) T ip) as Hs. rewrite Ha in Hs.
    pose proof (stored_index_spec (w_mem w) T ip') as Hs'. rewrite Ha' in Hs'.
    destruct Hs as [[k Hk] (_ & i & Hi & <-)], Hs' as [[k' Hk'] (_ & i' & Hi' & <-)].
    rewrite (Hkey _ _ Hk), (Hkey _ _ Hk') in Eid. subst k'. rewrite Hk in Hk'. injection Hk' as <-. congruence.
  - intros ip [c Hc]%Hw Ha (k & a & Hk & Ht & Haddr). pose proof (stored_index_spec (w_mem w) T ip) as Hs. rewrite Ha in Hs.
    destruct (winner_accepted in_ ip c Hc) as (_ & _ & _ & (Hwf & Hv & Hz & Hcan) & _).
    apply (Hs k a Hk). split; [done|]. exists ip. by rewrite Haddr, ParseAddr_String.
  - intros ip [c Hc]%Hw. destruct (winner_accepted in_ ip c Hc) as (_ & _ & _ & _ & s & Hs & Ht & Hp & _).
    exists s. unfold pc. rewrite Hp. cbn [default]. unfold in_, phase_input in Hs. cbn [in_Subnets] in Hs.
    rewrite paginate_all, elem_of_map_select in Hs. destruct Hs as [_ [k Hk]].
    destruct (ok_subnets _ Hok) as [Hks _]. by rewrite (Hks _ _ Hk).
  - unfold winner_ips. rewrite length_sort_by, length_fmap, length_map_to_list. exact Hfresh.
Qed.
End phase.

(** C6: the ARP phase of a scan, end to end: with the collection enabled and a
    store that answers, the phase loads the tenant's state, plans and applies,
    and reports that it ran.  Afterwards every stored address that an accepted
    observation names has exactly the MAC address, source, sighting and
    conflict the provenance rules give ([arp_expected]); every accepted address
    that was not stored exists, in its subnet, as ARP found it; every other
    row is as it was and no other row was created. *)
Theorem arpPhase_exact `{Env} job cfg read w :
  let in_ := phase_input (w_mem w) (env_clock (w_ticks w)) job cfg read in
  let pc := placement_of in_ in
  mem_ok (w_mem w) → as_Enabled cfg = true →
  {["AllSubnetCIDRs"; "ListAddresses"; "NetworkMACs"; "ApplyARP"]}%string ## mem_failNext (w_mem w) →
  fresh_ids (w_mem w) (w_ids w) (2 * size (pc_winner pc)) →
  ∃ w' job', arpPhase job (Ok cfg) read w = (w', Ok job') ∧ sj_ARPStatus job' = ARPRan ∧
    plan_done in_ pc (stored_index (w_mem w) (sj_TenantID job)) (winner_ips pc) (w_mem w) (w_mem w').
Proof.
  intros in_ pc Hok Hen Hf Hfresh. unfold arpPhase. rewrite Hen. cbn [negb].
  set (job1 := {| job with sj_ARPDevices := _; sj_ARPPartial := _ |}).
  assert (Hplan : planARP job1 cfg read w = Build in_ {| w with w_ticks := S (w_ticks w) |}) by (apply (planARP_run job1 cfg read w); set_solver).
  unfold Build in Hplan. fold pc in Hplan. set (p0 := {| pl_Ops := []; pl_Ignored := _; pl_Entries := _; pl_Applied := 0; pl_Created := 0; pl_Conflicts := _ |}) in Hplan.
  destruct (plan_ips_run in_ pc (address_index (in_TenantID in_) (in_Addresses in_)) (winner_ips pc) p0 {| w with w_ticks := S (w_ticks w) |})
    as (w1 & p & ops & E & Hm & Hops & Hpl); [intros ip; by rewrite winner_ips_spec|].
  rewrite E in Hplan. cbn [app pl_Ops p0] in Hops. cbn [w_ids w_mem] in Hpl, Hm.
  assert (Hidx : address_index (in_TenantID in_) (in_Addresses in_) = decorateAddrLocked (w_mem w) <$> stored_index (w_mem w) (sj_TenantID job))
    by (by apply address_index_fmap).
  rewrite Hidx in Hpl.
  apply planned_decorated in Hpl.
  erewrite bind_Ok by (unfold try; rewrite Hplan; reflexivity). cbv iota.
  set (job2 := {| job1 with sj_ARPEntries := _; sj_ARPApplied := _; sj_ARPCreated := _; sj_ARPConflicts := _; sj_ARPIgnored := _ |}).
  assert (Hrow : ∃ w2 s, arpRunRow job2 w1 = (w2, Ok s) ∧ w_mem w2 = w_mem w1).
  { unfold arpRunRow, Row. destruct (Validate _); eexists _, _; (split; [reflexivity|done]). }
  destruct Hrow as (w2 & s & Es & Hm2). erewrite bind_Ok by exact Es.
  assert (Hmem : w_mem w2 = w_mem w) by (by rewrite Hm2, Hm).
  destruct (apply_planned in_ pc (stored_index (w_mem w) (sj_TenantID job)) (w_ids w) (winner_ips pc) ops w2 Hpl) as (w3 & E3 & Hdone).
  { rewrite Hmem. by apply phase_ready. }
  destruct (append_rows_tables in_ [s] w3) as (w4 & E4 & Ha4 & _).
  assert (Happly : ApplyARP (sj_TenantID job2) (pl_Ops p) [s] w2 = (w4, Ok ())).
  { unfold ApplyARP. rewrite (bind_Ok _ _ w2 w2 ()) by (apply fail_unarmed; rewrite Hmem; set_solver).
    rewrite Hops. erewrite bind_Ok by exact E3. exact E4. }
  erewrite bind_Ok by (unfold try; rewrite Happly; reflexivity).
  exists w4. eexists. split; [reflexivity|]. split; [done|]. rewrite Hmem in Hdone. destruct Hdone as [D1 D2 D3 D4]. split; rewrite ?Ha4; done.
Qed.

(** ** An example: one conflict, one new address *)

Lemma fresh_ids_check `{Env} m from n :
  forallb (λ i, negb (is_some (mem_addrs m !! id_at i))) (seq from n) = true →
  bool_decide (NoDup (id_at <$> seq from n)) = true → fresh_ids m from n.
Proof.
  intros Hn Hd. apply bool_decide_eq_true in Hd. rewrite forallb_forall in Hn. split.
  - intros i Hi. specialize (Hn i ltac:(apply in_seq; lia)). by destruct (mem_addrs m !! id_at i).
  - intros i j Hi Hj E. rewrite NoDup_alt in Hd.
    assert (Hl : ∀ k, (from ≤ k < from + n)%nat → (id_at <$> seq from n) !! (k - from)%nat = Some (id_at k)).
    { intros k Hk. rewrite list_lookup_fmap, lookup_seq_lt by lia. cbn. do 2 f_equal. lia. }
    pose proof (Hd _ _ _ (Hl i Hi) ltac:(rewrite E; by apply Hl)). lia.
Qed.

Definition ex_lan : World := fst (CreateAddress (H := ex_env) ex_manual ex_world).
Definition ex_job : IPScanJob := {| zero_IPScanJob with sj_ID := "j1"; sj_TenantID := "t1" |}.
Definition ex_read : arpRead :=
  {| ard_obs := [{| ob_DeviceID := "r1"; ob_Entries :=
       [{| ae_IP := "10.0.0.7"; ae_MAC := "02:00:00:00:00:99"; ae_IfIndex := 1 |};
        {| ae_IP := "10.0.0.8"; ae_MAC := "02-00-00-00-00-08"; ae_IfIndex := 1 |};
        {| ae_IP := "10.0.1.8"; ae_MAC := "02:00:00:00:00:09"; ae_IfIndex := 1 |};
        {| ae_IP := "10.0.0.9"; ae_MAC := "00:00:5e:00:01:01"; ae_IfIndex := 1 |}] |}]; ard_partial := 0 |}.
Definition ex_arp_input : Input :=
  phase_input (H := ex_env) (w_mem ex_lan) (env_clock (Env := ex_env) (w_ticks ex_lan)) ex_job (DefaultARPSettings "t1") ex_read.

Lemma ex_lan_ok : mem_ok (w_mem ex_lan).
Proof. apply (CreateAddress_preserves (H := ex_env)), ex_world_ok. Qed.

Lemma ex_lan_fresh :
  fresh_ids (H := ex_env) (w_mem ex_lan) (w_ids ex_lan) (2 * size (pc_winner (placement_of ex_arp_input))).
Proof. apply fresh_ids_check; vm_compute; reflexivity. Qed.

Lemma ex_lan_unarmed :
  {["AllSubnetCIDRs"; "ListAddresses"; "NetworkMACs"; "ApplyARP"]}%string ## mem_failNext (w_mem ex_lan).
Proof. change (mem_failNext (w_mem ex_lan)) with (∅ : gset string). apply disjoint_empty_r. Qed.

Definition ex_ip (n : Z) : Addr := Addr4 (167772160 + n).

Lemma ex_new_index : stored_index (w_mem ex_lan) "t1" !! ex_ip 8 = None.
Proof. vm_compute. reflexivity. Qed.
Lemma ex_new_winner : c_mac <$> pc_winner (placement_of ex_arp_input) !! ex_ip 8 = Some "02:00:00:00:00:08"%string.
Proof. vm_compute. reflexivity. Qed.

Lemma arpPhase_exact_witness :
  ∃ w' job', arpPhase (H := ex_env) ex_job (Ok (DefaultARPSettings "t1")) ex_read ex_lan = (w', Ok job') ∧
    sj_ARPStatus job' = ARPRan ∧
    ∃ k a, mem_addrs (w_mem ex_lan) !! k = None ∧ mem_addrs (w_mem w') !! k = Some a ∧
      ad_Address a = "10.0.0.8"%string ∧ ad_MACAddress a = "02:00:00:00:00:08"%string.
Proof.
  destruct (arpPhase_exact (H := ex_env) ex_job (DefaultARPSettings "t1") ex_read ex_lan ex_lan_ok eq_refl)
    as (w' & job' & E & Hs & Hdone); [exact ex_lan_unarmed|exact ex_lan_fresh|].
  exists w', job'. split; [exact E|]. split; [exact Hs|].
  pose proof ex_new_winner as Hc.
  fold ex_arp_input in Hdone. change (sj_TenantID ex_job) with "t1"%string in Hdone.
  apply fmap_Some in Hc as (c & Hc & Hmac).
  destruct (pd_new _ _ _ _ _ _ Hdone (ex_ip 8) c) as (k & a & Hnone & Hsome & t1 & t2 & ->);
    [apply winner_ips_spec; eauto|exact ex_new_index|exact Hc|].
  eexists k, _. split; [exact Hnone|]. split; [exact Hsome|]. cbn. rewrite (proj1 (winner_accepted _ _ _ Hc)).
  split; [reflexivity|symmetry; exact Hmac].
Defined.
