(* ===== verification/Snmp.v ===== *)
(** * internal/scan/snmp: decoding what a device answers

    The SNMP client asks a device for its system group, its interface, bridge,
    LLDP and ARP tables and turns the answers into a [DiscoveredDevice].  The
    transport (the gosnmp library) is a parameter: a [session] holds what
    connecting, the GET and each walk of one probe return; a walk that fails
    delivers a prefix of the table. *)

From S2P Require Import Prelude GoNet GoText Models Store HostNorm Snmpcred ArpPlan.

(** ** Errors and their classification *)

(** The errors [ClassifyError] tells apart with errors.Is; wrapping keeps them. *)
Inductive sentinel : Type := ErrUnknownUsername | ErrWrongDigest | ErrUnknownSecurityLevel | ErrDecryption | DeadlineExceeded.
#[export] Instance sentinel_eq_dec : EqDecision sentinel.
Proof. solve_decision. Defined.

Record snmp_error : Type := { sx_Is : option sentinel; sx_Timeout : bool; sx_text : string }.
Definition plain_error (text : string) : snmp_error := {| sx_Is := None; sx_Timeout := false; sx_text := text |}.
Definition wrap_error (prefix : string) (e : snmp_error) : snmp_error := {| e with sx_text := prefix +:+ sx_text e |}.

Definition OutcomeOk : string := "ok".
Definition OutcomeNoResponse : string := "no_response".
Definition OutcomeAuthFailed : string := "auth_failed".
Definition OutcomeUnknownUser : string := "unknown_user".
Definition OutcomePrivacyFailed : string := "privacy_failed".
Definition OutcomeErr : string := "error".

Definition Rejected (o : string) : bool :=
  (o =s OutcomeAuthFailed) || (o =s OutcomeUnknownUser) || (o =s OutcomePrivacyFailed).

Section with_env.
Context `{Env}.

Definition ClassifyError (err : option snmp_error) : string :=
  match err with
  | None => OutcomeOk
  | Some e =>
      if bool_decide (sx_Is e = Some ErrUnknownUsername) then OutcomeUnknownUser
      else if bool_decide (sx_Is e = Some ErrWrongDigest) || bool_decide (sx_Is e = Some ErrUnknownSecurityLevel) then OutcomeAuthFailed
      else if bool_decide (sx_Is e = Some ErrDecryption) then OutcomePrivacyFailed
      else if bool_decide (sx_Is e = Some DeadlineExceeded) || sx_Timeout e then OutcomeNoResponse
      else
        let msg := ToLower (sx_text e) in
        if str_contains msg "timeout" || str_contains msg "connection refused" || str_contains msg "no response" then OutcomeNoResponse
        else if str_contains msg "decrypt" then OutcomePrivacyFailed
        else if str_contains msg "not authentic" then OutcomeAuthFailed
        else OutcomeErr
  end.
End with_env.

(** ** Values and object identifiers *)

Inductive snmp_value : Type :=
| VInt (n : Z) | VUint (n : Z) | VUint32 (n : Z) | VUint64 (n : Z) | VInt32 (n : Z) | VInt64 (n : Z)
| VString (s : string) | VBytes (b : list Z)
| VOther (text : string).   (* any other type, with its default format *)

Record pdu : Type := { p_Name : string; p_Value : snmp_value; p_NoSuch : bool }.

Definition pduInt (v : snmp_value) : option Z :=
  match v with
  | VInt n | VUint32 n | VInt32 n | VInt64 n => Some n
  | VUint n | VUint64 n => Some (wrap64 n)
  | VString _ | VBytes _ | VOther _ => None
  end.

Definition bytes_string (b : list Z) : string := String.string_of_list_ascii ((λ x, ascii_of_N (Z.to_N x)) <$> b).

Definition value_string (v : snmp_value) : string :=
  match v with
  | VString s => s
  | VBytes b => bytes_string b
  | VInt n | VUint n | VUint32 n | VUint64 n | VInt32 n | VInt64 n => Z_text n
  | VOther text => text
  end.
Definition extractString (p : pdu) : string := value_string (p_Value p).

Definition string_bytes (s : string) : list Z := byte_of <$> String.list_ascii_of_string s.

(** ["%02x:%02x:…"] of six octets. *)
Definition mac_text (b : list Z) : string := GoText.join ":" (hex_byte <$> b).

Definition formatMAC (v : snmp_value) : string :=
  match v with
  | VBytes b => if (length b =? 6)%nat then mac_text b else hex_bytes b
  | VString s => let b := string_bytes s in if (length b =? 6)%nat then mac_text b else s
  | _ => ""
  end.

Definition macFromValue (v : snmp_value) : string :=
  let b := match v with VBytes b => b | VString s => string_bytes s | _ => [] end in
  if (length b =? 6)%nat then mac_text b else "".

Definition macFromOctets (octets : list Z) : string :=
  if (length octets =? 6)%nat then mac_text ((λ o, Z.land o 255) <$> octets) else "".

(** [fmt.Sscanf(s, "%d", &n)]: white space, a sign, digits; what follows the
    digits is left unread. *)
Fixpoint skip_spaces (s : string) : string :=
  match s with
  | String c s' => if existsb (λ b, byte_of c =? b) [9; 11; 12; 13; 32] then skip_spaces s' else s
  | EmptyString => ""
  end.
Fixpoint digit_run (acc : Z) (s : string) : Z :=
  match s with String c s' => if digit_class c then digit_run (acc * 10 + (byte_of c - 48)) s' else acc | EmptyString => acc end.
Definition scan_d (s : string) : option Z :=
  let s1 := skip_spaces s in
  let '(neg, s2) := match s1 with
                    | String c s' => if byte_of c =? 45 then (true, s') else if byte_of c =? 43 then (false, s') else (false, s1)
                    | EmptyString => (false, s1)
                    end in
  match s2 with
  | String c _ =>
      if digit_class c then
        let n := if (neg : bool) then - digit_run 0 s2 else digit_run 0 s2 in
        if (- 2 ^ 63 <=? n) && (n <? 2 ^ 63) then Some n else None
      else None
  | EmptyString => None
  end.

(** The part of an identifier below [base]. *)
Definition oid_below (oid base : string) : option string :=
  let prefix := "." +:+ base +:+ "." in
  if String.prefix prefix oid then Some (str_after (String.length prefix) oid) else None.

Fixpoint all_Some {A} (l : list (option A)) : option (list A) :=
  match l with [] => Some [] | Some x :: l' => cons x <$> all_Some l' | None :: _ => None end.

(** [nil] and the empty slice are the same to every caller. *)
Definition suffixInts (oid base : string) : list Z :=
  match oid_below oid base with
  | None => []
  | Some s => default [] (all_Some (scan_d <$> split_byte "." s))
  end.
Definition suffixKey (oid base : string) : string := default "" (oid_below oid base).
Definition lastInt (oid base : string) : Z := default 0 (last (suffixInts oid base)).
Definition ifIndex (oid base : string) : Z := match oid_below oid base with Some s => default 0 (scan_d s) | None => 0 end.

(** ** The tables *)

Record SInterface : Type := { if_Name : string; if_IfIndex : Z; if_MAC : string; if_Speed : Z; if_Type : string }.
Record SLink : Type := { sl_RemotePort : string; sl_Source : string; sl_VLAN : Z; sl_IfIndex : Z; sl_MAC : string }.

Definition SourceSNMPFDB : string := "snmp_fdb".
Definition SourceLLDP : string := "lldp".

Definition oidSysName : string := "1.3.6.1.2.1.1.5.0".
Definition oidSysDescr : string := "1.3.6.1.2.1.1.1.0".
Definition oidSysObjectID : string := "1.3.6.1.2.1.1.2.0".
Definition oidIfDescr : string := "1.3.6.1.2.1.2.2.1.2".
Definition oidIfType : string := "1.3.6.1.2.1.2.2.1.3".
Definition oidIfSpeed : string := "1.3.6.1.2.1.2.2.1.5".
Definition oidIfPhysAddress : string := "1.3.6.1.2.1.2.2.1.6".
Definition oidIfName : string := "1.3.6.1.2.1.31.1.1.1.1".
Definition oidIfAlias : string := "1.3.6.1.2.1.31.1.1.1.18".
Definition oidDot1dBasePortIfIndex : string := "1.3.6.1.2.1.17.1.4.1.2".
Definition oidDot1dTpFdbPort : string := "1.3.6.1.2.1.17.4.3.1.2".
Definition oidDot1qTpFdbPort : string := "1.3.6.1.2.1.17.7.1.2.2.1.2".
Definition oidLldpRemPortId : string := "1.0.8802.1.1.2.1.4.1.1.7".
Definition oidLldpRemSysName : string := "1.0.8802.1.1.2.1.4.1.1.9".
Definition oidIPNetToPhysicalPhysAddress : string := "1.3.6.1.2.1.4.35.1.4".
Definition oidIPNetToMediaPhysAddress : string := "1.3.6.1.2.1.4.22.1.2".
Definition MaxARPEntries : Z := 65536.

(** What the device and the transport answer to one probe. *)
Record session : Type := {
  ses_connect : option snmp_error;        (* opening the socket *)
  ses_after_connect : option snmp_error;  (* the context after it *)
  ses_get : result snmp_error (list pdu);
  ses_after_get : option snmp_error;      (* the context after the GET *)
  ses_walk : string → list pdu;
  ses_bulk : string → list pdu * bool     (* the rows delivered, and whether the walk failed *)
}.

Definition ifTypeToString (t : Z) : string :=
  if t =? 6 then "ethernet" else if t =? 24 then "loopback" else if t =? 53 then "virtualProp"
  else if t =? 131 then "tunnel" else if t =? 135 then "l2vlan" else if t =? 136 then "l3vlan"
  else if t =? 161 then "ieee8023ad" else if t =? 71 then "ieee80211" else if t =? 1 then "other"
  else "type(" +:+ Z_text t +:+ ")".

Section tables.
Context (s : session).

Definition new_iface (idx : Z) (name : string) : SInterface :=
  {| if_Name := name; if_IfIndex := idx; if_MAC := ""; if_Speed := 0; if_Type := "" |}.

Definition descr_step (ifs : gmap Z SInterface) (p : pdu) : gmap Z SInterface :=
  let idx := ifIndex (p_Name p) oidIfDescr in
  if idx <=? 0 then ifs else <[idx := new_iface idx (extractString p)]> ifs.
Definition name_step (ifs : gmap Z SInterface) (p : pdu) : gmap Z SInterface :=
  let idx := ifIndex (p_Name p) oidIfName in
  if idx <=? 0 then ifs
  else match ifs !! idx with
       | Some cur => if is_empty (if_Name cur) then <[idx := {| cur with if_Name := extractString p |}]> ifs else ifs
       | None => <[idx := new_iface idx (extractString p)]> ifs
       end.
(** The later walks fill columns of the interfaces found so far. *)
Definition fill_step (base : string) (f : snmp_value → SInterface → SInterface) (ifs : gmap Z SInterface) (p : pdu) : gmap Z SInterface :=
  let idx := ifIndex (p_Name p) base in
  match ifs !! idx with Some cur => <[idx := f (p_Value p) cur]> ifs | None => ifs end.
Definition set_speed (v : snmp_value) (cur : SInterface) : SInterface :=
  match v with VUint n => {| cur with if_Speed := n / 1000000 |} | _ => cur end.
Definition set_type (v : snmp_value) (cur : SInterface) : SInterface :=
  match v with VInt n => {| cur with if_Type := ifTypeToString n |} | _ => cur end.
Definition set_alias (v : snmp_value) (cur : SInterface) : SInterface :=
  if is_empty (if_Name cur) then {| cur with if_Name := value_string v |} else cur.

Definition found_ifaces : gmap Z SInterface :=
  foldl name_step (foldl descr_step ∅ (ses_walk s oidIfDescr)) (ses_walk s oidIfName).
Definition filled_ifaces : gmap Z SInterface :=
  let ifs := found_ifaces in
  if (size ifs =? 0)%nat then ∅
  else
    let ifs := foldl (fill_step oidIfPhysAddress (λ v cur, {| cur with if_MAC := formatMAC v |})) ifs (ses_walk s oidIfPhysAddress) in
    let ifs := foldl (fill_step oidIfSpeed set_speed) ifs (ses_walk s oidIfSpeed) in
    let ifs := foldl (fill_step oidIfType set_type) ifs (ses_walk s oidIfType) in
    foldl (fill_step oidIfAlias set_alias) ifs (ses_walk s oidIfAlias).
Definition walkInterfaces : list SInterface :=
  let ifs := filled_ifaces in
  omap (λ i, ifs !! i) (sort_by Z.ltb (fst <$> map_to_list ifs)).

Definition port_step (m : gmap Z Z) (p : pdu) : gmap Z Z :=
  let port := lastInt (p_Name p) oidDot1dBasePortIfIndex in
  match pduInt (p_Value p) with Some idx => if 0 <? port then <[port := idx]> m else m | None => m end.
Definition resolve_port (m : gmap Z Z) (port : Z) : Z := default port (m !! port).

Definition qbridge_link (m : gmap Z Z) (p : pdu) : option SLink :=
  match suffixInts (p_Name p) oidDot1qTpFdbPort, pduInt (p_Value p) with
  | vlan :: octets, Some port =>
      if (length octets =? 6)%nat && (0 <? port) then
        let mac := macFromOctets octets in
        Some {| sl_RemotePort := mac; sl_MAC := mac; sl_Source := SourceSNMPFDB; sl_VLAN := vlan; sl_IfIndex := resolve_port m port |}
      else None
  | _, _ => None
  end.
Definition bridge_link (m : gmap Z Z) (p : pdu) : option SLink :=
  let octets := suffixInts (p_Name p) oidDot1dTpFdbPort in
  match pduInt (p_Value p) with
  | Some port =>
      if (length octets =? 6)%nat && (0 <? port) then
        let mac := macFromOctets octets in
        Some {| sl_RemotePort := mac; sl_MAC := mac; sl_Source := SourceSNMPFDB; sl_VLAN := 0; sl_IfIndex := resolve_port m port |}
      else None
  | None => None
  end.
Definition walkBridgeFDB : list SLink :=
  let m := foldl port_step ∅ (ses_walk s oidDot1dBasePortIfIndex) in
  match omap (qbridge_link m) (ses_walk s oidDot1qTpFdbPort) with
  | [] => omap (bridge_link m) (ses_walk s oidDot1dTpFdbPort)
  | links => links
  end.

Definition lldp_names : gmap string string :=
  foldl (λ m p, <[suffixKey (p_Name p) oidLldpRemSysName := extractString p]> m) ∅ (ses_walk s oidLldpRemSysName).
Definition lldp_row (names : gmap string string) (p : pdu) : option SLink :=
  let key := suffixKey (p_Name p) oidLldpRemPortId in
  if is_empty key then None
  else
    let local := match suffixInts (p_Name p) oidLldpRemPortId with _ :: l :: _ => l | _ => 0 end in
    let port := extractString p in
    let name := default "" (names !! key) in
    Some {| sl_RemotePort := if is_empty name then port else name +:+ " " +:+ port;
            sl_Source := SourceLLDP; sl_VLAN := 0; sl_IfIndex := local; sl_MAC := "" |}.
Definition walkLLDP : list SLink := omap (lldp_row lldp_names) (ses_walk s oidLldpRemPortId).
End tables.

(** *** ARP (arp.go) *)

Fixpoint dec_value (acc : Z) (s : string) : option Z :=
  match s with
  | EmptyString => Some acc
  | String c s' => if digit_class c then dec_value (acc * 10 + (byte_of c - 48)) s' else None
  end.
(** [strconv.ParseUint(p, 10, 31)] of a non-empty component. *)
Definition index_part (p : string) : option Z :=
  if is_empty p then None
  else n ← dec_value 0 p; if n <? 2 ^ 31 then Some n else None.
Definition parseIndex (s : string) : option (list Z) := all_Some (index_part <$> split_byte "." s).

(** [netip.AddrFromSlice]. *)
Definition bytes_value (b : list Z) : Z := foldl (λ acc x, acc * 256 + x) 0 b.
Definition addrFromOctets (o : list Z) : option Addr :=
  if existsb (λ v, 255 <? v) o then None
  else if (length o =? 4)%nat then Some (Addr4 (bytes_value o))
  else if (length o =? 16)%nat then Some (Addr6 (bytes_value o) "")
  else None.

Definition row_addr (base : string) (idx : list Z) : option Addr :=
  if base =s oidIPNetToPhysicalPhysAddress then
    match idx with
    | _ :: typ :: n :: octets =>
        if (Z.of_nat (length octets) =? n) && (((typ =? 1) && (n =? 4)) || ((typ =? 2) && (n =? 16)))
        then addrFromOctets octets else None
    | _ => None
    end
  else if base =s oidIPNetToMediaPhysAddress then
    if (length idx =? 5)%nat then addrFromOctets (drop 1 idx) else None
  else None.

Definition parseARPRow (base oid : string) (v : snmp_value) : option ARPEntry :=
  sfx ← oid_below oid base;
  idx ← parseIndex sfx;
  match idx with
  | i :: _ =>
      if i <=? 0 then None
      else addr ← row_addr base idx;
           if Addr_IsUnspecified addr then None
           else Some {| ae_IP := Addr_String addr; ae_MAC := macFromValue v; ae_IfIndex := i |}
  | [] => None
  end.

(** The rows of a bulk walk until one exceeds the cap; [true]: it stopped. *)
Fixpoint arp_rows (base : string) (limit : Z) (out : list ARPEntry) (l : list pdu) : list ARPEntry * bool :=
  match l with
  | [] => (out, false)
  | p :: l' =>
      match parseARPRow base (p_Name p) (p_Value p) with
      | None => arp_rows base limit out l'
      | Some e => if limit <=? Z.of_nat (length out) then (out, true) else arp_rows base limit (out ++ [e]) l'
      end
  end.
Definition walkARPTable (s : session) (base : string) (limit : Z) : list ARPEntry * bool :=
  let '(l, failed) := ses_bulk s base in
  let '(out, capped) := arp_rows base limit [] l in
  (out, (failed || capped) && negb (is_nil out)).
Definition walkARP (s : session) (limit : Z) : list ARPEntry * bool :=
  let '(entries, partial_) := walkARPTable s oidIPNetToPhysicalPhysAddress limit in
  if is_nil entries then walkARPTable s oidIPNetToMediaPhysAddress limit else (entries, partial_).

(** ** The device *)

Section describe.
Context `{Env}.

Definition any_of (s : string) (l : list string) : bool := existsb (str_contains s) l.

Definition vendor_type (sysObjectID lower : string) : option string :=
  if str_contains sysObjectID "1.3.6.1.4.1.9." then
    if any_of lower ["router"; "isr"; "asr"] then Some DevRouter
    else if any_of lower ["catalyst"; "switch"; "nexus"] then Some DevSwitch
    else if any_of lower ["asa"; "firewall"; "firepower"] then Some DevFirewall else None
  else if str_contains sysObjectID "1.3.6.1.4.1.2636." then
    if any_of lower ["mx"; "router"] then Some DevRouter
    else if any_of lower ["ex"; "switch"; "qfx"] then Some DevSwitch
    else if any_of lower ["srx"; "firewall"] then Some DevFirewall else None
  else if str_contains sysObjectID "1.3.6.1.4.1.1916." then Some DevSwitch
  else None.
Definition described_type (lower : string) : string :=
  if any_of lower ["router"; "routing"] then DevRouter
  else if any_of lower ["switch"; "extremexos"; "extreme networks"] then DevSwitch
  else if any_of lower ["firewall"; "security"] then DevFirewall
  else if any_of lower ["load balancer"; "f5"; "netscaler"] then DevLoadBalancer
  else if any_of lower ["access point"; "wireless"] then DevAccessPoint
  else if any_of lower ["printer"; "laserjet"; "officejet"] then DevPrinter
  else if any_of lower ["linux"; "windows"; "vmware"] then DevServer
  else DevOther.
Definition parseDeviceType (sysObjectID sysDescr : string) : string :=
  let lower := ToLower sysDescr in
  default (described_type lower) (vendor_type sysObjectID lower).

Definition vendors : list (string * string) :=
  [("cisco", "Cisco"); ("juniper", "Juniper"); ("arista", "Arista"); ("huawei", "Huawei");
   ("hewlett", "HP"); ("dell", "Dell"); ("mikrotik", "MikroTik"); ("ubiquiti", "Ubiquiti");
   ("fortinet", "Fortinet"); ("fortigate", "Fortinet"); ("palo alto", "Palo Alto"); ("f5", "F5");
   ("netscaler", "Citrix"); ("aruba", "Aruba"); ("extreme", "Extreme Networks"); ("brocade", "Brocade");
   ("vmware", "VMware"); ("linux", "Linux"); ("windows", "Microsoft"); ("net-snmp", "Net-SNMP");
   ("synology", "Synology"); ("qnap", "QNAP")].
Definition parseManufacturer (sysDescr : string) : string :=
  let lower := ToLower sysDescr in
  match find_first (λ p, str_contains lower (fst p)) vendors with Some p => snd p | None => "" end.

Definition newline : string := String "010" "".
Definition cut_at (ver sep : string) : string :=
  match str_index ver sep with Some (S k) => str_before (S k) ver | _ => ver end.
Definition parseModelAndOS (sysDescr : string) : string * string :=
  if is_empty sysDescr then ("", "")
  else
    let osVersion :=
      if str_contains (ToLower sysDescr) "version" then
        match str_index sysDescr "Version" with
        | Some i => TrimSpace (foldl cut_at (TrimSpace (str_after (i + 7) sysDescr)) [","; newline; String "013" ""; "("])
        | None => ""
        end
      else "" in
    let firstLine := TrimSpace (match str_index sysDescr newline with Some i => str_before i sysDescr | None => sysDescr end) in
    let model := match str_index firstLine "(" with
                 | Some i => match str_index (str_after i firstLine) ")" with
                             | Some (S e) => String.substring (i + 1) e firstLine
                             | _ => ""
                             end
                 | None => ""
                 end in
    (model, osVersion).

(** ** The probe *)

Record DiscoveredDevice : Type := {
  dd_Address : string; dd_SysName : string; dd_SysDescr : string; dd_DeviceType : string;
  dd_Manufacturer : string; dd_Model : string; dd_OSVersion : string;
  dd_Interfaces : list SInterface; dd_Links : list SLink; dd_ARP : list ARPEntry; dd_ARPPartial : bool
}.

(** The checks of [newClient] and [v3Client]; the configured client is the
    transport's. *)
Definition clientError (creds : Creds) : option snmp_error :=
  if cr_Version creds =? 3 then
    if negb (contains authProtocols (cr_AuthProtocol creds)) then Some (plain_error "unsupported authentication protocol")
    else if cr_SecurityLevel creds =s "authNoPriv" then None
    else if cr_SecurityLevel creds =s "authPriv" then
      if contains privProtocols (cr_PrivProtocol creds) then None else Some (plain_error "unsupported privacy protocol")
    else Some (plain_error "unsupported security level")
  else if cr_Version creds =? 2 then
    if is_empty (cr_Community creds) then Some (plain_error "empty community") else None
  else Some (plain_error ("unsupported SNMP version " +:+ Z_text (cr_Version creds))).

Definition connect (s : session) (ip : string) (creds : Creds) : option snmp_error :=
  match clientError creds with
  | Some e => Some (wrap_error ("snmp: build client " +:+ ip +:+ ": ") e)
  | None => match ses_connect s with
            | Some e => Some (wrap_error ("snmp: connect " +:+ ip +:+ ": ") e)
            | None => ses_after_connect s
            end
  end.

Definition sys_step (acc : string * string * string) (v : pdu) : string * string * string :=
  let '(name, descr, objectID) := acc in
  if p_NoSuch v then acc
  else if p_Name v =s "." +:+ oidSysName then (extractString v, descr, objectID)
  else if p_Name v =s "." +:+ oidSysDescr then (name, extractString v, objectID)
  else if p_Name v =s "." +:+ oidSysObjectID then (name, descr, extractString v)
  else acc.
Definition systemOIDs (s : session) (ip : string) : result snmp_error (string * string * string) :=
  match ses_get s with
  | Err e => Err (wrap_error ("snmp: get system oids " +:+ ip +:+ ": ") e)
  | Ok vars => Ok (foldl sys_step ("", "", "") vars)
  end.

Definition Discover (s : session) (ip : string) (creds : Creds) : result snmp_error DiscoveredDevice :=
  match connect s ip creds with
  | Some e => Err e
  | None =>
      let* sys := systemOIDs s ip in
      let '(name, descr, objectID) := sys in
      match ses_after_get s with
      | Some e => Err e
      | None =>
          let typ := parseDeviceType objectID descr in
          let arp := if cr_CollectARP creds then walkARP s MaxARPEntries else ([], false) in
          Ok {| dd_Address := ip; dd_SysName := name; dd_SysDescr := descr; dd_DeviceType := typ;
                dd_Manufacturer := parseManufacturer descr;
                dd_Model := fst (parseModelAndOS descr); dd_OSVersion := snd (parseModelAndOS descr);
                dd_Interfaces := walkInterfaces s;
                dd_Links := (if typ =s DevSwitch then walkBridgeFDB s else []) ++ walkLLDP s;
                dd_ARP := fst arp; dd_ARPPartial := snd arp |}
      end
  end.

Definition Probe (s : session) (ip : string) (creds : Creds) : result snmp_error (string * string) :=
  match connect s ip creds with
  | Some e => Err e
  | None => let* sys := systemOIDs s ip in let '(name, descr, _) := sys in Ok (name, descr)
  end.
End describe.
