(* ===== verification/SnmpProps.v ===== *)
(** * What an SNMP probe may return

    The interface table has one entry per positive index, in order; the ARP
    table is the first entries the device delivered, within the cap, each a
    canonical and specified address; the forwarding table is read of switches
    only. *)

From S2P Require Import Prelude GoNet GoText Models Store HostNorm Snmpcred ArpPlan Snmp.

(** ** Interfaces *)

(** Interfaces are filed under their own, positive index. *)
Definition ifs_ok (m : gmap Z SInterface) : Prop := ∀ k i, m !! k = Some i → 0 < k ∧ if_IfIndex i = k.

Lemma ifs_ok_insert m k i : ifs_ok m → 0 < k → if_IfIndex i = k → ifs_ok (<[k := i]> m).
Proof. intros Hm Hk Hi k' i' [[<- <-]|[_ ?]]%lookup_insert_Some; eauto. Qed.
Lemma descr_step_ok m p : ifs_ok m → ifs_ok (descr_step m p).
Proof. intros Hm. unfold descr_step. destruct (_ <=? 0) eqn:E; [done|]. apply ifs_ok_insert; [done|lia|done]. Qed.
Lemma name_step_ok m p : ifs_ok m → ifs_ok (name_step m p).
Proof.
  intros Hm. unfold name_step. destruct (_ <=? 0) eqn:E; [done|]. destruct (m !! _) as [cur|] eqn:Ec.
  - destruct (is_empty _); [|done]. apply ifs_ok_insert; [done|lia|]. exact (proj2 (Hm _ _ Ec)).
  - apply ifs_ok_insert; [done|lia|done].
Qed.
Lemma fill_step_ok base f m p : (∀ v i, if_IfIndex (f v i) = if_IfIndex i) → ifs_ok m → ifs_ok (fill_step base f m p).
Proof.
  intros Hf Hm. unfold fill_step. destruct (m !! _) as [cur|] eqn:Ec; [|done]. destruct (Hm _ _ Ec).
  apply ifs_ok_insert; [done|done|]. by rewrite Hf.
Qed.
Lemma foldl_ok (f : gmap Z SInterface → pdu → gmap Z SInterface) l m :
  (∀ m p, ifs_ok m → ifs_ok (f m p)) → ifs_ok m → ifs_ok (foldl f m l).
Proof. intros Hf. revert m. induction l as [|p l IH]; intros m Hm; [done|]. cbn. by apply IH, Hf. Qed.

Lemma filled_ifaces_ok s : ifs_ok (filled_ifaces s).
Proof.
  unfold filled_ifaces. destruct (_ =? 0)%nat; [by intros k i ?|].
  repeat (apply foldl_ok; [intros; apply fill_step_ok; [|done]|]).
  - intros v i. unfold set_alias. by destruct (is_empty _).
  - intros v i. by destruct v.
  - intros v i. by destruct v.
  - done.
  - unfold found_ifaces. apply foldl_ok; [intros; by apply name_step_ok|]. apply foldl_ok; [intros; by apply descr_step_ok|]. by intros k i ?.
Qed.

Lemma omap_lookup_keys (m : gmap Z SInterface) l : ifs_ok m → Forall (λ k, is_Some (m !! k)) l → if_IfIndex <$> omap (λ k, m !! k) l = l.
Proof.
  intros Hm. induction 1 as [|k l [i Hi] _ IH]; [done|]. cbn. rewrite Hi. cbn. rewrite (proj2 (Hm _ _ Hi)). f_equal. exact IH.
Qed.

(** The interfaces are in strictly increasing order of their positive index. *)
Lemma walkInterfaces_sorted s :
  StronglySorted Z.lt (if_IfIndex <$> walkInterfaces s) ∧ Forall (λ i, 0 < if_IfIndex i) (walkInterfaces s).
Proof.
  unfold walkInterfaces. set (m := filled_ifaces s). pose proof (filled_ifaces_ok s : ifs_ok m) as Hm.
  set (ks := sort_by Z.ltb (map_to_list m).*1).
  assert (Hks : Forall (λ k, is_Some (m !! k)) ks).
  { apply Forall_forall. intros k Hk. unfold ks in Hk. rewrite elem_of_sort_by, list_elem_of_fmap in Hk.
    destruct Hk as ([k' i] & -> & Hin%elem_of_map_to_list). cbn. eauto. }
  split.
  - rewrite omap_lookup_keys by done.
    assert (Hs : StronglySorted (λ a b, Z.ltb b a = false) ks) by (apply sort_by_sorted; intros; lia).
    assert (Hnd : NoDup ks) by (unfold ks; rewrite sort_by_perm; apply NoDup_fst_map_to_list).
    clear -Hs Hnd. induction Hs as [|k l _ IH Hk]; [constructor|]. apply NoDup_cons in Hnd as [Hn Hnd].
    constructor; [by apply IH|]. rewrite Forall_forall in Hk |- *. intros k' Hk'. specialize (Hk k' Hk').
    assert (k ≠ k') by (by intros ->). lia.
  - apply Forall_forall. intros i Hi. apply list_elem_of_omap in Hi as (k & _ & Hk). destruct (Hm _ _ Hk) as [? ->]. done.
Qed.

(** ** ARP *)

Definition arp_wf (e : ARPEntry) : Prop :=
  0 < ae_IfIndex e ∧ ∃ a, Addr_wf a ∧ Addr_IsUnspecified a = false ∧ Addr_String a = ae_IP e ∧ ParseAddr (ae_IP e) = Some a.

Lemma all_Some_elem {A} (l : list (option A)) r x : all_Some l = Some r → x ∈ r → Some x ∈ l.
Proof.
  revert r. induction l as [|[y|] l IH]; intros r; cbn; [by intros [= <-] ?%elem_of_nil| |done].
  destruct (all_Some l) as [r'|]; [|done]. intros [= <-] [->|Hin]%elem_of_cons; [left|right]. by apply (IH r').
Qed.
Lemma dec_value_nonneg acc s n : 0 ≤ acc → dec_value acc s = Some n → 0 ≤ n.
Proof.
  revert acc. induction s as [|c s IH]; intros acc Ha; cbn; [by intros [= <-]|].
  destruct (digit_class c) eqn:E; [|done]. apply IH. unfold digit_class, in_bytes in E. lia.
Qed.
Lemma parseIndex_nonneg s l : parseIndex s = Some l → Forall (λ n, 0 ≤ n) l.
Proof.
  intros E. apply Forall_forall. intros n Hn. pose proof (all_Some_elem _ _ _ E Hn) as Hin.
  apply list_elem_of_fmap in Hin as (p & Hp & _). unfold index_part in Hp. destruct (is_empty p); [done|].
  destruct (dec_value 0 p) as [x|] eqn:Ed; [|done]. cbn in Hp. destruct (x <? _); [|done]. simplify_eq. by apply (dec_value_nonneg 0 p).
Qed.

Lemma bytes_value_bound o acc : Forall (λ v, 0 ≤ v < 256) o → 0 ≤ acc →
  0 ≤ foldl (λ acc x, acc * 256 + x) acc o < (acc + 1) * 256 ^ Z.of_nat (length o).
Proof.
  intros Ho. revert acc. induction Ho as [|v o Hv _ IH]; intros acc Ha; cbn [foldl length]; [lia|].
  specialize (IH (acc * 256 + v) ltac:(lia)). rewrite Nat2Z.inj_succ, Z.pow_succ_r by lia. nia.
Qed.
Lemma addrFromOctets_wf o a : Forall (λ v, 0 ≤ v) o → addrFromOctets o = Some a → Addr_wf a ∧ ParseAddr (Addr_String a) = Some a.
Proof.
  intros Ho. unfold addrFromOctets. destruct (existsb _ o) eqn:E; [done|].
  assert (Hb : Forall (λ v, 0 ≤ v < 256) o).
  { rewrite Forall_forall in Ho |- *. intros v Hv. specialize (Ho v Hv).
    destruct (255 <? v) eqn:Ev; [|lia]. exfalso. apply not_true_iff_false in E. apply E, existsb_exists. exists v. split; [by apply list_elem_of_In|done]. }
  pose proof (bytes_value_bound o 0 Hb ltac:(lia)) as Hbd. unfold bytes_value.
  destruct (length o =? 4)%nat eqn:E4.
  { apply Nat.eqb_eq in E4. rewrite E4 in Hbd. intros [= <-]. assert (Hw : Addr_wf (Addr4 (foldl (λ acc x, acc * 256 + x) 0 o))) by (cbn; lia).
    split; [done|]. by apply ParseAddr_String. }
  destruct (length o =? 16)%nat eqn:E16; [|done]. apply Nat.eqb_eq in E16. rewrite E16 in Hbd. intros [= <-].
  assert (Hw : Addr_wf (Addr6 (foldl (λ acc x, acc * 256 + x) 0 o) "")) by (cbn; lia).
  split; [done|]. by apply ParseAddr_String.
Qed.

Lemma row_addr_octets base idx a : Forall (λ v, 0 ≤ v) idx → row_addr base idx = Some a → Addr_wf a ∧ ParseAddr (Addr_String a) = Some a.
Proof.
  intros Hi. unfold row_addr. destruct (base =s _).
  - destruct idx as [|i [|typ [|n octets]]]; try done. rewrite !Forall_cons in Hi. destruct (_ && _); [|done].
    apply addrFromOctets_wf. tauto.
  - destruct (base =s _); [|done]. destruct (_ =? 5)%nat; [|done]. apply addrFromOctets_wf. by apply Forall_drop.
Qed.

Lemma parseARPRow_wf base oid v e : parseARPRow base oid v = Some e → arp_wf e.
Proof.
  unfold parseARPRow. destruct (oid_below oid base) as [sfx|]; [|done]. cbn. destruct (parseIndex sfx) as [idx|] eqn:Ei; [|done].
  cbn. apply parseIndex_nonneg in Ei. destruct idx as [|i idx]; [done|]. destruct (i <=? 0) eqn:E0; [done|].
  destruct (row_addr base (i :: idx)) as [a|] eqn:Er; [|done]. cbn. destruct (Addr_IsUnspecified a) eqn:Eu; [done|]. intros [= <-].
  apply row_addr_octets in Er as [Hw Hp]; [|done]. split; cbn; [lia|]. by exists a.
Qed.

(** The rows of a table that parse. *)
Definition parsed_rows (base : string) (l : list pdu) : list ARPEntry := omap (λ p, parseARPRow base (p_Name p) (p_Value p)) l.

Lemma arp_rows_take base limit out l : 0 ≤ limit → Z.of_nat (length out) ≤ limit →
  arp_rows base limit out l =
  (take (Z.to_nat limit) (out ++ parsed_rows base l), limit <? Z.of_nat (length (out ++ parsed_rows base l))).
Proof.
  intros H0. revert out. induction l as [|p l IH]; intros out Hout; cbn [arp_rows parsed_rows].
  - cbn. rewrite app_nil_r, take_ge by lia. f_equal. lia.
  - unfold parsed_rows. cbn. fold (parsed_rows base l). destruct (parseARPRow _ _ _) as [e|]; cbn.
    + destruct (limit <=? Z.of_nat (length out)) eqn:E.
      * rewrite take_app_le, take_ge by lia. f_equal. symmetry. apply Z.ltb_lt. rewrite length_app. cbn [length]. lia.
      * rewrite IH by (rewrite length_app; cbn; lia). by rewrite <- (app_assoc out [e]).
    + by apply IH.
Qed.

Lemma walkARPTable_exact s base limit : 0 ≤ limit →
  walkARPTable s base limit =
  (take (Z.to_nat limit) (parsed_rows base (fst (ses_bulk s base))),
   (snd (ses_bulk s base) || (limit <? Z.of_nat (length (parsed_rows base (fst (ses_bulk s base)))))) &&
   negb (is_nil (take (Z.to_nat limit) (parsed_rows base (fst (ses_bulk s base)))))).
Proof. intros H0. unfold walkARPTable. destruct (ses_bulk s base) as [l failed]. by rewrite arp_rows_take by (cbn; lia). Qed.

(** ** The probe *)

Lemma walkARP_wf s limit : 0 ≤ limit →
  Forall arp_wf (fst (walkARP s limit)) ∧ Z.of_nat (length (fst (walkARP s limit))) ≤ limit.
Proof.
  intros H0. unfold walkARP. rewrite !walkARPTable_exact by done.
  assert (Hall : ∀ base, Forall arp_wf (take (Z.to_nat limit) (parsed_rows base (fst (ses_bulk s base)))) ∧
    Z.of_nat (length (take (Z.to_nat limit) (parsed_rows base (fst (ses_bulk s base))))) ≤ limit).
  { intros base. rewrite length_take. split; [|lia]. apply Forall_take, Forall_forall. intros e He.
    apply list_elem_of_omap in He as (p & _ & Hp). by apply parseARPRow_wf in Hp. }
  destruct (is_nil _); apply Hall.
Qed.

Lemma walkBridgeFDB_source s l : l ∈ walkBridgeFDB s → sl_Source l = SourceSNMPFDB.
Proof.
  unfold walkBridgeFDB. intros Hl.
  assert (Hq : ∀ m, Forall (λ l, sl_Source l = SourceSNMPFDB) (omap (qbridge_link m) (ses_walk s oidDot1qTpFdbPort))).
  { intros m. apply Forall_forall. intros x (p & _ & Hp)%list_elem_of_omap. unfold qbridge_link in Hp. by repeat case_match; simplify_eq. }
  assert (Hb : ∀ m, Forall (λ l, sl_Source l = SourceSNMPFDB) (omap (bridge_link m) (ses_walk s oidDot1dTpFdbPort))).
  { intros m. apply Forall_forall. intros x (p & _ & Hp)%list_elem_of_omap. unfold bridge_link in Hp. by repeat case_match; simplify_eq. }
  destruct (omap (qbridge_link _) _) as [|x q] eqn:Eq; [by eapply Forall_forall in Hb|].
  specialize (Hq (foldl port_step ∅ (ses_walk s oidDot1dBasePortIfIndex))). rewrite Eq in Hq. by eapply Forall_forall in Hq.
Qed.
Lemma walkLLDP_source s l : l ∈ walkLLDP s → sl_Source l = SourceLLDP.
Proof. intros (p & _ & Hp)%list_elem_of_omap. unfold lldp_row in Hp. by destruct (is_empty _); simplify_eq. Qed.

(** C36: what a probe returns is well formed.  The interfaces of a discovered
    device have distinct positive indices in increasing order; every ARP entry
    names a specified address in canonical form on a positive interface index,
    and there are at most 65536 of them, none unless they were asked for;
    every link was learnt from the forwarding table of a switch or from LLDP. *)
Theorem Discover_wf `{Env} s ip creds dev : Discover s ip creds = Ok dev →
  StronglySorted Z.lt (if_IfIndex <$> dd_Interfaces dev) ∧ Forall (λ i, 0 < if_IfIndex i) (dd_Interfaces dev) ∧
  Forall arp_wf (dd_ARP dev) ∧ Z.of_nat (length (dd_ARP dev)) ≤ MaxARPEntries ∧
  (cr_CollectARP creds = false → dd_ARP dev = [] ∧ dd_ARPPartial dev = false) ∧
  Forall (λ l, sl_Source l = SourceLLDP ∨ (sl_Source l = SourceSNMPFDB ∧ dd_DeviceType dev = DevSwitch)) (dd_Links dev).
Proof.
  unfold Discover. destruct (connect s ip creds); [done|]. destruct (systemOIDs s ip) as [[[name descr] oid]|]; [|done].
  destruct (ses_after_get s); [done|]. intros [= <-]. cbn [dd_Interfaces dd_ARP dd_ARPPartial dd_Links dd_DeviceType].
  destruct (walkInterfaces_sorted s) as [Hs Hp]. destruct (walkARP_wf s MaxARPEntries ltac:(done)) as [Hw Hl].
  split; [done|]. split; [done|]. split; [by destruct (cr_CollectARP creds)|]. split; [by destruct (cr_CollectARP creds)|].
  split; [by intros ->|]. apply Forall_app. split.
  - destruct (_ =s DevSwitch) eqn:E; [|done]. apply String.eqb_eq in E. apply Forall_forall. intros l Hin%walkBridgeFDB_source. by right.
  - apply Forall_forall. intros l Hin%walkLLDP_source. by left.
Qed.
