(* ===== verification/Scan.v ===== *)
(** * internal/scan: the scan queue and its executor

    [StartScan] and [CancelScan] are the handlers; [RunOnce] claims due jobs
    and runs each through [processJob]: enumerate the hosts, sweep them, record
    the live ones, read the devices over SNMP, learn MACs from their ARP
    tables, complete.  What the network answers is a parameter ([Ext]): an
    external call may also change the world, since other handlers run while it
    waits.  Probes of one phase run in parallel and store their results under
    a lock; [completion] is the order in which they finish. *)

From S2P Require Import Prelude GoNet GoIP GoText Ipnet Models Store MemNet MemDev MemScan Events Authz Snmpcred Json Sealed AuditLog Subnets ArpPlan Snmp.

Definition Second : Z := 1000000000.
Definition Millisecond : Z := 1000000.
Definition baseBackoff : Z := 5 * Second.
Definition snmpRetries : Z := 1.
Definition maxSysText : Z := 256.
Definition OutcomeNoCredentials : string := "no_credentials".
Definition OutcomeUnreadable : string := "credentials_unreadable".

Record ScanConfig : Type := {
  sc_MaxHosts : Z; sc_Concurrency : Z; sc_TimeoutMs : Z; sc_Workers : Z; sc_MaxRetries : Z; sc_SNMPTimeoutMs : Z }.
Record ScanOptions : Type := {
  so_EnableSNMP : bool; so_SNMPAuto : bool; so_EnableDNSUpdate : bool; so_SkipReverseDNS : bool; so_Trigger : string }.

(** ** Helpers *)

Definition usableHosts (info : Info) : Z :=
  if (Version info =? 4) && (PrefixLen info <? 31) then Z.max 0 (Total info - 2) else Total info.

Definition isTerminal (status : string) : bool :=
  (status =s ScanCompleted) || (status =s ScanFailed) || (status =s ScanCancelled).

Definition enumerateTargets (cidr : string) (maxHosts : Z) : result ipnet_error (list IP) :=
  match Hosts cidr with
  | Err e => Err e
  | Ok hosts => Ok (if (0 <? maxHosts) && (maxHosts <? Z.of_nat (length hosts)) then take (Z.to_nat maxHosts) hosts else hosts)
  end.
Definition ipStrings (ips : list IP) : list string := IP_String <$> ips.

(** [int64(1) << uint(n)]. *)
Definition shl64 (n : Z) : Z := if (0 <=? n) && (n <? 64) then wrap64 (2 ^ n) else 0.
(** The delay before retry number [retry]. *)
Definition retry_backoff (retry : Z) : Z := wrap64 (shl64 (retry - 1) * baseBackoff).

Definition deviceName (dev : DiscoveredDevice) (ip : string) : string :=
  if is_empty (dd_SysName dev) then "device-" +:+ ip else dd_SysName dev.
Definition ifaceName (i : SInterface) : string :=
  if is_empty (if_Name i) then "if-" +:+ Z_text (if_IfIndex i) else if_Name i.

(** [clip]: the first [maxSysText] runes, invalid bytes as the replacement character. *)
Definition clip (v : string) : string :=
  let rs := runes v in
  if Z.of_nat (length rs) <=? maxSysText then v
  else String.concat "" ((λ r, match fst r with Some _ => String.string_of_list_ascii (snd r) | None => JSON.of_bytes [239; 191; 189] end)
         <$> take (Z.to_nat maxSysText) rs).

Record effective : Type := { ef_status : string; ef_source : string; ef_creds : option Creds; ef_secret : Secret }.

Section service.
Context `{Env} (cfg : ScanConfig) (env : option Opener).
Context (sweep : list string → Ext (result error (gmap string bool))).
Context (discover : string → Creds → Ext (result snmp_error DiscoveredDevice)).
Context (probe : string → Creds → Ext (result snmp_error (string * string))).
Context (revLookup : string → Ext string).
Context (linker : option (string → M ())).
Context (completion : list string → list string).
Context (error_text : error → string).

Definition snmpTimeout : Z := if sc_SNMPTimeoutMs cfg <=? 0 then 5 * Second else wrap64 (sc_SNMPTimeoutMs cfg * Millisecond).
Definition snmpTimeoutMs : Z := Z.quot snmpTimeout Millisecond.

(** ** Handlers *)

Definition StartScan (subj : Subjects) (subnetID : string) (opts : ScanOptions) : M IPScanJob :=
  lift (RequireTenant subj (su_TenantID subj));;
  let tenantID := su_TenantID subj in
  subnet ← GetSubnet tenantID subnetID;
  info ← lift (map_err ErrIpnet (Parse (sn_CIDR subnet)));
  if Version info =? 6 then throw Scan_ErrIPv6
  else
    let usable := usableHosts info in
    if sc_MaxHosts cfg <? usable then throw Scan_ErrTooLarge
    else
      active ← ActiveScanForSubnet tenantID subnetID;
      if (active : bool) then throw Scan_ErrActiveScan
      else
        enableSNMP ← (if so_SNMPAuto opts then idx ← SNMPIndex tenantID; mret (is_some (snd (Effective idx subnetID)))
                      else mret (so_EnableSNMP opts));
        t ← now;
        id ← newID;
        CreateScanJob {| zero_IPScanJob with
          sj_ID := id; sj_TenantID := tenantID; sj_SubnetID := subnetID; sj_Status := ScanPending;
          sj_TriggeredBy := if so_Trigger opts =s TriggerAuto then TriggerAuto else TriggerManual;
          sj_TotalAddresses := usable; sj_MaxRetries := sc_MaxRetries cfg; sj_TimeoutMs := sc_TimeoutMs cfg;
          sj_Concurrency := sc_Concurrency cfg; sj_SkipReverseDNS := so_SkipReverseDNS opts; sj_EnableSNMP := enableSNMP;
          sj_EnableDNSUpdate := so_EnableDNSUpdate opts; sj_CreatedBy := ActorID subj; sj_CreatedAt := t; sj_UpdatedAt := t |};;
        publish_event {| ev_tenant := tenantID; ev_type := EvScanStarted; ev_payload := ScanPayload id subnetID 0 0 |};;
        GetScanJob tenantID id.

Definition ServiceGetScanJob (subj : Subjects) (id : string) : M IPScanJob :=
  lift (RequireTenant subj (su_TenantID subj));; GetScanJob (su_TenantID subj) id.
Definition ServiceListScanJobs (subj : Subjects) (f : ScanFilter) : M (list IPScanJob) :=
  lift (RequireTenant subj (su_TenantID subj));; ListScanJobs (su_TenantID subj) f.

(** The job and, for a finished one, the error that goes with it. *)
Definition CancelScan (subj : Subjects) (id : string) : M (IPScanJob * option error) :=
  lift (RequireTenant subj (su_TenantID subj));;
  job ← GetScanJob (su_TenantID subj) id;
  if isTerminal (sj_Status job) then mret (job, Some Scan_ErrTerminal)
  else
    t ← now;
    UpdateScanJob {| job with sj_Status := ScanCancelled; sj_StatusMessage := "cancelled"; sj_CompletedAt := Some t |};;
    job' ← GetScanJob (su_TenantID subj) id;
    mret (job', None).

(** ** The executor *)

Definition observeCancel (job : IPScanJob) : M bool :=
  r ← try (GetScanJob (sj_TenantID job) (sj_ID job));
  mret match r with Ok cur => sj_Status cur =s ScanCancelled | Err _ => false end.

(** [_ = s.st.UpdateScanJob(ctx, job)]: an error is dropped (or only logged). *)
Definition saveJob (job : IPScanJob) : M () := try (UpdateScanJob job);; mret ().

Definition retryOrFail (job : IPScanJob) (cause : error) : M () :=
  cancelled ← observeCancel job;
  if (cancelled : bool) then mret ()
  else
    let job := {| job with sj_RetryCount := sj_RetryCount job + 1 |} in
    t ← now;
    if sc_MaxRetries cfg <? sj_RetryCount job then
      saveJob {| job with sj_Status := ScanFailed; sj_StatusMessage := "failed: " +:+ error_text cause; sj_CompletedAt := Some t |}
    else
      saveJob {| job with sj_Status := ScanPending; sj_NextRetryAt := Some (t + retry_backoff (sj_RetryCount job));
                 sj_StatusMessage := "retry scheduled: " +:+ error_text cause |}.

Definition effectiveCreds (tenantID subnetID : string) : M effective :=
  let zero := {| ef_status := ""; ef_source := ""; ef_creds := None; ef_secret := zero_Secret |} in
  idx ← SNMPIndex tenantID;
  match snd (Effective idx subnetID) with
  | None => mret {| zero with ef_status := SNMPNoCredentials |}
  | Some src =>
      let unreadable := {| zero with ef_status := SNMPUnreadable; ef_source := ss_SubnetID src |} in
      r ← try (GetSubnetSNMP tenantID (ss_SubnetID src));
      match r with
      | Err _ => mret unreadable
      | Ok row =>
          match Open env tenantID (ss_SubnetID row) (ss_Sealed row) with
          | Err _ => mret unreadable
          | Ok sec => mret {| ef_status := SNMPRan; ef_source := ss_SubnetID src; ef_secret := sec;
                              ef_creds := Some (ToCreds (MetaOf row) sec snmpTimeoutMs snmpRetries) |}
          end
      end
  end.

(** The links of one interface. *)
Definition iface_links (tenantID ifaceID : string) (i : SInterface) (l : list SLink) : list DeviceInterfaceLink :=
  (λ x, {| zero_DeviceInterfaceLink with dl_TenantID := tenantID; dl_InterfaceID := ifaceID;
           dl_RemotePortName := sl_RemotePort x; dl_LinkSource := sl_Source x; dl_LinkVlan := sl_VLAN x |})
  <$> List.filter (λ x, sl_IfIndex x =? if_IfIndex i) l.

Definition persistInterface (tenantID deviceID : string) (links : list SLink) (i : SInterface) : M () :=
  si ← UpsertInterfaceByName {| zero_DeviceInterface with
         di_TenantID := tenantID; di_DeviceID := deviceID; di_Name := ifaceName i; di_MACAddress := if_MAC i;
         di_InterfaceType := if_Type i; di_IfIndex := if_IfIndex i; di_SpeedMbps := if_Speed i; di_Enabled := true |};
  match iface_links tenantID (di_ID si) i links with
  | [] => mret ()
  | ls => ReplaceInterfaceLinks tenantID (di_ID si) ls
  end.

Definition persistDevice (tenantID ip : string) (dev : DiscoveredDevice) : M string :=
  t ← now;
  d ← UpsertDeviceByName {| zero_Device with
        dv_TenantID := tenantID; dv_Name := deviceName dev ip; dv_DeviceType := dd_DeviceType dev;
        dv_Manufacturer := dd_Manufacturer dev; dv_Model := dd_Model dev; dv_OSVersion := dd_OSVersion dev;
        dv_ManagementIP := ip; dv_Status := DevStActive; dv_LastSeen := Some t |};
  mapM_ (persistInterface tenantID (dv_ID d) (dd_Links dev)) (dd_Interfaces dev);;
  mret (dv_ID d).

Definition arpRead_add (r : arpRead) (deviceID : string) (dev : DiscoveredDevice) : arpRead :=
  {| ard_partial := if dd_ARPPartial dev then ard_partial r + 1 else ard_partial r;
     ard_obs := if is_nil (dd_ARP dev) then ard_obs r else ard_obs r ++ [{| ob_DeviceID := deviceID; ob_Entries := dd_ARP dev |}] |}.

(** One probe, with the job and the tables read so far. *)
Definition probeHost (creds : Creds) (acc : IPScanJob * arpRead) (ip : string) : M (IPScanJob * arpRead) :=
  let '(job, read) := acc in
  r ← ext (discover ip creds);
  let job := {| job with sj_SNMPProbed := sj_SNMPProbed job + 1 |} in
  match r with
  | Err e =>
      let o := ClassifyError (Some e) in
      if o =s OutcomeNoResponse then mret ({| job with sj_SNMPNoAnswer := sj_SNMPNoAnswer job + 1 |}, read)
      else if Rejected o then mret ({| job with sj_SNMPRejected := sj_SNMPRejected job + 1 |}, read)
      else mret (job, read)
  | Ok dev =>
      p ← try (persistDevice (sj_TenantID job) ip dev);
      match p with
      | Err _ => mret (job, read)
      | Ok id => mret ({| job with sj_SNMPDiscoveredCount := sj_SNMPDiscoveredCount job + 1 |}, arpRead_add read id dev)
      end
  end.

Fixpoint probeHosts (creds : Creds) (acc : IPScanJob * arpRead) (ips : list string) : M (IPScanJob * arpRead) :=
  match ips with [] => mret acc | ip :: ips' => acc' ← probeHost creds acc ip; probeHosts creds acc' ips' end.

Definition no_read : arpRead := {| ard_obs := []; ard_partial := 0 |}.

Definition discoverSNMP (job : IPScanJob) (creds : Creds) (alive : list string) : M (IPScanJob * arpRead) :=
  probeHosts creds (job, no_read) (completion alive).

Definition snmpPhase (job : IPScanJob) (cred : effective) (alive : list string) : M (IPScanJob * arpRead) :=
  let job := {| job with sj_SNMPSourceSubnetID := ef_source cred |} in
  if negb (sj_EnableSNMP job) then mret ({| job with sj_SNMPStatus := SNMPNotRequested |}, no_read)
  else match ef_creds cred with
  | None => mret ({| job with sj_SNMPStatus := ef_status cred |}, no_read)
  | Some creds =>
      if is_nil alive then mret ({| job with sj_SNMPStatus := SNMPNoLiveHosts |}, no_read)
      else discoverSNMP {| job with sj_SNMPStatus := SNMPRan |} creds alive
  end.

(** Recording one live host: whether its address is new. *)
Definition recordHost (job : IPScanJob) (ip : string) : M bool :=
  hostname ← (if sj_SkipReverseDNS job then mret "" else ext (revLookup ip));
  t ← now;
  created ← catch_map (Wrapped ("upsert address " +:+ ip)) (UpsertAddressByAddress {| zero_IPAddress with
    ad_TenantID := sj_TenantID job; ad_Address := ip; ad_SubnetID := sj_SubnetID job; ad_Hostname := hostname;
    ad_Status := IPActive; ad_AddressType := AddrHost; ad_LastSeen := Some t; ad_HasReverseDNS := negb (is_empty hostname) |});
  r ← try (FindAddress (sj_TenantID job) ip);
  publish_event {| ev_tenant := sj_TenantID job; ev_type := IPAddressScanned;
    ev_payload := IPAddressPayload IPAddressScanned (match r with Ok a => ad_ID a | Err _ => "" end) ip (sj_SubnetID job) hostname "" |};;
  mret created.

Fixpoint recordHosts (job : IPScanJob) (newC updC : Z) (ips : list string) : M (Z * Z) :=
  match ips with
  | [] => mret (newC, updC)
  | ip :: ips' =>
      created ← recordHost job ip;
      if (created : bool) then recordHosts job (newC + 1) updC ips' else recordHosts job newC (updC + 1) ips'
  end.

(** The last step: the job is done, subscribers and the correlation learn it. *)
Definition completeJob (job : IPScanJob) : M () :=
  t ← now;
  let job := {| job with sj_Status := ScanCompleted; sj_Progress := 100; sj_StatusMessage := "completed"; sj_CompletedAt := Some t |} in
  r ← try (UpdateScanJob job);
  match r with
  | Err _ => mret ()
  | Ok _ =>
      publish_event {| ev_tenant := sj_TenantID job; ev_type := EvScanCompleted;
                       ev_payload := ScanPayload (sj_ID job) (sj_SubnetID job) (sj_AliveCount job) (sj_NewCount job) |};;
      match linker with
      | Some correlate => if sj_EnableSNMP job then try (correlate (sj_TenantID job));; mret () else mret ()
      | None => mret ()
      end
  end.

(** The pipeline from the sweep's answer on. *)
Definition finishJob (job : IPScanJob) (cred : effective) (arpCfg : result error ARPSettings) (ips alive : list string) : M () :=
  let job := {| job with sj_ScannedCount := Z.of_nat (length ips); sj_AliveCount := Z.of_nat (length alive); sj_Progress := 60 |} in
  saveJob job;;
  r ← try (recordHosts job 0 0 alive);
  match r with
  | Err e => retryOrFail job e
  | Ok (newC, updC) =>
      jr ← snmpPhase {| job with sj_NewCount := newC; sj_UpdatedCount := updC |} cred alive;
      let '(job, read) := jr in
      job ← (if sj_SNMPStatus job =s SNMPRan then arpPhase job arpCfg read else mret job);
      cancelled ← observeCancel job;
      if (cancelled : bool) then mret () else completeJob job
  end.

(** Credentials and ARP settings are read once, when the job starts. *)
Definition jobCreds (job : IPScanJob) : M (effective * result error ARPSettings) :=
  let none := {| ef_status := ""; ef_source := ""; ef_creds := None; ef_secret := zero_Secret |} in
  if negb (sj_EnableSNMP job) then mret (none, Ok zero_ARPSettings)
  else
    cred ← effectiveCreds (sj_TenantID job) (sj_SubnetID job);
    match ef_creds cred with
    | None => mret (cred, Ok zero_ARPSettings)
    | Some creds =>
        arpCfg ← try (GetARPSettings (sj_TenantID job));
        let collect := match arpCfg with Ok c => as_Enabled c | Err _ => false end in
        mret ({| cred with ef_creds := Some {| creds with cr_CollectARP := collect |} |}, arpCfg)
    end.

Definition processJob (job : IPScanJob) : M () :=
  cancelled ← observeCancel job;
  if (cancelled : bool) then mret ()
  else
    subnet ← try (GetSubnet (sj_TenantID job) (sj_SubnetID job));
    match subnet with
    | Err e => retryOrFail job (Wrapped "load subnet" e)
    | Ok subnet =>
        creds ← try (jobCreds job);
        match creds with
        | Err e => retryOrFail job (Wrapped "resolve snmp credentials" e)
        | Ok (cred, arpCfg) =>
            match enumerateTargets (sn_CIDR subnet) (sc_MaxHosts cfg) with
            | Err e => retryOrFail job (Wrapped "enumerate targets" (ErrIpnet e))
            | Ok targets =>
                cancelled ← observeCancel job;
                if (cancelled : bool) then mret ()
                else
                  let job := {| job with sj_TotalAddresses := Z.of_nat (length targets); sj_StatusMessage := "sweeping"; sj_Progress := 10 |} in
                  saveJob job;;
                  let ips := ipStrings targets in
                  swept ← ext (sweep ips);
                  match swept with
                  | Err e => retryOrFail job (Wrapped "sweep" e)
                  | Ok alive =>
                      let aliveList := List.filter (λ ip, default false (alive !! ip)) ips in
                      cancelled ← observeCancel job;
                      if (cancelled : bool) then mret () else finishJob job cred arpCfg ips aliveList
                  end
            end
        end
    end.

(** The jobs of one batch run in parallel; their order here is the order of
    the claim. *)
Definition RunOnce : M Z :=
  t ← now;
  jobs ← ClaimDueScanJobs t (Z.max 1 (sc_Workers cfg));
  mapM_ processJob jobs;;
  mret (Z.of_nat (length jobs)).

(** ** Testing credentials (snmptest.go) *)

Record TestResult : Type := {
  tr_Outcome : string; tr_SysName : string; tr_SysDescr : string; tr_Detail : string; tr_SourceSubnetID : string; tr_DurationMs : Z }.

Definition usableTarget (cidr address : string) : result error string :=
  match ParseIP (TrimSpace address) with
  | IPnil => Err (Snmpcred_FieldError "address" "must be an IP address")
  | ip => match GatewayInRange cidr (IP_String ip) with
          | Ok true => Ok (IP_String ip)
          | _ => Err (Snmpcred_FieldError "address" "must be a usable address of the subnet")
          end
  end.

Definition auditTest (subj : Subjects) (subnetID target : string) (res : TestResult) : M () :=
  t ← now;
  r ← Row {| e_TenantID := su_TenantID subj; e_EventType := SNMPCredentialsTested; e_ActorKind := ActorUser; e_ActorID := ActorID subj;
             e_SubjectKind := SubjectSubnet; e_SubjectID := subnetID; e_Target := target;
             e_Outcome := if tr_Outcome res =s OutcomeOk then OutcomeOK else OutcomeError; e_Reason := "";
             e_Details := [("target", AnyString target); ("outcome", AnyString (tr_Outcome res));
                           ("source_subnet_id", AnyString (tr_SourceSubnetID res))] |} t;
  try (AppendAudit match r with Ok row => row | Err _ => zero_AuditRow end);;
  mret ().

Definition testProbe (cred : effective) (target : string) : M TestResult :=
  let res := {| tr_Outcome := ""; tr_SysName := ""; tr_SysDescr := ""; tr_Detail := ""; tr_SourceSubnetID := ef_source cred; tr_DurationMs := 0 |} in
  match ef_creds cred with
  | None => mret {| res with tr_Outcome := if ef_status cred =s SNMPNoCredentials then OutcomeNoCredentials else OutcomeUnreadable |}
  | Some creds =>
      r ← ext (probe target creds);
      mret match r with
           | Ok (name, descr) => {| res with tr_Outcome := OutcomeOk; tr_SysName := clip name; tr_SysDescr := clip descr |}
           | Err e =>
               let o := ClassifyError (Some e) in
               {| res with tr_Outcome := o; tr_Detail := if o =s OutcomeErr then clip (scrub_secret (sx_text e) (ef_secret cred)) else "" |}
           end
  end.

Definition TestCredentials (subj : Subjects) (subnetID address : string) : M TestResult :=
  lift (RequireTenant subj (su_TenantID subj));;
  let tid := su_TenantID subj in
  subnet ← GetSubnet tid subnetID;
  target ← lift (usableTarget (sn_CIDR subnet) address);
  cred ← effectiveCreds tid subnetID;
  start ← now;
  res ← testProbe cred target;
  end_ ← now;
  let res := {| res with tr_DurationMs := Z.quot (end_ - start) Millisecond |} in
  auditTest subj subnetID target res;;
  mret res.
End service.
