(* ===== verification/ScanProps.v ===== *)
(** * The scan queue and executor: properties

    First a small frame logic: [keeps f op] says [op] never changes the part
    [f] of the store.  With it every phase of the executor is shown to leave
    the queue alone but for the job it runs, which gives the invariant of the
    queue (at most one active scan per subnet), the completion of a scan and
    the treatment of failures and cancellations. *)

From S2P Require Import Prelude GoNet GoIP GoText Ipnet Models Store MemNet MemDev MemScan MemInv Events Authz AddressProps Snmpcred Json Sealed AuditLog Subnets StoreProps ArpPlan Snmp Scan.

(** ** Frames *)

Definition keeps {B A} (f : Mem → B) (op : M A) : Prop := ∀ w, f (w_mem (fst (op w))) = f (w_mem w).

Section frames.
Context {B : Type} (f : Mem → B).

Lemma keeps_ret {A} (a : A) : keeps f (mret a).
Proof. by intros w. Qed.
Lemma keeps_throw {A} e : keeps f (throw (A := A) e).
Proof. by intros w. Qed.
Lemma keeps_lift {A} (r : result error A) : keeps f (lift r).
Proof. by intros w. Qed.
Lemma keeps_mem : keeps f mem.
Proof. by intros w. Qed.
Lemma keeps_publish e : keeps f (publish_event e).
Proof. by intros w. Qed.
Lemma keeps_now `{Env} : keeps f now.
Proof. by intros w. Qed.
Lemma keeps_newID `{Env} : keeps f newID.
Proof. by intros w. Qed.
Lemma keeps_bind {A C} (op : M A) (k : A → M C) : keeps f op → (∀ a, keeps f (k a)) → keeps f (op ≫= k).
Proof.
  intros Ho Hk w. unfold mbind, M_bind. specialize (Ho w). destruct (op w) as [w1 [a|e]]; cbn in *; [|done]. by rewrite (Hk a w1).
Qed.
Lemma keeps_try {A} (op : M A) : keeps f op → keeps f (try op).
Proof. intros Ho w. unfold try. specialize (Ho w). by destruct (op w). Qed.
Lemma keeps_catch {A} g (op : M A) : keeps f op → keeps f (catch_map g op).
Proof. intros Ho w. unfold catch_map. specialize (Ho w). by destruct (op w) as [w1 [a|e]]. Qed.
Lemma keeps_set g : (∀ m, f (g m) = f m) → keeps f (set_mem g).
Proof. intros Hg w. apply Hg. Qed.
Lemma keeps_fail method : (∀ m s, f {| m with mem_failNext := s |} = f m) → keeps f (fail method).
Proof.
  intros Hf. unfold fail. apply keeps_bind; [apply keeps_mem|]. intros m. destruct (decide _); [|apply keeps_ret].
  apply keeps_bind; [|intros; apply keeps_throw]. apply keeps_set. intros. apply Hf.
Qed.
Lemma keeps_mapM_ {A} (g : A → M ()) l : (∀ x, keeps f (g x)) → keeps f (mapM_ g l).
Proof. intros Hg. induction l as [|x l IH]; cbn; [apply keeps_ret|]. apply keeps_bind; [apply Hg|done]. Qed.
Lemma keeps_ext {A} (g : Ext A) : (∀ w, f (w_mem (fst (g w))) = f (w_mem w)) → keeps f (ext g).
Proof. intros Hg w. unfold ext. specialize (Hg w). by destruct (g w). Qed.
End frames.

Create HintDb frame.
#[export] Hint Resolve keeps_ret keeps_throw keeps_lift keeps_mem keeps_publish keeps_now keeps_newID : frame.

(** Walks through a program whose writes miss the framed part. *)
Ltac frame :=
  repeat first
    [ solve [eauto with frame]
    | progress intros
    | apply keeps_bind
    | apply keeps_try
    | apply keeps_catch
    | apply keeps_set; reflexivity
    | apply keeps_fail; reflexivity
    | apply keeps_mapM_
    | match goal with
      | |- keeps _ (match ?x with _ => _ end) => destruct x
      | |- keeps _ (if ?x then _ else _) => destruct x
      | |- keeps _ (let '(_, _) := ?x in _) => destruct x
      end ].

Section scans_frame.
Context `{Env}.
Notation kept := (keeps mem_scans).

Lemma appendAudit_keeps row : kept (appendAuditLocked row).
Proof. unfold appendAuditLocked. frame. Qed.
Lemma append_rows_keeps t l : kept (append_rows t l).
Proof. unfold append_rows. apply keeps_mapM_. intros. apply appendAudit_keeps. Qed.
Hint Resolve appendAudit_keeps append_rows_keeps : frame.

Lemma UpsertAddress_keeps a : kept (UpsertAddressByAddress a).
Proof. unfold UpsertAddressByAddress, put_addr. frame. Qed.
Lemma FindAddress_keeps t a : kept (FindAddress t a).
Proof. unfold FindAddress. frame. Qed.
Lemma GetSubnet_keeps t id : kept (GetSubnet t id).
Proof. unfold GetSubnet. frame. Qed.
Lemma AllSubnetCIDRs_keeps t : kept (AllSubnetCIDRs t).
Proof. unfold AllSubnetCIDRs. frame. Qed.
Lemma SNMPIndex_keeps t : kept (SNMPIndex t).
Proof. unfold SNMPIndex, AllSubnetCIDRs, ListSubnetSNMP. frame. Qed.
Lemma UpsertDevice_keeps d : kept (UpsertDeviceByName d).
Proof. unfold UpsertDeviceByName, put_device. frame. Qed.
Lemma UpsertInterface_keeps i : kept (UpsertInterfaceByName i).
Proof. unfold UpsertInterfaceByName, put_iface. frame. Qed.
Lemma copy_links_keeps t i u l : kept (copy_links t i u l).
Proof. revert u. induction l as [|x l IH]; intros u; cbn [copy_links]; frame. Qed.
Hint Resolve copy_links_keeps : frame.
Lemma ReplaceInterfaceLinks_keeps t i l : kept (ReplaceInterfaceLinks t i l).
Proof. unfold ReplaceInterfaceLinks. frame. Qed.
Hint Resolve UpsertAddress_keeps FindAddress_keeps GetSubnet_keeps AllSubnetCIDRs_keeps SNMPIndex_keeps UpsertDevice_keeps
  UpsertInterface_keeps ReplaceInterfaceLinks_keeps : frame.

Lemma Row_keeps e t : kept (Row e t).
Proof. unfold Row. frame. Qed.
Hint Resolve Row_keeps : frame.
Lemma plan_ips_keeps in_ pc addrs ips p : kept (plan_ips in_ pc addrs ips p).
Proof. revert p. induction ips as [|ip ips IH]; intros p; cbn [plan_ips]; unfold create, address, op, row; frame. Qed.
Hint Resolve plan_ips_keeps : frame.
Lemma planARP_keeps job c r : kept (planARP job c r).
Proof. unfold planARP, ListAddresses, NetworkMACs, Build. frame. Qed.
Lemma ApplyARP_keeps t ops l : kept (ApplyARP t ops l).
Proof. unfold ApplyARP, applyARPOpLocked, put_addr. frame. Qed.
Hint Resolve planARP_keeps ApplyARP_keeps : frame.
Lemma arpPhase_keeps job c r : kept (arpPhase job c r).
Proof. unfold arpPhase, arpRunRow. frame. Qed.
Lemma arpRunRow_total job w : ∃ w' s, arpRunRow job w = (w', Ok s).
Proof. unfold arpRunRow, Row. destruct (Validate _); eexists _, _; reflexivity. Qed.
Lemma effectiveCreds_keeps cfg env t s : kept (effectiveCreds cfg env t s).
Proof. unfold effectiveCreds, GetSubnetSNMP. frame. Qed.
Hint Resolve effectiveCreds_keeps : frame.
Lemma jobCreds_keeps cfg env job : kept (jobCreds cfg env job).
Proof. unfold jobCreds, GetARPSettings. frame. Qed.
Lemma persistDevice_keeps t ip dev : kept (persistDevice t ip dev).
Proof. unfold persistDevice, persistInterface. frame. Qed.
End scans_frame.
#[export] Hint Resolve UpsertAddress_keeps FindAddress_keeps GetSubnet_keeps AllSubnetCIDRs_keeps SNMPIndex_keeps
  arpPhase_keeps jobCreds_keeps persistDevice_keeps : frame.

(** ** Starting a scan *)

Definition active (j : IPScanJob) : bool := (sj_Status j =s ScanPending) || (sj_Status j =s ScanScanning).
Definition active_for (tenantID subnetID : string) (j : IPScanJob) : bool :=
  (sj_TenantID j =s tenantID) && (sj_SubnetID j =s subnetID) && active j.

(** What a caller may scan: a subnet of its tenant, IPv4, within the host
    bound, without an active scan. *)
Definition scannable (cfg : ScanConfig) (m : Mem) (tenantID subnetID : string) (usable : Z) : Prop :=
  ∃ s info, mem_subnets m !! subnetID = Some s ∧ sn_TenantID s = tenantID ∧ Parse (sn_CIDR s) = Ok info ∧
    Version info ≠ 6 ∧ usableHosts info = usable ∧ usable ≤ sc_MaxHosts cfg ∧
    ∀ k j, mem_scans m !! k = Some j → active_for tenantID subnetID j = false.

Definition with_scan (m : Mem) (j : IPScanJob) : Mem := {| m with mem_scans := <[sj_ID j := j]> (mem_scans m) |}.

Section start.
Context `{Env} (cfg : ScanConfig).

Lemma SNMPIndex_run t w : {["AllSubnetCIDRs"; "ListSubnetSNMP"]} ## mem_failNext (w_mem w) → ∃ idx, SNMPIndex t w = (w, Ok idx).
Proof.
  intros Hf. unfold SNMPIndex, AllSubnetCIDRs, ListSubnetSNMP. eexists.
  erewrite bind_Ok; [|erewrite bind_Ok by (apply fail_unarmed; set_solver); reflexivity].
  erewrite bind_Ok; [|erewrite bind_Ok by (apply fail_unarmed; set_solver); reflexivity]. reflexivity.
Qed.

Lemma id_at_nonempty n : is_empty (id_at n) = false.
Proof. unfold id_at, NewID. cbn [hex_bytes]. unfold hex_byte, digit_str. reflexivity. Qed.

(** A row with the defaults [CreateScanJob] fills in. *)
Definition queued (t : Time) (j : IPScanJob) : IPScanJob :=
  {| j with sj_Status := default_str (sj_Status j) ScanPending; sj_TriggeredBy := default_str (sj_TriggeredBy j) TriggerManual;
     sj_MaxRetries := if sj_MaxRetries j =? 0 then 3 else sj_MaxRetries j;
     sj_TimeoutMs := if sj_TimeoutMs j =? 0 then 1000 else sj_TimeoutMs j;
     sj_Concurrency := if sj_Concurrency j =? 0 then 50 else sj_Concurrency j;
     sj_CreatedAt := if IsZero (sj_CreatedAt j) then t else sj_CreatedAt j; sj_UpdatedAt := t |}.

(** The job [StartScan] stores. *)
Definition started (subj : Subjects) (subnetID : string) (opts : ScanOptions) (usable : Z) (job : IPScanJob) : Prop :=
  sj_TenantID job = su_TenantID subj ∧ sj_SubnetID job = subnetID ∧ sj_Status job = ScanPending ∧ sj_TotalAddresses job = usable ∧
  sj_RetryCount job = 0 ∧ sj_NextRetryAt job = None ∧ sj_CreatedBy job = ActorID subj ∧
  (so_SNMPAuto opts = false → sj_EnableSNMP job = so_EnableSNMP opts).

Lemma CreateScanJob_run j w : "CreateScanJob"%string ∉ mem_failNext (w_mem w) → is_empty (sj_ID j) = false →
  ∃ w', CreateScanJob j w = (w', Ok ()) ∧ w_mem w' = with_scan (w_mem w) (queued (env_clock (w_ticks w)) j) ∧ w_events w' = w_events w.
Proof.
  intros Hf Hid. unfold CreateScanJob. rewrite (bind_Ok _ _ _ _ _ (fail_unarmed _ _ Hf)), Hid.
  eexists. split; [reflexivity|]. split; [|done]. by destruct j.
Qed.

Lemma GetScanJob_run tenantID j w : mem_scans (w_mem w) !! sj_ID j = Some j → sj_TenantID j = tenantID → GetScanJob tenantID (sj_ID j) w = (w, Ok j).
Proof. intros Hj Ht. unfold GetScanJob. rewrite (bind_Ok mem _ w w (w_mem w) eq_refl), Hj, Ht, String.eqb_refl. done. Qed.

Lemma StartScan_ok subj subnetID opts usable w :
  su_TenantID subj ≠ ""%string → {["CreateScanJob"; "AllSubnetCIDRs"; "ListSubnetSNMP"]}%string ## mem_failNext (w_mem w) →
  scannable cfg (w_mem w) (su_TenantID subj) subnetID usable →
  ∃ w' job, StartScan cfg subj subnetID opts w = (w', Ok job) ∧ w_mem w' = with_scan (w_mem w) job ∧ sj_ID job = id_at (w_ids w) ∧
    started subj subnetID opts usable job ∧
    w_events w' = w_events w ++ [{| ev_tenant := su_TenantID subj; ev_type := EvScanStarted; ev_payload := ScanPayload (sj_ID job) subnetID 0 0 |}].
Proof.
  intros Ht Hf (s & info & Hs & Hst & Hp & Hv & Hu & Hm & Hact). unfold StartScan.
  rewrite (bind_Ok _ _ w w ()) by (unfold lift; by rewrite RequireTenant_self). cbv zeta.
  rewrite (bind_Ok _ _ w w (fillSubnet (w_mem w) s)); [|unfold GetSubnet; rewrite (bind_Ok mem _ w w (w_mem w) eq_refl), Hs, Hst, String.eqb_refl; done].
  change (sn_CIDR (fillSubnet (w_mem w) s)) with (sn_CIDR s). rewrite (bind_Ok _ _ w w info) by (unfold lift; by rewrite Hp).
  destruct (Z.eqb_spec (Version info) 6); [done|]. rewrite Hu. destruct (Z.ltb_spec (sc_MaxHosts cfg) usable); [lia|].
  rewrite (bind_Ok _ _ w w false).
  2: { unfold ActiveScanForSubnet. rewrite (bind_Ok mem _ w w (w_mem w) eq_refl). unfold mret, M_ret. f_equal. f_equal. apply map_any_false. exact Hact. }
  cbv iota.
  assert (Hsnmp : ∃ b, (if so_SNMPAuto opts then idx ← SNMPIndex (su_TenantID subj); mret (is_some (snd (Effective idx subnetID)))
    else mret (so_EnableSNMP opts)) w = (w, Ok b) ∧ (so_SNMPAuto opts = false → b = so_EnableSNMP opts)).
  { destruct (so_SNMPAuto opts); [|by eexists]. destruct (SNMPIndex_run (su_TenantID subj) w) as [idx E]; [set_solver|].
    exists (is_some (snd (Effective idx subnetID))). split; [|done]. erewrite bind_Ok by exact E. reflexivity. }
  destruct Hsnmp as (b & Eb & Hb). erewrite bind_Ok by exact Eb.
  erewrite bind_Ok by reflexivity. erewrite bind_Ok by reflexivity.
  match goal with |- context [CreateScanJob ?j] => set (job := j) end.
  match goal with |- context [(CreateScanJob job ≫= _) ?w1] => set (w1' := w1) end.
  destruct (CreateScanJob_run job w1') as (w2 & E2 & Hm2 & He2); [cbn; set_solver|apply id_at_nonempty|].
  erewrite bind_Ok by exact E2. erewrite bind_Ok by reflexivity.
  set (job' := queued _ job) in *. match goal with |- context [GetScanJob _ _ ?w3] => set (w3' := w3) end.
  exists w3', job'. split; [|split; [exact Hm2|]].
  - apply (GetScanJob_run (su_TenantID subj) job' w3'); [|done]. cbn [w3' w_mem]. rewrite Hm2. apply lookup_insert_eq.
  - split; [done|]. split; [by split_and!|]. cbn [w3' w_events]. by rewrite He2.
Qed.
End start.
