(* ===== verification/ScanQueue.v ===== *)
(** * The scan queue under interleaving

    The handlers and the worker of internal/scan, cut at every call that reads
    or writes the job table, as threads of a transition system: between two
    such calls any other thread may run.  Three cuts are shown to be the code
    ([StartScan_cut], [CancelScan_cut], [processJob_cut]).  Under every
    interleaving a job is run by at most one worker and a finished job is
    never run again; at most one scan of a subnet is active as long as no
    other call comes between a check of the table and the write it guards, and
    [start_race] shows that it does not hold otherwise. *)

From S2P Require Import Prelude GoNet GoIP GoText Ipnet Models Store MemNet MemDev MemScan MemInv Events Authz AddressProps Snmpcred Json Sealed AuditLog Subnets StoreProps ArpPlan Snmp Scan ScanProps.

Notation table := (gmap string IPScanJob).

(** ** The logic *)

Definition hoare {A} (P : table → Prop) (op : M A) (Q : result error A → table → Prop) : Prop :=
  ∀ w, P (mem_scans (w_mem w)) → Q (snd (op w)) (mem_scans (w_mem (fst (op w)))).

Lemma hoare_bind {A C} P (op : M A) (k : A → M C) R Q :
  hoare P op (λ r T, match r with Ok a => R a T | Err e => Q (Err e) T end) → (∀ a, hoare (R a) (k a) Q) → hoare P (op ≫= k) Q.
Proof.
  intros Ho Hk w HP. specialize (Ho w HP). unfold mbind, M_bind. destruct (op w) as [w1 [a|e]]; [|exact Ho]. exact (Hk a w1 Ho).
Qed.
Lemma hoare_weaken {A} P P' (op : M A) Q Q' :
  hoare P' op Q' → (∀ T, P T → P' T) → (∀ r T, Q' r T → Q r T) → hoare P op Q.
Proof. intros Ho HP HQ w Hw. by apply HQ, Ho, HP. Qed.
Lemma hoare_keeps {A} P (op : M A) : keeps mem_scans op → hoare P op (λ _, P).
Proof. intros Hk w HP. by rewrite (Hk w). Qed.
Lemma hoare_pure {A} (φ : Prop) P (op : M A) Q : (φ → hoare P op Q) → hoare (λ T, P T ∧ φ) op Q.
Proof. intros Ho w [HP Hφ]. by apply Ho. Qed.
(** A step that leaves the table alone. *)
Lemma hoare_skip {A C} P (op : M A) (k : A → M C) Q :
  keeps mem_scans op → (∀ e T, P T → Q (Err e) T) → (∀ a, hoare P (k a) Q) → hoare P (op ≫= k) Q.
Proof.
  intros Hk He Ha. apply (hoare_bind _ _ _ (λ _, P)); [|done]. apply (hoare_weaken P P op _ (λ _, P)); [by apply hoare_keeps|done|].
  intros [a|e] T; [done|apply He].
Qed.

(** ** Jobs *)

Definition same_ids (a b : IPScanJob) : Prop := sj_ID a = sj_ID b ∧ sj_TenantID a = sj_TenantID b ∧ sj_SubnetID a = sj_SubnetID b.

Lemma same_ids_sym a b : same_ids a b → same_ids b a.
Proof. unfold same_ids. intuition. Qed.
Lemma same_ids_trans a b c : same_ids a b → same_ids b c → same_ids a c.
Proof. unfold same_ids. intuition congruence. Qed.

Definition cancelled_job (j : IPScanJob) : Prop := sj_Status j = ScanCancelled.
Definition scanning (j : IPScanJob) : bool := sj_Status j =s ScanScanning.

(** Two active jobs of one subnet are one. *)
Definition one_active (T : table) : Prop :=
  ∀ k1 k2 j1 j2, T !! k1 = Some j1 → T !! k2 = Some j2 → active j1 = true → active j2 = true →
    sj_TenantID j1 = sj_TenantID j2 → sj_SubnetID j1 = sj_SubnetID j2 → k1 = k2.

(** ** The handlers, cut at the job table *)

Section handlers.
Context `{Env} (cfg : ScanConfig).

Lemma fail_armed method w : method ∈ mem_failNext (w_mem w) →
  ∃ w', fail method w = (w', Err (injectedErr method)) ∧ mem_scans (w_mem w') = mem_scans (w_mem w).
Proof. intros Hm. unfold fail, mbind, M_bind, mem. rewrite decide_True by done. by eexists. Qed.

(** What [StartScan] does to the table. *)
Lemma StartScan_table subj subnetID opts T0 :
  hoare (λ T, T = T0) (StartScan cfg subj subnetID opts) (λ r T, (∃ e, r = Err e ∧ T = T0) ∨ ∃ j, r = Ok j ∧ T = <[sj_ID j := j]> T0 ∧ active j = true ∧ sj_TenantID j = su_TenantID subj ∧
    ∀ k x, T0 !! k = Some x → active_for (sj_TenantID j) (sj_SubnetID j) x = false).
Proof.
  unfold StartScan. apply hoare_skip; [apply keeps_lift|eauto|]. intros _. apply hoare_skip; [apply GetSubnet_keeps|eauto|]. intros sub.
  apply hoare_skip; [apply keeps_lift|eauto|]. intros info. destruct (_ =? 6); [intros w Hw; left; eauto|]. cbv zeta.
  destruct (_ <? _); [intros w Hw; left; eauto|].
  apply (hoare_bind _ _ _ (λ b T, T = T0 ∧ (b = false → ∀ k x, T0 !! k = Some x → active_for (su_TenantID subj) subnetID x = false))).
  { intros w Hw. unfold ActiveScanForSubnet, mbind, M_bind, mem, mret, M_ret. cbn. split; [done|]. rewrite Hw. intros Hb. by apply map_any_false. }
  intros [|]; [intros w [Hw _]; left; eauto|]. apply hoare_pure. intros Hno. specialize (Hno eq_refl).
  apply hoare_skip; [destruct (so_SNMPAuto opts); frame|eauto|]. intros snmp.
  apply hoare_skip; [apply keeps_now|eauto|]. intros t.
  intros w Hw. pose proof (id_at_nonempty (w_ids w)) as Hid. erewrite bind_Ok by reflexivity.
  match goal with |- context [CreateScanJob ?x] => set (job := x) end. match goal with |- context [(CreateScanJob job ≫= _) ?x] => set (w1 := x) end.
  change (mem_scans (w_mem w)) with (mem_scans (w_mem w1)) in Hw. destruct (decide ("CreateScanJob"%string ∈ mem_failNext (w_mem w1))) as [Hf|Hf].
  { left. destruct (fail_armed _ _ Hf) as (w2 & Ef & Hw2). rewrite (bind_Err (CreateScanJob job) _ w1 w2 (injectedErr "CreateScanJob")); [eexists; split; [reflexivity|]; cbn; by rewrite Hw2|].
    unfold CreateScanJob. exact (bind_Err _ _ _ _ _ Ef). }
  destruct (CreateScanJob_run job w1 Hf Hid) as (w2 & E2 & Hm2 & _). erewrite bind_Ok by exact E2. erewrite bind_Ok by reflexivity.
  right. set (j := queued _ job) in *. exists j.
  match goal with |- context [GetScanJob _ _ ?x] => set (w3 := x) end.
  change (w_mem w2) with (w_mem w3) in Hm2.
  assert (Hg : GetScanJob (su_TenantID subj) (sj_ID j) w3 = (w3, Ok j)).
  { apply GetScanJob_run; [|done]. rewrite Hm2. apply lookup_insert_eq. }
  change (id_at (w_ids w)) with (sj_ID j). rewrite Hg. cbn [fst snd]. rewrite Hm2. cbn [with_scan mem_scans]. rewrite Hw. done.
Qed.

(** What follows a step and leaves the table alone. *)
Lemma then_keeps {A B} (op : M A) (k : A → M B) w :
  (∀ a, keeps mem_scans (k a)) → mem_scans (w_mem (fst ((op ≫= k) w))) = mem_scans (w_mem (fst (op w))).
Proof. intros Hk. unfold mbind, M_bind. destruct (op w) as [w1 [a|e]]; [exact (Hk a w1)|done]. Qed.
Lemma GetScanJob_keeps t id : keeps mem_scans (GetScanJob t id).
Proof. unfold GetScanJob. frame. Qed.

(** [StartScan] up to the check for an active scan. *)
Definition admit_scan (subj : Subjects) (subnetID : string) : M Z :=
  lift (RequireTenant subj (su_TenantID subj));;
  subnet ← GetSubnet (su_TenantID subj) subnetID;
  info ← lift (map_err ErrIpnet (Parse (sn_CIDR subnet)));
  if Version info =? 6 then throw Scan_ErrIPv6
  else if sc_MaxHosts cfg <? usableHosts info then throw Scan_ErrTooLarge
  else
    active ← ActiveScanForSubnet (su_TenantID subj) subnetID;
    if (active : bool) then throw Scan_ErrActiveScan else mret (usableHosts info).

(** [StartScan] from there on. *)
Definition insert_scan (subj : Subjects) (subnetID : string) (opts : ScanOptions) (usable : Z) : M IPScanJob :=
  let tenantID := su_TenantID subj in
  enableSNMP ← (if so_SNMPAuto opts then idx ← SNMPIndex tenantID; mret (is_some (snd (Effective idx subnetID)))
                else mret (so_EnableSNMP opts));
  t ← now;
  id ← newID;
  CreateScanJob {| zero_IPScanJob with
    sj_ID := id; sj_TenantID := tenantID; sj_SubnetID := subnetID; sj_Status := ScanPending;
    sj_TriggeredBy := if so_Trigger opts =s TriggerAuto then TriggerAuto else TriggerManual;
    sj_TotalAddresses := usable; sj_MaxRetries := sc_MaxRetries cfg; sj_TimeoutMs := sc_TimeoutMs cfg;
    sj_Concurrency := sc_Concurrency cfg; sj_SkipReverseDNS := so_SkipReverseDNS opts; sj_EnableSNMP := enableSNMP;
    sj_EnableDNSUpdate := so_EnableDNSUpdate opts; sj_CreatedBy := ActorID subj; sj_CreatedAt := t; sj_UpdatedAt := t |};;
  publish_event {| ev_tenant := tenantID; ev_type := EvScanStarted; ev_payload := ScanPayload id subnetID 0 0 |};;
  GetScanJob tenantID id.

Lemma StartScan_cut subj subnetID opts w :
  StartScan cfg subj subnetID opts w = (usable ← admit_scan subj subnetID; insert_scan subj subnetID opts usable) w.
Proof.
  unfold StartScan, admit_scan, insert_scan, mbind, M_bind. destruct (lift _ w) as [w0 [[]|e]]; [|done].
  destruct (GetSubnet _ _ w0) as [w1 [sub|e]]; [|done]. destruct (lift _ w1) as [w2 [info|e]]; [|done].
  destruct (_ =? 6); [done|]. destruct (_ <? _); [done|]. destruct (ActiveScanForSubnet _ _ w2) as [w3 [[]|e]]; done.
Qed.

(** [CancelScan]: the row it reads and what it does with it. *)
Definition cancel_read (subj : Subjects) (id : string) : M IPScanJob :=
  lift (RequireTenant subj (su_TenantID subj));; GetScanJob (su_TenantID subj) id.

Definition cancel_write (subj : Subjects) (id : string) (job : IPScanJob) : M (IPScanJob * option error) :=
  if isTerminal (sj_Status job) then mret (job, Some Scan_ErrTerminal)
  else
    t ← now;
    UpdateScanJob {| job with sj_Status := ScanCancelled; sj_StatusMessage := "cancelled"; sj_CompletedAt := Some t |};;
    job' ← GetScanJob (su_TenantID subj) id;
    mret (job', None).

Lemma CancelScan_cut subj id w : CancelScan subj id w = (job ← cancel_read subj id; cancel_write subj id job) w.
Proof. unfold CancelScan, cancel_read, cancel_write, mbind, M_bind. by destruct (lift _ w) as [w0 [[]|e]]. Qed.

(** ** What the cuts do to the table *)

Lemma admit_scan_table subj subnetID w w' u :
  admit_scan subj subnetID w = (w', Ok u) →
  w' = w ∧ ∀ k x, mem_scans (w_mem w) !! k = Some x → active_for (su_TenantID subj) subnetID x = false.
Proof.
  intros Hrun. unfold admit_scan in Hrun. apply bind_inv in Hrun as (w1 & [] & Ht & Hrun). apply lift_inv in Ht as [-> _].
  apply bind_inv in Hrun as (w1 & sub & Hs & Hrun). assert (w1 = w) as ->.
  { unfold GetSubnet in Hs. apply bind_inv in Hs as (w2 & m & Hm & Hs). apply mem_inv in Hm as [-> ->].
    destruct (mem_subnets (w_mem w) !! subnetID); [|done]. destruct (_ =s _); [|done]. by apply ret_inv in Hs as [-> _]. }
  apply bind_inv in Hrun as (w2 & info & Hi & Hrun). apply lift_inv in Hi as [-> _].
  destruct (_ =? 6); [done|]. destruct (_ <? _); [done|]. unfold ActiveScanForSubnet in Hrun.
  apply bind_inv in Hrun as (w2 & b & Ha & Hrun). apply bind_inv in Ha as (w3 & m & Hm & Ha). apply mem_inv in Hm as [-> ->].
  apply ret_inv in Ha as [-> ->]. destruct (map_any _ _) eqn:Eb; [done|]. apply ret_inv in Hrun as [-> ->].
  split; [done|]. intros k x Hx. exact (proj1 (map_any_false _ _) Eb k x Hx).
Qed.

(** A new pending job, or nothing. *)
Lemma insert_scan_table subj subnetID opts u w :
  let T := mem_scans (w_mem w) in let T' := mem_scans (w_mem (fst (insert_scan subj subnetID opts u w))) in
  T' = T ∨ ∃ j, T' = <[id_at (w_ids w) := j]> T ∧ sj_ID j = id_at (w_ids w) ∧ sj_TenantID j = su_TenantID subj ∧
    sj_SubnetID j = subnetID ∧ sj_Status j = ScanPending.
Proof.
  cbv zeta. unfold insert_scan. cbv zeta.
  assert (Hp : ∃ w1 r, (if so_SNMPAuto opts then idx ← SNMPIndex (su_TenantID subj); mret (is_some (snd (Effective idx subnetID)))
                else mret (so_EnableSNMP opts)) w = (w1, r) ∧ mem_scans (w_mem w1) = mem_scans (w_mem w) ∧ w_ids w1 = w_ids w).
  { destruct (so_SNMPAuto opts); [|by eexists _, _]. eexists _, _. split; [apply surjective_pairing|].
    split; [apply (keeps_bind mem_scans); [apply SNMPIndex_keeps|intros; apply keeps_ret]|].
    unfold SNMPIndex, AllSubnetCIDRs, ListSubnetSNMP, fail, mbind, M_bind, mem. repeat (destruct (decide _); cbn; try done). }
  destruct Hp as (w1 & r & Er & Hm & Hi). destruct r as [b|e]; [rewrite (bind_Ok _ _ _ _ _ Er)|left; by rewrite (bind_Err _ _ _ _ _ Er)].
  erewrite bind_Ok by reflexivity. erewrite bind_Ok by reflexivity. cbn [w_ids].
  match goal with |- context [CreateScanJob ?x] => set (job := x) end. match goal with |- context [(CreateScanJob job ≫= _) ?x] => set (w2 := x) end.
  assert (Hm2 : mem_scans (w_mem w2) = mem_scans (w_mem w)) by exact Hm.
  destruct (decide ("CreateScanJob"%string ∈ mem_failNext (w_mem w2))) as [Hf|Hf].
  { left. destruct (fail_armed _ _ Hf) as (w3 & Ef & Hw3). rewrite (bind_Err (CreateScanJob job) _ w2 w3 (injectedErr "CreateScanJob")); [cbn; congruence|].
    unfold CreateScanJob. exact (bind_Err _ _ _ _ _ Ef). }
  destruct (CreateScanJob_run job w2 Hf (id_at_nonempty (w_ids w1))) as (w3 & E3 & Hm3 & _). erewrite bind_Ok by exact E3. erewrite bind_Ok by reflexivity.
  right. exists (queued (env_clock (w_ticks w2)) job).
  rewrite (GetScanJob_keeps _ _). cbn [w_mem]. rewrite Hm3. cbn [with_scan mem_scans]. rewrite Hm2. rewrite <- Hi. done.
Qed.

(** An update rewrites a row of the same tenant, or does nothing. *)
Definition rewrote (j : IPScanJob) (T T' : table) : Prop :=
  T' = T ∨ ∃ ex j', T !! sj_ID j = Some ex ∧ sj_TenantID ex = sj_TenantID j ∧ T' = <[sj_ID j := j']> T ∧
    same_ids j j' ∧ sj_Status j' = sj_Status j.

Lemma UpdateScanJob_table j w : rewrote j (mem_scans (w_mem w)) (mem_scans (w_mem (fst (UpdateScanJob j w)))).
Proof.
  unfold UpdateScanJob, fail, mbind, M_bind, mem, rewrote. destruct (decide _); [by left|]. cbn.
  destruct (mem_scans (w_mem w) !! sj_ID j) as [ex|] eqn:E; [|by left]. destruct (sj_TenantID ex =s sj_TenantID j) eqn:Et; [|by left].
  cbn. right. apply String.eqb_eq in Et. eexists ex, _. split_and!; try done; reflexivity.
Qed.

Lemma saveJob_table j w : rewrote j (mem_scans (w_mem w)) (mem_scans (w_mem (fst (saveJob j w)))).
Proof.
  pose proof (UpdateScanJob_table j w) as Hu. unfold saveJob, try, mbind, M_bind. by destruct (UpdateScanJob j w) as [w1 r].
Qed.

Lemma cancel_read_table subj id w w' job :
  cancel_read subj id w = (w', Ok job) → w' = w ∧ mem_scans (w_mem w) !! id = Some job.
Proof.
  unfold cancel_read. intros Hrun. apply bind_inv in Hrun as (w1 & [] & Ht & Hrun). apply lift_inv in Ht as [-> _].
  unfold GetScanJob in Hrun. apply bind_inv in Hrun as (w2 & m & Hm & Hrun). apply mem_inv in Hm as [-> ->].
  destruct (mem_scans (w_mem w) !! id) as [j|] eqn:E; [|done]. destruct (_ =s _); [|done]. by apply ret_inv in Hrun as [-> ->].
Qed.

Lemma cancel_write_table subj id job w :
  let T := mem_scans (w_mem w) in let T' := mem_scans (w_mem (fst (cancel_write subj id job w))) in
  T' = T ∨ ∃ ex j, T !! sj_ID job = Some ex ∧ T' = <[sj_ID job := j]> T ∧ same_ids job j ∧ cancelled_job j.
Proof.
  cbv zeta. unfold cancel_write. destruct (isTerminal _); [by left|]. erewrite bind_Ok by reflexivity.
  match goal with |- context [UpdateScanJob ?x] => set (j := x) end. match goal with |- context [(UpdateScanJob j ≫= _) ?x] => set (w1 := x) end.
  rewrite (then_keeps (UpdateScanJob j)) by (intros []; apply (keeps_bind mem_scans); [apply GetScanJob_keeps|intros; apply keeps_ret]).
  destruct (UpdateScanJob_table j w1) as [->|(ex & j' & Hex & _ & -> & Hs & Hst)]; [by left|right]. by exists ex, j'.
Qed.
End handlers.

(** ** The worker, cut at the job table *)

(** Where a worker is in [processJob]: before a cancellation check ([Claimed],
    [Loaded], [Swept], [Recorded], and [Failing] in [retryOrFail]), before a
    write of the job's row ([Announcing], [Reporting], [Completing],
    [Retrying]), or in a stretch that does not touch the table. *)
Inductive wpc : Type :=
  Claimed | Loading | Loaded | Announcing | Sweeping | Swept | Reporting | Recording | Recorded | Completing | Failing | Retrying.

Definition checks (pc : wpc) : option wpc :=
  match pc with
  | Claimed => Some Loading | Loaded => Some Announcing | Swept => Some Reporting | Recorded => Some Completing
  | Failing => Some Retrying | _ => None
  end.
Definition waits (pc : wpc) : option wpc :=
  match pc with Loading => Some Loaded | Sweeping => Some Swept | Recording => Some Recorded | _ => None end.
Definition saves (pc : wpc) : option wpc :=
  match pc with Announcing => Some Sweeping | Reporting => Some Recording | _ => None end.

(** The statuses of the write that ends a run. *)
Definition ends (pc : wpc) (status : string) : Prop :=
  match pc with
  | Completing => status = ScanCompleted
  | Retrying => status = ScanFailed ∨ status = ScanPending
  | _ => False
  end.

Definition progress_of (job job' : IPScanJob) : Prop := same_ids job job' ∧ sj_Status job' = sj_Status job.

Section worker.
Context `{Env}.

(** The table after the row of [job] was saved. *)
Definition saved (job : IPScanJob) (w w' : World) : Prop :=
  ∃ w1, mem_scans (w_mem w1) = mem_scans (w_mem w) ∧ mem_scans (w_mem w') = mem_scans (w_mem (fst (saveJob job w1))).

(** One stretch of a worker. What happens to other tables, and what the
    network answers, is left open: a stretch that does not touch the job table
    may go on or fail. *)
Inductive work (w : World) (job : IPScanJob) : wpc → World → option (IPScanJob * wpc) → Prop :=
| work_stop pc next : checks pc = Some next → observeCancel job w = (w, Ok true) → work w job pc w None
| work_go pc next : checks pc = Some next → observeCancel job w = (w, Ok false) → work w job pc w (Some (job, next))
| work_local pc next w' job' :
    waits pc = Some next → progress_of job job' → mem_scans (w_mem w') = mem_scans (w_mem w) → work w job pc w' (Some (job', next))
| work_fail pc next w' :
    waits pc = Some next → mem_scans (w_mem w') = mem_scans (w_mem w) → work w job pc w' (Some (job, Failing))
| work_save pc next w' job' :
    saves pc = Some next → progress_of job job' → saved job' w w' → work w job pc w' (Some (job', next))
| work_end pc w' job' :
    same_ids job job' → ends pc (sj_Status job') → saved job' w w' → work w job pc w' None.

Definition wstate : Type := World * option (IPScanJob * wpc).
Definition moves (a b : wstate) : Prop := ∃ job pc, snd a = Some (job, pc) ∧ work (fst a) job pc (fst b) (snd b).

Lemma moves_l w job pc w1 next s : work w job pc w1 next → rtc moves (w1, next) s → rtc moves (w, Some (job, pc)) s.
Proof. intros Hw Hr. eapply rtc_l; [|exact Hr]. by exists job, pc. Qed.

Lemma observeCancel_total job w : ∃ b, observeCancel job w = (w, Ok b).
Proof.
  unfold observeCancel, try, GetScanJob, mbind, M_bind, mem. destruct (mem_scans (w_mem w) !! sj_ID job) as [j|]; [destruct (_ =s _)|]; by eexists.
Qed.

Lemma moves_check job pc next (k : M ()) w :
  checks pc = Some next → rtc moves (w, Some (job, next)) (fst (k w), None) →
  rtc moves (w, Some (job, pc)) (fst ((observeCancel job ≫= λ b, if (b : bool) then mret () else k) w), None).
Proof.
  intros Hc Hr. destruct (observeCancel_total job w) as [b E]. rewrite (bind_Ok _ _ _ _ _ E). destruct b.
  - eapply moves_l; [by eapply work_stop|]. apply rtc_refl.
  - eapply moves_l; [by eapply work_go|exact Hr].
Qed.

Lemma saved_self job w : saved job w (fst (saveJob job w)).
Proof. by exists w. Qed.

Context (cfg : ScanConfig) (env : option Opener).
Context (sweep : list string → Ext (result error (gmap string bool))).
Context (discover : string → Creds → Ext (result snmp_error DiscoveredDevice)).
Context (revLookup : string → Ext string) (linker : option (string → M ())).
Context (completion : list string → list string) (error_text : error → string).

(** A worker that runs alone: the network calls and the correlation leave the
    job table alone. *)
Class Alone : Prop := {
  sweep_alone : ∀ ips w, mem_scans (w_mem (fst (sweep ips w))) = mem_scans (w_mem w);
  discover_alone : ∀ ip creds w, mem_scans (w_mem (fst (discover ip creds w))) = mem_scans (w_mem w);
  lookup_alone : ∀ ip w, mem_scans (w_mem (fst (revLookup ip w))) = mem_scans (w_mem w);
  linker_alone : ∀ correlate t, linker = Some correlate → keeps mem_scans (correlate t)
}.
Context `{!Alone}.

Lemma keeps_ext_alone {A} (f : Ext A) : (∀ w, mem_scans (w_mem (fst (f w))) = mem_scans (w_mem w)) → keeps mem_scans (ext f).
Proof. intros Hf w. specialize (Hf w). unfold ext. by destruct (f w) as [w1 a]. Qed.

Lemma retryOrFail_cut job e w : rtc moves (w, Some (job, Failing)) (fst (retryOrFail cfg error_text job e w), None).
Proof.
  unfold retryOrFail. apply (moves_check _ _ Retrying); [done|]. cbv zeta. erewrite bind_Ok by reflexivity.
  destruct (_ <? _); (eapply moves_l; [|apply rtc_refl]); (eapply work_end; cycle 2; [eexists; split; [|reflexivity]; done|done|cbn; auto]).
Qed.

Lemma recordHosts_alone j ips : ∀ a b, keeps mem_scans (recordHosts revLookup j a b ips).
Proof.
  induction ips as [|ip ips IH]; intros a b; cbn [recordHosts]; [apply keeps_ret|]. apply (keeps_bind mem_scans); [|intros []; apply IH].
  unfold recordHost. apply (keeps_bind mem_scans); [destruct (sj_SkipReverseDNS j); [apply keeps_ret|apply keeps_ext_alone, lookup_alone]|]. intros. frame.
Qed.

Lemma probeHosts_alone creds ips : ∀ acc w, ∃ w' acc', probeHosts discover creds acc ips w = (w', Ok acc') ∧
  mem_scans (w_mem w') = mem_scans (w_mem w) ∧ progress_of (fst acc) (fst acc').
Proof.
  induction ips as [|ip ips IH]; intros [j read] w; cbn [probeHosts]; [by eexists _, _|].
  assert (Hp : ∃ w1 acc1, probeHost discover creds (j, read) ip w = (w1, Ok acc1) ∧ mem_scans (w_mem w1) = mem_scans (w_mem w) ∧ progress_of j (fst acc1)).
  { unfold probeHost. pose proof (discover_alone ip creds w) as Hd. unfold mbind at 1, M_bind at 1, ext. destruct (discover ip creds w) as [w1 [dev|e]]; cbn in Hd.
    - unfold mbind, M_bind, try. pose proof (persistDevice_keeps (sj_TenantID j) ip dev w1) as Hk. cbv zeta.
      change (sj_TenantID {| j with sj_SNMPProbed := _ |}) with (sj_TenantID j).
      destruct (persistDevice (sj_TenantID j) ip dev w1) as [w2 [id|e]]; cbn in Hk; (eexists _, _; split; [reflexivity|]; split; [congruence|done]).
    - cbv zeta. destruct (_ =s OutcomeNoResponse); [|destruct (Rejected _)]; (eexists _, _; split; [reflexivity|]; split; [exact Hd|done]). }
  destruct Hp as (w1 & [j1 r1] & E & Hm & Hs). rewrite (bind_Ok _ _ _ _ _ E). destruct (IH (j1, r1) w1) as (w2 & acc & E2 & Hm2 & Hs2).
  exists w2, acc. split; [exact E2|]. split; [congruence|]. destruct Hs as [Hs Hst], Hs2 as [Hs2 Hst2]. cbn in *. split; [by eapply same_ids_trans|congruence].
Qed.

Lemma snmpPhase_alone j cred alive w : ∃ w' acc, snmpPhase discover completion j cred alive w = (w', Ok acc) ∧
  mem_scans (w_mem w') = mem_scans (w_mem w) ∧ progress_of j (fst acc).
Proof.
  unfold snmpPhase. cbv zeta. destruct (negb _); [by eexists _, _|]. destruct (ef_creds cred) as [creds|]; [|by eexists _, _].
  destruct (is_nil alive); [by eexists _, _|]. unfold discoverSNMP.
  match goal with |- context [probeHosts _ _ ?acc ?ips w] => destruct (probeHosts_alone creds ips acc w) as (w' & acc' & E & Hm & Hs) end. by exists w', acc'.
Qed.

Lemma arpPhase_progress j c read w : ∃ w' j', arpPhase j c read w = (w', Ok j') ∧ progress_of j j'.
Proof.
  unfold arpPhase. destruct c as [c|e]; [|by eexists _, _]. destruct (negb _); [by eexists _, _|]. cbv zeta. unfold mbind, M_bind, try.
  match goal with |- context [planARP ?a ?b ?d w] => destruct (planARP a b d w) as [w1 [plan|e]] end; [|by eexists _, _].
  match goal with |- context [arpRunRow ?a w1] => destruct (arpRunRow_total a w1) as (w2 & s & ->) end.
  match goal with |- context [ApplyARP ?a ?b ?d w2] => destruct (ApplyARP a b d w2) as [w3 r] end. by eexists _, _.
Qed.

Lemma completeJob_cut job w : rtc moves (w, Some (job, Completing)) (fst (completeJob linker job w), None).
Proof.
  unfold completeJob. erewrite bind_Ok by reflexivity. cbv zeta. match goal with |- context [UpdateScanJob ?x] => set (j := x) end.
  match goal with |- context [(try (UpdateScanJob j) ≫= _) ?x] => set (w1 := x) end.
  eapply moves_l; [|apply rtc_refl]. apply (work_end _ _ _ _ j); [done|done|]. exists w1. split; [done|].
  rewrite then_keeps.
  - unfold saveJob, mbind, M_bind, try. by destruct (UpdateScanJob j w1).
  - intros [u|e]; [|apply keeps_ret]. apply keeps_bind; [apply keeps_publish|]. intros _. destruct linker as [correlate|] eqn:El; [|apply keeps_ret].
    destruct (sj_EnableSNMP j); [|apply keeps_ret]. apply keeps_bind; [apply keeps_try; by eapply linker_alone|intros; apply keeps_ret].
Qed.

Lemma finishJob_cut job cred arpCfg ips alive w :
  rtc moves (w, Some (job, Reporting)) (fst (finishJob cfg discover revLookup linker completion error_text job cred arpCfg ips alive w), None).
Proof.
  unfold finishJob. cbv zeta. match goal with |- context [saveJob ?x] => set (j1 := x) end.
  assert (Es : saveJob j1 w = (fst (saveJob j1 w), Ok ())) by (unfold saveJob, try, mbind, M_bind; by destruct (UpdateScanJob j1 w)).
  rewrite (bind_Ok _ _ _ _ _ Es). set (w1 := fst (saveJob j1 w)).
  eapply moves_l; [apply (work_save _ _ _ Recording w1 j1); [done|done|apply saved_self]|].
  pose proof (recordHosts_alone j1 alive 0 0 w1) as Hk. unfold mbind at 1, M_bind at 1, try.
  destruct (recordHosts revLookup j1 0 0 alive w1) as [w2 [[newC updC]|e]]; cbn in Hk.
  2: { eapply moves_l; [by apply (work_fail _ _ _ Recorded w2)|apply retryOrFail_cut]. }
  match goal with |- context [snmpPhase _ _ ?x] => set (j2 := x) end.
  destruct (snmpPhase_alone j2 cred alive w2) as (w3 & [j3 read] & E3 & Hm3 & Hs3). rewrite (bind_Ok _ _ _ _ _ E3). cbn [fst] in Hs3.
  assert (Ha : ∃ w4 j4, (if sj_SNMPStatus j3 =s SNMPRan then arpPhase j3 arpCfg read else mret j3) w3 = (w4, Ok j4) ∧
    mem_scans (w_mem w4) = mem_scans (w_mem w3) ∧ progress_of j3 j4).
  { destruct (_ =s SNMPRan); [|by eexists _, _]. destruct (arpPhase_progress j3 arpCfg read w3) as (w4 & j4 & E4 & Hp4).
    exists w4, j4. split; [done|]. split; [|done]. pose proof (arpPhase_keeps j3 arpCfg read w3) as Hk4. by rewrite E4 in Hk4. }
  destruct Ha as (w4 & j4 & E4 & Hm4 & Hs4). rewrite (bind_Ok _ _ _ _ _ E4).
  eapply moves_l; [apply (work_local _ _ _ Recorded w4 j4); [done| |congruence]|].
  { destruct Hs3 as [Hs3 Ht3], Hs4 as [Hs4 Ht4]. split; [by eapply same_ids_trans; [exact Hs3|]|]. rewrite Ht4, Ht3. done. }
  apply (moves_check _ _ Completing); [done|]. apply completeJob_cut.
Qed.

(** A worker that runs [processJob] alone goes through these stretches. *)
Theorem processJob_cut job w :
  rtc moves (w, Some (job, Claimed)) (fst (processJob cfg env sweep discover revLookup linker completion error_text job w), None).
Proof.
  unfold processJob. apply (moves_check _ _ Loading); [done|].
  pose proof (GetSubnet_keeps (sj_TenantID job) (sj_SubnetID job) w) as Hk1. unfold mbind at 1, M_bind at 1, try.
  destruct (GetSubnet _ _ w) as [w1 [subnet|e]]; cbn in Hk1; [|eapply moves_l; [by apply (work_fail _ _ _ Loaded w1)|apply retryOrFail_cut]].
  pose proof (jobCreds_keeps cfg env job w1) as Hk2. unfold mbind at 1, M_bind at 1.
  destruct (jobCreds _ _ _ w1) as [w2 [[cred arpCfg]|e]]; cbn in Hk2; [|eapply moves_l; [apply (work_fail _ _ _ Loaded w2); [done|congruence]|apply retryOrFail_cut]].
  destruct (enumerateTargets _ _) as [targets|e]; [|eapply moves_l; [apply (work_fail _ _ _ Loaded w2); [done|congruence]|apply retryOrFail_cut]].
  eapply moves_l; [apply (work_local _ _ _ Loaded w2 job); [done|done|congruence]|]. apply (moves_check _ _ Announcing); [done|]. cbv zeta.
  match goal with |- context [saveJob ?x] => set (j1 := x) end.
  assert (Es : saveJob j1 w2 = (fst (saveJob j1 w2), Ok ())) by (unfold saveJob, try, mbind, M_bind; by destruct (UpdateScanJob j1 w2)).
  rewrite (bind_Ok _ _ _ _ _ Es). set (w3 := fst (saveJob j1 w2)).
  eapply moves_l; [apply (work_save _ _ _ Sweeping w3 j1); [done|done|apply saved_self]|].
  pose proof (sweep_alone (ipStrings targets) w3) as Hk4. unfold mbind at 1, M_bind at 1, ext.
  destruct (sweep (ipStrings targets) w3) as [w4 [alive|e]]; cbn in Hk4; [|eapply moves_l; [by apply (work_fail _ _ _ Swept w4)|apply retryOrFail_cut]].
  eapply moves_l; [by apply (work_local _ _ _ Swept w4 j1)|]. apply (moves_check _ _ Reporting); [done|]. apply finishJob_cut.
Qed.
End worker.

(** ** The system *)

(** A call that has read the table and not yet written it, or a worker. *)
Inductive thread : Type :=
| Starting (subj : Subjects) (subnetID : string) (opts : ScanOptions) (usable : Z)
| Cancelling (subj : Subjects) (id : string) (job : IPScanJob)
| Worker (job : IPScanJob) (pc : wpc).

(** The world, the threads and the identifiers drawn for jobs so far. *)
Record queue : Type := { q_world : World; q_threads : list thread; q_used : gset string }.

Definition jobs (s : queue) : table := mem_scans (w_mem (q_world s)).
Definition worker_of (n : option (IPScanJob * wpc)) : list thread := match n with Some (j, pc) => [Worker j pc] | None => [] end.
Definition running (ts : list thread) : list string := omap (λ t, match t with Worker j _ => Some (sj_ID j) | _ => None end) ts.
Definition queue_start : queue := {| q_world := init_world; q_threads := []; q_used := ∅ |}.

Section system.
Context `{Env} (cfg : ScanConfig).

(** One call on the job table by some thread. Other handlers may delete jobs
    (with their subnet) and do anything to the other tables. An identifier is
    never drawn twice. *)
Inductive step : queue → queue → Prop :=
| step_admit subj subnetID opts w w' usable ts u :
    admit_scan cfg subj subnetID w = (w', Ok usable) →
    step {| q_world := w; q_threads := ts; q_used := u |} {| q_world := w'; q_threads := Starting subj subnetID opts usable :: ts; q_used := u |}
| step_insert subj subnetID opts usable w ts1 ts2 u :
    id_at (w_ids w) ∉ u →
    step {| q_world := w; q_threads := ts1 ++ Starting subj subnetID opts usable :: ts2; q_used := u |}
         {| q_world := fst (insert_scan cfg subj subnetID opts usable w); q_threads := ts1 ++ ts2; q_used := {[id_at (w_ids w)]} ∪ u |}
| step_cancel_read subj id w w' job ts u :
    cancel_read subj id w = (w', Ok job) →
    step {| q_world := w; q_threads := ts; q_used := u |} {| q_world := w'; q_threads := Cancelling subj id job :: ts; q_used := u |}
| step_cancel_write subj id job w ts1 ts2 u :
    step {| q_world := w; q_threads := ts1 ++ Cancelling subj id job :: ts2; q_used := u |}
         {| q_world := fst (cancel_write subj id job w); q_threads := ts1 ++ ts2; q_used := u |}
| step_claim at_ limit w w' out ts u :
    ClaimDueScanJobs at_ limit w = (w', Ok out) →
    step {| q_world := w; q_threads := ts; q_used := u |}
         {| q_world := w'; q_threads := ((λ j, Worker j Claimed) <$> out) ++ ts; q_used := u |}
| step_work job pc next w w' ts1 ts2 u :
    work w job pc w' next →
    step {| q_world := w; q_threads := ts1 ++ Worker job pc :: ts2; q_used := u |}
         {| q_world := w'; q_threads := ts1 ++ worker_of next ++ ts2; q_used := u |}
| step_other w w' ts u u' :
    (∀ k, mem_scans (w_mem w') !! k = mem_scans (w_mem w) !! k ∨ mem_scans (w_mem w') !! k = None) → u ⊆ u' →
    step {| q_world := w; q_threads := ts; q_used := u |} {| q_world := w'; q_threads := ts; q_used := u' |}.

(** The same system when no other call comes between a check of the table and
    the write it guards. *)
Inductive serial : queue → queue → Prop :=
| serial_start subj subnetID opts w ts u :
    id_at (w_ids w) ∉ u →
    serial {| q_world := w; q_threads := ts; q_used := u |}
           {| q_world := fst (StartScan cfg subj subnetID opts w); q_threads := ts; q_used := {[id_at (w_ids w)]} ∪ u |}
| serial_cancel subj id w ts u :
    serial {| q_world := w; q_threads := ts; q_used := u |} {| q_world := fst (CancelScan subj id w); q_threads := ts; q_used := u |}
| serial_claim at_ limit w w' out ts u :
    ClaimDueScanJobs at_ limit w = (w', Ok out) →
    serial {| q_world := w; q_threads := ts; q_used := u |}
           {| q_world := w'; q_threads := ((λ j, Worker j Claimed) <$> out) ++ ts; q_used := u |}
| serial_stop job pc pc' w ts1 ts2 u :
    checks pc = Some pc' → observeCancel job w = (w, Ok true) →
    serial {| q_world := w; q_threads := ts1 ++ Worker job pc :: ts2; q_used := u |} {| q_world := w; q_threads := ts1 ++ ts2; q_used := u |}
| serial_check job w ts1 ts2 u :
    observeCancel job w = (w, Ok false) →
    serial {| q_world := w; q_threads := ts1 ++ Worker job Claimed :: ts2; q_used := u |}
           {| q_world := w; q_threads := ts1 ++ Worker job Loading :: ts2; q_used := u |}
| serial_guarded job pc pc' next w w' ts1 ts2 u :
    checks pc = Some pc' → observeCancel job w = (w, Ok false) → work w job pc' w' next →
    serial {| q_world := w; q_threads := ts1 ++ Worker job pc :: ts2; q_used := u |}
           {| q_world := w'; q_threads := ts1 ++ worker_of next ++ ts2; q_used := u |}
| serial_wait job pc pc' next w w' ts1 ts2 u :
    waits pc = Some pc' → work w job pc w' next →
    serial {| q_world := w; q_threads := ts1 ++ Worker job pc :: ts2; q_used := u |}
           {| q_world := w'; q_threads := ts1 ++ worker_of next ++ ts2; q_used := u |}
| serial_other w w' ts u u' :
    (∀ k, mem_scans (w_mem w') !! k = mem_scans (w_mem w) !! k ∨ mem_scans (w_mem w') !! k = None) → u ⊆ u' →
    serial {| q_world := w; q_threads := ts; q_used := u |} {| q_world := w'; q_threads := ts; q_used := u' |}.
End system.

(** The row of a job that a worker runs, while it is stored: scanning, or
    cancelled meanwhile. *)
Definition run_row (job : IPScanJob) (T : table) : Prop :=
  ∀ row, T !! sj_ID job = Some row → same_ids job row ∧ (scanning row = true ∨ cancelled_job row).

(** No job is run by two workers, and a worker's job is marked as running. *)
Definition exclusive (s : queue) : Prop :=
  NoDup (running (q_threads s)) ∧ ∀ j pc, Worker j pc ∈ q_threads s → scanning j = true ∧ run_row j (jobs s).

(** The job [k] is over: nobody runs it and its row, if still stored, is
    terminal. *)
Definition settled (k : string) (s : queue) : Prop :=
  k ∈ q_used s ∧ k ∉ running (q_threads s) ∧ ∀ row, jobs s !! k = Some row → isTerminal (sj_Status row) = true.

(** ** The invariant *)

Record sound (s : queue) : Prop := {
  so_used : ∀ k row, jobs s !! k = Some row → k ∈ q_used s;
  so_keyed : keyed sj_ID (jobs s);
  so_excl : exclusive s;
  so_known : ∀ j pc, Worker j pc ∈ q_threads s → sj_ID j ∈ q_used s;
  so_cancel : ∀ subj id j, Cancelling subj id j ∈ q_threads s → sj_ID j ∈ q_used s ∧ ∀ row, jobs s !! sj_ID j = Some row → same_ids j row
}.

(** Rows keep their ids; at [k] a row is kept, deleted or cancelled. *)
Definition follows (T T' : table) : Prop := ∀ k row', T' !! k = Some row' → ∃ row, T !! k = Some row ∧ same_ids row row'.
Definition untouched (T T' : table) (k : string) : Prop :=
  T' !! k = T !! k ∨ T' !! k = None ∨ ∃ row', T' !! k = Some row' ∧ cancelled_job row'.

Lemma run_row_follows job T T' : follows T T' → untouched T T' (sj_ID job) → run_row job T → run_row job T'.
Proof.
  intros Hf Hu Hr row' Hrow'. destruct (Hf _ _ Hrow') as (row & Hrow & Hs). destruct (Hr row Hrow) as [Hi Hst].
  split; [by eapply same_ids_trans|]. destruct Hu as [E|[E|(r & E & Hc)]].
  - rewrite E, Hrow in Hrow'. by injection Hrow' as <-.
  - congruence.
  - rewrite E in Hrow'. injection Hrow' as <-. by right.
Qed.

Lemma follows_keyed T T' : keyed sj_ID T → follows T T' → keyed sj_ID T'.
Proof. intros Hk Hf k row' Hr. destruct (Hf _ _ Hr) as (row & Hrow & Hs & _). rewrite <- Hs. by apply Hk. Qed.
Lemma follows_refl T : follows T T.
Proof. intros k row Hr. by exists row. Qed.
Lemma follows_deleted T T' : (∀ k, T' !! k = T !! k ∨ T' !! k = None) → follows T T'.
Proof. intros Hd k row Hr. destruct (Hd k) as [E|E]; [exists row; by rewrite <- E|congruence]. Qed.

Lemma rewrote_cases j T T' :
  keyed sj_ID T → (∀ row, T !! sj_ID j = Some row → same_ids j row) → rewrote j T T' →
  follows T T' ∧ (∀ k, k ≠ sj_ID j → T' !! k = T !! k) ∧
  (T' !! sj_ID j = T !! sj_ID j ∨ ∃ j', T' !! sj_ID j = Some j' ∧ same_ids j j' ∧ sj_Status j' = sj_Status j ∧ is_Some (T !! sj_ID j)).
Proof.
  intros Hk Hrow [->|(ex & j' & Hex & _ & -> & Hs & Hst)]; [split_and!; auto using follows_refl|]. split_and!.
  - intros k row' [[<- <-]|[Hne Hr]]%lookup_insert_Some; [|by exists row']. exists ex. split; [done|].
    eapply same_ids_trans; [apply same_ids_sym; by apply Hrow|done].
  - intros k Hne. by rewrite lookup_insert_ne.
  - right. exists j'. rewrite lookup_insert_eq. split_and!; eauto.
Qed.

Lemma running_app ts1 ts2 : running (ts1 ++ ts2) = running ts1 ++ running ts2.
Proof. apply omap_app. Qed.
Lemma elem_of_running ts k : k ∈ running ts ↔ ∃ j pc, Worker j pc ∈ ts ∧ sj_ID j = k.
Proof.
  unfold running. rewrite list_elem_of_omap. split.
  - intros ([| |j pc] & Hin & [= <-]). by exists j, pc.
  - intros (j & pc & Hin & <-). by exists (Worker j pc).
Qed.

(** Leaving out a thread that is no worker. *)
Lemma running_drop ts1 t ts2 : running [t] = [] → running (ts1 ++ t :: ts2) = running (ts1 ++ ts2).
Proof. intros Ht. rewrite !running_app. f_equal. change (t :: ts2) with ([t] ++ ts2). by rewrite running_app, Ht. Qed.
Lemma elem_of_drop (t x : thread) ts1 ts2 : x ∈ ts1 ++ ts2 → x ∈ ts1 ++ t :: ts2.
Proof. set_solver. Qed.

(** A step that starts no worker and under which every row a thread knows is
    kept, deleted or cancelled. *)
Lemma sound_follows s s' :
  sound s → follows (jobs s) (jobs s') → (∀ k, k ∈ running (q_threads s) → untouched (jobs s) (jobs s') k) → q_used s ⊆ q_used s' →
  NoDup (running (q_threads s')) → (∀ j pc, Worker j pc ∈ q_threads s' → Worker j pc ∈ q_threads s) →
  (∀ subj id j, Cancelling subj id j ∈ q_threads s' → Cancelling subj id j ∈ q_threads s ∨ jobs s !! id = Some j) → sound s'.
Proof.
  intros [Hu Hk [Hnd He] Hkn Hc] Hf Hun Hsub Hnd' Hw Hcan. split.
  - intros k row' Hr. destruct (Hf _ _ Hr) as (row & Hrow & _). eauto.
  - by eapply follows_keyed.
  - split; [done|]. intros j pc Hj. pose proof (Hw j pc Hj) as Hj'. destruct (He j pc Hj') as [Hs Hr]. split; [done|].
    eapply run_row_follows; [exact Hf| |exact Hr]. apply Hun, elem_of_running. eauto.
  - eauto.
  - intros subj id j Hj. destruct (Hcan _ _ _ Hj) as [Hj'|Hj'].
    + destruct (Hc _ _ _ Hj') as [? Hrow]. split; [auto|]. intros row' Hr'. destruct (Hf _ _ Hr') as (row & Hr & Hs).
      eapply same_ids_trans; [by apply Hrow|done].
    + pose proof (Hk _ _ Hj') as Hid. rewrite Hid. split; [eauto|]. intros row' Hr'. destruct (Hf _ _ Hr') as (row & Hr & Hs). congruence.
Qed.

Section preserved.
Context `{Env} (cfg : ScanConfig).

Lemma work_table w job pc w' next :
  work w job pc w' next →
  ∃ job', same_ids job job' ∧ rewrote job' (mem_scans (w_mem w)) (mem_scans (w_mem w')) ∧
    ∀ j2 pc2, next = Some (j2, pc2) → progress_of job j2 ∧ sj_Status job' = sj_Status job.
Proof.
  assert (Hsave : ∀ job' w', saved job' w w' → rewrote job' (mem_scans (w_mem w)) (mem_scans (w_mem w'))).
  { intros job' w2 (w1 & E1 & ->). rewrite <- E1. apply saveJob_table. }
  intros [pc0 nx _ _|pc0 nx _ _|pc0 nx w2 j2 _ Hp E|pc0 nx w2 _ E|pc0 nx w2 j2 _ [Hs Hst] Hsv|pc0 w2 j2 Hs _ Hsv].
  1-4: exists job; (split; [done|]); (split; [by left|]); intros ? ? [= <- <-] || done; done.
  - exists j2. split; [done|]. split; [auto|]. by intros ? ? [= <- <-].
  - exists j2. split; [done|]. split; [auto|done].
Qed.

Lemma running_replace ts1 job pc next ts2 :
  (∀ j2 pc2, next = Some (j2, pc2) → progress_of job j2) → NoDup (running (ts1 ++ Worker job pc :: ts2)) →
  NoDup (running (ts1 ++ worker_of next ++ ts2)) ∧
  (∀ j pc2, Worker j pc2 ∈ ts1 ++ worker_of next ++ ts2 → next = Some (j, pc2) ∨ Worker j pc2 ∈ ts1 ++ Worker job pc :: ts2 ∧ sj_ID j ≠ sj_ID job).
Proof.
  intros Hn Hnd. change (Worker job pc :: ts2) with ([Worker job pc] ++ ts2) in *. rewrite !running_app in *.
  assert (Hr : running (worker_of next) = [] ∨ running (worker_of next) = [sj_ID job]).
  { destruct next as [[j2 pc2]|]; [right|by left]. cbn. destruct (Hn j2 pc2 eq_refl) as [(-> & _) _]. done. }
  assert (Hapart : sj_ID job ∉ running ts1 ∧ sj_ID job ∉ running ts2).
  { cbn in Hnd. apply NoDup_app in Hnd as (_ & Hd & Hnd). apply NoDup_cons in Hnd as [? _]. split; [|done].
    intros Hin. apply (Hd _ Hin). left. }
  split.
  - destruct Hr as [->| ->]; [|done]. cbn in *. apply NoDup_app in Hnd as (H1 & Hd & [_ H2]%NoDup_cons). apply NoDup_app. set_solver.
  - intros j pc2 [Hj|[Hj|Hj]%elem_of_app]%elem_of_app.
    + right. split; [set_solver|]. intros E. apply (proj1 Hapart). apply elem_of_running. eauto.
    + left. destruct next as [[j2 pc3]|]; [|by apply elem_of_nil in Hj]. apply list_elem_of_singleton in Hj. by injection Hj as <- <-.
    + right. split; [set_solver|]. intros E. apply (proj2 Hapart). apply elem_of_running. eauto.
Qed.

Lemma sound_work w job pc w' next ts1 ts2 u :
  work w job pc w' next → sound {| q_world := w; q_threads := ts1 ++ Worker job pc :: ts2; q_used := u |} →
  sound {| q_world := w'; q_threads := ts1 ++ worker_of next ++ ts2; q_used := u |} ∧
  ∀ k, k ≠ sj_ID job → mem_scans (w_mem w') !! k = mem_scans (w_mem w) !! k.
Proof.
  intros Hw Hsound. pose proof Hsound as [Hu Hk [Hnd He] Hkn Hc]. unfold jobs in *. cbn in *.
  destruct (He job pc ltac:(set_solver)) as [Hsc Hrow]. destruct (work_table _ _ _ _ _ Hw) as (job' & Hids & Hrw & Hnext).
  assert (Hrow' : ∀ row, mem_scans (w_mem w) !! sj_ID job' = Some row → same_ids job' row).
  { intros row Hr. eapply same_ids_trans; [by apply same_ids_sym|]. apply Hrow. by rewrite (proj1 Hids). }
  destruct (rewrote_cases _ _ _ Hk Hrow' Hrw) as (Hf & Hother & Hown). rewrite <- (proj1 Hids) in Hother, Hown.
  destruct (running_replace ts1 job pc next ts2) as [Hnd' Hthreads]; [intros ? ? E; exact (proj1 (Hnext _ _ E))|exact Hnd|].
  split; [|exact Hother]. split; unfold exclusive, jobs; cbn.
  - intros k row' Hr. destruct (Hf _ _ Hr) as (row & ? & _). eauto.
  - by eapply follows_keyed.
  - split; [done|]. intros j pc2 Hj. destruct (Hthreads _ _ Hj) as [E|[Hj' Hne]].
    + destruct (Hnext _ _ E) as [[Hi Hst] Hst']. split; [unfold scanning; by rewrite Hst|].
      intros row' Hr'. rewrite <- (proj1 Hi) in Hr'. destruct (Hf _ _ Hr') as (row & Hr & Hs). destruct (Hrow _ Hr) as [Hi2 Hst2].
      split; [eapply same_ids_trans; [by apply same_ids_sym|]; by eapply same_ids_trans|].
      destruct Hown as [E2|(j' & E2 & _ & Hst3 & _)]; rewrite E2 in Hr'; [rewrite Hr in Hr'; by injection Hr' as <-|].
      injection Hr' as <-. left. unfold scanning. by rewrite Hst3, Hst'.
    + destruct (He j pc2 Hj') as [Hs Hr]. split; [done|]. eapply run_row_follows; [exact Hf| |exact Hr]. left. by apply Hother.
  - intros j pc2 Hj. destruct (Hthreads _ _ Hj) as [E|[Hj' _]]; [|eauto]. destruct (Hnext _ _ E) as [[(<- & _) _] _]. apply (Hkn job pc). set_solver.
  - intros subj id j Hj. destruct (Hc subj id j) as [? Hrows].
    { destruct next as [[? ?]|]; cbn in Hj; set_solver. }
    split; [done|]. intros row' Hr'. destruct (Hf _ _ Hr') as (row & Hr & Hs). eapply same_ids_trans; [by apply Hrows|done].
Qed.

Lemma sound_insert subj subnetID opts usable w ts1 ts2 u :
  id_at (w_ids w) ∉ u → sound {| q_world := w; q_threads := ts1 ++ Starting subj subnetID opts usable :: ts2; q_used := u |} →
  sound {| q_world := fst (insert_scan cfg subj subnetID opts usable w); q_threads := ts1 ++ ts2; q_used := {[id_at (w_ids w)]} ∪ u |}.
Proof.
  intros Hfresh Hsound. pose proof Hsound as [Hu Hk [Hnd He] Hkn Hc]. unfold jobs in *. cbn [q_world q_threads q_used] in *.
  rewrite running_drop in Hnd by done.
  destruct (insert_scan_table cfg subj subnetID opts usable w) as [E|(j & E & Hid & _)].
  - eapply (sound_follows _ _ Hsound); unfold jobs; cbn [q_world q_threads q_used]; try rewrite E; try done.
    + apply follows_refl.
    + intros k _. by left.
    + set_solver.
    + intros j pc. apply elem_of_drop.
    + intros s i j Hj. left. by apply elem_of_drop.
  - assert (Hkeep : ∀ k, k ∈ u → (<[id_at (w_ids w) := j]> (mem_scans (w_mem w))) !! k = mem_scans (w_mem w) !! k) by (intros k Hin; rewrite lookup_insert_ne; [done|set_solver]).
    split; unfold exclusive, jobs; cbn [q_world q_threads q_used]; rewrite ?E.
    + intros k row [[<- _]|[_ Hr]]%lookup_insert_Some; [set_solver|]. apply Hu in Hr. set_solver.
    + intros k row [[<- <-]|[_ Hr]]%lookup_insert_Some; [done|by apply Hk].
    + split; [done|]. intros j2 pc Hj. apply (elem_of_drop (Starting subj subnetID opts usable)) in Hj. destruct (He _ _ Hj) as [Hs Hr]. split; [done|].
      intros row. rewrite Hkeep by by eapply Hkn. apply Hr.
    + intros j2 pc Hj. apply (elem_of_drop (Starting subj subnetID opts usable)), Hkn in Hj. set_solver.
    + intros s i j2 Hj. apply (elem_of_drop (Starting subj subnetID opts usable)), Hc in Hj as [? Hr]. split; [set_solver|].
      intros row. rewrite Hkeep by done. apply Hr.
Qed.

Lemma sound_claim at_ limit w w' out ts u :
  ClaimDueScanJobs at_ limit w = (w', Ok out) → sound {| q_world := w; q_threads := ts; q_used := u |} →
  sound {| q_world := w'; q_threads := ((λ j, Worker j Claimed) <$> out) ++ ts; q_used := u |} ∧
  ∀ k row, mem_scans (w_mem w) !! k = Some row → isTerminal (sj_Status row) = true → mem_scans (w_mem w') !! k = Some row ∧ k ∉ sj_ID <$> out.
Proof.
  intros Hrun [Hu Hk [Hnd He] Hkn Hc]. unfold jobs in *. cbn [q_world q_threads q_used] in *.
  destruct (ClaimDueScanJobs_spec _ _ _ _ _ Hk Hrun) as (t & due & -> & Hnd2 & Hin & Hout & _).
  assert (Hpend : ∀ j, j ∈ due → sj_Status j = ScanPending).
  { intros j Hj. destruct (Hin j Hj) as (_ & Hd & _). unfold is_due in Hd. apply andb_true_iff in Hd as [Hd _]. by apply String.eqb_eq. }
  assert (Hids : sj_ID <$> (claim t <$> due) = sj_ID <$> due) by (rewrite <- list_fmap_compose; done).
  assert (Hf : follows (mem_scans (w_mem w)) (mem_scans (w_mem w'))).
  { intros k row' Hr'. destruct (decide (k ∈ sj_ID <$> due)) as [(j & -> & Hj)%list_elem_of_fmap|Hno]; [|exists row'; by rewrite <- Hout].
    destruct (Hin j Hj) as (Hr & _ & E). rewrite E in Hr'. injection Hr' as <-. by exists j. }
  assert (Hapart : ∀ j, j ∈ due → sj_ID j ∉ running ts).
  { intros j Hj (o & pc & Ho & E)%elem_of_running. destruct (He o pc Ho) as [_ Hrow]. destruct (Hin j Hj) as (Hr & _). rewrite <- E in Hr.
    destruct (Hrow _ Hr) as [_ [Hs|Hs]]; unfold scanning, cancelled_job in Hs; by rewrite (Hpend j Hj) in Hs. }
  assert (Hrun_ids : running ((λ j, Worker j Claimed) <$> (claim t <$> due)) = sj_ID <$> due).
  { rewrite <- Hids. unfold running. generalize (claim t <$> due). intros l. induction l as [|j l IH]; [done|]. cbn. by f_equal. }
  split; [split; unfold exclusive, jobs; cbn [q_world q_threads q_used]|].
  - intros k row' Hr. destruct (Hf _ _ Hr) as (row & ? & _). eauto.
  - by eapply follows_keyed.
  - split.
    + rewrite running_app, Hrun_ids. apply NoDup_app. split; [done|]. split; [|done]. intros k (j & -> & Hj)%list_elem_of_fmap. by apply Hapart.
    + intros o pc [Ho|Ho]%elem_of_app.
      * apply list_elem_of_fmap in Ho as (o' & [= -> ->] & Ho). apply list_elem_of_fmap in Ho as (j & -> & Hj). split; [done|].
        intros row Hr. destruct (Hin j Hj) as (_ & _ & E). cbn in Hr. rewrite E in Hr. injection Hr as <-. split; [done|by left].
      * destruct (He o pc Ho) as [Hs Hr]. split; [done|]. eapply run_row_follows; [exact Hf| |exact Hr]. left. apply Hout.
        intros (j & E & Hj)%list_elem_of_fmap. apply (Hapart j Hj). apply elem_of_running. eauto.
  - intros o pc [Ho|Ho]%elem_of_app; [|eauto]. apply list_elem_of_fmap in Ho as (o' & [= -> ->] & Ho). apply list_elem_of_fmap in Ho as (j & -> & Hj).
    cbn. destruct (Hin j Hj) as (Hr & _). eauto.
  - intros s i j [Hj|Hj]%elem_of_app; [by apply list_elem_of_fmap in Hj as (? & [=] & _)|]. destruct (Hc _ _ _ Hj) as [? Hrows]. split; [done|].
    intros row' Hr'. destruct (Hf _ _ Hr') as (row & Hr & Hs). eapply same_ids_trans; [by apply Hrows|done].
  - intros k row Hr Ht. rewrite Hids. assert (Hno : k ∉ sj_ID <$> due).
    { intros (j & -> & Hj)%list_elem_of_fmap. destruct (Hin j Hj) as (Hr' & _). rewrite Hr in Hr'. injection Hr' as ->. by rewrite (Hpend j Hj) in Ht. }
    split; [by rewrite Hout|done].
Qed.
End preserved.

Section reachable.
Context `{Env} (cfg : ScanConfig).

(** A cancellation rewrites one row, as cancelled, or nothing. *)
Lemma cancel_effect subj id job w ts1 ts2 u :
  sound {| q_world := w; q_threads := ts1 ++ Cancelling subj id job :: ts2; q_used := u |} →
  let T := mem_scans (w_mem w) in let T' := mem_scans (w_mem (fst (cancel_write subj id job w))) in
  follows T T' ∧ ∀ k, T' !! k = T !! k ∨ ∃ row', T' !! k = Some row' ∧ cancelled_job row'.
Proof.
  intros [Hu Hk He Hkn Hc] T T'. destruct (Hc subj id job ltac:(set_solver)) as [_ Hrow]. unfold jobs in Hrow. cbn in Hrow.
  unfold T, T'. destruct (cancel_write_table subj id job w) as [->|(ex & j & Hex & -> & Hs & Hcan)]; [split; [apply follows_refl|auto]|].
  split.
  - intros k row' [[<- <-]|[_ Hr]]%lookup_insert_Some; [|by exists row']. exists ex. split; [done|].
    eapply same_ids_trans; [apply same_ids_sym, Hrow, Hex|done].
  - intros k. destruct (decide (k = sj_ID job)) as [->|Hne]; [right; exists j; by rewrite lookup_insert_eq|left; by rewrite lookup_insert_ne].
Qed.

Lemma sound_step s s' : step cfg s s' → sound s → sound s'.
Proof.
  intros Hst Hs. destruct Hst as [subj sid opts w w' us ts u Ha|subj sid opts us w ts1 ts2 u Hid|subj id w w' job ts u Hc|subj id job w ts1 ts2 u|at_ lim w w' out ts u Hcl|job pc next w w' ts1 ts2 u Hw|w w' ts u u' Hd Hu].
  - apply admit_scan_table in Ha as [-> _]. apply (sound_follows _ _ Hs); cbn; [apply follows_refl|intros; by left|done|apply so_excl in Hs; apply Hs|set_solver|set_solver].
  - by apply sound_insert.
  - apply cancel_read_table in Hc as [-> Hj]. apply (sound_follows _ _ Hs); cbn; [apply follows_refl|intros; by left|done|apply so_excl in Hs; apply Hs|set_solver|].
    intros s i j [[= -> -> ->]|Hin]%elem_of_cons; [by right|by left].
  - destruct (cancel_effect _ _ _ _ _ _ _ Hs) as [Hf Hk]. apply (sound_follows _ _ Hs); cbn [q_world q_threads q_used]; unfold jobs; cbn [q_world].
    + exact Hf.
    + intros k _. destruct (Hk k) as [?|?]; [by left|by right; right].
    + done.
    + apply so_excl in Hs as [Hnd _]. cbn [q_threads] in Hnd. by rewrite running_drop in Hnd.
    + intros j pc. apply elem_of_drop.
    + intros s i j Hj. left. by apply elem_of_drop.
  - by eapply sound_claim.
  - by eapply sound_work.
  - apply (sound_follows _ _ Hs); cbn [q_world q_threads q_used]; unfold jobs; cbn [q_world];
      [by apply follows_deleted|intros k _; destruct (Hd k); [by left|by right; left]|done|apply so_excl in Hs; apply Hs|done|by left].
Qed.

Lemma sound_start : sound queue_start.
Proof.
  split; cbn; [by intros k row ?|by intros k row ?| |by intros ? ? ?%elem_of_nil|by intros ? ? ? ?%elem_of_nil].
  split; cbn; [constructor|by intros ? ? ?%elem_of_nil].
Qed.

Lemma sound_steps s s' : rtc (step cfg) s s' → sound s → sound s'.
Proof. induction 1 as [|s s1 s2 Hst _ IH]; [done|]. intros Hs. by eapply IH, sound_step. Qed.

(** A job that is over stays over. *)
Lemma settled_step k s s' : sound s → step cfg s s' → settled k s → settled k s'.
Proof.
  intros Hs Hst (Hk & Hrun & Hrow). unfold settled, jobs in *.
  destruct Hst as [subj sid opts w w' us ts u Ha|subj sid opts us w ts1 ts2 u Hid|subj id w w' job ts u Hc|subj id job w ts1 ts2 u|at_ lim w w' out ts u Hcl|job pc next w w' ts1 ts2 u Hw|w w' ts u u' Hd Hu];
    cbn [q_world q_threads q_used] in *.
  - by apply admit_scan_table in Ha as [-> _].
  - rewrite running_drop in Hrun by done. split_and!; [set_solver|done|].
    destruct (insert_scan_table cfg subj sid opts us w) as [->|(j & -> & _)]; [done|]. intros row. rewrite lookup_insert_ne; [apply Hrow|set_solver].
  - by apply cancel_read_table in Hc as [-> _].
  - rewrite running_drop in Hrun by done. split_and!; [done|done|]. destruct (cancel_effect _ _ _ _ _ _ _ Hs) as [_ Hcan]. intros row Hr.
    destruct (Hcan k) as [E|(row' & E & Hc)]; [rewrite E in Hr; by apply Hrow|]. rewrite E in Hr. injection Hr as <-. by rewrite Hc.
  - destruct (sound_claim _ _ _ _ _ _ _ Hcl Hs) as [Hs' Hkeep]. split; [done|].
    assert (Hout : k ∉ running ((λ j, Worker j Claimed) <$> out)).
    { intros (j & pc & Hj & <-)%elem_of_running. apply list_elem_of_fmap in Hj as (j' & [= -> ->] & Hj).
      destruct (ClaimDueScanJobs_spec _ _ _ _ _ (so_keyed _ Hs) Hcl) as (t & due & -> & _ & Hin & _). apply list_elem_of_fmap in Hj as (j0 & -> & Hj0).
      destruct (Hin j0 Hj0) as (Hr & Hd & _). pose proof (Hrow _ Hr) as Ht. unfold is_due in Hd. apply andb_true_iff in Hd as [Hd _].
      apply String.eqb_eq in Hd. by rewrite Hd in Ht. }
    split; [rewrite running_app; by intros [?|?]%elem_of_app|]. intros row' Hr'.
    destruct (ClaimDueScanJobs_spec _ _ _ _ _ (so_keyed _ Hs) Hcl) as (t & due & -> & _ & Hin & Ho & _).
    destruct (decide (k ∈ sj_ID <$> due)) as [(j & -> & Hj)%list_elem_of_fmap|Hno]; [|apply Hrow; by rewrite <- Ho].
    destruct Hout. apply elem_of_running. exists (claim t j), Claimed. split; [|done]. exact (list_elem_of_fmap_2 (λ j, Worker j Claimed) _ _ (list_elem_of_fmap_2 (claim t) _ _ Hj)).
  - destruct (sound_work _ _ _ _ _ _ _ _ Hw Hs) as [_ Hother]. assert (Hne : k ≠ sj_ID job).
    { intros ->. apply Hrun. apply elem_of_running. exists job, pc. set_solver. }
    split; [done|]. split; [|intros row; rewrite Hother by done; apply Hrow].
    intros (j & pc2 & Hj & <-)%elem_of_running. destruct (work_table _ _ _ _ _ Hw) as (job' & _ & _ & Hn).
    destruct (running_replace ts1 job pc next ts2) as [_ Hth]; [intros ? ? E; exact (proj1 (Hn _ _ E))|exact (proj1 (so_excl _ Hs))|].
    destruct (Hth _ _ Hj) as [E|[Hj' _]]; [|apply Hrun, elem_of_running; eauto]. destruct (Hn _ _ E) as [[(E2 & _) _] _]. congruence.
  - split_and!; [by apply Hu|done|]. intros row Hr. destruct (Hd k) as [E|E]; [rewrite E in Hr; by apply Hrow|congruence].
Qed.

Lemma settled_steps k s s' : sound s → rtc (step cfg) s s' → settled k s → settled k s'.
Proof. intros Hs Hr. induction Hr as [|s s1 s2 Hst _ IH]; [done|]. intros Hk. apply IH; [by eapply sound_step|by eapply settled_step]. Qed.

(** ** Without a call between check and write *)

(** A serial step is made of steps. *)
Lemma serial_steps s s' : serial cfg s s' → rtc (step cfg) s s'.
Proof.
  intros [subj sid opts w ts u Hid|subj id w ts u|at_ lim w w' out ts u Hcl|job pc pc' w ts1 ts2 u Hc Ho|job w ts1 ts2 u Ho|job pc pc' next w w' ts1 ts2 u Hc Ho Hw|job pc pc' next w w' ts1 ts2 u Hc Hw|w w' ts u u' Hd Hu].
  - rewrite StartScan_cut. destruct (admit_scan cfg subj sid w) as [w1 [us|e]] eqn:Ea.
    + pose proof (admit_scan_table _ _ _ _ _ _ Ea) as [-> _]. rewrite (bind_Ok _ _ _ _ _ Ea).
      eapply rtc_l; [by apply (step_admit cfg subj sid opts)|]. apply rtc_once. exact (step_insert cfg subj sid opts us w [] ts u Hid).
    + rewrite (bind_Err _ _ _ _ _ Ea). cbn [fst]. apply rtc_once. apply step_other; [|set_solver]. intros k. left. f_equal.
      assert (Hk : keeps mem_scans (admit_scan cfg subj sid)).
      { unfold admit_scan. repeat (apply (keeps_bind mem_scans); [first [apply keeps_lift|apply GetSubnet_keeps|unfold ActiveScanForSubnet; frame]|intros]).
        destruct (_ =? 6); [apply keeps_throw|]. destruct (_ <? _); [apply keeps_throw|].
        apply (keeps_bind mem_scans); [unfold ActiveScanForSubnet; frame|]. intros []; [apply keeps_throw|apply keeps_ret]. }
      specialize (Hk w). by rewrite Ea in Hk.
  - rewrite CancelScan_cut. destruct (cancel_read subj id w) as [w1 [job|e]] eqn:Ec.
    + pose proof (cancel_read_table _ _ _ _ _ Ec) as [-> _]. rewrite (bind_Ok _ _ _ _ _ Ec).
      eapply rtc_l; [by apply (step_cancel_read cfg subj id)|]. apply rtc_once. exact (step_cancel_write cfg subj id job w [] ts u).
    + rewrite (bind_Err _ _ _ _ _ Ec). cbn [fst]. apply rtc_once. apply step_other; [|done]. intros k. left. f_equal.
      assert (Hk : keeps mem_scans (cancel_read subj id)) by (unfold cancel_read; apply (keeps_bind mem_scans); [apply keeps_lift|intros; apply GetScanJob_keeps]).
      specialize (Hk w). by rewrite Ec in Hk.
  - apply rtc_once. by eapply step_claim.
  - apply rtc_once. exact (step_work cfg job pc None w w ts1 ts2 u (work_stop _ _ _ _ Hc Ho)).
  - apply rtc_once. exact (step_work cfg job Claimed (Some (job, Loading)) w w ts1 ts2 u (work_go _ _ Claimed Loading eq_refl Ho)).
  - eapply rtc_l; [exact (step_work cfg job pc (Some (job, pc')) w w ts1 ts2 u (work_go _ _ _ _ Hc Ho))|].
    apply rtc_once. by apply (step_work cfg job pc').
  - apply rtc_once. by apply (step_work cfg job pc).
  - apply rtc_once. by apply step_other.
Qed.

(** Rows may change as long as they keep their ids and none becomes active. *)
Lemma one_active_rows T T' : one_active T →
  (∀ k j', T' !! k = Some j' → active j' = true → ∃ j, T !! k = Some j ∧ same_ids j j' ∧ active j = true) → one_active T'.
Proof.
  intros Hu Hrows k1 k2 j1 j2 H1 H2 A1 A2 Et Es. destruct (Hrows _ _ H1 A1) as (i1 & I1 & (_ & T1 & S1) & B1).
  destruct (Hrows _ _ H2 A2) as (i2 & I2 & (_ & T2 & S2) & B2). apply (Hu k1 k2 i1 i2); congruence.
Qed.

(** Adding a job of a subnet that has no active one. *)
Lemma one_active_start T j : one_active T → (∀ k x, T !! k = Some x → active_for (sj_TenantID j) (sj_SubnetID j) x = false) →
  one_active (<[sj_ID j := j]> T).
Proof.
  intros Hu Hn.
  assert (Hno : ∀ k x, T !! k = Some x → active x = true → sj_TenantID x = sj_TenantID j → sj_SubnetID x = sj_SubnetID j → False).
  { intros k x Hx Ax Et Es. specialize (Hn k x Hx). unfold active_for in Hn. rewrite Et, Es, !String.eqb_refl, Ax in Hn. done. }
  intros k1 k2 j1 j2 [[<- <-]|[N1 H1]]%lookup_insert_Some [[<- <-]|[N2 H2]]%lookup_insert_Some A1 A2 Et Es; [done| | |eauto].
  - destruct (Hno k2 j2); done.
  - destruct (Hno k1 j1); done.
Qed.

(** A worker that has just seen its job not cancelled writes over an active
    row, or over none. *)
Lemma one_active_work w job pc w' next ts1 ts2 u :
  sound {| q_world := w; q_threads := ts1 ++ Worker job pc :: ts2; q_used := u |} → observeCancel job w = (w, Ok false) →
  ∀ pc', work w job pc' w' next → one_active (mem_scans (w_mem w)) → one_active (mem_scans (w_mem w')).
Proof.
  intros Hs Ho pc' Hw Hu. destruct (so_excl _ Hs) as [_ He]. destruct (He job pc ltac:(set_solver)) as [_ Hrow]. unfold run_row, jobs in Hrow. cbn in Hrow.
  destruct (work_table _ _ _ _ _ Hw) as (job' & Hids & [->|(ex & j' & Hex & _ & -> & Hs' & _)] & _); [done|].
  rewrite <- (proj1 Hids) in Hex |- *. apply (one_active_rows _ _ Hu). intros k j [[<- <-]|[_ Hj]]%lookup_insert_Some Ha; [|by exists j].
  destruct (Hrow ex Hex) as [Hi Hst]. exists ex. split; [done|].
  split; [exact (same_ids_trans _ _ _ (same_ids_sym _ _ Hi) (same_ids_trans _ _ _ Hids Hs'))|].
  destruct Hst as [Hst|Hst]; [unfold active; unfold scanning in Hst; by rewrite Hst, orb_true_r|]. exfalso.
  unfold observeCancel, try, GetScanJob, mbind, M_bind, mem in Ho. cbn in Ho. rewrite Hex, <- (proj1 (proj2 Hi)), String.eqb_refl in Ho. cbn in Ho.
  rewrite Hst in Ho. done.
Qed.

Lemma one_active_serial s s' : serial cfg s s' → sound s → one_active (jobs s) → one_active (jobs s').
Proof.
  intros Hst Hs Hu. unfold jobs in *.
  destruct Hst as [subj sid opts w ts u Hid|subj id w ts u|at_ lim w w' out ts u Hcl|job pc pc' w ts1 ts2 u Hc Ho|job w ts1 ts2 u Ho|job pc pc' next w w' ts1 ts2 u Hc Ho Hw|job pc pc' next w w' ts1 ts2 u Hc Hw|w w' ts u u' Hd Hsub];
    cbn [q_world] in *; try done.
  - destruct (StartScan_table cfg subj sid opts _ w eq_refl) as [(e & _ & ->)|(j & _ & -> & _ & _ & Hno)]; [done|by apply one_active_start].
  - rewrite CancelScan_cut. destruct (cancel_read subj id w) as [w1 [job|e]] eqn:Ec.
    + pose proof (cancel_read_table _ _ _ _ _ Ec) as [-> Hj]. rewrite (bind_Ok _ _ _ _ _ Ec).
      destruct (cancel_write_table subj id job w) as [->|(ex & j & Hex & -> & _ & Hcan)]; [done|].
      apply (one_active_rows _ _ Hu). intros k j' [[<- <-]|[_ Hr]]%lookup_insert_Some Ha; [unfold active in Ha; by rewrite Hcan in Ha|by exists j'].
    + rewrite (bind_Err _ _ _ _ _ Ec). cbn [fst].
      assert (Hk : keeps mem_scans (cancel_read subj id)) by (unfold cancel_read; apply (keeps_bind mem_scans); [apply keeps_lift|intros; apply GetScanJob_keeps]).
      specialize (Hk w). rewrite Ec in Hk. cbn in Hk. by rewrite Hk.
  - destruct (ClaimDueScanJobs_spec _ _ _ _ _ (so_keyed _ Hs) Hcl) as (t & due & -> & _ & Hin & Hout & _). cbn in Hin, Hout.
    apply (one_active_rows _ _ Hu). intros k j' Hr Ha. destruct (decide (k ∈ sj_ID <$> due)) as [(j & -> & Hj)%list_elem_of_fmap|Hno].
    + destruct (Hin j Hj) as (Hr0 & Hdue & E). rewrite E in Hr. injection Hr as <-. exists j. split; [done|]. split; [done|].
      unfold is_due in Hdue. apply andb_true_iff in Hdue as [Hdue _]. unfold active. by rewrite Hdue.
    + exists j'. by rewrite <- Hout.
  - by eapply one_active_work.
  - destruct Hw as [pc nx Hc' _|pc nx Hc' _|pc nx w2 j2 _ _ ->|pc nx w2 _ ->|pc nx w2 j2 Hc' _ _|pc w2 j2 _ Hc' _]; try done; by destruct pc.
  - apply (one_active_rows _ _ Hu). intros k j Hr Ha. exists j. destruct (Hd k) as [E|E]; [by rewrite <- E|congruence].
Qed.

Lemma serial_one_active s s' : rtc (serial cfg) s s' → sound s → one_active (jobs s) → one_active (jobs s').
Proof.
  induction 1 as [|s s1 s2 Hst _ IH]; [done|]. intros Hs Hu. apply IH; [|by eapply one_active_serial].
  eapply sound_steps; [by apply serial_steps|done].
Qed.
End reachable.

(** C7: the scan queue under interleaving. Handlers that start and cancel
    scans, batches that claim them, workers that run them and other handlers
    run in any order, interleaved at every read and write of the job table (the pieces
    make up the code: [StartScan_cut], [CancelScan_cut], [processJob_cut]):
    no job is ever run by two workers, the row of a job being run says scanning
    unless it was cancelled or deleted, and a job that is over, finished or
    cancelled with nobody running it, is never run or queued again. When in
    addition no other call comes between a check of the table and the write it
    guards (the check for an active scan in [StartScan], the read in
    [CancelScan], the cancellation checks of the worker), at most one scan of
    a subnet is pending or running; [start_race] shows a reachable state with
    two otherwise. *)
Theorem scan_queue_safe `{Env} cfg :
  (∀ s, rtc (step cfg) queue_start s →
     exclusive s ∧ ∀ k s', settled k s → rtc (step cfg) s s' → settled k s') ∧
  (∀ s, rtc (serial cfg) queue_start s → one_active (jobs s)).
Proof.
  split.
  - intros s Hr. pose proof (sound_steps cfg _ _ Hr sound_start) as Hs. split; [by apply so_excl|].
    intros k s' Hk Hr'. by eapply settled_steps.
  - intros s Hr. eapply (serial_one_active cfg); [exact Hr|apply sound_start|]. by intros k1 k2 j1 j2 ?.
Qed.
