(* ===== verification/ScanRun.v ===== *)
(** * A scan from start to end

    What starting, running, retrying and cancelling a scan does, exactly: the
    admission rule of [StartScan], the completion of a job whose subnet can be
    swept (every live host recorded, the counters true to the store), the
    retry schedule, and what becomes of a cancellation. *)

From S2P Require Import Prelude GoNet GoIP GoText Ipnet Models Store MemNet MemDev MemScan MemInv Events Authz AddressProps Snmpcred Json Sealed AuditLog Subnets StoreProps ArpPlan Snmp Scan ScanProps ScanQueue.

(** ** Recording the live hosts *)

(** An external call that leaves the store alone and draws no identifier;
    clock readings may be taken meanwhile. *)
Definition quiet {A} (f : Ext A) : Prop :=
  ∀ w, w_mem (fst (f w)) = w_mem w ∧ w_ids (fst (f w)) = w_ids w ∧ (w_ticks w ≤ w_ticks (fst (f w)))%nat.

Definition with_addrs (m : Mem) (A : gmap string IPAddress) : Mem := {| m with mem_addrs := A |}.

(** The row's last sighting is one of the clock readings from the [lo]-th up
    to the [hi]-th. *)
Definition seen_during `{Env} (lo hi : nat) (a : IPAddress) : Prop :=
  ∃ i, (lo ≤ i < hi)%nat ∧ ad_LastSeen a = Some (env_clock i).

(** Only the columns a scan observes differ. *)
Definition only_observed (a a' : IPAddress) : Prop :=
  ∃ hn rev st ls t, a' = {| a with ad_Hostname := hn; ad_HasReverseDNS := rev; ad_Status := st; ad_LastSeen := ls; ad_UpdatedAt := t |}.

(** The address rows after recording [ips] for [job] between two clock
    readings. *)
Record recorded `{Env} (job : IPScanJob) (ips : list string) (lo hi : nat) (A A' : gmap string IPAddress) : Prop := {
  rec_seen : ∀ ip, ip ∈ ips → ∃ k a, A' !! k = Some a ∧ has_address (sj_TenantID job) ip a = true ∧ seen_during lo hi a ∧ ad_Status a ≠ IPOffline;
  rec_kept : ∀ k a, A !! k = Some a → ∃ a', A' !! k = Some a' ∧ only_observed a a' ∧
    ((∀ ip, ip ∈ ips → has_address (sj_TenantID job) ip a = false) → a' = a) ∧
    (ad_LastSeen a' = ad_LastSeen a ∨ seen_during lo hi a') ∧
    (ad_Status a' = ad_Status a ∨ ad_Status a = IPOffline ∧ ad_Status a' = IPActive);
  rec_new : ∀ k a, A' !! k = Some a → A !! k = None → ad_TenantID a = sj_TenantID job ∧ ad_Address a ∈ ips ∧
    ad_SubnetID a = sj_SubnetID job ∧ ad_Status a = IPActive ∧ seen_during lo hi a
}.

Lemma only_observed_refl a : only_observed a a.
Proof. exists (ad_Hostname a), (ad_HasReverseDNS a), (ad_Status a), (ad_LastSeen a), (ad_UpdatedAt a). by destruct a. Qed.
Lemma only_observed_trans a b c : only_observed a b → only_observed b c → only_observed a c.
Proof. intros (h & r & s & l & t & ->) (h' & r' & s' & l' & t' & ->). by exists h', r', s', l', t'. Qed.
Lemma only_observed_address tn ip a b : only_observed a b → has_address tn ip b = has_address tn ip a.
Proof. by intros (h & r & s & l & t & ->). Qed.

Lemma seen_during_mono `{Env} lo hi lo' hi' a : (lo' ≤ lo)%nat → (hi ≤ hi')%nat → seen_during lo hi a → seen_during lo' hi' a.
Proof. intros ? ? (i & ? & Hi). exists i. split; [lia|done]. Qed.

Lemma recorded_mono `{Env} job job' ips lo hi lo' hi' A A' :
  sj_TenantID job = sj_TenantID job' → sj_SubnetID job = sj_SubnetID job' → (lo' ≤ lo)%nat → (hi ≤ hi')%nat →
  recorded job ips lo hi A A' → recorded job' ips lo' hi' A A'.
Proof.
  intros Et Es Hlo Hhi [Rs Rk Rn]. rewrite Et, Es in *. split.
  - intros ip Hip. destruct (Rs ip Hip) as (k & a & ? & ? & ? & ?). exists k, a. split_and!; try done. by eapply seen_during_mono.
  - intros k a Hk. destruct (Rk k a Hk) as (a' & ? & ? & ? & Hls & ?). exists a'. split_and!; try done.
    destruct Hls; [by left|right; by eapply seen_during_mono].
  - intros k a Hk Hn. destruct (Rn k a Hk Hn) as (? & ? & ? & ? & ?). split_and!; try done. by eapply seen_during_mono.
Qed.

Section record_hosts.
Context `{Env} (revLookup : string → Ext string) (job : IPScanJob).
Hypothesis lookup_quiet : ∀ ip, quiet (revLookup ip).

Lemma try_FindAddress tn ad w : ∃ r, try (FindAddress tn ad) w = (w, Ok r).
Proof. unfold try, FindAddress, mbind, M_bind, mem. destruct (findAddrLocked (w_mem w) tn ad) as [[k a]|]; eexists; reflexivity. Qed.

(** One host: a new row under the next identifier, or the row it has. *)
Lemma recordHost_run ip w : mem_failNext (w_mem w) = ∅ →
  ∃ w' c A' i hn, recordHost revLookup job ip w = (w', Ok c) ∧ w_mem w' = with_addrs (w_mem w) A' ∧ (w_ticks w ≤ i < w_ticks w')%nat ∧
  let t := env_clock i in
  let obs := {| zero_IPAddress with ad_TenantID := sj_TenantID job; ad_Address := ip; ad_SubnetID := sj_SubnetID job; ad_Hostname := hn;
                ad_Status := IPActive; ad_AddressType := AddrHost; ad_LastSeen := Some t; ad_HasReverseDNS := negb (is_empty hn) |} in
  match findAddrLocked (w_mem w) (sj_TenantID job) ip with
  | Some (k, ex) => c = false ∧ w_ids w' = w_ids w ∧ ∃ t2, A' = <[k := observe_addr ex obs t2]> (mem_addrs (w_mem w))
  | None => c = true ∧ w_ids w' = S (w_ids w) ∧ ∃ a, A' = <[id_at (w_ids w) := a]> (mem_addrs (w_mem w)) ∧
      ad_TenantID a = sj_TenantID job ∧ ad_Address a = ip ∧ ad_SubnetID a = sj_SubnetID job ∧ ad_Status a = IPActive ∧ ad_LastSeen a = Some t
  end.
Proof.
  intros Hf. unfold recordHost.
  assert (Hl : ∃ w1 hn, (if sj_SkipReverseDNS job then mret ""%string else ext (revLookup ip)) w = (w1, Ok hn) ∧ w_mem w1 = w_mem w ∧ w_ids w1 = w_ids w ∧ (w_ticks w ≤ w_ticks w1)%nat).
  { destruct (sj_SkipReverseDNS job); [by eexists _, _|]. unfold ext. destruct (lookup_quiet ip w) as (? & ? & ?). destruct (revLookup ip w) as [w1 hn]. by eexists _, _. }
  destruct Hl as (w1 & hn & El & Hm1 & Hi1 & Ht1). erewrite bind_Ok by exact El. erewrite bind_Ok by reflexivity.
  match goal with |- context [UpsertAddressByAddress ?x] => set (obs := x) end.
  set (w2 := {| w_mem := w_mem w1; w_ids := w_ids w1; w_ticks := S (w_ticks w1); w_events := w_events w1 |}).
  assert (Hu : ∃ w3 c A', UpsertAddressByAddress obs w2 = (w3, Ok c) ∧ w_mem w3 = with_addrs (w_mem w) A' ∧ w_ticks w3 = S (S (w_ticks w1)) ∧
    match findAddrLocked (w_mem w) (sj_TenantID job) ip with
    | Some (k, ex) => c = false ∧ w_ids w3 = w_ids w ∧ ∃ t2, A' = <[k := observe_addr ex obs t2]> (mem_addrs (w_mem w))
    | None => c = true ∧ w_ids w3 = S (w_ids w) ∧ ∃ a, A' = <[id_at (w_ids w) := a]> (mem_addrs (w_mem w)) ∧
        ad_TenantID a = sj_TenantID job ∧ ad_Address a = ip ∧ ad_SubnetID a = sj_SubnetID job ∧ ad_Status a = IPActive ∧ ad_LastSeen a = ad_LastSeen obs
    end).
  { unfold UpsertAddressByAddress. rewrite (bind_Ok _ _ w2 w2 ()) by (apply fail_unarmed; cbn; rewrite Hm1, Hf; set_solver).
    erewrite bind_Ok by reflexivity. erewrite bind_Ok by reflexivity. cbn [w_mem ad_TenantID ad_Address obs w2]. rewrite Hm1.
    destruct (findAddrLocked (w_mem w) (sj_TenantID job) ip) as [[k ex]|].
    - eexists _, _, _. split; [reflexivity|]. unfold with_addrs, w2; cbn. rewrite Hm1. split; [reflexivity|]. do 2 (split; [done|]). split; [done|]. by eexists.
    - eexists _, _, _. split; [reflexivity|]. unfold with_addrs, w2; cbn. rewrite Hm1, Hi1. split; [reflexivity|]. do 2 (split; [done|]). split; [done|]. by eexists. }
  destruct Hu as (w3 & c & A' & Eu & Hm3 & Ht3 & Hcase).
  erewrite bind_Ok by (unfold catch_map; rewrite Eu; reflexivity).
  destruct (try_FindAddress (sj_TenantID job) ip w3) as (r & Ef). erewrite bind_Ok by exact Ef. erewrite bind_Ok by reflexivity.
  eexists _, c, A', (w_ticks w1), hn. split; [reflexivity|]. split; [exact Hm3|]. split; [cbn; lia|]. cbv zeta.
  destruct (findAddrLocked (w_mem w) (sj_TenantID job) ip) as [[k ex]|]; exact Hcase.
Qed.

Lemma findAddr_Some m tn ad k ex : findAddrLocked m tn ad = Some (k, ex) → mem_addrs m !! k = Some ex ∧ has_address tn ad ex = true.
Proof. apply map_find_Some. Qed.

(** The row of a recorded host: new under the next identifier, or seen again. *)
Definition host_row (A : gmap string IPAddress) (ip : string) (c : bool) (w w1 : World) (k0 : string) (a0 : IPAddress) : Prop :=
  has_address (sj_TenantID job) ip a0 = true ∧ seen_during (w_ticks w) (w_ticks w1) a0 ∧
  match A !! k0 with
  | Some ex => c = false ∧ w_ids w1 = w_ids w ∧ only_observed ex a0 ∧
      ((ad_Status a0 = ad_Status ex ∧ ad_Status ex ≠ IPOffline) ∨ ad_Status ex = IPOffline ∧ ad_Status a0 = IPActive)
  | None => c = true ∧ w_ids w1 = S (w_ids w) ∧ k0 = id_at (w_ids w) ∧ ad_SubnetID a0 = sj_SubnetID job ∧ ad_Status a0 = IPActive
  end.

Lemma recordHost_row ip w : mem_failNext (w_mem w) = ∅ → mem_addrs (w_mem w) !! id_at (w_ids w) = None →
  ∃ w1 c k0 a0, recordHost revLookup job ip w = (w1, Ok c) ∧ w_mem w1 = with_addrs (w_mem w) (<[k0 := a0]> (mem_addrs (w_mem w))) ∧
    host_row (mem_addrs (w_mem w)) ip c w w1 k0 a0.
Proof.
  intros Hf Hnone. destruct (recordHost_run ip w Hf) as (w1 & c & A1 & i & hn & E & Hm1 & Hwin & Hcase). cbv zeta in Hcase.
  destruct (findAddrLocked (w_mem w) (sj_TenantID job) ip) as [[k ex]|] eqn:Ef.
  - destruct Hcase as (-> & Hi & t2 & ->). apply map_find_Some in Ef as [Hk Hex]. eexists w1, _, k, _. split; [exact E|]. split; [exact Hm1|].
    split; [exact Hex|]. split; [exists i; by split|]. rewrite Hk. split_and!; [done|done| |].
    + unfold observe_addr. cbn. eexists _, _, _, _, _. reflexivity.
    + cbn. rewrite andb_true_r. destruct (String.eqb_spec (ad_Status ex) IPOffline); [right|left]; done.
  - destruct Hcase as (-> & Hi & x & -> & Ht & Ha & Hs & Hst & Hl). eexists w1, _, _, x. split; [exact E|]. split; [exact Hm1|].
    split; [unfold has_address; by rewrite Ht, Ha, !String.eqb_refl|]. split; [exists i; by split|]. by rewrite Hnone.
Qed.

Lemma has_address_eq tn ad a : has_address tn ad a = true ↔ ad_TenantID a = tn ∧ ad_Address a = ad.
Proof. unfold has_address. by rewrite andb_true_iff, !String.eqb_eq. Qed.

Lemma host_row_fresh A ip c w w1 k0 a0 n : A = mem_addrs (w_mem w) → host_row A ip c w w1 k0 a0 → w_mem w1 = with_addrs (w_mem w) (<[k0 := a0]> A) →
  fresh_ids (w_mem w) (w_ids w) (S n) → fresh_ids (w_mem w1) (w_ids w1) n.
Proof.
  intros -> (_ & _ & Hcase) Hm1 Hfresh. rewrite Hm1. destruct (mem_addrs (w_mem w) !! k0) as [ex|] eqn:Ek.
  - destruct Hcase as (_ & -> & _). destruct Hfresh as [Hn Hj]. split; [|intros i j ? ?; apply Hj; lia].
    intros i Hi. cbn. rewrite lookup_insert_ne; [apply Hn; lia|]. intros ->. specialize (Hn i ltac:(lia)). congruence.
  - destruct Hcase as (_ & -> & -> & _). exact (fresh_ids_next (w_mem w) (w_ids w) n a0 Hfresh).
Qed.
Lemma host_row_size A ip c w w1 k0 a0 : host_row A ip c w w1 k0 a0 →
  Z.of_nat (size (<[k0 := a0]> A)) = Z.of_nat (size A) + (if c then 1 else 0).
Proof.
  intros (_ & _ & Hcase). destruct (A !! k0) as [ex|] eqn:Ek; destruct Hcase as (-> & _).
  - rewrite map_size_insert_Some by eauto. lia.
  - rewrite map_size_insert_None by done. lia.
Qed.

(** A row that was seen stays on line. *)
Lemma host_row_online A ip c w w1 k0 a0 : host_row A ip c w w1 k0 a0 → ad_Status a0 ≠ IPOffline.
Proof. intros (_ & _ & Hcase). destruct (A !! k0); [destruct Hcase as (_ & _ & _ & [[-> ?]|[_ ->]])|destruct Hcase as (_ & _ & _ & _ & ->)]; done. Qed.

(** Recording one host and then the others records them all. *)
Lemma recorded_cons A A2 ip ips c w w1 hi k0 a0 :
  (w_ticks w ≤ w_ticks w1)%nat → (w_ticks w1 ≤ hi)%nat →
  host_row A ip c w w1 k0 a0 → recorded job ips (w_ticks w1) hi (<[k0 := a0]> A) A2 → recorded job (ip :: ips) (w_ticks w) hi A A2.
Proof.
  intros Hlo Hhi Hrow Hrec. pose proof (host_row_online _ _ _ _ _ _ _ Hrow) as Hon. destruct Hrow as (Haddr & Hseen & Hcase).
  apply (recorded_mono job job ips _ hi (w_ticks w) hi) in Hrec; [|done..]. destruct Hrec as [Rs Rk Rn].
  apply (seen_during_mono _ _ (w_ticks w) hi) in Hseen; [|done..].
  destruct (Rk k0 a0 (lookup_insert_eq _ _ _)) as (a' & Ha' & Hob & _ & Hls & Hst').
  assert (Hseen' : seen_during (w_ticks w) hi a') by (destruct Hls as [E|?]; [destruct Hseen as (i & ? & ?); exists i; split; congruence|done]).
  assert (Hon' : ad_Status a' ≠ IPOffline) by (destruct Hst' as [->|[? _]]; done).
  split.
  - intros x [->|Hx]%elem_of_cons; [|by apply Rs]. exists k0, a'. by rewrite (only_observed_address _ _ _ _ Hob).
  - intros k x Hx. destruct (decide (k = k0)) as [->|Hne].
    + rewrite Hx in Hcase. destruct Hcase as (_ & _ & Hob0 & Hst0). exists a'. rewrite (only_observed_address _ _ _ _ Hob0) in Haddr.
      split_and!; [done|by eapply only_observed_trans| |by right|].
      * intros Hno. specialize (Hno ip ltac:(left)). congruence.
      * destruct Hst' as [->|[? _]]; [|done]. destruct Hst0 as [[? _]|?]; [by left|by right].
    + destruct (Rk k x) as (y & Hy & ? & Hsame & ?); [by rewrite lookup_insert_ne|]. exists y.
      do 2 (split; [done|]). split; [|done]. intros Hno. apply Hsame. intros z Hz. apply Hno. by right.
  - intros k x Hx Hnone. destruct (decide (k = k0)) as [->|Hne].
    + rewrite Hnone in Hcase. destruct Hcase as (_ & _ & _ & Hs0 & Hst0). assert (x = a') as -> by congruence.
      apply has_address_eq in Haddr as [H1 H2]. destruct Hst' as [Est|[? _]]; [|congruence].
      destruct Hob as (? & ? & ? & ? & ? & ->). cbn in *. split_and!; [done|rewrite H2; left|done|congruence|done].
    + destruct (Rn k x Hx) as (? & ? & ? & ? & ?); [by rewrite lookup_insert_ne|]. split_and!; try done. by right.
Qed.

(** Every host is on record; the first count is that of the new rows. *)
Lemma recordHosts_run ips : ∀ a b w, mem_failNext (w_mem w) = ∅ → fresh_ids (w_mem w) (w_ids w) (length ips) →
  ∃ w' n u A', recordHosts revLookup job a b ips w = (w', Ok (a + n, b + u)) ∧ w_mem w' = with_addrs (w_mem w) A' ∧
    n + u = Z.of_nat (length ips) ∧ Z.of_nat (size A') = Z.of_nat (size (mem_addrs (w_mem w))) + n ∧ (w_ticks w ≤ w_ticks w')%nat ∧
    recorded job ips (w_ticks w) (w_ticks w') (mem_addrs (w_mem w)) A'.
Proof.
  induction ips as [|ip ips IH]; intros a b w Hf Hfresh; cbn [recordHosts].
  { exists w, 0, 0, (mem_addrs (w_mem w)). rewrite !Z.add_0_r. split; [reflexivity|]. split; [unfold with_addrs; by destruct (w_mem w)|]. split; [done|]. split; [lia|]. split; [done|].
    split; [by intros ? ?%elem_of_nil|intros k x Hx; exists x; split_and!; auto using only_observed_refl|congruence]. }
  destruct (recordHost_row ip w Hf) as (w1 & c & k0 & a0 & E & Hm1 & Hrow); [apply (proj1 Hfresh); cbn; lia|]. erewrite bind_Ok by exact E.
  pose proof (host_row_fresh _ _ _ _ _ _ _ _ eq_refl Hrow Hm1 Hfresh) as Hfresh1. pose proof (host_row_size _ _ _ _ _ _ _ Hrow) as Hsz.
  destruct (IH (if c then a + 1 else a) (if c then b else b + 1) w1) as (w2 & n & u & A2 & E2 & Hm2 & Hnu & Hsz2 & Hticks & Hrec); [by rewrite Hm1|done|].
  assert (Ht1 : (w_ticks w ≤ w_ticks w1)%nat) by (destruct Hrow as (_ & (i & ? & _) & _); lia).
  rewrite Hm1 in Hm2, Hsz2, Hrec. cbn [with_addrs mem_addrs] in Hm2, Hsz2, Hrec.
  exists w2, (n + if c then 1 else 0), (u + if c then 0 else 1), A2.
  split; [|split; [exact Hm2|split; [cbn [length]; destruct c; lia|split; [lia|split; [lia|by apply (recorded_cons _ _ _ _ c w w1 _ k0 a0)]]]]].
  replace (a + (n + (if c then 1 else 0))) with ((if c then a + 1 else a) + n) by (destruct c; lia).
  replace (b + (u + (if c then 0 else 1))) with ((if c then b else b + 1) + u) by (destruct c; lia). by destruct c.
Qed.
End record_hosts.

(** ** Running a job to completion *)

Section run.
Context `{Env}.

Definition with_job (m : Mem) (j : IPScanJob) : Mem := {| m with mem_scans := <[sj_ID j := j]> (mem_scans m) |}.

(** The job is stored and not cancelled. *)
Definition live (job : IPScanJob) (m : Mem) : Prop :=
  mem_failNext m = ∅ ∧ ∃ row, mem_scans m !! sj_ID job = Some row ∧ sj_TenantID row = sj_TenantID job ∧ sj_Status row ≠ ScanCancelled.

Lemma observeCancel_run job w : live job (w_mem w) → observeCancel job w = (w, Ok false).
Proof.
  intros (_ & row & Hr & Ht & Hs). unfold observeCancel, try, GetScanJob, mbind, M_bind, mem. rewrite Hr, Ht, String.eqb_refl. cbn.
  destruct (String.eqb_spec (sj_Status row) ScanCancelled); done.
Qed.

Lemma UpdateScanJob_run j w : live j (w_mem w) → sj_Status j ≠ ScanCancelled →
  ∃ w' c u, UpdateScanJob j w = (w', Ok ()) ∧ w_mem w' = with_job (w_mem w) {| j with sj_CreatedAt := c; sj_UpdatedAt := u |} ∧
    w_ids w' = w_ids w ∧ live j (w_mem w') ∧ (w_ticks w ≤ w_ticks w')%nat.
Proof.
  intros (Hf & row & Hr & Ht & Hs) Hj. unfold UpdateScanJob. rewrite (bind_Ok _ _ w w ()) by (apply fail_unarmed; rewrite Hf; set_solver).
  erewrite bind_Ok by reflexivity. rewrite Hr, Ht, String.eqb_refl. cbn [negb]. erewrite bind_Ok by reflexivity.
  eexists _, _, _. split; [reflexivity|]. split; [reflexivity|]. split; [done|]. split; [|cbn; lia]. split; [done|]. eexists. cbn. split; [apply lookup_insert_eq|done].
Qed.

Lemma saveJob_run j w : live j (w_mem w) → sj_Status j ≠ ScanCancelled →
  ∃ w' c u, saveJob j w = (w', Ok ()) ∧ w_mem w' = with_job (w_mem w) {| j with sj_CreatedAt := c; sj_UpdatedAt := u |} ∧
    w_ids w' = w_ids w ∧ live j (w_mem w') ∧ (w_ticks w ≤ w_ticks w')%nat.
Proof.
  intros Hl Hj. destruct (UpdateScanJob_run j w Hl Hj) as (w' & c & u & E & Hrest). exists w', c, u. split; [|done].
  unfold saveJob, try, mbind, M_bind. by rewrite E.
Qed.

Lemma live_addrs j m A : live j m → live j (with_addrs m A).
Proof. done. Qed.

Context (cfg : ScanConfig) (env : option Opener).
Context (sweep : list string → Ext (result error (gmap string bool))).
Context (discover : string → Creds → Ext (result snmp_error DiscoveredDevice)).
Context (revLookup : string → Ext string) (linker : option (string → M ())).
Context (completion : list string → list string) (error_text : error → string).
Hypothesis lookup_quiet : ∀ ip, quiet (revLookup ip).

(** A completed row with the counters of the run. *)
Record completed (job : IPScanJob) (targets alive : nat) (n : Z) (row : IPScanJob) : Prop := {
  cp_ids : same_ids job row;
  cp_status : sj_Status row = ScanCompleted ∧ sj_Progress row = 100 ∧ is_Some (sj_CompletedAt row);
  cp_total : sj_TotalAddresses row = Z.of_nat targets ∧ sj_ScannedCount row = Z.of_nat targets;
  cp_alive : sj_AliveCount row = Z.of_nat alive ∧ sj_NewCount row = n ∧ sj_UpdatedCount row = Z.of_nat alive - n;
  cp_snmp : sj_SNMPStatus row = SNMPNotRequested
}.

Lemma completeJob_run job w : live job (w_mem w) → sj_EnableSNMP job = false →
  ∃ w' t c u, completeJob linker job w = (w', Ok ()) ∧ w_mem w' = with_job (w_mem w)
    {| job with sj_Status := ScanCompleted; sj_Progress := 100; sj_StatusMessage := "completed"; sj_CompletedAt := Some t; sj_CreatedAt := c; sj_UpdatedAt := u |} ∧
    (w_ticks w ≤ w_ticks w')%nat.
Proof.
  intros Hl Hs. unfold completeJob. erewrite bind_Ok by reflexivity. cbv zeta. match goal with |- context [UpdateScanJob ?x] => set (j := x) end.
  match goal with |- context [(try (UpdateScanJob j) ≫= _) ?x] => set (w1 := x) end.
  destruct (UpdateScanJob_run j w1) as (w2 & c & u & E & Hm & _ & _ & Ht2); [exact Hl|done|]. cbn [w1 w_ticks] in Ht2.
  erewrite bind_Ok by (unfold try; rewrite E; reflexivity). cbv iota. erewrite bind_Ok by reflexivity.
  assert (Ee : sj_EnableSNMP j = false) by exact Hs. destruct linker as [cor|]; [rewrite Ee|].
  all: eexists _, (env_clock (w_ticks w)), c, u; (split; [reflexivity|split; [exact Hm|cbn; lia]]).
Qed.

Lemma finishJob_run job cred arpCfg ips alive w :
  live job (w_mem w) → sj_Status job = ScanScanning → sj_EnableSNMP job = false → sj_TotalAddresses job = Z.of_nat (length ips) →
  fresh_ids (w_mem w) (w_ids w) (length alive) →
  ∃ w' A' n row, finishJob cfg discover revLookup linker completion error_text job cred arpCfg ips alive w = (w', Ok ()) ∧
    w_mem w' = with_job (with_addrs (w_mem w) A') row ∧ completed job (length ips) (length alive) n row ∧
    Z.of_nat (size A') = Z.of_nat (size (mem_addrs (w_mem w))) + n ∧ (w_ticks w ≤ w_ticks w')%nat ∧
    recorded job alive (w_ticks w) (w_ticks w') (mem_addrs (w_mem w)) A'.
Proof.
  intros Hl Hst Hsn Htot Hfresh. unfold finishJob. cbv zeta. match goal with |- context [saveJob ?x] => set (j1 := x) end.
  destruct (saveJob_run j1 w) as (w1 & c1 & u1 & E1 & Hm1 & Hi1 & Hl1 & Ht1); [exact Hl|cbn; by rewrite Hst|]. erewrite bind_Ok by exact E1.
  destruct (recordHosts_run revLookup j1 lookup_quiet alive 0 0 w1) as (w2 & n & u & A' & E2 & Hm2 & Hnu & Hsz & Ht2 & Hrec).
  { exact (proj1 Hl1). }
  { rewrite Hi1. rewrite Hm1. exact Hfresh. }
  erewrite bind_Ok by (unfold try; rewrite E2; reflexivity). cbv iota beta.
  unfold snmpPhase. cbv zeta. change (sj_EnableSNMP _) with (sj_EnableSNMP job) at 1. rewrite Hsn. cbn [negb]. erewrite bind_Ok by reflexivity. cbv iota beta.
  change (SNMPNotRequested =s SNMPRan) with false. erewrite bind_Ok by reflexivity.
  match goal with |- context [observeCancel ?x] => set (j2 := x) end.
  assert (Hl2 : live j2 (w_mem w2)) by (rewrite Hm2; exact Hl1).
  erewrite bind_Ok by (by apply observeCancel_run). cbv iota.
  destruct (completeJob_run j2 w2 Hl2 Hsn) as (w3 & t & c & u' & E3 & Hm3 & Ht3). rewrite E3.
  match type of Hm3 with _ = with_job _ ?r => set (row := r) in Hm3 end. exists w3, A', n, row. split; [done|]. split.
  - rewrite Hm3, Hm2, Hm1. unfold with_job, with_addrs. cbn. f_equal. apply insert_insert_eq.
  - rewrite Hm1 in Hsz, Hrec. split; [|split; [exact Hsz|split; [lia|by eapply recorded_mono, Hrec; try lia]]]. split.
    + done.
    + split_and!; [done|done|by eexists].
    + split; [exact Htot|done].
    + split_and!; [done|change (0 + n = n); lia|change (0 + u = Z.of_nat (length alive) - n); lia].
    + done.
Qed.
End run.

(** C15: a scan without SNMP completes and its counters are true. A claimed
    job that did not ask for SNMP, whose subnet can be swept, with the store
    without failures and the network calls leaving the store alone, ends as
    completed at 100%; the total and the scanned count are the number of target
    hosts, every live host has an address row of the tenant that is not offline
    and whose last sighting is a clock reading taken during this run, the new
    count is the number of rows added and the updated count the other live
    hosts; a row that existed keeps every column a scan does not observe, its
    status except that an offline one becomes active, and rows of other
    addresses are untouched; nothing but the addresses and the job's own row
    changed. *)
Theorem processJob_completes `{Env} cfg env sweep discover revLookup linker completion error_text job w s targets alive :
  (∀ ip, quiet (revLookup ip)) → (∀ ips w, quiet (sweep ips) ∧ snd (sweep ips w) = Ok alive) →
  live job (w_mem w) → sj_Status job = ScanScanning → sj_EnableSNMP job = false →
  mem_subnets (w_mem w) !! sj_SubnetID job = Some s → sn_TenantID s = sj_TenantID job →
  enumerateTargets (sn_CIDR s) (sc_MaxHosts cfg) = Ok targets →
  let up := List.filter (λ ip, default false (alive !! ip)) (ipStrings targets) in
  fresh_ids (w_mem w) (w_ids w) (length up) →
  ∃ w' A' n row, processJob cfg env sweep discover revLookup linker completion error_text job w = (w', Ok ()) ∧
    w_mem w' = with_job (with_addrs (w_mem w) A') row ∧ completed job (length targets) (length up) n row ∧
    Z.of_nat (size A') = Z.of_nat (size (mem_addrs (w_mem w))) + n ∧ recorded job up (w_ticks w) (w_ticks w') (mem_addrs (w_mem w)) A'.
Proof.
  intros Hq Hsw Hl Hst Hsn Hsub Hten Htg up Hfresh. unfold processJob. erewrite bind_Ok by (by apply observeCancel_run). cbv iota.
  erewrite bind_Ok by (unfold try, GetSubnet; rewrite (bind_Ok mem _ w w (w_mem w) eq_refl), Hsub, Hten, String.eqb_refl; reflexivity). cbv iota.
  erewrite bind_Ok by (unfold try, jobCreds; rewrite Hsn; reflexivity). cbv iota beta.
  change (sn_CIDR (fillSubnet (w_mem w) s)) with (sn_CIDR s). rewrite Htg. erewrite bind_Ok by (by apply observeCancel_run). cbv iota zeta.
  match goal with |- context [saveJob ?x] => set (j1 := x) end.
  destruct (saveJob_run j1 w) as (w1 & c1 & u1 & E1 & Hm1 & Hi1 & Hl1 & Ht1); [exact Hl|cbn; by rewrite Hst|]. erewrite bind_Ok by exact E1.
  destruct (Hsw (ipStrings targets) w1) as [Hqs Hal]. destruct (Hqs w1) as (Hm2 & Hi2 & Ht2). unfold ext.
  destruct (sweep (ipStrings targets) w1) as [w2 r] eqn:Es. cbn [fst snd] in *. subst r.
  erewrite bind_Ok by (rewrite Es; reflexivity). cbv iota. fold up.
  assert (Hl2 : live j1 (w_mem w2)) by (by rewrite Hm2). erewrite bind_Ok by (by apply observeCancel_run). cbv iota.
  match goal with |- context [finishJob _ _ _ _ _ _ j1 ?c ?a _ _ w2] => set (cred := c); set (arp := a) end.
  destruct (finishJob_run cfg discover revLookup linker completion error_text Hq j1 cred arp (ipStrings targets) up w2) as (w3 & A' & n & row & E3 & Hm3 & Hc & Hsz & Ht3 & Hrec);
    [exact Hl2|exact Hst|exact Hsn|cbn; unfold ipStrings; by rewrite length_fmap|rewrite Hm2, Hi2, Hi1, Hm1; exact Hfresh|].
  rewrite E3. exists w3, A', n, row. split; [done|]. rewrite Hm2, Hm1 in Hm3, Hsz, Hrec. destruct Hc as [C1 C2 C3 C4 C5].
  split; [|split; [|split; [exact Hsz|by eapply recorded_mono, Hrec; try lia]]].
  - rewrite Hm3. unfold with_job, with_addrs. cbn. f_equal. rewrite <- (proj1 C1). apply insert_insert_eq.
  - split; [done|done| |done|done]. unfold ipStrings in C3. by rewrite length_fmap in C3.
Qed.

(** ** Starting *)

Section refused.
Context `{Env} (cfg : ScanConfig).

Lemma StartScan_refused subj subnetID opts w :
  su_TenantID subj ≠ ""%string → (∀ usable, ¬ scannable cfg (w_mem w) (su_TenantID subj) subnetID usable) →
  ∃ e, StartScan cfg subj subnetID opts w = (w, Err e).
Proof.
  intros Ht Hno. unfold StartScan. rewrite (bind_Ok _ _ w w ()) by (unfold lift; by rewrite RequireTenant_self). cbv zeta.
  unfold GetSubnet. destruct (mem_subnets (w_mem w) !! subnetID) as [s|] eqn:Es.
  2: { eexists. erewrite bind_Err; [reflexivity|]. rewrite (bind_Ok mem _ w w (w_mem w) eq_refl), Es. reflexivity. }
  destruct (sn_TenantID s =s su_TenantID subj) eqn:Et.
  2: { eexists. erewrite bind_Err; [reflexivity|]. rewrite (bind_Ok mem _ w w (w_mem w) eq_refl), Es, Et. reflexivity. }
  rewrite (bind_Ok _ _ w w (fillSubnet (w_mem w) s)); [|rewrite (bind_Ok mem _ w w (w_mem w) eq_refl), Es, Et; done].
  change (sn_CIDR (fillSubnet (w_mem w) s)) with (sn_CIDR s).
  destruct (Parse (sn_CIDR s)) as [info|e] eqn:Ep; [|eexists; erewrite bind_Err; [reflexivity|unfold lift; cbn; reflexivity]].
  rewrite (bind_Ok _ _ w w info) by reflexivity. destruct (Z.eqb_spec (Version info) 6) as [|Hv]; [by eexists|].
  destruct (Z.ltb_spec (sc_MaxHosts cfg) (usableHosts info)) as [|Hu]; [by eexists|].
  destruct (map_any (active_for (su_TenantID subj) subnetID) (mem_scans (w_mem w))) eqn:Ea.
  - rewrite (bind_Ok _ _ w w true); [by eexists|]. unfold ActiveScanForSubnet. rewrite (bind_Ok mem _ w w (w_mem w) eq_refl).
    exact (f_equal (λ b, (w, Ok b)) Ea).
  - exfalso. apply (Hno (usableHosts info)). apply String.eqb_eq in Et. exists s, info. split_and!; try done. by apply map_any_false.
Qed.
End refused.

(** C34: who may scan what.  A scan is queued exactly when the subnet belongs to
    the caller's tenant, is IPv4, has at most the configured number of usable
    hosts and has no scan pending or running; then one pending job of the
    caller with that number of hosts is stored under a new identifier, the
    start is announced, and nothing else changes.  Otherwise the call fails
    and changes nothing. *)
Theorem StartScan_exact `{Env} cfg subj subnetID opts w :
  su_TenantID subj ≠ ""%string → {["CreateScanJob"; "AllSubnetCIDRs"; "ListSubnetSNMP"]}%string ## mem_failNext (w_mem w) →
  (∀ usable, scannable cfg (w_mem w) (su_TenantID subj) subnetID usable →
    ∃ w' job, StartScan cfg subj subnetID opts w = (w', Ok job) ∧ w_mem w' = with_scan (w_mem w) job ∧ sj_ID job = id_at (w_ids w) ∧
      started subj subnetID opts usable job ∧
      w_events w' = w_events w ++ [{| ev_tenant := su_TenantID subj; ev_type := EvScanStarted; ev_payload := ScanPayload (sj_ID job) subnetID 0 0 |}]) ∧
  ((∀ usable, ¬ scannable cfg (w_mem w) (su_TenantID subj) subnetID usable) → ∃ e, StartScan cfg subj subnetID opts w = (w, Err e)).
Proof. intros Ht Hf. split; [intros usable Hs; by apply StartScan_ok|by apply StartScan_refused]. Qed.

(** ** Retrying *)

Lemma backoff_exact r : 1 ≤ r ≤ 31 → retry_backoff r = 2 ^ (r - 1) * baseBackoff.
Proof.
  intros Hr. unfold retry_backoff, shl64. replace ((0 <=? r - 1) && (r - 1 <? 64)) with true by lia.
  assert (Hp : 2 ^ (r - 1) ≤ 2 ^ 30) by (apply Z.pow_le_mono_r; lia). assert (0 < 2 ^ (r - 1)) by (apply Z.pow_pos_nonneg; lia).
  change (2 ^ 30) with 1073741824 in Hp. change baseBackoff with 5000000000. set (p := 2 ^ (r - 1)) in *. clearbody p.
  pose proof (eq_refl : MinInt64 = -9223372036854775808) as Emin. pose proof (eq_refl : MaxInt64 = 9223372036854775807) as Emax.
  rewrite (wrap64_id p) by lia. by rewrite wrap64_id by lia.
Qed.

(** C35: a failed run is retried a bounded number of times.  A job that is not
    cancelled has its failure recorded in its row and nowhere else: while
    retries remain it goes back to the queue with one more retry counted, due
    5 seconds times two to the number of earlier retries later (for the first
    31 retries, where the delay still fits its 64 bits); when they are used up
    it has failed for good. *)
Theorem retryOrFail_exact `{Env} cfg error_text job cause w : live job (w_mem w) →
  let r := sj_RetryCount job + 1 in
  ∃ w' row, retryOrFail cfg error_text job cause w = (w', Ok ()) ∧ w_mem w' = with_job (w_mem w) row ∧ same_ids job row ∧
    sj_RetryCount row = r ∧
    (sc_MaxRetries cfg < r → sj_Status row = ScanFailed ∧ is_Some (sj_CompletedAt row) ∧ isTerminal (sj_Status row) = true) ∧
    (r ≤ sc_MaxRetries cfg → sj_Status row = ScanPending ∧
      (1 ≤ r ≤ 31 → sj_NextRetryAt row = Some (env_clock (w_ticks w) + 2 ^ (r - 1) * baseBackoff))).
Proof.
  intros Hl r. unfold retryOrFail. erewrite bind_Ok by (by apply observeCancel_run). cbv iota zeta. erewrite bind_Ok by reflexivity.
  cbn [sj_RetryCount]. fold r. destruct (Z.ltb_spec (sc_MaxRetries cfg) r) as [Hr|Hr];
    match goal with |- context [saveJob ?x ?y] => destruct (saveJob_run x y) as (w2 & c & u & E & Hm & _ & _ & _); [exact Hl|done|] end;
    (eexists w2, _; split; [exact E|]; split; [exact Hm|]; split; [done|]; split; [done|]).
  - split; [intros _; split_and!; [done|by eexists|done]|lia].
  - split; [lia|]. intros _. split; [done|]. intros Hb. cbn. by rewrite backoff_exact.
Qed.

(** ** Cancelling *)

Definition is_cancelled (job : IPScanJob) (m : Mem) : Prop :=
  ∃ row, mem_scans m !! sj_ID job = Some row ∧ sj_TenantID row = sj_TenantID job ∧ sj_Status row = ScanCancelled.

Lemma observeCancel_cancelled job w : is_cancelled job (w_mem w) → observeCancel job w = (w, Ok true).
Proof.
  intros (row & Hr & Ht & Hs). unfold observeCancel, try, GetScanJob, mbind, M_bind, mem. rewrite Hr, Ht, String.eqb_refl. cbn. by rewrite Hs.
Qed.

(** A cancellation that lands before a run or during its sweep is
    honoured.  A cancelled job is not run and its failure is not recorded; if
    it is cancelled while the network is swept, the run stops in the state
    the sweep left: nothing is recorded and the row stays cancelled. *)
Theorem cancel_honoured `{Env} cfg env sweep discover revLookup linker completion error_text job w :
  (is_cancelled job (w_mem w) →
    processJob cfg env sweep discover revLookup linker completion error_text job w = (w, Ok ()) ∧
    ∀ cause, retryOrFail cfg error_text job cause w = (w, Ok ())) ∧
  (live job (w_mem w) → sj_Status job = ScanScanning → sj_EnableSNMP job = false →
   ∀ s targets, mem_subnets (w_mem w) !! sj_SubnetID job = Some s → sn_TenantID s = sj_TenantID job →
     enumerateTargets (sn_CIDR s) (sc_MaxHosts cfg) = Ok targets →
     (∀ ips w1, is_cancelled job (w_mem (fst (sweep ips w1)))) →
     ∃ w1, processJob cfg env sweep discover revLookup linker completion error_text job w = (fst (sweep (ipStrings targets) w1), Ok ())).
Proof.
  split.
  - intros Hc. split; [|intros cause]; [unfold processJob|unfold retryOrFail]; by rewrite (bind_Ok _ _ w w true (observeCancel_cancelled job w Hc)).
  - intros Hl Hst Hsn s targets Hsub Hten Htg Hsw. unfold processJob. rewrite (bind_Ok _ _ w w false (observeCancel_run job w Hl)). cbv iota.
    erewrite bind_Ok by (unfold try, GetSubnet; rewrite (bind_Ok mem _ w w (w_mem w) eq_refl), Hsub, Hten, String.eqb_refl; reflexivity). cbv iota.
    erewrite bind_Ok by (unfold try, jobCreds; rewrite Hsn; reflexivity). cbv iota beta.
    change (sn_CIDR (fillSubnet (w_mem w) s)) with (sn_CIDR s). rewrite Htg. rewrite (bind_Ok _ _ w w false (observeCancel_run job w Hl)). cbv iota zeta.
    match goal with |- context [saveJob ?x] => set (j1 := x) end.
    destruct (saveJob_run j1 w) as (w1 & c1 & u1 & E1 & Hm1 & Hi1 & Hl1 & _); [exact Hl|cbn; by rewrite Hst|]. erewrite bind_Ok by exact E1.
    specialize (Hsw (ipStrings targets) w1). exists w1. unfold ext. destruct (sweep (ipStrings targets) w1) as [w2 r] eqn:Es. cbn [fst] in *.
    erewrite bind_Ok by (rewrite Es; reflexivity). pose proof (observeCancel_cancelled j1 w2 Hsw) as Hoc.
    destruct r as [alive|e]; [|unfold retryOrFail]; by rewrite (bind_Ok _ _ w2 w2 true Hoc).
Qed.
