(* ===== verification/ScanExamples.v ===== *)
(** * The scan queue and executor on concrete inputs

    A /30 subnet with one known address, swept with both hosts up; the queue
    with a job claimed; a probe of a switch; and the interleaving in which a
    cancellation is lost between the check and the write that follows it. *)

From S2P Require Import Prelude GoNet GoIP GoText Ipnet Models Store MemNet MemDev MemScan MemInv Events Authz AddressProps Snmpcred Json Sealed AuditLog Subnets StoreProps ArpPlan Snmp SnmpProps Scan ScanProps ScanQueue ScanRun.

Module ScanEx.
#[local] Existing Instance ex_env.

Definition job1 : IPScanJob :=
  {| zero_IPScanJob with sj_ID := "j1"; sj_TenantID := "t1"; sj_SubnetID := "s1"; sj_Status := ScanScanning; sj_SkipReverseDNS := true |}.
Definition subnet1 : Subnet := {| zero_Subnet with sn_ID := "s1"; sn_TenantID := "t1"; sn_CIDR := "10.0.0.0/30" |}.
Definition known_addr : IPAddress := {| zero_IPAddress with ad_ID := "a1"; ad_TenantID := "t1"; ad_Address := "10.0.0.1"; ad_SubnetID := "s1" |}.
Definition lan : World :=
  {| init_world with w_mem := {| New with mem_subnets := {["s1" := subnet1]}; mem_scans := {["j1" := job1]}; mem_addrs := {["a1" := known_addr]} |} |}.
Definition config : ScanConfig :=
  {| sc_MaxHosts := 1024; sc_Concurrency := 50; sc_TimeoutMs := 1000; sc_Workers := 3; sc_MaxRetries := 3; sc_SNMPTimeoutMs := 5000 |}.
Definition all_up : gmap string bool := {["10.0.0.1"%string := true; "10.0.0.2"%string := true]}.
Definition sweep_up (ips : list string) : Ext (result error (gmap string bool)) := λ w, (w, Ok all_up).
Definition no_answer (ip : string) (c : Creds) : Ext (result snmp_error DiscoveredDevice) := λ w, (w, Err (plain_error "timeout")).
Definition no_name (ip : string) : Ext string := λ w, (w, ""%string).
Definition err_text (e : error) : string := "error".
Definition caller : Subjects := {| su_TenantID := "t1"; su_UserID := "u1"; su_Roles := []; su_ActorKind := "user" |}.
Definition run1 : M () := processJob config None sweep_up no_answer no_name None (λ l, l) err_text job1.

(** ** The hypotheses hold *)

Lemma live1 : live job1 (w_mem lan).
Proof. split; [reflexivity|]. exists job1. split; [reflexivity|]. split; [reflexivity|discriminate]. Qed.
Lemma targets1 : enumerateTargets "10.0.0.0/30" 1024 = Ok [IP4 167772161; IP4 167772162].
Proof. vm_compute. reflexivity. Qed.
Lemma fresh1 : fresh_ids (w_mem lan) (w_ids lan) 2.
Proof.
  split.
  - intros i Hi. assert (i = 0 ∨ i = 1)%nat as [-> | ->] by (cbn in Hi; lia); vm_compute; reflexivity.
  - intros i j Hi Hj. assert (i = 0 ∨ i = 1)%nat as [-> | ->] by (cbn in Hi; lia); assert (j = 0 ∨ j = 1)%nat as [-> | ->] by (cbn in Hj; lia); vm_compute; congruence.
Qed.
Lemma up1 : List.filter (λ ip, default false (all_up !! ip)) (ipStrings [IP4 167772161; IP4 167772162]) = ["10.0.0.1"; "10.0.0.2"]%string.
Proof. vm_compute. reflexivity. Qed.

Lemma processJob_completes_witness :
  ∃ w' A' n row, run1 lan = (w', Ok ()) ∧ w_mem w' = with_job (with_addrs (w_mem lan) A') row ∧ completed job1 2 2 n row ∧
    Z.of_nat (size A') = 1 + n ∧ recorded job1 ["10.0.0.1"; "10.0.0.2"]%string (w_ticks lan) (w_ticks w') (mem_addrs (w_mem lan)) A'.
Proof.
  pose proof (processJob_completes config None sweep_up no_answer no_name None (λ l, l) err_text job1 lan subnet1 [IP4 167772161; IP4 167772162] all_up) as Hc.
  cbv zeta in Hc. rewrite up1 in Hc.
  exact (Hc (λ ip w, conj eq_refl (conj eq_refl (le_n _))) (λ ips w, conj (λ w, conj eq_refl (conj eq_refl (le_n _))) eq_refl) live1 eq_refl eq_refl eq_refl eq_refl targets1 fresh1).
Defined.

(** The new address of the example, as stored. *)
Example second_host_recorded :
  (ad_Address <$> mem_addrs (w_mem (fst (run1 lan))) !! id_at 0) = Some "10.0.0.2"%string ∧
  (sj_NewCount <$> mem_scans (w_mem (fst (run1 lan))) !! "j1"%string) = Some 1.
Proof. split; vm_compute; reflexivity. Qed.

Lemma retryOrFail_exact_witness :
  ∃ w' row, retryOrFail config err_text job1 ErrNotFound lan = (w', Ok ()) ∧ sj_Status row = ScanPending ∧
    mem_scans (w_mem w') !! "j1"%string = Some row ∧ sj_NextRetryAt row = Some (env_clock 0 + 1 * baseBackoff).
Proof.
  destruct (retryOrFail_exact config err_text job1 ErrNotFound lan live1) as (w' & row & E & Hm & (Hid & _) & _ & _ & Hr).
  destruct Hr as [Hs Hn]; [vm_compute; discriminate|]. exists w', row. split; [exact E|]. split; [exact Hs|]. split.
  - rewrite Hm. cbn [with_job mem_scans]. rewrite <- Hid. apply lookup_insert_eq.
  - apply Hn. split; vm_compute; discriminate.
Defined.

(** ** Starting *)

Definition idle : World := {| init_world with w_mem := {| New with mem_subnets := {["s1" := subnet1]} |} |}.
Definition quick : ScanOptions :=
  {| so_EnableSNMP := false; so_SNMPAuto := true; so_EnableDNSUpdate := false; so_SkipReverseDNS := true; so_Trigger := "" |}.

Lemma scannable1 : scannable config (w_mem idle) "t1" "s1" 2.
Proof.
  destruct (Parse "10.0.0.0/30") as [info|] eqn:E; [|vm_compute in E; discriminate].
  exists subnet1, info. split; [reflexivity|]. split; [reflexivity|]. split; [exact E|]. vm_compute in E. injection E as <-.
  split; [discriminate|]. split; [reflexivity|]. split; [discriminate|]. intros k j Hk. change ((∅ : gmap string IPScanJob) !! k = Some j) in Hk. by rewrite lookup_empty in Hk.
Qed.

Lemma StartScan_exact_witness :
  ∃ w' job, StartScan config caller "s1" quick idle = (w', Ok job) ∧ w_mem w' = with_scan (w_mem idle) job ∧ sj_TotalAddresses job = 2.
Proof.
  destruct (StartScan_exact config caller "s1" quick idle) as [Hok _]; [discriminate|set_solver|].
  destruct (Hok 2 scannable1) as (w' & job & E & Hm & _ & Hs & _). exists w', job. split; [exact E|]. split; [exact Hm|]. exact (proj1 (proj2 (proj2 (proj2 Hs)))).
Defined.

(** ** The queue *)

Notation steps := (rtc (step config)).
Definition asked : World := fst (StartScan config caller "s1" quick idle).
Definition claim_made : World * result error (list IPScanJob) := ClaimDueScanJobs (env_clock 9) 3 asked.
Definition claimed_jobs : list IPScanJob := match snd claim_made with Ok l => l | Err _ => [] end.

Lemma claimed_run : claim_made = (fst claim_made, Ok claimed_jobs).
Proof. vm_compute. reflexivity. Qed.

Definition at_rest (w : World) (used : gset string) : queue := {| q_world := w; q_threads := []; q_used := used |}.
Definition queue_claimed : queue :=
  {| q_world := fst claim_made; q_threads := ((λ j, Worker j Claimed) <$> claimed_jobs) ++ []; q_used := {[id_at 0]} ∪ ∅ |}.

Lemma queue_idle : serial config queue_start (at_rest idle ∅).
Proof. apply serial_other; [|done]. intros k. by left. Qed.
Lemma queue_asked : serial config (at_rest idle ∅) (at_rest asked ({[id_at 0]} ∪ ∅)).
Proof. exact (serial_start config caller "s1" quick idle [] ∅ (not_elem_of_empty _)). Qed.
Lemma queue_made : serial config (at_rest asked ({[id_at 0]} ∪ ∅)) queue_claimed.
Proof. exact (serial_claim config (env_clock 9) 3 asked (fst claim_made) claimed_jobs [] _ claimed_run). Qed.
Lemma queue_reached : rtc (serial config) queue_start queue_claimed.
Proof. exact (rtc_l _ _ _ _ queue_idle (rtc_l _ _ _ _ queue_asked (rtc_l _ _ _ _ queue_made (rtc_refl _ _)))). Qed.
Lemma queue_reached_steps : steps queue_start queue_claimed.
Proof.
  etrans; [exact (serial_steps config _ _ queue_idle)|]. etrans; [exact (serial_steps config _ _ queue_asked)|exact (serial_steps config _ _ queue_made)].
Qed.

Lemma scan_queue_safe_witness :
  length (running (q_threads queue_claimed)) = 1%nat ∧ exclusive queue_claimed ∧ one_active (jobs queue_claimed).
Proof.
  destruct (scan_queue_safe config) as [Hstep Hserial]. destruct (Hstep queue_claimed queue_reached_steps) as [He _].
  split; [vm_compute; reflexivity|]. split; [exact He|exact (Hserial queue_claimed queue_reached)].
Defined.

(** Two callers start a scan of the same subnet: both checks come before
    either insert. *)
Definition raced : World := fst (insert_scan config caller "s1" quick 2 (fst (insert_scan config caller "s1" quick 2 idle))).

Lemma race_admit : admit_scan config caller "s1" idle = (idle, Ok 2).
Proof. vm_compute. reflexivity. Qed.
Lemma race_fresh : id_at 1 ∉ ({[id_at 0]} ∪ ∅ : gset string).
Proof. intros Hin%elem_of_union. destruct Hin as [Hin%elem_of_singleton|Hin]; [vm_compute in Hin; discriminate|by apply elem_of_empty in Hin]. Qed.

(** The check for an active scan and the insert of [StartScan] are two store
    calls: two calls that interleave leave a subnet with two active scans. *)
Theorem start_race :
  ∃ s, steps queue_start s ∧ ¬ one_active (jobs s).
Proof.
  exists (at_rest raced ({[id_at 1]} ∪ ({[id_at 0]} ∪ ∅))). split.
  - etrans; [exact (serial_steps config _ _ queue_idle)|].
    eapply rtc_l; [exact (step_admit config caller "s1" quick idle idle 2 [] ∅ race_admit)|].
    eapply rtc_l; [exact (step_admit config caller "s1" quick idle idle 2 [Starting caller "s1" quick 2] ∅ race_admit)|].
    eapply rtc_l; [exact (step_insert config caller "s1" quick 2 idle [] [Starting caller "s1" quick 2] ∅ (not_elem_of_empty _))|].
    apply rtc_once. exact (step_insert config caller "s1" quick 2 (fst (insert_scan config caller "s1" quick 2 idle)) [] [] _ race_fresh).
  - intros Hone. assert (E : id_at 0 = id_at 1); [|vm_compute in E; discriminate].
    destruct (jobs (at_rest raced ({[id_at 1]} ∪ ({[id_at 0]} ∪ ∅))) !! id_at 0) as [j0|] eqn:E0; [|vm_compute in E0; discriminate].
    destruct (jobs (at_rest raced ({[id_at 1]} ∪ ({[id_at 0]} ∪ ∅))) !! id_at 1) as [j1|] eqn:E1; [|vm_compute in E1; discriminate].
    apply (Hone _ _ _ _ E0 E1); vm_compute in E0, E1; injection E0 as <-; injection E1 as <-; reflexivity.
Qed.

(** ** Cancelling *)

Definition cancelled_lan : World := fst (CancelScan caller "j1" lan).
Lemma cancel_honoured_witness : run1 cancelled_lan = (cancelled_lan, Ok ()).
Proof.
  destruct (cancel_honoured config None sweep_up no_answer no_name None (λ l, l) err_text job1 cancelled_lan) as [Hc _].
  apply Hc. eexists. split; [vm_compute; reflexivity|]. split; reflexivity.
Defined.

(** A cancellation is lost when it lands between a worker's check and the
    write that follows: here the check finds the job running, the caller
    cancels it and is told so, and the worker's last write marks the job
    completed. *)
Theorem cancel_overtaken :
  let w0 := lan in
  let checked := observeCancel job1 w0 in
  let cancel := CancelScan caller "j1" (fst checked) in
  let done := completeJob None job1 (fst cancel) in
  snd checked = Ok false ∧
  (match snd cancel with Ok (j, None) => Some (sj_Status j) | _ => None end) = Some ScanCancelled ∧
  (sj_Status <$> mem_scans (w_mem (fst done)) !! "j1"%string) = Some ScanCompleted.
Proof. split; [|split]; vm_compute; reflexivity. Qed.

(** ** A probe *)

Definition row_of_walk (base sfx : string) (v : snmp_value) : pdu := {| p_Name := "." +:+ base +:+ "." +:+ sfx; p_Value := v; p_NoSuch := false |}.
Definition switch_session : session :=
  {| ses_connect := None; ses_after_connect := None;
     ses_get := Ok [{| p_Name := "." +:+ oidSysName; p_Value := VString "sw1"; p_NoSuch := false |};
                    {| p_Name := "." +:+ oidSysDescr; p_Value := VBytes (string_bytes "Acme switch Version 4.2, build 7"); p_NoSuch := false |}];
     ses_after_get := None;
     ses_walk := λ oid,
       if oid =s oidIfDescr then [row_of_walk oidIfDescr "7" (VString "port7"); row_of_walk oidIfDescr "2" (VString "port2"); row_of_walk oidIfDescr "0" (VString "bad")]
       else if oid =s oidDot1qTpFdbPort then [row_of_walk oidDot1qTpFdbPort "10.2.0.0.0.0.9" (VInt 7)]
       else [];
     ses_bulk := λ oid,
       if oid =s oidIPNetToMediaPhysAddress then ([row_of_walk oidIPNetToMediaPhysAddress "7.10.0.0.9" (VBytes [2; 0; 0; 0; 0; 9]);
                                                   row_of_walk oidIPNetToMediaPhysAddress "7.0.0.0.0" (VBytes [2; 0; 0; 0; 0; 8])], false)
       else ([], false) |}.
Definition v2_creds : Creds := ToCreds {| me_Version := 2; me_SecurityLevel := ""; me_AuthProtocol := ""; me_PrivProtocol := "" |}
  {| se_Community := "public"; se_User := ""; se_AuthPassword := ""; se_PrivPassword := "" |} 5000 1.
Definition snmp_creds : Creds := {| v2_creds with cr_CollectARP := true |}.
Definition switch_dev : option DiscoveredDevice := match Discover switch_session "10.0.0.2" snmp_creds with Ok d => Some d | Err _ => None end.

Example switch_read :
  (dd_DeviceType <$> switch_dev) = Some DevSwitch ∧ (dd_OSVersion <$> switch_dev) = Some "4.2"%string ∧
  ((λ d, if_IfIndex <$> dd_Interfaces d) <$> switch_dev) = Some [2; 7] ∧
  ((λ d, (λ e, (ae_IP e, ae_MAC e)) <$> dd_ARP d) <$> switch_dev) = Some [("10.0.0.9", "02:00:00:00:00:09")]%string ∧
  ((λ d, (λ l, (sl_MAC l, sl_VLAN l, sl_IfIndex l)) <$> dd_Links d) <$> switch_dev) = Some [("02:00:00:00:00:09"%string, 10, 7)].
Proof. split_and!; vm_compute; reflexivity. Qed.

Lemma Discover_wf_witness :
  ∃ dev, Discover switch_session "10.0.0.2" snmp_creds = Ok dev ∧ Forall arp_wf (dd_ARP dev) ∧ Z.of_nat (length (dd_ARP dev)) ≤ MaxARPEntries.
Proof.
  destruct (Discover switch_session "10.0.0.2" snmp_creds) as [dev|e] eqn:E; [|vm_compute in E; discriminate].
  exists dev. destruct (Discover_wf switch_session "10.0.0.2" snmp_creds dev E) as (_ & _ & Hw & Hl & _). split; [reflexivity|]. split; [exact Hw|exact Hl].
Defined.
End ScanEx.
