(* ===== verification/Taskexec.v ===== *)
(** * internal/taskexec: scans queued by the scheduler

    The handler of the task type ipam:scan-network: it resolves the payload to
    subnets of the request's tenant and starts a scan of each.  Decoding the
    payload and recognising a UUID are the scheduler SDK's and parameters. *)

From S2P Require Import Prelude GoNet GoIP GoText Ipnet Models Store MemNet MemScan Events Authz AddressProps Snmpcred AuditLog Subnets SubnetProps Snmp Scan ScanProps ScanQueue ScanRun.

Definition maxNotes : nat := 5.
Definition TypeScanNetwork : string := "ipam:scan-network".

Definition Actor (td service : string) : string := "spiffe://" +:+ td +:+ "/svc/" +:+ service.

Record scanNetworkPayload : Type := {
  pl_All : bool; pl_SubnetID : string; pl_CIDR : string; pl_EnableSnmp : option bool; pl_EnableDNSUpdate : bool }.

Record Summary : Type := { sum_Queued : Z; sum_Skipped : Z; sum_Failed : Z; sum_JobIDs : list string }.
Definition no_summary : Summary := {| sum_Queued := 0; sum_Skipped := 0; sum_Failed := 0; sum_JobIDs := [] |}.

(** The SDK's results: done, to be retried, failed for good. *)
Inductive exec_result : Type :=
| ExecOK (msg : string) (data : option Summary)
| ExecRetry (msg : string) (data : option Summary)
| ExecPermanent (msg : string).

Record exec_request : Type := { rq_TenantID : string; rq_ExecutionID : string; rq_Payload : string }.

Definition task_note (e : error) : string :=
  match err_root e with ErrNotFound => "subnet not found" | ErrForbidden _ => "refused" | _ => "internal error" end.

(** [canonical]: network and prefix length. *)
Definition canonical (cidr : string) : result ipnet_error string :=
  match Parse cidr with Err e => Err e | Ok info => Ok (IP_String (Network info) +:+ "/" +:+ Z_text (PrefixLen info)) end.

Definition is_skip (e : error) : bool :=
  match err_root e with Scan_ErrActiveScan | Scan_ErrIPv6 | Scan_ErrTooLarge => true | _ => false end.
Definition is_not_found (e : error) : bool := match err_root e with ErrNotFound => true | _ => false end.

Definition ellipsis : string := String "226" (String "128" (String "166" "")).
Definition add_note (notes : list string) (e : error) : list string :=
  if (length notes <? maxNotes)%nat then notes ++ [task_note e]
  else if (length notes =? maxNotes)%nat then notes ++ [ellipsis] else notes.

Section executor.
Context `{Env} (cfg : ScanConfig) (decode : string → result string scanNetworkPayload) (validUUID : string → bool) (actor : string).

Definition auditScan (req : exec_request) (job : IPScanJob) : M () :=
  r ← Row {| e_TenantID := rq_TenantID req; e_EventType := ScanStarted; e_ActorKind := AuditLog.ActorService; e_ActorID := actor;
             e_SubjectKind := SubjectScan; e_SubjectID := sj_ID job; e_Target := ""; e_Outcome := OutcomeOK; e_Reason := "";
             e_Details := [("trigger", AnyString "scheduler"); ("execution_id", AnyString (rq_ExecutionID req));
                           ("subnet_id", AnyString (sj_SubnetID job))] |} (sj_CreatedAt job);
  try (AppendAudit match r with Ok row => row | Err _ => zero_AuditRow end);; mret ().

(** The loop over the targets; [Err]: the single target was not found. *)
Fixpoint queue_all (req : exec_request) (subj : Subjects) (opts : ScanOptions) (single : bool) (sum : Summary) (notes : list string)
    (targets : list string) : M (result exec_result (Summary * list string)) :=
  match targets with
  | [] => mret (Ok (sum, notes))
  | id :: rest_ =>
      r ← try (StartScan cfg subj id opts);
      match r with
      | Ok job => auditScan req job;;
                  queue_all req subj opts single {| sum with sum_Queued := sum_Queued sum + 1; sum_JobIDs := sum_JobIDs sum ++ [sj_ID job] |} notes rest_
      | Err e =>
          if is_skip e then queue_all req subj opts single {| sum with sum_Skipped := sum_Skipped sum + 1 |} notes rest_
          else if single && is_not_found e then mret (Err (ExecPermanent "subnet not found"))
          else queue_all req subj opts single {| sum with sum_Failed := sum_Failed sum + 1 |} (add_note notes e) rest_
      end
  end.

(** The subnets a payload names, or the answer when it names none. *)
Definition targets_of (req : exec_request) (p : scanNetworkPayload) : M (result exec_result (list string)) :=
  if negb (is_empty (pl_SubnetID p)) then mret (Ok [pl_SubnetID p])
  else if negb (is_empty (pl_CIDR p)) then
    match canonical (pl_CIDR p) with
    | Err _ => mret (Err (ExecPermanent "cidr is not a valid CIDR"))
    | Ok want =>
        r ← try (AllSubnetCIDRs (rq_TenantID req));
        mret match r with
             | Err _ => Err (ExecRetry "listing subnets failed" None)
             | Ok subs =>
                 match find_first (λ s, match canonical (sn_CIDR s) with Ok c => c =s want | Err _ => false end) subs with
                 | Some s => Ok [sn_ID s]
                 | None => Err (ExecPermanent "no subnet found for cidr")
                 end
             end
    end
  else
    r ← try (AllSubnetCIDRs (rq_TenantID req));
    mret match r with
         | Err _ => Err (ExecRetry "listing subnets failed" None)
         | Ok [] => Err (ExecOK "no subnets to scan" None)
         | Ok subs => Ok (sn_ID <$> subs)
         end.

Definition scan_options (p : scanNetworkPayload) : ScanOptions :=
  {| so_EnableSNMP := default false (pl_EnableSnmp p); so_SNMPAuto := negb (is_some (pl_EnableSnmp p));
     so_EnableDNSUpdate := pl_EnableDNSUpdate p; so_SkipReverseDNS := false; so_Trigger := TriggerAuto |}.

Definition summary_text (sum : Summary) : string :=
  "queued " +:+ Z_text (sum_Queued sum) +:+ " scan(s), skipped " +:+ Z_text (sum_Skipped sum).

Definition ScanNetwork (req : exec_request) : M exec_result :=
  match decode (rq_Payload req) with
  | Err msg => mret (ExecPermanent ("invalid payload: " +:+ msg))
  | Ok p0 =>
      let p := {| p0 with pl_CIDR := TrimSpace (pl_CIDR p0) |} in
      let single := negb (is_empty (pl_SubnetID p)) || negb (is_empty (pl_CIDR p)) in
      if negb (is_empty (pl_SubnetID p)) && negb (is_empty (pl_CIDR p)) then mret (ExecPermanent "subnetId and cidr are mutually exclusive")
      else if pl_All p && single then mret (ExecPermanent "all cannot be combined with subnetId or cidr")
      else if negb (is_empty (pl_SubnetID p)) && negb (validUUID (pl_SubnetID p)) then mret (ExecPermanent "subnetId must be a UUID")
      else
        t ← targets_of req p;
        match t with
        | Err res => mret res
        | Ok targets =>
            let subj := {| su_TenantID := rq_TenantID req; su_UserID := actor; su_Roles := []; su_ActorKind := Authz.ActorService |} in
            q ← queue_all req subj (scan_options p) single no_summary [] targets;
            mret match q with
                 | Err res => res
                 | Ok (sum, notes) =>
                     if 0 <? sum_Failed sum then
                       ExecRetry (summary_text sum +:+ ", failed " +:+ Z_text (sum_Failed sum) +:+ " (" +:+ GoText.join "; " notes +:+ ")") (Some sum)
                     else ExecOK (summary_text sum) (Some sum)
                 end
        end
  end.
End executor.

(** ** Specification *)

(** What one target's [StartScan] came to. *)
Definition outcome : Type := string * result error IPScanJob.

Definition queued_job (o : outcome) : option IPScanJob := match snd o with Ok j => Some j | Err _ => None end.
Definition skipped_target (o : outcome) : bool := match snd o with Ok _ => false | Err e => is_skip e end.
Definition failed_target (o : outcome) : bool := match snd o with Ok _ => false | Err e => negb (is_skip e) end.

Definition count_of {A} (f : A → bool) (l : list A) : Z := Z.of_nat (length (List.filter f l)).

(** The report of a list of outcomes. *)
Definition report (outs : list outcome) : Summary :=
  {| sum_Queued := Z.of_nat (length (omap queued_job outs)); sum_Skipped := count_of skipped_target outs;
     sum_Failed := count_of failed_target outs; sum_JobIDs := sj_ID <$> omap queued_job outs |}.

(** A payload the task accepts. *)
Definition payload_valid (validUUID : string → bool) (p : scanNetworkPayload) : Prop :=
  (pl_SubnetID p = ""%string ∨ pl_CIDR p = ""%string) ∧
  (pl_All p = true → pl_SubnetID p = ""%string ∧ pl_CIDR p = ""%string) ∧
  (pl_SubnetID p ≠ ""%string → validUUID (pl_SubnetID p) = true) ∧
  (pl_CIDR p ≠ ""%string → ∃ c, canonical (pl_CIDR p) = Ok c).

(** The subnets of [tenant] that [ids] must name for the payload: the one
    given, the stored one with the given block, or all of them. *)
Definition names_targets (tenant : string) (m : Mem) (p : scanNetworkPayload) (ids : list string) : Prop :=
  pl_SubnetID p ≠ ""%string ∧ ids = [pl_SubnetID p] ∨
  pl_SubnetID p = ""%string ∧ pl_CIDR p ≠ ""%string ∧
    (∃ k s, mem_subnets m !! k = Some s ∧ sn_TenantID s = tenant ∧ canonical (sn_CIDR s) = canonical (pl_CIDR p) ∧ ids = [sn_ID s]) ∨
  pl_SubnetID p = ""%string ∧ pl_CIDR p = ""%string ∧
    ids ≡ₚ sn_ID <$> map_select (λ s, sn_TenantID s =s tenant) (mem_subnets m) ∧ ids ≠ [].

(** No subnet of [tenant] has the block of the payload. *)
Definition no_such_block (tenant : string) (m : Mem) (p : scanNetworkPayload) : Prop :=
  pl_CIDR p ≠ ""%string ∧
  ∀ k s, mem_subnets m !! k = Some s → sn_TenantID s = tenant → canonical (sn_CIDR s) ≠ canonical (pl_CIDR p).

Section accounts.
Context `{Env} (cfg : ScanConfig) (actor : string).

Definition task_subject (req : exec_request) : Subjects :=
  {| su_TenantID := rq_TenantID req; su_UserID := actor; su_Roles := []; su_ActorKind := Authz.ActorService |}.

(** A [StartScan] per target, in order, with an audit row for each job. *)
Inductive ran (req : exec_request) (subj : Subjects) (opts : ScanOptions) (w : World) : list outcome → World → Prop :=
| ran_nil : ran req subj opts w [] w
| ran_failed outs id w1 w2 e :
    ran req subj opts w outs w1 → StartScan cfg subj id opts w1 = (w2, Err e) → ran req subj opts w (outs ++ [(id, Err e)]) w2
| ran_queued outs id w1 w2 j :
    ran req subj opts w outs w1 → StartScan cfg subj id opts w1 = (w2, Ok j) →
    ran req subj opts w (outs ++ [(id, Ok j)]) (fst (auditScan actor req j w2)).

(** The table gains active jobs of [tenant] under [ids] and nothing else. *)
Definition gained (tenant : string) (ids : list string) (T T' : gmap string IPScanJob) : Prop :=
  ∀ k, if decide (k ∈ ids) then ∃ j, T' !! k = Some j ∧ sj_TenantID j = tenant ∧ active j = true else T' !! k = T !! k.

(** What the task did for an accepted payload and a non-empty target list. *)
Definition scanned (req : exec_request) (p : scanNetworkPayload) (w w' : World) (sum : Summary) (outs : list outcome) : Prop :=
  names_targets (rq_TenantID req) (w_mem w) p outs.*1 ∧
  ran req (task_subject req) (scan_options p) w outs w' ∧ sum = report outs ∧
  gained (rq_TenantID req) (sum_JobIDs sum) (mem_scans (w_mem w)) (mem_scans (w_mem w')).

(** Every answer of the task to a payload that decodes. *)
Definition task_outcome (validUUID : string → bool) (req : exec_request) (p : scanNetworkPayload) (w w' : World) (res : exec_result) : Prop :=
  match res with
  | ExecOK _ (Some sum) =>
      payload_valid validUUID p ∧ ∃ outs, scanned req p w w' sum outs ∧ Forall (λ o, failed_target o = false) outs
  | ExecRetry _ (Some sum) =>
      payload_valid validUUID p ∧ ∃ outs, scanned req p w w' sum outs ∧ Exists (λ o, failed_target o = true) outs
  | ExecRetry _ None =>
      payload_valid validUUID p ∧ pl_SubnetID p = ""%string ∧ "AllSubnetCIDRs"%string ∈ mem_failNext (w_mem w) ∧
      mem_scans (w_mem w') = mem_scans (w_mem w)
  | ExecOK _ None =>
      payload_valid validUUID p ∧ pl_SubnetID p = ""%string ∧ pl_CIDR p = ""%string ∧ w' = w ∧
      ∀ k s, mem_subnets (w_mem w) !! k = Some s → sn_TenantID s ≠ rq_TenantID req
  | ExecPermanent _ =>
      mem_scans (w_mem w') = mem_scans (w_mem w) ∧
      (¬ payload_valid validUUID p ∨ no_such_block (rq_TenantID req) (w_mem w) p ∨
       ∃ id e, names_targets (rq_TenantID req) (w_mem w) p [id] ∧ is_not_found e = true ∧
         StartScan cfg (task_subject req) id (scan_options p) w = (w', Err e))
  end.

(** ** The loop *)

Lemma auditScan_keeps req job : keeps mem_scans (auditScan actor req job).
Proof. unfold auditScan, AppendAudit, Row. frame. Qed.
Lemma auditScan_run req job w : auditScan actor req job w = (fst (auditScan actor req job w), Ok ()).
Proof.
  unfold auditScan. set (e := {| e_TenantID := _ |}). assert (Hr : ∃ w1 r, Row e (sj_CreatedAt job) w = (w1, Ok r)).
  { unfold Row. destruct (AuditLog.Validate e); eexists _, _; reflexivity. }
  destruct Hr as (w1 & r & Er). rewrite (bind_Ok _ _ _ _ _ Er). unfold mbind, M_bind, try.
  match goal with |- context [AppendAudit ?a ?b] => destruct (AppendAudit a b) as [w2 x] end. reflexivity.
Qed.

Lemma gained_refl tenant T : gained tenant [] T T.
Proof. intros k. by rewrite decide_False by (by intros ?%elem_of_nil). Qed.
Lemma gained_step tenant ids T T1 T2 j :
  gained tenant ids T T1 → T2 = <[sj_ID j := j]> T1 → sj_TenantID j = tenant → active j = true → gained tenant (ids ++ [sj_ID j]) T T2.
Proof.
  intros Hg -> Ht Ha k. specialize (Hg k). destruct (decide (k = sj_ID j)) as [->|Hne].
  - rewrite decide_True by set_solver. exists j. by rewrite lookup_insert_eq.
  - rewrite lookup_insert_ne by done. rewrite (decide_ext (k ∈ ids ++ [sj_ID j]) (k ∈ ids)); [done|]. set_solver.
Qed.

Lemma report_snoc outs o :
  report (outs ++ [o]) =
  {| sum_Queued := sum_Queued (report outs) + (if queued_job o then 1 else 0);
     sum_Skipped := sum_Skipped (report outs) + (if skipped_target o then 1 else 0);
     sum_Failed := sum_Failed (report outs) + (if failed_target o then 1 else 0);
     sum_JobIDs := sum_JobIDs (report outs) ++ match queued_job o with Some j => [sj_ID j] | None => [] end |}.
Proof.
  unfold report, count_of; cbn [sum_Queued sum_Skipped sum_Failed sum_JobIDs].
  rewrite !List.filter_app, !length_app, omap_snoc, fmap_app, length_app. cbn [List.filter].
  f_equal; [|..|]; try (destruct (queued_job o); cbn; [lia|lia]); try (destruct (skipped_target o); cbn; lia);
    try (destruct (failed_target o); cbn; lia). by destruct (queued_job o).
Qed.

Lemma ran_gained req subj opts w outs w' :
  ran req subj opts w outs w' → gained (su_TenantID subj) (sum_JobIDs (report outs)) (mem_scans (w_mem w)) (mem_scans (w_mem w')).
Proof.
  induction 1 as [|outs id w1 w2 e Hran IH E|outs id w1 w2 j Hran IH E]; [apply gained_refl|..];
    rewrite report_snoc; cbn [sum_JobIDs]; pose proof (StartScan_table cfg subj id opts _ w1 eq_refl) as Ht; rewrite E in Ht; cbn [fst snd] in Ht.
  - destruct Ht as [(e' & _ & HT)|(j & [=] & _)]. cbn. by rewrite app_nil_r, HT.
  - destruct Ht as [(e' & [=] & _)|(j' & [= <-] & HT & Ha & Hten & _)]. cbn.
    eapply gained_step; [exact IH|by rewrite (auditScan_keeps req j w2)|done|done].
Qed.

Lemma queue_all_spec req subj opts single targets w0 : ∀ pre notes w,
  ran req subj opts w0 pre w →
  ∃ w' r, queue_all cfg actor req subj opts single (report pre) notes targets w = (w', Ok r) ∧
    match r with
    | Ok (sum, _) => ∃ outs, ran req subj opts w0 (pre ++ outs) w' ∧ outs.*1 = targets ∧ sum = report (pre ++ outs)
    | Err res => single = true ∧ res = ExecPermanent "subnet not found" ∧
        ∃ outs id rest w1 e, targets = outs.*1 ++ id :: rest ∧ ran req subj opts w0 (pre ++ outs) w1 ∧
          StartScan cfg subj id opts w1 = (w', Err e) ∧ is_not_found e = true
    end.
Proof.
  induction targets as [|id targets IH]; intros pre notes w Hran; cbn [queue_all].
  { eexists _, _. split; [reflexivity|]. exists []. by rewrite app_nil_r. }
  assert (Hstep : ∀ o notes' w1, ran req subj opts w0 (pre ++ [o]) w1 → fst o = id →
    ∃ w' r, queue_all cfg actor req subj opts single (report (pre ++ [o])) notes' targets w1 = (w', Ok r) ∧
    match r with
    | Ok (sum, _) => ∃ outs, ran req subj opts w0 (pre ++ outs) w' ∧ outs.*1 = id :: targets ∧ sum = report (pre ++ outs)
    | Err res => single = true ∧ res = ExecPermanent "subnet not found" ∧
        ∃ outs id' rest w1 e, id :: targets = outs.*1 ++ id' :: rest ∧ ran req subj opts w0 (pre ++ outs) w1 ∧
          StartScan cfg subj id' opts w1 = (w', Err e) ∧ is_not_found e = true
    end).
  { intros o notes' w1 Hran1 <-. destruct (IH (pre ++ [o]) notes' w1 Hran1) as (w' & r & E & Hr). exists w', r. split; [done|].
    destruct r as [[sum ns]|res].
    - destruct Hr as (outs & Hr & Ho & Hs). exists (o :: outs). rewrite <- app_assoc in Hr, Hs. cbn. by rewrite Ho.
    - destruct Hr as (Hsg & Hres & outs & id' & rest & w2 & e & Ht & Hr & Hrun). split_and!; [done|done|].
      exists (o :: outs), id', rest, w2, e. rewrite <- app_assoc in Hr. cbn. by rewrite Ht. }
  unfold mbind at 1, M_bind at 1, try. destruct (StartScan cfg subj id opts w) as [w1 [j|e]] eqn:E.
  - rewrite (bind_Ok _ _ _ _ _ (auditScan_run req j w1)).
    pose proof (ran_queued _ _ _ _ _ _ _ _ _ Hran E) as Hran1. specialize (Hstep _ notes _ Hran1 eq_refl).
    rewrite report_snoc in Hstep. cbn in Hstep. rewrite !Z.add_0_r in Hstep. exact Hstep.
  - pose proof (ran_failed _ _ _ _ _ _ _ _ _ Hran E) as Hran1. destruct (is_skip e) eqn:Ek; [|destruct (single && is_not_found e) eqn:Es].
    + specialize (Hstep _ notes _ Hran1 eq_refl). rewrite report_snoc in Hstep.
      unfold skipped_target, failed_target, queued_job in Hstep. cbn in Hstep. rewrite Ek in Hstep. cbn in Hstep.
      rewrite !Z.add_0_r, app_nil_r in Hstep. exact Hstep.
    + apply andb_true_iff in Es as [Es Hnf]. eexists w1, _. split; [reflexivity|]. split_and!; [done|done|].
      exists [], id, targets, w, e. by rewrite app_nil_r.
    + specialize (Hstep _ (add_note notes e) _ Hran1 eq_refl). rewrite report_snoc in Hstep.
      unfold skipped_target, failed_target, queued_job in Hstep. cbn in Hstep. rewrite Ek in Hstep. cbn in Hstep.
      rewrite !Z.add_0_r, app_nil_r in Hstep. exact Hstep.
Qed.

(** ** The targets *)

Lemma AllSubnetCIDRs_try tenant w :
  (∃ l, try (AllSubnetCIDRs tenant) w = (w, Ok (Ok l)) ∧ l ≡ₚ map_select (λ s, sn_TenantID s =s tenant) (mem_subnets (w_mem w))) ∨
  ("AllSubnetCIDRs"%string ∈ mem_failNext (w_mem w) ∧ ∃ w1 e, try (AllSubnetCIDRs tenant) w = (w1, Ok (Err e)) ∧ mem_scans (w_mem w1) = mem_scans (w_mem w)).
Proof.
  destruct (decide ("AllSubnetCIDRs"%string ∈ mem_failNext (w_mem w))) as [Hf|Hf].
  - right. split; [done|]. unfold try, AllSubnetCIDRs, fail, mbind, M_bind, mem. rewrite decide_True by done.
    eexists _, _. split; [reflexivity|done].
  - left. destruct (AllSubnetCIDRs_run tenant w Hf) as (l & E & Hl). exists l. unfold try. by rewrite E.
Qed.

Lemma elem_of_tenant_rows tenant m s :
  s ∈ map_select (λ s, sn_TenantID s =s tenant) (mem_subnets m) ↔ sn_TenantID s = tenant ∧ ∃ k, mem_subnets m !! k = Some s.
Proof. rewrite elem_of_map_select, String.eqb_eq. done. Qed.

Lemma targets_of_spec validUUID req p w :
  (pl_SubnetID p = ""%string ∨ pl_CIDR p = ""%string) →
  (pl_All p = true → pl_SubnetID p = ""%string ∧ pl_CIDR p = ""%string) →
  (pl_SubnetID p ≠ ""%string → validUUID (pl_SubnetID p) = true) →
  ∃ w' t, targets_of req p w = (w', Ok t) ∧
    match t with
    | Ok ids => w' = w ∧ payload_valid validUUID p ∧ names_targets (rq_TenantID req) (w_mem w) p ids
    | Err res => task_outcome validUUID req p w w' res
    end.
Proof.
  intros Hone Hall Huuid. unfold targets_of.
  destruct (is_empty (pl_SubnetID p)) eqn:Eid; cbn [negb].
  2:{ assert (Hne : pl_SubnetID p ≠ ""%string) by (intros E; rewrite E in Eid; done).
      eexists w, _. split; [reflexivity|]. split; [done|]. split; [|by left]. split_and!; try done. intros Hc. destruct Hone; done. }
  apply is_empty_spec in Eid. destruct (is_empty (pl_CIDR p)) eqn:Ec; cbn [negb].
  - apply is_empty_spec in Ec. assert (Hv : payload_valid validUUID p) by (unfold payload_valid; rewrite Eid, Ec; naive_solver).
    destruct (AllSubnetCIDRs_try (rq_TenantID req) w) as [(l & E & Hl)|(Hf & w1 & e & E & Hm)]; rewrite (bind_Ok _ _ _ _ _ E).
    + destruct l as [|s l]; (eexists w, _; split; [reflexivity|]).
      * unfold task_outcome. split_and!; try done. intros k s Hk Ht. apply (elem_of_nil s). rewrite Hl. apply elem_of_tenant_rows. eauto.
      * split; [done|]. split; [exact Hv|]. right. right. split_and!; [done|done|by rewrite Hl|done].
    + eexists w1, _. split; [reflexivity|]. done.
  - assert (Hne : pl_CIDR p ≠ ""%string) by (intros E; rewrite E in Ec; done).
    destruct (canonical (pl_CIDR p)) as [want|e] eqn:Ew.
    2:{ eexists w, _. split; [reflexivity|]. cbn. split; [done|]. left. intros (_ & _ & _ & Hc). destruct (Hc Hne) as [c Hc']. congruence. }
    assert (Hv : payload_valid validUUID p) by (unfold payload_valid; rewrite Ew; naive_solver).
    destruct (AllSubnetCIDRs_try (rq_TenantID req) w) as [(l & E & Hl)|(Hf & w1 & e & E & Hm)]; rewrite (bind_Ok _ _ _ _ _ E).
    2:{ eexists w1, _. split; [reflexivity|]. done. }
    destruct (find_first _ l) as [s|] eqn:Ef; (eexists w, _; split; [reflexivity|]).
    + split; [done|]. split; [exact Hv|]. right. left. split_and!; [done|done|].
      apply find_first_Some in Ef as [Hin Hc]. rewrite Hl in Hin. apply elem_of_tenant_rows in Hin as [Ht [k Hk]].
      exists k, s. split_and!; try done. destruct (canonical (sn_CIDR s)); [|done]. apply String.eqb_eq in Hc. congruence.
    + cbn. split; [done|]. right. left. split; [done|]. intros k s Hk Ht Hc.
      assert (Hin : s ∈ l) by (rewrite Hl; apply elem_of_tenant_rows; eauto).
      pose proof (find_first_None _ _ _ Ef Hin) as Hno. cbn in Hno. rewrite Hc, Ew, String.eqb_refl in Hno. done.
Qed.

Lemma names_targets_single tenant m p ids :
  names_targets tenant m p ids → pl_SubnetID p ≠ ""%string ∨ pl_CIDR p ≠ ""%string → ∃ id, ids = [id].
Proof. intros [(_ & ->)|[(_ & _ & k & s & _ & _ & _ & ->)|(E1 & E2 & _)]] Hs; [eauto..|]. destruct Hs; done. Qed.

Lemma count_of_zero {A} (f : A → bool) l : 0 <? count_of f l = false → Forall (λ x, f x = false) l.
Proof.
  unfold count_of. induction l as [|x l IH]; cbn; [constructor|]. destruct (f x) eqn:E; cbn [length]; [intros ?%Z.ltb_ge; lia|]. intros Hz. by constructor; auto.
Qed.
Lemma count_of_pos {A} (f : A → bool) l : 0 <? count_of f l = true → Exists (λ x, f x = true) l.
Proof.
  unfold count_of. induction l as [|x l IH]; cbn; [done|]. destruct (f x) eqn:E; [by left|]. intros Hz. right. by apply IH.
Qed.

Lemma queue_targets_spec validUUID req p ids w :
  payload_valid validUUID p → names_targets (rq_TenantID req) (w_mem w) p ids →
  let single := negb (is_empty (pl_SubnetID p)) || negb (is_empty (pl_CIDR p)) in
  ∃ w' q, queue_all cfg actor req (task_subject req) (scan_options p) single no_summary [] ids w = (w', Ok q) ∧
    match q with
    | Err res => task_outcome validUUID req p w w' res
    | Ok (sum, _) => ∃ outs, scanned req p w w' sum outs
    end.
Proof.
  intros Hv Hids single.
  destruct (queue_all_spec req (task_subject req) (scan_options p) single ids w [] [] w ltac:(constructor)) as (w' & q & E & Hq).
  exists w', q. split; [exact E|]. destruct q as [[sum notes]|res].
  - destruct Hq as (outs & Hran & Ho & ->). exists outs. unfold scanned. rewrite Ho. split_and!; [done|done|done|].
    exact (ran_gained _ _ _ _ _ _ Hran).
  - destruct Hq as (Hs & -> & outs & id & rest & w1 & e & Ht & Hran & Hrun & Hnf).
    destruct (names_targets_single _ _ _ _ Hids) as [id' Hid'].
    { unfold single in Hs. apply orb_true_iff in Hs as [Hs|Hs]; apply negb_true_iff in Hs; [left|right]; intros Ee; by rewrite Ee in Hs. }
    rewrite Hid' in Ht. destruct outs as [|o outs]; [|by destruct outs]. cbn in Ht. injection Ht as -> <-.
    cbn in Hran. inversion Hran; subst; [|by destruct outs..].
    cbn. split; [|right; right; exists id, e; done].
    pose proof (StartScan_table cfg (task_subject req) id (scan_options p) _ w1 eq_refl) as HT. rewrite Hrun in HT.
    by destruct HT as [(? & _ & HT)|(? & [=] & _)].
Qed.
End accounts.

