(* ===== verification/HwChanges.v ===== *)
(** * internal/hostplan/hardware.go: differences between hardware profiles

    [hardwareChanges] lists the field-level differences of two profiles for
    the audit row: scalar fields in a fixed order, then the keyed entries of
    the disk, filesystem, memory-slot and processor lists.  Slices are lists:
    a nil and an empty slice, which the code never mixes in one profile, are
    the same. *)

From S2P Require Import Prelude Models Store HostNorm.

#[export] Instance HardwareDisk_eq_dec : EqDecision HardwareDisk.
Proof. solve_decision. Defined.
#[export] Instance HardwareFilesystem_eq_dec : EqDecision HardwareFilesystem.
Proof. solve_decision. Defined.
#[export] Instance HardwareMemorySlot_eq_dec : EqDecision HardwareMemorySlot.
Proof. solve_decision. Defined.
#[export] Instance HardwareProcessor_eq_dec : EqDecision HardwareProcessor.
Proof. solve_decision. Defined.

Definition MaxHardwareChanges : nat := 100.

(** One entry of the list; [fmt.Sprint] of a string or an integer. *)
Definition changed (field before after : string) : list (string * any) :=
  [("field", AnyString field); ("change", AnyString "changed"); ("before", AnyString before); ("after", AnyString after)].

Definition scalar_str (field x y : string) : list (list (string * any)) := if x =s y then [] else [changed field x y].
Definition scalar_int (field : string) (x y : Z) : list (list (string * any)) :=
  if x =? y then [] else [changed field (Z_text x) (Z_text y)].

(** [join]: the non-empty parts of a description, separated by a middle dot. *)
Definition middle_dot : string := String " " (String "194" (String "183" " ")).
Definition join (parts : list string) : string :=
  String.concat middle_dot (List.filter (λ s, negb (is_empty s || (s =s "0"))) parts).

Definition descDisk (d : HardwareDisk) : string :=
  join [hd_Name d; hd_Model d; hd_Vendor d; hd_Serial d; Z_text (hd_SizeBytes d); hd_Media d; hd_Interface d;
        if hd_Removable d then "removable" else ""]%string.
Definition descFS (f : HardwareFilesystem) : string :=
  join [hf_FS f; Z_text (hf_SizeBytes f); String.concat "," (hf_Disks f)].
Definition descSlot (s : HardwareMemorySlot) : string :=
  if negb (hms_Populated s) then join ["empty"%string; hms_Bank s]
  else join [hms_Bank s; Z_text (hms_SizeBytes s); hms_Type s; hms_FormFactor s; String.concat "," (hms_TypeDetail s);
             Z_text (hms_SpeedMTs s); Z_text (hms_ConfiguredMTs s); hms_Manufacturer s; hms_PartNumber s; hms_Serial s].
Definition descProc (p : HardwareProcessor) : string :=
  join [hpr_Model p; hpr_Family p; hpr_Manufacturer p; Z_text (hpr_Cores p) +:+ "c"; Z_text (hpr_Threads p) +:+ "t";
        Z_text (hpr_MaxMHz p); Z_text (hpr_CurrentMHz p); if hpr_Populated p then "populated" else "empty"]%string.

Section lists.
Context {T : Type} `{EqDecision T}.

(** [keyed]: entries under their key, "#<position>" for an empty key and
    "#<occurrence>" after a repeated one. *)
Fixpoint keyed_from (i : Z) (seen : gmap string Z) (out : gmap string T) (key : T → string) (l : list T) : gmap string T :=
  match l with
  | [] => out
  | e :: l' =>
      let k := if is_empty (key e) then "#" +:+ Z_text (i + 1) else key e in
      let n := default 0 (seen !! k) + 1 in
      let seen := <[k := n]> seen in
      keyed_from (i + 1) seen (<[(if 1 <? n then k +:+ "#" +:+ Z_text n else k) := e]> out) key l'
  end.
Definition keyed_entries (key : T → string) (l : list T) : gmap string T := keyed_from 0 ∅ ∅ key l.

Definition sortedSet (s : gset string) : list string := sort_strings (elements s).

Definition entry_change (kind : string) (a b : gmap string T) (desc : T → string) (k : string) : list (list (string * any)) :=
  let field := kind +:+ "[" +:+ k +:+ "]" in
  match a !! k, b !! k with
  | None, Some y => [[("field", AnyString field); ("change", AnyString "added"); ("after", AnyString (desc y))]]
  | Some x, None => [[("field", AnyString field); ("change", AnyString "removed"); ("before", AnyString (desc x))]]
  | Some x, Some y => if decide (x = y) then [] else [changed field (desc x) (desc y)]
  | None, None => []
  end.

Definition listChanges (kind : string) (a b : gmap string T) (desc : T → string) : list (list (string * any)) :=
  concat (entry_change kind a b desc <$> sortedSet (dom a ∪ dom b)).
End lists.

Definition fsKey (f : HardwareFilesystem) : string := hf_Mount f.
Definition procKey (p : HardwareProcessor) : string := hpr_Socket p.
Definition noFree (l : list HardwareFilesystem) : list HardwareFilesystem := no_free <$> l.

Definition slotKeys (l : list HardwareMemorySlot) : gmap string HardwareMemorySlot :=
  let count loc := Z.of_nat (length (List.filter (λ s, hms_Locator s =s loc) l)) in
  keyed_entries (λ s, if negb (is_empty (hms_Locator s)) && (1 <? count (hms_Locator s))
                      then hms_Locator s +:+ "/" +:+ hms_Bank s else hms_Locator s) l.

Definition sameUsage (a b : list HardwareFilesystem) : bool := bool_decide (hf_FreeBytes <$> a = hf_FreeBytes <$> b).

Definition summaryDetail (s : HardwareSummary) : list (string * any) :=
  [("cpu_model", AnyString (hws_CPUModel s)); ("cpu_cores", AnyInt (hws_CPUCores s));
   ("memory_total_bytes", AnyInt (hws_MemoryTotalBytes s)); ("memory_type", AnyString (hws_MemoryType s));
   ("disk_count", AnyInt (hws_DiskCount s)); ("disk_total_bytes", AnyInt (hws_DiskTotalBytes s))].

Definition field_of (c : list (string * any)) : string :=
  match c with (_, AnyString f) :: _ => f | _ => "" end.

Definition scalarChanges (a b : HardwareProfile) : list (list (string * any)) :=
  scalar_str "bios.vendor" (hb_Vendor (hp_BIOS a)) (hb_Vendor (hp_BIOS b)) ++
  scalar_str "bios.version" (hb_Version (hp_BIOS a)) (hb_Version (hp_BIOS b)) ++
  scalar_str "bios.release_date" (hb_ReleaseDate (hp_BIOS a)) (hb_ReleaseDate (hp_BIOS b)) ++
  scalar_str "system.manufacturer" (hsy_Manufacturer (hp_System a)) (hsy_Manufacturer (hp_System b)) ++
  scalar_str "system.product" (hsy_Product (hp_System a)) (hsy_Product (hp_System b)) ++
  scalar_str "system.version" (hsy_Version (hp_System a)) (hsy_Version (hp_System b)) ++
  scalar_str "system.serial" (hsy_Serial (hp_System a)) (hsy_Serial (hp_System b)) ++
  scalar_str "system.uuid" (hsy_UUID (hp_System a)) (hsy_UUID (hp_System b)) ++
  scalar_str "system.sku" (hsy_SKU (hp_System a)) (hsy_SKU (hp_System b)) ++
  scalar_str "system.family" (hsy_Family (hp_System a)) (hsy_Family (hp_System b)) ++
  scalar_str "board.manufacturer" (hbd_Manufacturer (hp_Board a)) (hbd_Manufacturer (hp_Board b)) ++
  scalar_str "board.product" (hbd_Product (hp_Board a)) (hbd_Product (hp_Board b)) ++
  scalar_str "board.serial" (hbd_Serial (hp_Board a)) (hbd_Serial (hp_Board b)) ++
  scalar_str "chassis.type" (hc_Type (hp_Chassis a)) (hc_Type (hp_Chassis b)) ++
  scalar_str "chassis.manufacturer" (hc_Manufacturer (hp_Chassis a)) (hc_Manufacturer (hp_Chassis b)) ++
  scalar_str "chassis.serial" (hc_Serial (hp_Chassis a)) (hc_Serial (hp_Chassis b)) ++
  scalar_str "chassis.asset_tag" (hc_AssetTag (hp_Chassis a)) (hc_AssetTag (hp_Chassis b)) ++
  scalar_int "memory.total_bytes" (hmm_TotalBytes (hp_Memory a)) (hmm_TotalBytes (hp_Memory b)) ++
  scalar_str "memory.error_correction" (hmm_ErrorCorrection (hp_Memory a)) (hmm_ErrorCorrection (hp_Memory b)) ++
  scalar_str "memory.location" (hmm_Location (hp_Memory a)) (hmm_Location (hp_Memory b)) ++
  scalar_str "memory.use" (hmm_Use (hp_Memory a)) (hmm_Use (hp_Memory b)) ++
  scalar_int "memory.max_capacity_bytes" (hmm_MaxCapacityBytes (hp_Memory a)) (hmm_MaxCapacityBytes (hp_Memory b)) ++
  scalar_int "memory.slots_total" (hmm_SlotsTotal (hp_Memory a)) (hmm_SlotsTotal (hp_Memory b)) ++
  scalar_int "memory.slots_used" (hmm_SlotsUsed (hp_Memory a)) (hmm_SlotsUsed (hp_Memory b)) ++
  scalar_str "availability.smbios" (ha_SMBIOS (hp_Availability a)) (ha_SMBIOS (hp_Availability b)) ++
  scalar_str "availability.disks" (ha_Disks (hp_Availability a)) (ha_Disks (hp_Availability b)) ++
  scalar_int "schema" (hp_Schema a) (hp_Schema b) ++
  concat ((λ k, scalar_int ("truncated." +:+ k) (default 0 (hp_Truncated a !! k)) (default 0 (hp_Truncated b !! k)))
    <$> sortedSet (dom (hp_Truncated a) ∪ dom (hp_Truncated b))).

(** The serial-keyed disk list needs the serial test of the matcher. *)
Definition hardwareChanges (diskKey : HardwareDisk → string) (a b : HardwareProfile) : list (list (string * any)) :=
  let lists :=
    listChanges "disk" (keyed_entries diskKey (hp_Disks a)) (keyed_entries diskKey (hp_Disks b)) descDisk ++
    listChanges "filesystem" (keyed_entries fsKey (noFree (hp_Filesystems a))) (keyed_entries fsKey (noFree (hp_Filesystems b))) descFS ++
    listChanges "memory.slot" (slotKeys (hmm_Slots (hp_Memory a))) (slotKeys (hmm_Slots (hp_Memory b))) descSlot ++
    listChanges "processor" (keyed_entries procKey (hp_Processors a)) (keyed_entries procKey (hp_Processors b)) descProc in
  scalarChanges a b ++ sort_by (λ x y, str_ltb (field_of x) (field_of y)) lists.
