(* ===== verification/HostPlan.v ===== *)
(** * internal/hostplan: the host-report planner

    [Build] plans the writes one validated report makes to the loaded state.
    The planner object is threaded as a record; it runs in the monad for the
    identifiers it draws and reads or writes no table.  A planned write is a
    tagged union, one constructor per [Kind]. *)

From S2P Require Import Prelude GoNet GoIP GoText Ipnet Placement Models Store Hostreport HostNorm HostTx AuditLog Events HwChanges.

(** ** Matching (match.go) *)

Definition MatchHostID : string := "host_id".
Definition MatchSerial : string := "serial".
Definition MatchName : string := "name".
Definition MatchCreated : string := "created".

Record Candidates : Type := { ca_ByHost : option Device; ca_BySerial : list Device; ca_ByName : list Device }.

Definition placeholderSerials : list string :=
  [""; "0"; "none"; "default string"; "to be filled by o.e.m."; "system serial number"; "not specified"; "123456789";
   "n/a"; "na"; "chassis serial number"; "not applicable"; "unknown"]%string.

Definition genericNames : list string :=
  [""; "localhost"; "localhost.localdomain"; "ubuntu"; "debian"; "raspberrypi"; "centos"; "fedora"; "unknown"; "host";
   "server"]%string.

Definition short (hostID : string) : string :=
  if (8 <? String.length hostID)%nat then String.substring 0 8 hostID else hostID.
Definition FallbackName (hostID : string) : string := "host-" +:+ short hostID.
Definition CollisionName (hostname hostID : string) : string := hostname +:+ " (" +:+ short hostID +:+ ")".
Definition baseName (r : Report) : string := if is_empty (rp_Hostname r) then FallbackName (rp_HostID r) else rp_Hostname r.
Definition CandidateNames (r : Report) : list string := [baseName r; CollisionName (baseName r) (rp_HostID r)].

(** ** Data (plan.go, address.go) *)

(** [Op]: a planned write; the constructor is its [Kind]. *)
Inductive write : Type :=
| OpCreateDevice (d : Device)
| OpUpdateDevice (d : Device)
| OpCreateInterface (i : DeviceInterface)
| OpUpdateInterface (i : DeviceInterface)
| OpCreateSubnet (s : Subnet)
| OpCreateAddress (a : IPAddress)
| OpUpdateAddress (a : IPAddress)
| OpReplacePackages (deviceID : string) (pkgs : list DevicePackage)
| OpReplaceGuests (deviceID : string) (guests : list HypervisorGuest)
| OpSetHypervisor (deviceID refID : string)
| OpSetGuestDevice (guestRowID refID deviceID : string)
| OpReplaceHardware (h : DeviceHardware).

Record Op : Type := { op_write : write; op_Audit : list AuditRow }.

Record PlanEvent : Type := { pe_Type : string; pe_Payload : list (string * any) }.

Record Plan : Type := {
  hpl_DeviceID : string; hpl_Match : string; hpl_Ops : list Op; hpl_Events : list PlanEvent;
  hpl_State : HostSyncDeviceState; hpl_Issues : list HostSyncIssue }.

Record Params : Type := {
  pm_TenantID : string; pm_RunID : string; pm_Trigger : string; pm_Now : Time; pm_Exclusions : list string;
  pm_ConflictMoves : Z; pm_ConflictWindow : Z }.

Record State : Type := {
  st_Candidates : Candidates; st_Interfaces : list DeviceInterface; st_Addresses : gmap string IPAddress;
  st_Subnets : list Subnet; st_Packages : list DevicePackage; st_Guests : list HypervisorGuest;
  st_MACOwners : list MACOwner; st_GuestDevices : list Device; st_GuestRows : list HypervisorGuest;
  st_Hardware : option DeviceHardware }.

Record reportedIface : Type := {
  rf_name : string; rf_mac : string; rf_kind : string; rf_speed : Z; rf_up : bool; rf_bmc : bool; rf_addrs : list Address }.

Record planner : Type := {
  pn_plan : Plan; pn_dev : Device; pn_created : bool; pn_issues : issues; pn_ifaces : list reportedIface;
  pn_subnets : list Candidate; pn_subnetNames : gset string }.

Definition zero_Plan : Plan :=
  {| hpl_DeviceID := ""; hpl_Match := ""; hpl_Ops := []; hpl_Events := []; hpl_State := zero_HostSyncDeviceState;
     hpl_Issues := [] |}.
Definition new_planner : planner :=
  {| pn_plan := zero_Plan; pn_dev := zero_Device; pn_created := false; pn_issues := ∅; pn_ifaces := []; pn_subnets := [];
     pn_subnetNames := ∅ |}.

Definition issue (field reason : string) (pl : planner) : planner :=
  {| pl with pn_issues := issues_add field reason 1 (pn_issues pl) |}.
Definition add (o : Op) (pl : planner) : planner :=
  let p := pn_plan pl in {| pl with pn_plan := {| p with hpl_Ops := hpl_Ops p ++ [o] |} |}.
Definition event_ (eventType action : string) (a : IPAddress) (pl : planner) : planner :=
  let p := pn_plan pl in
  {| pl with pn_plan := {| p with hpl_Events := hpl_Events p ++ [{| pe_Type := eventType;
     pe_Payload := IPAddressPayload action (ad_ID a) (ad_Address a) (ad_SubnetID a) (ad_Hostname a) (ad_DeviceID a) |}] |} |}.

Definition timePtr (t : Time) : option Time := if IsZero t then None else Some t.
Definition sameTime (a b : option Time) : bool :=
  match a, b with Some x, Some y => x =? y | None, None => true | _, _ => false end.
(** [time.Time.Sub]: saturates at the ends of [time.Duration]. *)
Definition Sub (a b : Time) : Z := Z.max MinInt64 (Z.min MaxInt64 (a - b)).
Definition Hour : Z := 3600000000000.

(** ** Change lists: before and after of the columns that differ *)

Definition change (field : string) (before after : any) : string * any :=
  (field, AnyMap [("before", before); ("after", after)]%string).
Definition str_change (field x y : string) : list (string * any) :=
  if x =s y then [] else [change field (AnyString x) (AnyString y)].
Definition bool_change (field : string) (x y : bool) : list (string * any) :=
  if Bool.eqb x y then [] else [change field (AnyBool x) (AnyBool y)].
Definition int_change (field : string) (x y : Z) : list (string * any) :=
  if x =? y then [] else [change field (AnyInt x) (AnyInt y)].
Definition fmtTime (t : option Time) : any := match t with None => AnyNil | Some t => AnyString (format_utc t) end.
Definition time_change (field : string) (x y : option Time) : list (string * any) :=
  if sameTime x y then [] else [change field (fmtTime x) (fmtTime y)].

Definition deviceChanges (a b : Device) : list (string * any) :=
  str_change "name" (dv_Name a) (dv_Name b) ++ str_change "device_type" (dv_DeviceType a) (dv_DeviceType b) ++
  str_change "virtualization_kind" (dv_VirtualizationKind a) (dv_VirtualizationKind b) ++
  str_change "os_type" (dv_OSType a) (dv_OSType b) ++ str_change "os_version" (dv_OSVersion a) (dv_OSVersion b) ++
  str_change "manufacturer" (dv_Manufacturer a) (dv_Manufacturer b) ++ str_change "model" (dv_Model a) (dv_Model b) ++
  str_change "serial_number" (dv_SerialNumber a) (dv_SerialNumber b) ++
  str_change "primary_ip" (dv_PrimaryIP a) (dv_PrimaryIP b) ++ str_change "primary_ipv6" (dv_PrimaryIPv6 a) (dv_PrimaryIPv6 b) ++
  str_change "management_ip" (dv_ManagementIP a) (dv_ManagementIP b) ++
  str_change "update_status" (dv_UpdateStatus a) (dv_UpdateStatus b) ++ str_change "source" (dv_Source a) (dv_Source b) ++
  str_change "inventory_host_id" (dv_InventoryHostID a) (dv_InventoryHostID b) ++
  str_change "report_state" (dv_ReportState a) (dv_ReportState b) ++
  str_change "report_digest" (dv_ReportDigest a) (dv_ReportDigest b) ++
  bool_change "reboot_required" (dv_RebootRequired a) (dv_RebootRequired b) ++
  bool_change "unattended_upgrades" (dv_UnattendedUpgrades a) (dv_UnattendedUpgrades b) ++
  time_change "last_seen" (dv_LastSeen a) (dv_LastSeen b) ++ time_change "last_report_at" (dv_LastReportAt a) (dv_LastReportAt b).

Definition ifaceChanges (a b : DeviceInterface) : list (string * any) :=
  str_change "mac_address" (di_MACAddress a) (di_MACAddress b) ++
  str_change "interface_type" (di_InterfaceType a) (di_InterfaceType b) ++
  int_change "speed_mbps" (di_SpeedMbps a) (di_SpeedMbps b) ++ bool_change "enabled" (di_Enabled a) (di_Enabled b) ++
  str_change "report_state" (di_ReportState a) (di_ReportState b).

Definition addrChanges (a b : IPAddress) : list (string * any) :=
  str_change "device_id" (ad_DeviceID a) (ad_DeviceID b) ++ str_change "interface_name" (ad_InterfaceName a) (ad_InterfaceName b) ++
  str_change "mac_address" (ad_MACAddress a) (ad_MACAddress b) ++ str_change "hostname" (ad_Hostname a) (ad_Hostname b) ++
  str_change "report_state" (ad_ReportState a) (ad_ReportState b) ++
  str_change "previous_device_id" (ad_PreviousDeviceID a) (ad_PreviousDeviceID b) ++
  bool_change "is_primary" (ad_IsPrimary a) (ad_IsPrimary b) ++ bool_change "conflict" (ad_Conflict a) (ad_Conflict b) ++
  int_change "move_count" (ad_MoveCount a) (ad_MoveCount b).

Definition MaxAuditNames : nat := 200.
Definition boundNames (names : list string) : list any := AnyString <$> take MaxAuditNames names.

(** ** BMC ports as interfaces (bmc.go) *)

Definition BMCInterfaceName (i : Z) : string := if i =? 0 then "bmc" else "bmc-" +:+ Z_text (i + 1).

(** [fmt.Sscanf(name, "bmc-%d", &n)]: the digits after the prefix, when they
    fit an int.  A sign cannot survive the comparison that follows it. *)
Fixpoint scan_digits (s : string) (n : Z) (seen : bool) : option Z :=
  match s with
  | String c s' => match dec_val c with
                   | Some d => if MaxInt64 <? n * 10 + d then None else scan_digits s' (n * 10 + d) true
                   | None => if seen then Some n else None
                   end
  | EmptyString => if seen then Some n else None
  end.
Definition IsBMCInterfaceName (name : string) : bool :=
  (name =s "bmc") ||
  (String.prefix "bmc-" name &&
   match scan_digits (String.substring 4 (String.length name - 4) name) 0 false with
   | Some n => (2 <=? n) && (name =s BMCInterfaceName (n - 1))
   | None => false
   end).

(** [setIf]. *)
Definition setIf (dst v : string) : string := if is_empty v then dst else v.

(** [dnsNameRe]: letters, digits, dots and dashes, up to 253, no dot or dash
    at either end. *)
Definition alnum_class (c : ascii) : bool := in_bytes 65 90 c || lower_class c || digit_class c.
Definition dnsNameRe (h : string) : bool :=
  match h with
  | EmptyString => false
  | String c _ =>
      (String.length h <=? 253)%nat && alnum_class c &&
      match String.get (String.length h - 1) h with Some l => alnum_class l | None => false end &&
      str_forallb (λ c, alnum_class c || Ascii.eqb c "." || Ascii.eqb c "-") h
  end.
Definition DNSHostname (h : string) : string := if dnsNameRe h then h else "".

Definition deviceType (role current : string) (create : bool) : string :=
  if role =s RoleVM then DevVM
  else if role =s RoleContainer then DevContainer
  else if (role =s RolePhysical) && (create || (current =s DevVM) || (current =s DevContainer)) then DevServer
  else if create then DevServer else current.

Section with_env.
Context `{Env}.

Definition IsPlaceholderSerial (s : string) : bool :=
  let s := ToLower (TrimSpace s) in
  existsb (String.eqb s) placeholderSerials || str_forallb (λ c, Ascii.eqb c "0" || Ascii.eqb c "x") s.
Definition IsGenericName (s : string) : bool := existsb (String.eqb (ToLower (TrimSpace s))) genericNames.

Definition linkedElsewhere (d : Device) (hostID : string) : bool :=
  negb (is_empty (dv_InventoryHostID d)) && negb (EqualFold (dv_InventoryHostID d) hostID).

Definition same_serial (r : Report) (d : Device) : bool := EqualFold (TrimSpace (dv_SerialNumber d)) (TrimSpace (rp_Serial r)).

Definition Match (c : Candidates) (r : Report) : option Device * string :=
  match ca_ByHost c with
  | Some d => (Some d, MatchHostID)
  | None =>
      let hits := List.filter (same_serial r) (ca_BySerial c) in
      let by_serial := if IsPlaceholderSerial (rp_Serial r) then None
                       else match hits with
                       | [d] => if linkedElsewhere d (rp_HostID r) then None else Some d
                       | _ => None
                       end in
      match by_serial with
      | Some d => (Some d, MatchSerial)
      | None =>
          let by_name := if is_empty (rp_Hostname r) || IsGenericName (rp_Hostname r) then None
                         else find_first (λ d, EqualFold (dv_Name d) (rp_Hostname r) && negb (linkedElsewhere d (rp_HostID r)))
                                (ca_ByName c) in
          match by_name with Some d => (Some d, MatchName) | None => (None, MatchCreated) end
      end
  end.

Definition name_taken (c : Candidates) (selfID name : string) : bool :=
  existsb (λ d, negb (dv_ID d =s selfID) && EqualFold (dv_Name d) name) (ca_ByName c).

Definition desiredName (c : Candidates) (r : Report) (selfID : string) : string :=
  if name_taken c selfID (baseName r) then CollisionName (baseName r) (rp_HostID r) else baseName r.

Definition bmc_prefix (b : BMC) : Z :=
  if bm_Prefix b =? 0 then if Addr_Is6 (bm_Address b) then 64 else 24 else bm_Prefix b.

(** One BMC port: its interface unless the name is taken. *)
Definition bmc_port (b : BMC) (taken : gset string) (st : list reportedIface * Z * Z) (p : BMCPort) : list reportedIface * Z * Z :=
  let '(out, skipped, i) := st in
  let name := BMCInterfaceName i in
  if decide (ToLower name ∈ taken) then (out, skipped + 1, i + 1)
  else
    let addrs := if (i =? 0) && Addr_IsValid (bm_Address b)
                 then [{| ra_Addr := bm_Address b; ra_Prefix := bmc_prefix b; ra_DHCP := false; ra_Temporary := false;
                          ra_Deprecated := false |}] else [] in
    (out ++ [{| rf_name := name; rf_mac := bp_MAC p; rf_kind := DevInterfaceKindManagement; rf_speed := 0; rf_up := true;
                rf_bmc := true; rf_addrs := addrs |}], skipped, i + 1).

Definition bmcInterfaces (b : option BMC) (taken : gset string) : list reportedIface * Z :=
  match b with
  | None => ([], 0)
  | Some b =>
      let ports := match bm_Ports b with [] => [{| bp_Channel := 0; bp_MAC := "" |}] | l => l end in
      fst (foldl (bmc_port b taken) ([], 0, 0) ports)
  end.

(** ** The planner *)

Section planner.
Context (st : State) (r : Report) (p : Params).

Definition row (t : EventType) (subjectKind subjectID : string) (detail : list (string * any)) : M AuditRow :=
  res ← Row {| e_TenantID := pm_TenantID p; e_EventType := t; e_ActorKind := ActorSystem; e_ActorID := HostSyncActor;
               e_SubjectKind := subjectKind; e_SubjectID := subjectID; e_Target := ""; e_Outcome := OutcomeOK; e_Reason := "";
               e_Details := detail ++ [("inventory_host_id", AnyString (rp_HostID r)); ("run_id", AnyString (pm_RunID p));
                                       ("trigger", AnyString (pm_Trigger p))] |} (pm_Now p);
  mret match res with Ok row => row | Err _ => zero_AuditRow end.

(** *** Device (device.go) *)

(** The columns a report sets on a device. *)
Definition report_device (d : Device) (created : bool) (name : string) : Device :=
  let vm := (rp_VirtRole r =s RoleVM) || (rp_VirtRole r =s RoleContainer) in
  let tri v cur := if (v =s TriTrue) || (v =s TriFalse) then v =s TriTrue else cur in
  {| d with dv_Name := name; dv_DeviceType := deviceType (rp_VirtRole r) (dv_DeviceType d) created;
     dv_VirtualizationKind := if vm then rp_VirtKind r else if rp_VirtRole r =s RolePhysical then "" else dv_VirtualizationKind d;
     dv_OSType := setIf (dv_OSType d) (rp_OSFamily r);
     dv_OSVersion := setIf (dv_OSVersion d) (TrimSpace (rp_OSName r +:+ " " +:+ rp_OSVersion r));
     dv_Manufacturer := setIf (dv_Manufacturer d) (rp_Manufacturer r); dv_Model := setIf (dv_Model d) (rp_Model r);
     dv_SerialNumber := setIf (dv_SerialNumber d) (rp_Serial r);
     dv_PrimaryIP := if Addr_IsValid (rp_PrimaryIPv4 r) then Addr_String (rp_PrimaryIPv4 r) else dv_PrimaryIP d;
     dv_PrimaryIPv6 := if Addr_IsValid (rp_PrimaryIPv6 r) then Addr_String (rp_PrimaryIPv6 r) else dv_PrimaryIPv6 d;
     dv_ManagementIP := match rp_BMC r with
                        | Some b => if Addr_IsValid (bm_Address b) then Addr_String (bm_Address b) else dv_ManagementIP d
                        | None => dv_ManagementIP d
                        end;
     dv_RebootRequired := tri (u_RebootRequired (rp_Updates r)) (dv_RebootRequired d);
     dv_UnattendedUpgrades := tri (u_AutomaticUpdates (rp_Updates r)) (dv_UnattendedUpgrades d);
     dv_UpdateStatus := u_Status (rp_Updates r);
     dv_LastSeen := if IsZero (rp_LastSeen r) then dv_LastSeen d else Some (rp_LastSeen r);
     dv_Source := SrcHostReport; dv_InventoryHostID := rp_HostID r; dv_ReportState := RepReported;
     dv_LastReportAt := timePtr (rp_CollectedAt r); dv_ReportDigest := rp_Digest r |}.

(** The blank row of a host without a device. *)
Definition new_device (id : string) : Device :=
  {| zero_Device with dv_ID := id; dv_TenantID := pm_TenantID p; dv_Status := DevStActive; dv_CreatedBy := HostSyncActor;
     dv_DeviceHeightU := 1; dv_UpdateStatus := UpdUnknown |}.

Definition device (pl : planner) : M planner :=
  let '(cur, how) := Match (st_Candidates st) r in
  d0 ← match cur with
       | Some d => mret d
       | None => id ← newID; mret (new_device id)
       end;
  let created := negb (is_some cur) in
  let d := report_device d0 created (desiredName (st_Candidates st) r (dv_ID d0)) in
  let pp := pn_plan pl in
  let pl := {| pl with pn_plan := {| pp with hpl_Match := how; hpl_DeviceID := dv_ID d |}; pn_dev := d; pn_created := created |} in
  if created then
    a ← row DeviceCreated SubjectDevice (dv_ID d) [("match", AnyString MatchCreated); ("name", AnyString (dv_Name d))];
    mret (add {| op_write := OpCreateDevice d; op_Audit := [a] |} pl)
  else
    let ch := deviceChanges d0 d in
    if is_nil ch then mret pl
    else
      a ← row DeviceUpdated SubjectDevice (dv_ID d) [("match", AnyString how); ("changes", AnyMap ch)];
      mret (add {| op_write := OpUpdateDevice d; op_Audit := [a] |} pl).

(** *** Interfaces (address.go) *)

Definition recorded_interfaces : list Interface :=
  List.filter (λ i, negb (Excluded (ri_Name i) (ri_Kind i) (pm_Exclusions p))) (rp_Interfaces r).

Definition host_iface (i : Interface) : reportedIface :=
  {| rf_name := ri_Name i; rf_mac := ri_MAC i; rf_kind := ri_Kind i; rf_speed := ri_SpeedMbps i; rf_up := ri_Up i;
     rf_bmc := false; rf_addrs := ri_Addresses i |}.

(** The interfaces and the number of BMC ports skipped. *)
Definition reportedInterfaces : list reportedIface * Z :=
  let taken : gset string := list_to_set ((λ i, ToLower (ri_Name i)) <$> recorded_interfaces) in
  let '(bmc, skipped) := bmcInterfaces (rp_BMC r) taken in
  ((host_iface <$> recorded_interfaces) ++ bmc, skipped).

Definition existing_ifaces : gmap string DeviceInterface :=
  foldl (λ m i, <[di_Name i := i]> m) ∅ (st_Interfaces st).

(** The wanted row of an interface the device already has. *)
Definition want_iface (ex : DeviceInterface) (ri : reportedIface) : DeviceInterface :=
  {| ex with di_MACAddress := rf_mac ri; di_Enabled := rf_up ri; di_ReportState := RepReported;
     di_InterfaceType := setIf (di_InterfaceType ex) (rf_kind ri);
     di_SpeedMbps := if 0 <? rf_speed ri then rf_speed ri else di_SpeedMbps ex |}.

Definition plan_iface (pl : planner) (ri : reportedIface) : M planner :=
  match existing_ifaces !! rf_name ri with
  | None =>
      id ← newID;
      let ni := {| zero_DeviceInterface with di_ID := id; di_TenantID := pm_TenantID p; di_DeviceID := dv_ID (pn_dev pl);
                   di_Name := rf_name ri; di_MACAddress := rf_mac ri; di_InterfaceType := rf_kind ri;
                   di_SpeedMbps := rf_speed ri; di_Enabled := rf_up ri; di_ReportState := RepReported |} in
      a ← row InterfaceCreated SubjectInterface id
            [("device_id", AnyString (dv_ID (pn_dev pl))); ("name", AnyString (di_Name ni)); ("kind", AnyString (di_InterfaceType ni))];
      mret (add {| op_write := OpCreateInterface ni; op_Audit := [a] |} pl)
  | Some ex =>
      let want := want_iface ex ri in
      let ch := ifaceChanges ex want in
      if is_nil ch then mret pl
      else
        a ← row InterfaceUpdated SubjectInterface (di_ID want) [("device_id", AnyString (dv_ID (pn_dev pl))); ("changes", AnyMap ch)];
        mret (add {| op_write := OpUpdateInterface want; op_Audit := [a] |} pl)
  end.

(** Whether a stored interface is no longer reported. *)
Definition gone_iface (seen : list string) (ex : DeviceInterface) : bool :=
  negb (existsb (String.eqb (di_Name ex)) seen) && (di_ReportState ex =s RepReported) &&
  negb (negb (is_some (rp_BMC r)) && (di_InterfaceType ex =s DevInterfaceKindManagement)).

Definition release_iface (pl : planner) (ex : DeviceInterface) : M planner :=
  let want := {| ex with di_ReportState := RepNotReported |} in
  a ← row InterfaceNotReported SubjectInterface (di_ID want) [("device_id", AnyString (dv_ID (pn_dev pl)))];
  mret (add {| op_write := OpUpdateInterface want; op_Audit := [a] |} pl).

Fixpoint foldM {A S} (f : S → A → M S) (s : S) (l : list A) : M S :=
  match l with [] => mret s | x :: l' => s' ← f s x; foldM f s' l' end.

Definition interfaces (pl : planner) : M planner :=
  let '(ifs, skipped) := reportedInterfaces in
  let pl := {| pl with pn_issues := issues_add "bmc_interface" "name_taken" skipped (pn_issues pl); pn_ifaces := ifs |} in
  pl ← foldM plan_iface pl ifs;
  let names := sort_strings (fst <$> map_to_list existing_ifaces) in
  foldM release_iface pl (List.filter (gone_iface (rf_name <$> ifs)) (omap (λ n, existing_ifaces !! n) names)).

(** *** Addresses (address.go) *)

Definition placeSubnet (a : Address) (pl : planner) : M (string * planner) :=
  match MostSpecific (pn_subnets pl) (ra_Addr a) with
  | (c, true) => mret (cand_ID c, pl)
  | (_, false) =>
      let pf := Prefix_String (AutoPrefix (ra_Addr a) (ra_Prefix a)) in
      let name := if decide (ToLower pf ∈ pn_subnetNames pl) then pf +:+ " (auto)" else pf in
      id ← newID;
      let base := {| zero_Subnet with sn_ID := id; sn_TenantID := pm_TenantID p; sn_Name := name; sn_CIDR := pf;
                     sn_Status := SubnetActive; sn_CreatedBy := HostSyncActor; sn_Origin := OriginHostSync |} in
      let s := match Parse pf with
               | Ok info => {| base with sn_IPVersion := Version info; sn_NetworkAddress := IP_String (Network info);
                               sn_BroadcastAddr := IP_String (Broadcast info); sn_Mask := IP_String (Mask info);
                               sn_PrefixLength := PrefixLen info |}
               | Err _ => base
               end in
      au ← row SubnetCreated SubjectSubnet id
             [("cidr", AnyString pf); ("origin", AnyString OriginHostSync); ("parent_id", AnyString "")];
      mret (id, add {| op_write := OpCreateSubnet s; op_Audit := [au] |}
        {| pl with pn_subnets := pn_subnets pl ++ [{| cand_ID := id; cand_CIDR := pf |}];
           pn_subnetNames := {[ToLower name]} ∪ pn_subnetNames pl |})
  end.

(** What happens to a known address the host reports. *)
Definition claim_action (dev : string) (row_ : IPAddress) : string :=
  if negb (is_empty (ad_DeviceID row_)) && negb (ad_DeviceID row_ =s dev) then ActionMoved
  else if is_empty (ad_DeviceID row_) then ActionClaimed else ActionUpdated.

Definition claimed (dev : string) (ri : reportedIface) (primary : bool) (hostname : string) (row_ : IPAddress) : IPAddress :=
  {| row_ with ad_DeviceID := dev; ad_InterfaceName := rf_name ri; ad_MACAddress := rf_mac ri; ad_Hostname := hostname;
     ad_IsPrimary := primary; ad_ReportState := RepReported |}.

(** A move between devices: the counter of moves within the window. *)
Definition moved (row_ want : IPAddress) : IPAddress :=
  let fresh := match ad_MoveWindowStart row_ with None => true | Some s => pm_ConflictWindow p <? Sub (pm_Now p) s end in
  {| want with ad_PreviousDeviceID := ad_DeviceID row_; ad_MovedAt := Some (pm_Now p);
     ad_MoveWindowStart := if fresh then Some (pm_Now p) else ad_MoveWindowStart want;
     ad_MoveCount := if fresh then 1 else ad_MoveCount row_ + 1 |}.

(** The conflict flag clears by itself a window after the last move. *)
Definition conflict_over (action : string) (want : IPAddress) : bool :=
  ad_Conflict want && negb (action =s ActionMoved) &&
  match ad_MovedAt want with Some t => pm_ConflictWindow p <? Sub (pm_Now p) t | None => false end.

Definition new_conflict (row_ want : IPAddress) : bool := (pm_ConflictMoves p <=? ad_MoveCount want) && negb (ad_Conflict row_).

(** The case of the switch for a move, and the clearing after it. *)
Definition mark_conflict (row_ m : IPAddress) : IPAddress := if new_conflict row_ m then {| m with ad_Conflict := true |} else m.
Definition after_move (action : string) (row_ w0 : IPAddress) : IPAddress :=
  if action =s ActionMoved then mark_conflict row_ (moved row_ w0) else w0.
Definition clear_conflict (action : string) (w1 : IPAddress) : IPAddress :=
  if conflict_over action w1 then {| w1 with ad_Conflict := false; ad_MoveCount := 0; ad_MoveWindowStart := None |} else w1.

(** The wanted row of a known address. *)
Definition want_address (dev : string) (ri : reportedIface) (primary : bool) (hostname : string) (row_ : IPAddress) : IPAddress :=
  let action := claim_action dev row_ in
  clear_conflict action (after_move action row_ (claimed dev ri primary hostname row_)).

(** The audit rows of a move, a new conflict and a cleared conflict. *)
Definition move_rows (dev key : string) (row_ want : IPAddress) (action : string) : M (list AuditRow) :=
  rows1 ← (if action =s ActionMoved then
             a ← row AddressMoved SubjectAddress (ad_ID row_)
                   [("address", AnyString key); ("previous_device_id", AnyString (ad_DeviceID row_));
                    ("device_id", AnyString dev); ("move_count", AnyInt (ad_MoveCount want))];
             if new_conflict row_ want then
               b ← row AddressConflict SubjectAddress (ad_ID row_)
                     [("address", AnyString key); ("move_count", AnyInt (ad_MoveCount want));
                      ("window_hours", AnyInt (Z.quot (pm_ConflictWindow p) Hour))];
               mret [a; b]
             else mret [a]
           else mret []);
  if conflict_over action row_ then
    c ← row AddressConflictCleared SubjectAddress (ad_ID row_) [("address", AnyString key); ("by", AnyString "window")];
    mret (rows1 ++ [c])
  else mret rows1.

Definition address (a : Address) (key : string) (ri : reportedIface) (primary : bool) (hostname : string) (pl : planner) : M planner :=
  let dev := dv_ID (pn_dev pl) in
  let seen := timePtr (rp_CollectedAt r) in
  match st_Addresses st !! key with
  | None =>
      id ← newID;
      sp ← placeSubnet a pl;
      let na := {| zero_IPAddress with ad_ID := id; ad_TenantID := pm_TenantID p; ad_Address := key; ad_SubnetID := fst sp;
                   ad_Hostname := hostname; ad_MACAddress := rf_mac ri; ad_DeviceID := dev; ad_InterfaceName := rf_name ri;
                   ad_Status := IPActive; ad_AddressType := AddrHost; ad_IsPrimary := primary; ad_LastSeen := seen;
                   ad_CreatedBy := HostSyncActor; ad_ReportState := RepReported |} in
      au ← row AddressCreated SubjectAddress id
             [("address", AnyString key); ("device_id", AnyString dev); ("interface", AnyString (rf_name ri))];
      mret (event_ IPAddressCreated ActionCreated na (add {| op_write := OpCreateAddress na; op_Audit := [au] |} (snd sp)))
  | Some row_ =>
      let action := claim_action dev row_ in
      let want := want_address dev ri primary hostname row_ in
      rows_ ← move_rows dev key row_ want action;
      let ch := addrChanges row_ want in
      if is_nil ch then mret pl
      else
        let want := {| want with ad_LastSeen := seen |} in
        rows_ ← (if action =s ActionMoved then mret rows_
                 else a0 ← row AddressUpdated SubjectAddress (ad_ID row_)
                             ([("address", AnyString key); ("changes", AnyMap ch)] ++
                              (if action =s ActionClaimed then [("claimed", AnyBool true)] else []));
                      mret (a0 :: rows_));
        mret (event_ IPAddressUpdated action want (add {| op_write := OpUpdateAddress want; op_Audit := rows_ |} pl))
  end.

(** The reported addresses worth recording, each once, with their interface. *)
Definition recordable (a : Address) : bool := Recordable (Classify (ra_Addr a)) && negb (ra_Temporary a) && negb (ra_Deprecated a).

Definition iface_addrs (ifs : list reportedIface) : list (reportedIface * Address) :=
  concat ((λ ri, (λ a, (ri, a)) <$> List.filter recordable (rf_addrs ri)) <$> ifs).

Fixpoint dedup_addrs (seen : gset string) (l : list (reportedIface * Address)) : list (reportedIface * Address) :=
  match l with
  | [] => []
  | x :: l' => let key := Addr_String (ra_Addr (snd x)) in
               if decide (key ∈ seen) then dedup_addrs seen l' else x :: dedup_addrs ({[key]} ∪ seen) l'
  end.

Definition plan_address (pl : planner) (x : reportedIface * Address) : M planner :=
  let '(ri, a) := x in
  let primary := negb (rf_bmc ri) && (bool_decide (ra_Addr a = rp_PrimaryIPv4 r) || bool_decide (ra_Addr a = rp_PrimaryIPv6 r)) in
  address a (Addr_String (ra_Addr a)) ri primary (if rf_bmc ri then "" else DNSHostname (rp_Hostname r)) pl.

(** Whether a row the device owns is no longer reported. *)
Definition gone_addr (dev : string) (reported : list string) (k : string) (row_ : IPAddress) : bool :=
  negb (existsb (String.eqb k) reported) && (ad_DeviceID row_ =s dev) && (ad_ReportState row_ =s RepReported) &&
  negb (negb (is_some (rp_BMC r)) && IsBMCInterfaceName (ad_InterfaceName row_)).

Definition released (dev : string) (row_ : IPAddress) : IPAddress :=
  {| row_ with ad_DeviceID := ""; ad_InterfaceName := ""; ad_IsPrimary := false; ad_PreviousDeviceID := dev;
     ad_ReportState := RepNotReported |}.

Definition release_addr (pl : planner) (row_ : IPAddress) : M planner :=
  let want := released (dv_ID (pn_dev pl)) row_ in
  a ← row AddressReleased SubjectAddress (ad_ID want)
        [("address", AnyString (ad_Address want)); ("previous_device_id", AnyString (dv_ID (pn_dev pl)))];
  mret (event_ IPAddressUpdated ActionReleased want (add {| op_write := OpUpdateAddress want; op_Audit := [a] |} pl)).

Definition addresses (pl : planner) : M planner :=
  let pl := {| pl with pn_subnets := (λ s, {| cand_ID := sn_ID s; cand_CIDR := sn_CIDR s |}) <$> st_Subnets st;
               pn_subnetNames := list_to_set ((λ s, ToLower (sn_Name s)) <$> st_Subnets st) |} in
  let todo := dedup_addrs ∅ (iface_addrs (pn_ifaces pl)) in
  pl ← foldM plan_address pl todo;
  let keys := sort_strings (fst <$> map_to_list (st_Addresses st)) in
  let gone := List.filter (λ kr, gone_addr (dv_ID (pn_dev pl)) ((λ x, Addr_String (ra_Addr (snd x))) <$> todo) (fst kr) (snd kr))
                (omap (λ k, (λ v, (k, v)) <$> st_Addresses st !! k) keys) in
  foldM release_addr pl (snd <$> gone).

(** *** Packages (updates.go) *)

Definition pending_row (id : string) (dev : string) (q : Package) : DevicePackage :=
  {| zero_DevicePackage with dp_ID := id; dp_TenantID := pm_TenantID p; dp_DeviceID := dev; dp_Name := pk_Name q;
     dp_CurrentVersion := pk_Installed q; dp_AvailableVersion := pk_Available q; dp_NeedsUpdate := true;
     dp_IsSecurityUpdate := pk_Security q; dp_PackageManager := u_Manager (rp_Updates r) |}.

Definition package_changed (ex np : DevicePackage) : bool :=
  negb ((dp_CurrentVersion ex =s dp_CurrentVersion np) && (dp_AvailableVersion ex =s dp_AvailableVersion np) &&
        dp_NeedsUpdate ex && Bool.eqb (dp_IsSecurityUpdate ex) (dp_IsSecurityUpdate np) &&
        (dp_PackageManager ex =s dp_PackageManager np)).

Record pkg_plan : Type := { pp_want : list DevicePackage; pp_added : list string; pp_changed : Z; pp_security : Z }.

Definition plan_package (cur : gmap string DevicePackage) (dev : string) (acc : pkg_plan) (q : Package) : M pkg_plan :=
  let sec := if pk_Security q then 1 else 0 in
  match cur !! pk_Name q with
  | Some ex =>
      let np := pending_row (dp_ID ex) dev q in
      mret {| pp_want := pp_want acc ++ [np]; pp_added := pp_added acc;
              pp_changed := pp_changed acc + (if package_changed ex np then 1 else 0); pp_security := pp_security acc + sec |}
  | None =>
      id ← newID;
      mret {| pp_want := pp_want acc ++ [pending_row id dev q]; pp_added := pp_added acc ++ [pk_Name q];
              pp_changed := pp_changed acc; pp_security := pp_security acc + sec |}
  end.

Definition packages (pl : planner) : M planner :=
  let status := u_Status (rp_Updates r) in
  if negb (status =s UpdUpToDate) && negb (status =s UpdAvailable) then mret pl
  else
    let dev := dv_ID (pn_dev pl) in
    let cur : gmap string DevicePackage := foldl (λ m q, <[dp_Name q := q]> m) ∅ (st_Packages st) in
    acc ← foldM (plan_package cur dev) {| pp_want := []; pp_added := []; pp_changed := 0; pp_security := 0 |} (rp_Pending r);
    let removed := sort_strings (List.filter (λ n, negb (existsb (String.eqb n) (pk_Name <$> rp_Pending r))) (fst <$> map_to_list cur)) in
    if Z.of_nat (length (pp_added acc)) + Z.of_nat (length removed) + pp_changed acc =? 0 then mret pl
    else
      a ← row PackagesUpdated SubjectPackage dev
            [("pending", AnyInt (Z.of_nat (length (pp_want acc)))); ("security", AnyInt (pp_security acc));
             ("changed", AnyInt (pp_changed acc)); ("added", AnyList (boundNames (pp_added acc)));
             ("added_count", AnyInt (Z.of_nat (length (pp_added acc)))); ("removed", AnyList (boundNames removed));
             ("removed_count", AnyInt (Z.of_nat (length removed)))];
      mret (add {| op_write := OpReplacePackages dev (pp_want acc); op_Audit := [a] |} pl).

(** *** Hardware (hardware.go) *)

Definition diskKey (d : HardwareDisk) : string :=
  if negb (is_empty (hd_Serial d)) && negb (IsPlaceholderSerial (hd_Serial d)) then hd_Serial d else hd_Name d.

Definition hardware (pl : planner) : M planner :=
  match rp_Hardware r with
  | None => mret pl
  | Some hw =>
      let at_ := if IsZero (rp_CollectedAt r) then pm_Now p else rp_CollectedAt r in
      let sum0 := hw_Summary hw in
      let sum := {| sum0 with hws_ReportedAt := at_ |} in
      let dev := dv_ID (pn_dev pl) in
      let h := {| zero_DeviceHardware with dh_DeviceID := dev; dh_TenantID := pm_TenantID p; dh_Profile := hw_Profile hw;
                  dh_Digest := hw_Digest hw; dh_Summary := sum; dh_ReportedAt := at_ |} in
      match st_Hardware st with
      | None =>
          a ← row HardwareReported SubjectDevice dev [("summary", AnyMap (summaryDetail sum))];
          mret (add {| op_write := OpReplaceHardware h; op_Audit := [a] |} pl)
      | Some cur =>
          if negb (dh_Digest cur =s hw_Digest hw) then
            let changes := hardwareChanges diskKey (dh_Profile cur) (hw_Profile hw) in
            let over := (length changes - MaxHardwareChanges)%nat in
            a ← row HardwareUpdated SubjectDevice dev
                  ([("summary", AnyMap (summaryDetail sum))] ++
                   (if (0 <? over)%nat then [("changes_truncated", AnyInt (Z.of_nat over))] else []) ++
                   [("changes", AnyList (AnyMap <$> take MaxHardwareChanges changes))]);
            mret (add {| op_write := OpReplaceHardware h; op_Audit := [a] |} pl)
          else if sameUsage (hp_Filesystems (dh_Profile cur)) (hp_Filesystems (hw_Profile hw)) then mret pl
          else mret (add {| op_write := OpReplaceHardware h; op_Audit := [] |} pl)
      end
  end.

(** *** Guests (virt.go) *)

(** mac -> device id -> its hypervisor, the device itself left out. *)
Definition mac_owners (dev : string) : gmap string (gmap string string) :=
  foldl (λ m o, if mo_DeviceID o =s dev then m
                else <[mo_MAC o := <[mo_DeviceID o := mo_HypervisorDeviceID o]> (default ∅ (m !! mo_MAC o))]> m) ∅ (st_MACOwners st).

Definition guest_devices (owners : gmap string (gmap string string)) (g : Guest) : gmap string string :=
  foldl (λ devs m, default ∅ (owners !! m) ∪ devs) ∅ (g_MACs g).

Definition guestsEqual (a b : list HypervisorGuest) : bool :=
  (length a =? length b)%nat &&
  let byRef : gmap string HypervisorGuest := foldl (λ m g, <[hg_GuestRef g := g]> m) ∅ a in
  forallb (λ g, match byRef !! hg_GuestRef g with
                | None => false
                | Some o => (hg_Name o =s hg_Name g) && (hg_Kind o =s hg_Kind g) && (hg_Platform o =s hg_Platform g) &&
                            (hg_GuestDeviceID o =s hg_GuestDeviceID g) && bool_decide (hg_MACs o = hg_MACs g)
                end) b.

Definition guestRefs (gs : list HypervisorGuest) : list any := boundNames (sort_strings (hg_GuestRef <$> gs)).

Record guest_plan : Type := { gp_pl : planner; gp_want : list HypervisorGuest; gp_linked : gset string }.

Definition plan_guest (owners : gmap string (gmap string string)) (existing : gmap string HypervisorGuest) (acc : guest_plan)
    (g : Guest) : M guest_plan :=
  let dev := dv_ID (pn_dev (gp_pl acc)) in
  let base := {| zero_HypervisorGuest with hg_TenantID := pm_TenantID p; hg_HostDeviceID := dev; hg_GuestRef := g_Ref g;
                 hg_Name := g_Name g; hg_Kind := g_Kind g; hg_Platform := g_Platform g; hg_MACs := g_MACs g;
                 hg_LastReportedAt := pm_Now p |} in
  row_ ← match existing !! g_Ref g with
         | Some ex => mret {| base with hg_ID := hg_ID ex; hg_LastReportedAt := hg_LastReportedAt ex |}
         | None => id ← newID; mret {| base with hg_ID := id |}
         end;
  match map_to_list (guest_devices owners g) with
  | [] => mret {| acc with gp_want := gp_want acc ++ [row_] |}
  | [(id, hv)] =>
      let want := gp_want acc ++ [{| row_ with hg_GuestDeviceID := id |}] in
      pl ← (if decide (id ∈ gp_linked acc) then mret (gp_pl acc)
            else if hv =s dev then mret (gp_pl acc)
            else
              a ← row HypervisorLinked SubjectDevice id [("hypervisor_device_id", AnyString dev); ("guest_ref", AnyString (g_Ref g))];
              mret (add {| op_write := OpSetHypervisor id dev; op_Audit := [a] |} (gp_pl acc)));
      mret {| gp_pl := pl; gp_want := want; gp_linked := {[id]} ∪ gp_linked acc |}
  | _ => mret {| gp_pl := issue "guest_mac" "duplicate_mac" (gp_pl acc); gp_want := gp_want acc ++ [row_]; gp_linked := gp_linked acc |}
  end.

Definition unlink_guest (linked : gset string) (pl : planner) (gd : Device) : M planner :=
  if decide (dv_ID gd ∈ linked) then mret pl
  else
    a ← row HypervisorUnlinked SubjectDevice (dv_ID gd) [("hypervisor_device_id", AnyString (dv_ID (pn_dev pl)))];
    mret (add {| op_write := OpSetHypervisor (dv_ID gd) ""; op_Audit := [a] |} pl).

Definition guests (pl : planner) : M planner :=
  if is_nil (rp_Guests r) && is_nil (st_Guests st) && is_nil (st_GuestDevices st) then mret pl
  else
    let dev := dv_ID (pn_dev pl) in
    let owners := mac_owners dev in
    let existing : gmap string HypervisorGuest := foldl (λ m g, <[hg_GuestRef g := g]> m) ∅ (st_Guests st) in
    acc ← foldM (plan_guest owners existing) {| gp_pl := pl; gp_want := []; gp_linked := ∅ |} (rp_Guests r);
    pl ← foldM (unlink_guest (gp_linked acc)) (gp_pl acc) (st_GuestDevices st);
    if guestsEqual (st_Guests st) (gp_want acc) then mret pl
    else
      let want := (λ g, {| g with hg_LastReportedAt := pm_Now p |}) <$> gp_want acc in
      a ← row DeviceUpdated SubjectDevice dev
            [("changes", AnyMap [("guests", AnyMap [("before", AnyList (guestRefs (st_Guests st))); ("after", AnyList (guestRefs want))])])];
      mret (add {| op_write := OpReplaceGuests dev want; op_Audit := [a] |} pl).

(** The hosts that list one of the device's MACs as a guest, with their rows. *)
Definition listing_hosts (dev : string) (macs : list string) : gmap string (list HypervisorGuest) :=
  foldl (λ m g, if (hg_HostDeviceID g =s dev) || negb (existsb (λ x, existsb (String.eqb x) macs) (hg_MACs g)) then m
                else <[hg_HostDeviceID g := default [] (m !! hg_HostDeviceID g) ++ [g]]> m) ∅ (st_GuestRows st).

Definition claim_guest_row (host : string) (pl : planner) (g : HypervisorGuest) : M planner :=
  let dev := dv_ID (pn_dev pl) in
  if hg_GuestDeviceID g =s dev then mret pl
  else
    a ← row DeviceUpdated SubjectDevice host
          [("changes", AnyMap [("guest_device_id", AnyMap [("before", AnyString (hg_GuestDeviceID g)); ("after", AnyString dev)])]);
           ("guest_ref", AnyString (hg_GuestRef g))];
    mret (add {| op_write := OpSetGuestDevice (hg_ID g) dev host; op_Audit := [a] |} pl).

Definition ownHypervisor (pl : planner) : M planner :=
  let dev := dv_ID (pn_dev pl) in
  let macs := List.filter (λ m, negb (is_empty m)) (rf_mac <$> pn_ifaces pl) in
  match map_to_list (listing_hosts dev macs) with
  | [] => mret pl
  | [(host, rows_)] =>
      pl ← (if dv_HypervisorDeviceID (pn_dev pl) =s host then mret pl
            else
              a ← row HypervisorLinked SubjectDevice dev
                    [("hypervisor_device_id", AnyString host);
                     ("guest_ref", AnyString match rows_ with g :: _ => hg_GuestRef g | [] => "" end)];
              mret (add {| op_write := OpSetHypervisor dev host; op_Audit := [a] |} pl));
      foldM (claim_guest_row host) pl rows_
  | _ => mret (issue "guest_mac" "duplicate_mac" pl)
  end.

(** *** The plan *)

Definition plan_issue_less (a b : HostSyncIssue) : bool := str_ltb (hsi_Field a +:+ hsi_Reason a) (hsi_Field b +:+ hsi_Reason b).

Definition finish (pl : planner) : Plan :=
  let pp := pn_plan pl in
  let n := Z.of_nat (length (hpl_Ops pp)) in
  let found := take (Z.to_nat MaxIssues) (rp_Issues r ++ sort_by plan_issue_less (issue_rows (pn_issues pl))) in
  {| pp with
     hpl_Events := hpl_Events pp ++
       (if 0 <? n then [{| pe_Type := HostSyncApplied; pe_Payload := HostSyncAppliedPayload (dv_ID (pn_dev pl)) n |}] else []);
     hpl_Issues := found;
     hpl_State := {| hsd_DeviceID := dv_ID (pn_dev pl); hsd_TenantID := pm_TenantID p; hsd_InventoryHostID := rp_HostID r;
                     hsd_SnapshotID := rp_SnapshotID r; hsd_CollectedAt := timePtr (rp_CollectedAt r);
                     hsd_AppliedAt := Some (pm_Now p); hsd_Trigger := pm_Trigger p; hsd_Changes := n; hsd_Issues := found |} |}.

Definition Build : M Plan :=
  pl ← device new_planner;
  pl ← interfaces pl;
  pl ← addresses pl;
  pl ← packages pl;
  pl ← hardware pl;
  pl ← guests pl;
  pl ← ownHypervisor pl;
  mret (finish pl).
End planner.
End with_env.
