(* ===== verification/Kvm.v ===== *)
(** * internal/kvm: BMC consoles

    A caller starts a console: the service logs in to the BMC's web UI, hands
    out a single-use start token and exchanges it, on its first use, for a
    console session.  Tokens and consoles of one BMC host and user share one
    BMC login, counted by [bs_refs] and logged out when the last one ends.

    The first half is the login of session.go; what the BMC answers to each
    request is an argument.  The second half is the manager of kvm.go: the
    BMC sessions are objects of a heap (tokens, consoles and running calls
    hold pointers to them), one operation is one critical section of the
    manager's or a session's mutex, and [kvm_step] interleaves them with the
    goroutines that log sessions out.  Proxying HTTP and WebSocket traffic is
    not modelled; net/url's parser and the JSON decoding of a login answer are
    parameters. *)

From S2P Require Import Prelude GoText Models Store.

(** ** session.go: logging in *)

Inductive login_kind : Type := ErrUnreachable | ErrAuthFailed | ErrTwoFactor | ErrSessionLimit | ErrLogin | errUnsupported.
#[export] Instance login_kind_dec : EqDecision login_kind.
Proof. solve_decision. Defined.

Definition redfishSessions : string := "/redfish/v1/SessionService/Sessions".

Record bmcAuth : Type := { ba_cookie : string; ba_token : string; ba_sessionPath : string; ba_sessionID : string }.
#[export] Instance bmcAuth_dec : EqDecision bmcAuth.
Proof. solve_decision. Defined.
Definition no_auth : bmcAuth := {| ba_cookie := ""; ba_token := ""; ba_sessionPath := ""; ba_sessionID := "" |}.
Definition auth_empty (a : bmcAuth) : bool := is_empty (ba_cookie a) && is_empty (ba_token a).

Record loginError : Type := { le_host : string; le_kind : login_kind; le_detail : string }.

Record BMCCreds : Type := { bc_Username : string; bc_Password : string }.

(** What became of one HTTP request. *)
Record http_response : Type := {
  re_Status : Z; re_Token : string; re_Location : string; re_Cookies : list (string * string); re_Body : string }.
Inductive http_answer : Type := Unsendable | NoAnswer (text : string) | Answered (r : http_response).

(** The fields the Redfish answer's JSON document is read for. *)
Record session_doc : Type := { do_ID : string; do_OData : string; do_TwoFA : bool }.

(** path.Clean of a rooted path: empty and "." elements go, ".." takes the
    element before it away. *)
Definition clean_step (acc : list string) (e : string) : list string :=
  if is_empty e || (e =s ".") then acc else if e =s ".." then List.removelast acc else acc ++ [e].
Definition clean_rooted (p : string) : string :=
  match p with
  | String "/" rest => "/" +:+ GoText.join "/" (foldl clean_step [] (split_byte "/" rest))
  | _ => ""
  end.
(** path.Base of a path: its last element. *)
Definition path_Base (p : string) : string :=
  if is_empty p then "." else
  let l := List.filter (λ e, negb (is_empty e)) (split_byte "/" p) in
  match last l with Some e => e | None => "/" end.

Definition mergeCookies (a b : string) : string := if is_empty a then b else if is_empty b then a else a +:+ "; " +:+ b.
Definition sessionID (p id : string) : string := if is_empty id then path_Base p else id.

Definition loginFailureText (k : login_kind) : string :=
  match k with
  | ErrTwoFactor => "The BMC requires two-factor login - open its web UI directly."
  | ErrSessionLimit => "The BMC session limit is reached - close other BMC sessions and try again."
  | ErrAuthFailed => "The BMC rejected the credentials - check the Warden secret."
  | ErrUnreachable => "The BMC did not answer."
  | ErrLogin | errUnsupported => "could not log in to BMC"
  end.

(** The requests a logout sends: method and path. *)
Definition logout (a : bmcAuth) : list (string * string) :=
  (if is_empty (ba_sessionPath a) then [] else [("DELETE", ba_sessionPath a)]) ++
  (if str_contains (ba_cookie a) "SID=" then [("GET", "/cgi/logout.cgi")] else []).

Section login.
Context (url_path : string → option string) (decode : string → session_doc).

Definition in_collection (p : string) : bool :=
  String.prefix (redfishSessions +:+ "/") p && (String.length redfishSessions + 1 <? String.length p)%nat && (clean_rooted p =s p).

Definition sessionPath (location odata id : string) : string :=
  let cands := [default "" (url_path location); odata] ++ (if is_empty id then [] else [redfishSessions +:+ "/" +:+ id]) in
  default "" (find_first in_collection cands).

(** The outcome, and the session it opened and ended again. *)
Definition loginRedfish (host : string) (answer : http_answer) : result loginError bmcAuth * list bmcAuth :=
  let fail kind detail := Err {| le_host := host; le_kind := kind; le_detail := detail |} in
  match answer with
  | Unsendable => (fail ErrLogin "redfish request", [])
  | NoAnswer text => (fail ErrUnreachable ("redfish: " +:+ text), [])
  | Answered r =>
      let status := "redfish status " +:+ Z_text (re_Status r) in
      let ok := (200 <=? re_Status r) && (re_Status r <? 300) in
      if negb ok && str_contains (re_Body r) "SessionLimitExceeded" then (fail ErrSessionLimit status, [])
      else if (re_Status r =? 401) || (re_Status r =? 403) then (fail ErrAuthFailed status, [])
      else if negb ok then (fail errUnsupported status, [])
      else if is_empty (re_Token r) then (fail errUnsupported (status +:+ " without X-Auth-Token"), [])
      else
        let doc := decode (re_Body r) in
        let p := sessionPath (re_Location r) (do_OData doc) (do_ID doc) in
        let cookies := omap (λ c, if is_empty (snd c) then None else Some (fst c +:+ "=" +:+ snd c)) (re_Cookies r) in
        let a := {| ba_cookie := GoText.join "; " cookies; ba_token := re_Token r; ba_sessionPath := p; ba_sessionID := sessionID p (do_ID doc) |} in
        if do_TwoFA doc then (fail ErrTwoFactor "two-factor authentication is enabled for the user", [a]) else (Ok a, [])
  end.

Definition loginLegacy (host : string) (answer : http_answer) : result loginError bmcAuth :=
  let fail kind detail := Err {| le_host := host; le_kind := kind; le_detail := detail |} in
  match answer with
  | Unsendable => fail ErrLogin "legacy request"
  | NoAnswer text => fail ErrUnreachable ("legacy: " +:+ text)
  | Answered r =>
      match find_first (λ c, (fst c =s "SID") && negb (is_empty (snd c))) (re_Cookies r) with
      | Some c => Ok {| no_auth with ba_cookie := "SID=" +:+ snd c |}
      | None =>
          let status := "legacy: no SID cookie (status " +:+ Z_text (re_Status r) +:+ ")" in
          if (re_Status r =? 401) || (re_Status r =? 403) then fail ErrAuthFailed status else fail ErrLogin status
      end
  end.

(** The outcome, and the sessions opened and ended again; [redfish] and
    [legacy] are the answers to the two requests, when they are sent. *)
Definition login (host : string) (creds : BMCCreds) (redfish legacy : http_answer) : result loginError bmcAuth * list bmcAuth :=
  let fail kind detail := Err {| le_host := host; le_kind := kind; le_detail := detail |} in
  if is_empty (bc_Username creds) || is_empty (bc_Password creds) then (fail ErrAuthFailed "no credentials", [])
  else
    let '(rf, gone) := loginRedfish host redfish in
    let with_legacy (rfa : bmcAuth) (rfErr : option loginError) :=
      match loginLegacy host legacy, rfErr with
      | Ok lg, _ => Ok {| rfa with ba_cookie := mergeCookies (ba_cookie rfa) (ba_cookie lg) |}
      | Err _, None => Ok rfa
      | Err lgErr, Some e =>
          if decide (le_kind lgErr = ErrLogin) then fail ErrLogin (le_detail e +:+ "; " +:+ le_detail lgErr) else Err lgErr
      end in
    match rf with
    | Err e => if decide (le_kind e = errUnsupported) then (with_legacy no_auth (Some e), gone) else (Err e, gone)
    | Ok a => if str_contains (ba_cookie a) "SID=" then (Ok a, gone) else (with_legacy a None, gone)
    end.
End login.

(** ** kvm.go: the manager *)

Definition kvmCookie : string := "freya_kvm".
Definition defaultTokenTTL : Z := 60 * 1000000000.
Definition defaultConsoleTTL : Z := 3600 * 1000000000.
Definition reloginAfter : Z := 10 * 1000000000.
Definition consoleEntry : string := "cgi/url_redirect.cgi?url_name=man_ikvm_html5_bootstrap".
Definition errSessionEnded : loginError := {| le_host := ""; le_kind := ErrLogin; le_detail := "console session ended" |}.

Record tokenEntry : Type := { te_deviceID : string; te_sess : nat; te_expires : Time }.

Record bmcSession : Type := {
  bs_key : string; bs_host : string; bs_refs : Z; bs_creds : BMCCreds;
  bs_auth : bmcAuth; bs_loggedAt : Time; bs_closed : bool }.

(** The fields of the manager its mutex guards, with the heap of sessions. *)
Record Manager : Type := {
  mg_tokens : gmap string tokenEntry; mg_consoles : gmap string tokenEntry; mg_sessions : gmap string nat;
  mg_dead : list nat; mg_heap : gmap nat bmcSession; mg_next : nat }.

Record KVMConfig : Type := { kc_tokenTTL : Z; kc_consoleTTL : Z; kc_consoleOrigin : string }.

(** [strings.TrimRight(s, "/")]. *)
Fixpoint trim_slashes (s : string) : string :=
  match s with
  | EmptyString => ""
  | String c s' => let t := trim_slashes s' in if is_empty t && Ascii.eqb c "/" then "" else String c t
  end.

(** [NewManager] with its options. *)
Definition NewManager `{Env} (tokenTTL sessionTTL : Z) (origin : string) : KVMConfig :=
  {| kc_tokenTTL := if tokenTTL <=? 0 then defaultTokenTTL else tokenTTL;
     kc_consoleTTL := if 0 <? sessionTTL then sessionTTL else defaultConsoleTTL; kc_consoleOrigin := ToLower (trim_slashes origin) |}.
Definition new_manager : Manager :=
  {| mg_tokens := ∅; mg_consoles := ∅; mg_sessions := ∅; mg_dead := []; mg_heap := ∅; mg_next := 0 |}.

Definition set_session (p : nat) (s : bmcSession) (m : Manager) : Manager := {| m with mg_heap := <[p := s]> (mg_heap m) |}.

(** [host + "\x00" + user]. *)
Definition session_key (host : string) (creds : BMCCreds) : string := host +:+ String "000" (bc_Username creds).

Definition acquireLocked (host : string) (creds : BMCCreds) (m : Manager) : Manager * nat :=
  let key := session_key host creds in
  let '(m, p) := match mg_sessions m !! key with
    | Some p => (m, p)
    | None =>
        let p := mg_next m in
        let s := {| bs_key := key; bs_host := host; bs_refs := 0; bs_creds := creds; bs_auth := no_auth; bs_loggedAt := time_zero; bs_closed := false |} in
        (set_session p s {| m with mg_sessions := <[key := p]> (mg_sessions m); mg_next := S p |}, p)
    end in
  match mg_heap m !! p with
  | Some s => (set_session p {| s with bs_refs := bs_refs s + 1; bs_creds := creds |} m, p)
  | None => (m, p)
  end.

Definition releaseLocked (p : nat) (m : Manager) : Manager :=
  match mg_heap m !! p with
  | None => m
  | Some s =>
      let m := set_session p {| s with bs_refs := bs_refs s - 1 |} m in
      if 0 <? bs_refs s - 1 then m
      else
        let m := if decide (mg_sessions m !! bs_key s = Some p) then {| m with mg_sessions := delete (bs_key s) (mg_sessions m) |} else m in
        {| m with mg_dead := mg_dead m ++ [p] |}
  end.

Definition live_at (now : Time) (e : tokenEntry) : bool := now <? te_expires e.
Definition ended (now : Time) (set : gmap string tokenEntry) : list nat :=
  te_sess <$> List.filter (λ e, negb (live_at now e)) (map_to_list set).*2.
Definition remaining (now : Time) (set : gmap string tokenEntry) : gmap string tokenEntry := filter (λ kv, live_at now kv.2 = true) set.

Definition gcLocked (now : Time) (m : Manager) : Manager :=
  let gone := ended now (mg_tokens m) ++ ended now (mg_consoles m) in
  foldl (λ m p, releaseLocked p m)
    {| m with mg_tokens := remaining now (mg_tokens m); mg_consoles := remaining now (mg_consoles m) |} gone.

(** The sessions the goroutines it starts will log out. *)
Definition unlockAndRetire (m : Manager) : Manager * list nat := ({| m with mg_dead := [] |}, mg_dead m).

(** One of those goroutines: the login it ends, if there is one. *)
Definition retire (s : bmcSession) : bmcSession * list (string * bmcAuth) :=
  ({| s with bs_auth := no_auth; bs_closed := true |}, if auth_empty (bs_auth s) then [] else [(bs_host s, bs_auth s)]).

Definition resolve (now : Time) (token : string) (m : Manager) : option tokenEntry :=
  if is_empty token then None
  else e ← mg_tokens m !! token; if live_at now e then Some e else None.

(** The token is consumed; the console session and its binding. *)
Definition exchange (cfg : KVMConfig) (now : Time) (token device id : string) (m : Manager) : Manager * option (string * tokenEntry) :=
  match mg_tokens m !! token with
  | None => (m, None)
  | Some e =>
      if negb (live_at now e) || negb (te_deviceID e =s device) then (m, None)
      else
        let e := {| e with te_expires := now + kc_consoleTTL cfg |} in
        (gcLocked now {| m with mg_tokens := delete token (mg_tokens m); mg_consoles := <[id := e]> (mg_consoles m) |}, Some (id, e))
  end.

Definition console (now : Time) (cookie : option string) (device : string) (m : Manager) : option tokenEntry :=
  c ← cookie;
  if is_empty c then None
  else e ← mg_consoles m !! c; if live_at now e && (te_deviceID e =s device) then Some e else None.

(** The binding of an admitted request, and the cookie to set. *)
Definition authorize (cfg : KVMConfig) (now : Time) (kvmtoken : string) (cookie : option string) (device id : string) (m : Manager)
    : Manager * option (tokenEntry * option string) :=
  if is_empty kvmtoken then (m, e ← console now cookie device m; Some (e, None))
  else let '(m, r) := exchange cfg now kvmtoken device id m in (m, '(id, e) ← r; Some (e, Some id)).

Definition originAllowed `{Env} (cfg : KVMConfig) (origin : string) : bool :=
  is_empty (kc_consoleOrigin cfg) || EqualFold origin (kc_consoleOrigin cfg).

(** The headers a proxied request carries to the BMC. *)
Definition setBMCAuth (h : gmap string string) (a : bmcAuth) : gmap string string :=
  let h := delete "X-Auth-Token"%string (delete "Cookie"%string h) in
  let h := if is_empty (ba_cookie a) then h else <["Cookie"%string := ba_cookie a]> h in
  if is_empty (ba_token a) then h else <["X-Auth-Token"%string := ba_token a]> h.

Section sessions.
Context (url_path : string → option string) (decode : string → session_doc).

(** The session, the outcome, the logins made and those ended again. *)
Definition sessionAuth (now : Time) (redfish legacy : http_answer) (s : bmcSession)
    : bmcSession * result loginError bmcAuth * list (string * bmcAuth) * list (string * bmcAuth) :=
  if bs_closed s then (s, Err errSessionEnded, [], [])
  else if negb (auth_empty (bs_auth s)) then (s, Ok (bs_auth s), [], [])
  else
    let '(r, gone) := login url_path decode (bs_host s) (bs_creds s) redfish legacy in
    let gone := (λ a, (bs_host s, a)) <$> gone in
    match r with
    | Err e => (s, Err e, gone, gone)
    | Ok a => ({| s with bs_auth := a; bs_loggedAt := now |}, Ok a, gone ++ [(bs_host s, a)], gone)
    end.

Definition invalidate (now : Time) (stale : bmcAuth) (s : bmcSession) : bmcSession * bool * list (string * bmcAuth) :=
  if bool_decide (bs_auth s ≠ stale) || auth_empty (bs_auth s) || (now - bs_loggedAt s <? reloginAfter) then (s, false, [])
  else ({| s with bs_auth := no_auth |}, true, [(bs_host s, stale)]).

(** *** The interleavings *)

(** A running call of [StartSession]: it has acquired its session, logged in,
    or failed to. *)
Inductive start_phase : Type := Acquired | LoggedIn | LoginFailed.
Record starting : Type := { sg_device : string; sg_sess : nat; sg_phase : start_phase }.

Record KWorld : Type := {
  kw_mgr : Manager; kw_now : Time; kw_starting : gmap nat starting; kw_calls : nat;
  kw_retiring : list nat;                  (* goroutines of [unlockAndRetire] yet to run *)
  kw_logins : list (string * bmcAuth);     (* sessions opened on the BMCs *)
  kw_logouts : list (string * bmcAuth);    (* sessions ended on the BMCs *)
  kw_issued : gset string;                 (* random values drawn *)
  kw_exchanged : list string }.            (* start tokens used *)

Definition kvm_init (now : Time) : KWorld :=
  {| kw_mgr := new_manager; kw_now := now; kw_starting := ∅; kw_calls := 0; kw_retiring := []; kw_logins := []; kw_logouts := [];
     kw_issued := ∅; kw_exchanged := [] |}.

(** The end of a critical section of the manager. *)
Definition unlock (m : Manager) (w : KWorld) : KWorld :=
  let '(m, dead) := unlockAndRetire m in {| w with kw_mgr := m; kw_retiring := kw_retiring w ++ dead |}.

(** [sessionAuth] on a session of the heap. *)
Definition auth_on (p : nat) (redfish legacy : http_answer) (w : KWorld) : KWorld * result loginError bmcAuth :=
  match mg_heap (kw_mgr w) !! p with
  | None => (w, Err errSessionEnded)
  | Some s =>
      let '(s', r, opened, gone) := sessionAuth (kw_now w) redfish legacy s in
      ({| w with kw_mgr := set_session p s' (kw_mgr w); kw_logins := kw_logins w ++ opened; kw_logouts := kw_logouts w ++ gone |}, r)
  end.

(** [Close]: every registered session is handed to a logout. *)
Definition CloseManager (m : Manager) : Manager :=
  {| m with mg_dead := mg_dead m ++ (map_to_list (mg_sessions m)).*2; mg_sessions := ∅; mg_tokens := ∅; mg_consoles := ∅ |}.

Inductive kvm_action : Type :=
| KStart (device host : string) (creds : BMCCreds)          (* StartSession acquires its session *)
| KStartAuth (i : nat) (redfish legacy : http_answer)       (* it logs in *)
| KStartEnd (i : nat) (token : string)                      (* it stores its token, or gives up *)
| KRequest (p : nat) (redfish legacy : http_answer)         (* a proxied request logs in *)
| KExchange (token device id : string)                      (* the first request of a console *)
| KInvalidate (p : nat) (stale : bmcAuth)                   (* a proxied request was answered 401 *)
| KGc                                                       (* the janitor *)
| KRetire (p : nat) (before after : list nat)               (* one logout goroutine *)
| KClose
| KTick (d : Z).

Definition kvm_step (cfg : KVMConfig) (a : kvm_action) (w : KWorld) : option KWorld :=
  match a with
  | KStart device host creds =>
      let '(m, p) := acquireLocked host creds (kw_mgr w) in
      Some {| w with kw_mgr := m; kw_calls := S (kw_calls w);
              kw_starting := <[kw_calls w := {| sg_device := device; sg_sess := p; sg_phase := Acquired |}]> (kw_starting w) |}
  | KStartAuth i redfish legacy =>
      c ← kw_starting w !! i;
      match sg_phase c with
      | Acquired =>
          let '(w, r) := auth_on (sg_sess c) redfish legacy w in
          Some {| w with kw_starting := <[i := {| c with sg_phase := match r with Ok _ => LoggedIn | Err _ => LoginFailed end |}]> (kw_starting w) |}
      | _ => None
      end
  | KStartEnd i token =>
      c ← kw_starting w !! i;
      let w := {| w with kw_starting := delete i (kw_starting w) |} in
      match sg_phase c with
      | Acquired => None
      | LoginFailed => Some (unlock (releaseLocked (sg_sess c) (kw_mgr w)) w)
      | LoggedIn =>
          if decide (token ∈ kw_issued w) then None
          else
            let e := {| te_deviceID := sg_device c; te_sess := sg_sess c; te_expires := kw_now w + kc_tokenTTL cfg |} in
            let m := kw_mgr w in
            Some (unlock (gcLocked (kw_now w) {| m with mg_tokens := <[token := e]> (mg_tokens m) |})
                    {| w with kw_issued := {[token]} ∪ kw_issued w |})
      end
  | KRequest p redfish legacy => Some (fst (auth_on p redfish legacy w))
  | KExchange token device id =>
      if decide (id ∈ kw_issued w) then None
      else
        let '(m, r) := exchange cfg (kw_now w) token device id (kw_mgr w) in
        Some (unlock m {| w with kw_issued := {[id]} ∪ kw_issued w;
                kw_exchanged := kw_exchanged w ++ (match r with Some _ => [token] | None => [] end) |})
  | KInvalidate p stale =>
      s ← mg_heap (kw_mgr w) !! p;
      let '(s', _, out) := invalidate (kw_now w) stale s in
      Some {| w with kw_mgr := set_session p s' (kw_mgr w); kw_logouts := kw_logouts w ++ out |}
  | KGc => Some (unlock (gcLocked (kw_now w) (kw_mgr w)) w)
  | KRetire p before after =>
      if decide (kw_retiring w = before ++ p :: after) then
        s ← mg_heap (kw_mgr w) !! p;
        let '(s', out) := retire s in
        Some {| w with kw_mgr := set_session p s' (kw_mgr w); kw_retiring := before ++ after; kw_logouts := kw_logouts w ++ out |}
      else None
  | KClose => Some (unlock (CloseManager (kw_mgr w)) w)
  | KTick d => if 0 <=? d then Some {| w with kw_now := kw_now w + d |} else None
  end.
End sessions.

(** The console URL [StartSession] returns; [escape] is url.PathEscape. *)
Definition console_url (escape : string → string) (cfg : KVMConfig) (device token : string) : string :=
  kc_consoleOrigin cfg +:+ "/bmc/" +:+ escape device +:+ "/" +:+ consoleEntry +:+ "&kvmtoken=" +:+ token.
