(* ===== verification/KvmProps.v ===== *)
(** * BMC consoles: the sessions are accounted for

    In every reachable state of the console manager, under any interleaving of
    calls, requests, logouts, the janitor and a shutdown: a registered BMC
    session is counted exactly and in use, what a token, a console or a
    running call holds is registered, waiting for its logout or closed, no BMC
    login is lost or ended twice, and a start token is used at most once. *)

From S2P Require Import Prelude Models Store Kvm.

(** ** Counting *)

Definition occ (p : nat) (l : list nat) : nat := length (List.filter (Nat.eqb p) l).

Lemma occ_app p l1 l2 : occ p (l1 ++ l2) = (occ p l1 + occ p l2)%nat.
Proof. unfold occ. by rewrite List.filter_app, length_app. Qed.

Lemma occ_cons p q l : occ p (q :: l) = ((if decide (p = q) then 1 else 0) + occ p l)%nat.
Proof. unfold occ. cbn. destruct (Nat.eqb_spec p q), (decide (p = q)); naive_solver. Qed.

Lemma occ_elem p l : p ∈ l ↔ (0 < occ p l)%nat.
Proof.
  induction l as [|q l IH]; [split; [by intros ?%not_elem_of_nil|cbn; lia]|].
  rewrite elem_of_cons, occ_cons, IH. case_decide; naive_solver lia.
Qed.

#[local] Arguments occ : simpl never.

#[export] Instance occ_proper p : Proper ((≡ₚ) ==> (=)) (occ p).
Proof. intros l1 l2 Hl. unfold occ. induction Hl; cbn; repeat case_match; cbn; lia. Qed.

(** ** What holds a session *)

Definition entry_sessions (set : gmap string tokenEntry) : list nat := te_sess <$> (map_to_list set).*2.
Definition call_sessions (set : gmap nat starting) : list nat := sg_sess <$> (map_to_list set).*2.
Definition holders (w : KWorld) : list nat :=
  entry_sessions (mg_tokens (kw_mgr w)) ++ entry_sessions (mg_consoles (kw_mgr w)) ++ call_sessions (kw_starting w).

Lemma entry_insert k e set : set !! k = None → entry_sessions (<[k := e]> set) ≡ₚ te_sess e :: entry_sessions set.
Proof. intros Hk. unfold entry_sessions. by rewrite map_to_list_insert by done. Qed.

Lemma entry_delete k e set : set !! k = Some e → entry_sessions set ≡ₚ te_sess e :: entry_sessions (delete k set).
Proof.
  intros Hk. rewrite <- (entry_insert k) by apply lookup_delete_eq. by rewrite insert_delete_id.
Qed.

Lemma call_insert i c set : set !! i = None → call_sessions (<[i := c]> set) ≡ₚ sg_sess c :: call_sessions set.
Proof. intros Hk. unfold call_sessions. by rewrite map_to_list_insert by done. Qed.

Lemma call_delete i c set : set !! i = Some c → call_sessions set ≡ₚ sg_sess c :: call_sessions (delete i set).
Proof. intros Hk. rewrite <- (call_insert i) by apply lookup_delete_eq. by rewrite insert_delete_id. Qed.

Lemma call_update i c c' set : set !! i = Some c → sg_sess c' = sg_sess c → call_sessions (<[i := c']> set) ≡ₚ call_sessions set.
Proof.
  intros Hi E. rewrite (call_delete i c set Hi), <- E, <- (call_insert i c') by apply lookup_delete_eq. by rewrite insert_delete_eq.
Qed.

Lemma filter_split {A} (f : A → bool) (l : list A) : l ≡ₚ List.filter (λ x, negb (f x)) l ++ List.filter f l.
Proof.
  induction l as [|x l IH]; cbn; [done|]. destruct (f x); cbn; [by rewrite <- Permutation_middle, <- IH|by rewrite <- IH].
Qed.

Lemma filter_values {A} (f : A → bool) l1 l2 : l1 ≡ₚ l2 → List.filter f l1 ≡ₚ List.filter f l2.
Proof. induction 1; cbn; repeat case_match; try by constructor. all: by etransitivity. Qed.

Lemma remaining_values now set : (map_to_list (remaining now set)).*2 ≡ₚ List.filter (live_at now) (map_to_list set).*2.
Proof.
  unfold remaining. induction set as [|k e set Hk IH] using map_ind; [done|].
  rewrite (filter_values _ _ _ (fmap_Permutation snd _ _ (map_to_list_insert set k e Hk))). cbn.
  destruct (live_at now e) eqn:El.
  - rewrite map_filter_insert_True by done. rewrite map_to_list_insert by (by apply map_lookup_filter_None_2; left). cbn. by rewrite IH.
  - rewrite map_filter_insert_False by (cbn; congruence). by rewrite delete_id by done.
Qed.

Lemma entry_split now set : entry_sessions set ≡ₚ ended now set ++ entry_sessions (remaining now set).
Proof.
  unfold entry_sessions, ended. rewrite remaining_values, <- fmap_app. by rewrite <- filter_split.
Qed.

(** ** The manager's invariant *)

(** [H]: what holds a session, a pointer per holder; [D]: sessions a goroutine
    is about to log out. *)
Record mgr_ok (H D : list nat) (m : Manager) : Prop := {
  mo_registered : ∀ k p, mg_sessions m !! k = Some p →
    ∃ s, mg_heap m !! p = Some s ∧ bs_key s = k ∧ bs_refs s = Z.of_nat (occ p H) ∧ bs_closed s = false ∧ p ∉ mg_dead m ++ D ∧ p ∈ H;
  mo_held : ∀ p, p ∈ H → is_Some (mg_heap m !! p);
  mo_known : ∀ p s, mg_heap m !! p = Some s → mg_sessions m !! bs_key s = Some p ∨ p ∈ mg_dead m ++ D ∨ bs_closed s = true;
  mo_closed : ∀ p s, mg_heap m !! p = Some s → bs_closed s = true → bs_auth s = no_auth;
  mo_doomed : ∀ p, p ∈ mg_dead m ++ D → is_Some (mg_heap m !! p);
  mo_fresh : ∀ p, is_Some (mg_heap m !! p) → (p < mg_next m)%nat }.

#[export] Instance mgr_ok_proper : Proper ((≡ₚ) ==> (≡ₚ) ==> (=) ==> iff) mgr_ok.
Proof.
  intros H1 H2 EH D1 D2 ED m ? <-. split; intros [Hr Hh Hk Hc Hd Hf]; split.
  1,3,5,7: setoid_rewrite <- EH || idtac. all: try setoid_rewrite <- ED; try setoid_rewrite <- EH; try done.
  all: try setoid_rewrite ED; try setoid_rewrite EH; done.
Qed.

(** Changing the fields of a session that are not shared. *)
Lemma set_session_ok H D m p s s' : mg_heap m !! p = Some s → bs_key s' = bs_key s →
  (mg_sessions m !! bs_key s = Some p → bs_refs s' = bs_refs s ∧ bs_closed s' = bs_closed s) →
  (bs_closed s = true → bs_closed s' = true) → (bs_closed s' = true → bs_auth s' = no_auth) →
  mgr_ok H D m → mgr_ok H D (set_session p s' m).
Proof.
  intros Hp Ek Hreg Hcl Hau [Hr Hh Hk Hc Hd Hf]. unfold set_session. split; cbn.
  - intros k q Hq. destruct (Hr k q Hq) as (t & Ht & Etk & Er & Ecl & Hin). destruct (decide (q = p)) as [->|Hne].
    + rewrite lookup_insert_eq. assert (t = s) as -> by congruence. rewrite Etk in *. destruct (Hreg Hq) as [E1 E2].
      exists s'. rewrite E1, E2. by split_and!; try done; try apply Hin; congruence.
    + rewrite lookup_insert_ne by done. by exists t.
  - intros q Hq. destruct (decide (q = p)) as [->|]; [rewrite lookup_insert_eq|rewrite lookup_insert_ne by done]; eauto.
  - intros q t. destruct (decide (q = p)) as [->|]; [rewrite lookup_insert_eq|rewrite lookup_insert_ne by done]; [|by apply Hk].
    intros [= <-]. rewrite Ek. destruct (Hk p s Hp) as [?|[?|?]]; auto.
  - intros q t. destruct (decide (q = p)) as [->|]; [rewrite lookup_insert_eq|rewrite lookup_insert_ne by done]; [|by apply Hc].
    intros [= <-]. done.
  - intros q Hq. destruct (decide (q = p)) as [->|]; [rewrite lookup_insert_eq|rewrite lookup_insert_ne by done]; eauto.
  - intros q Hq. apply Hf. destruct (decide (q = p)) as [->|]; [by eexists|by rewrite lookup_insert_ne in Hq].
Qed.

(** One holder less. *)
Lemma release_ok H D m p : mgr_ok (p :: H) D m → mgr_ok H D (releaseLocked p m).
Proof.
  intros Hm. destruct (mo_held _ _ _ Hm p) as [s Hs]; [by left|]. unfold releaseLocked. rewrite Hs.
  set (s' := {| s with bs_refs := bs_refs s - 1 |}). destruct Hm as [Hr Hh Hk Hc Hd Hf].
  assert (Hother : ∀ q, q ≠ p → occ q (p :: H) = occ q H) by (intros q Hq; rewrite occ_cons; by case_decide).
  assert (Hown : occ p (p :: H) = S (occ p H)) by (rewrite occ_cons; by case_decide).
  assert (Hheap : ∀ q t, mg_heap (set_session p s' m) !! q = Some t →
    ∃ t0, mg_heap m !! q = Some t0 ∧ bs_key t = bs_key t0 ∧ bs_closed t = bs_closed t0 ∧ bs_auth t = bs_auth t0).
  { intros q t. unfold set_session. cbn. destruct (decide (q = p)) as [->|]; [rewrite lookup_insert_eq|rewrite lookup_insert_ne by done]; [|by eauto].
    intros [= <-]. by exists s. }
  assert (Hsome : ∀ q, is_Some (mg_heap m !! q) → is_Some (mg_heap (set_session p s' m) !! q)).
  { intros q Hq. unfold set_session. cbn. destruct (decide (q = p)) as [->|]; [rewrite lookup_insert_eq|rewrite lookup_insert_ne by done]; eauto. }
  assert (Hkeep : ∀ k q, mg_sessions m !! k = Some q → q ≠ p →
    ∃ t, mg_heap (set_session p s' m) !! q = Some t ∧ bs_key t = k ∧ bs_refs t = Z.of_nat (occ q H) ∧ bs_closed t = false ∧ q ∉ mg_dead m ++ D ∧ q ∈ H).
  { intros k q Hq Hne. destruct (Hr k q Hq) as (t & Ht & Ek & Er & Ec & Hn & Hin). exists t. unfold set_session. cbn.
    rewrite lookup_insert_ne by done. rewrite <- Hother by done. apply elem_of_cons in Hin as [?|?]; [done|]. done. }
  destruct (0 <? bs_refs s - 1) eqn:Epos; bool_hyps.
  - (* others remain *)
    split; cbn [mg_sessions mg_dead set_session mg_next].
    + intros k q Hq. destruct (decide (q = p)) as [->|Hne]; [|by apply Hkeep].
      destruct (Hr k p Hq) as (t & Ht & Ek & Er & Ec & Hn & Hin). assert (t = s) as -> by congruence. exists s'. cbn.
      rewrite lookup_insert_eq. split_and!; try done; [lia|]. apply occ_elem. lia.
    + intros q Hq. apply Hsome, Hh. by right.
    + intros q t Hq. destruct (Hheap q t Hq) as (t0 & Ht0 & -> & -> & _). by apply Hk.
    + intros q t Hq. destruct (Hheap q t Hq) as (t0 & Ht0 & _ & -> & ->). by apply (Hc q).
    + intros q Hq. by apply Hsome, Hd.
    + intros q [t Hq]. destruct (Hheap q t Hq) as (t0 & Ht0 & _). apply Hf. by exists t0.
  - (* the last one: unregistered and queued for logout *)
    assert (Hdead : ∀ q, q ∈ (mg_dead m ++ [p]) ++ D ↔ q = p ∨ q ∈ mg_dead m ++ D) by (intros q; set_solver).
    set (m1 := if decide (mg_sessions (set_session p s' m) !! bs_key s = Some p) then _ else _).
    assert (Hdel : ∀ k q, mg_sessions m1 !! k = Some q → mg_sessions m !! k = Some q ∧ q ≠ p).
    { intros k q. subst m1. case_decide as Hd'; cbn in *.
      - intros [Hne Hq]%lookup_delete_Some. split; [done|]. intros ->. destruct (Hr k p Hq) as (t & Ht & Ek & _). naive_solver congruence.
      - intros Hq. split; [done|]. intros ->. destruct (Hr k p Hq) as (t & Ht & Ek & _). naive_solver congruence. }
    assert (Hreg : ∀ q t, mg_heap m !! q = Some t → mg_sessions m !! bs_key t = Some q → q ≠ p → mg_sessions m1 !! bs_key t = Some q).
    { intros q t Ht Hq Hne. subst m1. case_decide as Hd'; cbn in *; [|done]. rewrite lookup_delete_ne; [done|]. intros E. rewrite E in *. congruence. }
    assert (Em : mg_heap m1 = mg_heap (set_session p s' m) ∧ mg_dead m1 = mg_dead m ∧ mg_next m1 = mg_next m) by (subst m1; by case_decide).
    destruct Em as (Eh & Edd & En). split; cbn [mg_sessions mg_dead mg_heap mg_next]; rewrite ?Eh, ?Edd, ?En.
    + intros k q Hq. destruct (Hdel k q Hq) as [Hq' Hne]. destruct (Hkeep k q Hq' Hne) as (t & Ht & Ek & Er & Ec & Hn & Hin).
      exists t. split_and!; try done. rewrite Hdead. naive_solver.
    + intros q Hq. apply Hsome, Hh. by right.
    + intros q t Hq. destruct (Hheap q t Hq) as (t0 & Ht0 & -> & -> & _). rewrite Hdead.
      destruct (decide (q = p)); [by auto|]. destruct (Hk q t0 Ht0) as [?|[?|?]]; auto.
    + intros q t Hq. destruct (Hheap q t Hq) as (t0 & Ht0 & _ & -> & ->). by apply (Hc q).
    + intros q [->|Hq]%Hdead; [by apply Hsome; eexists|by apply Hsome, Hd].
    + intros q [t Hq]. destruct (Hheap q t Hq) as (t0 & Ht0 & _). apply Hf. by exists t0.
Qed.

Lemma release_all_ok L H D m : mgr_ok (L ++ H) D m → mgr_ok H D (foldl (λ m p, releaseLocked p m) m L).
Proof. revert m. induction L as [|p L IH]; intros m Hm; cbn; [done|]. by apply IH, release_ok. Qed.

(** The invariant does not look at the tokens and consoles. *)
Lemma mgr_ok_entries H D m T C : mgr_ok H D m → mgr_ok H D {| m with mg_tokens := T; mg_consoles := C |}.
Proof. intros [Hr Hh Hk Hc Hd Hf]. by split. Qed.

Lemma release_all_entries L m :
  mg_tokens (foldl (λ m p, releaseLocked p m) m L) = mg_tokens m ∧ mg_consoles (foldl (λ m p, releaseLocked p m) m L) = mg_consoles m.
Proof.
  revert m. induction L as [|p L IH]; intros m; cbn; [done|]. destruct (IH (releaseLocked p m)) as [-> ->]. unfold releaseLocked.
  destruct (mg_heap m !! p); [|done]. destruct (0 <? _); [done|]. by case_decide.
Qed.

Lemma gc_ok H D m now : mgr_ok (entry_sessions (mg_tokens m) ++ entry_sessions (mg_consoles m) ++ H) D m →
  mgr_ok (entry_sessions (mg_tokens (gcLocked now m)) ++ entry_sessions (mg_consoles (gcLocked now m)) ++ H) D (gcLocked now m).
Proof.
  intros Hm. unfold gcLocked. set (m0 := {| m with mg_tokens := _; mg_consoles := _ |}).
  destruct (release_all_entries (ended now (mg_tokens m) ++ ended now (mg_consoles m)) m0) as [-> ->]. cbn. apply release_all_ok, mgr_ok_entries.
  revert Hm. rewrite (entry_split now (mg_tokens m)), (entry_split now (mg_consoles m)). intros Hm.
  eapply mgr_ok_proper; [| |done|exact Hm]; [|done]. solve_Permutation.
Qed.

Lemma acquire_ok H D m host creds : mgr_ok H D m → mg_dead m = [] →
  mgr_ok (snd (acquireLocked host creds m) :: H) D (fst (acquireLocked host creds m)).
Proof.
  intros Hm Hdead. unfold acquireLocked. destruct (mg_sessions m !! session_key host creds) as [p|] eqn:Ep.
  - destruct (mo_registered _ _ _ Hm _ _ Ep) as (s & Hs & Ek & Er & Ec & Hn & Hin). rewrite Hs. cbn [fst snd].
    destruct Hm as [Hr Hh Hk Hc Hd Hf]. split; cbn.
    + intros k q Hq. destruct (decide (q = p)) as [->|Hne].
      * destruct (Hr k p Hq) as (t & Ht & Ek' & _). assert (t = s) as -> by congruence. rewrite lookup_insert_eq.
        eexists. split_and!; [done|done| |done|done|by left]. cbn. rewrite occ_cons. case_decide; [lia|done].
      * destruct (Hr k q Hq) as (t & Ht & Ek' & Er' & ? & ? & ?). rewrite lookup_insert_ne by done. exists t. rewrite occ_cons. case_decide; [done|].
        split_and!; try done. by right.
    + intros q [->|Hq]%elem_of_cons; [by rewrite lookup_insert_eq|]. destruct (decide (q = p)) as [->|]; [by rewrite lookup_insert_eq|rewrite lookup_insert_ne by done; eauto].
    + intros q t. destruct (decide (q = p)) as [->|]; [rewrite lookup_insert_eq|rewrite lookup_insert_ne by done]; [|by apply Hk].
      intros [= <-]. cbn. left. by rewrite Ek.
    + intros q t. destruct (decide (q = p)) as [->|]; [rewrite lookup_insert_eq|rewrite lookup_insert_ne by done]; [|by apply Hc].
      intros [= <-]. cbn. congruence.
    + intros q Hq. destruct (decide (q = p)) as [->|]; [by rewrite lookup_insert_eq|rewrite lookup_insert_ne by done; eauto].
    + intros q Hq. apply Hf. destruct (decide (q = p)) as [->|]; [by eexists|by rewrite lookup_insert_ne in Hq].
  - cbn [set_session mg_heap mg_next mg_sessions]. rewrite lookup_insert_eq. cbn [fst snd]. destruct Hm as [Hr Hh Hk Hc Hd Hf].
    set (p := mg_next m) in *. assert (Hnew : mg_heap m !! p = None).
    { destruct (mg_heap m !! p) eqn:E; [|done]. specialize (Hf p (mk_is_Some _ _ E)). subst p. lia. }
    assert (Hnh : p ∉ H) by (intros Hp; destruct (Hh p Hp) as [? ?]; congruence).
    assert (Hnd : p ∉ mg_dead m ++ D) by (intros Hp; destruct (Hd p Hp) as [? ?]; congruence).
    split; cbn.
    + intros k q. destruct (decide (k = session_key host creds)) as [->|Hne].
      * rewrite lookup_insert_eq. intros [= <-]. rewrite lookup_insert_eq. eexists. split_and!; try done; [|by left]. cbn.
        rewrite occ_cons. case_decide; [|done]. destruct (occ p H) eqn:E; [done|]. exfalso. apply Hnh, occ_elem. lia.
      * rewrite lookup_insert_ne by done. intros Hq. destruct (Hr k q Hq) as (t & Ht & Ek' & Er' & ? & ? & ?).
        assert (q ≠ p) by congruence. rewrite !lookup_insert_ne by done. exists t. rewrite occ_cons. case_decide; [done|]. split_and!; try done. by right.
    + intros q [->|Hq]%elem_of_cons; [by rewrite lookup_insert_eq|]. rewrite !lookup_insert_ne by congruence || (intros ->; done). eauto.
    + intros q t. destruct (decide (q = p)) as [->|]; [rewrite lookup_insert_eq|rewrite !lookup_insert_ne by done].
      * intros [= <-]. cbn. left. apply lookup_insert_eq.
      * intros Hq. destruct (Hk q t Hq) as [Hs|?]; [left|by right]. rewrite lookup_insert_ne; [done|]. intros E. rewrite <- E in Hs. congruence.
    + intros q t. destruct (decide (q = p)) as [->|]; [rewrite lookup_insert_eq|rewrite !lookup_insert_ne by done; by apply Hc]. by intros [= <-].
    + intros q Hq. rewrite !lookup_insert_ne by (intros ->; done). eauto.
    + intros q Hq. destruct (decide (q = p)) as [->|Hne]; [lia|]. rewrite !lookup_insert_ne in Hq by done. specialize (Hf q Hq). lia.
Qed.

(** ** Logins *)

(** The logins a session, and the heap, still hold. *)
Definition login_of (s : bmcSession) : list (string * bmcAuth) := if auth_empty (bs_auth s) then [] else [(bs_host s, bs_auth s)].
Definition live_logins (heap : gmap nat bmcSession) : list (string * bmcAuth) := mbind login_of (map_to_list heap).*2.

Lemma live_update heap p s s' : heap !! p = Some s →
  ∃ L, live_logins heap ≡ₚ login_of s ++ L ∧ live_logins (<[p := s']> heap) ≡ₚ login_of s' ++ L.
Proof.
  intros Hp. exists (live_logins (delete p heap)). unfold live_logins. split.
  - rewrite <- (insert_delete_id heap p s Hp) at 1. rewrite map_to_list_insert by apply lookup_delete_eq. done.
  - rewrite <- insert_delete_eq, map_to_list_insert by apply lookup_delete_eq. done.
Qed.

Lemma live_same heap p s s' : heap !! p = Some s → bs_auth s' = bs_auth s → bs_host s' = bs_host s →
  live_logins (<[p := s']> heap) ≡ₚ live_logins heap.
Proof. intros Hp Ea Eh. destruct (live_update heap p s s' Hp) as (L & -> & ->). unfold login_of. by rewrite Ea, Eh. Qed.

Lemma release_live p m : live_logins (mg_heap (releaseLocked p m)) ≡ₚ live_logins (mg_heap m).
Proof.
  unfold releaseLocked. destruct (mg_heap m !! p) as [s|] eqn:Es; [|done].
  assert (Hs : live_logins (<[p := {| s with bs_refs := bs_refs s - 1 |}]> (mg_heap m)) ≡ₚ live_logins (mg_heap m)) by (by apply (live_same _ _ s)).
  destruct (0 <? _); [exact Hs|]. case_decide; exact Hs.
Qed.

Lemma release_all_live L m : live_logins (mg_heap (foldl (λ m p, releaseLocked p m) m L)) ≡ₚ live_logins (mg_heap m).
Proof. revert m. induction L as [|p L IH]; intros m; cbn; [done|]. by rewrite IH, release_live. Qed.

Lemma acquire_live H D m host creds : mgr_ok H D m → live_logins (mg_heap (fst (acquireLocked host creds m))) ≡ₚ live_logins (mg_heap m).
Proof.
  intros Hm. unfold acquireLocked. destruct (mg_sessions m !! _) as [p|] eqn:Ep.
  - destruct (mo_registered _ _ _ Hm _ _ Ep) as (s & Hs & _). rewrite Hs. by apply (live_same _ _ s).
  - cbn [set_session mg_heap mg_next mg_sessions]. rewrite lookup_insert_eq. cbn.
    assert (Hn : mg_heap m !! mg_next m = None).
    { destruct (mg_heap m !! mg_next m) eqn:E; [|done]. pose proof (mo_fresh _ _ _ Hm _ (mk_is_Some _ _ E)). lia. }
    rewrite insert_insert_eq. unfold live_logins. by rewrite map_to_list_insert by done.
Qed.

(** ** The world's invariant *)

Record world_ok (cfg : KVMConfig) (w : KWorld) : Prop := {
  wo_dead : mg_dead (kw_mgr w) = [];
  wo_mgr : mgr_ok (holders w) (kw_retiring w) (kw_mgr w);
  wo_ledger : kw_logins w ≡ₚ kw_logouts w ++ live_logins (mg_heap (kw_mgr w));
  wo_calls : ∀ i, is_Some (kw_starting w !! i) → (i < kw_calls w)%nat;
  wo_issued : ∀ t, is_Some (mg_tokens (kw_mgr w) !! t) ∨ is_Some (mg_consoles (kw_mgr w) !! t) → t ∈ kw_issued w;
  wo_used : ∀ t, t ∈ kw_exchanged w → t ∈ kw_issued w ∧ mg_tokens (kw_mgr w) !! t = None;
  wo_once : NoDup (kw_exchanged w);
  wo_token_ttl : ∀ t e, mg_tokens (kw_mgr w) !! t = Some e → te_expires e ≤ kw_now w + kc_tokenTTL cfg;
  wo_console_ttl : ∀ t e, mg_consoles (kw_mgr w) !! t = Some e → te_expires e ≤ kw_now w + kc_consoleTTL cfg }.

(** Handing the dead sessions over to their goroutines. *)
Lemma retire_dead H D m : mgr_ok H D m → mgr_ok H (D ++ mg_dead m) {| m with mg_dead := [] |}.
Proof.
  intros [Hr Hh Hk Hc Hd Hf].
  assert (E : ∀ p, p ∈ [] ++ (D ++ mg_dead m) ↔ p ∈ mg_dead m ++ D) by (intros p; set_solver).
  split; cbn [mg_sessions mg_heap mg_dead mg_next]; try done.
  - intros k p Hp. destruct (Hr k p Hp) as (s & ?). exists s. rewrite E. done.
  - intros p s Hp. rewrite E. by apply Hk.
  - intros p Hp. apply Hd. by apply E.
Qed.

(** What the garbage collection leaves of the entries. *)
Lemma gc_entries now m :
  mg_tokens (gcLocked now m) = remaining now (mg_tokens m) ∧ mg_consoles (gcLocked now m) = remaining now (mg_consoles m) ∧
  live_logins (mg_heap (gcLocked now m)) ≡ₚ live_logins (mg_heap m).
Proof.
  unfold gcLocked. set (m0 := {| m with mg_tokens := _; mg_consoles := _ |}).
  destruct (release_all_entries (ended now (mg_tokens m) ++ ended now (mg_consoles m)) m0) as [-> ->]. split_and!; [done|done|]. exact (release_all_live _ m0).
Qed.

Lemma remaining_lookup now set t e : remaining now set !! t = Some e → set !! t = Some e.
Proof. unfold remaining. by intros [? _]%map_lookup_filter_Some. Qed.

(** ** Every step preserves it *)

(** The end of a critical section that collected the expired entries. *)
Lemma unlock_gc_ok cfg w m :
  mgr_ok (entry_sessions (mg_tokens m) ++ entry_sessions (mg_consoles m) ++ call_sessions (kw_starting w)) (kw_retiring w) m →
  kw_logins w ≡ₚ kw_logouts w ++ live_logins (mg_heap m) →
  (∀ i, is_Some (kw_starting w !! i) → (i < kw_calls w)%nat) →
  (∀ t, is_Some (mg_tokens m !! t) ∨ is_Some (mg_consoles m !! t) → t ∈ kw_issued w) →
  (∀ t, t ∈ kw_exchanged w → t ∈ kw_issued w ∧ mg_tokens m !! t = None) → NoDup (kw_exchanged w) →
  (∀ t e, mg_tokens m !! t = Some e → te_expires e ≤ kw_now w + kc_tokenTTL cfg) →
  (∀ t e, mg_consoles m !! t = Some e → te_expires e ≤ kw_now w + kc_consoleTTL cfg) →
  world_ok cfg (unlock (gcLocked (kw_now w) m) w).
Proof.
  intros Hm Hl Hc Hi Hu Ho Ht1 Ht2. apply (gc_ok _ _ _ (kw_now w)) in Hm. apply retire_dead in Hm.
  destruct (gc_entries (kw_now w) m) as (Et & Ec & El). split; cbn; try done.
  - by rewrite El.
  - rewrite Et, Ec. intros t [[e ?%remaining_lookup]|[e ?%remaining_lookup]]; apply Hi; eauto.
  - rewrite Et. intros t Hin. destruct (Hu t Hin) as [? Hn]. split; [done|]. destruct (remaining _ _ !! t) eqn:E; [|done].
    apply remaining_lookup in E. congruence.
  - rewrite Et. intros t e ?%remaining_lookup. eauto.
  - rewrite Ec. intros t e ?%remaining_lookup. eauto.
Qed.

Lemma login_nonempty up dec host creds rf lg a gone : login up dec host creds rf lg = (Ok a, gone) → auth_empty a = false.
Proof.
  unfold login. destruct (is_empty (bc_Username creds) || is_empty (bc_Password creds)); [done|].
  assert (Hrf : ∀ a gone, loginRedfish up dec host rf = (Ok a, gone) → is_empty (ba_token a) = false).
  { intros a0 g0. unfold loginRedfish. destruct rf as [|t|r]; [done..|]. repeat case_match; intros [= <- <-]; done. }
  assert (Hlg : ∀ a, loginLegacy host lg = Ok a → is_empty (ba_cookie a) = false).
  { intros a0. unfold loginLegacy. destruct lg as [|t|r]; [done..|]. repeat case_match; intros [= <-]; done. }
  assert (Hmerge : ∀ x y, is_empty y = false → is_empty (mergeCookies x y) = false).
  { intros x y Hy. unfold mergeCookies. destruct x; cbn; [done|]. by destruct (is_empty y). }
  destruct (loginRedfish up dec host rf) as [[b|e] g] eqn:Er.
  - specialize (Hrf b g eq_refl). unfold auth_empty. destruct (str_contains (ba_cookie b) "SID=").
    + intros [= <- <-]. by rewrite Hrf, andb_false_r.
    + destruct (loginLegacy host lg) as [l|e] eqn:El; intros [= <- <-]; cbn; by rewrite Hrf, andb_false_r.
  - destruct (decide (le_kind e = errUnsupported)); [|done]. destruct (loginLegacy host lg) as [l|e'] eqn:El.
    + intros [= <- <-]. unfold auth_empty. cbn. by rewrite (Hlg l).
    + by destruct (decide _).
Qed.

(** A session logs in: nothing shared changes and the ledger balances. *)
Lemma auth_on_ok up dec cfg p rf lg w : world_ok cfg w →
  world_ok cfg (fst (auth_on up dec p rf lg w)) ∧ kw_starting (fst (auth_on up dec p rf lg w)) = kw_starting w ∧
  kw_calls (fst (auth_on up dec p rf lg w)) = kw_calls w.
Proof.
  intros Hw. unfold auth_on. destruct (mg_heap (kw_mgr w) !! p) as [s|] eqn:Es; [|done].
  destruct (sessionAuth up dec (kw_now w) rf lg s) as [[[s' r] opened] gone] eqn:Ea. cbn. split; [|done].
  assert (Hs : bs_key s' = bs_key s ∧ bs_refs s' = bs_refs s ∧ bs_closed s' = bs_closed s ∧ (bs_closed s = true → s' = s) ∧
               login_of s ++ opened ≡ₚ gone ++ login_of s').
  { revert Ea. unfold sessionAuth. destruct (bs_closed s) eqn:Ec; [intros [= <- <- <- <-]; by rewrite app_nil_r|].
    destruct (negb (auth_empty (bs_auth s))) eqn:Ee; [intros [= <- <- <- <-]; by rewrite app_nil_r|]. apply negb_false_iff in Ee.
    destruct (login up dec (bs_host s) (bs_creds s) rf lg) as [[a|e] g] eqn:El; intros [= <- <- <- <-]; cbn.
    - split_and!; try done. unfold login_of. cbn. rewrite Ee. apply login_nonempty in El. by rewrite El.
    - split_and!; try done. unfold login_of. rewrite Ee. by rewrite app_nil_r. }
  destruct Hs as (Ek & Er & Ecl & Hcl & Hlog). destruct Hw as [Hd Hm Hl Hc Hi Hu Ho Ht1 Ht2]. split; cbn; try done.
  - apply (set_session_ok _ _ _ _ s); try done; [by rewrite Ecl|]. intros Hc'. rewrite Ecl in Hc'. rewrite (Hcl Hc'). by apply (mo_closed _ _ _ Hm p).
  - destruct (live_update _ p s s' Es) as (L & E1 & E2). rewrite E2, Hl, E1, <- !app_assoc.
    rewrite (app_assoc (kw_logouts w) gone). rewrite <- app_assoc. apply Permutation_app_head.
    rewrite (Permutation_app_comm L opened), !app_assoc. by apply Permutation_app_tail.
Qed.

#[local] Arguments unlock : simpl never.
#[local] Arguments gcLocked : simpl never.

Section steps.
Context (up : string → option string) (dec : string → session_doc) (cfg : KVMConfig).

Lemma start_ok device host creds w w' : world_ok cfg w → kvm_step up dec cfg (KStart device host creds) w = Some w' → world_ok cfg w'.
Proof.
  intros [Hd Hm Hl Hc Hi Hu Ho Ht1 Ht2]. cbn. pose proof (acquire_ok _ _ _ host creds Hm Hd) as Ha. pose proof (acquire_live _ _ _ host creds Hm) as Hv.
  assert (Hk : let m := fst (acquireLocked host creds (kw_mgr w)) in
    mg_tokens m = mg_tokens (kw_mgr w) ∧ mg_consoles m = mg_consoles (kw_mgr w) ∧ mg_dead m = mg_dead (kw_mgr w)).
  { unfold acquireLocked. destruct (mg_sessions (kw_mgr w) !! _); cbn; [by destruct (mg_heap _ !! _)|by rewrite lookup_insert_eq]. }
  destruct (acquireLocked host creds (kw_mgr w)) as [m p]. cbn in *. destruct Hk as (Et & Ec & Edd). intros [= <-].
  assert (Hfresh : kw_starting w !! kw_calls w = None).
  { destruct (kw_starting w !! kw_calls w) eqn:E; [|done]. specialize (Hc _ (mk_is_Some _ _ E)). lia. }
  split; cbn; rewrite ?Et, ?Ec; try done.
  - by rewrite Edd.
  - unfold holders in *. cbn. rewrite Et, Ec, call_insert by done. cbn. eapply mgr_ok_proper; [| |done|exact Ha]; [|done]. solve_Permutation.
  - by rewrite Hv.
  - intros i. destruct (decide (i = kw_calls w)) as [->|]; [lia|]. rewrite lookup_insert_ne by done. intros ?%Hc. lia.
Qed.

Lemma start_auth_ok i rf lg w w' : world_ok cfg w → kvm_step up dec cfg (KStartAuth i rf lg) w = Some w' → world_ok cfg w'.
Proof.
  intros Hw. cbn. destruct (kw_starting w !! i) as [c|] eqn:Ei; cbn; [|done]. destruct (sg_phase c); [|done..].
  destruct (auth_on_ok up dec cfg (sg_sess c) rf lg w Hw) as (Ha & Es & Ec).
  destruct (auth_on up dec (sg_sess c) rf lg w) as [w1 r]. cbn in *. intros [= <-].
  destruct Ha as [Hd Hm Hl Hc Hi Hu Ho Ht1 Ht2]. split; cbn; try done.
  - unfold holders in *. cbn. rewrite Es in *. by rewrite call_update.
  - intros j. rewrite Es, Ec. destruct (decide (j = i)) as [->|]; [|rewrite lookup_insert_ne by done]; intros Hj;
      [rewrite <- Ec; apply Hc; rewrite Es; eauto|rewrite <- Ec; apply Hc; by rewrite Es].
Qed.

Lemma start_end_ok i token w w' : world_ok cfg w → kvm_step up dec cfg (KStartEnd i token) w = Some w' → world_ok cfg w'.
Proof.
  intros [Hd Hm Hl Hc Hi Hu Ho Ht1 Ht2]. cbn. destruct (kw_starting w !! i) as [c|] eqn:Ei; cbn; [|done].
  assert (Hc' : ∀ j, is_Some (delete i (kw_starting w) !! j) → (j < kw_calls w)%nat) by (intros j [x [_ Hx]%lookup_delete_Some]; eauto).
  unfold holders in Hm. rewrite (call_delete i c _ Ei) in Hm.
  destruct (sg_phase c); [done| |].
  - destruct (decide (token ∈ kw_issued w)) as [|Hn]; [done|]. intros [= <-].
    assert (Hnt : mg_tokens (kw_mgr w) !! token = None).
    { destruct (mg_tokens (kw_mgr w) !! token) eqn:E; [|done]. exfalso. apply Hn, Hi. left. eauto. }
    match goal with |- world_ok _ (unlock (gcLocked _ ?m) ?v) => apply (unlock_gc_ok cfg v m) end; cbn; try done.
    + apply mgr_ok_entries with (C := mg_consoles (kw_mgr w)) (T := <[token := {| te_deviceID := sg_device c; te_sess := sg_sess c; te_expires := kw_now w + kc_tokenTTL cfg |}]> (mg_tokens (kw_mgr w))).
      rewrite entry_insert by done. cbn. eapply mgr_ok_proper; [| |done|exact Hm]; [|done]. solve_Permutation.
    + intros t [[e [[<- _]|[_ Ht]]%lookup_insert_Some]|Ht]; [set_solver| |]; apply elem_of_union_r, Hi; eauto.
    + intros t Ht. destruct (Hu t Ht) as [? ?]. split; [set_solver|]. rewrite lookup_insert_ne; [done|]. by intros ->.
    + intros t e [[_ <-]|[_ Ht]]%lookup_insert_Some; [cbn; lia|eauto].
  - intros [= <-]. destruct (release_all_entries [sg_sess c] (kw_mgr w)) as [Et Ec]. cbn in Et, Ec. unfold unlock.
    assert (Hm' : mgr_ok (entry_sessions (mg_tokens (kw_mgr w)) ++ entry_sessions (mg_consoles (kw_mgr w)) ++ call_sessions (delete i (kw_starting w)))
                    (kw_retiring w) (releaseLocked (sg_sess c) (kw_mgr w))).
    { apply release_ok. eapply mgr_ok_proper; [| |done|exact Hm]; [|done]. solve_Permutation. }
    apply retire_dead in Hm'. split; cbn; rewrite ?Et, ?Ec; try done.
    + unfold holders. cbn. rewrite ?Et, ?Ec. by rewrite ?Et, ?Ec in Hm'.
    + by rewrite release_live.
Qed.

Lemma exchange_ok token device id w w' : world_ok cfg w → kvm_step up dec cfg (KExchange token device id) w = Some w' → world_ok cfg w'.
Proof.
  intros [Hd Hm Hl Hc Hi Hu Ho Ht1 Ht2]. cbn. destruct (decide (id ∈ kw_issued w)) as [|Hn]; [done|].
  unfold exchange. destruct (mg_tokens (kw_mgr w) !! token) as [e|] eqn:Et; [destruct (negb (live_at (kw_now w) e) || negb (te_deviceID e =s device)) eqn:Eg|].
  2:{ intros [= <-]. assert (Hnc : mg_consoles (kw_mgr w) !! id = None).
    { destruct (mg_consoles (kw_mgr w) !! id) eqn:E; [|done]. exfalso. apply Hn, Hi. right. eauto. }
    match goal with |- world_ok _ (unlock (gcLocked _ ?m) ?v) => apply (unlock_gc_ok cfg v m) end; cbn; try done.
    - apply mgr_ok_entries with (C := <[id := {| e with te_expires := kw_now w + kc_consoleTTL cfg |}]> (mg_consoles (kw_mgr w))) (T := delete token (mg_tokens (kw_mgr w))).
      rewrite entry_insert by done. cbn. unfold holders in Hm. rewrite (entry_delete token e _ Et) in Hm.
      eapply mgr_ok_proper; [| |done|exact Hm]; [|done]. solve_Permutation.
    - intros t [[x [_ Ht]%lookup_delete_Some]|[x [[<- _]|[_ Ht]]%lookup_insert_Some]]; [|set_solver|]; apply elem_of_union_r, Hi; eauto.
    - intros t [Ht| ->%list_elem_of_singleton]%elem_of_app.
      + destruct (Hu t Ht) as [? ?]. split; [set_solver|]. by apply lookup_delete_None; right.
      + split; [apply elem_of_union_r, Hi; eauto|]. apply lookup_delete_eq.
    - apply NoDup_app. split_and!; [done| |apply NoDup_singleton]. intros t Ht ->%list_elem_of_singleton. destruct (Hu _ Ht). congruence.
    - intros t x [_ Ht]%lookup_delete_Some. eauto.
    - intros t x [[_ <-]|[_ Ht]]%lookup_insert_Some; [cbn; lia|eauto]. }
  all: intros [= <-]; rewrite app_nil_r; unfold unlock; split; cbn; try done.
  all: try (intros t Ht; apply elem_of_union_r, Hi, Ht).
  all: try (intros t Ht; destruct (Hu t Ht); split; [set_solver|done]).
  all: apply retire_dead in Hm; rewrite Hd in Hm |- *; cbn; done.
Qed.

Lemma invalidate_ok p stale w w' : world_ok cfg w → kvm_step up dec cfg (KInvalidate p stale) w = Some w' → world_ok cfg w'.
Proof.
  intros [Hd Hm Hl Hc Hi Hu Ho Ht1 Ht2]. cbn. destruct (mg_heap (kw_mgr w) !! p) as [s|] eqn:Es; cbn; [|done].
  destruct (invalidate (kw_now w) stale s) as [[s' b] out] eqn:Ev. intros [= <-].
  assert (Hs : bs_key s' = bs_key s ∧ bs_refs s' = bs_refs s ∧ bs_closed s' = bs_closed s ∧ (bs_closed s = true → bs_auth s = no_auth → bs_auth s' = no_auth) ∧
               login_of s ≡ₚ out ++ login_of s').
  { revert Ev. unfold invalidate. case_bool_decide as Hst; cbn [orb]; [intros [= <- <- <-]; by split_and!|].
    destruct (auth_empty (bs_auth s)) eqn:Ee; cbn [orb]; [intros [= <- <- <-]; by split_and!|].
    destruct (kw_now w - bs_loggedAt s <? reloginAfter); intros [= <- <- <-]; [by split_and!|]. cbn.
    split_and!; try done. unfold login_of. cbn. by rewrite Ee, <- Hst. }
  destruct Hs as (Ek & Er & Ecl & Hcl & Hlog). split; cbn; try done.
  - apply (set_session_ok _ _ _ _ s); try done; [by rewrite Ecl|]. intros Hc'. rewrite Ecl in Hc'. apply Hcl; [done|]. by apply (mo_closed _ _ _ Hm p).
  - destruct (live_update _ p s s' Es) as (L & E1 & E2). by rewrite E2, Hl, E1, Hlog, <- !app_assoc.
Qed.

Lemma retire_ok p before after w w' : world_ok cfg w → kvm_step up dec cfg (KRetire p before after) w = Some w' → world_ok cfg w'.
Proof.
  intros [Hd Hm Hl Hc Hi Hu Ho Ht1 Ht2]. cbn. case_decide as Er; [|done]. destruct (mg_heap (kw_mgr w) !! p) as [s|] eqn:Es; cbn; [|done].
  intros [= <-]. set (s' := {| s with bs_auth := no_auth; bs_closed := true |}).
  assert (Hnr : ∀ k, mg_sessions (kw_mgr w) !! k ≠ Some p).
  { intros k Hk. destruct (mo_registered _ _ _ Hm k p Hk) as (t & _ & _ & _ & _ & Hn & _). apply Hn. rewrite Hd, Er. set_solver. }
  assert (Hset : mgr_ok (holders w) (kw_retiring w) (set_session p s' (kw_mgr w))).
  { apply (set_session_ok _ _ _ _ s); try done. intros Hk. by destruct (Hnr _ Hk). }
  split; cbn; try done.
  - destruct Hset as [Hr Hh Hk Hc' Hd' Hf]. cbn in *. rewrite Hd, Er in *. cbn in *. split; cbn; rewrite ?Hd; cbn; try done.
    + intros k q Hq. destruct (Hr k q Hq) as (t & ? & ? & ? & ? & Hn & ?). exists t. split_and!; try done. set_solver.
    + intros q t Hq. destruct (Hk q t Hq) as [?|[Hin|?]]; [by left| |by right; right].
      destruct (decide (q = p)) as [->|Hne]; [right; right|right; left; set_solver].
      rewrite lookup_insert_eq in Hq. by injection Hq as <-.
    + intros q Hq. apply Hd'. set_solver.
  - destruct (live_update _ p s s' Es) as (L & E1 & E2). rewrite E2, Hl, E1. unfold login_of. cbn. by rewrite <- app_assoc.
Qed.

Lemma close_ok w w' : world_ok cfg w → kvm_step up dec cfg KClose w = Some w' → world_ok cfg w'.
Proof.
  intros [Hd Hm Hl Hc Hi Hu Ho Ht1 Ht2]. intros [= <-]. unfold unlock, CloseManager. cbn. rewrite Hd.
  split; cbn; try done; [|by intros t [[? [=]]|[? [=]]]|intros t Ht; by destruct (Hu t Ht)].
  destruct Hm as [Hr Hh Hk Hc' Hd' Hf]. rewrite Hd in *. cbn in *.
  assert (Hin : ∀ p, p ∈ (map_to_list (mg_sessions (kw_mgr w))).*2 ↔ ∃ k, mg_sessions (kw_mgr w) !! k = Some p).
  { intros p. rewrite list_elem_of_fmap. split.
    - intros ([k q] & -> & Hq%elem_of_map_to_list). by exists k.
    - intros [k Hq]. exists (k, p). split; [done|]. by apply elem_of_map_to_list. }
  split; cbn; try done.
  - intros p Hp. apply Hh. unfold holders. set_solver.
  - intros p s Hp. destruct (Hk p s Hp) as [?|[?|?]]; [right; left|right; left|by right; right]; apply elem_of_app; [right; apply Hin; eauto|by left].
  - intros p [Hp|Hp]%elem_of_app; [by apply Hd'|]. apply Hin in Hp as [k Hp]. destruct (Hr k p Hp) as (s & ? & _). eauto.
Qed.

Lemma kvm_step_ok a w w' : world_ok cfg w → kvm_step up dec cfg a w = Some w' → world_ok cfg w'.
Proof.
  intros Hw. destruct a.
  - by apply start_ok.
  - by apply start_auth_ok.
  - by apply start_end_ok.
  - intros [= <-]. by apply auth_on_ok.
  - by apply exchange_ok.
  - by apply invalidate_ok.
  - intros [= <-]. destruct Hw as [Hd Hm Hl Hc Hi Hu Ho Ht1 Ht2]. by apply unlock_gc_ok.
  - by apply retire_ok.
  - by apply close_ok.
  - cbn. destruct (0 <=? d) eqn:E; [|done]. bool_hyps. intros [= <-]. destruct Hw as [Hd Hm Hl Hc Hi Hu Ho Ht1 Ht2]. split; cbn; try done.
    + intros t e Ht. specialize (Ht1 t e Ht). lia.
    + intros t e Ht. specialize (Ht2 t e Ht). lia.
Qed.

Lemma init_ok now : world_ok cfg (kvm_init now).
Proof.
  split; cbn; try done.
  - split; cbn; try done; try by intros p ?%not_elem_of_nil. by intros p [? [=]].
  - by intros i [? [=]].
  - by intros t [[? [=]]|[? [=]]].
  - by intros t ?%not_elem_of_nil.
  - apply NoDup_nil_2.
Qed.
End steps.

Definition kvm_reaches up dec cfg : relation KWorld := rtc (λ w w', ∃ a, kvm_step up dec cfg a w = Some w').

(** C8: the accounts of BMC sessions.  Whatever callers, console requests, BMC
    answers, the janitor, the logout goroutines and a shutdown do, in any
    order: a registered BMC session counts exactly the tokens, consoles and
    running calls that hold it, there is at least one and it is open; a session
    that a token, a console or a running call holds is registered, or waiting
    for its logout, or closed (a shutdown during a start leaves such a token);
    the logins made on BMCs are, with multiplicity, those logged out and those
    a session still has, so that distinct logins are logged out at most once
    and never while a session has them, and all of them are logged out when
    nothing holds a session and no logout is waiting; a start token opens at
    most one console; tokens and consoles expire within their lifetimes. *)
Theorem kvm_sessions_accounted up dec cfg now0 w : kvm_reaches up dec cfg (kvm_init now0) w →
  let m := kw_mgr w in
  (∀ k p, mg_sessions m !! k = Some p →
    ∃ s, mg_heap m !! p = Some s ∧ bs_refs s = Z.of_nat (occ p (holders w)) ∧ 0 < bs_refs s ∧ bs_closed s = false) ∧
  (∀ p, p ∈ holders w → ∃ s, mg_heap m !! p = Some s ∧
    (mg_sessions m !! bs_key s = Some p ∨ p ∈ kw_retiring w ∨ bs_closed s = true)) ∧
  kw_logins w ≡ₚ kw_logouts w ++ live_logins (mg_heap m) ∧
  (NoDup (kw_logins w) → NoDup (kw_logouts w) ∧ ∀ l, l ∈ kw_logouts w → l ∉ live_logins (mg_heap m)) ∧
  (holders w = [] → kw_retiring w = [] → kw_logins w ≡ₚ kw_logouts w) ∧
  NoDup (kw_exchanged w) ∧
  (∀ t e, mg_tokens m !! t = Some e → te_expires e ≤ kw_now w + kc_tokenTTL cfg) ∧
  (∀ t e, mg_consoles m !! t = Some e → te_expires e ≤ kw_now w + kc_consoleTTL cfg).
Proof.
  intros Hr m. assert (Hw : world_ok cfg w).
  { revert Hr. unfold kvm_reaches. generalize (init_ok cfg now0). generalize (kvm_init now0). intros w0 H0 Hr.
    induction Hr as [x|x y z [a Ha] _ IH]; [done|]. apply IH. by apply (kvm_step_ok up dec cfg a x y). }
  destruct Hw as [Hd Hm Hl Hc Hi Hu Ho Ht1 Ht2]. subst m. split_and!; try done.
  - intros k p Hp. destruct (mo_registered _ _ _ Hm k p Hp) as (s & Hs & _ & Er & Ec & _ & Hin). exists s. split_and!; try done.
    rewrite Er. apply occ_elem in Hin. lia.
  - intros p Hp. destruct (mo_held _ _ _ Hm p Hp) as [s Hs]. exists s. split; [done|].
    destruct (mo_known _ _ _ Hm p s Hs) as [?|[Hin|?]]; [by left|right; left|by right; right]. by rewrite Hd in Hin.
  - rewrite Hl, NoDup_app. intros (? & Hx & _). done.
  - intros Hh Hret. rewrite Hl. enough (live_logins (mg_heap (kw_mgr w)) = []) as -> by (by rewrite app_nil_r).
    unfold live_logins. apply elem_of_nil_inv. intros x [s [Hx Hs]]%list_elem_of_bind.
    apply list_elem_of_fmap in Hs as ([p s'] & -> & Hs%elem_of_map_to_list). cbn in *.
    destruct (mo_known _ _ _ Hm p s' Hs) as [Hreg|[Hin|Hcl]].
    + destruct (mo_registered _ _ _ Hm _ _ Hreg) as (t & _ & _ & _ & _ & _ & Hin). rewrite Hh in Hin. set_solver.
    + rewrite Hd, Hret in Hin. set_solver.
    + pose proof (mo_closed _ _ _ Hm p s' Hs Hcl) as E. unfold login_of in Hx. rewrite E in Hx. set_solver.
Qed.

(** ** A console from start to end *)

Definition ex_kvm : KVMConfig := {| kc_tokenTTL := defaultTokenTTL; kc_consoleTTL := defaultConsoleTTL; kc_consoleOrigin := "" |}.
Definition ex_path (l : string) : option string := Some l.
Definition ex_doc (b : string) : session_doc := {| do_ID := "7"; do_OData := ""; do_TwoFA := false |}.
Definition ex_bmc_creds : BMCCreds := {| bc_Username := "ADMIN"; bc_Password := "secret" |}.
Definition redfish_ok : http_answer :=
  Answered {| re_Status := 201; re_Token := "tok"; re_Location := "/redfish/v1/SessionService/Sessions/7"; re_Cookies := []; re_Body := "" |}.
Definition legacy_no : http_answer := Answered {| re_Status := 200; re_Token := ""; re_Location := ""; re_Cookies := []; re_Body := "" |}.

(** Two consoles of one BMC share a login; it is ended with the last one. *)
Definition ex_actions : list kvm_action :=
  [KStart "d1" "10.0.0.9" ex_bmc_creds; KStartAuth 0 redfish_ok legacy_no; KStartEnd 0 "t0";
   KStart "d2" "10.0.0.9" ex_bmc_creds; KStartAuth 1 redfish_ok legacy_no; KStartEnd 1 "t1";
   KExchange "t0" "d1" "c0"; KExchange "t1" "d1" "c1"; KExchange "t0" "d1" "c2";
   KTick defaultTokenTTL; KGc; KTick defaultConsoleTTL; KGc; KRetire 0 [] []].

Fixpoint run_kvm (l : list kvm_action) (w : KWorld) : option KWorld :=
  match l with [] => Some w | a :: l' => w' ← kvm_step ex_path ex_doc ex_kvm a w; run_kvm l' w' end.

Lemma run_kvm_reaches l w w' : run_kvm l w = Some w' → kvm_reaches ex_path ex_doc ex_kvm w w'.
Proof.
  revert w. induction l as [|a l IH]; intros w; cbn; [intros [= ->]; apply rtc_refl|].
  destruct (kvm_step ex_path ex_doc ex_kvm a w) as [w1|] eqn:E; cbn; [|done]. intros Hr. eapply rtc_l; [by exists a|by apply IH].
Qed.

Definition ex_kvm_end : KWorld := default (kvm_init 0) (run_kvm ex_actions (kvm_init 0)).

Lemma kvm_sessions_accounted_witness :
  kw_exchanged ex_kvm_end = ["t0"%string] ∧ length (kw_logins ex_kvm_end) = 1%nat ∧ kw_logins ex_kvm_end ≡ₚ kw_logouts ex_kvm_end ∧
  flat_map (λ l, logout (snd l)) (kw_logouts ex_kvm_end) = [("DELETE", "/redfish/v1/SessionService/Sessions/7")]%string.
Proof.
  destruct (kvm_sessions_accounted ex_path ex_doc ex_kvm 0 ex_kvm_end) as (_ & _ & _ & _ & Hall & _).
  { apply (run_kvm_reaches ex_actions). vm_compute. reflexivity. }
  split_and!; [vm_compute; reflexivity|vm_compute; reflexivity|apply Hall; vm_compute; reflexivity|vm_compute; reflexivity].
Defined.
