(* ===== verification/Warden.v ===== *)
(** * internal/warden: secrets read on behalf of the signed-in user

    A client returns the metadata and the credentials of a secret for the user
    whose token the request carries.  [WardenClient] is the interface; what a call
    returns and what it does meanwhile are an external effect.  [grpc_client]
    is the client over warden's two remote calls, which are parameters, and
    [fake_client] the in-memory one. *)

From S2P Require Import Prelude Models Store Hostreport.

Record SecretMeta : Type := { sm_ID : string; sm_Name : string; sm_Username : string; sm_FolderPath : string; sm_HostURL : string }.
Record Credentials : Type := { wc_Username : string; wc_Password : string; wc_HostURL : string }.
Definition zero_SecretMeta : SecretMeta := {| sm_ID := ""; sm_Name := ""; sm_Username := ""; sm_FolderPath := ""; sm_HostURL := "" |}.
Definition zero_Credentials : Credentials := {| wc_Username := ""; wc_Password := ""; wc_HostURL := "" |}.

(** Every textual form of credentials. *)
Definition Credentials_String (c : Credentials) : string := "[REDACTED]".

(** Token, reference. *)
Record WardenClient : Type := {
  cl_Meta : string → string → Ext (result error SecretMeta);
  cl_Credentials : string → string → Ext (result error Credentials) }.

Definition ErrNoUserToken : error := Wrapped "no user token to act on behalf of" Warden_ErrForbidden.
Definition ErrPolicyDenied : error := Wrapped "mesh policy refused the ipam service" Warden_ErrUnavailable.

Definition ValidRef (ref : string) : bool := IsUUID ref.

Definition precheck (token ref : string) : result error () :=
  if is_empty ref then Err Warden_ErrEmptyRef
  else if negb (ValidRef ref) then Err Warden_ErrNotFound
  else if is_empty token then Err ErrNoUserToken
  else Ok ().

(** ** The remote client *)

(** A failed remote call: its gRPC status code and message, or no status. *)
Inductive grpc_code : Type := NotFound | InvalidArgument | Unauthenticated | PermissionDenied | OtherCode (name : string).
Record grpc_status : Type := { gs_Code : grpc_code; gs_Message : string }.

Definition wardenForbidden : string := "forbidden".

Definition warden_mapErr (err : option grpc_status) : error :=
  match err with
  | None => Wrapped "Unknown" Warden_ErrUnavailable
  | Some st =>
      match gs_Code st with
      | NotFound | InvalidArgument => Warden_ErrNotFound
      | Unauthenticated => Warden_ErrForbidden
      | PermissionDenied => if gs_Message st =s wardenForbidden then Warden_ErrForbidden else ErrPolicyDenied
      | OtherCode name => Wrapped name Warden_ErrUnavailable
      end
  end.

Section remote.
Context (rpc_Get : string → string → Ext (result (option grpc_status) SecretMeta)).
Context (rpc_GetPassword : string → string → Ext (result (option grpc_status) string)).

(** [Err e] of a failed check, without a call. *)
Definition checked {A} (token ref : string) (k : Ext (result error A)) : Ext (result error A) :=
  λ w, match precheck token ref with Err e => (w, Err e) | Ok _ => k w end.

Definition warden_get (token ref : string) : Ext (result error SecretMeta) :=
  λ w, let '(w', r) := rpc_Get token ref w in (w', map_err warden_mapErr r).

Definition grpc_Credentials (token ref : string) : Ext (result error Credentials) :=
  λ w, let '(w1, r) := warden_get token ref w in
       match r with
       | Err e => (w1, Err e)
       | Ok m =>
           let '(w2, pw) := rpc_GetPassword token ref w1 in
           (w2, match pw with
                | Err e => Err (warden_mapErr e)
                | Ok p => Ok {| wc_Username := sm_Username m; wc_Password := p; wc_HostURL := sm_HostURL m |}
                end)
       end.

Definition grpc_client : WardenClient :=
  {| cl_Meta := λ token ref, checked token ref (warden_get token ref);
     cl_Credentials := λ token ref, checked token ref (grpc_Credentials token ref) |}.
End remote.

Definition UnavailableClient : WardenClient :=
  {| cl_Meta := λ _ _ w, (w, Err Warden_ErrUnavailable); cl_Credentials := λ _ _ w, (w, Err Warden_ErrUnavailable) |}.

(** ** The in-memory client *)

Section fake.
Context `{Env}.

Record WardenFake : Type := {
  wf_secrets : gmap string (SecretMeta * string); wf_deny : gmap string (gset string); wf_unavailable : bool }.
Definition NewWardenFake : WardenFake := {| wf_secrets := ∅; wf_deny := ∅; wf_unavailable := false |}.

Definition fake_put (f : WardenFake) (ref : string) (meta : SecretMeta) (password : string) : WardenFake :=
  {| f with wf_secrets := <[ToLower ref := ({| meta with sm_ID := ref |}, password)]> (wf_secrets f) |}.
Definition SetPassword (f : WardenFake) (ref password : string) : WardenFake :=
  match wf_secrets f !! ToLower ref with
  | Some (meta, _) => {| f with wf_secrets := <[ToLower ref := (meta, password)]> (wf_secrets f) |}
  | None => f
  end.
Definition Remove (f : WardenFake) (ref : string) : WardenFake := {| f with wf_secrets := delete (ToLower ref) (wf_secrets f) |}.
Definition Deny (f : WardenFake) (token ref : string) : WardenFake :=
  {| f with wf_deny := <[token := {[ToLower ref]} ∪ default ∅ (wf_deny f !! token)]> (wf_deny f) |}.
Definition SetUnavailable (f : WardenFake) (v : bool) : WardenFake := {| f with wf_unavailable := v |}.

Definition fake_lookup (f : WardenFake) (token ref : string) : result error (SecretMeta * string) :=
  match precheck token ref with
  | Err e => Err e
  | Ok _ =>
      if wf_unavailable f then Err Warden_ErrUnavailable
      else match wf_secrets f !! ToLower ref with
      | None => Err Warden_ErrNotFound
      | Some s => if bool_decide (ToLower ref ∈ default ∅ (wf_deny f !! token)) then Err Warden_ErrForbidden else Ok s
      end
  end.

Definition fake_client (f : WardenFake) : WardenClient :=
  {| cl_Meta := λ token ref w, (w, match fake_lookup f token ref with Ok s => Ok (fst s) | Err e => Err e end);
     cl_Credentials := λ token ref w, (w, match fake_lookup f token ref with
       | Ok (m, p) => Ok {| wc_Username := sm_Username m; wc_Password := p; wc_HostURL := sm_HostURL m |}
       | Err e => Err e
       end) |}.
End fake.
