(* ===== verification/Ipmi.v ===== *)
(** * internal/ipmi: power control and the system event log

    The classification of connection failures, the power verbs and the client,
    over the calls of the IPMI library, which are parameters: connecting, one
    command, one log record.  Reading the log follows the next-record links
    until the last record; the loop takes fuel, and one round per 16-bit record
    id is enough unless the BMC's links run in a circle ([SEL_reads_log],
    [SEL_circle]). *)

From S2P Require Import Prelude Models Store.

Definition ActionOn : string := "on".
Definition ActionOff : string := "off".
Definition ActionCycle : string := "cycle".
Definition ActionReset : string := "reset".
Definition ActionSoft : string := "soft".
Definition ActionDiag : string := "diag".

Definition authMarkers : list string :=
  ["rakp"; "authcode"; "auth code"; "integrity check"; "unauthorized"; "invalid password"; "invalid user"; "invalid role"; "privilege"; "password"].
Definition unreachableMarkers : list string :=
  ["i/o timeout"; "timeout"; "connection refused"; "no route to host"; "network is unreachable"; "host is down"; "deadline exceeded"].

(** What [Classify] looks at of an error of the library. *)
Record ipmi_failure : Type := {
  if_unreachable : bool;   (* wraps ErrUnreachable *)
  if_authFailed : bool;    (* wraps ErrAuthFailed *)
  if_deadline : bool;      (* wraps context.DeadlineExceeded *)
  if_timeout : bool;       (* a net.Error that timed out *)
  if_refused : bool;       (* wraps ECONNREFUSED *)
  if_text : string }.

Record IPMICredentials : Type := { ic_Username : string; ic_Password : string; ic_Protocol : string; ic_Port : Z }.

Inductive ChassisControl : Type := PowerUp | PowerDown | PowerCycle | HardReset | SoftShutdown | DiagnosticInterrupt.

Definition controlFor (action : string) : option ChassisControl :=
  if action =s ActionOn then Some PowerUp
  else if action =s ActionOff then Some PowerDown
  else if action =s ActionCycle then Some PowerCycle
  else if action =s ActionReset then Some HardReset
  else if action =s ActionSoft then Some SoftShutdown
  else if action =s ActionDiag then Some DiagnosticInterrupt
  else None.
Definition ValidAction (action : string) : bool := is_some (controlFor action).

Section client.
Context `{Env}.

Definition ipmi_Classify (f : ipmi_failure) : error :=
  if if_unreachable f then Ipmi_ErrUnreachable
  else if if_authFailed f then Ipmi_ErrAuthFailed
  else if if_deadline f || if_timeout f || if_refused f then Wrapped (if_text f) Ipmi_ErrUnreachable
  else
    let msg := ToLower (if_text f) in
    if existsb (str_contains msg) authMarkers then Wrapped (if_text f) Ipmi_ErrAuthFailed
    else if existsb (str_contains msg) unreachableMarkers then Wrapped (if_text f) Ipmi_ErrUnreachable
    else Ipmi_error (if_text f).

(** The library: a session opened by host, port, user, password and protocol. *)
Context {session : Type}.
Context (lib_connect : string → Z → string → string → string → Ext (result ipmi_failure session)).
Context (lib_control : session → ChassisControl → Ext (result string ())).

Definition ipmi_connect (host : string) (creds : IPMICredentials) : M session :=
  if is_empty host then throw (Ipmi_error "host is required")
  else
    let port := if ic_Port creds =? 0 then 623 else ic_Port creds in
    r ← ext (lib_connect host port (ic_Username creds) (ic_Password creds) (ic_Protocol creds));
    match r with
    | Ok ic => mret ic
    | Err f => throw (ipmi_Classify {| f with if_text := "ipmi: connect " +:+ host +:+ ": " +:+ if_text f |})
    end.

Definition Power (host : string) (creds : IPMICredentials) (action : string) : M () :=
  match controlFor action with
  | None => throw (Wrapped action Ipmi_ErrUnknownAction)
  | Some control =>
      ic ← ipmi_connect host creds;
      r ← ext (lib_control ic control);
      match r with Ok _ => mret () | Err text => throw (Ipmi_error ("ipmi: chassis control " +:+ action +:+ ": " +:+ text)) end
  end.
End client.

(** ** The system event log *)

(** What reading one record gives: a record with the id of the next one, the
    completion code "not present", or another error. *)
Inductive sel_answer (A : Type) : Type := SelEntry (e : A) (next : Z) | SelNotPresent | SelError (text : string).
Arguments SelEntry {A} e next.
Arguments SelNotPresent {A}.
Arguments SelError {A} text.

Section log.
Context {A : Type} (read : Z → sel_answer A).

(** The entries, [Err] of a failed read, or [None] when the fuel is out. *)
Fixpoint sel_loop (fuel : nat) (recordID : Z) (out : list A) : option (result error (list A)) :=
  match fuel with
  | O => None
  | S f =>
      match read recordID with
      | SelNotPresent => Some (Ok out)
      | SelError text => Some (Err (Ipmi_error text))
      | SelEntry e next => if next =? 65535 then Some (Ok (out ++ [e])) else sel_loop f next (out ++ [e])
      end
  end.

(** [info.Entries] is what the log says it holds. *)
Definition SEL (fuel : nat) (entries : Z) : option (result error (list A)) :=
  if entries =? 0 then Some (Ok []) else sel_loop fuel 0 [].

(** The log as the BMC links it: from one record id to the last record. *)
Inductive linked : Z → list (Z * A) → Prop :=
| linked_last r e : read r = SelEntry e 65535 → linked r [(r, e)]
| linked_gone r : read r = SelNotPresent → linked r []
| linked_next r e next l : read r = SelEntry e next → next ≠ 65535 → linked next l → linked r ((r, e) :: l).

Lemma sel_loop_linked r l out fuel : linked r l → (length l < fuel)%nat → sel_loop fuel r out = Some (Ok (out ++ l.*2)).
Proof.
  intros Hl. revert out fuel. induction Hl as [r e Hr|r Hr|r e next l Hr Hn _ IH]; intros out [|fuel] Hf; cbn in *; try lia; rewrite Hr.
  - done.
  - by rewrite app_nil_r.
  - destruct (Z.eqb_spec next 65535); [done|]. rewrite IH by lia. by rewrite <- app_assoc.
Qed.

(** Ids are 16-bit numbers: a log without repetition has at most 65536. *)
Lemma ids_bound (l : list Z) : NoDup l → (∀ r, r ∈ l → 0 ≤ r < 65536) → (length l ≤ Z.to_nat 65536)%nat.
Proof.
  intros Hn Hb. rewrite <- (length_seqZ 0 65536). apply submseteq_length, NoDup_submseteq; [done|]. intros r Hr. apply elem_of_seqZ. specialize (Hb r Hr). lia.
Qed.

Lemma SEL_reads_linked entries l : entries ≠ 0 → linked 0 l → NoDup l.*1 → (∀ r, r ∈ l.*1 → 0 ≤ r < 65536) →
  SEL (S (Z.to_nat 65536)) entries = Some (Ok l.*2).
Proof.
  intros He Hl Hn Hb. unfold SEL. destruct (Z.eqb_spec entries 0); [done|]. rewrite (sel_loop_linked 0 l) by
    (done || (pose proof (ids_bound _ Hn Hb) as Hlen; rewrite length_fmap in Hlen; lia)). done.
Qed.

(** A log whose next-record links stay inside a set of readable records. *)
Definition circular (R : Z → Prop) : Prop := ∀ r, R r → ∃ e next, read r = SelEntry e next ∧ next ≠ 65535 ∧ R next.

Lemma sel_loop_circle R r out fuel : circular R → R r → sel_loop fuel r out = None.
Proof.
  intros Hc. revert r out. induction fuel as [|fuel IH]; intros r out Hr; cbn; [done|].
  destruct (Hc r Hr) as (e & next & -> & Hn & Hr'). destruct (Z.eqb_spec next 65535); [done|]. by apply IH.
Qed.
End log.

(** C38: reading a BMC's event log.  An empty log is answered at once.  When the
    BMC's next-record links lead from record 0 to a last record without
    repeating one of the 65536 record ids, the read ends within 65537 rounds
    with exactly the records on the way, in order.  When the links run in a
    circle the read never ends, whatever the number of rounds: nothing in the
    loop bounds the records read. *)
Theorem SEL_reads_log {A} (read : Z → sel_answer A) entries :
  (entries = 0 → ∀ fuel, SEL read fuel entries = Some (Ok [])) ∧
  (entries ≠ 0 →
    (∀ l, linked read 0 l → NoDup l.*1 → (∀ r, r ∈ l.*1 → 0 ≤ r < 65536) → SEL read (S (Z.to_nat 65536)) entries = Some (Ok l.*2)) ∧
    (∀ R, circular read R → R 0 → ∀ fuel, SEL read fuel entries = None)).
Proof.
  split; [by intros -> fuel|]. intros He. split; [intros l; by apply SEL_reads_linked|].
  intros R Hc H0 fuel. unfold SEL. destruct (Z.eqb_spec entries 0); [done|]. by apply (sel_loop_circle read R).
Qed.

(** A log of two records, and one whose second record links back to the first. *)
Definition two_records (r : Z) : sel_answer string := if r =? 0 then SelEntry "boot" 7 else SelEntry "fan" 65535.
Definition looping_records (r : Z) : sel_answer string := if r =? 0 then SelEntry "boot" 7 else SelEntry "fan" 0.

Lemma SEL_reads_log_witness :
  SEL two_records (S (Z.to_nat 65536)) 2 = Some (Ok ["boot"; "fan"]%string) ∧ SEL looping_records 1000 2 = None.
Proof.
  destruct (SEL_reads_log two_records 2) as [_ [Hr _]]; [done|]. destruct (SEL_reads_log looping_records 2) as [_ [_ Hl]]; [done|].
  split.
  - apply (Hr [(0, "boot"%string); (7, "fan"%string)]).
    + apply (linked_next two_records 0 "boot"%string 7); [done|done|by apply linked_last].
    + apply (bool_decide_unpack _). vm_compute. reflexivity.
    + cbn. intros r Hr'. apply elem_of_cons in Hr' as [->| ->%list_elem_of_singleton]; lia.
  - apply (Hl (λ r, r = 0 ∨ r = 7)); [|by left]. intros r [->| ->]; [exists "boot"%string, 7|exists "fan"%string, 0]; cbn; auto.
Defined.

(** ** The in-memory BMC *)

Record PowerState : Type := {
  ps_On : bool; ps_PowerRestorePolicy : string; ps_PowerFault : bool; ps_PowerOverload : bool; ps_Intrusion : bool;
  ps_CoolingFault : bool; ps_DriveFault : bool; ps_IdentifyActive : bool }.
Record SensorReading : Type := {
  sr_Number : Z; sr_Name : string; sr_Type : string; sr_Reading : string; sr_Value : SpecFloat.spec_float; sr_Unit : string;
  sr_Status : string; sr_Valid : bool }.
Record SELEntry : Type := {
  sl_RecordID : Z; sl_RecordType : string; sl_Timestamp : string; sl_SensorType : string; sl_SensorName : string;
  sl_Description : string; sl_Severity : string }.
Record DeviceInfo : Type := {
  inf_Manufacturer : string; inf_Product : string; inf_SerialNumber : string; inf_FirmwareVersion : string; inf_IPMIVersion : string; inf_DeviceID : Z }.

Record IpmiFake : Type := {
  ip_State : PowerState; ip_InfoData : DeviceInfo; ip_Readings : list SensorReading; ip_SELData : list SELEntry; ip_Err : option error;
  ip_Actions : list string; ip_LastHost : string; ip_LastCreds : IPMICredentials; ip_Calls : Z }.

(** What every call records. *)
Definition fake_called (host : string) (creds : IPMICredentials) (f : IpmiFake) : IpmiFake :=
  {| f with ip_LastHost := host; ip_LastCreds := creds; ip_Calls := ip_Calls f + 1 |}.
Definition fake_answer {A} (get : IpmiFake → A) (host : string) (creds : IPMICredentials) (f : IpmiFake) : IpmiFake * result error A :=
  let f := fake_called host creds f in (f, match ip_Err f with Some e => Err e | None => Ok (get f) end).

Definition fake_Info : string → IPMICredentials → IpmiFake → IpmiFake * result error DeviceInfo := fake_answer ip_InfoData.
Definition fake_PowerStatus : string → IPMICredentials → IpmiFake → IpmiFake * result error PowerState := fake_answer ip_State.
Definition fake_Sensors : string → IPMICredentials → IpmiFake → IpmiFake * result error (list SensorReading) := fake_answer ip_Readings.
Definition fake_SEL : string → IPMICredentials → IpmiFake → IpmiFake * result error (list SELEntry) := fake_answer ip_SELData.

Definition fake_Power (host : string) (creds : IPMICredentials) (action : string) (f : IpmiFake) : IpmiFake * result error () :=
  let f := fake_called host creds f in
  match ip_Err f with
  | Some e => (f, Err e)
  | None =>
      if negb (ValidAction action) then (f, Err (Wrapped action Ipmi_ErrUnknownAction))
      else
        let st := ip_State f in
        let on := if action =s ActionOn then true else if (action =s ActionOff) || (action =s ActionSoft) then false else ps_On st in
        ({| f with ip_Actions := ip_Actions f ++ [action]; ip_State := {| st with ps_On := on |} |}, Ok ())
  end.
