(* ===== verification/Bmc.v ===== *)
(** * internal/bmc: may the service contact a device's BMC

    The device's warden reference, its BMC address, the viewer's status and the
    decision before every contact with a BMC.  Warden is a [WardenClient]; the
    user's token is an argument.  A call that returns a value together with an
    error is modelled as a pair. *)

From S2P Require Import Prelude GoNet GoIP GoText Models Store MemNet MemDev MemScan Hostreport Events Authz AuditLog HostPlan Warden Ipmi Kvm.

Definition AccessOK : string := "ok".
Definition AccessForbidden : string := "forbidden".
Definition AccessNotFound : string := "not_found".
Definition AccessUnavailable : string := "unavailable".
Definition SourceManagementIP : string := "management_ip".
Definition SourceReported : string := "reported".

(** ** reason.go *)

Definition ReasonNotConfigured : string := "bmc_not_configured".
Definition ReasonNoAddress : string := "bmc_no_address".
Definition ReasonForbidden : string := "bmc_secret_forbidden".
Definition ReasonSecretNotFound : string := "bmc_secret_not_found".
Definition ReasonWardenUnavailable : string := "warden_unavailable".
Definition ReasonBMCUnreachable : string := "bmc_unreachable".
Definition ReasonBMCAuthFailed : string := "bmc_auth_failed".
Definition ReasonBMCError : string := "bmc_error".
Definition ReasonBMC2FARequired : string := "bmc_2fa_required".
Definition ReasonBMCSessionLimit : string := "bmc_session_limit".

Definition Reason (err : error) : string :=
  match err_root err with
  | Bmc_ErrNotConfigured => ReasonNotConfigured
  | Bmc_ErrNoAddress => ReasonNoAddress
  | Warden_ErrForbidden => ReasonForbidden
  | Warden_ErrNotFound | Warden_ErrEmptyRef => ReasonSecretNotFound
  | Warden_ErrUnavailable => ReasonWardenUnavailable
  | Ipmi_ErrUnreachable | Kvm_ErrUnreachable => ReasonBMCUnreachable
  | Ipmi_ErrAuthFailed | Kvm_ErrAuthFailed => ReasonBMCAuthFailed
  | Kvm_ErrTwoFactor => ReasonBMC2FARequired
  | Kvm_ErrSessionLimit => ReasonBMCSessionLimit
  | Kvm_ErrLogin => ReasonBMCError
  | _ => ""
  end.

Definition BMCReason (err : error) : string :=
  match err_root err with
  | Ipmi_ErrUnknownAction => ""
  | Ipmi_ErrUnreachable | Ipmi_ErrAuthFailed | Kvm_ErrUnreachable | Kvm_ErrAuthFailed | Kvm_ErrTwoFactor | Kvm_ErrSessionLimit => Reason err
  | _ => ReasonBMCError
  end.

Definition one_reason (l : list string) (r : string) : bool := existsb (λ x, x =s r) l.

Definition HTTPStatus (reason : string) : Z :=
  if one_reason [ReasonNotConfigured; ReasonNoAddress; ReasonSecretNotFound; ReasonBMC2FARequired] reason then 409
  else if reason =s ReasonForbidden then 403
  else if reason =s ReasonWardenUnavailable then 503
  else if reason =s ReasonBMCUnreachable then 504
  else if one_reason [ReasonBMCAuthFailed; ReasonBMCError; ReasonBMCSessionLimit] reason then 502
  else 500.

Definition BMCSide (reason : string) : bool :=
  one_reason [ReasonBMCUnreachable; ReasonBMCAuthFailed; ReasonBMCError; ReasonBMC2FARequired; ReasonBMCSessionLimit] reason.

Definition BMCOutcome (reason : string) : string :=
  if is_empty reason then OutcomeOK
  else if one_reason [ReasonNotConfigured; ReasonNoAddress; ReasonForbidden; ReasonSecretNotFound; ReasonBMC2FARequired] reason then OutcomeRefused
  else OutcomeError.

(** ** address.go *)

Definition bmcPort (name : string) : Z :=
  if negb (IsBMCInterfaceName name) then -1
  else if name =s "bmc" then 0
  else default 0 (scan_digits (String.substring 4 (String.length name - 4) name) 0 false) - 1.

(** Ports in order, IPv4 before IPv6; [None] for an address that is no
    reported BMC address of the device. *)
Definition addr_rank (deviceID : string) (a : IPAddress) : option Z :=
  let port := bmcPort (ad_InterfaceName a) in
  if negb (ad_DeviceID a =s deviceID) || (port <? 0) || (ad_ReportState a =s RepNotReported) then None
  else Some (port * 2 + match To4 (ParseIP (ad_Address a)) with IPnil => 1 | _ => 0 end).

Definition better (deviceID : string) (best : string * Z) (a : IPAddress) : string * Z :=
  match addr_rank deviceID a with
  | None => best
  | Some rank => if (snd best <? 0) || (rank <? snd best) then (ad_Address a, rank) else best
  end.

Definition BMCAddress (dev : Device) (addrs : list IPAddress) : string * string :=
  if negb (is_empty (dv_ManagementIP dev)) then (dv_ManagementIP dev, SourceManagementIP)
  else
    let '(best, _) := foldl (better (dv_ID dev)) (""%string, -1) addrs in
    if is_empty best then ("", "") else (best, SourceReported).

(** [url_parse]: net/url's scheme and port of a URL, [None] when it does not
    parse. *)
Definition IPMICreds (url_parse : string → option (string * string)) (c : Credentials) : IPMICredentials :=
  let out := {| ic_Username := wc_Username c; ic_Password := wc_Password c; ic_Protocol := ""; ic_Port := 0 |} in
  match url_parse (wc_HostURL c) with
  | None => out
  | Some (scheme, port) =>
      let with_port (o : IPMICredentials) :=
        match scan_digits port 0 false with Some p => if (0 <? p) && (p <=? 65535) then {| o with ic_Port := p |} else o | None => o end in
      if scheme =s "lanplus" then with_port {| out with ic_Protocol := "2.0" |}
      else if scheme =s "lan" then with_port {| out with ic_Protocol := "1.5" |}
      else if scheme =s "ipmi" then with_port out
      else out
  end.

(** ** bmc.go *)

Record SecretInfo : Type := { si_Name : string; si_Username : string; si_FolderPath : string }.
Record BMCStatus : Type := {
  st_Configured : bool; st_Reference : string; st_Access : string; st_Secret : option SecretInfo;
  st_Address : string; st_AddressSource : string; st_Ready : bool; st_Reason : string }.

Record Target : Type := { tg_Device : Device; tg_Address : string; tg_Creds : Credentials }.
Definition no_target : Target := {| tg_Device := zero_Device; tg_Address := ""; tg_Creds := zero_Credentials |}.
Definition Target_KVM (t : Target) : BMCCreds := {| bc_Username := wc_Username (tg_Creds t); bc_Password := wc_Password (tg_Creds t) |}.

Definition ValidReference (ref : string) : bool := ValidRef ref.

Definition access (r : result error SecretMeta) : string :=
  match r with
  | Ok _ => AccessOK
  | Err e => match err_root e with
             | Warden_ErrForbidden => AccessForbidden
             | Warden_ErrNotFound | Warden_ErrEmptyRef => AccessNotFound
             | _ => AccessUnavailable
             end
  end.

(** [meta]: the metadata read, or the zero metadata when none was made. *)
Definition bmc_status (ref addr src : string) (meta : result error SecretMeta) : BMCStatus :=
  let configured := negb (is_empty ref) in
  let secret := match meta with
                | Ok m => Some {| si_Name := sm_Name m; si_Username := sm_Username m; si_FolderPath := sm_FolderPath m |}
                | Err _ => None
                end in
  let reason := if negb configured then ReasonNotConfigured
                else if is_empty addr then ReasonNoAddress
                else match meta with Err e => Reason e | Ok _ => "" end in
  {| st_Configured := configured; st_Reference := ref; st_Access := if configured then access meta else "";
     st_Secret := if configured then secret else None; st_Address := addr; st_AddressSource := src;
     st_Ready := configured && negb (is_empty addr) && match meta with Ok _ => true | Err _ => false end; st_Reason := reason |}.

Section service.
Context `{Env} (w : WardenClient) (token : string).

Definition CanonicalReference (ref : string) : string := ToLower ref.

Definition bmc_load (subj : Subjects) (deviceID : string) : M (Device * string * string) :=
  lift (RequireTenant subj (su_TenantID subj));;
  dev ← GetDevice (su_TenantID subj) deviceID;
  addrs ← AddressesForDevice (su_TenantID subj) deviceID;
  let '(addr, src) := BMCAddress dev addrs in
  mret (dev, addr, src).

Definition actorKind (subj : Subjects) : string :=
  if (su_ActorKind subj =s AuditLog.ActorService) || (su_ActorKind subj =s AuditLog.ActorSystem) then su_ActorKind subj else AuditLog.ActorUser.

Definition bmc_row (subj : Subjects) (et : EventType) (deviceID : string) (details : list (string * any)) : M AuditRow :=
  t ← now;
  r ← Row {| e_TenantID := su_TenantID subj; e_EventType := et; e_ActorKind := actorKind subj; e_ActorID := ActorID subj;
             e_SubjectKind := SubjectDevice; e_SubjectID := deviceID; e_Target := ""; e_Outcome := OutcomeOK; e_Reason := "";
             e_Details := details |} t;
  mret match r with Ok row => row | Err _ => zero_AuditRow end.

Definition StatusOf (subj : Subjects) (deviceID : string) : M BMCStatus :=
  l ← bmc_load subj deviceID;
  let '(dev, addr, src) := l in
  meta ← (if is_empty (dv_IPMISecretRef dev) then mret (Ok zero_SecretMeta) else ext (cl_Meta w token (dv_IPMISecretRef dev)));
  mret (bmc_status (dv_IPMISecretRef dev) addr src meta).

Definition SetRef (subj : Subjects) (deviceID ref : string) : M BMCStatus :=
  if negb (ValidReference ref) then throw Bmc_ErrInvalidReference
  else
    let ref := CanonicalReference ref in
    l ← bmc_load subj deviceID;
    let '(dev, addr, src) := l in
    r ← ext (cl_Meta w token ref);
    meta ← lift r;
    (if EqualFold (dv_IPMISecretRef dev) ref then mret ()
     else
       let details := [("reference", AnyString ref); ("reference_name", AnyString (sm_Name meta))] in
       let '(et, details) := if is_empty (dv_IPMISecretRef dev) then (BMCReferenceSet, details)
                             else (BMCReferenceChanged, details ++ [("previous_reference", AnyString (dv_IPMISecretRef dev))]) in
       row ← bmc_row subj et deviceID details;
       SetDeviceBMCRef (su_TenantID subj) deviceID ref row;; mret ());;
    mret (bmc_status ref addr src (Ok meta)).

Definition ClearRef (subj : Subjects) (deviceID : string) : M () :=
  lift (RequireTenant subj (su_TenantID subj));;
  dev ← GetDevice (su_TenantID subj) deviceID;
  if is_empty (dv_IPMISecretRef dev) then mret ()
  else
    row ← bmc_row subj BMCReferenceCleared deviceID [("previous_reference", AnyString (dv_IPMISecretRef dev))];
    SetDeviceBMCRef (su_TenantID subj) deviceID "" row;; mret ().

(** The target is returned with the error: callers name its address. *)
Definition ResolveBMC (subj : Subjects) (deviceID : string) : M (Target * option error) :=
  match RequirePlatformAdmin subj with
  | Err e => mret (no_target, Some e)
  | Ok _ =>
      r ← try (bmc_load subj deviceID);
      match r with
      | Err e => mret (no_target, Some e)
      | Ok (dev, addr, _) =>
          let t := {| no_target with tg_Device := dev; tg_Address := addr |} in
          if is_empty (dv_IPMISecretRef dev) then mret (t, Some Bmc_ErrNotConfigured)
          else if is_empty addr then mret ({| no_target with tg_Device := dev |}, Some Bmc_ErrNoAddress)
          else
            c ← ext (cl_Credentials w token (dv_IPMISecretRef dev));
            match c with
            | Err e => mret (t, Some e)
            | Ok creds => mret ({| t with tg_Creds := creds |}, None)
            end
      end
  end.

Definition AuditAction (subj : Subjects) (et : EventType) (deviceID target action reason : string) : M () :=
  let kind := if et =s KVMSessionStarted then SubjectKVM else SubjectPower in
  t ← now;
  r ← Row {| e_TenantID := su_TenantID subj; e_EventType := et; e_ActorKind := actorKind subj; e_ActorID := ActorID subj;
             e_SubjectKind := kind; e_SubjectID := deviceID; e_Target := target; e_Outcome := BMCOutcome reason; e_Reason := reason;
             e_Details := if is_empty action then [] else [("action", AnyString action)] |} t;
  match r with
  | Err _ => mret ()
  | Ok row => try (AppendAudit row);; mret ()
  end.
End service.
