(* ===== verification/Power.v ===== *)
(** * internal/httpapi: the out-of-band routes (power.go, bmc.go, errors.go, deps.go)

    Power control, sensor and log reads, and console sessions of a device's
    BMC, behind the platform-administrator gate, [ResolveBMC] and the audit
    log.  A handler returns the reply it writes.  The BMC, warden and the
    console manager are interfaces; the caller's verified identity, the bearer
    token and the decoded body are arguments. *)

From S2P Require Import Prelude GoText Models Store MemNet MemDev MemScan Events Authz AuditLog HostPlan Warden Ipmi Kvm Bmc.

(** ** Replies *)

Inductive body : Type :=
| BodyPower (s : PowerState)
| BodyAccepted (action : string)
| BodySensors (l : list SensorReading)
| BodySEL (l : list SELEntry)
| BodySession (token url : string)
| BodyStatus (s : BMCStatus).

Inductive reply : Type :=
| WriteJSON (status : Z) (b : body)
| WriteError (status : Z) (reason : string)
| WriteDetail (status : Z) (reason : string) (detail : list (string * any))
| WriteHeader (status : Z).

(** [Fail] for the errors of decoding a body. *)
Definition Fail (e : error) : reply :=
  match err_root e with
  | Http_ErrMalformed => WriteError 400 "malformed_body"
  | Http_ErrBodyTooLarge => WriteError 413 "body_too_large"
  | Http_ErrUnauthenticated => WriteError 401 "unauthenticated"
  | ErrNotFound => WriteError 404 "not_found"
  | ErrConflict => WriteError 409 "conflict"
  | _ => WriteError 503 "temporarily_unavailable"
  end.

Definition failSvc (e : error) : reply :=
  match err_root e with
  | Devices_FieldError field msg =>
      WriteDetail 422 "validation_failed" [("field", AnyString field); ("message", AnyString msg); ("fields", AnyMap [(field, AnyString msg)])]
  | ValidationError _ _ _ | Backup_ErrBadSchema _ => WriteError 422 "validation_failed"
  | Subnets_ErrNotFound | Addresses_ErrNotFound | Devices_ErrNotFound | ErrNotFound => WriteError 404 "not_found"
  | ErrForbidden _ => WriteError 403 "forbidden"
  | Subnets_ErrNotEmpty | Devices_ErrNotEmpty | Devices_ErrConflict | Addresses_ErrConflict | Scan_ErrActiveScan | Scan_ErrTerminal
  | ErrConflict | ErrNotEmpty => WriteError 409 "conflict"
  | Addresses_ErrNoAvailable => WriteError 507 "no_available_address"
  | Scan_ErrIPv6 | Scan_ErrTooLarge | Ipmi_ErrUnknownAction => WriteError 400 "bad_request"
  | Http_ErrUnauthenticated => WriteError 401 "unauthenticated"
  | _ => WriteError 500 "internal"
  end.

Definition writeBMCReason (reason address : string) : reply :=
  if BMCSide reason && negb (is_empty address) then WriteDetail (HTTPStatus reason) reason [("address", AnyString address)]
  else WriteError (HTTPStatus reason) reason.

Definition failResolve (e : error) (address : string) : reply :=
  if is_empty (Reason e) then failSvc e else writeBMCReason (Reason e) address.

Definition failBMCCall (e : error) (address : string) : reply :=
  if is_empty (BMCReason e) then failSvc e else writeBMCReason (BMCReason e) address.

Definition failBMCRef (e : error) : reply :=
  match err_root e with
  | Bmc_ErrInvalidReference =>
      WriteDetail 422 "validation_failed" [("field", AnyString "reference"); ("message", AnyString "must be a warden secret id");
        ("fields", AnyMap [("reference", AnyString "must be a warden secret id")])]
  | _ => if Reason e =s ReasonSecretNotFound then WriteError 422 (Reason e)
         else if negb (is_empty (Reason e)) then writeBMCReason (Reason e) ""
         else failSvc e
  end.

(** ** The caller *)

Record Identity : Type := { id_UserID : string; id_TenantID : string; id_Roles : list string }.

Definition Caller (id : option Identity) : result error Identity :=
  match id with
  | Some i => if is_empty (id_UserID i) || is_empty (id_TenantID i) then Err Http_ErrUnauthenticated else Ok i
  | None => Err Http_ErrUnauthenticated
  end.

Definition subject_of (i : Identity) : Subjects :=
  {| su_TenantID := id_TenantID i; su_UserID := id_UserID i; su_Roles := id_Roles i; su_ActorKind := Authz.ActorUser |}.
Definition subjects (id : option Identity) : result error Subjects :=
  match Caller id with Ok i => Ok (subject_of i) | Err e => Err e end.

(** ** The BMC *)

Record BMC : Type := {
  bm_PowerStatus : string → IPMICredentials → Ext (result error PowerState);
  bm_Sensors : string → IPMICredentials → Ext (result error (list SensorReading));
  bm_SEL : string → IPMICredentials → Ext (result error (list SELEntry));
  bm_Power : string → IPMICredentials → string → Ext (result error ()) }.

(** Device, host, credentials: the token and the console URL. *)
Definition StartSession : Type := string → string → BMCCreds → Ext (result error (string * string)).

Section routes.
Context `{Env} (refs : option WardenClient) (bmc_ : option BMC) (kvm : option StartSession) (url_parse : string → option (string * string)).
Context (token : string) (id : option Identity) (deviceID : string).

Definition Target_IPMI (t : Target) : IPMICredentials := IPMICreds url_parse (tg_Creds t).

(** The caller with the two services, or the refusal. *)
Definition platformAdmin : result reply (Subjects * WardenClient * BMC) :=
  match subjects id with
  | Err e => Err (failSvc e)
  | Ok subj =>
      match RequirePlatformAdmin subj with
      | Err e => Err (failSvc e)
      | Ok _ => match refs, bmc_ with
                | Some r, Some b => Ok (subj, r, b)
                | _, _ => Err (WriteError 503 "temporarily_unavailable")
                end
      end
  end.

(** A read route: [read] asks the BMC, [show] is the body of its answer. *)
Definition read_route {A} (read : BMC → string → IPMICredentials → Ext (result error A)) (show : A → body) : M reply :=
  match platformAdmin with
  | Err rep => mret rep
  | Ok (subj, r, b) =>
      tg ← ResolveBMC r token subj deviceID;
      match tg with
      | (t, Some e) => mret (failResolve e (tg_Address t))
      | (t, None) =>
          a ← ext (read b (tg_Address t) (Target_IPMI t));
          match a with
          | Err e => mret (failBMCCall e (tg_Address t))
          | Ok v => mret (WriteJSON 200 (show v))
          end
      end
  end.

Definition GetPower : M reply := read_route bm_PowerStatus BodyPower.
Definition GetSensors : M reply := read_route bm_Sensors BodySensors.
Definition GetSEL : M reply := read_route bm_SEL BodySEL.

(** [action]: the decoded body. *)
Definition PostPower (action : result error string) : M reply :=
  match platformAdmin with
  | Err rep => mret rep
  | Ok (subj, r, b) =>
      match action with
      | Err e => mret (Fail e)
      | Ok action =>
          if negb (ValidAction action) then AuditAction subj PowerAction deviceID "" action "bad_request";; mret (WriteError 400 "bad_request")
          else
            tg ← ResolveBMC r token subj deviceID;
            match tg with
            | (t, Some e) =>
                (if is_empty (Reason e) then mret () else AuditAction subj PowerAction deviceID (tg_Address t) action (Reason e));;
                mret (failResolve e (tg_Address t))
            | (t, None) =>
                res ← ext (bm_Power b (tg_Address t) (Target_IPMI t) action);
                match res with
                | Err e => AuditAction subj PowerAction deviceID (tg_Address t) action (BMCReason e);; mret (failBMCCall e (tg_Address t))
                | Ok _ => AuditAction subj PowerAction deviceID (tg_Address t) action "";; mret (WriteJSON 200 (BodyAccepted action))
                end
            end
      end
  end.

Definition PostKVMSession : M reply :=
  match platformAdmin with
  | Err rep => mret rep
  | Ok (subj, r, _) =>
      match kvm with
      | None => mret (WriteError 501 "not_implemented")
      | Some start =>
          tg ← ResolveBMC r token subj deviceID;
          match tg with
          | (t, Some e) =>
              (if is_empty (Reason e) then mret () else AuditAction subj KVMSessionStarted deviceID (tg_Address t) "" (Reason e));;
              mret (failResolve e (tg_Address t))
          | (t, None) =>
              res ← ext (start (dv_ID (tg_Device t)) (tg_Address t) (Target_KVM t));
              match res with
              | Err e =>
                  if is_empty (Reason e) then
                    AuditAction subj KVMSessionStarted deviceID (tg_Address t) "" "internal";; mret (failSvc e)
                  else
                    AuditAction subj KVMSessionStarted deviceID (tg_Address t) "" (Reason e);; mret (writeBMCReason (Reason e) (tg_Address t))
              | Ok (tok, url) =>
                  AuditAction subj KVMSessionStarted deviceID (tg_Address t) "" "";; mret (WriteJSON 201 (BodySession tok url))
              end
          end
      end
  end.

(** *** The reference routes *)

Definition ref_route {A} (k : WardenClient → Subjects → M A) (show : A → reply) : M reply :=
  match subjects id with
  | Err e => mret (failSvc e)
  | Ok subj =>
      match refs with
      | None => mret (WriteError 503 "temporarily_unavailable")
      | Some r => a ← try (k r subj); mret match a with Ok v => show v | Err e => failBMCRef e end
      end
  end.

Definition GetBMC : M reply := ref_route (λ r subj, StatusOf r token subj deviceID) (λ s, WriteJSON 200 (BodyStatus s)).
Definition PutBMC (reference : result error string) : M reply :=
  match subjects id, refs, reference with
  | Ok _, Some _, Err e => mret (Fail e)
  | _, _, _ => ref_route (λ r subj, SetRef r token subj deviceID match reference with Ok ref => ref | Err _ => "" end) (λ s, WriteJSON 200 (BodyStatus s))
  end.
Definition DeleteBMC : M reply := ref_route (λ _ subj, ClearRef subj deviceID) (λ _, WriteHeader 204).
End routes.
