(* ===== verification/PowerProps.v ===== *)
(** * Contact with a BMC is gated and recorded

    [PostPower_gated] says for every caller, device and behaviour of warden and
    the BMC what a power request does: who is refused before anything happens,
    when warden is asked, with what the BMC is contacted, and what the audit
    log gets.  [BMCAddress_lowest] characterises the address. *)

From S2P Require Import Prelude GoNet GoIP GoText Models Store MemNet MemDev MemScan Events Authz AuditLog HostPlan Warden Ipmi Kvm Bmc Power MemInv.

Lemma is_empty_ne s : s ≠ ""%string → is_empty s = false.
Proof. intros Hs. apply not_true_iff_false. by rewrite is_empty_spec. Qed.

(** ** The address *)

(** The lowest rank wins, the first of equals. *)
Record lowest (deviceID : string) (addrs : list IPAddress) (a : IPAddress) (rank : Z) : Prop := {
  lw_split : ∃ l1 l2, addrs = l1 ++ a :: l2 ∧ Forall (λ b, ∀ r, addr_rank deviceID b = Some r → rank < r) l1 ∧
                      Forall (λ b, ∀ r, addr_rank deviceID b = Some r → rank ≤ r) l2;
  lw_rank : addr_rank deviceID a = Some rank }.

Lemma bmcPort_range name : -1 ≤ bmcPort name.
Proof.
  unfold bmcPort. destruct (IsBMCInterfaceName name) eqn:E; cbn; [|done]. unfold IsBMCInterfaceName in E.
  destruct (name =s "bmc"); cbn in *; [done|]. apply andb_true_iff in E as [_ E].
  destruct (scan_digits _ 0 false) as [n|]; [|done]. cbn in *. bool_hyps. lia.
Qed.

Lemma addr_rank_nonneg d a r : addr_rank d a = Some r → 0 ≤ r.
Proof.
  unfold addr_rank. destruct (negb _ || _ || _) eqn:E; [done|]. bool_hyps. intros [= <-]. destruct (To4 _); lia.
Qed.

Lemma better_fold d addrs best rank :
  (rank = -1 ∧ best = ""%string ∨ 0 ≤ rank) →
  let '(best', rank') := foldl (better d) (best, rank) addrs in
  (rank' = rank ∧ best' = best ∧ Forall (λ b, ∀ r, addr_rank d b = Some r → 0 ≤ rank ≤ r) addrs) ∨
  (∃ a, best' = ad_Address a ∧ lowest d addrs a rank' ∧ (rank < 0 ∨ rank' < rank)).
Proof.
  revert best rank. induction addrs as [|a addrs IH]; intros best rank Hr; cbn; [left; auto|].
  unfold better at 2. destruct (addr_rank d a) as [r|] eqn:Ea.
  - pose proof (addr_rank_nonneg _ _ _ Ea) as Hr0. cbn [snd]. destruct ((rank <? 0) || (r <? rank)) eqn:Eb.
    + specialize (IH (ad_Address a) r (or_intror Hr0)). destruct (foldl (better d) (ad_Address a, r) addrs) as [b' r'].
      apply orb_true_iff in Eb. assert (rank < 0 ∨ r < rank) by (destruct Eb as [?|?]; bool_hyps; auto).
      right. destruct IH as [(-> & -> & Hall)|(a' & -> & Hlow & Hlt)].
      * exists a. split_and!; [done| |done]. split; [|done]. exists [], addrs. split_and!; [done|done|]. eapply Forall_impl; [exact Hall|]. cbn. naive_solver lia.
      * exists a'. split_and!; [done| |lia]. destruct Hlow as [(l1 & l2 & -> & Hl1 & Hl2) Hra]. split; [|done]. exists (a :: l1), l2.
        split_and!; [done| |done]. constructor; [|done]. intros r0 E0. assert (r0 = r) as -> by congruence. lia.
    + specialize (IH best rank Hr). destruct (foldl (better d) (best, rank) addrs) as [b' r']. bool_hyps.
      destruct IH as [(-> & -> & Hall)|(a' & -> & Hlow & Hlt)].
      * left. split_and!; [done|done|]. constructor; [|done]. intros r0 E0. assert (r0 = r) as -> by congruence. lia.
      * right. exists a'. split_and!; [done| |done]. destruct Hlow as [(l1 & l2 & -> & Hl1 & Hl2) Hra]. split; [|done]. exists (a :: l1), l2.
        split_and!; [done| |done]. constructor; [|done]. intros r0 E0. assert (r0 = r) as -> by congruence. lia.
  - specialize (IH best rank Hr). destruct (foldl (better d) (best, rank) addrs) as [b' r'].
    destruct IH as [(-> & -> & Hall)|(a' & -> & Hlow & Hlt)].
    + left. split_and!; [done|done|]. constructor; [by rewrite Ea|done].
    + right. exists a'. split_and!; [done| |done]. destruct Hlow as [(l1 & l2 & -> & Hl1 & Hl2) Hra]. split; [|done]. exists (a :: l1), l2.
      split_and!; [done| |done]. constructor; [by rewrite Ea|done].
Qed.

(** The BMC address is the management address, else the address reported on
    the device's first BMC port, IPv4 before IPv6; the host's own addresses
    are never used. *)
Lemma BMCAddress_lowest dev addrs :
  (dv_ManagementIP dev ≠ ""%string → BMCAddress dev addrs = (dv_ManagementIP dev, SourceManagementIP)) ∧
  (dv_ManagementIP dev = ""%string →
    (BMCAddress dev addrs = ("", "")%string ∧ Forall (λ a, addr_rank (dv_ID dev) a ≠ None → ad_Address a = ""%string ∨ ∃ b, b ∈ addrs ∧ ad_Address b = ""%string) addrs) ∨
    (∃ a rank, BMCAddress dev addrs = (ad_Address a, SourceReported) ∧ lowest (dv_ID dev) addrs a rank)).
Proof.
  unfold BMCAddress. destruct (is_empty (dv_ManagementIP dev)) eqn:Em; cbn [negb].
  - apply is_empty_spec in Em. rewrite Em. split; [done|]. intros _.
    pose proof (better_fold (dv_ID dev) addrs "" (-1) (or_introl (conj eq_refl eq_refl))) as Hf.
    destruct (foldl (better (dv_ID dev)) (""%string, -1) addrs) as [b r].
    destruct Hf as [(-> & -> & Hall)|(a & -> & Hlow & _)].
    + left. split; [done|]. eapply Forall_impl; [exact Hall|]. cbn. intros a Ha Hn. destruct (addr_rank (dv_ID dev) a) as [r|]; [|done].
      specialize (Ha r eq_refl). lia.
    + destruct (is_empty (ad_Address a)) eqn:Ee; [|right; by exists a, r]. apply is_empty_spec in Ee. left. split; [done|].
      apply Forall_forall. intros x Hx _. right. exists a. split; [|done]. destruct Hlow as [(l1 & l2 & -> & _) _]. set_solver.
  - split; [done|]. intros E. by rewrite E in Em.
Qed.

(** ** The decision *)

(** What the store alone decides: the error with the address to name, or the
    warden reference and the BMC address. *)
Definition bmc_gate (m : Mem) (subj : Subjects) (deviceID : string) : result (error * string) (string * string) :=
  match mem_devices m !! deviceID with
  | None => Err (ErrNotFound, ""%string)
  | Some d =>
      if negb (dv_TenantID d =s su_TenantID subj) then Err (ErrNotFound, ""%string)
      else
        let dev := fillDevice m d in
        let addrs := paginate ad_ID "" 0 (decorateAddrLocked m <$>
          map_select (λ a, (ad_TenantID a =s su_TenantID subj) && (ad_DeviceID a =s deviceID)) (mem_addrs m)) in
        let addr := fst (BMCAddress dev addrs) in
        if is_empty (dv_IPMISecretRef dev) then Err (Bmc_ErrNotConfigured, addr)
        else if is_empty addr then Err (Bmc_ErrNoAddress, ""%string)
        else Ok (dv_IPMISecretRef dev, addr)
  end.

Section gated.
Context `{Env} (r : WardenClient) (b : BMC) (kvm : option StartSession) (url_parse : string → option (string * string)).
Context (token : string) (subj : Subjects) (deviceID : string).

Lemma fail_off method w : method ∉ mem_failNext (w_mem w) → fail method w = (w, Ok ()).
Proof. intros Hm. unfold fail, mem, mbind, M_bind. cbn. by case_decide. Qed.

(** The addresses linked to the device, in the order the store lists them. *)
Definition device_addrs (m : Mem) : list IPAddress :=
  paginate ad_ID "" 0 (decorateAddrLocked m <$>
    map_select (λ a, (ad_TenantID a =s su_TenantID subj) && (ad_DeviceID a =s deviceID)) (mem_addrs m)).

Lemma bmc_load_run w : su_TenantID subj ≠ ""%string → "AddressesForDevice"%string ∉ mem_failNext (w_mem w) →
  bmc_load subj deviceID w =
    (w, match mem_devices (w_mem w) !! deviceID with
        | None => Err ErrNotFound
        | Some d => if negb (dv_TenantID d =s su_TenantID subj) then Err ErrNotFound
                    else let dev := fillDevice (w_mem w) d in Ok (dev, fst (BMCAddress dev (device_addrs (w_mem w))), snd (BMCAddress dev (device_addrs (w_mem w))))
        end).
Proof.
  intros Ht Hf. unfold bmc_load. rewrite RequireTenant_self by done.
  assert (Hl : ∀ B (k : () → M B), (lift (Ok ()) ≫= k) w = k () w) by done. rewrite Hl.
  destruct (mem_devices (w_mem w) !! deviceID) as [d|] eqn:Ed; cycle 1.
  { unfold GetDevice, mem, mbind, M_bind. cbn. by rewrite Ed. }
  destruct (dv_TenantID d =s su_TenantID subj) eqn:Et; cbn [negb]; cycle 1.
  { unfold GetDevice, mem, mbind, M_bind. cbn. rewrite Ed. by rewrite Et. }
  assert (Eg : GetDevice (su_TenantID subj) deviceID w = (w, Ok (fillDevice (w_mem w) d))).
  { unfold GetDevice, mem, mbind, M_bind. cbn. rewrite Ed. by rewrite Et. }
  rewrite (bind_Ok _ _ _ _ _ Eg).
  assert (Ea : AddressesForDevice (su_TenantID subj) deviceID w = (w, Ok (device_addrs (w_mem w)))).
  { unfold AddressesForDevice. by rewrite (bind_Ok _ _ _ _ _ (fail_off _ _ Hf)). }
  rewrite (bind_Ok _ _ _ _ _ Ea). cbv zeta. by destruct (BMCAddress _ _).
Qed.

Lemma try_run {A} (m : M A) w : try m w = (fst (m w), Ok (snd (m w))).
Proof. unfold try. by destruct (m w). Qed.

(** The gate, then warden. *)
Lemma ResolveBMC_run w : su_TenantID subj ≠ ""%string → IsPlatformAdmin subj = true → "AddressesForDevice"%string ∉ mem_failNext (w_mem w) →
  match bmc_gate (w_mem w) subj deviceID with
  | Err (e, addr) => ∃ t, ResolveBMC r token subj deviceID w = (w, Ok (t, Some e)) ∧ tg_Address t = addr
  | Ok (ref, addr) =>
      ∃ t, tg_Address t = addr ∧
      ResolveBMC r token subj deviceID w =
        let '(w1, c) := ext (cl_Credentials r token ref) w in
        (w1, match c with Ok (Err e) => Ok (t, Some e) | Ok (Ok creds) => Ok ({| t with tg_Creds := creds |}, None) | Err e => Err e end)
  end.
Proof.
  intros Ht Ha Hf. unfold ResolveBMC, RequirePlatformAdmin. rewrite Ha.
  pose proof (try_run (bmc_load subj deviceID) w) as E. rewrite bmc_load_run in E by done. cbn [fst snd] in E.
  rewrite (bind_Ok _ _ _ _ _ E). unfold bmc_gate. fold (device_addrs (w_mem w)).
  destruct (mem_devices (w_mem w) !! deviceID) as [d|] eqn:Ed; cycle 1.
  { by exists no_target. }
  destruct (dv_TenantID d =s su_TenantID subj) eqn:Et; cbn [negb]; [|by exists no_target]. cbv zeta.
  destruct (is_empty (dv_IPMISecretRef (fillDevice (w_mem w) d))); [eexists; split; reflexivity|].
  destruct (is_empty (fst _)); [eexists; split; reflexivity|].
  eexists. split; cycle 1.
  - unfold mbind, M_bind. destruct (ext _ w) as [w1 [[creds|e]|e]]; reflexivity.
  - done.
Qed.

(** The store with one more audit row. *)
Definition logged (m : Mem) (row : AuditRow) : Mem := {| m with mem_audit := mem_audit m ++ [row] |}.

(** One row with who, what, where and the outcome. *)
Definition audit_row (et : EventType) (target action reason : string) (row : AuditRow) : Prop :=
  ar_TenantID row = su_TenantID subj ∧ ar_Action row = et ∧ ar_ActorID row = ActorID subj ∧ ar_SubjectID row = deviceID ∧
  ar_Target row = target ∧ ar_Outcome row = BMCOutcome reason ∧ ar_Reason row = reason ∧
  (action ≠ ""%string → (String.length action ≤ 256)%nat → ar_Detail row !! "action"%string = Some (AnyString action)).

Lemma AppendAudit_run row w : "AppendAudit"%string ∉ mem_failNext (w_mem w) →
  ∃ w' id t, AppendAudit row w = (w', Ok ()) ∧ w_events w' = w_events w ∧
    w_mem w' = logged (w_mem w) {| row with ar_ID := id; ar_At := t |}.
Proof.
  intros Hf. unfold AppendAudit. rewrite (bind_Ok _ _ _ _ _ (fail_off _ _ Hf)). unfold appendAuditLocked, newID, now, set_mem, mbind, M_bind, mret, M_ret.
  destruct (is_empty (ar_ID row)), (IsZero (ar_At row)); cbn; eexists _, _, _; split_and!; reflexivity.
Qed.

Lemma AuditAction_records et target action reason w : su_TenantID subj ≠ ""%string → et = PowerAction ∨ et = KVMSessionStarted →
  "AppendAudit"%string ∉ mem_failNext (w_mem w) →
  ∃ w' row, AuditAction subj et deviceID target action reason w = (w', Ok ()) ∧
    w_mem w' = logged (w_mem w) row ∧ w_events w' = w_events w ∧ audit_row et target action reason row.
Proof.
  intros Ht Het Hf. unfold AuditAction. cbv zeta. unfold now at 1, mbind at 1, M_bind at 1.
  set (e := {| e_TenantID := su_TenantID subj; e_EventType := et; e_ActorKind := _; e_ActorID := _; e_SubjectKind := _; e_SubjectID := _;
               e_Target := _; e_Outcome := _; e_Reason := _; e_Details := _ |}).
  assert (Hv : Validate e = Ok ()).
  { subst e. unfold Validate. cbn -[Known one_of BMCOutcome actorKind]. destruct (is_empty (su_TenantID subj)) eqn:Ee; [by apply is_empty_spec in Ee|].
    assert (Hk : Known et = true) by (by destruct Het as [-> | ->]). rewrite Hk. cbn [negb].
    assert (Ho : one_of [OutcomeOK; OutcomeRefused; OutcomeError] (BMCOutcome reason) = true).
    { unfold BMCOutcome. destruct (is_empty reason); [done|]. by destruct (one_reason _ _). }
    rewrite Ho. assert (Ha : one_of [AuditLog.ActorUser; AuditLog.ActorService; AuditLog.ActorSystem] (actorKind subj) = true).
    { unfold actorKind. destruct (su_ActorKind subj =s AuditLog.ActorService) eqn:E1; cbn [orb];
        [apply String.eqb_eq in E1; by rewrite E1|]. destruct (su_ActorKind subj =s AuditLog.ActorSystem) eqn:E2; [apply String.eqb_eq in E2; by rewrite E2|done]. }
    rewrite Ha. destruct Het as [-> | ->]; done. }
  unfold Row. rewrite Hv. unfold newID, mret, M_ret. unfold mbind at 1, M_bind at 1. unfold mbind at 1, M_bind at 1. cbn [w_mem w_ids w_ticks w_events].
  match goal with |- context [try (AppendAudit ?rw) ≫= _] => destruct (AppendAudit_run rw {| w with w_ids := S (w_ids w); w_ticks := S (w_ticks w) |} Hf) as (w' & id & t & Ea & Ee & Em) end.
  eexists w', _. split; [unfold try, mbind, M_bind; cbn [w_mem w_ids w_ticks w_events] in Ea |- *; rewrite Ea; reflexivity|].
  split; [exact Em|]. split; [exact Ee|]. subst e. unfold audit_row, row_of. cbn -[BMCOutcome guardMap list_to_map]. split_and!; try done.
  intros Hne Hlen. destruct (is_empty action) eqn:Ei; [by apply is_empty_spec in Ei|].
  unfold guardMap. assert (Hk : forbiddenKey "action" = false) by reflexivity. cbn -[forbiddenKey guardValue list_to_map lookup]. rewrite Hk. cbn -[guardValue].
  rewrite lookup_insert_eq. change (guardValue (AnyString action)) with (AnyString (if (256 <? String.length action)%nat then String.substring 0 256 action else action)).
  destruct (256 <? String.length action)%nat eqn:El; [apply Nat.ltb_lt in El; lia|done].
Qed.

(** One audit row was added and nothing else. *)
Definition audited (et : EventType) (target action reason : string) (w w' : World) : Prop :=
  ∃ row, w_mem w' = logged (w_mem w) row ∧ w_events w' = w_events w ∧ audit_row et target action reason row.

(** No store call has been armed to fail. *)
Definition quiet (w : World) : Prop := mem_failNext (w_mem w) = ∅.

Lemma AuditAction_then {A} et target action reason (a : A) w : su_TenantID subj ≠ ""%string → et = PowerAction ∨ et = KVMSessionStarted → quiet w →
  ∃ w', (AuditAction subj et deviceID target action reason;; mret a) w = (w', Ok a) ∧ audited et target action reason w w'.
Proof.
  intros Ht Het Hq. destruct (AuditAction_records et target action reason w Ht Het) as (w' & row & E & Hm & He & Hr); [by rewrite Hq|].
  exists w'. split; [by rewrite (bind_Ok _ _ _ _ _ E)|]. by exists row.
Qed.

(** What a power request with a decoded body may do, for a caller that passes
    the platform-administrator gate. *)
Inductive power_outcome (action : string) (w : World) : World → reply → Prop :=
| PO_bad_verb w' :
    ValidAction action = false → audited PowerAction "" action "bad_request" w w' → power_outcome action w w' (WriteError 400 "bad_request")
| PO_hidden e addr :
    ValidAction action = true → bmc_gate (w_mem w) subj deviceID = Err (e, addr) → Reason e = ""%string →
    power_outcome action w w (failSvc e)
| PO_blocked e addr w' :
    ValidAction action = true → bmc_gate (w_mem w) subj deviceID = Err (e, addr) → Reason e ≠ ""%string →
    audited PowerAction addr action (Reason e) w w' → power_outcome action w w' (writeBMCReason (Reason e) addr)
| PO_secret_hidden ref addr e w' :
    ValidAction action = true → bmc_gate (w_mem w) subj deviceID = Ok (ref, addr) → cl_Credentials r token ref w = (w', Err e) →
    Reason e = ""%string → power_outcome action w w' (failSvc e)
| PO_secret ref addr e w1 w' :
    ValidAction action = true → bmc_gate (w_mem w) subj deviceID = Ok (ref, addr) → cl_Credentials r token ref w = (w1, Err e) →
    Reason e ≠ ""%string → audited PowerAction addr action (Reason e) w1 w' → power_outcome action w w' (writeBMCReason (Reason e) addr)
| PO_failed ref addr creds e w1 w2 w' :
    ValidAction action = true → bmc_gate (w_mem w) subj deviceID = Ok (ref, addr) → cl_Credentials r token ref w = (w1, Ok creds) →
    bm_Power b addr (IPMICreds url_parse creds) action w1 = (w2, Err e) → audited PowerAction addr action (BMCReason e) w2 w' →
    power_outcome action w w' (failBMCCall e addr)
| PO_sent ref addr creds w1 w2 w' :
    ValidAction action = true → bmc_gate (w_mem w) subj deviceID = Ok (ref, addr) → cl_Credentials r token ref w = (w1, Ok creds) →
    bm_Power b addr (IPMICreds url_parse creds) action w1 = (w2, Ok ()) → audited PowerAction addr action "" w2 w' →
    power_outcome action w w' (WriteJSON 200 (BodyAccepted action)).

(** The request after the gate of its caller. *)
Lemma PostPower_admin i action w :
  subj = subject_of i → id_UserID i ≠ ""%string → id_TenantID i ≠ ""%string → IsPlatformAdmin subj = true → quiet w →
  (∀ ref w, quiet w → quiet (fst (cl_Credentials r token ref w))) →
  (∀ addr creds w, quiet w → quiet (fst (bm_Power b addr creds action w))) →
  ∃ w' rep, PostPower (Some r) (Some b) url_parse token (Some i) deviceID (Ok action) w = (w', Ok rep) ∧ power_outcome action w w' rep.
Proof.
  intros Hs Hu Ht Ha Hq Hqr Hqb. assert (Ht' : su_TenantID subj ≠ ""%string) by (by rewrite Hs).
  assert (Hpa : platformAdmin (Some r) (Some b) (Some i) = Ok (subj, r, b)).
  { unfold platformAdmin, subjects, Caller. rewrite (is_empty_ne _ Hu), (is_empty_ne _ Ht).
    cbn [orb]. unfold RequirePlatformAdmin. by rewrite <- Hs, Ha. }
  unfold PostPower. rewrite Hpa. destruct (ValidAction action) eqn:Ev; cbn [negb]; cycle 1.
  { destruct (AuditAction_then PowerAction "" action "bad_request" (WriteError 400 "bad_request") w) as (w' & E & Hau); [done|by left|done|].
    exists w', (WriteError 400 "bad_request"). split; [exact E|by apply PO_bad_verb]. }
  assert (Hrun := ResolveBMC_run w Ht' Ha). rewrite Hq in Hrun. specialize (Hrun ltac:(set_solver)).
  destruct (bmc_gate (w_mem w) subj deviceID) as [[ref addr]|[e addr]] eqn:Eg.
  - destruct Hrun as (t & Hta & E). unfold ext in E. specialize (Hqr ref w Hq). destruct (cl_Credentials r token ref w) as [w1 [creds|e]] eqn:Ec; cbn [fst] in Hqr.
    + rewrite (bind_Ok _ _ _ _ _ E). unfold Target_IPMI. cbn [tg_Creds tg_Address]. rewrite Hta. specialize (Hqb addr (IPMICreds url_parse creds) w1 Hqr).
      destruct (bm_Power b addr (IPMICreds url_parse creds) action w1) as [w2 res] eqn:Ep. cbn [fst] in Hqb.
      assert (Ex : ext (bm_Power b addr (IPMICreds url_parse creds) action) w1 = (w2, Ok res)) by (unfold ext; by rewrite Ep).
      rewrite (bind_Ok _ _ _ _ _ Ex). destruct res as [[]|e].
      * destruct (AuditAction_then PowerAction addr action "" (WriteJSON 200 (BodyAccepted action)) w2) as (w' & E2 & Hau); [done|by left|done|].
        eexists w', _. split; [exact E2|]. by eapply PO_sent.
      * destruct (AuditAction_then PowerAction addr action (BMCReason e) (failBMCCall e addr) w2) as (w' & E2 & Hau); [done|by left|done|].
        eexists w', _. split; [exact E2|]. by eapply PO_failed.
    + rewrite (bind_Ok _ _ _ _ _ E), Hta. unfold failResolve. destruct (is_empty (Reason e)) eqn:Er.
      * apply is_empty_spec in Er. eexists w1, _. split; [reflexivity|]. by eapply PO_secret_hidden.
      * destruct (AuditAction_then PowerAction addr action (Reason e) (writeBMCReason (Reason e) addr) w1) as (w' & E2 & Hau); [done|by left|done|].
        eexists w', _. split; [exact E2|]. eapply PO_secret; try done. intros En. by rewrite En in Er.
  - destruct Hrun as (t & E & Hta). rewrite (bind_Ok _ _ _ _ _ E), Hta. unfold failResolve. destruct (is_empty (Reason e)) eqn:Er.
    + apply is_empty_spec in Er. eexists w, _. split; [reflexivity|]. by eapply PO_hidden.
    + destruct (AuditAction_then PowerAction addr action (Reason e) (writeBMCReason (Reason e) addr) w) as (w' & E2 & Hau); [done|by left|done|].
      eexists w', _. split; [exact E2|]. eapply PO_blocked; try done. intros En. by rewrite En in Er.
Qed.
End gated.

(** C9: a power request is gated and recorded.  A caller without an identity
    gets 401 and a caller that is no platform administrator 403, whatever the
    body, and nothing happens.  For an administrator the request always
    ends in a reply, as [power_outcome] says: an unknown verb, a device of
    another tenant, a device without warden reference or BMC address and a
    secret warden does not release each stop the request before the BMC is
    contacted; otherwise the BMC at the device's own address gets the one verb
    asked for, with the credentials warden released for the caller's token and
    the device's reference.  Every refusal with a reason and every command
    adds exactly one audit row with the caller, device, address, verb and
    outcome, and nothing else of the store changes. *)
Theorem PostPower_gated `{Env} r b url_parse token deviceID action w :
  quiet w → (∀ ref w, quiet w → quiet (fst (cl_Credentials r token ref w))) →
  (∀ addr creds w, quiet w → quiet (fst (bm_Power b addr creds action w))) →
  (∀ id body e, Caller id = Err e → PostPower (Some r) (Some b) url_parse token id deviceID body w = (w, Ok (WriteError 401 "unauthenticated"))) ∧
  (∀ i, Caller (Some i) = Ok i →
    if IsPlatformAdmin (subject_of i) then
      ∃ w' rep, PostPower (Some r) (Some b) url_parse token (Some i) deviceID (Ok action) w = (w', Ok rep) ∧
                power_outcome r b url_parse token (subject_of i) deviceID action w w' rep
    else ∀ body, PostPower (Some r) (Some b) url_parse token (Some i) deviceID body w = (w, Ok (WriteError 403 "forbidden"))).
Proof.
  intros Hq Hqr Hqb. split.
  - intros id body e He. unfold PostPower, platformAdmin, subjects. unfold Caller in *. destruct id as [i|]; [|done].
    by destruct (is_empty (id_UserID i) || is_empty (id_TenantID i)).
  - intros i Hc. unfold Caller in Hc. destruct (is_empty (id_UserID i)) eqn:Eu; [done|]. destruct (is_empty (id_TenantID i)) eqn:Et; [done|].
    destruct (IsPlatformAdmin (subject_of i)) eqn:Ea.
    + apply PostPower_admin; try done; intros E; [by rewrite E in Eu|by rewrite E in Et].
    + intros body. unfold PostPower, platformAdmin, subjects, Caller. rewrite Eu, Et. cbn [orb]. unfold RequirePlatformAdmin. by rewrite Ea.
Qed.

(** *** An administrator cycles a server *)

Definition ex_secret : string := "0b7f5d3e-8a44-4d6e-9a51-0a1b2c3d4e5f".
Definition ex_bmc_device : Device :=
  {| zero_Device with dv_ID := "d1"; dv_TenantID := "t1"; dv_Name := "srv"; dv_ManagementIP := "10.0.0.9"; dv_IPMISecretRef := ex_secret |}.
Definition ex_bmc_world : World :=
  {| w_mem := {| New with mem_devices := {["d1" := ex_bmc_device]} |}; w_ids := 0; w_ticks := 0; w_events := [] |}.
Definition ex_warden : WardenClient :=
  fake_client (H := ex_env) (fake_put (H := ex_env) NewWardenFake ex_secret {| zero_SecretMeta with sm_Username := "ADMIN"; sm_HostURL := "lanplus://bmc:6230" |} "pw").
Definition ex_url (u : string) : option (string * string) :=
  if u =s "lanplus://bmc:6230" then Some ("lanplus", "6230")%string else None.
(** The IPMI client over a library whose BMC only accepts the session and the
    command of the test. *)
Definition ex_ipmi : BMC :=
  {| bm_PowerStatus := λ _ _ w, (w, Err Ipmi_ErrUnreachable); bm_Sensors := λ _ _ w, (w, Err Ipmi_ErrUnreachable);
     bm_SEL := λ _ _ w, (w, Err Ipmi_ErrUnreachable);
     bm_Power := Power (H := ex_env)
       (λ host port user pw proto w, (w, if (host =s "10.0.0.9") && (port =? 6230) && (user =s "ADMIN") && (pw =s "pw") && (proto =s "2.0") then Ok ()
                                         else Err {| if_unreachable := false; if_authFailed := true; if_deadline := false; if_timeout := false; if_refused := false; if_text := "rakp" |}))
       (λ _ c w, (w, match c with PowerCycle => Ok () | _ => Err "unexpected" end)) |}.
Definition ex_admin : Identity := {| id_UserID := "u1"; id_TenantID := "t1"; id_Roles := ["platform-admin"] |}.

Lemma PostPower_gated_witness :
  let run := PostPower (H := ex_env) (Some ex_warden) (Some ex_ipmi) ex_url "tok" (Some ex_admin) "d1" (Ok ActionCycle) ex_bmc_world in
  snd run = Ok (WriteJSON 200 (BodyAccepted ActionCycle)) ∧
  (∃ rep, power_outcome ex_warden ex_ipmi ex_url "tok" (subject_of ex_admin) "d1" ActionCycle ex_bmc_world (fst run) rep) ∧
  (λ row, (ar_Target row, ar_Outcome row)) <$> mem_audit (w_mem (fst run)) = [("10.0.0.9", OutcomeOK)]%string.
Proof.
  destruct (PostPower_gated (H := ex_env) ex_warden ex_ipmi ex_url "tok" "d1" ActionCycle ex_bmc_world) as [_ Hi].
  - reflexivity.
  - done.
  - intros addr creds w Hw. cbn. unfold Power. cbn. unfold ipmi_connect. destruct (is_empty addr); [done|]. unfold ext, mbind, M_bind. cbn.
    by destruct (_ && _).
  - cbv zeta. split; [vm_compute; reflexivity|]. split; [|vm_compute; reflexivity].
    specialize (Hi ex_admin eq_refl). cbn [IsPlatformAdmin] in Hi. destruct Hi as (w' & rep & E & Hp). exists rep. by rewrite E.
Defined.
