(* ===== verification/Backup.v ===== *)
(** * internal/backup: export and import of a tenant's data

    [Export] reads the tenant's tables page by page and strips every secret;
    [Import] recreates the rows under their own ids, skipping or replacing the
    ids that exist.  A paging loop takes fuel: one round per row of its table
    and one more, since every page but the last takes [pageSize] rows off the
    list ([collect_pages]).  The counts of an import that fails are dropped, as its
    caller drops them. *)

From S2P Require Import Prelude Models Store MemNet MemDev MemCat MemScan Events Authz Snmpcred Subnets.

Definition SchemaVersion : Z := 1.
Definition ModeSkip : string := "skip".
Definition ModeOverwrite : string := "overwrite".
Definition pageSize : Z := 500.

Record IPGroupExport : Type := { ie_Group : IPGroup; ie_Members : list IPGroupMember }.
Record HostGroupExport : Type := { he_Group : HostGroup; he_Members : list HostGroupMember }.

Record Backup : Type := {
  bk_SchemaVersion : Z; bk_ExportedAt : Time;
  bk_Subnets : list Subnet; bk_Addresses : list IPAddress; bk_Devices : list Device; bk_Vlans : list Vlan;
  bk_Locations : list Location; bk_IPGroups : list IPGroupExport; bk_HostGroups : list HostGroupExport }.

(** The imported and skipped rows of each table. *)
Record BackupResult : Type := {
  br_Subnets : Z * Z; br_Addresses : Z * Z; br_Devices : Z * Z; br_Vlans : Z * Z; br_Locations : Z * Z;
  br_IPGroups : Z * Z; br_HostGroups : Z * Z; br_SNMPCredentialsRequired : list string }.

(** ** Sanitizers *)

Definition sanitizeSubnet (s : Subnet) : Subnet := {| s with sn_SNMPSecretRef := ""; sn_SNMPVersion := 0; sn_SNMP := None |}.
Definition sanitizeAddress (a : IPAddress) : IPAddress := {| a with ad_Owner := "" |}.
Definition sanitizeDevice (d : Device) : Device := {| d with dv_IPMISecretRef := ""; dv_Contact := "" |}.
Definition sanitizeLocation (l : Location) : Location := {| l with lc_Contact := ""; lc_Phone := ""; lc_Email := "" |}.

(** ** Export *)

Section backup.
Context `{Env}.

(** Pages until one is short; [each] turns a page into exported rows. *)
Fixpoint collect {T U} (id : T → string) (page_after : string → M (list T)) (each : list T → M (list U)) (fuel : nat) (cursor : string) : M (list U) :=
  match fuel with
  | O => mret []
  | S f =>
      page ← page_after cursor;
      out ← each page;
      if Z.of_nat (length page) <? pageSize then mret out
      else
        rest ← collect id page_after each f (match last page with Some x => id x | None => cursor end);
        mret (out ++ rest)
  end.

Definition export_subnet (idx : Index) (sn : Subnet) : Subnet :=
  let sn := sanitizeSubnet sn in
  let eff := fst (Effective idx (sn_ID sn)) in
  {| sn with sn_SNMP := Some eff; sn_SNMPVersion := sm_Version eff |}.

Definition Export (subj : Subjects) (includeSecrets : bool) : M Backup :=
  lift (RequireTenant subj (su_TenantID subj));;
  let tenant := su_TenantID subj in
  t ← now;
  subs ← AllSubnetCIDRs tenant;
  idx ← SNMPIndex tenant;
  m ← mem;
  addrs ← collect ad_ID (λ c, ListAddresses tenant {| zero_AddressFilter with af_Limit := pageSize; af_CursorID := c |})
            (λ page, mret (sanitizeAddress <$> page)) (S (size (mem_addrs m))) "";
  devs ← collect dv_ID (λ c, ListDevices tenant {| zero_DeviceFilter with df_Limit := pageSize; df_CursorID := c |})
           (λ page, mret (sanitizeDevice <$> page)) (S (size (mem_devices m))) "";
  vlans ← collect vl_ID (λ c, ListVlans tenant {| zero_VlanFilter with vf_Limit := pageSize; vf_CursorID := c |})
            mret (S (size (mem_vlans m))) "";
  locs ← collect lc_ID (λ c, ListLocations tenant {| zero_LocationFilter with lf_Limit := pageSize; lf_CursorID := c |})
           (λ page, mret (sanitizeLocation <$> page)) (S (size (mem_locs m))) "";
  ipg ← AllIPGroupsWithMembers tenant [];
  hgs ← collect hgr_ID (ListHostGroups tenant pageSize)
          (mapM (λ g, members ← ListHostGroupMembers tenant (hgr_ID g); mret {| he_Group := g; he_Members := members |}))
          (S (size (mem_hostGroups m))) "";
  mret {| bk_SchemaVersion := SchemaVersion; bk_ExportedAt := t; bk_Subnets := export_subnet idx <$> subs; bk_Addresses := addrs;
          bk_Devices := devs; bk_Vlans := vlans; bk_Locations := locs;
          bk_IPGroups := (λ g, {| ie_Group := g; ie_Members := default [] (snd ipg !! ig_ID g) |}) <$> fst ipg; bk_HostGroups := hgs |}.

(** ** Import *)

(** The stored row; [repo.ErrNotFound] means that there is none. *)
Definition exists_row {A} (get : M A) : M (option A) :=
  r ← try get;
  match r with
  | Ok a => mret (Some a)
  | Err e => match err_root e with ErrNotFound => mret None | _ => throw e end
  end.

(** One row: whether it was imported. *)
Definition import_row {A} (mode : string) (get : M A) (del : M ()) (create : option A → M ()) : M bool :=
  ex ← exists_row get;
  if is_some ex then if mode =s ModeSkip then mret false else del;; create ex;; mret true
  else create ex;; mret true.

Definition import_location (tenant mode : string) (l : Location) : M bool :=
  let l := {| l with lc_TenantID := tenant |} in
  import_row mode (GetLocation tenant (lc_ID l)) (DeleteLocation tenant (lc_ID l) true) (λ _, CreateLocation l).

Definition import_vlan (tenant mode : string) (v : Vlan) : M bool :=
  let v := {| v with vl_TenantID := tenant |} in
  import_row mode (GetVlan tenant (vl_ID v)) (DeleteVlan tenant (vl_ID v) true) (λ _, CreateVlan v).

Definition had_own (sn : Subnet) : bool := match sn_SNMP sn with Some s => sm_State s =s SNMPStateOwn | None => false end.

Definition import_subnet (tenant mode : string) (sn : Subnet) : M bool :=
  let sn := {| sn with sn_TenantID := tenant; sn_SNMPSecretRef := ""; sn_SNMPVersion := 0; sn_SNMP := None |} in
  import_row mode (GetSubnet tenant (sn_ID sn)) (DeleteSubnet tenant (sn_ID sn) true) (λ _, CreateSubnet sn).

(** An overwritten device keeps the reference it has. *)
Definition import_device (tenant mode : string) (d : Device) : M bool :=
  let d := {| d with dv_TenantID := tenant; dv_IPMISecretRef := "" |} in
  import_row mode (GetDevice tenant (dv_ID d)) (DeleteDevice tenant (dv_ID d) true)
    (λ ex, CreateDevice {| d with dv_IPMISecretRef := match ex with Some e => dv_IPMISecretRef e | None => "" end |}).

Definition import_address (tenant mode : string) (a : IPAddress) : M bool :=
  let a := {| a with ad_TenantID := tenant |} in
  import_row mode (GetAddress tenant (ad_ID a)) (DeleteAddress tenant (ad_ID a)) (λ _, CreateAddress a).

Definition import_ipGroup (tenant mode : string) (ge : IPGroupExport) : M bool :=
  let g := let g := ie_Group ge in {| g with ig_TenantID := tenant |} in
  import_row mode (GetIPGroup tenant (ig_ID g)) (DeleteIPGroup tenant (ig_ID g))
    (λ _, CreateIPGroup g;; mapM_ (λ x, AddIPGroupMember {| x with im_TenantID := tenant; im_IPGroupID := ig_ID g |}) (ie_Members ge)).

Definition import_hostGroup (tenant mode : string) (ge : HostGroupExport) : M bool :=
  let g := let g := he_Group ge in {| g with hgr_TenantID := tenant |} in
  import_row mode (GetHostGroup tenant (hgr_ID g)) (DeleteHostGroup tenant (hgr_ID g))
    (λ _, CreateHostGroup g;; mapM_ (λ x, AddHostGroupMember {| x with hm_TenantID := tenant; hm_HostGroupID := hgr_ID g |}) (he_Members ge)).

(** Imported and skipped. *)
Definition tally (flags : list bool) : Z * Z :=
  (Z.of_nat (length (List.filter (λ b, b) flags)), Z.of_nat (length (List.filter negb flags))).

Definition Import (subj : Subjects) (b : Backup) (mode : string) : M BackupResult :=
  lift (RequireTenant subj (su_TenantID subj));;
  if negb (bk_SchemaVersion b =? SchemaVersion) then throw (Backup_ErrBadSchema (bk_SchemaVersion b))
  else
    let mode := if mode =s ModeOverwrite then mode else ModeSkip in
    let tenant := su_TenantID subj in
    locs ← mapM (import_location tenant mode) (bk_Locations b);
    vlans ← mapM (import_vlan tenant mode) (bk_Vlans b);
    subs ← mapM (import_subnet tenant mode) (bk_Subnets b);
    devs ← mapM (import_device tenant mode) (bk_Devices b);
    addrs ← mapM (import_address tenant mode) (bk_Addresses b);
    igs ← mapM (import_ipGroup tenant mode) (bk_IPGroups b);
    hgs ← mapM (import_hostGroup tenant mode) (bk_HostGroups b);
    mret {| br_Subnets := tally subs; br_Addresses := tally addrs; br_Devices := tally devs; br_Vlans := tally vlans;
            br_Locations := tally locs; br_IPGroups := tally igs; br_HostGroups := tally hgs;
            br_SNMPCredentialsRequired := omap (λ '(sn, imported), if imported && had_own sn then Some (sn_CIDR sn) else None) (zip (bk_Subnets b) subs) |}.
End backup.
