(* ===== verification/BackupProps.v ===== *)
(** * Importing a backup, row by row

    [Import_skip_keeps]: an import in skip mode never changes or removes a
    row the tenant has, even when it fails half way; the members of its groups
    are kept when the file reuses none of their ids.  The second half shows what
    importing a row that is not there does to its table, for every table, and
    how a loop over rows that are apart from each other loads them all
    ([load_from], [table_load]); the round trip of BackupRound.v builds on it. *)

From S2P Require Import Prelude Models Store MemNet MemDev MemCat MemScan Events Authz Snmpcred Subnets MemInv Backup.

(** ** Skip mode *)

Section tenant_rows.
Context (tenant : string).

Definition keeps_rows {V} (own : V → string) (t t' : gmap string V) : Prop :=
  ∀ k v, t !! k = Some v → own v = tenant → t' !! k = Some v.

(** The tenant has no row under the id. *)
Definition absent {V} (own : V → string) (t : gmap string V) (k : string) : Prop := ∀ v, t !! k = Some v → own v ≠ tenant.

(** Every subnet, address, device, VLAN, location and group of the tenant is
    still there, unchanged. *)
Record kept (m m' : Mem) : Prop := {
  kept_subnets : keeps_rows sn_TenantID (mem_subnets m) (mem_subnets m');
  kept_addrs : keeps_rows ad_TenantID (mem_addrs m) (mem_addrs m');
  kept_devices : keeps_rows dv_TenantID (mem_devices m) (mem_devices m');
  kept_vlans : keeps_rows vl_TenantID (mem_vlans m) (mem_vlans m');
  kept_locs : keeps_rows lc_TenantID (mem_locs m) (mem_locs m');
  kept_ipGroups : keeps_rows ig_TenantID (mem_ipGroups m) (mem_ipGroups m');
  kept_hostGroups : keeps_rows hgr_TenantID (mem_hostGroups m) (mem_hostGroups m') }.

(** And so is every member of its groups. *)
Record kept_members (m m' : Mem) : Prop := {
  kept_ipMembers : keeps_rows im_TenantID (mem_ipMembers m) (mem_ipMembers m');
  kept_hostMembers : keeps_rows hm_TenantID (mem_hostMembers m) (mem_hostMembers m') }.

(** An id that none of the tenant's rows has. *)
Record unused (m : Mem) (id : string) : Prop := {
  un_subnets : absent sn_TenantID (mem_subnets m) id;
  un_addrs : absent ad_TenantID (mem_addrs m) id;
  un_devices : absent dv_TenantID (mem_devices m) id;
  un_vlans : absent vl_TenantID (mem_vlans m) id;
  un_locs : absent lc_TenantID (mem_locs m) id;
  un_ipGroups : absent ig_TenantID (mem_ipGroups m) id;
  un_hostGroups : absent hgr_TenantID (mem_hostGroups m) id;
  un_ipMembers : absent im_TenantID (mem_ipMembers m) id;
  un_hostMembers : absent hm_TenantID (mem_hostMembers m) id }.

(** The identifiers still to be generated are new to the tenant, as those of
    store.NewID (version 7 UUIDs) are. *)
Definition ids_fresh `{Env} (w : World) : Prop := ∀ n, (w_ids w ≤ n)%nat → unused (w_mem w) (id_at n).

(** The groups of the file that the tenant does not have list no member under
    the id of a member the tenant has. *)
Definition new_ipMembers (m : Mem) (ge : IPGroupExport) : Prop :=
  absent ig_TenantID (mem_ipGroups m) (ig_ID (ie_Group ge)) →
  Forall (λ x, im_ID x ≠ ""%string → absent im_TenantID (mem_ipMembers m) (im_ID x)) (ie_Members ge).
Definition new_hostMembers (m : Mem) (ge : HostGroupExport) : Prop :=
  absent hgr_TenantID (mem_hostGroups m) (hgr_ID (he_Group ge)) →
  Forall (λ x, hm_ID x ≠ ""%string → absent hm_TenantID (mem_hostMembers m) (hm_ID x)) (he_Members ge).
Definition new_members (m : Mem) (b : Backup) : Prop :=
  Forall (new_ipMembers m) (bk_IPGroups b) ∧ Forall (new_hostMembers m) (bk_HostGroups b).

Lemma keeps_refl {V} (own : V → string) t : keeps_rows own t t.
Proof. by intros k v. Qed.

Lemma keeps_insert {V} (own : V → string) t t' k v : keeps_rows own t t' → absent own t k → keeps_rows own t (<[k := v]> t').
Proof. intros Ht Hk k' u Hu Hown. rewrite lookup_insert_ne; [by apply Ht|]. intros <-. by apply (Hk u). Qed.

Lemma keeps_absent {V} (own : V → string) t t' k : keeps_rows own t t' → absent own t' k → absent own t k.
Proof. intros Ht Hk v Hv Hown. by apply (Hk v); [apply Ht|]. Qed.
End tenant_rows.

Section skip.
Context `{Env} (tenant : string) (w0 : World) (Q : Prop).
Hypothesis Hfresh : ids_fresh tenant w0.

(** The rows of the start are kept; those of the members when [Q] holds. *)
Record holds (w : World) : Prop := {
  ho_ids : (w_ids w0 ≤ w_ids w)%nat;
  ho_kept : kept tenant (w_mem w0) (w_mem w);
  ho_members : Q → kept_members tenant (w_mem w0) (w_mem w) }.

Definition keeping {A} (op : M A) : Prop := ∀ w, holds w → holds (fst (op w)).

Lemma keeping_bind {A B} (op : M A) (k : A → M B) : keeping op → (∀ a, keeping (k a)) → keeping (op ≫= k).
Proof.
  intros Hop Hk w Hw. unfold mbind, M_bind. specialize (Hop w Hw). destruct (op w) as [w' [a|e]]; [by apply Hk|done].
Qed.

Lemma keeping_id {A} (op : M A) : (∀ w, fst (op w) = w) → keeping op.
Proof. intros Hop w Hw. by rewrite Hop. Qed.

Lemma keeping_mapM {A B} (f : A → M B) l : Forall (λ x, keeping (f x)) l → keeping (mapM f l).
Proof.
  induction 1 as [|x l Hx _ IH]; [by apply keeping_id|]. cbn. apply keeping_bind; [done|intros y].
  apply keeping_bind; [exact IH|]. intros ys. by apply keeping_id.
Qed.

Lemma keeping_mapM_ {A} (f : A → M ()) l : Forall (λ x, keeping (f x)) l → keeping (mapM_ f l).
Proof. induction 1 as [|x l Hx _ IH]; cbn; [by apply keeping_id|]. by apply keeping_bind. Qed.

Lemma keeping_fail {A} method (k : M A) : keeping k → keeping (fail method;; k).
Proof.
  intros Hk. apply keeping_bind; [|done]. intros w Hw. unfold fail, mbind, M_bind, mem. destruct (decide _); [|done].
  destruct Hw as [? [] Hm]. split; [done|by split|]. intros q. by destruct (Hm q).
Qed.

(** The id of a new row: the one it names, or a generated one; the tenant had
    no row under either. *)
Lemma draw {A} (P : string → Prop) s (k : string → M A) w : holds w → (s ≠ ""%string → P s) → (∀ n, (w_ids w0 ≤ n)%nat → P (id_at n)) →
  (∀ id w', P id → holds w' → holds (fst (k id w'))) → holds (fst ((id ← (if is_empty s then newID else mret s); k id) w)).
Proof.
  intros Hw Hs Hn Hk. destruct (is_empty s) eqn:E.
  - unfold newID, mbind, M_bind. apply Hk; [apply Hn, (ho_ids _ Hw)|]. destruct Hw as [? [] Hm]. split; [cbn; lia|by split|exact Hm].
  - apply Hk; [|done]. apply Hs. intros ->. by rewrite (proj2 (is_empty_spec _) eq_refl) in E.
Qed.

Hint Resolve keeps_insert : core.

(** A creating method keeps the rows when the tenant had no row under the id. *)
Ltac inserted := intros id w1 Hid1 Hw1; unfold mbind, M_bind, now; cbn; destruct Hw1 as [? [] Hm1]; split; cbn; [done|split; cbn; auto|let q := fresh in intros q; destruct (Hm1 q); split; cbn; auto].
Ltac created un :=
  intros Hid; apply keeping_fail; intros w Hw; rewrite (bind_Ok mem _ _ _ _ eq_refl); cbv beta;
  match goal with
  | |- context [if ?b then throw _ else _] => destruct b; [exact Hw|]
  | |- context [match ?x with Some _ => throw _ | None => _ end] => destruct x; [exact Hw|]
  end;
  apply (draw _ _ _ _ Hw Hid); [intros n Hn; apply (un _ _ _ (Hfresh n Hn))|]; inserted.

Lemma keeping_CreateSubnet x : (sn_ID x ≠ ""%string → absent tenant sn_TenantID (mem_subnets (w_mem w0)) (sn_ID x)) → keeping (CreateSubnet x).
Proof. created un_subnets. Qed.
Lemma keeping_CreateAddress x : (ad_ID x ≠ ""%string → absent tenant ad_TenantID (mem_addrs (w_mem w0)) (ad_ID x)) → keeping (CreateAddress x).
Proof. created un_addrs. Qed.
Lemma keeping_CreateDevice x : (dv_ID x ≠ ""%string → absent tenant dv_TenantID (mem_devices (w_mem w0)) (dv_ID x)) → keeping (CreateDevice x).
Proof. created un_devices. Qed.
Lemma keeping_CreateVlan x : (vl_ID x ≠ ""%string → absent tenant vl_TenantID (mem_vlans (w_mem w0)) (vl_ID x)) → keeping (CreateVlan x).
Proof. created un_vlans. Qed.
Lemma keeping_CreateLocation x : (lc_ID x ≠ ""%string → absent tenant lc_TenantID (mem_locs (w_mem w0)) (lc_ID x)) → keeping (CreateLocation x).
Proof. created un_locs. Qed.
Lemma keeping_CreateIPGroup x : (ig_ID x ≠ ""%string → absent tenant ig_TenantID (mem_ipGroups (w_mem w0)) (ig_ID x)) → keeping (CreateIPGroup x).
Proof. created un_ipGroups. Qed.
Lemma keeping_CreateHostGroup x : (hgr_ID x ≠ ""%string → absent tenant hgr_TenantID (mem_hostGroups (w_mem w0)) (hgr_ID x)) → keeping (CreateHostGroup x).
Proof. created un_hostGroups. Qed.

(** A member that is added may replace one of another group: its id is not
    looked up first. *)
Ltac member own table un :=
  intros Hid; apply keeping_fail; intros w Hw; rewrite (bind_Ok mem _ _ _ _ eq_refl); cbv beta;
  match goal with |- context [match ?x with Some _ => _ | None => throw _ end] => destruct x; [|exact Hw] end;
  repeat match goal with |- context [if ?b then throw _ else _] => destruct b; [exact Hw|] end;
  apply (draw (λ k, Q → absent tenant own (table (w_mem w0)) k) _ _ _ Hw (λ Hne q, Hid q Hne)); [intros n Hn q; apply (un _ _ _ (Hfresh n Hn))|]; inserted.

Lemma keeping_AddIPGroupMember x : (Q → im_ID x ≠ ""%string → absent tenant im_TenantID (mem_ipMembers (w_mem w0)) (im_ID x)) → keeping (AddIPGroupMember x).
Proof. member im_TenantID mem_ipMembers un_ipMembers. Qed.
Lemma keeping_AddHostGroupMember x : (Q → hm_ID x ≠ ""%string → absent tenant hm_TenantID (mem_hostMembers (w_mem w0)) (hm_ID x)) → keeping (AddHostGroupMember x).
Proof. member hm_TenantID mem_hostMembers un_hostMembers. Qed.

(** A row that is not there is created, one that is there is left alone. *)
Lemma keeping_import_row {V B} (own : V → string) (table : Mem → gmap string V) k (f : Mem → V → B) del create :
  (∀ w, holds w → keeps_rows tenant own (table (w_mem w0)) (table (w_mem w))) →
  (absent tenant own (table (w_mem w0)) k → keeping (create None)) →
  keeping (import_row ModeSkip
    (m ← mem; match table m !! k with Some v => if own v =s tenant then mret (f m v) else throw ErrNotFound | None => throw ErrNotFound end) del create).
Proof.
  intros Ht Hc w Hw. unfold import_row, exists_row, try, mbind, M_bind, mem, mret, M_ret, throw.
  destruct (table (w_mem w) !! k) as [v|] eqn:E; [destruct (own v =s tenant) eqn:Eo; [exact Hw|]|]; cbn.
  all: assert (Ha : absent tenant own (table (w_mem w0)) k) by
    (apply (keeps_absent _ _ _ _ _ (Ht w Hw)); intros u Hu; rewrite E in Hu; simplify_eq; by apply String.eqb_neq).
  all: specialize (Hc Ha w Hw); by destruct (create None w) as [w' [[]|e]].
Qed.

Lemma skip_location l : keeping (import_location tenant ModeSkip l).
Proof.
  apply (keeping_import_row lc_TenantID mem_locs _ fillLocation); [by intros w [_ [] _]|]. intros Ha. by apply keeping_CreateLocation.
Qed.
Lemma skip_vlan v : keeping (import_vlan tenant ModeSkip v).
Proof.
  apply (keeping_import_row vl_TenantID mem_vlans _ fillVlan); [by intros w [_ [] _]|]. intros Ha. by apply keeping_CreateVlan.
Qed.
Lemma skip_subnet s : keeping (import_subnet tenant ModeSkip s).
Proof.
  apply (keeping_import_row sn_TenantID mem_subnets _ fillSubnet); [by intros w [_ [] _]|]. intros Ha. by apply keeping_CreateSubnet.
Qed.
Lemma skip_device d : keeping (import_device tenant ModeSkip d).
Proof.
  apply (keeping_import_row dv_TenantID mem_devices _ fillDevice); [by intros w [_ [] _]|]. intros Ha. by apply keeping_CreateDevice.
Qed.
Lemma skip_address a : keeping (import_address tenant ModeSkip a).
Proof.
  apply (keeping_import_row ad_TenantID mem_addrs _ decorateAddrLocked); [by intros w [_ [] _]|]. intros Ha. by apply keeping_CreateAddress.
Qed.
Lemma skip_ipGroup ge : (Q → new_ipMembers tenant (w_mem w0) ge) → keeping (import_ipGroup tenant ModeSkip ge).
Proof.
  intros Hq. set (id := ig_ID (ie_Group ge)).
  apply (keeping_import_row ig_TenantID mem_ipGroups _ (λ m g, {| g with ig_MemberCount := ipGroupMemberCount m tenant id |})); [by intros w [_ [] _]|].
  intros Ha. apply keeping_bind; [by apply keeping_CreateIPGroup|]. intros _. apply keeping_mapM_, Forall_forall. intros x Hx.
  apply keeping_AddIPGroupMember. intros q. exact (proj1 (Forall_forall _ _) (Hq q Ha) x Hx).
Qed.
Lemma skip_hostGroup ge : (Q → new_hostMembers tenant (w_mem w0) ge) → keeping (import_hostGroup tenant ModeSkip ge).
Proof.
  intros Hq. set (id := hgr_ID (he_Group ge)).
  apply (keeping_import_row hgr_TenantID mem_hostGroups _ (λ m g, {| g with hgr_MemberCount := hostGroupMemberCount m tenant id |})); [by intros w [_ [] _]|].
  intros Ha. apply keeping_bind; [by apply keeping_CreateHostGroup|]. intros _. apply keeping_mapM_, Forall_forall. intros x Hx.
  apply keeping_AddHostGroupMember. intros q. exact (proj1 (Forall_forall _ _) (Hq q Ha) x Hx).
Qed.
End skip.

(** C20: an import that is not asked to overwrite never changes or removes a
    subnet, address, device, VLAN, location, IP group or host group the tenant
    has, whatever the file holds and whether the import succeeds or stops half
    way with an error: the row under every such id is the same before and
    after.  The ids generated for rows the file gives none are taken to be new
    to the tenant.  The members of the tenant's groups are kept too when the
    groups of the file that the tenant does not have reuse no member's id; when
    one does, the member is lost to its group ([skip_moves_member]). *)
Theorem Import_skip_keeps `{Env} subj b mode w : ids_fresh (su_TenantID subj) w → mode ≠ ModeOverwrite →
  let w' := fst (Import subj b mode w) in
  kept (su_TenantID subj) (w_mem w) (w_mem w') ∧
  (new_members (su_TenantID subj) (w_mem w) b → kept_members (su_TenantID subj) (w_mem w) (w_mem w')).
Proof.
  intros Hf Hm. cbv zeta. set (tenant := su_TenantID subj) in *. set (Q := new_members tenant (w_mem w) b).
  assert (Hk : keeping tenant w Q (Import subj b mode)).
  { unfold Import. apply keeping_bind; [apply keeping_id; by destruct (RequireTenant _ _)|intros _].
    destruct (negb _); [by apply keeping_id|]. rewrite (proj2 (String.eqb_neq _ _) Hm).
    repeat (apply keeping_bind; [apply keeping_mapM, Forall_forall; intros x Hx|intros ?]); [..|by apply keeping_id].
    all: auto using skip_location, skip_vlan, skip_subnet, skip_device, skip_address.
    - apply skip_ipGroup; [done|]. intros [Hi _]. by apply (proj1 (Forall_forall _ _) Hi).
    - apply skip_hostGroup; [done|]. intros [_ Hh]. by apply (proj1 (Forall_forall _ _) Hh). }
  destruct (Hk w) as [_ H1 H2]; [|done]. split; [done|split; apply keeps_refl|]. intros _. split; apply keeps_refl.
Qed.

(** ** Loading rows into an empty table *)

(** No store call has been armed to fail. *)
Definition calm (w : World) : Prop := mem_failNext (w_mem w) = ∅.

Lemma calm_fail {A} method (k : M A) w : calm w → (fail method;; k) w = k w.
Proof. intros Hc. unfold fail, mbind, M_bind, mem. rewrite Hc. destruct (decide _); [set_solver|done]. Qed.

(** A loop that adds the rows of [l] one by one. *)
Section load.
Context {T A : Type} (f : T → M A) (a : A) (Inv : list T → Mem → Prop) (good : T → Prop) (apart : T → T → Prop).
Hypothesis step : ∀ done x w, good x → Inv done (w_mem w) → (∀ y, y ∈ done → apart x y) →
  ∃ w', f x w = (w', Ok a) ∧ Inv (done ++ [x]) (w_mem w').

Lemma load_from l : ∀ done w, Inv done (w_mem w) → Forall good l → ForallOrdPairs (λ y x, apart x y) (done ++ l) →
  ∃ w', mapM f l w = (w', Ok (replicate (length l) a)) ∧ Inv (done ++ l) (w_mem w').
Proof.
  induction l as [|x l IH]; intros done w Hi Hg Ha; [exists w; by rewrite app_nil_r|].
  assert (Hx : ∀ y, y ∈ done → apart x y).
  { clear -Ha. induction done as [|z done IHd]; intros y Hy; [set_solver|]. inversion Ha as [|? ? Hz Ha']; subst. apply elem_of_cons in Hy as [->|Hy]; [|by apply IHd].
    rewrite Forall_app in Hz. destruct Hz as [_ Hz]. by inversion Hz. }
  inversion Hg as [|? ? Hgx Hgl]; subst. destruct (step done x w Hgx Hi Hx) as (w1 & E1 & Hi1).
  destruct (IH (done ++ [x]) w1) as (w2 & E2 & Hi2); [done|done|by rewrite <- app_assoc|].
  exists w2. rewrite <- app_assoc in Hi2. split; [|done].
  cbn [mapM foldr]. fold (mapM f). rewrite (bind_Ok _ _ _ _ _ E1). by rewrite (bind_Ok _ _ _ _ _ E2).
Qed.
End load.

Lemma mapM_run_ {T} (g : T → M ()) l w w' r : mapM g l w = (w', Ok r) → mapM_ g l w = (w', Ok ()).
Proof.
  revert w r. induction l as [|x l IH]; intros w r E; cbn in *; [by injection E as <- _|].
  unfold mbind, M_bind in *. destruct (g x w) as [w1 [[]|e]]; [|done]. destruct (mapM g l w1) as [w2 [r2|e]] eqn:E2; [|done].
  injection E as <- _. by eapply IH.
Qed.

(** The rows of [l], each under its key, and no other row. *)
Definition loaded {T R} (key : T → string) (row : T → Time → R) (l : list T) (t : gmap string R) : Prop :=
  (∀ x, x ∈ l → ∃ at_, t !! key x = Some (row x at_)) ∧ (∀ k r, t !! k = Some r → ∃ x at_, x ∈ l ∧ k = key x ∧ r = row x at_).

Lemma loaded_empty {T R} (key : T → string) (row : T → Time → R) : loaded key row [] ∅.
Proof. split; [set_solver|]. intros k r Hk. by rewrite lookup_empty in Hk. Qed.

Lemma loaded_snoc {T R} (key : T → string) (row : T → Time → R) l x at_ t : loaded key row l t → (∀ y, y ∈ l → key x ≠ key y) →
  loaded key row (l ++ [x]) (<[key x := row x at_]> t).
Proof.
  intros [Hl Ht] Hx. split.
  - intros y Hy. apply elem_of_app in Hy as [Hy|Hy]; [|apply list_elem_of_singleton in Hy as ->; exists at_; by rewrite lookup_insert_eq]. destruct (Hl y Hy) as [s E]. exists s. rewrite lookup_insert_ne; [done|by apply Hx].
  - intros k r [[<- <-]|[Hne Hk]]%lookup_insert_Some; [exists x, at_; set_solver|]. destruct (Ht k r Hk) as (y & s & Hy & -> & ->). exists y, s. set_solver.
Qed.

Lemma loaded_no_row {T R} (key : T → string) (row : T → Time → R) l x t : loaded key row l t → (∀ y, y ∈ l → key x ≠ key y) → t !! key x = None.
Proof. intros [_ Ht] Hx. destruct (t !! key x) as [r|] eqn:E; [|done]. destruct (Ht _ _ E) as (y & s & Hy & Hk & _). by destruct (Hx y Hy). Qed.

(** A clash test finds no loaded row. *)
Lemma loaded_no_clash {T R} (key : T → string) (row : T → Time → R) l t (P : R → bool) : loaded key row l t →
  (∀ y at_, y ∈ l → P (row y at_) = false) → map_any P t = false.
Proof. intros [_ Ht] HP. apply map_any_false. intros k r Hk. destruct (Ht k r Hk) as (y & s & Hy & _ & ->). by apply HP. Qed.

(** An import step when the lookup finds nothing. *)
Lemma import_row_new `{Env} {A} mode (get : M A) del create w w' : get w = (w, Err ErrNotFound) → create None w = (w', Ok ()) →
  import_row mode get del create w = (w', Ok true).
Proof. intros Hg Hc. unfold import_row, exists_row, try, mbind, M_bind. rewrite Hg. cbn. by rewrite Hc. Qed.

(** ** The imported rows *)

Section rows.
Context `{Env} (tenant mode : string).

Definition restored_location (l : Location) (t : Time) : Location :=
  {| l with lc_TenantID := tenant; lc_Status := default_str (lc_Status l) LocStActive;
     lc_CreatedAt := if IsZero (lc_CreatedAt l) then t else lc_CreatedAt l; lc_UpdatedAt := t |}.
Definition restored_vlan (v : Vlan) (t : Time) : Vlan :=
  {| v with vl_TenantID := tenant; vl_Status := default_str (vl_Status v) VlanActive;
     vl_CreatedAt := if IsZero (vl_CreatedAt v) then t else vl_CreatedAt v; vl_UpdatedAt := t |}.
Definition restored_subnet (s : Subnet) (t : Time) : Subnet :=
  {| s with sn_TenantID := tenant; sn_SNMPSecretRef := ""; sn_SNMPVersion := 0; sn_SNMP := None; sn_Status := default_str (sn_Status s) SubnetActive;
     sn_IPVersion := (if sn_IPVersion s =? 0 then 4 else sn_IPVersion s); sn_Origin := OriginManual;
     sn_CreatedAt := if IsZero (sn_CreatedAt s) then t else sn_CreatedAt s; sn_UpdatedAt := t |}.
Definition restored_device (d : Device) (t : Time) : Device :=
  {| d with dv_TenantID := tenant; dv_IPMISecretRef := ""; dv_Status := default_str (dv_Status d) DevStActive;
     dv_DeviceType := default_str (dv_DeviceType d) DevOther; dv_Source := SrcManual; dv_InventoryHostID := ""; dv_VirtualizationKind := "";
     dv_HypervisorDeviceID := ""; dv_UpdateStatus := UpdUnknown; dv_ReportState := ""; dv_LastReportAt := None; dv_ReportDigest := "";
     dv_CreatedAt := if IsZero (dv_CreatedAt d) then t else dv_CreatedAt d; dv_UpdatedAt := t |}.
Definition restored_address (a : IPAddress) (t : Time) : IPAddress :=
  {| a with ad_TenantID := tenant; ad_Status := default_str (ad_Status a) IPActive; ad_AddressType := default_str (ad_AddressType a) AddrHost;
     ad_ReportState := ""; ad_PreviousDeviceID := ""; ad_MovedAt := None; ad_MoveCount := 0; ad_MoveWindowStart := None; ad_Conflict := false;
     ad_Origin := ""; ad_Link := None; ad_CreatedAt := if IsZero (ad_CreatedAt a) then t else ad_CreatedAt a; ad_UpdatedAt := t |}.
Definition restored_ipGroup (g : IPGroup) (t : Time) : IPGroup :=
  {| g with ig_TenantID := tenant; ig_Status := default_str (ig_Status g) GroupActive;
     ig_CreatedAt := if IsZero (ig_CreatedAt g) then t else ig_CreatedAt g; ig_UpdatedAt := t |}.
Definition restored_hostGroup (g : HostGroup) (t : Time) : HostGroup :=
  {| g with hgr_TenantID := tenant; hgr_Status := default_str (hgr_Status g) GroupActive;
     hgr_CreatedAt := if IsZero (hgr_CreatedAt g) then t else hgr_CreatedAt g; hgr_UpdatedAt := t |}.

Lemma neq_eqb (a b : string) : a ≠ b → (b =s a) = false.
Proof. intros Hab. apply String.eqb_neq. congruence. Qed.

(** [Hl]: the loaded table; [Ha]: the row is apart from the loaded ones. *)
Ltac not_found Hl Ha :=
  match goal with |- ?get _ _ _ = _ => unfold get end;
  rewrite (bind_Ok mem _ _ _ _ eq_refl); cbv beta; erewrite (loaded_no_row _ _ _ _ _ Hl) by (intros y Hy; apply (Ha y Hy)); reflexivity.

(** Runs a creating method to its write: [E] is its run. *)
Ltac create_new op Hc Hid Hcl E :=
  unfold op in E; rewrite calm_fail in E by exact Hc; rewrite (bind_Ok mem _ _ _ _ eq_refl) in E; cbv beta in E; rewrite Hcl in E;
  match type of E with context [is_empty ?s] => destruct (is_empty s) eqn:Eid; [by apply is_empty_spec in Eid|] end;
  injection E as E <-.

(** What one table's import of a row that is not there does. *)
Definition imports_new {T R} (f : T → M bool) (key : T → string) (row : T → Time → R) (tab : Mem → gmap string R) (put : gmap string R → Mem → Mem)
    (apart : T → T → Prop) : Prop :=
  ∀ done x w, calm w → key x ≠ ""%string → loaded key row done (tab (w_mem w)) → (∀ y, y ∈ done → key x ≠ key y ∧ apart x y) →
  ∃ w' s, f x w = (w', Ok true) ∧ w_mem w' = put s (w_mem w) ∧ loaded key row (done ++ [x]) s.

Definition loc_apart (x y : Location) : Prop := lc_Name x ≠ lc_Name y ∧ (lc_Code x ≠ ""%string → lc_Code x ≠ lc_Code y).
Definition put_locs (s : gmap string Location) (m : Mem) : Mem := {| m with mem_locs := s |}.

Lemma import_location_new : imports_new (import_location tenant mode) lc_ID restored_location mem_locs put_locs loc_apart.
Proof.
  intros done x w Hc Hid Hl Ha.
  assert (Hg : GetLocation tenant (lc_ID x) w = (w, Err ErrNotFound)) by not_found Hl Ha.
  assert (Hcl : map_any (loc_clash {| x with lc_TenantID := tenant |}) (mem_locs (w_mem w)) = false).
  { apply (loaded_no_clash _ _ _ _ _ Hl). intros y t Hy. destruct (Ha y Hy) as (_ & Hn & Hcode). unfold loc_clash. cbn.
    rewrite String.eqb_refl, (neq_eqb _ _ Hn). cbn. destruct (is_empty (lc_Code x)) eqn:Ec; [done|]. cbn. apply neq_eqb, Hcode. intros E. by rewrite E in Ec. }
  destruct (CreateLocation {| x with lc_TenantID := tenant |} w) as [w' r] eqn:E. pose proof E as Ec. create_new (@CreateLocation) Hc Hid Hcl E.
  exists w', (<[lc_ID x := restored_location x (env_clock (w_ticks w))]> (mem_locs (w_mem w))). split_and!; [eapply import_row_new; [exact Hg|exact Ec]|by rewrite <- E|].
  apply loaded_snoc; [done|]. intros y Hy. apply (Ha y Hy).
Qed.

Definition vlan_apart (x y : Vlan) : Prop := vl_VlanID x ≠ vl_VlanID y ∧ vl_Name x ≠ vl_Name y.
Definition put_vlans (s : gmap string Vlan) (m : Mem) : Mem := {| m with mem_vlans := s |}.

Lemma import_vlan_new : imports_new (import_vlan tenant mode) vl_ID restored_vlan mem_vlans put_vlans vlan_apart.
Proof.
  intros done x w Hc Hid Hl Ha.
  assert (Hg : GetVlan tenant (vl_ID x) w = (w, Err ErrNotFound)) by not_found Hl Ha.
  set (x' := {| x with vl_TenantID := tenant |}).
  assert (Hcl : map_any (λ ex, (vl_TenantID ex =s vl_TenantID x') && ((vl_VlanID ex =? vl_VlanID x') || (vl_Name ex =s vl_Name x'))) (mem_vlans (w_mem w)) = false).
  { apply (loaded_no_clash _ _ _ _ _ Hl). intros y t Hy. destruct (Ha y Hy) as (_ & Hv & Hn). cbn.
    rewrite String.eqb_refl, (neq_eqb _ _ Hn), orb_false_r. cbn. apply Z.eqb_neq. congruence. }
  destruct (CreateVlan x' w) as [w' r] eqn:E. pose proof E as Ec. create_new (@CreateVlan) Hc Hid Hcl E.
  exists w', (<[vl_ID x := restored_vlan x (env_clock (w_ticks w))]> (mem_vlans (w_mem w))). split_and!; [eapply import_row_new; [exact Hg|exact Ec]|by rewrite <- E|].
  apply loaded_snoc; [done|]. intros y Hy. apply (Ha y Hy).
Qed.

Definition put_subnets (s : gmap string Subnet) (m : Mem) : Mem := {| m with mem_subnets := s |}.

Lemma import_subnet_new : imports_new (import_subnet tenant mode) sn_ID restored_subnet mem_subnets put_subnets (λ x y, sn_Name x ≠ sn_Name y).
Proof.
  intros done x w Hc Hid Hl Ha.
  assert (Hg : GetSubnet tenant (sn_ID x) w = (w, Err ErrNotFound)) by not_found Hl Ha.
  set (x' := {| x with sn_TenantID := tenant; sn_SNMPSecretRef := ""; sn_SNMPVersion := 0; sn_SNMP := None |}).
  assert (Hcl : map_any (λ ex, (sn_TenantID ex =s sn_TenantID x') && (sn_Name ex =s sn_Name x')) (mem_subnets (w_mem w)) = false).
  { apply (loaded_no_clash _ _ _ _ _ Hl). intros y t Hy. destruct (Ha y Hy) as (_ & Hn). cbn. by rewrite String.eqb_refl, (neq_eqb _ _ Hn). }
  destruct (CreateSubnet x' w) as [w' r] eqn:E. pose proof E as Ec. create_new (@CreateSubnet) Hc Hid Hcl E.
  exists w', (<[sn_ID x := restored_subnet x (env_clock (w_ticks w))]> (mem_subnets (w_mem w))). split_and!; [eapply import_row_new; [exact Hg|exact Ec]|by rewrite <- E|].
  apply loaded_snoc; [done|]. intros y Hy. apply (Ha y Hy).
Qed.

Definition put_devices (s : gmap string Device) (m : Mem) : Mem := {| m with mem_devices := s |}.

Lemma import_device_new : imports_new (import_device tenant mode) dv_ID restored_device mem_devices put_devices (λ x y, dv_Name x ≠ dv_Name y).
Proof.
  intros done x w Hc Hid Hl Ha.
  assert (Hg : GetDevice tenant (dv_ID x) w = (w, Err ErrNotFound)) by not_found Hl Ha.
  set (x' := {| x with dv_TenantID := tenant; dv_IPMISecretRef := "" |}).
  assert (Hcl : map_any (same_device_name (dv_TenantID x') (dv_Name x')) (mem_devices (w_mem w)) = false).
  { apply (loaded_no_clash _ _ _ _ _ Hl). intros y t Hy. destruct (Ha y Hy) as (_ & Hn). unfold same_device_name. cbn. by rewrite String.eqb_refl, (neq_eqb _ _ Hn). }
  destruct (CreateDevice x' w) as [w' r] eqn:E. pose proof E as Ec. create_new (@CreateDevice) Hc Hid Hcl E.
  exists w', (<[dv_ID x := restored_device x (env_clock (w_ticks w))]> (mem_devices (w_mem w))). split_and!; [eapply import_row_new; [exact Hg|exact Ec]|by rewrite <- E|].
  apply loaded_snoc; [done|]. intros y Hy. apply (Ha y Hy).
Qed.

Definition put_addrs (s : gmap string IPAddress) (m : Mem) : Mem := {| m with mem_addrs := s |}.

Lemma import_address_new : imports_new (import_address tenant mode) ad_ID restored_address mem_addrs put_addrs (λ x y, ad_Address x ≠ ad_Address y).
Proof.
  intros done x w Hc Hid Hl Ha.
  assert (Hg : GetAddress tenant (ad_ID x) w = (w, Err ErrNotFound)) by not_found Hl Ha.
  set (x' := {| x with ad_TenantID := tenant |}).
  assert (Hcl : findAddrLocked (w_mem w) (ad_TenantID x') (ad_Address x') = None).
  { apply map_find_None. intros k r Hk. destruct Hl as [_ Ht]. destruct (Ht k r Hk) as (y & t & Hy & _ & ->). destruct (Ha y Hy) as (_ & Hn).
    unfold has_address. cbn. by rewrite String.eqb_refl, (neq_eqb _ _ Hn). }
  destruct (CreateAddress x' w) as [w' r] eqn:E. pose proof E as Ec. create_new (@CreateAddress) Hc Hid Hcl E.
  exists w', (<[ad_ID x := restored_address x (env_clock (w_ticks w))]> (mem_addrs (w_mem w))). split_and!; [eapply import_row_new; [exact Hg|exact Ec]|by rewrite <- E|].
  apply loaded_snoc; [done|]. intros y Hy. apply (Ha y Hy).
Qed.

(** One table after the loop over its rows. *)
Lemma table_load {T R} (f : T → M bool) (key : T → string) (row : T → Time → R) tab put apart l w :
  (∀ s m, tab (put s m) = s) → (∀ s s' m, put s (put s' m) = put s m) → (∀ m, put (tab m) m = m) → (∀ s m, mem_failNext (put s m) = mem_failNext m) →
  imports_new f key row tab put apart → calm w → tab (w_mem w) = ∅ → Forall (λ x, key x ≠ ""%string) l →
  ForallOrdPairs (λ y x, key x ≠ key y ∧ apart x y) l →
  ∃ w' s, mapM f l w = (w', Ok (replicate (length l) true)) ∧ w_mem w' = put s (w_mem w) ∧ calm w' ∧ loaded key row l s.
Proof.
  intros Htp Hpp Hpt Hcp Hf Hc Ht Hg Ha.
  destruct (load_from f true (λ done m, ∃ s, m = put s (w_mem w) ∧ loaded key row done s) (λ x, key x ≠ ""%string) (λ x y, key x ≠ key y ∧ apart x y)) with (l := l) (done := @nil T) (w := w)
    as (w' & E & s & Hm & Hl); [|exists ∅; split; [by rewrite <- Ht, Hpt|apply loaded_empty]|done|done|].
  - intros done x w1 Hx (s & Hm & Hl) Hy. destruct (Hf done x w1) as (w2 & s2 & E & Hm2 & Hl2); [unfold calm; by rewrite Hm, Hcp|done|by rewrite Hm, Htp|done|].
    exists w2. split; [done|]. exists s2. split; [by rewrite Hm2, Hm, Hpp|done].
  - exists w', s. split_and!; [done|done|unfold calm; by rewrite Hm, Hcp|done].
Qed.

(** *** Groups *)

Definition restored_ipMember (p : string * IPGroupMember) (t : Time) : IPGroupMember :=
  let x := snd p in {| x with im_TenantID := tenant; im_IPGroupID := fst p; im_MemberType := default_str (im_MemberType x) MemberAddress |}.
Definition ip_pairs (l : list IPGroupExport) : list (string * IPGroupMember) :=
  l ≫= λ ge, (pair (ig_ID (ie_Group ge))) <$> ie_Members ge.
Definition put_ipGroups (g : gmap string IPGroup) (s : gmap string IPGroupMember) (m : Mem) : Mem := {| m with mem_ipGroups := g; mem_ipMembers := s |}.
Definition ip_member_apart (p q : string * IPGroupMember) : Prop :=
  im_ID (snd p) ≠ im_ID (snd q) ∧ (fst p = fst q → im_Value (snd p) ≠ im_Value (snd q)).

Lemma add_ipMember_new done p w : calm w → im_ID (snd p) ≠ ""%string →
  (∃ g, mem_ipGroups (w_mem w) !! fst p = Some g ∧ ig_TenantID g = tenant) →
  loaded (im_ID ∘ snd) restored_ipMember done (mem_ipMembers (w_mem w)) → (∀ q, q ∈ done → ip_member_apart p q) →
  ∃ w', (let x := snd p in AddIPGroupMember {| x with im_TenantID := tenant; im_IPGroupID := fst p |}) w = (w', Ok ()) ∧
    w_mem w' = (let m := w_mem w in put_ipGroups (mem_ipGroups m) (<[im_ID (snd p) := restored_ipMember p time_zero]> (mem_ipMembers m)) m).
Proof.
  intros Hc Hid (g & Hg & Hgt) Hl Ha. cbv zeta. set (x' := (let x := snd p in {| x with im_TenantID := tenant; im_IPGroupID := fst p |})).
  change ({| im_ID := _ |}) with x'. unfold AddIPGroupMember. rewrite calm_fail by exact Hc. rewrite (bind_Ok mem _ _ _ _ eq_refl). cbv beta.
  change (im_IPGroupID x') with (fst p). change (im_TenantID x') with tenant. rewrite Hg, Hgt, String.eqb_refl. cbn [negb].
  assert (Hcl : map_any (λ ex, (im_IPGroupID ex =s fst p) && (im_Value ex =s im_Value x')) (mem_ipMembers (w_mem w)) = false).
  { apply (loaded_no_clash _ _ _ _ _ Hl). intros q t Hq. destruct (Ha q Hq) as [_ Hv]. cbn. destruct (fst q =s fst p) eqn:E; [|done]. apply String.eqb_eq in E.
    apply neq_eqb, Hv. congruence. }
  rewrite Hcl. destruct (is_empty (im_ID x')) eqn:Eid; [by apply is_empty_spec in Eid|].
  eexists. split; [reflexivity|]. done.
Qed.

Record ip_good (ge : IPGroupExport) : Prop := {
  ip_good_id : ig_ID (ie_Group ge) ≠ ""%string;
  ip_good_members : Forall (λ x, im_ID x ≠ ""%string) (ie_Members ge);
  ip_good_apart : ForallOrdPairs (λ y x, im_ID x ≠ im_ID y ∧ im_Value x ≠ im_Value y) (ie_Members ge) }.
Definition ip_apart (ge he : IPGroupExport) : Prop :=
  ig_ID (ie_Group ge) ≠ ig_ID (ie_Group he) ∧ ig_Name (ie_Group ge) ≠ ig_Name (ie_Group he) ∧
  ∀ x y, x ∈ ie_Members ge → y ∈ ie_Members he → im_ID x ≠ im_ID y.

Definition ip_loaded (done : list IPGroupExport) (g : gmap string IPGroup) (s : gmap string IPGroupMember) : Prop :=
  loaded (ig_ID ∘ ie_Group) (λ ge, restored_ipGroup (ie_Group ge)) done g ∧ loaded (im_ID ∘ snd) restored_ipMember (ip_pairs done) s.

Lemma elem_of_ip_pairs p l : p ∈ ip_pairs l ↔ ∃ ge, ge ∈ l ∧ fst p = ig_ID (ie_Group ge) ∧ snd p ∈ ie_Members ge.
Proof.
  unfold ip_pairs. rewrite list_elem_of_bind. split.
  - intros (ge & Hp & Hge). apply list_elem_of_fmap in Hp as (x & -> & Hx). by exists ge.
  - intros (ge & Hge & Hf & Hs). exists ge. split; [|done]. apply list_elem_of_fmap. exists (snd p). destruct p. cbn in *. by subst.
Qed.

Lemma ip_members_load m0 g0 done ge s w : mem_failNext m0 = ∅ → ip_good ge → (∀ he, he ∈ done → ip_apart ge he) →
  g0 !! ig_ID (ie_Group ge) = Some (restored_ipGroup (ie_Group ge) (ig_UpdatedAt (default zero_IPGroup (g0 !! ig_ID (ie_Group ge))))) →
  w_mem w = put_ipGroups g0 s m0 → loaded (im_ID ∘ snd) restored_ipMember (ip_pairs done) s →
  ∃ w' s', mapM_ (λ x, AddIPGroupMember {| x with im_TenantID := tenant; im_IPGroupID := ig_ID (ie_Group ge) |}) (ie_Members ge) w = (w', Ok ()) ∧
    w_mem w' = put_ipGroups g0 s' m0 ∧ loaded (im_ID ∘ snd) restored_ipMember (ip_pairs (done ++ [ge])) s'.
Proof.
  intros Hc [Hid Hms Hap] Hd Hg Hw Hl. set (gid := ig_ID (ie_Group ge)) in *.
  destruct (load_from (λ x, AddIPGroupMember {| x with im_TenantID := tenant; im_IPGroupID := gid |}) ()
    (λ l m, ∃ s, m = put_ipGroups g0 s m0 ∧ loaded (im_ID ∘ snd) restored_ipMember (ip_pairs done ++ (pair gid <$> l)) s)
    (λ x, im_ID x ≠ ""%string ∧ x ∈ ie_Members ge) (λ x y, im_ID x ≠ im_ID y ∧ im_Value x ≠ im_Value y)) with (l := ie_Members ge) (done := @nil IPGroupMember) (w := w)
    as (w' & E & s' & Hm & Hl'); [|exists s; by rewrite app_nil_r| |exact Hap|].
  - intros l x w1 [Hx Hxin] (s1 & Hm1 & Hl1) Hxl.
    destruct (add_ipMember_new (ip_pairs done ++ (pair gid <$> l)) (gid, x) w1) as (w2 & E & Hm2); [unfold calm; by rewrite Hm1|done| |by rewrite Hm1| |].
    + eexists. split; [rewrite Hm1; exact Hg|done].
    + intros q [Hq|Hq]%elem_of_app.
      * apply elem_of_ip_pairs in Hq as (he & Hhe & Hf & Hs). destruct (Hd he Hhe) as (Hne & _ & Hxy). split; [by apply Hxy|]. cbn. rewrite Hf. intros E. by destruct Hne.
      * apply list_elem_of_fmap in Hq as (y & -> & Hy). destruct (Hxl y Hy) as [Hne Hv]. by split.
    + exists w2. split; [exact E|]. rewrite Hm1 in Hm2. eexists. split; [exact Hm2|]. cbn. rewrite fmap_app, app_assoc. cbn.
      apply (loaded_snoc (im_ID ∘ snd) restored_ipMember _ (gid, x) time_zero); [done|]. intros q [Hq|Hq]%elem_of_app.
      * apply elem_of_ip_pairs in Hq as (he & Hhe & Hf & Hs). destruct (Hd he Hhe) as (_ & _ & Hxy). by apply Hxy.
      * apply list_elem_of_fmap in Hq as (y & -> & Hy). by destruct (Hxl y Hy).
  - rewrite Forall_forall in Hms |- *. auto.
  - exists w', s'. split_and!; [by eapply mapM_run_|exact Hm|]. unfold ip_pairs. rewrite bind_app. cbn. by rewrite app_nil_r.
Qed.

Lemma import_ipGroup_new m0 done ge w : mem_failNext m0 = ∅ → ip_good ge → (∃ g s, w_mem w = put_ipGroups g s m0 ∧ ip_loaded done g s) →
  (∀ he, he ∈ done → ip_apart ge he) →
  ∃ w', import_ipGroup tenant mode ge w = (w', Ok true) ∧ ∃ g s, w_mem w' = put_ipGroups g s m0 ∧ ip_loaded (done ++ [ge]) g s.
Proof.
  intros Hm0 Hgood (g & s & Hm & Hlg & Hls) Ha. assert (Hc : calm w) by (unfold calm; by rewrite Hm). assert (Hid := ip_good_id _ Hgood).
  assert (Hkey : ∀ y, y ∈ done → (ig_ID ∘ ie_Group) ge ≠ (ig_ID ∘ ie_Group) y) by (intros y Hy; apply (Ha y Hy)).
  assert (Hg : GetIPGroup tenant (ig_ID (ie_Group ge)) w = (w, Err ErrNotFound)).
  { unfold GetIPGroup. rewrite (bind_Ok mem _ _ _ _ eq_refl), Hm. cbn. change (ig_ID (ie_Group ge)) with ((ig_ID ∘ ie_Group) ge).
    by rewrite (loaded_no_row _ _ _ _ _ Hlg Hkey). }
  set (x' := (let g := ie_Group ge in {| g with ig_TenantID := tenant |})).
  assert (Hcl : map_any (λ ex, (ig_TenantID ex =s ig_TenantID x') && (ig_Name ex =s ig_Name x')) (mem_ipGroups (w_mem w)) = false).
  { rewrite Hm. apply (loaded_no_clash _ _ _ _ _ Hlg). intros y t Hy. destruct (Ha y Hy) as (_ & Hn & _). cbn. by rewrite String.eqb_refl, (neq_eqb _ _ Hn). }
  destruct (CreateIPGroup x' w) as [w1 r] eqn:E. pose proof E as Ec. create_new (@CreateIPGroup) Hc Hid Hcl E.
  set (g1 := <[ig_ID (ie_Group ge) := restored_ipGroup (ie_Group ge) (env_clock (w_ticks w))]> g).
  assert (Hm1 : w_mem w1 = put_ipGroups g1 s m0) by (rewrite <- E; cbn; by rewrite Hm).
  destruct (ip_members_load m0 g1 done ge s w1 Hm0 Hgood Ha) as (w2 & s2 & E2 & Hm2 & Hl2); [subst g1; by rewrite lookup_insert_eq|exact Hm1|done|].
  exists w2. split.
  - eapply import_row_new; [exact Hg|]. change (ig_ID x') with (ig_ID (ie_Group ge)) in *. cbv zeta. fold x'. rewrite (bind_Ok _ _ _ _ _ Ec). exact E2.
  - exists g1, s2. split; [done|]. split; [|done]. by apply (loaded_snoc (ig_ID ∘ ie_Group) (λ ge, restored_ipGroup (ie_Group ge))).
Qed.

Definition restored_hostMember (p : string * HostGroupMember) (t : Time) : HostGroupMember :=
  let x := snd p in {| x with hm_TenantID := tenant; hm_HostGroupID := fst p |}.
Definition host_pairs (l : list HostGroupExport) : list (string * HostGroupMember) :=
  l ≫= λ ge, (pair (hgr_ID (he_Group ge))) <$> he_Members ge.
Definition put_hostGroups (g : gmap string HostGroup) (s : gmap string HostGroupMember) (m : Mem) : Mem := {| m with mem_hostGroups := g; mem_hostMembers := s |}.
Definition host_member_apart (p q : string * HostGroupMember) : Prop :=
  hm_ID (snd p) ≠ hm_ID (snd q) ∧ (fst p = fst q → hm_DeviceID (snd p) ≠ hm_DeviceID (snd q)).

Lemma add_hostMember_new done p w : calm w → hm_ID (snd p) ≠ ""%string →
  (∃ g, mem_hostGroups (w_mem w) !! fst p = Some g ∧ hgr_TenantID g = tenant) →
  loaded (hm_ID ∘ snd) restored_hostMember done (mem_hostMembers (w_mem w)) → (∀ q, q ∈ done → host_member_apart p q) →
  ∃ w', (let x := snd p in AddHostGroupMember {| x with hm_TenantID := tenant; hm_HostGroupID := fst p |}) w = (w', Ok ()) ∧
    w_mem w' = (let m := w_mem w in put_hostGroups (mem_hostGroups m) (<[hm_ID (snd p) := restored_hostMember p time_zero]> (mem_hostMembers m)) m).
Proof.
  intros Hc Hid (g & Hg & Hgt) Hl Ha. cbv zeta. set (x' := (let x := snd p in {| x with hm_TenantID := tenant; hm_HostGroupID := fst p |})).
  change ({| hm_ID := _ |}) with x'. unfold AddHostGroupMember. rewrite calm_fail by exact Hc. rewrite (bind_Ok mem _ _ _ _ eq_refl). cbv beta.
  change (hm_HostGroupID x') with (fst p). change (hm_TenantID x') with tenant. rewrite Hg, Hgt, String.eqb_refl. cbn [negb].
  assert (Hcl : map_any (λ ex, (hm_HostGroupID ex =s fst p) && (hm_DeviceID ex =s hm_DeviceID x')) (mem_hostMembers (w_mem w)) = false).
  { apply (loaded_no_clash _ _ _ _ _ Hl). intros q t Hq. destruct (Ha q Hq) as [_ Hv]. cbn. destruct (fst q =s fst p) eqn:E; [|done]. apply String.eqb_eq in E.
    apply neq_eqb, Hv. congruence. }
  rewrite Hcl. destruct (is_empty (hm_ID x')) eqn:Eid; [by apply is_empty_spec in Eid|].
  eexists. split; [reflexivity|]. done.
Qed.

Record host_good (ge : HostGroupExport) : Prop := {
  host_good_id : hgr_ID (he_Group ge) ≠ ""%string;
  host_good_members : Forall (λ x, hm_ID x ≠ ""%string) (he_Members ge);
  host_good_apart : ForallOrdPairs (λ y x, hm_ID x ≠ hm_ID y ∧ hm_DeviceID x ≠ hm_DeviceID y) (he_Members ge) }.
Definition host_apart (ge he : HostGroupExport) : Prop :=
  hgr_ID (he_Group ge) ≠ hgr_ID (he_Group he) ∧ hgr_Name (he_Group ge) ≠ hgr_Name (he_Group he) ∧
  ∀ x y, x ∈ he_Members ge → y ∈ he_Members he → hm_ID x ≠ hm_ID y.

Definition host_loaded (done : list HostGroupExport) (g : gmap string HostGroup) (s : gmap string HostGroupMember) : Prop :=
  loaded (hgr_ID ∘ he_Group) (λ ge, restored_hostGroup (he_Group ge)) done g ∧ loaded (hm_ID ∘ snd) restored_hostMember (host_pairs done) s.

Lemma elem_of_host_pairs p l : p ∈ host_pairs l ↔ ∃ ge, ge ∈ l ∧ fst p = hgr_ID (he_Group ge) ∧ snd p ∈ he_Members ge.
Proof.
  unfold host_pairs. rewrite list_elem_of_bind. split.
  - intros (ge & Hp & Hge). apply list_elem_of_fmap in Hp as (x & -> & Hx). by exists ge.
  - intros (ge & Hge & Hf & Hs). exists ge. split; [|done]. apply list_elem_of_fmap. exists (snd p). destruct p. cbn in *. by subst.
Qed.

Lemma host_members_load m0 g0 done ge s w : mem_failNext m0 = ∅ → host_good ge → (∀ he, he ∈ done → host_apart ge he) →
  g0 !! hgr_ID (he_Group ge) = Some (restored_hostGroup (he_Group ge) (hgr_UpdatedAt (default zero_HostGroup (g0 !! hgr_ID (he_Group ge))))) →
  w_mem w = put_hostGroups g0 s m0 → loaded (hm_ID ∘ snd) restored_hostMember (host_pairs done) s →
  ∃ w' s', mapM_ (λ x, AddHostGroupMember {| x with hm_TenantID := tenant; hm_HostGroupID := hgr_ID (he_Group ge) |}) (he_Members ge) w = (w', Ok ()) ∧
    w_mem w' = put_hostGroups g0 s' m0 ∧ loaded (hm_ID ∘ snd) restored_hostMember (host_pairs (done ++ [ge])) s'.
Proof.
  intros Hc [Hid Hms Hap] Hd Hg Hw Hl. set (gid := hgr_ID (he_Group ge)) in *.
  destruct (load_from (λ x, AddHostGroupMember {| x with hm_TenantID := tenant; hm_HostGroupID := gid |}) ()
    (λ l m, ∃ s, m = put_hostGroups g0 s m0 ∧ loaded (hm_ID ∘ snd) restored_hostMember (host_pairs done ++ (pair gid <$> l)) s)
    (λ x, hm_ID x ≠ ""%string ∧ x ∈ he_Members ge) (λ x y, hm_ID x ≠ hm_ID y ∧ hm_DeviceID x ≠ hm_DeviceID y)) with (l := he_Members ge) (done := @nil HostGroupMember) (w := w)
    as (w' & E & s' & Hm & Hl'); [|exists s; by rewrite app_nil_r| |exact Hap|].
  - intros l x w1 [Hx Hxin] (s1 & Hm1 & Hl1) Hxl.
    destruct (add_hostMember_new (host_pairs done ++ (pair gid <$> l)) (gid, x) w1) as (w2 & E & Hm2); [unfold calm; by rewrite Hm1|done| |by rewrite Hm1| |].
    + eexists. split; [rewrite Hm1; exact Hg|done].
    + intros q [Hq|Hq]%elem_of_app.
      * apply elem_of_host_pairs in Hq as (he & Hhe & Hf & Hs). destruct (Hd he Hhe) as (Hne & _ & Hxy). split; [by apply Hxy|]. cbn. rewrite Hf. intros E. by destruct Hne.
      * apply list_elem_of_fmap in Hq as (y & -> & Hy). destruct (Hxl y Hy) as [Hne Hv]. by split.
    + exists w2. split; [exact E|]. rewrite Hm1 in Hm2. eexists. split; [exact Hm2|]. cbn. rewrite fmap_app, app_assoc. cbn.
      apply (loaded_snoc (hm_ID ∘ snd) restored_hostMember _ (gid, x) time_zero); [done|]. intros q [Hq|Hq]%elem_of_app.
      * apply elem_of_host_pairs in Hq as (he & Hhe & Hf & Hs). destruct (Hd he Hhe) as (_ & _ & Hxy). by apply Hxy.
      * apply list_elem_of_fmap in Hq as (y & -> & Hy). by destruct (Hxl y Hy).
  - rewrite Forall_forall in Hms |- *. auto.
  - exists w', s'. split_and!; [by eapply mapM_run_|exact Hm|]. unfold host_pairs. rewrite bind_app. cbn. by rewrite app_nil_r.
Qed.

Lemma import_hostGroup_new m0 done ge w : mem_failNext m0 = ∅ → host_good ge → (∃ g s, w_mem w = put_hostGroups g s m0 ∧ host_loaded done g s) →
  (∀ he, he ∈ done → host_apart ge he) →
  ∃ w', import_hostGroup tenant mode ge w = (w', Ok true) ∧ ∃ g s, w_mem w' = put_hostGroups g s m0 ∧ host_loaded (done ++ [ge]) g s.
Proof.
  intros Hm0 Hgood (g & s & Hm & Hlg & Hls) Ha. assert (Hc : calm w) by (unfold calm; by rewrite Hm). assert (Hid := host_good_id _ Hgood).
  assert (Hkey : ∀ y, y ∈ done → (hgr_ID ∘ he_Group) ge ≠ (hgr_ID ∘ he_Group) y) by (intros y Hy; apply (Ha y Hy)).
  assert (Hg : GetHostGroup tenant (hgr_ID (he_Group ge)) w = (w, Err ErrNotFound)).
  { unfold GetHostGroup. rewrite (bind_Ok mem _ _ _ _ eq_refl), Hm. cbn. change (hgr_ID (he_Group ge)) with ((hgr_ID ∘ he_Group) ge).
    by rewrite (loaded_no_row _ _ _ _ _ Hlg Hkey). }
  set (x' := (let g := he_Group ge in {| g with hgr_TenantID := tenant |})).
  assert (Hcl : map_any (λ ex, (hgr_TenantID ex =s hgr_TenantID x') && (hgr_Name ex =s hgr_Name x')) (mem_hostGroups (w_mem w)) = false).
  { rewrite Hm. apply (loaded_no_clash _ _ _ _ _ Hlg). intros y t Hy. destruct (Ha y Hy) as (_ & Hn & _). cbn. by rewrite String.eqb_refl, (neq_eqb _ _ Hn). }
  destruct (CreateHostGroup x' w) as [w1 r] eqn:E. pose proof E as Ec. create_new (@CreateHostGroup) Hc Hid Hcl E.
  set (g1 := <[hgr_ID (he_Group ge) := restored_hostGroup (he_Group ge) (env_clock (w_ticks w))]> g).
  assert (Hm1 : w_mem w1 = put_hostGroups g1 s m0) by (rewrite <- E; cbn; by rewrite Hm).
  destruct (host_members_load m0 g1 done ge s w1 Hm0 Hgood Ha) as (w2 & s2 & E2 & Hm2 & Hl2); [subst g1; by rewrite lookup_insert_eq|exact Hm1|done|].
  exists w2. split.
  - eapply import_row_new; [exact Hg|]. change (hgr_ID x') with (hgr_ID (he_Group ge)) in *. cbv zeta. fold x'. rewrite (bind_Ok _ _ _ _ _ Ec). exact E2.
  - exists g1, s2. split; [done|]. split; [|done]. by apply (loaded_snoc (hgr_ID ∘ he_Group) (λ ge, restored_hostGroup (he_Group ge))).
Qed.
End rows.
