(* ===== verification/BackupRound.v ===== *)
(** * A backup restores the tenant it was made of

    What [Export] collects page by page ([Export_run]), why its rows can be
    imported without a conflict ([exported_importable]) and what importing them
    into an empty store gives ([Import_new]), put together in
    [backup_roundtrip].  [overwrite_forgets_parent] is a run in which an import
    in overwrite mode loses the parent of a child listed before it. *)

From S2P Require Import Prelude Models Store MemNet MemDev MemCat MemScan Events Authz Snmpcred Subnets MemInv Backup BackupProps.

(** ** Pages *)

Lemma take_limit_take {T} (l : list T) : take_limit pageSize l = take 500 l.
Proof.
  unfold take_limit. change (0 <? pageSize) with true. cbn [andb]. change (Z.to_nat pageSize) with 500%nat.
  destruct (pageSize <? Z.of_nat (length l)) eqn:E; [done|]. unfold pageSize in E. bool_hyps. rewrite take_ge; [done|lia].
Qed.

(** The loop returns every row, newest first: a round takes a page off the
    rest, so that as many rounds as rows and one more are enough. *)
Lemma collect_pages {T U} (id : T → string) (page_after : string → M (list T)) (each : list T → M (list U)) (g : T → T) (h : T → U) items w :
  NoDup (id <$> items) → Forall (λ x, id x ≠ ""%string) items → (∀ x, id (g x) = id x) →
  (∀ c, page_after c w = (w, Ok (g <$> paginate id c pageSize items))) → (∀ l, each l w = (w, Ok (h <$> l))) →
  ∀ fuel, (length items < fuel)%nat → collect id page_after each fuel "" w = (w, Ok ((h ∘ g) <$> newest_first id items)).
Proof.
  intros Hnd Hne Hg Hp He.
  assert (Hgo : ∀ fuel pre rest c, newest_first id items = pre ++ rest → paginate id c pageSize items = take 500 rest → (length rest < fuel)%nat →
    collect id page_after each fuel c w = (w, Ok ((h ∘ g) <$> rest))).
  { induction fuel as [|fuel IH]; intros pre rest c Hn Hc Hf; [lia|]. cbn [collect]. rewrite (bind_Ok _ _ _ _ _ (Hp c)), (bind_Ok _ _ _ _ _ (He _)), Hc.
    rewrite !length_fmap. destruct (Z.of_nat (length (take 500 rest)) <? pageSize) eqn:E.
    - unfold pageSize in E. bool_hyps. rewrite length_take in E. rewrite take_ge by lia. by rewrite list_fmap_compose.
    - unfold pageSize in E. bool_hyps. rewrite length_take in E.
      destruct (decide (take 500 rest = [])) as [Hnil|Hnn]; [apply (f_equal length) in Hnil; rewrite length_take in Hnil; change (length []) with 0%nat in Hnil; lia|].
      destruct (exists_last Hnn) as (pre' & x & Hx). rewrite Hx. replace (last (g <$> pre' ++ [x])) with (Some (g x)) by (rewrite fmap_app; cbn; by rewrite last_snoc). cbv iota beta.
      assert (Hrest : rest = pre' ++ x :: drop 500 rest) by (rewrite <- (take_drop 500 rest) at 1; rewrite Hx; by rewrite <- app_assoc).
      assert (Hcur : paginate id (id (g x)) pageSize items = take 500 (drop 500 rest)).
      { rewrite Hg. rewrite (paginate_next id pageSize items (pre ++ pre') x (drop 500 rest)); [apply take_limit_take|done|by rewrite <- app_assoc, <- Hrest|].
        apply not_true_iff_false. rewrite is_empty_spec. rewrite Forall_forall in Hne. apply Hne.
        rewrite <- (sort_by_perm (λ a b : T, str_ltb (id b) (id a)) items). fold (newest_first id items). rewrite Hn, Hrest. set_solver. }
      rewrite (bind_Ok _ _ _ _ _ (IH (pre ++ pre' ++ [x]) (drop 500 rest) (id (g x)) ltac:(rewrite Hn, Hrest at 1; by rewrite <- !app_assoc) Hcur ltac:(rewrite length_drop; lia))).
      unfold mret, M_ret. do 2 f_equal. rewrite Hrest at 2. rewrite !fmap_app, !list_fmap_compose. cbn. by rewrite <- app_assoc. }
  intros fuel Hf. apply (Hgo fuel [] (newest_first id items)); [done|by rewrite paginate_first, take_limit_take|].
  unfold newest_first. by rewrite sort_by_perm.
Qed.

(** ** What an export holds *)

Section export.
Context `{Env} (m : Mem) (tenant : string).

Definition snmp_index : Index :=
  NewIndex (paginate sn_ID "" 0 (map_select (λ s, sn_TenantID s =s tenant) (mem_subnets m)))
    (sort_by (λ a b, str_ltb (ss_SubnetID a) (ss_SubnetID b)) ((λ r, {| r with ss_Sealed := "" |}) <$> map_select (λ r, ss_TenantID r =s tenant) (mem_snmp m))).

Definition exported_subnets : list Subnet :=
  export_subnet snmp_index <$> newest_first sn_ID (map_select (λ s, sn_TenantID s =s tenant) (mem_subnets m)).
Definition exported_addrs : list IPAddress :=
  sanitizeAddress <$> newest_first ad_ID (decorateAddrLocked m <$> map_select (λ a, ad_TenantID a =s tenant) (mem_addrs m)).
Definition exported_devices : list Device :=
  (λ d, sanitizeDevice (fillDevice m d)) <$> newest_first dv_ID (map_select (λ d, dv_TenantID d =s tenant) (mem_devices m)).
Definition exported_vlans : list Vlan :=
  fillVlan m <$> newest_first vl_ID (map_select (λ v, vl_TenantID v =s tenant) (mem_vlans m)).
Definition exported_locs : list Location :=
  (λ l, sanitizeLocation (fillLocation m l)) <$> newest_first lc_ID (map_select (λ l, lc_TenantID l =s tenant) (mem_locs m)).

(** Deterministic view of the groups with their members. *)
Definition ip_group_view (g : IPGroup) : IPGroup := {| g with ig_MemberCount := ipGroupMemberCount m tenant (ig_ID g) |}.
Definition ip_members_by_group : gmap string (list IPGroupMember) :=
  sort_by ip_member_less <$> foldr (λ x acc, <[im_IPGroupID x := x :: default [] (acc !! im_IPGroupID x)]> acc)
    (∅ : gmap string (list IPGroupMember)) (map_select (λ x, (im_TenantID x =s tenant) && true) (mem_ipMembers m)).
Definition exported_ipGroups : list IPGroupExport :=
  (λ g, {| ie_Group := g; ie_Members := default [] (ip_members_by_group !! ig_ID g) |}) <$>
    newest_first ig_ID (ip_group_view <$> map_select (λ g, (ig_TenantID g =s tenant) && true) (mem_ipGroups m)).

Definition host_group_view (g : HostGroup) : HostGroup := {| g with hgr_MemberCount := hostGroupMemberCount m tenant (hgr_ID g) |}.
Definition host_group_export (g : HostGroup) : HostGroupExport :=
  {| he_Group := g; he_Members := sort_by host_member_less (enrichHostMember m <$> map_select (host_member_of tenant (hgr_ID g)) (mem_hostMembers m)) |}.
Definition exported_hostGroups : list HostGroupExport :=
  (λ g, host_group_export (host_group_view g)) <$> newest_first hgr_ID (map_select (λ g, hgr_TenantID g =s tenant) (mem_hostGroups m)).

Definition exported (t : Time) : Backup :=
  {| bk_SchemaVersion := SchemaVersion; bk_ExportedAt := t; bk_Subnets := exported_subnets; bk_Addresses := exported_addrs;
     bk_Devices := exported_devices; bk_Vlans := exported_vlans; bk_Locations := exported_locs; bk_IPGroups := exported_ipGroups;
     bk_HostGroups := exported_hostGroups |}.
End export.

Lemma map_select_ext {V} (P Q : V → bool) (t : gmap string V) : (∀ v, P v = Q v) → map_select P t = map_select Q t.
Proof. intros HPQ. unfold map_select. by apply List.filter_ext. Qed.

Lemma map_select_size {V} (P : V → bool) (t : gmap string V) : (length (map_select P t) < S (size t))%nat.
Proof.
  unfold map_select, rows. rewrite <- length_map_to_list, <- (length_fmap snd (map_to_list t)). apply Nat.lt_succ_r. apply filter_length_le.
Qed.

(** No row is stored under the empty id. *)
Record ids_set (m : Mem) : Prop := {
  is_subnets : mem_subnets m !! ""%string = None; is_addrs : mem_addrs m !! ""%string = None; is_devices : mem_devices m !! ""%string = None;
  is_vlans : mem_vlans m !! ""%string = None; is_locs : mem_locs m !! ""%string = None; is_ipGroups : mem_ipGroups m !! ""%string = None;
  is_hostGroups : mem_hostGroups m !! ""%string = None; is_ipMembers : mem_ipMembers m !! ""%string = None;
  is_hostMembers : mem_hostMembers m !! ""%string = None }.

Lemma select_ids {V} (id : V → string) P (t : gmap string V) : keyed id t → t !! ""%string = None → Forall (λ x, id x ≠ ""%string) (map_select P t).
Proof.
  intros Hk Hn. apply Forall_forall. intros x Hx E. apply elem_of_map_select in Hx as (_ & k & Hx). pose proof (Hk _ _ Hx) as Hid.
  rewrite E in Hid. subst k. by rewrite Hx in Hn.
Qed.

Section export_run.
Context `{Env}.

(** One table of the export: [view] is what a page shows of a row, [clean] its
    sanitizer. *)
Lemma export_table {V} (id : V → string) (own : V → string) (t : gmap string V) (view clean : V → V) tenant (P : string → V → bool) page_after w :
  keyed id t → t !! ""%string = None → (∀ x, id (view x) = id x) → (∀ c v, P c v = (own v =s tenant)) →
  (∀ c, page_after c w = (w, Ok (view <$> paginate id c pageSize (map_select (P c) t)))) →
  collect id page_after (λ page, mret (clean <$> page)) (S (size t)) "" w =
    (w, Ok ((λ x, clean (view x)) <$> newest_first id (map_select (λ v, own v =s tenant) t))).
Proof.
  intros Hk Hn Hv HP Hp. apply (collect_pages id _ _ view clean (map_select (λ v, own v =s tenant) t) w).
  - by apply keyed_select_NoDup.
  - by apply select_ids.
  - done.
  - intros c. rewrite Hp. by rewrite (map_select_ext _ _ t (HP c)).
  - done.
  - apply map_select_size.
Qed.

Lemma export_addrs m tenant w : w_mem w = m → calm w → addrs_ok (mem_addrs m) → mem_addrs m !! ""%string = None →
  collect ad_ID (λ c, ListAddresses tenant {| zero_AddressFilter with af_Limit := pageSize; af_CursorID := c |})
    (λ page, mret (sanitizeAddress <$> page)) (S (size (mem_addrs m))) "" w = (w, Ok (exported_addrs m tenant)).
Proof.
  intros <- Hc [Hk _] Hn. unfold exported_addrs.
  erewrite (collect_pages ad_ID _ _ (λ x, x) sanitizeAddress (decorateAddrLocked (w_mem w) <$> map_select (λ a, ad_TenantID a =s tenant) (mem_addrs (w_mem w))) w).
  - done.
  - rewrite <- list_fmap_compose. by apply keyed_select_NoDup.
  - apply Forall_fmap. by apply select_ids.
  - done.
  - intros c. unfold ListAddresses. rewrite calm_fail by done. rewrite (bind_Ok mem _ _ _ _ eq_refl). cbn [af_CursorID af_Limit]. rewrite list_fmap_id.
    erewrite (map_select_ext (address_matches _ _)); [reflexivity|]. intros v. unfold address_matches. cbn. by rewrite !andb_true_r.
  - done.
  - rewrite length_fmap. apply map_select_size.
Qed.

Lemma export_devices m tenant w : w_mem w = m → devices_ok (mem_devices m) → mem_devices m !! ""%string = None →
  collect dv_ID (λ c, ListDevices tenant {| zero_DeviceFilter with df_Limit := pageSize; df_CursorID := c |})
    (λ page, mret (sanitizeDevice <$> page)) (S (size (mem_devices m))) "" w = (w, Ok (exported_devices m tenant)).
Proof.
  intros <- [Hk _] Hn. apply (export_table dv_ID dv_TenantID _ (fillDevice (w_mem w)) sanitizeDevice tenant
    (λ c, device_matches (w_mem w) tenant {| zero_DeviceFilter with df_Limit := pageSize; df_CursorID := c |})); try done.
  intros c v. unfold device_matches. cbn. by rewrite !andb_true_r.
Qed.

Lemma export_vlans m tenant w : w_mem w = m → vlans_ok (mem_vlans m) → mem_vlans m !! ""%string = None →
  collect vl_ID (λ c, ListVlans tenant {| zero_VlanFilter with vf_Limit := pageSize; vf_CursorID := c |})
    mret (S (size (mem_vlans m))) "" w = (w, Ok (exported_vlans m tenant)).
Proof.
  intros <- [Hk _] Hn. apply (collect_pages vl_ID _ _ (fillVlan (w_mem w)) (λ x, x) (map_select (λ v, vl_TenantID v =s tenant) (mem_vlans (w_mem w))) w).
  - by apply keyed_select_NoDup.
  - by apply select_ids.
  - done.
  - intros c. unfold ListVlans. rewrite (bind_Ok mem _ _ _ _ eq_refl). cbn [vf_CursorID vf_Limit].
    rewrite (map_select_ext (vlan_matches _ _) (λ v, vl_TenantID v =s tenant)); [done|]. intros v. unfold vlan_matches. cbn. by rewrite !andb_true_r.
  - intros l. by rewrite list_fmap_id.
  - apply map_select_size.
Qed.

Lemma export_locs m tenant w : w_mem w = m → locs_ok (mem_locs m) → mem_locs m !! ""%string = None →
  collect lc_ID (λ c, ListLocations tenant {| zero_LocationFilter with lf_Limit := pageSize; lf_CursorID := c |})
    (λ page, mret (sanitizeLocation <$> page)) (S (size (mem_locs m))) "" w = (w, Ok (exported_locs m tenant)).
Proof.
  intros <- [Hk _] Hn. apply (export_table lc_ID lc_TenantID _ (fillLocation (w_mem w)) sanitizeLocation tenant
    (λ c, location_matches tenant {| zero_LocationFilter with lf_Limit := pageSize; lf_CursorID := c |})); try done.
  intros c v. unfold location_matches. cbn. by rewrite !andb_true_r.
Qed.

Lemma mapM_read {A B} (f : A → M B) (g : A → B) w l : (∀ x, f x w = (w, Ok (g x))) → mapM f l w = (w, Ok (g <$> l)).
Proof.
  intros Hf. induction l as [|x l IH]; [done|]. cbn [mapM foldr]. fold (mapM f). rewrite (bind_Ok _ _ _ _ _ (Hf x)). by rewrite (bind_Ok _ _ _ _ _ IH).
Qed.

Lemma export_hostGroups m tenant w : w_mem w = m → hostGroups_ok (mem_hostGroups m) → mem_hostGroups m !! ""%string = None →
  collect hgr_ID (ListHostGroups tenant pageSize)
    (mapM (λ g, members ← ListHostGroupMembers tenant (hgr_ID g); mret {| he_Group := g; he_Members := members |}))
    (S (size (mem_hostGroups m))) "" w = (w, Ok (exported_hostGroups m tenant)).
Proof.
  intros <- [Hk _] Hn. apply (collect_pages hgr_ID _ _ (host_group_view (w_mem w) tenant) (host_group_export (w_mem w) tenant)
    (map_select (λ g, hgr_TenantID g =s tenant) (mem_hostGroups (w_mem w))) w); try done.
  - by apply keyed_select_NoDup.
  - by apply select_ids.
  - intros l. by apply mapM_read.
  - apply map_select_size.
Qed.

(** An export reads the tenant's rows and changes nothing. *)
Lemma Export_run subj inc w : su_TenantID subj ≠ ""%string → calm w → mem_ok (w_mem w) → ids_set (w_mem w) →
  ∃ w' t, w_mem w' = w_mem w ∧ Export subj inc w = (w', Ok (exported (w_mem w) (su_TenantID subj) t)).
Proof.
  intros Ht Hc Hok Hids. unfold Export. rewrite RequireTenant_self by done.
  assert (Hl : ∀ B (k : () → M B), (lift (Ok ()) ≫= k) w = k () w) by done. rewrite Hl. cbv zeta.
  set (tenant := su_TenantID subj) in *. set (w1 := {| w with w_ticks := S (w_ticks w) |}). assert (Hc1 : calm w1) by exact Hc.
  exists w1, (env_clock (w_ticks w)). split; [done|].
  rewrite (bind_Ok now _ w w1 _ eq_refl).
  assert (Es : AllSubnetCIDRs tenant w1 = (w1, Ok (newest_first sn_ID (map_select (λ s, sn_TenantID s =s tenant) (mem_subnets (w_mem w)))))).
  { unfold AllSubnetCIDRs. by rewrite calm_fail by done. }
  rewrite (bind_Ok _ _ _ _ _ Es).
  assert (Ei : SNMPIndex tenant w1 = (w1, Ok (snmp_index (w_mem w) tenant))).
  { unfold SNMPIndex. rewrite (bind_Ok _ _ _ _ _ Es). unfold ListSubnetSNMP, mbind at 1, M_bind at 1. by rewrite calm_fail by done. }
  rewrite (bind_Ok _ _ _ _ _ Ei), (bind_Ok mem _ w1 w1 (w_mem w) eq_refl).
  rewrite (bind_Ok _ _ _ _ _ (export_addrs (w_mem w) tenant w1 eq_refl Hc1 (ok_addrs _ Hok) (is_addrs _ Hids))).
  rewrite (bind_Ok _ _ _ _ _ (export_devices (w_mem w) tenant w1 eq_refl (ok_devices _ Hok) (is_devices _ Hids))).
  rewrite (bind_Ok _ _ _ _ _ (export_vlans (w_mem w) tenant w1 eq_refl (ok_vlans _ Hok) (is_vlans _ Hids))).
  rewrite (bind_Ok _ _ _ _ _ (export_locs (w_mem w) tenant w1 eq_refl (ok_locs _ Hok) (is_locs _ Hids))).
  assert (Eg : AllIPGroupsWithMembers tenant [] w1 = (w1, Ok (newest_first ig_ID (ip_group_view (w_mem w) tenant <$>
    map_select (λ g, (ig_TenantID g =s tenant) && true) (mem_ipGroups (w_mem w))), ip_members_by_group (w_mem w) tenant))) by done.
  rewrite (bind_Ok _ _ _ _ _ Eg).
  rewrite (bind_Ok _ _ _ _ _ (export_hostGroups (w_mem w) tenant w1 eq_refl (ok_hostGroups _ Hok) (is_hostGroups _ Hids))). done.
Qed.
End export_run.

(** ** Importing into an empty store *)

Record blank (m : Mem) : Prop := {
  blank_subnets : mem_subnets m = ∅; blank_addrs : mem_addrs m = ∅; blank_devices : mem_devices m = ∅; blank_vlans : mem_vlans m = ∅;
  blank_locs : mem_locs m = ∅; blank_ipGroups : mem_ipGroups m = ∅; blank_hostGroups : mem_hostGroups m = ∅;
  blank_ipMembers : mem_ipMembers m = ∅; blank_hostMembers : mem_hostMembers m = ∅ }.

(** Rows with ids of their own that clash with no other row of the file. *)
Definition distinct {T} (key : T → string) (apart : T → T → Prop) (l : list T) : Prop :=
  Forall (λ x, key x ≠ ""%string) l ∧ ForallOrdPairs (λ y x, key x ≠ key y ∧ apart x y) l.

Record importable (b : Backup) : Prop := {
  imp_subnets : distinct sn_ID (λ x y, sn_Name x ≠ sn_Name y) (bk_Subnets b);
  imp_addrs : distinct ad_ID (λ x y, ad_Address x ≠ ad_Address y) (bk_Addresses b);
  imp_devices : distinct dv_ID (λ x y, dv_Name x ≠ dv_Name y) (bk_Devices b);
  imp_vlans : distinct vl_ID vlan_apart (bk_Vlans b);
  imp_locs : distinct lc_ID loc_apart (bk_Locations b);
  imp_ipGroups : Forall ip_good (bk_IPGroups b) ∧ ForallOrdPairs (λ y x, ip_apart x y) (bk_IPGroups b);
  imp_hostGroups : Forall host_good (bk_HostGroups b) ∧ ForallOrdPairs (λ y x, host_apart x y) (bk_HostGroups b) }.

Section import_run.
Context `{Env}.

(** The store after an import of [b] for [tenant]. *)
Record restored_from (tenant : string) (b : Backup) (m : Mem) : Prop := {
  rf_subnets : loaded sn_ID (restored_subnet tenant) (bk_Subnets b) (mem_subnets m);
  rf_addrs : loaded ad_ID (restored_address tenant) (bk_Addresses b) (mem_addrs m);
  rf_devices : loaded dv_ID (restored_device tenant) (bk_Devices b) (mem_devices m);
  rf_vlans : loaded vl_ID (restored_vlan tenant) (bk_Vlans b) (mem_vlans m);
  rf_locs : loaded lc_ID (restored_location tenant) (bk_Locations b) (mem_locs m);
  rf_ipGroups : ip_loaded tenant (bk_IPGroups b) (mem_ipGroups m) (mem_ipMembers m);
  rf_hostGroups : host_loaded tenant (bk_HostGroups b) (mem_hostGroups m) (mem_hostMembers m) }.

Lemma import_ipGroups_new tenant mode l w : calm w → mem_ipGroups (w_mem w) = ∅ → mem_ipMembers (w_mem w) = ∅ →
  Forall ip_good l → ForallOrdPairs (λ y x, ip_apart x y) l →
  ∃ w' g s, mapM (import_ipGroup tenant mode) l w = (w', Ok (replicate (length l) true)) ∧ w_mem w' = put_ipGroups g s (w_mem w) ∧ ip_loaded tenant l g s.
Proof.
  intros Hc Hg Hs Hgood Hap.
  destruct (load_from (import_ipGroup tenant mode) true (λ done m, ∃ g s, m = put_ipGroups g s (w_mem w) ∧ ip_loaded tenant done g s) ip_good ip_apart)
    with (l := l) (done := @nil IPGroupExport) (w := w) as (w' & E & g & s & Hm & Hl); [|exists ∅, ∅|done|done|by exists w', g, s].
  - intros done x w1 Hx Hi Hy. by apply import_ipGroup_new.
  - split; [|split; apply loaded_empty]. rewrite <- Hg at 1. rewrite <- Hs at 1. by destruct (w_mem w).
Qed.

Lemma import_hostGroups_new tenant mode l w : calm w → mem_hostGroups (w_mem w) = ∅ → mem_hostMembers (w_mem w) = ∅ →
  Forall host_good l → ForallOrdPairs (λ y x, host_apart x y) l →
  ∃ w' g s, mapM (import_hostGroup tenant mode) l w = (w', Ok (replicate (length l) true)) ∧ w_mem w' = put_hostGroups g s (w_mem w) ∧ host_loaded tenant l g s.
Proof.
  intros Hc Hg Hs Hgood Hap.
  destruct (load_from (import_hostGroup tenant mode) true (λ done m, ∃ g s, m = put_hostGroups g s (w_mem w) ∧ host_loaded tenant done g s) host_good host_apart)
    with (l := l) (done := @nil HostGroupExport) (w := w) as (w' & E & g & s & Hm & Hl); [|exists ∅, ∅|done|done|by exists w', g, s].
  - intros done x w1 Hx Hi Hy. by apply import_hostGroup_new.
  - split; [|split; apply loaded_empty]. rewrite <- Hg at 1. rewrite <- Hs at 1. by destruct (w_mem w).
Qed.

Lemma tally_all n : tally (replicate n true) = (Z.of_nat n, 0).
Proof. unfold tally. f_equal; [f_equal|]; induction n as [|n IH]; cbn; congruence || done || (cbn in *; lia). Qed.

Lemma load_locations tenant mode l w : calm w → mem_locs (w_mem w) = ∅ → distinct lc_ID loc_apart l →
  ∃ w' s, mapM (import_location tenant mode) l w = (w', Ok (replicate (length l) true)) ∧ w_mem w' = put_locs s (w_mem w) ∧ calm w' ∧ loaded lc_ID (restored_location tenant) l s.
Proof. intros Hc Ht [Hid Hap]. apply (table_load _ _ _ mem_locs put_locs loc_apart); try done; [by intros []|apply import_location_new]. Qed.
Lemma load_vlans tenant mode l w : calm w → mem_vlans (w_mem w) = ∅ → distinct vl_ID vlan_apart l →
  ∃ w' s, mapM (import_vlan tenant mode) l w = (w', Ok (replicate (length l) true)) ∧ w_mem w' = put_vlans s (w_mem w) ∧ calm w' ∧ loaded vl_ID (restored_vlan tenant) l s.
Proof. intros Hc Ht [Hid Hap]. apply (table_load _ _ _ mem_vlans put_vlans vlan_apart); try done; [by intros []|apply import_vlan_new]. Qed.
Lemma load_subnets tenant mode l w : calm w → mem_subnets (w_mem w) = ∅ → distinct sn_ID (λ x y, sn_Name x ≠ sn_Name y) l →
  ∃ w' s, mapM (import_subnet tenant mode) l w = (w', Ok (replicate (length l) true)) ∧ w_mem w' = put_subnets s (w_mem w) ∧ calm w' ∧ loaded sn_ID (restored_subnet tenant) l s.
Proof. intros Hc Ht [Hid Hap]. apply (table_load _ _ _ mem_subnets put_subnets (λ x y, sn_Name x ≠ sn_Name y)); try done; [by intros []|apply import_subnet_new]. Qed.
Lemma load_devices tenant mode l w : calm w → mem_devices (w_mem w) = ∅ → distinct dv_ID (λ x y, dv_Name x ≠ dv_Name y) l →
  ∃ w' s, mapM (import_device tenant mode) l w = (w', Ok (replicate (length l) true)) ∧ w_mem w' = put_devices s (w_mem w) ∧ calm w' ∧ loaded dv_ID (restored_device tenant) l s.
Proof. intros Hc Ht [Hid Hap]. apply (table_load _ _ _ mem_devices put_devices (λ x y, dv_Name x ≠ dv_Name y)); try done; [by intros []|apply import_device_new]. Qed.
Lemma load_addresses tenant mode l w : calm w → mem_addrs (w_mem w) = ∅ → distinct ad_ID (λ x y, ad_Address x ≠ ad_Address y) l →
  ∃ w' s, mapM (import_address tenant mode) l w = (w', Ok (replicate (length l) true)) ∧ w_mem w' = put_addrs s (w_mem w) ∧ calm w' ∧ loaded ad_ID (restored_address tenant) l s.
Proof. intros Hc Ht [Hid Hap]. apply (table_load _ _ _ mem_addrs put_addrs (λ x y, ad_Address x ≠ ad_Address y)); try done; [by intros []|apply import_address_new]. Qed.

(** Every row of a file without clashes is imported into an empty store, in
    either mode. *)
Lemma Import_new subj b mode w : su_TenantID subj ≠ ""%string → bk_SchemaVersion b = SchemaVersion → calm w → blank (w_mem w) → importable b →
  ∃ w' res, Import subj b mode w = (w', Ok res) ∧ restored_from (su_TenantID subj) b (w_mem w') ∧
    br_Subnets res = (Z.of_nat (length (bk_Subnets b)), 0) ∧ br_Addresses res = (Z.of_nat (length (bk_Addresses b)), 0) ∧
    br_Devices res = (Z.of_nat (length (bk_Devices b)), 0) ∧ br_Vlans res = (Z.of_nat (length (bk_Vlans b)), 0) ∧
    br_Locations res = (Z.of_nat (length (bk_Locations b)), 0) ∧ br_IPGroups res = (Z.of_nat (length (bk_IPGroups b)), 0) ∧
    br_HostGroups res = (Z.of_nat (length (bk_HostGroups b)), 0).
Proof.
  intros Ht Hv Hc [] [Is Ia Id Iv Il Ig Ih]. unfold Import. rewrite RequireTenant_self by done.
  assert (Hl : ∀ B (k : () → M B), (lift (Ok ()) ≫= k) w = k () w) by done. rewrite Hl. cbv zeta. rewrite Hv. change (SchemaVersion =? SchemaVersion) with true. cbn [negb].
  set (mode' := if mode =s ModeOverwrite then mode else ModeSkip). set (tenant := su_TenantID subj) in *.
  destruct (load_locations tenant mode' (bk_Locations b) w) as (w1 & s1 & E1 & Hm1 & Hc1 & L1); [done|done|done|]. rewrite (bind_Ok _ _ _ _ _ E1).
  destruct (load_vlans tenant mode' (bk_Vlans b) w1) as (w2 & s2 & E2 & Hm2 & Hc2 & L2); [done|by rewrite Hm1|done|]. rewrite (bind_Ok _ _ _ _ _ E2).
  destruct (load_subnets tenant mode' (bk_Subnets b) w2) as (w3 & s3 & E3 & Hm3 & Hc3 & L3); [done|by rewrite Hm2, Hm1|done|]. rewrite (bind_Ok _ _ _ _ _ E3).
  destruct (load_devices tenant mode' (bk_Devices b) w3) as (w4 & s4 & E4 & Hm4 & Hc4 & L4); [done|by rewrite Hm3, Hm2, Hm1|done|]. rewrite (bind_Ok _ _ _ _ _ E4).
  destruct (load_addresses tenant mode' (bk_Addresses b) w4) as (w5 & s5 & E5 & Hm5 & Hc5 & L5); [done|by rewrite Hm4, Hm3, Hm2, Hm1|done|]. rewrite (bind_Ok _ _ _ _ _ E5).
  destruct (import_ipGroups_new tenant mode' (bk_IPGroups b) w5) as (w6 & g6 & s6 & E6 & Hm6 & L6); [done|by rewrite Hm5, Hm4, Hm3, Hm2, Hm1|by rewrite Hm5, Hm4, Hm3, Hm2, Hm1|apply Ig|apply Ig|].
  rewrite (bind_Ok _ _ _ _ _ E6).
  destruct (import_hostGroups_new tenant mode' (bk_HostGroups b) w6) as (w7 & g7 & s7 & E7 & Hm7 & L7);
    [unfold calm; by rewrite Hm6|by rewrite Hm6, Hm5, Hm4, Hm3, Hm2, Hm1|by rewrite Hm6, Hm5, Hm4, Hm3, Hm2, Hm1|apply Ih|apply Ih|].
  rewrite (bind_Ok _ _ _ _ _ E7). eexists w7, _. split; [reflexivity|]. cbn [br_Subnets br_Addresses br_Devices br_Vlans br_Locations br_IPGroups br_HostGroups].
  split; [|by rewrite !tally_all]. rewrite Hm7, Hm6, Hm5, Hm4, Hm3, Hm2, Hm1. by split.
Qed.
End import_run.

(** ** An export can be imported *)

Lemma ord_pairs {T} (R : T → T → Prop) l : NoDup l → (∀ x y, x ∈ l → y ∈ l → x ≠ y → R x y) → ForallOrdPairs R l.
Proof.
  induction 1 as [|x l Hx Hl IH]; intros HR; [constructor|]. constructor; [|apply IH; intros; apply HR; set_solver].
  apply Forall_forall. intros y Hy. apply HR; [set_solver|set_solver|]. by intros ->.
Qed.

(** Rows of a table under a view that keeps the id. *)
Lemma view_distinct {V} (id : V → string) (apart : V → V → Prop) (t : gmap string V) (P : V → bool) (view : V → V) l :
  keyed id t → t !! ""%string = None → (∀ x, id (view x) = id x) → l ≡ₚ view <$> map_select P t →
  (∀ k1 k2 v1 v2, t !! k1 = Some v1 → t !! k2 = Some v2 → P v1 = true → P v2 = true → k1 ≠ k2 → apart (view v1) (view v2)) →
  distinct id apart l.
Proof.
  intros Hk Hn Hv Hl Ha. assert (Hnd : NoDup (id <$> l)).
  { rewrite Hl, <- list_fmap_compose. rewrite (list_fmap_ext _ id); [by apply keyed_select_NoDup|]. intros i x _. apply Hv. }
  split.
  - rewrite Hl. apply Forall_fmap. eapply Forall_impl; [by apply (select_ids id P t)|]. intros x Hx. cbn. by rewrite Hv.
  - apply ord_pairs; [by eapply NoDup_fmap_1|]. intros y x Hy Hx Hne. rewrite Hl in Hx, Hy.
    apply list_elem_of_fmap in Hx as (vx & -> & (Px & kx & Hx)%elem_of_map_select). apply list_elem_of_fmap in Hy as (vy & -> & (Py & ky & Hy)%elem_of_map_select).
    rewrite !Hv, (Hk _ _ Hx), (Hk _ _ Hy). assert (kx ≠ ky) by (intros ->; rewrite Hx in Hy; congruence). split; [done|by eapply Ha].
Qed.

(** A unique key tells rows of one tenant apart. *)
Lemma unique_apart {V X} (own : V → string) (name : V → X) (t : gmap string V) tenant k1 k2 v1 v2 :
  unique_on (λ v, Some (own v, name v)) t → t !! k1 = Some v1 → t !! k2 = Some v2 → (own v1 =s tenant) = true → (own v2 =s tenant) = true → k1 ≠ k2 →
  name v1 ≠ name v2.
Proof.
  intros Hu H1 H2 O1%String.eqb_eq O2%String.eqb_eq Hne E. apply Hne. eapply Hu; [exact H1|exact H2|reflexivity|]. by rewrite O1, O2, E.
Qed.

Lemma members_grouped (l : list IPGroupMember) gid :
  default [] (foldr (λ x acc, <[im_IPGroupID x := x :: default [] (acc !! im_IPGroupID x)]> acc) (∅ : gmap string (list IPGroupMember)) l !! gid) =
  List.filter (λ x, im_IPGroupID x =s gid) l.
Proof.
  induction l as [|x l IH]; cbn; [by rewrite lookup_empty|]. destruct (im_IPGroupID x =s gid) eqn:E.
  - apply String.eqb_eq in E. subst gid. rewrite lookup_insert_eq. cbn. by rewrite IH.
  - apply String.eqb_neq in E. by rewrite lookup_insert_ne.
Qed.

Section importable.
Context `{Env} (m : Mem) (tenant : string).
Hypothesis (Hok : mem_ok m) (Hids : ids_set m).

Lemma ip_members_of gid : default [] (ip_members_by_group m tenant !! gid) ≡ₚ
  List.filter (λ x, im_IPGroupID x =s gid) (map_select (λ x, (im_TenantID x =s tenant) && true) (mem_ipMembers m)).
Proof.
  rewrite <- members_grouped. unfold ip_members_by_group. rewrite lookup_fmap. destruct (foldr _ _ _ !! gid); cbn; [apply sort_by_perm|done].
Qed.

Lemma elem_of_ip_members gid x : x ∈ default [] (ip_members_by_group m tenant !! gid) ↔
  im_IPGroupID x = gid ∧ im_TenantID x = tenant ∧ ∃ k, mem_ipMembers m !! k = Some x.
Proof.
  rewrite ip_members_of, list_elem_of_In, filter_In, <- list_elem_of_In, elem_of_map_select, andb_true_r, !String.eqb_eq. naive_solver.
Qed.

Lemma elem_of_host_members gid x : x ∈ he_Members (host_group_export m tenant (host_group_view m tenant gid)) ↔
  ∃ y k, x = enrichHostMember m y ∧ mem_hostMembers m !! k = Some y ∧ hm_TenantID y = tenant ∧ hm_HostGroupID y = hgr_ID gid.
Proof.
  unfold host_group_export. cbn [he_Members]. rewrite sort_by_perm, list_elem_of_fmap. setoid_rewrite elem_of_map_select. unfold host_member_of.
  setoid_rewrite andb_true_iff. setoid_rewrite String.eqb_eq. cbn [hgr_ID host_group_view]. naive_solver.
Qed.

Lemma enrich_keeps x : hm_ID (enrichHostMember m x) = hm_ID x ∧ hm_HostGroupID (enrichHostMember m x) = hm_HostGroupID x ∧
  hm_DeviceID (enrichHostMember m x) = hm_DeviceID x.
Proof. unfold enrichHostMember. by destruct (mem_devices m !! hm_DeviceID x). Qed.

Lemma newest_first_perm {T} (id : T → string) l : newest_first id l ≡ₚ l.
Proof. apply sort_by_perm. Qed.

Lemma exported_subnets_distinct : distinct sn_ID (λ x y, sn_Name x ≠ sn_Name y) (exported_subnets m tenant).
Proof.
  destruct (ok_subnets _ Hok) as [Hk Hu]. apply (view_distinct _ _ (mem_subnets m) (λ s, sn_TenantID s =s tenant) (export_subnet (snmp_index m tenant)));
    [done|apply Hids|done|unfold exported_subnets; by rewrite newest_first_perm|]. intros; cbn. by eapply (unique_apart sn_TenantID sn_Name).
Qed.
Lemma exported_addrs_distinct : distinct ad_ID (λ x y, ad_Address x ≠ ad_Address y) (exported_addrs m tenant).
Proof.
  destruct (ok_addrs _ Hok) as [Hk Hu]. apply (view_distinct _ _ (mem_addrs m) (λ s, ad_TenantID s =s tenant) (λ a, sanitizeAddress (decorateAddrLocked m a)));
    [done|apply Hids|done|unfold exported_addrs; by rewrite newest_first_perm, <- list_fmap_compose|]. intros; cbn. by eapply (unique_apart ad_TenantID ad_Address).
Qed.
Lemma exported_devices_distinct : distinct dv_ID (λ x y, dv_Name x ≠ dv_Name y) (exported_devices m tenant).
Proof.
  destruct (ok_devices _ Hok) as [Hk Hu]. apply (view_distinct _ _ (mem_devices m) (λ s, dv_TenantID s =s tenant) (λ d, sanitizeDevice (fillDevice m d)));
    [done|apply Hids|done|unfold exported_devices; by rewrite newest_first_perm|]. intros; cbn. by eapply (unique_apart dv_TenantID dv_Name).
Qed.
Lemma exported_vlans_distinct : distinct vl_ID vlan_apart (exported_vlans m tenant).
Proof.
  destruct (ok_vlans _ Hok) as (Hk & Hv & Hu). apply (view_distinct _ _ (mem_vlans m) (λ s, vl_TenantID s =s tenant) (fillVlan m));
    [done|apply Hids|done|unfold exported_vlans; by rewrite newest_first_perm|].
  intros. split; cbn; [by eapply (unique_apart vl_TenantID vl_VlanID)|by eapply (unique_apart vl_TenantID vl_Name)].
Qed.
Lemma exported_locs_distinct : distinct lc_ID loc_apart (exported_locs m tenant).
Proof.
  destruct (ok_locs _ Hok) as (Hk & Hu & Hc). apply (view_distinct _ _ (mem_locs m) (λ s, lc_TenantID s =s tenant) (λ l, sanitizeLocation (fillLocation m l)));
    [done|apply Hids|done|unfold exported_locs; by rewrite newest_first_perm|].
  intros k1 k2 v1 v2 H1 H2 O1 O2 Hne. split; cbn; [by eapply (unique_apart lc_TenantID lc_Name)|]. intros Hcode E. apply Hne.
  apply String.eqb_eq in O1, O2. eapply (Hc _ _ v1 v2 (tenant, lc_Code v1)); [done|done| |]; unfold loc_code.
  - destruct (is_empty (lc_Code v1)) eqn:E1; [by apply is_empty_spec in E1|by rewrite O1].
  - rewrite <- E. destruct (is_empty (lc_Code v1)) eqn:E1; [by apply is_empty_spec in E1|by rewrite O2].
Qed.

(** A row of a table has the id it is stored under. *)
Lemma table_row_eq {V} (id : V → string) (t : gmap string V) k1 k2 v1 v2 : keyed id t → t !! k1 = Some v1 → t !! k2 = Some v2 → id v1 = id v2 → v1 = v2.
Proof. intros Hk H1 H2 E. assert (k1 = k2) as -> by (by rewrite <- (Hk _ _ H1), <- (Hk _ _ H2)). congruence. Qed.

Lemma exported_ipGroups_importable :
  Forall ip_good (exported_ipGroups m tenant) ∧ ForallOrdPairs (λ y x, ip_apart x y) (exported_ipGroups m tenant).
Proof.
  destruct (ok_ipGroups _ Hok) as [Hk Hu]. destruct (ok_ipMembers _ Hok) as (Hmk & Hmu & _).
  assert (Hd : distinct ig_ID (λ x y, ig_Name x ≠ ig_Name y) (newest_first ig_ID (ip_group_view m tenant <$> map_select (λ g, (ig_TenantID g =s tenant) && true) (mem_ipGroups m)))).
  { apply (view_distinct _ _ (mem_ipGroups m) (λ g, (ig_TenantID g =s tenant) && true) (ip_group_view m tenant)); [done|apply Hids|done|by rewrite newest_first_perm|].
    intros ? ? ? ? ? ? O1 O2 ?. rewrite andb_true_r in O1, O2. cbn. by eapply (unique_apart ig_TenantID ig_Name). }
  destruct Hd as [Hid Hap]. unfold exported_ipGroups. split.
  - apply Forall_fmap. eapply Forall_impl; [exact Hid|]. intros g Hg. cbn. split; cbn; [done| |].
    + apply Forall_forall. intros x (_ & _ & k & Hx)%elem_of_ip_members E. rewrite <- (Hmk _ _ Hx), E in Hx. destruct Hids. congruence.
    + apply ord_pairs.
      * rewrite ip_members_of. apply NoDup_ListNoDup, List.NoDup_filter, NoDup_ListNoDup. eapply NoDup_fmap_1. by apply keyed_select_NoDup.
      * intros y x (Hy1 & _ & ky & Hy)%elem_of_ip_members (Hx1 & _ & kx & Hx)%elem_of_ip_members Hne. split; intros E; apply Hne.
        -- by eapply table_row_eq.
        -- assert (ky = kx) as -> by (eapply Hmu; [exact Hy|exact Hx|reflexivity|by rewrite Hx1, Hy1, E]). congruence.
  - clear Hid. induction Hap as [|g l Hg Hl IH]; cbn; constructor; [|done]. apply Forall_fmap. eapply Forall_impl; [exact Hg|]. intros h [Hne Hname]. cbn.
    split_and!; [done|done|]. cbn. intros x y (Hx1 & _ & kx & Hx)%elem_of_ip_members (Hy1 & _ & ky & Hy)%elem_of_ip_members E.
    apply Hne. rewrite <- Hx1, <- Hy1. f_equal. by eapply table_row_eq.
Qed.

Lemma exported_hostGroups_importable :
  Forall host_good (exported_hostGroups m tenant) ∧ ForallOrdPairs (λ y x, host_apart x y) (exported_hostGroups m tenant).
Proof.
  destruct (ok_hostGroups _ Hok) as [Hk Hu]. destruct (ok_hostMembers _ Hok) as (Hmk & Hmu & _).
  assert (Hd : distinct hgr_ID (λ x y, hgr_Name x ≠ hgr_Name y) (newest_first hgr_ID (map_select (λ g, hgr_TenantID g =s tenant) (mem_hostGroups m)))).
  { apply (view_distinct _ _ (mem_hostGroups m) (λ g, hgr_TenantID g =s tenant) (λ g, g)); [done|apply Hids|done|by rewrite newest_first_perm, list_fmap_id|].
    intros; cbn. by eapply (unique_apart hgr_TenantID hgr_Name). }
  destruct Hd as [Hid Hap]. unfold exported_hostGroups. split.
  - apply Forall_fmap. eapply Forall_impl; [exact Hid|]. intros g Hg. cbn. split; [done| |].
    + apply Forall_forall. intros x Hx E. apply elem_of_host_members in Hx as (y & k & -> & Hy & _). destruct (enrich_keeps y) as (Ei & _).
      rewrite Ei in E. rewrite <- (Hmk _ _ Hy), E in Hy. destruct Hids. congruence.
    + apply ord_pairs.
      * unfold host_group_export. cbn [he_Members]. rewrite sort_by_perm. apply (NoDup_fmap_1 hm_ID). rewrite <- list_fmap_compose.
        rewrite (list_fmap_ext _ hm_ID); [by apply keyed_select_NoDup|]. intros i x _. apply enrich_keeps.
      * intros y x Hy Hx Hne. apply elem_of_host_members in Hy as (y0 & ky & -> & Hy & _ & Gy). apply elem_of_host_members in Hx as (x0 & kx & -> & Hx & _ & Gx).
        destruct (enrich_keeps x0) as (Ex & _ & Dx), (enrich_keeps y0) as (Ey & _ & Dy). rewrite Ex, Ey, Dx, Dy.
        split; intros E; apply Hne; f_equal; [by eapply table_row_eq|].
        assert (ky = kx) as -> by (eapply Hmu; [exact Hy|exact Hx|reflexivity|by rewrite Gx, Gy, E]). congruence.
  - clear Hid. induction Hap as [|g l Hg Hl IH]; cbn; constructor; [|done]. apply Forall_fmap. eapply Forall_impl; [exact Hg|]. intros h [Hne Hname]. cbn.
    split_and!; [done|done|]. intros x y Hx Hy. apply elem_of_host_members in Hx as (x0 & kx & -> & Hx & _ & Gx). apply elem_of_host_members in Hy as (y0 & ky & -> & Hy & _ & Gy).
    destruct (enrich_keeps x0) as (Ex & _), (enrich_keeps y0) as (Ey & _). rewrite Ex, Ey. intros E. apply Hne. rewrite <- Gx, <- Gy. f_equal. by eapply table_row_eq.
Qed.

Lemma exported_importable t : importable (exported m tenant t).
Proof.
  split; cbn; auto using exported_subnets_distinct, exported_addrs_distinct, exported_devices_distinct, exported_vlans_distinct, exported_locs_distinct,
    exported_ipGroups_importable, exported_hostGroups_importable.
Qed.
End importable.

(** ** The round trip *)

(** Every row of [src] that [P] selects has its counterpart under the same id
    in [dst], and [dst] has nothing else. *)
Definition carried {V} (P : V → Prop) (rel : V → V → Prop) (src dst : gmap string V) : Prop :=
  (∀ k r, src !! k = Some r → P r → ∃ r', dst !! k = Some r' ∧ rel r r') ∧
  (∀ k r', dst !! k = Some r' → ∃ r, src !! k = Some r ∧ P r ∧ rel r r').

Lemma loaded_carried {V T} (id own : V → string) (sel : V → bool) (view : V → T) (key : T → string) (restored : T → Time → V) tenant l src dst :
  keyed id src → (∀ x, key (view x) = id x) → (∀ v, sel v = (own v =s tenant)) → l ≡ₚ view <$> map_select sel src → loaded key restored l dst →
  carried (λ r, own r = tenant) (λ r r', ∃ t, r' = restored (view r) t) src dst.
Proof.
  intros Hk Hv Hsel Hl [Hl1 Hl2]. split.
  - intros k r Hr Ho. destruct (Hl1 (view r)) as [t E].
    { rewrite Hl. apply list_elem_of_fmap_2, elem_of_map_select. split; [rewrite Hsel; by apply String.eqb_eq|eauto]. }
    rewrite Hv, (Hk _ _ Hr) in E. eauto.
  - intros k r' Hr'. destruct (Hl2 k r' Hr') as (x & t & Hx & -> & ->). rewrite Hl in Hx.
    apply list_elem_of_fmap in Hx as (v & -> & (Hp & k' & Hv')%elem_of_map_select). rewrite Hsel in Hp. apply String.eqb_eq in Hp.
    exists v. rewrite Hv, (Hk _ _ Hv'). eauto.
Qed.

(** What the importing store holds of the exporting one: the same ids and
    references, the secrets and personal data gone, what the server keeps about
    host reports and links reset. *)
Record restored_store `{Env} (t1 t2 : string) (m m' : Mem) : Prop := {
  rs_subnets : carried (λ r, sn_TenantID r = t1) (λ r r', ∃ t, r' = restored_subnet t2 r t) (mem_subnets m) (mem_subnets m');
  rs_addrs : carried (λ r, ad_TenantID r = t1) (λ r r', ∃ t, r' = restored_address t2 (sanitizeAddress (decorateAddrLocked m r)) t) (mem_addrs m) (mem_addrs m');
  rs_devices : carried (λ r, dv_TenantID r = t1) (λ r r', ∃ t, r' = restored_device t2 (sanitizeDevice (fillDevice m r)) t) (mem_devices m) (mem_devices m');
  rs_vlans : carried (λ r, vl_TenantID r = t1) (λ r r', ∃ t, r' = restored_vlan t2 (fillVlan m r) t) (mem_vlans m) (mem_vlans m');
  rs_locs : carried (λ r, lc_TenantID r = t1) (λ r r', ∃ t, r' = restored_location t2 (sanitizeLocation (fillLocation m r)) t) (mem_locs m) (mem_locs m');
  rs_ipGroups : carried (λ r, ig_TenantID r = t1) (λ r r', ∃ t, r' = restored_ipGroup t2 (ip_group_view m t1 r) t) (mem_ipGroups m) (mem_ipGroups m');
  rs_hostGroups : carried (λ r, hgr_TenantID r = t1) (λ r r', ∃ t, r' = restored_hostGroup t2 (host_group_view m t1 r) t) (mem_hostGroups m) (mem_hostGroups m');
  rs_ipMembers : carried (λ x, im_TenantID x = t1 ∧ ∃ g, mem_ipGroups m !! im_IPGroupID x = Some g ∧ ig_TenantID g = t1)
    (λ x x', ∃ t, x' = restored_ipMember t2 (im_IPGroupID x, x) t) (mem_ipMembers m) (mem_ipMembers m');
  rs_hostMembers : carried (λ x, hm_TenantID x = t1 ∧ ∃ g, mem_hostGroups m !! hm_HostGroupID x = Some g ∧ hgr_TenantID g = t1)
    (λ x x', ∃ t, x' = restored_hostMember t2 (hm_HostGroupID x, enrichHostMember m x) t) (mem_hostMembers m) (mem_hostMembers m') }.

(** No secret reference and no sealed personal field. *)
Record redacted (b : Backup) : Prop := {
  rd_subnets : Forall (λ s, sn_SNMPSecretRef s = ""%string) (bk_Subnets b);
  rd_addrs : Forall (λ a, ad_Owner a = ""%string) (bk_Addresses b);
  rd_devices : Forall (λ d, dv_IPMISecretRef d = ""%string ∧ dv_Contact d = ""%string) (bk_Devices b);
  rd_locs : Forall (λ l, lc_Contact l = ""%string ∧ lc_Phone l = ""%string ∧ lc_Email l = ""%string) (bk_Locations b) }.

Section round.
Context `{Env} (m : Mem) (t1 t2 : string).
Hypothesis (Hok : mem_ok m).

Lemma exported_redacted t : redacted (exported m t1 t).
Proof. split; cbn; apply Forall_fmap, Forall_true; done. Qed.

Lemma ip_members_carried groups ms : ip_loaded t2 (exported_ipGroups m t1) groups ms →
  carried (λ x, im_TenantID x = t1 ∧ ∃ g, mem_ipGroups m !! im_IPGroupID x = Some g ∧ ig_TenantID g = t1)
    (λ x x', ∃ t, x' = restored_ipMember t2 (im_IPGroupID x, x) t) (mem_ipMembers m) ms.
Proof.
  destruct (ok_ipMembers _ Hok) as (Hmk & _ & _). destruct (ok_ipGroups _ Hok) as [Hk _]. intros [_ [Hl1 Hl2]].
  assert (Hge : ∀ ge, ge ∈ exported_ipGroups m t1 ↔ ∃ g, mem_ipGroups m !! ig_ID g = Some g ∧ ig_TenantID g = t1 ∧
    ge = {| ie_Group := ip_group_view m t1 g; ie_Members := default [] (ip_members_by_group m t1 !! ig_ID g) |}).
  { intros ge. unfold exported_ipGroups. rewrite list_elem_of_fmap. setoid_rewrite newest_first_perm. setoid_rewrite list_elem_of_fmap.
    setoid_rewrite elem_of_map_select. setoid_rewrite andb_true_r. setoid_rewrite String.eqb_eq. split.
    - intros (gv & -> & g & -> & Ho & k & Hg). exists g. pose proof (Hk _ _ Hg) as Hkg. subst k. by split_and!.
    - intros (g & Hg & Ho & ->). exists (ip_group_view m t1 g). split; [done|]. eauto. }
  split.
  - intros k x Hx (Ht & g & Hg & Hgt). pose proof (Hk _ _ Hg) as Hgid. destruct (Hl1 (im_IPGroupID x, x)) as [t E].
    { apply elem_of_ip_pairs. eexists. split; [apply Hge; exists g; split_and!; [by rewrite Hgid|done|reflexivity]|]. cbn. split; [done|].
      apply elem_of_ip_members. rewrite Hgid. eauto. }
    cbn in E. rewrite (Hmk _ _ Hx) in E. eauto.
  - intros k x' Hx'. destruct (Hl2 k x' Hx') as ([gid x] & t & Hp & -> & ->). apply elem_of_ip_pairs in Hp as (ge & (g & Hg & Hgt & ->)%Hge & Hf & Hs).
    cbn in Hf, Hs |- *. apply elem_of_ip_members in Hs as (Hxg & Hxt & k & Hx). exists x. rewrite (Hmk _ _ Hx). split; [done|]. rewrite Hxg.
    split; [split; [done|by exists g]|]. rewrite Hf. eauto.
Qed.

Lemma host_members_carried groups ms : host_loaded t2 (exported_hostGroups m t1) groups ms →
  carried (λ x, hm_TenantID x = t1 ∧ ∃ g, mem_hostGroups m !! hm_HostGroupID x = Some g ∧ hgr_TenantID g = t1)
    (λ x x', ∃ t, x' = restored_hostMember t2 (hm_HostGroupID x, enrichHostMember m x) t) (mem_hostMembers m) ms.
Proof.
  destruct (ok_hostMembers _ Hok) as (Hmk & _ & _). destruct (ok_hostGroups _ Hok) as [Hk _]. intros [_ [Hl1 Hl2]].
  assert (Hge : ∀ ge, ge ∈ exported_hostGroups m t1 ↔ ∃ g, mem_hostGroups m !! hgr_ID g = Some g ∧ hgr_TenantID g = t1 ∧
    ge = host_group_export m t1 (host_group_view m t1 g)).
  { intros ge. unfold exported_hostGroups. rewrite list_elem_of_fmap. setoid_rewrite newest_first_perm.
    setoid_rewrite elem_of_map_select. setoid_rewrite String.eqb_eq. split.
    - intros (g & -> & Ho & k & Hg). exists g. pose proof (Hk _ _ Hg) as Hkg. subst k. by split_and!.
    - intros (g & Hg & Ho & ->). exists g. split; [done|]. eauto. }
  split.
  - intros k x Hx (Ht & g & Hg & Hgt). pose proof (Hk _ _ Hg) as Hgid. destruct (enrich_keeps m x) as (Ei & _). destruct (Hl1 (hm_HostGroupID x, enrichHostMember m x)) as [t E].
    { apply elem_of_host_pairs. eexists. split; [apply Hge; exists g; split_and!; [by rewrite Hgid|done|reflexivity]|]. split; [done|].
      apply elem_of_host_members. exists x, k. by split_and!. }
    cbn in E. rewrite Ei, (Hmk _ _ Hx) in E. eauto.
  - intros k x' Hx'. destruct (Hl2 k x' Hx') as ([gid x] & t & Hp & -> & ->). apply elem_of_host_pairs in Hp as (ge & (g & Hg & Hgt & ->)%Hge & Hf & Hs).
    cbn [fst snd] in Hf, Hs |- *. apply elem_of_host_members in Hs as (y & k & -> & Hy & Hyt & Hyg). exists y. destruct (enrich_keeps m y) as (Ei & _). cbn. rewrite Ei, (Hmk _ _ Hy).
    split; [done|]. rewrite Hyg. split; [split; [done|by exists g]|]. cbn in Hf. rewrite Hf. eauto.
Qed.

Lemma round_store t m' : restored_from t2 (exported m t1 t) m' → restored_store t1 t2 m m'.
Proof.
  intros [Rs Ra Rd Rv Rl Rg Rh]. destruct Hok as [Hs Ha Hd _ _ Hv Hl Hg Hh _ _ _ _ _ _]. cbn in *. split.
  - apply (loaded_carried sn_ID sn_TenantID (λ s, sn_TenantID s =s t1) (export_subnet (snmp_index m t1)) sn_ID (restored_subnet t2) _ (exported_subnets m t1)); try done; [apply Hs|].
    unfold exported_subnets. by rewrite newest_first_perm.
  - apply (loaded_carried ad_ID ad_TenantID (λ s, ad_TenantID s =s t1) (λ a, sanitizeAddress (decorateAddrLocked m a)) ad_ID (restored_address t2) _ (exported_addrs m t1)); try done; [apply Ha|].
    unfold exported_addrs. by rewrite newest_first_perm, <- list_fmap_compose.
  - apply (loaded_carried dv_ID dv_TenantID (λ s, dv_TenantID s =s t1) (λ d, sanitizeDevice (fillDevice m d)) dv_ID (restored_device t2) _ (exported_devices m t1)); try done; [apply Hd|].
    unfold exported_devices. by rewrite newest_first_perm.
  - apply (loaded_carried vl_ID vl_TenantID (λ s, vl_TenantID s =s t1) (fillVlan m) vl_ID (restored_vlan t2) _ (exported_vlans m t1)); try done; [apply Hv|].
    unfold exported_vlans. by rewrite newest_first_perm.
  - apply (loaded_carried lc_ID lc_TenantID (λ s, lc_TenantID s =s t1) (λ l, sanitizeLocation (fillLocation m l)) lc_ID (restored_location t2) _ (exported_locs m t1)); try done; [apply Hl|].
    unfold exported_locs. by rewrite newest_first_perm.
  - apply (loaded_carried ig_ID ig_TenantID (λ g, (ig_TenantID g =s t1) && true) (λ g, {| ie_Group := ip_group_view m t1 g; ie_Members := default [] (ip_members_by_group m t1 !! ig_ID g) |})
      (ig_ID ∘ ie_Group) (λ ge, restored_ipGroup t2 (ie_Group ge)) _ (exported_ipGroups m t1)); try done; [apply Hg|by intros v; rewrite andb_true_r| |apply Rg].
    unfold exported_ipGroups. by rewrite newest_first_perm, <- list_fmap_compose.
  - apply (loaded_carried hgr_ID hgr_TenantID (λ g, hgr_TenantID g =s t1) (λ g, host_group_export m t1 (host_group_view m t1 g))
      (hgr_ID ∘ he_Group) (λ ge, restored_hostGroup t2 (he_Group ge)) _ (exported_hostGroups m t1)); try done; [apply Hh| |apply Rh].
    unfold exported_hostGroups. by rewrite newest_first_perm.
  - by eapply ip_members_carried.
  - by eapply host_members_carried.
Qed.
End round.

(** C5: a backup restores the tenant it was made of.  From a consistent store,
    whatever its size, the export succeeds, changes nothing and holds no SNMP
    or BMC credential reference and no owner, contact, phone or e-mail; imported
    for any tenant into an empty store, in either mode, it recreates exactly the
    rows of the exported tenant: every subnet, address, device, VLAN, location,
    group and group member under its own id with its references, and no other
    row. *)
Theorem backup_roundtrip `{Env} subj1 subj2 inc mode w1 w2 :
  su_TenantID subj1 ≠ ""%string → su_TenantID subj2 ≠ ""%string → mem_ok (w_mem w1) → ids_set (w_mem w1) → calm w1 → calm w2 → blank (w_mem w2) →
  ∃ b w1' w2' res, Export subj1 inc w1 = (w1', Ok b) ∧ w_mem w1' = w_mem w1 ∧ redacted b ∧
    Import subj2 b mode w2 = (w2', Ok res) ∧ restored_store (su_TenantID subj1) (su_TenantID subj2) (w_mem w1) (w_mem w2').
Proof.
  intros Ht1 Ht2 Hok Hids Hc1 Hc2 Hb. destruct (Export_run subj1 inc w1 Ht1 Hc1 Hok Hids) as (w1' & t & Hm & E).
  destruct (Import_new subj2 (exported (w_mem w1) (su_TenantID subj1) t) mode w2) as (w2' & res & Ei & Hr & _); [done|done|done|done|by apply exported_importable|].
  exists (exported (w_mem w1) (su_TenantID subj1) t), w1', w2', res. split_and!; [done|done|apply exported_redacted|done|by eapply round_store].
Qed.

(** *** A small tenant *)

Definition ex_fill `{Env} : M () :=
  CreateLocation {| zero_Location with lc_ID := "l1"; lc_TenantID := "t1"; lc_Name := "site"; lc_Phone := "123" |};;
  CreateLocation {| zero_Location with lc_ID := "l2"; lc_TenantID := "t1"; lc_Name := "room"; lc_ParentID := "l1" |};;
  CreateVlan {| zero_Vlan with vl_ID := "v1"; vl_TenantID := "t1"; vl_Name := "office"; vl_VlanID := 10 |};;
  CreateSubnet {| zero_Subnet with sn_ID := "s1"; sn_TenantID := "t1"; sn_Name := "lan"; sn_CIDR := "10.0.0.0/16"; sn_SNMPSecretRef := "ref" |};;
  CreateSubnet {| zero_Subnet with sn_ID := "s2"; sn_TenantID := "t1"; sn_Name := "floor"; sn_CIDR := "10.0.1.0/24"; sn_ParentID := "s1"; sn_VlanID := "v1" |};;
  CreateDevice {| zero_Device with dv_ID := "d1"; dv_TenantID := "t1"; dv_Name := "srv"; dv_IPMISecretRef := "bmc"; dv_Contact := "joe"; dv_LocationID := "l2" |};;
  CreateAddress {| zero_IPAddress with ad_ID := "a1"; ad_TenantID := "t1"; ad_Address := "10.0.1.5"; ad_SubnetID := "s2"; ad_DeviceID := "d1"; ad_Owner := "joe" |};;
  CreateIPGroup {| zero_IPGroup with ig_ID := "g1"; ig_TenantID := "t1"; ig_Name := "web" |};;
  AddIPGroupMember {| zero_IPGroupMember with im_ID := "m1"; im_TenantID := "t1"; im_IPGroupID := "g1"; im_Value := "10.0.1.5" |};;
  CreateHostGroup {| zero_HostGroup with hgr_ID := "h1"; hgr_TenantID := "t1"; hgr_Name := "servers" |};;
  AddHostGroupMember {| zero_HostGroupMember with hm_ID := "n1"; hm_TenantID := "t1"; hm_HostGroupID := "h1"; hm_DeviceID := "d1" |}.

Definition ex_tenant : World := fst (ex_fill (H := ex_env) init_world).
Definition ex_target : Subjects := {| su_TenantID := "t2"; su_UserID := "u2"; su_Roles := ["admin"]; su_ActorKind := "user" |}.

Lemma ex_tenant_ok : mem_ok (w_mem ex_tenant).
Proof.
  assert (Hp : preserves (ex_fill (H := ex_env))) by (unfold ex_fill; preserve).
  apply Hp, New_ok.
Qed.

Lemma ex_s1 : ∃ s, mem_subnets (w_mem ex_tenant) !! "s1"%string = Some s ∧ sn_TenantID s = "t1"%string.
Proof. vm_compute. eexists. split; reflexivity. Qed.
Lemma ex_s2 : ∃ s, mem_subnets (w_mem ex_tenant) !! "s2"%string = Some s ∧ sn_ParentID s = "s1"%string ∧ sn_TenantID s = "t1"%string.
Proof. vm_compute. eexists. split_and!; reflexivity. Qed.
Lemma ex_d1 : ∃ d, mem_devices (w_mem ex_tenant) !! "d1"%string = Some d ∧ dv_LocationID d = "l2"%string ∧ dv_TenantID d = "t1"%string.
Proof. vm_compute. eexists. split_and!; reflexivity. Qed.

Lemma backup_roundtrip_witness :
  ∃ b w1' w2' res, Export (H := ex_env) ex_subject false ex_tenant = (w1', Ok b) ∧ redacted b ∧
    Import (H := ex_env) ex_target b ModeSkip init_world = (w2', Ok res) ∧
    (∃ s, mem_subnets (w_mem w2') !! "s2"%string = Some s ∧ sn_ParentID s = "s1"%string ∧ sn_TenantID s = "t2"%string) ∧
    (∃ d, mem_devices (w_mem w2') !! "d1"%string = Some d ∧ dv_IPMISecretRef d = ""%string ∧ dv_LocationID d = "l2"%string).
Proof.
  destruct (backup_roundtrip (H := ex_env) ex_subject ex_target false ModeSkip ex_tenant init_world) as (b & w1' & w2' & res & E & _ & Hr & Ei & Hs).
  - done.
  - done.
  - apply ex_tenant_ok.
  - split; vm_compute; reflexivity.
  - vm_compute. reflexivity.
  - reflexivity.
  - split; reflexivity.
  - exists b, w1', w2', res. split_and!; [done|done|done| |].
    + destruct (rs_subnets _ _ _ _ Hs) as [Hm _]. destruct ex_s2 as (s & Es & Hp & Ho). destruct (Hm _ _ Es Ho) as (s' & Hs' & t & Er).
      exists s'. split; [exact Hs'|]. rewrite Er. split; [exact Hp|reflexivity].
    + destruct (rs_devices _ _ _ _ Hs) as [Hm _]. destruct ex_d1 as (d & Ed & Hp & Ho). destruct (Hm _ _ Ed Ho) as (d' & Hd' & t & Er).
      exists d'. split; [exact Hd'|]. rewrite Er. split; [reflexivity|exact Hp].
Defined.

(** Restoring over the store the backup was made of: the child is listed, and
    so replaced, before its parent, and deleting the parent then clears the
    child's reference to it.  Both hierarchies are lost. *)
Lemma overwrite_forgets_parent :
  match Export (H := ex_env) ex_subject false ex_tenant with
  | (w, Ok b) =>
      let '(w', r) := Import (H := ex_env) ex_subject b ModeOverwrite w in
      (∃ res, r = Ok res) ∧
      (sn_ParentID <$> mem_subnets (w_mem w) !! "s2"%string = Some "s1" ∧ sn_ParentID <$> mem_subnets (w_mem w') !! "s2"%string = Some "")%string ∧
      (lc_ParentID <$> mem_locs (w_mem w) !! "l2"%string = Some "l1" ∧ lc_ParentID <$> mem_locs (w_mem w') !! "l2"%string = Some "")%string
  | _ => False
  end.
Proof. vm_compute. split; [by eexists|done]. Qed.

(** The generated ids are longer than those of the example. *)
Lemma ex_ids_fresh : ids_fresh (H := ex_env) "t1" ex_tenant.
Proof.
  assert (Hlong : ∀ n, String.length (id_at (H := ex_env) n) = 36%nat) by (intros n; unfold id_at, NewID; cbn [hex_bytes]; reflexivity).
  assert (Ha : ∀ {V} (own : V → string) (t : gmap string V) n, forallb (λ k, String.length k =? 2)%nat (map_to_list t).*1 = true →
    absent "t1" own t (id_at (H := ex_env) n)).
  { intros V own t n Ht v Hv _. apply elem_of_map_to_list in Hv. rewrite forallb_forall in Ht.
    specialize (Ht (id_at (H := ex_env) n)). rewrite Hlong in Ht. enough (false = true) by done. apply Ht.
    apply list_elem_of_In, list_elem_of_fmap. by exists (id_at (H := ex_env) n, v). }
  intros n _. split; apply Ha; vm_compute; reflexivity.
Qed.

(** A file that repeats a subnet and a group of the tenant, with other
    contents, and adds a location without an id and a group with a member. *)
Definition ex_file : Backup :=
  {| bk_SchemaVersion := 1; bk_ExportedAt := time_zero; bk_Subnets := [{| zero_Subnet with sn_ID := "s1"; sn_Name := "other"; sn_CIDR := "192.168.0.0/24" |}];
     bk_Addresses := []; bk_Devices := []; bk_Vlans := []; bk_Locations := [{| zero_Location with lc_Name := "annex" |}];
     bk_IPGroups := [{| ie_Group := {| zero_IPGroup with ig_ID := "g1"; ig_Name := "mail" |};
                        ie_Members := [{| zero_IPGroupMember with im_ID := "m1"; im_Value := "10.9.9.9" |}] |};
                     {| ie_Group := {| zero_IPGroup with ig_ID := "g2"; ig_Name := "dns" |};
                        ie_Members := [{| zero_IPGroupMember with im_ID := "m2"; im_Value := "10.0.1.53" |}] |}];
     bk_HostGroups := [] |}.

Lemma ex_m1 : ∃ x, mem_ipMembers (w_mem ex_tenant) !! "m1"%string = Some x ∧ im_TenantID x = "t1"%string ∧ im_Value x = "10.0.1.5"%string.
Proof. vm_compute. eexists. split_and!; reflexivity. Qed.

Lemma Import_skip_keeps_witness :
  let run := Import (H := ex_env) ex_subject ex_file ModeSkip ex_tenant in
  (∃ res, snd run = Ok res ∧ br_Subnets res = (0, 1) ∧ br_Locations res = (1, 0) ∧ br_IPGroups res = (1, 1)) ∧
  mem_subnets (w_mem (fst run)) !! "s1"%string = mem_subnets (w_mem ex_tenant) !! "s1"%string ∧
  mem_ipMembers (w_mem (fst run)) !! "m1"%string = mem_ipMembers (w_mem ex_tenant) !! "m1"%string.
Proof.
  cbv zeta. split; [eexists; split; [vm_compute; reflexivity|done]|].
  destruct (Import_skip_keeps (H := ex_env) ex_subject ex_file ModeSkip ex_tenant) as [[Hs _ _ _ _ _ _] Hm]; [exact ex_ids_fresh|discriminate|].
  destruct Hm as [Hm _].
  { split; [|constructor]. constructor; [|constructor; [|constructor]].
    - intros Ha. assert (He : ∃ g, mem_ipGroups (w_mem ex_tenant) !! "g1"%string = Some g ∧ ig_TenantID g = "t1"%string) by (vm_compute; eexists; split; reflexivity).
      destruct He as (g & Eg & Ht). by destruct (Ha g Eg).
    - intros _. repeat constructor. intros _ v. vm_compute. discriminate. }
  destruct ex_s1 as (s & E & Ho). destruct ex_m1 as (x & Ex & Hx & _). rewrite E, Ex. split; [by apply Hs|by apply Hm].
Defined.

(** A new group of the file whose member has the id of a member of another
    group: the stored member is replaced and leaves its group, although the
    import skips what exists. *)
Definition ex_taking : Backup :=
  {| bk_SchemaVersion := 1; bk_ExportedAt := time_zero; bk_Subnets := []; bk_Addresses := []; bk_Devices := []; bk_Vlans := []; bk_Locations := [];
     bk_IPGroups := [{| ie_Group := {| zero_IPGroup with ig_ID := "g2"; ig_Name := "dns" |};
                        ie_Members := [{| zero_IPGroupMember with im_ID := "m1"; im_Value := "10.0.1.53" |}] |}];
     bk_HostGroups := [] |}.

Lemma skip_moves_member :
  let '(w, r) := Import (H := ex_env) ex_subject ex_taking ModeSkip ex_tenant in
  (∃ res, r = Ok res ∧ br_IPGroups res = (1, 0)) ∧
  (im_IPGroupID <$> mem_ipMembers (w_mem ex_tenant) !! "m1"%string = Some "g1"%string) ∧
  (im_IPGroupID <$> mem_ipMembers (w_mem w) !! "m1"%string = Some "g2"%string) ∧
  map_any (λ x, im_IPGroupID x =s "g1") (mem_ipMembers (w_mem w)) = false.
Proof. vm_compute. split; [by eexists|done]. Qed.
