(* ===== verification/HostSync.v ===== *)
(** * internal/hostsync: applying, polling and reconciling host reports

    [Apply] validates a report and applies its plan in one transaction; [poll]
    and [reconcile] walk the reports of a tenant; [RunTenant] and [Cycle] keep
    the watermarks, states and back-off.  The inventory is an interface: its
    answers during a run are a parameter ([Inventory]), and [Fake], the
    in-memory implementation of internal/invclient, is its instance here.
    A runner is threaded as a record.  The cancellation of a context, pacing,
    logs and metrics are not modelled; the tenants of a cycle run in order, as
    with one worker. *)

From S2P Require Import Prelude GoNet GoIP Placement Models Store Hostreport HostNorm MemNet MemDev MemScan HostTx AuditLog Events HostPlan.

(** ** The inventory (internal/invclient) *)

Definition CodeUnavailable : string := "inventory_unavailable".

Definition Code (e : error) : string := match err_root e with Invclient_Error c => c | _ => CodeUnavailable end.

Record Filter : Type := { f_ChangedSince : Time; f_Digest : bool }.

(** [ListHostReports] calls back once per page: the pages, and the failure
    after them if any. *)
Record Inventory : Type := {
  inv_ListReportTenants : Time → result error (list string * Time);
  inv_ListHostReports : string → Filter → list (list inv_Report) * option error;
  inv_GetHostReport : string → string → result error inv_Report;
  inv_RefreshHost : string → string → result error bool
}.

(** *** The in-memory client *)

Record Fake : Type := {
  fk_reports : gmap string (gmap string inv_Report);
  fk_Down : bool;
  fk_Err : option error;
  fk_PageSize : Z
}.

Definition fake_failure (f : Fake) : option error :=
  match fk_Err f with Some e => Some e | None => if fk_Down f then Some (Invclient_Error CodeUnavailable) else None end.

Definition fake_Put (r : inv_Report) (f : Fake) : Fake :=
  {| f with fk_reports := <[ir_TenantID r := <[ih_ID (ir_Host r) := r]> (default ∅ (fk_reports f !! ir_TenantID r))]> (fk_reports f) |}.

Definition changed_after (since : Time) (r : inv_Report) : bool := IsZero since || (since <? ir_ChangedAt r).

Definition zero_inv_Report : inv_Report :=
  {| ir_TenantID := ""; ir_Host := {| ih_ID := ""; ih_Hostname := ""; ih_SystemSerial := ""; ih_Manufacturer := ""; ih_Model := "";
       ih_OSName := ""; ih_OSVersion := ""; ih_Status := ""; ih_LastSeen := time_zero |};
     ir_SnapshotID := ""; ir_CollectedAt := time_zero; ir_ChangedAt := time_zero; ir_Digest := ""; ir_AgentVersion := "";
     ir_OSFamily := ""; ir_Interfaces := []; ir_PrimaryIPv4 := ""; ir_PrimaryIPv6 := "";
     ir_Virtualization := {| iv_Role := ""; iv_Kind := ""; iv_Source := "" |}; ir_BMC := None; ir_Guests := [];
     ir_Updates := {| iu_PackageManager := ""; iu_Status := ""; iu_RebootRequired := ""; iu_AutomaticUpdates := "";
       iu_SecurityClassified := false; iu_CheckedAt := time_zero; iu_PendingCount := 0; iu_SecurityCount := 0 |};
     ir_PendingUpdates := []; ir_Truncated := {| il_Interfaces := 0; il_Addresses := 0; il_Guests := 0; il_Packages := 0;
       il_BMCPorts := 0; il_Disks := 0; il_MemorySlots := 0; il_MemoryArrays := 0; il_Processors := 0; il_Filesystems := 0 |};
     ir_Hardware := None |}.

Definition digest_view (r : inv_Report) : inv_Report :=
  {| zero_inv_Report with ir_TenantID := ir_TenantID r; ir_Host := ir_Host r; ir_Digest := ir_Digest r; ir_ChangedAt := ir_ChangedAt r |}.

Definition report_less (a b : inv_Report) : bool :=
  if ir_ChangedAt a =? ir_ChangedAt b then str_ltb (ih_ID (ir_Host a)) (ih_ID (ir_Host b)) else ir_ChangedAt a <? ir_ChangedAt b.

Definition fake_list (f : Fake) (tenantID : string) (flt : Filter) : list inv_Report :=
  sort_by report_less ((λ r, if f_Digest flt then digest_view r else r) <$>
    map_select (changed_after (f_ChangedSince flt)) (default ∅ (fk_reports f !! tenantID))).

Fixpoint pages_of {A} (fuel : nat) (size : nat) (l : list A) : list (list A) :=
  match fuel, l with
  | O, _ | _, [] => []
  | S fu, _ => take size l :: pages_of fu size (drop size l)
  end.

Definition fake_ListHostReports (f : Fake) (tenantID : string) (flt : Filter) : list (list inv_Report) * option error :=
  match fake_failure f with
  | Some e => ([], Some e)
  | None => let l := fake_list f tenantID flt in (pages_of (length l) (Z.to_nat (Z.max 1 (fk_PageSize f))) l, None)
  end.

Definition fake_ListReportTenants (f : Fake) (since : Time) : result error (list string * Time) :=
  match fake_failure f with
  | Some e => Err e
  | None =>
      let changed := List.filter (λ th, map_any (changed_after since) (snd th)) (map_to_list (fk_reports f)) in
      let maxAt := foldl (λ acc th, foldl (λ acc r, Z.max acc (ir_ChangedAt r)) acc (rows (snd th))) since (map_to_list (fk_reports f)) in
      Ok (sort_strings (fst <$> changed), maxAt)
  end.

Definition fake_GetHostReport (f : Fake) (tenantID hostID : string) : result error inv_Report :=
  match fake_failure f with
  | Some e => Err e
  | None => match default ∅ (fk_reports f !! tenantID) !! hostID with Some r => Ok r | None => Err Invclient_ErrNotFound end
  end.

Definition Fake_inventory (f : Fake) : Inventory :=
  {| inv_ListReportTenants := fake_ListReportTenants f; inv_ListHostReports := fake_ListHostReports f;
     inv_GetHostReport := fake_GetHostReport f;
     inv_RefreshHost := λ _ _, match fake_failure f with Some e => Err e | None => Ok false end |}.

(** ** One report (apply.go, runner.go) *)

Record Config : Type := {
  cf_PollInterval : Z; cf_Workers : Z; cf_ConflictMoves : Z; cf_ConflictWindow : Z }.

Definition TriggerPoll : string := "poll".
Definition TriggerReconcile : string := "reconcile".
Definition MaxBackoff : Z := 600000000000.

Section with_env.
Context `{Env} (json_profile : HardwareProfile → string) (sha256_hex : string → string).

Definition optM {A} (b : bool) (zero : A) (m : M A) : M A := if b then m else mret zero.

(** [load]: everything the planner needs for one report. *)
Definition load (tid : string) (r : Report) : M State :=
  d ← DeviceByInventoryHost tid (rp_HostID r);
  by_serial ← match d with
              | Some _ => mret []
              | None => if IsPlaceholderSerial (rp_Serial r) then mret [] else DevicesBySerial tid (rp_Serial r)
              end;
  by_name ← DevicesByNames tid (CandidateNames r);
  let c := {| ca_ByHost := d; ca_BySerial := by_serial; ca_ByName := by_name |} in
  let base := {| st_Candidates := c; st_Interfaces := []; st_Addresses := ∅; st_Subnets := []; st_Packages := []; st_Guests := [];
                 st_MACOwners := []; st_GuestDevices := []; st_GuestRows := []; st_Hardware := None |} in
  s ← match fst (Match c r) with
      | None => mret base
      | Some dev =>
          ifaces ← Interfaces tid (dv_ID dev);
          owned ← AddressesOfDevice tid (dv_ID dev);
          pkgs ← Packages tid (dv_ID dev);
          gs ← Guests tid (dv_ID dev);
          gds ← GuestDevicesOf tid (dv_ID dev);
          hw ← match rp_Hardware r with Some _ => GetHardware tid (dv_ID dev) | None => mret None end;
          mret {| base with st_Interfaces := ifaces; st_Addresses := foldl (λ m a, <[ad_Address a := a]> m) ∅ owned;
                  st_Packages := pkgs; st_Guests := gs; st_GuestDevices := gds; st_Hardware := hw |}
      end;
  let addrs := concat ((λ i, (λ a, Addr_String (ra_Addr a)) <$> ri_Addresses i) <$> rp_Interfaces r) ++
               match rp_BMC r with Some b => if Addr_IsValid (bm_Address b) then [Addr_String (bm_Address b)] else [] | None => [] end in
  let ownMACs := List.filter (λ m, negb (is_empty m)) (ri_MAC <$> rp_Interfaces r) in
  rows_ ← optM (negb (is_nil addrs)) [] (AddressesByValue tid addrs);
  subs ← Subnets tid;
  let guestMACs := concat (g_MACs <$> rp_Guests r) in
  owners ← optM (negb (is_nil guestMACs)) [] (DevicesByMAC tid guestMACs);
  grows ← optM (negb (is_nil ownMACs)) [] (GuestRowsByMAC tid ownMACs);
  mret {| s with st_Addresses := foldl (λ m a, <[ad_Address a := a]> m) (st_Addresses s) rows_; st_Subnets := subs;
          st_MACOwners := owners; st_GuestRows := grows |}.

(** The store write of a planned operation, and its kind. *)
Definition run_write (tid : string) (x : write) : M () :=
  match x with
  | OpCreateDevice d => InsertDevice tid d
  | OpUpdateDevice d => UpdateDeviceReported tid d
  | OpCreateInterface i => UpsertInterfaceReported tid i true
  | OpUpdateInterface i => UpsertInterfaceReported tid i false
  | OpCreateSubnet s => CreateSubnetAuto tid s
  | OpCreateAddress a => InsertAddressReported tid a
  | OpUpdateAddress a => UpdateAddressReported tid a
  | OpReplacePackages d l => ReplacePendingPackages tid d l
  | OpReplaceGuests d l => ReplaceGuests tid d l
  | OpSetHypervisor d h => SetHypervisor tid d h
  | OpSetGuestDevice g d _ => SetGuestDevice tid g d
  | OpReplaceHardware h => ReplaceHardware tid h
  end.
Definition write_kind (x : write) : string :=
  match x with
  | OpCreateDevice _ => "create_device" | OpUpdateDevice _ => "update_device"
  | OpCreateInterface _ => "create_interface" | OpUpdateInterface _ => "update_interface"
  | OpCreateSubnet _ => "create_subnet" | OpCreateAddress _ => "create_address" | OpUpdateAddress _ => "update_address"
  | OpReplacePackages _ _ => "replace_packages" | OpReplaceGuests _ _ => "replace_guests"
  | OpSetHypervisor _ _ => "set_hypervisor" | OpSetGuestDevice _ _ _ => "set_guest_device"
  | OpReplaceHardware _ => "replace_hardware"
  end.

Definition execute_op (tid : string) (o : Op) : M () :=
  catch_map (Wrapped (write_kind (op_write o))) (run_write tid (op_write o));;
  mapM_ (λ row, catch_map (Wrapped "audit") (tx_AppendAudit tid row)) (op_Audit o).

Definition execute (tid : string) (pl : Plan) : M () := mapM_ (execute_op tid) (hpl_Ops pl).

Record Result : Type := { rs_DeviceID : string; rs_Applied : bool; rs_Changes : Z; rs_Issues : list HostSyncIssue }.
Definition zero_Result : Result := {| rs_DeviceID := ""; rs_Applied := false; rs_Changes := 0; rs_Issues := [] |}.

Definition markGone (tid hostID why trigger runID : string) : M Result :=
  res ← ApplyHostReport tid (
    d ← DeviceByInventoryHost tid hostID;
    match d with
    | None => mret zero_Result
    | Some d =>
        if dv_ReportState d =s RepNotReported then mret zero_Result
        else
          MarkDeviceNotReported tid (dv_ID d);;
          t ← now;
          row ← Row {| e_TenantID := tid; e_EventType := DeviceNotReported; e_ActorKind := ActorSystem; e_ActorID := HostSyncActor;
                       e_SubjectKind := SubjectDevice; e_SubjectID := dv_ID d; e_Target := ""; e_Outcome := OutcomeOK; e_Reason := "";
                       e_Details := [("inventory_status", AnyString why); ("inventory_host_id", AnyString hostID);
                                     ("run_id", AnyString runID); ("trigger", AnyString trigger)] |} t;
          tx_AppendAudit tid (match row with Ok row => row | Err _ => zero_AuditRow end);;
          mret {| zero_Result with rs_DeviceID := dv_ID d; rs_Applied := true; rs_Changes := 1 |}
    end);
  (if rs_Applied res then
     publish_event {| ev_tenant := tid; ev_type := HostSyncApplied; ev_payload := HostSyncAppliedPayload (rs_DeviceID res) 1 |}
   else mret ());;
  mret res.

(** One transaction: load, plan, execute, save the device's state. *)
Definition attempt (cfg : Config) (s : HostSyncSettings) (nr : Report) (trigger runID : string) : M Plan :=
  ApplyHostReport (hss_TenantID s) (
    state ← load (hss_TenantID s) nr;
    t ← now;
    plan ← Build state nr {| pm_TenantID := hss_TenantID s; pm_RunID := runID; pm_Trigger := trigger; pm_Now := t;
                             pm_Exclusions := hss_ExcludedInterfaces s; pm_ConflictMoves := cf_ConflictMoves cfg;
                             pm_ConflictWindow := cf_ConflictWindow cfg |};
    execute (hss_TenantID s) plan;;
    SaveDeviceState (hss_TenantID s) (hpl_State plan);;
    mret plan).

Definition report_err (e : report_error) : error :=
  match e with ErrTenant => Hostreport_ErrTenant | ErrHostID => Hostreport_ErrHostID end.

Definition Apply (cfg : Config) (s : HostSyncSettings) (rep : inv_Report) (trigger runID : string) : M Result :=
  nr ← lift (map_err report_err (Normalize json_profile sha256_hex rep (hss_TenantID s)));
  if rp_HostStatus nr =s "retired" then markGone (hss_TenantID s) (rp_HostID nr) "retired" trigger runID
  else
    r1 ← try (attempt cfg s nr trigger runID);
    plan ← match r1 with
           | Ok plan => mret plan
           | Err e => match err_root e with ErrConflict => attempt cfg s nr trigger runID | _ => throw e end
           end;
    mapM_ (λ e, publish_event {| ev_tenant := hss_TenantID s; ev_type := pe_Type e; ev_payload := pe_Payload e |}) (hpl_Events plan);;
    mret {| rs_DeviceID := hpl_DeviceID plan; rs_Applied := true; rs_Changes := Z.of_nat (length (hpl_Ops plan));
            rs_Issues := hpl_Issues plan |}.

(** ** Runs (runner.go) *)

Inductive outcome : Type := outcomeApplied | outcomeSkipped | outcomeRejected | outcomeFailed.

Record run : Type := {
  ru_id : string; ru_tenant : string; ru_fetched : Z; ru_applied : Z; ru_failed : Z; ru_skipped : Z; ru_changes : Z; ru_rejected : Z }.

Record deviceRef : Type := { dr_digest : string; dr_state : string; dr_id : string }.

Definition deviceDigests (tid : string) : M (gmap string deviceRef) :=
  devs ← HostDevices tid;
  mret (foldl (λ m d, <[ToLower (dv_InventoryHostID d) :=
    {| dr_digest := dv_ReportDigest d; dr_state := dv_ReportState d; dr_id := dv_ID d |}]> m) ∅ devs).

(** The digest shortcut. *)
Definition unchanged (digests : gmap string deviceRef) (rep : inv_Report) : bool :=
  match digests !! ToLower (ih_ID (ir_Host rep)) with
  | Some d => negb (is_empty (ir_Digest rep)) && (dr_digest d =s ir_Digest rep) && (dr_state d =s RepReported)
  | None => false
  end.

(** The outcome of one report; an error only when the sync was disabled. *)
Definition handle (cfg : Config) (s : HostSyncSettings) (rep : inv_Report) (trigger : string) (ru : run)
    (digests : gmap string deviceRef) (force : bool) : M (run * outcome * option error) :=
  if negb force && unchanged digests rep then mret ({| ru with ru_skipped := ru_skipped ru + 1 |}, outcomeSkipped, None)
  else
    r ← try (Apply cfg s rep trigger (ru_id ru));
    mret match r with
         | Ok res => ({| ru with ru_applied := ru_applied ru + 1; ru_changes := ru_changes ru + rs_Changes res |}, outcomeApplied, None)
         | Err e =>
             match err_root e with
             | ErrSyncDisabled => (ru, outcomeFailed, Some e)
             | Hostreport_ErrTenant | Hostreport_ErrHostID => ({| ru with ru_rejected := ru_rejected ru + 1 |}, outcomeRejected, None)
             | _ => ({| ru with ru_failed := ru_failed ru + 1 |}, outcomeFailed, None)
             end
         end.

Record poll_state : Type := { ps_run : run; ps_watermark : Time; ps_blocked : bool }.

(** The watermark after one outcome. *)
Definition advance (rep : inv_Report) (o : outcome) (ps : poll_state) : poll_state :=
  match o with
  | outcomeFailed => {| ps with ps_blocked := true |}
  | _ => if negb (ps_blocked ps) && (ps_watermark ps <? ir_ChangedAt rep) then {| ps with ps_watermark := ir_ChangedAt rep |} else ps
  end.

(** The callback over the reports of the pages, stopping at an error. *)
Fixpoint poll_reports (cfg : Config) (s : HostSyncSettings) (digests : gmap string deviceRef) (ps : poll_state)
    (l : list inv_Report) : M (poll_state * option error) :=
  match l with
  | [] => mret (ps, None)
  | rep :: l' =>
      let ru := ps_run ps in
      h ← handle cfg s rep TriggerPoll {| ru with ru_fetched := ru_fetched ru + 1 |} digests false;
      let '(ru, o, e) := h in
      match e with
      | Some e => mret ({| ps with ps_run := ru |}, Some e)
      | None => poll_reports cfg s digests (advance rep o {| ps with ps_run := ru |}) l'
      end
  end.

Definition poll (inv : Inventory) (cfg : Config) (s : HostSyncSettings) (since : Time) (ru : run)
    : M (run * Time * option error) :=
  dg ← try (deviceDigests (hss_TenantID s));
  match dg with
  | Err e => mret (ru, time_zero, Some e)
  | Ok digests =>
      let '(pages, err) := inv_ListHostReports inv (hss_TenantID s) {| f_ChangedSince := since; f_Digest := false |} in
      r ← poll_reports cfg s digests {| ps_run := ru; ps_watermark := time_zero; ps_blocked := false |} (concat pages);
      let '(ps, e) := r in
      mret (ps_run ps, ps_watermark ps, match e with Some e => Some e | None => err end)
  end.

(** *** Reconcile (reconcile.go) *)

Definition gone_step (m : M Result) (ru : run) (k : run → M (run * option error)) : M (run * option error) :=
  r ← try m;
  match r with
  | Err e => mret (ru, Some e)
  | Ok _ => k {| ru with ru_changes := ru_changes ru + 1 |}
  end.

(** Fetch one host's report and apply it. *)
Definition fetch_step (cfg : Config) (s : HostSyncSettings) (digests : gmap string deviceRef) (full : inv_Report) (ru : run)
    (k : run → M (run * option error)) : M (run * option error) :=
  h ← handle cfg s full TriggerReconcile {| ru with ru_fetched := ru_fetched ru + 1 |} digests true;
  let '(ru, _, e) := h in match e with Some e => mret (ru, Some e) | None => k ru end.

Fixpoint reconcile_rows (inv : Inventory) (cfg : Config) (s : HostSyncSettings) (digests : gmap string deviceRef) (ru : run)
    (rows_ : list inv_Report) : M (run * option error) :=
  match rows_ with
  | [] => mret (ru, None)
  | row :: rest =>
      let hid := ToLower (ih_ID (ir_Host row)) in
      let d := digests !! hid in
      let next ru := reconcile_rows inv cfg s digests ru rest in
      if ih_Status (ir_Host row) =s "retired" then
        match d with
        | Some d => if dr_state d =s RepNotReported then next ru
                    else gone_step (markGone (hss_TenantID s) hid "retired" TriggerReconcile (ru_id ru)) ru next
        | None => next ru
        end
      else if match d with
              | Some d => (dr_state d =s RepReported) && negb (is_empty (ir_Digest row)) && (dr_digest d =s ir_Digest row)
              | None => false
              end then next ru
      else match inv_GetHostReport inv (hss_TenantID s) (ih_ID (ir_Host row)) with
      | Ok full => fetch_step cfg s digests full ru next
      | Err e => match err_root e with Invclient_ErrNotFound => next ru | _ => mret (ru, Some e) end
      end
  end.

(** Devices whose host is absent from the listing. *)
Fixpoint reconcile_absent (inv : Inventory) (cfg : Config) (s : HostSyncSettings) (digests : gmap string deviceRef) (ru : run)
    (absent : list (string * deviceRef)) : M (run * option error) :=
  match absent with
  | [] => mret (ru, None)
  | (hid, d) :: rest =>
      let next ru := reconcile_absent inv cfg s digests ru rest in
      if dr_state d =s RepNotReported then next ru
      else match inv_GetHostReport inv (hss_TenantID s) hid with
      | Ok full => fetch_step cfg s digests full ru next
      | Err e => match err_root e with
                 | Invclient_ErrNotFound => gone_step (markGone (hss_TenantID s) hid "deleted" TriggerReconcile (ru_id ru)) ru next
                 | _ => mret (ru, Some e)
                 end
      end
  end.

Definition reconcile (inv : Inventory) (cfg : Config) (s : HostSyncSettings) (ru : run) : M (run * option error) :=
  dg ← try (deviceDigests (hss_TenantID s));
  match dg with
  | Err e => mret (ru, Some e)
  | Ok digests =>
      let '(pages, err) := inv_ListHostReports inv (hss_TenantID s) {| f_ChangedSince := time_zero; f_Digest := true |} in
      match err with
      | Some e => mret (ru, Some e)
      | None =>
          let rows_ := concat pages in
          r ← reconcile_rows inv cfg s digests ru rows_;
          let '(ru, e) := r in
          match e with
          | Some e => mret (ru, Some e)
          | None =>
              let seen := (λ row, ToLower (ih_ID (ir_Host row))) <$> rows_ in
              reconcile_absent inv cfg s digests ru
                (List.filter (λ kd, negb (existsb (String.eqb (fst kd)) seen)) (map_to_list digests))
          end
      end
  end.

(** *** The runner *)

Record Runner : Type := {
  rn_globalSince : Time; rn_failures : Z; rn_nextAttempt : Time; rn_retry : gset string; rn_lastState : gmap string string }.

Definition Minute : Z := 60000000000.

Definition reconcileDue (s : HostSyncSettings) (t : Time) : bool :=
  hss_ReconcileRequested s ||
  match hss_LastReconcileAt s with
  | None => true
  | Some last => wrap64 (hss_FullIntervalMinutes s * Minute) <=? Sub t last
  end.

Definition saveState (rn : Runner) (tid : string) (st : HostSyncStatus) : M Runner :=
  r ← try (SaveHostSyncState tid st);
  match r with
  | Err _ => mret rn
  | Ok _ =>
      let prev := default "" (rn_lastState rn !! tid) in
      (if prev =s hst_Status st then mret ()
       else publish_event {| ev_tenant := tid; ev_type := EvHostSyncStatus; ev_payload := HostSyncStatusPayload (hst_Status st) |});;
      mret {| rn with rn_lastState := <[tid := hst_Status st]> (rn_lastState rn) |}
  end.

Definition runAudit (ru : run) : M () :=
  t ← now;
  row ← Row {| e_TenantID := ru_tenant ru; e_EventType := HostSyncRun; e_ActorKind := ActorSystem; e_ActorID := HostSyncActor;
               e_SubjectKind := SubjectHostSync; e_SubjectID := ru_id ru; e_Target := ""; e_Outcome := OutcomeOK; e_Reason := "";
               e_Details := [("hosts_fetched", AnyInt (ru_fetched ru)); ("hosts_applied", AnyInt (ru_applied ru));
                 ("hosts_failed", AnyInt (ru_failed ru)); ("hosts_skipped", AnyInt (ru_skipped ru));
                 ("changes", AnyInt (ru_changes ru)); ("run_id", AnyString (ru_id ru))] |} t;
  try (AppendAudit (match row with Ok row => row | Err _ => zero_AuditRow end));; mret ().

(** The state saved after a run. *)
Definition run_status (start watermark : Time) (reconciled : bool) (ru : run) (e : option error) : HostSyncStatus :=
  let base := {| hst_Status := HostSyncOK; hst_LastError := ""; hst_ChangedSince := timePtr watermark; hst_LastPollAt := Some start;
                 hst_LastReconcileAt := if reconciled then Some start else None; hst_ClearReconcile := reconciled;
                 hst_HostsReported := ru_applied ru + ru_skipped ru; hst_HostsFailed := ru_failed ru |} in
  match e with
  | None => base
  | Some e => match err_root e with
              | ErrSyncDisabled => {| base with hst_Status := HostSyncDisabled |}
              | Invclient_Error c => {| base with hst_Status := HostSyncDegraded; hst_LastError := c |}
              | _ => {| base with hst_Status := HostSyncDegraded; hst_LastError := "internal" |}
              end
  end.

Definition new_run (id tid : string) : run :=
  {| ru_id := id; ru_tenant := tid; ru_fetched := 0; ru_applied := 0; ru_failed := 0; ru_skipped := 0; ru_changes := 0; ru_rejected := 0 |}.

(** The error a run returns: a sync disabled meanwhile is none. *)
Definition run_error (e : option error) : option error :=
  match e with
  | Some e => match err_root e with ErrSyncDisabled => None | _ => Some e end
  | None => None
  end.

Definition RunTenant (inv : Inventory) (cfg : Config) (linker : option (string → M ())) (rn : Runner) (tid : string)
    : M (Runner * option error) :=
  rs ← try (EnsureHostSyncSettings tid);
  match rs with
  | Err e => mret (rn, Some e)
  | Ok s =>
      if negb (hss_Enabled s) then
        rn ← saveState rn tid {| zero_HostSyncStatus with hst_Status := HostSyncDisabled; hst_HostsReported := hss_HostsReported s;
                                 hst_HostsFailed := hss_HostsFailed s |};
        mret ({| rn with rn_retry := rn_retry rn ∖ {[tid]} |}, None)
      else
        id ← newID;
        start ← now;
        polled ← poll inv cfg s (default time_zero (hss_ChangedSince s)) (new_run id tid);
        let '(ru, watermark, perr) := polled in
        rc ← (match perr with
              | None => if reconcileDue s start then
                          r ← reconcile inv cfg s ru;
                          mret (fst r, snd r, negb (is_some (snd r)))
                        else mret (ru, None, false)
              | Some e => mret (ru, Some e, false)
              end);
        let '(ru, perr, reconciled) := rc in
        rn ← saveState rn tid (run_status start watermark reconciled ru perr);
        let rn := {| rn with rn_retry := if 0 <? ru_failed ru then {[tid]} ∪ rn_retry rn else rn_retry rn ∖ {[tid]} |} in
        (if (0 <? ru_fetched ru) || reconciled then runAudit ru else mret ());;
        match linker with
        | Some correlate => if 0 <? ru_changes ru then try (correlate tid);; mret () else mret ()
        | None => mret ()
        end;;
        mret (rn, run_error perr)
  end.

Definition degrade (cause : error) (rn : Runner) (s : HostSyncSettings) : M Runner :=
  if hss_Enabled s then
    saveState rn (hss_TenantID s) {| zero_HostSyncStatus with hst_Status := HostSyncDegraded; hst_LastError := Code cause;
      hst_HostsReported := hss_HostsReported s; hst_HostsFailed := hss_HostsFailed s |}
  else mret rn.

(** The delay before the next attempt: doubled per failure, at most [MaxBackoff]. *)
Definition backoff_delay (cfg : Config) (failures : Z) : Z :=
  let d := wrap64 (Z.shiftl (cf_PollInterval cfg) (Z.min failures 16)) in
  if (MaxBackoff <? d) || (d <=? 0) then MaxBackoff else d.

Definition backoff (cfg : Config) (cause : error) (rn : Runner) : M Runner :=
  t ← now;
  let failures := rn_failures rn + 1 in
  let rn := {| rn with rn_failures := failures; rn_nextAttempt := t + backoff_delay cfg failures |} in
  settings ← try ListHostSyncSettings;
  match settings with Err _ => mret rn | Ok l => foldM (degrade cause) rn l end.

(** The tenants of a cycle: changed, to retry, due for a reconcile. *)
Definition due_tenants (ids : list string) (rn : Runner) (settings : list HostSyncSettings) (t : Time) : list string :=
  let due : gset string :=
    list_to_set (ToLower <$> List.filter IsUUID ids) ∪ rn_retry rn ∪
    list_to_set (hss_TenantID <$> List.filter (λ s, hss_Enabled s && reconcileDue s t) settings) in
  sort_strings (elements due).

Fixpoint run_tenants (inv : Inventory) (cfg : Config) (linker : option (string → M ())) (rn : Runner) (first : option error)
    (l : list string) : M (Runner * option error) :=
  match l with
  | [] => mret (rn, first)
  | tid :: l' =>
      r ← RunTenant inv cfg linker rn tid;
      run_tenants inv cfg linker (fst r) (match first with Some e => Some e | None => snd r end) l'
  end.

Definition Cycle (inv : Inventory) (cfg : Config) (linker : option (string → M ())) (rn : Runner) : M (Runner * option error) :=
  t0 ← now;
  if t0 <? rn_nextAttempt rn then mret (rn, None)
  else match inv_ListReportTenants inv (rn_globalSince rn) with
  | Err e => rn ← backoff cfg e rn; mret (rn, Some e)
  | Ok (ids, maxAt) =>
      rs ← try ListHostSyncSettings;
      match rs with
      | Err e => mret (rn, Some e)
      | Ok settings =>
          t ← now;
          r ← run_tenants inv cfg linker rn None (due_tenants ids rn settings t);
          let '(rn, first) := r in
          match first with
          | Some e =>
              match err_root e with
              | Invclient_Error _ => rn ← backoff cfg e rn; mret (rn, Some e)
              | _ => mret ({| rn with rn_failures := 0; rn_nextAttempt := time_zero;
                              rn_globalSince := Z.max maxAt (rn_globalSince rn) |}, Some e)
              end
          | None => mret ({| rn with rn_failures := 0; rn_nextAttempt := time_zero;
                             rn_globalSince := Z.max maxAt (rn_globalSince rn) |}, None)
          end
      end
  end.
End with_env.
