(* ===== verification/HostPlanProps.v ===== *)
(** * The host-report planner: matching and the shape of a plan

    [Match] never takes a device another inventory host is linked to.  The
    planner only draws identifiers; each of its phases appends operations of
    its own kind ([phase]). *)

From S2P Require Import Prelude GoNet GoIP GoText Ipnet Placement Models Store Hostreport HostNorm HostTx MemInv HostTxProps AuditLog Events HwChanges HostPlan.

(** ** Programs that only draw identifiers *)

Definition draws {A} (op : M A) : Prop :=
  ∀ w, ∃ w' a, op w = (w', Ok a) ∧ w_mem w' = w_mem w ∧ w_events w' = w_events w ∧ w_ticks w' = w_ticks w ∧
    (w_ids w ≤ w_ids w')%nat.

Lemma draws_ret {A} (a : A) : draws (mret a).
Proof. intros w. by exists w, a. Qed.
Lemma draws_newID `{Env} : draws newID.
Proof. intros w. eexists _, _. split; [reflexivity|]. cbn. split_and!; try done. lia. Qed.
Lemma draws_bind {A B} (op : M A) (k : A → M B) : draws op → (∀ a, draws (k a)) → draws (op ≫= k).
Proof.
  intros Hop Hk w. destruct (Hop w) as (w1 & a & E & Hm & He & Ht & Hi). destruct (Hk a w1) as (w2 & b & E2 & Hm2 & He2 & Ht2 & Hi2).
  exists w2, b. rewrite (bind_Ok _ _ _ _ _ E). split_and!; [done|congruence|congruence|congruence|lia].
Qed.
Lemma draws_tx {A} (op : M A) : draws op → tx_prog op.
Proof.
  intros Hop. split.
  - intros w Hw. destruct (Hop w) as (w' & a & -> & Hm & _). cbn. by rewrite Hm.
  - intros w. destruct (Hop w) as (w' & a & -> & Hm & He & _ & Hi). cbn. by rewrite Hm, He.
Qed.

(** ** Phases *)

(** The planner after an appended operation. *)
Definition extends (P : write → Prop) (pl pl' : planner) : Prop :=
  ∃ l, hpl_Ops (pn_plan pl') = hpl_Ops (pn_plan pl) ++ l ∧ Forall P (op_write <$> l) ∧ pn_dev pl' = pn_dev pl ∧
    hpl_DeviceID (pn_plan pl') = hpl_DeviceID (pn_plan pl) ∧ hpl_Match (pn_plan pl') = hpl_Match (pn_plan pl) ∧
    pn_ifaces pl' = pn_ifaces pl.

Lemma extends_refl P pl : extends P pl pl.
Proof. exists []. by rewrite app_nil_r. Qed.
Lemma extends_trans P pl1 pl2 pl3 : extends P pl1 pl2 → extends P pl2 pl3 → extends P pl1 pl3.
Proof.
  intros (l1 & E1 & F1 & D1 & I1 & M1 & N1) (l2 & E2 & F2 & D2 & I2 & M2 & N2). exists (l1 ++ l2).
  rewrite E2, E1, fmap_app, Forall_app, app_assoc. split_and!; congruence.
Qed.
Lemma extends_add (P : write → Prop) pl o : P (op_write o) → extends P pl (add o pl).
Proof. intros HP. exists [o]. cbn. split_and!; try done. by apply Forall_singleton. Qed.
Lemma extends_weaken (P Q : write → Prop) pl pl' : (∀ x, P x → Q x) → extends P pl pl' → extends Q pl pl'.
Proof. intros Hw (l & E & F & R). exists l. split_and!; try done; [|naive_solver..]. eapply Forall_impl; [exact F|done]. Qed.

Definition phase (P : write → Prop) (pl : planner) (op : M planner) : Prop :=
  draws op ∧ ∀ w w' pl', op w = (w', Ok pl') → extends P pl pl'.

Lemma phase_ret P pl pl' : extends P pl pl' → phase P pl (mret pl').
Proof. intros He. split; [apply draws_ret|]. by intros w w' pl'' [= _ <-]. Qed.
Lemma phase_bind P pl (op : M planner) k : phase P pl op → (∀ pl', phase P pl' (k pl')) → phase P pl (op ≫= k).
Proof.
  intros [Hd He] Hk. split; [apply draws_bind; [done|intros a; apply Hk]|]. intros w w' pl' E.
  apply bind_inv in E as (w1 & pl1 & E1 & E2). eapply extends_trans; [by eapply He|]. by eapply Hk.
Qed.
(** A step that only draws before the phase goes on. *)
Lemma phase_draw P pl {A} (op : M A) k : draws op → (∀ a, phase P pl (k a)) → phase P pl (op ≫= k).
Proof.
  intros Hd Hk. split; [apply draws_bind; [done|intros a; apply Hk]|]. intros w w' pl' E.
  apply bind_inv in E as (w1 & a & E1 & E2). by eapply Hk.
Qed.
Lemma phase_weaken (P Q : write → Prop) pl op : (∀ x, P x → Q x) → phase P pl op → phase Q pl op.
Proof. intros Hw [Hd He]. split; [done|]. intros w w' pl' E. eapply extends_weaken; [done|by eapply He]. Qed.
Lemma phase_start P pl pl0 op : extends P pl pl0 → phase P pl0 op → phase P pl op.
Proof. intros H0 [Hd He]. split; [done|]. intros w w' pl' E. eapply extends_trans; [done|by eapply He]. Qed.

Lemma phase_foldM {A} P (f : planner → A → M planner) pl l : (∀ pl x, phase P pl (f pl x)) → phase P pl (foldM f pl l).
Proof.
  intros Hf. revert pl. induction l as [|x l IH]; intros pl; cbn [foldM]; [apply phase_ret, extends_refl|].
  by apply phase_bind; [apply Hf|].
Qed.

(** The kinds of write of each phase. *)
Definition iface_write (x : write) : Prop := match x with OpCreateInterface _ | OpUpdateInterface _ => True | _ => False end.
Definition addr_write (x : write) : Prop :=
  match x with OpCreateSubnet _ | OpCreateAddress _ | OpUpdateAddress _ => True | _ => False end.
Definition other_write (x : write) : Prop :=
  match x with
  | OpReplacePackages _ _ | OpReplaceHardware _ | OpReplaceGuests _ _ | OpSetHypervisor _ _ | OpSetGuestDevice _ _ _ => True
  | _ => False
  end.
(** Everything but the device's own columns. *)
Definition not_device_write (x : write) : Prop := match x with OpCreateDevice _ | OpUpdateDevice _ => False | _ => True end.

Section with_env.
Context `{Env} (st : State) (r : Report) (p : Params).

Lemma draws_row t k id detail : draws (row r p t k id detail).
Proof.
  unfold row. apply draws_bind; [|intros ?; apply draws_ret]. unfold Row. destruct (Validate _); [|apply draws_ret].
  apply draws_bind; [apply draws_newID|intros ?; apply draws_ret].
Qed.

(** Appending one audited operation. *)
Lemma phase_audited P pl t k id detail (f : AuditRow → Op) :
  (∀ a, P (op_write (f a))) → phase P pl (a ← row r p t k id detail; mret (add (f a) pl)).
Proof. intros HP. apply phase_draw; [apply draws_row|intros a]. apply phase_ret, extends_add, HP. Qed.

Lemma plan_iface_phase pl ri : phase iface_write pl (plan_iface st r p pl ri).
Proof.
  unfold plan_iface. destruct (existing_ifaces st !! rf_name ri) as [ex|].
  - cbv zeta. destruct (is_nil _); [apply phase_ret, extends_refl|by apply phase_audited].
  - apply phase_draw; [apply draws_newID|intros id]. cbv zeta. by apply phase_audited.
Qed.

(** The planner the interface phase starts from. *)
Definition with_ifaces (pl : planner) : planner :=
  {| pl with pn_issues := issues_add "bmc_interface" "name_taken" (snd (reportedInterfaces r p)) (pn_issues pl);
     pn_ifaces := fst (reportedInterfaces r p) |}.

Lemma interfaces_phase pl : phase iface_write (with_ifaces pl) (interfaces st r p pl).
Proof.
  unfold interfaces, with_ifaces. destruct (reportedInterfaces r p) as [ifs skipped]. cbv zeta. cbn [fst snd].
  apply phase_bind; [apply phase_foldM, plan_iface_phase|intros pl'; apply phase_foldM].
  intros pl'' ex. unfold release_iface. cbv zeta. by apply phase_audited.
Qed.

Lemma extends_event P pl pl' ty ac a : extends P pl pl' → extends P pl (event_ ty ac a pl').
Proof. intros (l & E & F & D & I & Mt & N). exists l. cbn. by split_and!. Qed.

Lemma placeSubnet_run a pl :
  draws (placeSubnet r p a pl) ∧
  ∀ w w' s pl', placeSubnet r p a pl w = (w', Ok (s, pl')) →
    ∃ l, hpl_Ops (pn_plan pl') = hpl_Ops (pn_plan pl) ++ l ∧ Forall (λ x, ∃ s, x = OpCreateSubnet s) (op_write <$> l) ∧
      pn_dev pl' = pn_dev pl ∧ hpl_DeviceID (pn_plan pl') = hpl_DeviceID (pn_plan pl) ∧ hpl_Match (pn_plan pl') = hpl_Match (pn_plan pl).
Proof.
  unfold placeSubnet. destruct (MostSpecific (pn_subnets pl) (ra_Addr a)) as [c [|]]; cbv zeta.
  - split; [apply draws_ret|]. intros w w' s pl' [= <- <- <-]. exists []. by rewrite app_nil_r.
  - split.
    + apply draws_bind; [apply draws_newID|intros id]. apply draws_bind; [apply draws_row|intros au]. apply draws_ret.
    + intros w w' s pl' E. m_inv. injection H1 as -> ->. cbn. eexists [_]. split_and!; try done.
      apply Forall_singleton. by eexists.
Qed.

Lemma draws_move_rows dev key row_ want action : draws (move_rows r p dev key row_ want action).
Proof.
  unfold move_rows. apply draws_bind.
  - destruct (_ =s _); [|apply draws_ret]. apply draws_bind; [apply draws_row|intros a].
    destruct (new_conflict p row_ want); [|apply draws_ret]. apply draws_bind; [apply draws_row|intros b; apply draws_ret].
  - intros l. destruct (conflict_over p action row_); [|apply draws_ret].
    apply draws_bind; [apply draws_row|intros c; apply draws_ret].
Qed.

(** ** The address writes of a plan *)

Definition key_of (x : reportedIface * Address) : string := Addr_String (ra_Addr (snd x)).
Definition primary_of (x : reportedIface * Address) : bool :=
  negb (rf_bmc (fst x)) && (bool_decide (ra_Addr (snd x) = rp_PrimaryIPv4 r) || bool_decide (ra_Addr (snd x) = rp_PrimaryIPv6 r)).
Definition hostname_of (x : reportedIface * Address) : string := if rf_bmc (fst x) then "" else DNSHostname (rp_Hostname r).

(** The wanted row of a known address, as written. *)
Definition want_row (dev : string) (x : reportedIface * Address) (row_ : IPAddress) : IPAddress :=
  let want := want_address p dev (fst x) (primary_of x) (hostname_of x) row_ in
  {| want with ad_LastSeen := timePtr (rp_CollectedAt r) |}.

(** The row of a new address. *)
Definition is_new_row (dev id : string) (x : reportedIface * Address) (na : IPAddress) : Prop :=
  ad_ID na = id ∧ ad_TenantID na = pm_TenantID p ∧ ad_Address na = key_of x ∧ ad_DeviceID na = dev ∧
  ad_InterfaceName na = rf_name (fst x) ∧ ad_MACAddress na = rf_mac (fst x) ∧ ad_Hostname na = hostname_of x ∧
  ad_IsPrimary na = primary_of x ∧ ad_ReportState na = RepReported ∧ ad_CreatedBy na = HostSyncActor.

(** The address writes among planned writes: [true] creates. *)
Definition addr_of (x : write) : option (bool * IPAddress) :=
  match x with OpCreateAddress a => Some (true, a) | OpUpdateAddress a => Some (false, a) | _ => None end.
Definition addr_writes (l : list Op) : list (bool * IPAddress) := omap addr_of (op_write <$> l).

(** What one reported address adds to the plan, from identifier [n] on. *)
Definition item_writes (dev : string) (n : nat) (x : reportedIface * Address) (l : list (bool * IPAddress)) : Prop :=
  match st_Addresses st !! key_of x with
  | None => ∃ na, l = [(true, na)] ∧ is_new_row dev (id_at n) x na
  | Some row_ =>
      if is_nil (addrChanges row_ (want_address p dev (fst x) (primary_of x) (hostname_of x) row_)) then l = []
      else l = [(false, want_row dev x row_)]
  end.

Inductive items_writes (dev : string) : nat → list (reportedIface * Address) → list (bool * IPAddress) → nat → Prop :=
| iw_nil n : items_writes dev n [] [] n
| iw_cons n n1 n2 x rest l1 l2 :
    item_writes dev n x l1 → (n + length (List.filter fst l1) ≤ n1)%nat → items_writes dev n1 rest l2 n2 →
    items_writes dev n (x :: rest) (l1 ++ l2) n2.

Lemma addr_writes_app l1 l2 : addr_writes (l1 ++ l2) = addr_writes l1 ++ addr_writes l2.
Proof. unfold addr_writes. by rewrite fmap_app, omap_app. Qed.

Lemma addr_writes_none l : Forall (λ x, addr_of x = None) (op_write <$> l) → addr_writes l = [].
Proof.
  unfold addr_writes. induction l as [|o l IH]; [done|]. rewrite fmap_cons. intros [E F]%Forall_cons. cbn. rewrite E. by apply IH.
Qed.

(** What a run of the planner adds: identifiers, operations, nothing else. *)
Record grew (pl pl' : planner) (w w' : World) (l : list Op) : Prop := {
  gr_mem : w_mem w' = w_mem w;
  gr_events : w_events w' = w_events w;
  gr_ticks : w_ticks w' = w_ticks w;
  gr_ids : (w_ids w ≤ w_ids w')%nat;
  gr_ops : hpl_Ops (pn_plan pl') = hpl_Ops (pn_plan pl) ++ l;
  gr_dev : pn_dev pl' = pn_dev pl;
  gr_id : hpl_DeviceID (pn_plan pl') = hpl_DeviceID (pn_plan pl);
  gr_match : hpl_Match (pn_plan pl') = hpl_Match (pn_plan pl)
}.

Lemma grew_trans pl1 pl2 pl3 w1 w2 w3 l1 l2 :
  grew pl1 pl2 w1 w2 l1 → grew pl2 pl3 w2 w3 l2 → grew pl1 pl3 w1 w3 (l1 ++ l2).
Proof. intros [] []. split; try congruence; [lia|]. by rewrite gr_ops1, gr_ops0, app_assoc. Qed.

Lemma phase_grew P pl op w : phase P pl op → 
  ∃ w' pl' l, op w = (w', Ok pl') ∧ grew pl pl' w w' l ∧ Forall P (op_write <$> l) ∧ pn_ifaces pl' = pn_ifaces pl.
Proof.
  intros [Hd He]. destruct (Hd w) as (w' & pl' & E & Hm & Hev & Ht & Hi). destruct (He _ _ _ E) as (l & Eo & F & D & I & Mt & N).
  by exists w', pl', l.
Qed.

Lemma plan_address_run pl x w :
  ∃ w' pl' l, plan_address st r p pl x w = (w', Ok pl') ∧ grew pl pl' w w' l ∧ Forall addr_write (op_write <$> l) ∧
    item_writes (dv_ID (pn_dev pl)) (w_ids w) x (addr_writes l) ∧
    (w_ids w + length (List.filter fst (addr_writes l)) ≤ w_ids w')%nat.
Proof.
  destruct x as [ri a]. unfold plan_address, address, item_writes, key_of. cbn [fst snd].
  fold (primary_of (ri, a)) (hostname_of (ri, a)). set (key := Addr_String (ra_Addr a)). cbv zeta.
  destruct (st_Addresses st !! key) as [row_|] eqn:Est.
  - destruct (draws_move_rows (dv_ID (pn_dev pl)) key row_
      (want_address p (dv_ID (pn_dev pl)) ri (primary_of (ri, a)) (hostname_of (ri, a)) row_)
      (claim_action (dv_ID (pn_dev pl)) row_) w) as (w1 & rows_ & E1 & Hm1 & He1 & Ht1 & Hi1).
    unfold primary_of, hostname_of in E1; cbn [fst snd] in E1. unfold primary_of, hostname_of. cbn [fst snd].
    rewrite (bind_Ok _ _ _ _ _ E1). destruct (is_nil _) eqn:Enil.
    + exists w1, pl, []. split_and!; try done; [split; try done; by rewrite app_nil_r|cbn; lia].
    + destruct (claim_action _ row_ =s ActionMoved).
      * rewrite (bind_Ok _ _ w1 w1 rows_ eq_refl). eexists w1, _, [_]. split; [reflexivity|].
        split_and!; [split; done|by apply Forall_singleton|done|cbn; lia].
      * set (op := row r p AddressUpdated _ _ _).
        destruct (draws_row AddressUpdated SubjectAddress (ad_ID row_)
          ([("address", AnyString key); ("changes", AnyMap (addrChanges row_ (want_address p (dv_ID (pn_dev pl)) ri
             (primary_of (ri, a)) (hostname_of (ri, a)) row_)))] ++
           (if claim_action (dv_ID (pn_dev pl)) row_ =s ActionClaimed then [("claimed", AnyBool true)] else [])) w1)
          as (w2 & a0 & E2 & Hm2 & He2 & Ht2 & Hi2).
        assert (E3 : (a0 ← op; mret (a0 :: rows_)) w1 = (w2, Ok (a0 :: rows_))) by (by rewrite (bind_Ok _ _ _ _ _ E2)).
        rewrite (bind_Ok _ _ _ _ _ E3). eexists w2, _, [_]. split; [reflexivity|].
        split_and!; [split; try congruence; try done; lia|by apply Forall_singleton|done|cbn; lia].
  - rewrite (bind_Ok newID _ w {| w with w_ids := S (w_ids w) |} (id_at (w_ids w)) eq_refl).
    set (w0 := {| w with w_ids := S (w_ids w) |}). destruct (placeSubnet_run a pl) as [Hd Hs].
    destruct (Hd w0) as (w1 & [s pl1] & E1 & Hm1 & He1 & Ht1 & Hi1). destruct (Hs _ _ _ _ E1) as (l & El & Fl & Dl & Il & Ml).
    rewrite (bind_Ok _ _ _ _ _ E1). cbn [fst snd].
    destruct (draws_row AddressCreated SubjectAddress (id_at (w_ids w))
      [("address", AnyString key); ("device_id", AnyString (dv_ID (pn_dev pl))); ("interface", AnyString (rf_name ri))] w1)
      as (w2 & au & E2 & Hm2 & He2 & Ht2 & Hi2).
    rewrite (bind_Ok _ _ _ _ _ E2). eexists w2, _, (l ++ [_]). split; [reflexivity|].
    assert (Hl : addr_writes l = []) by (apply addr_writes_none; eapply Forall_impl; [exact Fl|]; by intros ? [? ->]).
    rewrite addr_writes_app, Hl. cbn in Hm1, He1, Ht1, Hi1. split_and!.
    + split; cbn; try congruence; [lia|]. by rewrite El, app_assoc.
    + rewrite fmap_app, Forall_app. split; [eapply Forall_impl; [exact Fl|]; by intros ? [? ->]|by apply Forall_singleton].
    + eexists. split; [reflexivity|]. by split_and!.
    + cbn. lia.
Qed.

Lemma plan_addresses_run pl l w :
  ∃ w' pl' ops, foldM (plan_address st r p) pl l w = (w', Ok pl') ∧ grew pl pl' w w' ops ∧ Forall addr_write (op_write <$> ops) ∧
    ∃ n, items_writes (dv_ID (pn_dev pl)) (w_ids w) l (addr_writes ops) n ∧ (n ≤ w_ids w')%nat.
Proof.
  revert pl w. induction l as [|x l IH]; intros pl w; cbn [foldM].
  - exists w, pl, []. split_and!; try done; [split; try done; by rewrite app_nil_r|]. exists (w_ids w). split; [constructor|done].
  - destruct (plan_address_run pl x w) as (w1 & pl1 & l1 & E1 & G1 & F1 & I1 & N1).
    destruct (IH pl1 w1) as (w2 & pl2 & l2 & E2 & G2 & F2 & n & I2 & N2). rewrite (bind_Ok _ _ _ _ _ E1).
    exists w2, pl2, (l1 ++ l2). split_and!; [done|by eapply grew_trans|by rewrite fmap_app, Forall_app|].
    exists n. rewrite addr_writes_app. split; [|done]. econstructor; [exact I1|exact N1|]. by rewrite <- (gr_dev _ _ _ _ _ G1).
Qed.

(** The addresses to record, and the rows to release. *)
Definition todo (ifs : list reportedIface) : list (reportedIface * Address) := dedup_addrs ∅ (iface_addrs ifs).
Definition gone_rows (dev : string) (ifs : list reportedIface) : list IPAddress :=
  snd <$> List.filter (λ kr, gone_addr r dev (key_of <$> todo ifs) (fst kr) (snd kr))
    (omap (λ k, (λ v, (k, v)) <$> st_Addresses st !! k) (sort_strings (fst <$> map_to_list (st_Addresses st)))).

Lemma release_addrs_run pl l w :
  ∃ w' pl' ops, foldM (release_addr r p) pl l w = (w', Ok pl') ∧ grew pl pl' w w' ops ∧ Forall addr_write (op_write <$> ops) ∧
    addr_writes ops = (λ row_, (false, released (dv_ID (pn_dev pl)) row_)) <$> l.
Proof.
  revert pl w. induction l as [|row_ l IH]; intros pl w; cbn [foldM].
  - exists w, pl, []. split_and!; try done. split; try done; by rewrite app_nil_r.
  - destruct (draws_row AddressReleased SubjectAddress (ad_ID (released (dv_ID (pn_dev pl)) row_))
      [("address", AnyString (ad_Address (released (dv_ID (pn_dev pl)) row_))); ("previous_device_id", AnyString (dv_ID (pn_dev pl)))] w) as (w1 & a & E1 & Hm1 & He1 & Ht1 & Hi1).
    set (pl1 := event_ IPAddressUpdated ActionReleased (released (dv_ID (pn_dev pl)) row_)
      (add {| op_write := OpUpdateAddress (released (dv_ID (pn_dev pl)) row_); op_Audit := [a] |} pl)).
    destruct (IH pl1 w1) as (w2 & pl2 & l2 & E2 & G2 & F2 & A2).
    exists w2, pl2, ({| op_write := OpUpdateAddress (released (dv_ID (pn_dev pl)) row_); op_Audit := [a] |} :: l2). split_and!.
    + rewrite (bind_Ok _ _ w w1 pl1); [exact E2|]. unfold release_addr. cbv zeta. by rewrite (bind_Ok _ _ _ _ _ E1).
    + apply (grew_trans pl pl1 pl2 w w1 w2 [_] l2); [|done]. by split.
    + by rewrite fmap_cons, Forall_cons.
    + cbn. unfold addr_writes in A2 |- *. cbn. by rewrite A2.
Qed.

Lemma addresses_run pl w :
  let dev := dv_ID (pn_dev pl) in
  ∃ w' pl' ops items n, addresses st r p pl w = (w', Ok pl') ∧ grew pl pl' w w' ops ∧ Forall addr_write (op_write <$> ops) ∧
    items_writes dev (w_ids w) (todo (pn_ifaces pl)) items n ∧ (n ≤ w_ids w')%nat ∧
    addr_writes ops = items ++ ((λ row_, (false, released dev row_)) <$> gone_rows dev (pn_ifaces pl)).
Proof.
  cbv zeta. unfold addresses. set (pl0 := {| pl with pn_subnets := _; pn_subnetNames := _ |}). cbn [pn_ifaces pl0].
  destruct (plan_addresses_run pl0 (todo (pn_ifaces pl)) w) as (w1 & pl1 & l1 & E1 & G1 & F1 & n & I1 & N1).
  fold (todo (pn_ifaces pl)). rewrite (bind_Ok _ _ _ _ _ E1).
  destruct (release_addrs_run pl1 (gone_rows (dv_ID (pn_dev pl)) (pn_ifaces pl)) w1) as (w2 & pl2 & l2 & E2 & G2 & F2 & A2).
  exists w2, pl2, (l1 ++ l2), (addr_writes l1), n. split_and!.
  - rewrite <- E2. unfold gone_rows. by rewrite (gr_dev _ _ _ _ _ G1).
  - apply (grew_trans pl pl1 pl2 w w1 w2 l1 l2); [|done]. destruct G1. by split.
  - by rewrite fmap_app, Forall_app.
  - done.
  - pose proof (gr_ids _ _ _ _ _ G2). lia.
  - by rewrite addr_writes_app, A2, (gr_dev _ _ _ _ _ G1).
Qed.

(** ** The other phases *)

Lemma draws_foldM {A S} (f : S → A → M S) s l : (∀ s x, draws (f s x)) → draws (foldM f s l).
Proof.
  intros Hf. revert s. induction l as [|x l IH]; intros s; cbn [foldM]; [apply draws_ret|]. by apply draws_bind.
Qed.

Lemma packages_phase pl : phase other_write pl (packages st r p pl).
Proof.
  unfold packages. destruct (_ && _); [apply phase_ret, extends_refl|]. cbv zeta. apply phase_draw.
  - apply draws_foldM. intros acc q. unfold plan_package. destruct (_ !! _); [apply draws_ret|].
    apply draws_bind; [apply draws_newID|intros ?; apply draws_ret].
  - intros acc. destruct (_ =? 0); [apply phase_ret, extends_refl|]. by apply phase_audited.
Qed.

Lemma hardware_phase pl : phase other_write pl (hardware st r p pl).
Proof.
  unfold hardware. destruct (rp_Hardware r) as [hw|]; [|apply phase_ret, extends_refl]. cbv zeta.
  destruct (st_Hardware st) as [cur|]; [|by apply phase_audited].
  destruct (negb _); [by apply phase_audited|]. destruct (sameUsage _ _); [apply phase_ret, extends_refl|].
  by apply phase_ret, extends_add.
Qed.

(** A step of the guest loop. *)
Lemma plan_guest_run owners existing acc g :
  draws (plan_guest r p owners existing acc g) ∧
  ∀ w w' acc', plan_guest r p owners existing acc g w = (w', Ok acc') → extends other_write (gp_pl acc) (gp_pl acc').
Proof.
  assert (Hrow : ∀ b : HypervisorGuest, draws (match existing !! g_Ref g with
    | Some ex => mret {| b with hg_ID := hg_ID ex; hg_LastReportedAt := hg_LastReportedAt ex |}
    | None => id ← newID; mret {| b with hg_ID := id |} end)).
  { intros b. destruct (existing !! g_Ref g); [apply draws_ret|]. apply draws_bind; [apply draws_newID|intros ?; apply draws_ret]. }
  unfold plan_guest. cbv zeta. split.
  - apply draws_bind; [apply Hrow|intros row_]. destruct (map_to_list _) as [|[id hv] [|]]; [apply draws_ret| |apply draws_ret].
    apply draws_bind; [|intros ?; apply draws_ret]. destruct (decide _); [apply draws_ret|]. destruct (_ =s _); [apply draws_ret|].
    apply draws_bind; [apply draws_row|intros ?; apply draws_ret].
  - intros w w' acc' E. apply bind_inv in E as (w1 & row_ & _ & E).
    destruct (map_to_list _) as [|[id hv] [|]].
    + apply ret_inv in E as [_ ->]. apply extends_refl.
    + apply bind_inv in E as (w2 & pl2 & E2 & E). apply ret_inv in E as [_ ->]. cbn [gp_pl].
      destruct (decide _); [apply ret_inv in E2 as [_ ->]; apply extends_refl|].
      destruct (_ =s _); [apply ret_inv in E2 as [_ ->]; apply extends_refl|].
      apply bind_inv in E2 as (w3 & a & _ & E2). apply ret_inv in E2 as [_ ->]. by apply extends_add.
    + apply ret_inv in E as [_ ->]. cbn [gp_pl]. exists []. cbn. by rewrite app_nil_r.
Qed.

Lemma plan_guests_run owners existing acc l :
  draws (foldM (plan_guest r p owners existing) acc l) ∧
  ∀ w w' acc', foldM (plan_guest r p owners existing) acc l w = (w', Ok acc') → extends other_write (gp_pl acc) (gp_pl acc').
Proof.
  split; [apply draws_foldM; intros; apply plan_guest_run|]. revert acc. induction l as [|g l IH]; intros acc w w' acc' E; cbn [foldM] in E.
  - apply ret_inv in E as [_ ->]. apply extends_refl.
  - apply bind_inv in E as (w1 & acc1 & E1 & E). eapply extends_trans; [by eapply plan_guest_run|by eapply IH].
Qed.

Lemma guests_phase pl : phase other_write pl (guests st r p pl).
Proof.
  unfold guests. destruct (_ && _); [apply phase_ret, extends_refl|]. cbv zeta.
  set (acc0 := {| gp_pl := pl; gp_want := []; gp_linked := ∅ |}). set (loop := foldM _ acc0 _).
  destruct (plan_guests_run (mac_owners st (dv_ID (pn_dev pl))) (foldl (λ m g, <[hg_GuestRef g:=g]> m) ∅ (st_Guests st)) acc0 (rp_Guests r))
    as [Hd He]. fold loop in Hd, He.
  assert (Hk : ∀ acc, phase other_write (gp_pl acc) (
     pl' ← foldM (unlink_guest r p (gp_linked acc)) (gp_pl acc) (st_GuestDevices st);
     if guestsEqual (st_Guests st) (gp_want acc) then mret pl'
     else a ← row r p DeviceUpdated SubjectDevice (dv_ID (pn_dev pl))
            [("changes", AnyMap [("guests", AnyMap [("before", AnyList (guestRefs (st_Guests st)));
               ("after", AnyList (guestRefs ((λ g, {| g with hg_LastReportedAt := pm_Now p |}) <$> gp_want acc)))])])];
          mret (add {| op_write := OpReplaceGuests (dv_ID (pn_dev pl)) ((λ g, {| g with hg_LastReportedAt := pm_Now p |}) <$> gp_want acc);
                       op_Audit := [a] |} pl'))).
  { intros acc. apply phase_bind.
    - apply phase_foldM. intros pl' gd. unfold unlink_guest. destruct (decide _); [apply phase_ret, extends_refl|]. by apply phase_audited.
    - intros pl'. destruct (guestsEqual _ _); [apply phase_ret, extends_refl|]. by apply phase_audited. }
  split; [apply draws_bind; [done|intros acc; apply Hk]|]. intros w w' pl' E. apply bind_inv in E as (w1 & acc & E1 & E2).
  eapply extends_trans; [by eapply He|]. by eapply Hk.
Qed.

Lemma ownHypervisor_phase pl : phase other_write pl (ownHypervisor st r p pl).
Proof.
  unfold ownHypervisor. cbv zeta. destruct (map_to_list _) as [|[host rows_] [|]].
  - apply phase_ret, extends_refl.
  - apply phase_bind.
    + destruct (_ =s _); [apply phase_ret, extends_refl|]. by apply phase_audited.
    + intros pl'. apply phase_foldM. intros pl'' g. unfold claim_guest_row. cbv zeta.
      destruct (_ =s _); [apply phase_ret, extends_refl|]. by apply phase_audited.
  - apply phase_ret. exists []. cbn. by rewrite app_nil_r.
Qed.

(** ** The device phase and the whole plan *)

(** The device the plan is about, before and after, and its write. *)
Definition device_writes (n : nat) (d0 d : Device) (l : list write) : Prop :=
  let cur := fst (Match (st_Candidates st) r) in
  d = report_device r d0 (negb (is_some cur)) (desiredName (st_Candidates st) r (dv_ID d0)) ∧
  match cur with
  | Some dv => d0 = dv ∧ l = (if is_nil (deviceChanges d0 d) then [] else [OpUpdateDevice d])
  | None => d0 = new_device p (id_at n) ∧ l = [OpCreateDevice d]
  end.

Lemma device_run w :
  ∃ w' pl' ops d0, device st r p new_planner w = (w', Ok pl') ∧ w_mem w' = w_mem w ∧ w_events w' = w_events w ∧
    w_ticks w' = w_ticks w ∧ (w_ids w ≤ w_ids w')%nat ∧ hpl_Ops (pn_plan pl') = ops ∧
    hpl_DeviceID (pn_plan pl') = dv_ID (pn_dev pl') ∧ hpl_Match (pn_plan pl') = snd (Match (st_Candidates st) r) ∧
    device_writes (w_ids w) d0 (pn_dev pl') (op_write <$> ops) ∧
    (fst (Match (st_Candidates st) r) = None → (w_ids w < w_ids w')%nat).
Proof.
  unfold device, device_writes. destruct (Match (st_Candidates st) r) as [[dv|] how]; cbn [fst snd is_some negb].
  - rewrite (bind_Ok _ _ w w dv eq_refl). cbv zeta. destruct (is_nil _) eqn:En.
    + eexists w, _, [], dv. split; [reflexivity|]. cbn. rewrite En. by split_and!.
    + match goal with |- context [(row r p ?t ?k ?i ?det ≫= _) w] => destruct (draws_row t k i det w) as (w1 & a & E1 & Hm1 & He1 & Ht1 & Hi1) end.
      rewrite (bind_Ok _ _ _ _ _ E1). eexists w1, _, [_], dv. split; [reflexivity|]. cbn. rewrite En. by split_and!.
  - rewrite (bind_Ok _ _ w {| w with w_ids := S (w_ids w) |} _ eq_refl). cbv zeta.
    match goal with |- context [(row r p ?t ?k ?i ?det ≫= _) ?w0] => destruct (draws_row t k i det w0) as (w1 & a & E1 & Hm1 & He1 & Ht1 & Hi1) end.
    rewrite (bind_Ok _ _ _ _ _ E1). cbn in Hm1, He1, Ht1, Hi1.
    eexists w1, _, [_], (new_device p (id_at (w_ids w))). split; [reflexivity|]. cbn -[new_device report_device]. split_and!; try done; lia.
Qed.

(** The plan: the device's write, interface writes, the address writes, the rest. *)
Record plan_shape (w w' : World) (plan : Plan) (d0 d : Device) (n1 n2 : nat) (items : list (bool * IPAddress)) : Prop := {
  sh_mem : w_mem w' = w_mem w;
  sh_events : w_events w' = w_events w;
  sh_ticks : w_ticks w' = w_ticks w;
  sh_ids : (w_ids w ≤ n1 ∧ n1 ≤ n2 ∧ n2 ≤ w_ids w')%nat;
  sh_new : fst (Match (st_Candidates st) r) = None → (w_ids w < n1)%nat;
  sh_device : hpl_DeviceID plan = dv_ID d;
  sh_match : hpl_Match plan = snd (Match (st_Candidates st) r);
  sh_state : hsd_DeviceID (hpl_State plan) = dv_ID d ∧ hsd_Changes (hpl_State plan) = Z.of_nat (length (hpl_Ops plan));
  sh_ops : ∃ dev_ops rest, hpl_Ops plan = dev_ops ++ rest ∧ device_writes (w_ids w) d0 d (op_write <$> dev_ops) ∧
    Forall not_device_write (op_write <$> rest);
  sh_addrs : addr_writes (hpl_Ops plan) =
    items ++ ((λ row_, (false, released (dv_ID d) row_)) <$> gone_rows (dv_ID d) (fst (reportedInterfaces r p)));
  sh_items : items_writes (dv_ID d) n1 (todo (fst (reportedInterfaces r p))) items n2
}.

Lemma device_writes_addrs n d0 d ops : device_writes n d0 d (op_write <$> ops) → addr_writes ops = [].
Proof.
  intros [_ Hd]. apply addr_writes_none. destruct (fst _).
  - destruct Hd as [_ ->]. destruct (is_nil _); [constructor|by apply Forall_singleton].
  - destruct Hd as [_ ->]. by apply Forall_singleton.
Qed.

Lemma Build_shape w :
  ∃ w' plan d0 d n1 n2 items, Build st r p w = (w', Ok plan) ∧ plan_shape w w' plan d0 d n1 n2 items.
Proof.
  unfold Build. destruct (device_run w) as (w1 & pl1 & l1 & d0 & E1 & Hm1 & He1 & Ht1 & Hi1 & Ho1 & Hid1 & Hmt1 & Hdw & Hnew).
  rewrite (bind_Ok _ _ _ _ _ E1).
  destruct (phase_grew _ _ _ w1 (interfaces_phase pl1)) as (w2 & pl2 & l2 & E2 & G2 & F2 & N2). rewrite (bind_Ok _ _ _ _ _ E2).
  destruct (addresses_run pl2 w2) as (w3 & pl3 & l3 & items & n & E3 & G3 & F3 & I3 & Hn3 & A3). rewrite (bind_Ok _ _ _ _ _ E3).
  destruct (phase_grew _ _ _ w3 (packages_phase pl3)) as (w4 & pl4 & l4 & E4 & G4 & F4 & _). rewrite (bind_Ok _ _ _ _ _ E4).
  destruct (phase_grew _ _ _ w4 (hardware_phase pl4)) as (w5 & pl5 & l5 & E5 & G5 & F5 & _). rewrite (bind_Ok _ _ _ _ _ E5).
  destruct (phase_grew _ _ _ w5 (guests_phase pl5)) as (w6 & pl6 & l6 & E6 & G6 & F6 & _). rewrite (bind_Ok _ _ _ _ _ E6).
  destruct (phase_grew _ _ _ w6 (ownHypervisor_phase pl6)) as (w7 & pl7 & l7 & E7 & G7 & F7 & _). rewrite (bind_Ok _ _ _ _ _ E7).
  pose proof (grew_trans _ _ _ _ _ _ _ _ G4 (grew_trans _ _ _ _ _ _ _ _ G5 (grew_trans _ _ _ _ _ _ _ _ G6 G7))) as G47.
  pose proof (grew_trans _ _ _ _ _ _ _ _ G2 (grew_trans _ _ _ _ _ _ _ _ G3 G47)) as G.
  set (rest := l4 ++ l5 ++ l6 ++ l7) in *. pose proof (gr_dev _ _ _ _ _ G) as Hdev. cbn [pn_dev with_ifaces] in Hdev.
  assert (Hdev2 : pn_dev pl2 = pn_dev pl1) by (by rewrite (gr_dev _ _ _ _ _ G2)).
  assert (Hw : ∀ l, Forall other_write (op_write <$> l) → addr_writes l = []).
  { intros l F. apply addr_writes_none. eapply Forall_impl; [exact F|]. by intros []. }
  assert (Frest : Forall other_write (op_write <$> rest)) by (unfold rest; rewrite !fmap_app, !Forall_app; done).
  assert (Hops : hpl_Ops (pn_plan pl7) = l1 ++ (l2 ++ l3 ++ rest)) by (rewrite (gr_ops _ _ _ _ _ G); cbn; by rewrite Ho1).
  exists w7, (finish r p pl7), d0, (pn_dev pl1), (w_ids w2), n, items. split; [reflexivity|]. rewrite N2, Hdev2 in A3, I3. cbn [pn_ifaces with_ifaces] in A3, I3.
  pose proof (gr_ids _ _ _ _ _ G2). pose proof (gr_ids _ _ _ _ _ G3). pose proof (gr_ids _ _ _ _ _ G47). split.
  - by rewrite (gr_mem _ _ _ _ _ G).
  - by rewrite (gr_events _ _ _ _ _ G).
  - by rewrite (gr_ticks _ _ _ _ _ G).
  - cbn. split_and!; try lia. clear -I3. induction I3; [done|]. lia.
  - intros E. specialize (Hnew E). lia.
  - cbn. rewrite (gr_id _ _ _ _ _ G). cbn. exact Hid1.
  - cbn. rewrite (gr_match _ _ _ _ _ G). cbn. exact Hmt1.
  - cbn. by rewrite Hdev.
  - exists l1, (l2 ++ l3 ++ rest). cbn. split_and!; [done|done|]. rewrite !fmap_app, !Forall_app. split_and!.
    + eapply Forall_impl; [exact F2|]. by intros [].
    + eapply Forall_impl; [exact F3|]. by intros [].
    + eapply Forall_impl; [exact Frest|]. by intros [].
  - change (hpl_Ops (finish r p pl7)) with (hpl_Ops (pn_plan pl7)). rewrite Hops, !addr_writes_app, (device_writes_addrs _ _ _ _ Hdw), A3, (Hw rest Frest), app_nil_r.
    rewrite (addr_writes_none l2); [done|]. eapply Forall_impl; [exact F2|]. by intros [].
  - exact I3.
Qed.
End with_env.
