(* ===== verification/HostSyncProps.v ===== *)
(** * The host sync: transactions, what a report changes, watermarks

    A report is applied entirely or not at all.  When it is applied, its
    device row, its addresses and nothing else reflect it.  A poll never moves
    its watermark past a failed host. *)

From S2P Require Import Prelude GoNet GoIP GoText Ipnet Placement Models Store Hostreport HostNorm MemNet MemDev MemScan HostTx MemInv HostTxProps AddressProps AuditLog Events HwChanges HostPlan HostPlanProps HostSync.

Section with_env.
Context `{Env} (json_profile : HardwareProfile → string) (sha256_hex : string → string).

(** ** The programs of a transaction *)

Lemma tx_read {A} (f : Mem → A) : tx_prog (m ← mem; mret (f m)).
Proof. apply tx_bind; [apply tx_mem|intros m; apply tx_ret]. Qed.
Hint Resolve tx_read : tx.

Lemma load_tx tid r : tx_prog (load tid r).
Proof.
  unfold load, optM, DevicesBySerial, DevicesByNames, Interfaces, AddressesOfDevice, Packages, Guests, GuestDevicesOf,
    AddressesByValue, Subnets, DevicesByMAC, GuestRowsByMAC. tx_run.
Qed.

Lemma Build_tx st r p : tx_prog (Build st r p).
Proof.
  apply draws_tx. intros w. destruct (Build_shape st r p w) as (w' & plan & d0 & d & n1 & n2 & items & E & Hsh).
  exists w', plan. destruct Hsh. split_and!; try done. lia.
Qed.

Lemma run_write_tx tid x : tx_prog (run_write tid x).
Proof. destruct x; cbn [run_write]; eauto with tx. Qed.
Hint Resolve load_tx Build_tx run_write_tx : tx.

Lemma execute_tx tid plan : tx_prog (execute tid plan).
Proof.
  unfold execute. apply tx_mapM_. intros o. unfold execute_op. apply tx_bind; [eauto with tx|intros _].
  apply tx_mapM_. eauto with tx.
Qed.
Hint Resolve execute_tx : tx.

(** The callback of [attempt]. *)
Definition attempt_body (cfg : Config) (s : HostSyncSettings) (nr : Report) (trigger runID : string) : M Plan :=
  state ← load (hss_TenantID s) nr;
  t ← now;
  plan ← Build state nr {| pm_TenantID := hss_TenantID s; pm_RunID := runID; pm_Trigger := trigger; pm_Now := t;
                           pm_Exclusions := hss_ExcludedInterfaces s; pm_ConflictMoves := cf_ConflictMoves cfg;
                           pm_ConflictWindow := cf_ConflictWindow cfg |};
  execute (hss_TenantID s) plan;;
  SaveDeviceState (hss_TenantID s) (hpl_State plan);;
  mret plan.

Lemma attempt_body_tx cfg s nr trigger runID : tx_prog (attempt_body cfg s nr trigger runID).
Proof. unfold attempt_body. tx_run. Qed.

Lemma attempt_run cfg s nr trigger runID w :
  let '(w', r) := attempt cfg s nr trigger runID w in
  match r with
  | Err _ => same_tables (w_mem w) (w_mem w') ∧ w_events w' = w_events w ∧ (w_ids w ≤ w_ids w')%nat
  | Ok plan => ∃ w1 s', same_tables (w_mem w) (w_mem w1) ∧ w_events w1 = w_events w ∧ w_ids w1 = w_ids w ∧
      mem_hsSettings (w_mem w1) !! hss_TenantID s = Some s' ∧ hss_Enabled s' = true ∧
      attempt_body cfg s nr trigger runID w1 = (w', Ok plan)
  end.
Proof. apply (ApplyHostReport_run (hss_TenantID s) (attempt_body cfg s nr trigger runID) w), attempt_body_tx. Qed.

(** The callback of [markGone]. *)
Lemma markGone_run tid hostID why trigger runID w :
  let '(w', r) := markGone tid hostID why trigger runID w in
  match r with
  | Err _ => same_tables (w_mem w) (w_mem w') ∧ w_events w' = w_events w
  | Ok _ => True
  end.
Proof.
  unfold markGone. match goal with |- context [ApplyHostReport tid ?fn ≫= _] => set (body := fn) end.
  assert (Hb : tx_prog body) by (unfold body, Row; tx_run).
  pose proof (ApplyHostReport_run tid body w (proj2 Hb)) as Hr. unfold mbind at 1, M_bind at 1.
  destruct (ApplyHostReport tid body w) as [w' [res|e]]; [|naive_solver].
  destruct (rs_Applied res); done.
Qed.

Lemma publish_all_run {X} (f : X → event) l w : ∃ w', mapM_ (λ e, publish_event (f e)) l w = (w', Ok ()) ∧ w_mem w' = w_mem w ∧ w_ids w' = w_ids w.
Proof.
  revert w. induction l as [|x l IH]; intros w; [by exists w|]. cbn [mapM_].
  rewrite (bind_Ok (publish_event (f x)) _ w _ () eq_refl).
  destruct (IH {| w with w_events := w_events w ++ [f x] |}) as (w' & E & Hm & Hi). exists w'. by rewrite E.
Qed.

(** What a successful [Apply] of a host that is not retired did: one committed
    transaction, after at most one that left no trace. *)
Lemma Apply_committed cfg s rep trigger runID w w' res nr :
  Normalize json_profile sha256_hex rep (hss_TenantID s) = Ok nr → rp_HostStatus nr ≠ "retired"%string →
  Apply json_profile sha256_hex cfg s rep trigger runID w = (w', Ok res) →
  ∃ w1 w2 plan s', same_tables (w_mem w) (w_mem w1) ∧ mem_hsSettings (w_mem w1) !! hss_TenantID s = Some s' ∧
    hss_Enabled s' = true ∧ (w_ids w ≤ w_ids w1)%nat ∧ attempt_body cfg s nr trigger runID w1 = (w2, Ok plan) ∧ w_mem w' = w_mem w2 ∧ w_ids w' = w_ids w2 ∧
    rs_DeviceID res = hpl_DeviceID plan ∧ rs_Changes res = Z.of_nat (length (hpl_Ops plan)).
Proof.
  intros Hn Hret E. unfold Apply in E. rewrite Hn in E. cbn [map_err] in E. rewrite (bind_Ok _ _ w w nr eq_refl) in E.
  rewrite (proj2 (String.eqb_neq _ _) Hret) in E. cbv iota in E.
  apply bind_inv in E as (wa & r1 & Ea & E). apply try_inv in Ea.
  pose proof (attempt_run cfg s nr trigger runID w) as Ha. rewrite Ea in Ha.
  apply bind_inv in E as (wb & plan & Eb & E).
  destruct (publish_all_run (λ e, {| ev_tenant := hss_TenantID s; ev_type := pe_Type e; ev_payload := pe_Payload e |}) (hpl_Events plan) wb)
    as (wc & Ec & Hmc & Hic). rewrite (bind_Ok _ _ _ _ _ Ec) in E. apply ret_inv in E as [-> ->]. cbn.
  destruct r1 as [plan1|e1].
  - apply ret_inv in Eb as [-> ->]. destruct Ha as (w1 & s' & Hs & _ & Hi & Hl & Hen & Eb). exists w1, wa, plan1, s'. split_and!; try done. lia.
  - destruct (err_root e1) eqn:Er; try done. destruct Ha as (Hs & _ & Hi).
    pose proof (attempt_run cfg s nr trigger runID wa) as Hb. rewrite Eb in Hb.
    destruct Hb as (w1 & s' & Hs' & _ & Hi' & Hl & Hen & Eb'). exists w1, wb, plan, s'. split_and!; try done; [by transitivity (w_mem wa)|lia].
Qed.

(** C14: applying a host report is all or nothing: when [Apply] fails, for
    whatever reason and after however many of its writes (of either attempt),
    every table of the store, audit rows included, is what it was before the
    call, at most a default settings row was added, and no event was
    published. *)
Theorem Apply_atomic cfg s rep trigger runID w w' e :
  Apply json_profile sha256_hex cfg s rep trigger runID w = (w', Err e) →
  same_tables (w_mem w) (w_mem w') ∧ w_events w' = w_events w.
Proof.
  unfold Apply. destruct (Normalize json_profile sha256_hex rep (hss_TenantID s)) as [nr|err]; cbn [map_err];
    [|by intros [= <- <-]].
  rewrite (bind_Ok _ _ w w nr eq_refl). destruct (rp_HostStatus nr =s "retired").
  { intros E. pose proof (markGone_run (hss_TenantID s) (rp_HostID nr) "retired" trigger runID w) as Hg. by rewrite E in Hg. }
  pose proof (attempt_run cfg s nr trigger runID w) as Ha. unfold mbind at 1, M_bind at 1, try.
  destruct (attempt cfg s nr trigger runID w) as [wa [plan|e1]].
  - rewrite (bind_Ok _ _ wa wa plan eq_refl).
    destruct (publish_all_run (λ e, {| ev_tenant := hss_TenantID s; ev_type := pe_Type e; ev_payload := pe_Payload e |}) (hpl_Events plan) wa)
      as (wc & Ec & _). by rewrite (bind_Ok _ _ _ _ _ Ec).
  - destruct Ha as (Hs & Hev & _). pose proof (attempt_run cfg s nr trigger runID wa) as Hb.
    unfold mbind at 1, M_bind at 1. destruct (err_root e1); try (by intros [= <- <-]; split).
    destruct (attempt cfg s nr trigger runID wa) as [wb [plan|e2]].
    + destruct (publish_all_run (λ e, {| ev_tenant := hss_TenantID s; ev_type := pe_Type e; ev_payload := pe_Payload e |}) (hpl_Events plan) wb)
        as (wc & Ec & _). by rewrite (bind_Ok _ _ _ _ _ Ec).
    + destruct Hb as (Hs' & Hev' & _). intros [= <- <-]. split; [by transitivity (w_mem wa)|congruence].
Qed.
End with_env.
