(* ===== verification/HostApplyProps.v ===== *)
(** * What an applied host report leaves in the store

    The effect of each planned write on the device and address tables, the
    effect of executing a plan, and what the loaded state says of the store;
    together: the rows after a successful [Apply]. *)

From S2P Require Import Prelude GoNet GoIP GoText Ipnet Placement Models Store Hostreport HostNorm MemNet MemDev MemScan HostTx MemInv HostTxProps AddressProps AuditLog Events HwChanges HostPlan HostPlanProps HostSync HostSyncProps.

(** ** Effects of the writes *)

Section effects.
Context `{Env} (tid : string).

(** The device table after a write. *)
Definition devices_after (x : write) (m m' : gmap string Device) : Prop :=
  match x with
  | OpCreateDevice d => ∃ t, m' = <[dv_ID d := {| d with dv_TenantID := tid; dv_CreatedAt := t; dv_UpdatedAt := t |}]> m
  | OpUpdateDevice d => ∃ cur t, m !! dv_ID d = Some cur ∧ dv_TenantID cur = tid ∧ m' = <[dv_ID d := reported_columns cur d t]> m
  | OpSetHypervisor k h => ∃ cur, m !! k = Some cur ∧ dv_TenantID cur = tid ∧ m' = <[k := {| cur with dv_HypervisorDeviceID := h |}]> m
  | _ => m' = m
  end.

(** The address table after a write. *)
Definition addrs_after (x : write) (m m' : gmap string IPAddress) : Prop :=
  match x with
  | OpCreateAddress a => ∃ t, m' = <[ad_ID a := inserted_row tid a t]> m
  | OpUpdateAddress a => ∃ cur t, m !! ad_ID a = Some cur ∧ ad_TenantID cur = tid ∧ m' = <[ad_ID a := reported_row cur a t]> m
  | _ => m' = m
  end.

Definition op_effect (x : write) (m m' : Mem) : Prop :=
  devices_after x (mem_devices m) (mem_devices m') ∧ addrs_after x (mem_addrs m) (mem_addrs m').

(** Opens a successful run of a store method. *)
Ltac method_inv :=
  repeat first
    [ m_inv_step
    | match goal with
      | Hr : now _ = (_, Ok _) |- _ => apply now_inv in Hr as [? ?]
      | Hr : set_mem _ _ = (_, Ok _) |- _ => apply set_mem_inv in Hr as [? ?]
      | Hr : (if ?b then _ else _) _ = (_, Ok _) |- _ => destruct b eqn:?
      | Hr : (match ?x with _ => _ end) _ = (_, Ok _) |- _ => destruct x eqn:?
      end ].

Lemma stamp_packages_mem d t l w w' cp : stamp_packages tid d t l w = (w', Ok cp) → w_mem w' = w_mem w.
Proof.
  revert w w' cp. induction l as [|q l IH]; intros w w' cp E; cbn [stamp_packages] in E; [by apply ret_inv in E as [-> _]|].
  apply bind_inv in E as (w1 & id & E1 & E). apply bind_inv in E as (w2 & cp' & E2 & E). apply ret_inv in E as [-> _].
  apply IH in E2. rewrite E2. destruct (is_empty (dp_ID q)); [by apply newID_inv in E1 as [? _]|by apply ret_inv in E1 as [-> _]].
Qed.

Lemma run_write_effect x w w' u : run_write tid x w = (w', Ok u) → op_effect x (w_mem w) (w_mem w').
Proof.
  intros E. unfold op_effect.
  destruct x; cbn [run_write] in E; unfold InsertDevice, UpdateDeviceReported, UpsertInterfaceReported, CreateSubnetAuto,
    InsertAddressReported, UpdateAddressReported, ReplacePendingPackages, ReplaceGuests, SetHypervisor, SetGuestDevice,
    ReplaceHardware, tx_fail, put_device, put_iface, put_addr, put_guest in E; method_inv;
    repeat match goal with
    | Hs : stamp_packages _ _ _ _ _ = (_, Ok _) |- _ => apply stamp_packages_mem in Hs
    | Hw : w_mem _ = _ |- _ => rewrite Hw in *; clear Hw
    | Hb : negb _ = false |- _ => apply negb_false_iff in Hb
    | Hb : _ || _ = false |- _ => apply orb_false_iff in Hb as [? ?]
    | Hb : (_ =s _) = true |- _ => apply String.eqb_eq in Hb
    end; cbn; split; eauto 10.
Qed.

Lemma tx_AppendAudit_tables row w w' u : tx_AppendAudit tid row w = (w', Ok u) → mem_devices (w_mem w') = mem_devices (w_mem w) ∧ mem_addrs (w_mem w') = mem_addrs (w_mem w).
Proof.
  unfold tx_AppendAudit, tx_fail, appendAuditLocked. intros E.
  apply bind_inv in E as (w0 & [] & E0%fail_inv & E). subst w0.
  apply bind_inv in E as (w1 & id & E1 & E). apply bind_inv in E as (w2 & t & E2 & E). apply set_mem_inv in E as [-> _]. cbn.
  assert (H1 : w_mem w1 = w_mem w) by (destruct (is_empty _); [by apply newID_inv in E1 as [? _]|by apply ret_inv in E1 as [-> _]]).
  assert (H2 : w_mem w2 = w_mem w1) by (destruct (IsZero _); [by apply now_inv in E2 as [? _]|by apply ret_inv in E2 as [-> _]]).
  by rewrite H2, H1.
Qed.

(** A sequence of writes. *)
Inductive effects : list write → Mem → Mem → Prop :=
| effects_nil m m' : mem_devices m' = mem_devices m → mem_addrs m' = mem_addrs m → effects [] m m'
| effects_cons x ws m m1 m' : op_effect x m m1 → effects ws m1 m' → effects (x :: ws) m m'.

Lemma effects_start ws m0 m m' :
  mem_devices m0 = mem_devices m → mem_addrs m0 = mem_addrs m → effects ws m m' → effects ws m0 m'.
Proof.
  intros Hd Ha He. inversion He as [m1 m1' ? ?|x ws' m1 m2 m1' [E1 E2] Hr]; subst; [apply effects_nil; congruence|].
  eapply effects_cons; [|exact Hr]. split; by rewrite ?Hd, ?Ha.
Qed.

Lemma effects_end ws m m1 m' :
  effects ws m m1 → mem_devices m' = mem_devices m1 → mem_addrs m' = mem_addrs m1 → effects ws m m'.
Proof.
  induction 1 as [m m1 Hd Ha|x ws m m2 m1 Hx He IH]; intros Hd' Ha'; [apply effects_nil; congruence|].
  eapply effects_cons; [exact Hx|by apply IH].
Qed.

Lemma audit_rows_tables l w w' u :
  mapM_ (λ row, catch_map (Wrapped "audit") (tx_AppendAudit tid row)) l w = (w', Ok u) →
  mem_devices (w_mem w') = mem_devices (w_mem w) ∧ mem_addrs (w_mem w') = mem_addrs (w_mem w).
Proof.
  revert w. induction l as [|x l IH]; intros w E; cbn [mapM_] in E; [by apply ret_inv in E as [-> _]|].
  apply bind_inv in E as (w1 & [] & E1%catch_map_inv & E). apply tx_AppendAudit_tables in E1 as [H1 H2].
  apply IH in E as [H3 H4]. by rewrite H3, H4.
Qed.

Lemma execute_effects l w w' u :
  mapM_ (execute_op tid) l w = (w', Ok u) → effects (op_write <$> l) (w_mem w) (w_mem w').
Proof.
  revert w. induction l as [|o l IH]; intros w E; cbn [mapM_] in E; [apply ret_inv in E as [-> _]; by constructor|].
  apply bind_inv in E as (w1 & [] & E1 & E). unfold execute_op in E1. apply bind_inv in E1 as (w0 & [] & E0%catch_map_inv & E1).
  apply audit_rows_tables in E1 as [Hd Ha]. rewrite fmap_cons. econstructor; [by eapply run_write_effect|].
  eapply effects_start; [symmetry; exact Hd|symmetry; exact Ha|by apply IH].
Qed.

(** What a write leaves under its id. *)
Definition written (b : bool) (a : IPAddress) (m m' : gmap string IPAddress) : Prop :=
  if b then ∃ t, m' !! ad_ID a = Some (inserted_row tid a t)
  else ∃ cur t, m !! ad_ID a = Some cur ∧ ad_TenantID cur = tid ∧ m' !! ad_ID a = Some (reported_row cur a t).

Lemma effects_addrs ws m m' :
  effects ws m m' → let aws := omap addr_of ws in NoDup ((λ ba, ad_ID (snd ba)) <$> aws) →
  (∀ b a, (b, a) ∈ aws → written b a (mem_addrs m) (mem_addrs m')) ∧
  (∀ k, k ∉ ((λ ba : bool * IPAddress, ad_ID (snd ba)) <$> aws) → mem_addrs m' !! k = mem_addrs m !! k).
Proof.
  intros He. cbv zeta. induction He as [m m' _ Ha|x ws m m1 m' [_ Hx] _ IH]; intros Hnd.
  { split; [intros b a Hin; by apply elem_of_nil in Hin|by rewrite Ha]. }
  cbn [omap list_omap] in *. destruct (addr_of x) as [[b a]|] eqn:Ex; cycle 1.
  { assert (E : mem_addrs m1 = mem_addrs m) by (destruct x; try done). rewrite E in IH. by apply IH. }
  cbn in Hnd. apply NoDup_cons in Hnd as [Hni Hnd]. destruct (IH Hnd) as [Hw Hk].
  assert (E1 : ∃ row_, mem_addrs m1 = <[ad_ID a := row_]> (mem_addrs m) ∧
    (if b then ∃ t, row_ = inserted_row tid a t
     else ∃ cur t, mem_addrs m !! ad_ID a = Some cur ∧ ad_TenantID cur = tid ∧ row_ = reported_row cur a t)).
  { destruct x; try done; injection Ex as <- <-; cbn in Hx; [destruct Hx as [t ->]|destruct Hx as (cur & t & Hl & Ht & ->)]; eauto 10. }
  destruct E1 as (row_ & E1 & Hrow). split.
  - intros b' a' [[= -> ->]|Hin]%elem_of_cons.
    + assert (El : mem_addrs m' !! ad_ID a = Some row_) by (rewrite Hk by done; by rewrite E1, lookup_insert_eq).
      unfold written. rewrite El. destruct b; [naive_solver|]. destruct Hrow as (cur & t & Hl & Ht & ->). eauto.
    + pose proof (Hw b' a' Hin) as Hw'. unfold written in *. destruct b'; [done|].
      destruct Hw' as (cur & t & Hl & Ht & Hl'). exists cur, t. split_and!; [|done|done].
      rewrite E1, lookup_insert_ne in Hl; [done|]. intros Eid. apply Hni. rewrite Eid.
      apply (list_elem_of_fmap_2 (λ ba : bool * IPAddress, ad_ID (snd ba)) _ _ Hin).
  - intros k Hn. cbn in Hn. rewrite not_elem_of_cons in Hn. destruct Hn as [Hne Hn]. rewrite Hk by done. by rewrite E1, lookup_insert_ne.
Qed.

(** Without a device write, only hypervisor links of devices change. *)
Definition relinked (d d' : option Device) : Prop :=
  match d, d' with
  | Some d, Some d' => ∃ h, d' = {| d with dv_HypervisorDeviceID := h |}
  | None, None => True
  | _, _ => False
  end.

Lemma relinked_refl d : relinked d d.
Proof. destruct d as [d|]; [|done]. exists (dv_HypervisorDeviceID d). by destruct d. Qed.
Lemma relinked_trans d1 d2 d3 : relinked d1 d2 → relinked d2 d3 → relinked d1 d3.
Proof. destruct d1, d2, d3; cbn; try done. intros [h ->] [h' ->]. by exists h'. Qed.

Lemma effects_devices ws m m' :
  effects ws m m' → Forall not_device_write ws → ∀ k, relinked (mem_devices m !! k) (mem_devices m' !! k).
Proof.
  induction 1 as [m m' Hd _|x ws m m1 m' [Hx _] _ IH]; intros Hf k; [rewrite Hd; apply relinked_refl|].
  apply Forall_cons in Hf as [Hx' Hf]. eapply relinked_trans; [|by apply IH].
  destruct x; try done; cbn in Hx; try (rewrite Hx; apply relinked_refl).
  destruct Hx as (cur & Hl & _ & ->). destruct (decide (k = deviceID)) as [->|Hne].
  - rewrite lookup_insert_eq, Hl. by exists refID.
  - rewrite lookup_insert_ne by done. apply relinked_refl.
Qed.
End effects.

(** ** The loaded state *)

Section index.
Implicit Types (l : list IPAddress) (m : gmap string IPAddress).
Let index m l := foldl (λ m a, <[ad_Address a := a]> m) m l.

Lemma index_keep l m key row_ :
  m !! key = Some row_ → (∀ a, a ∈ l → ad_Address a = key → a = row_) → index m l !! key = Some row_.
Proof.
  unfold index. revert m. induction l as [|a l IH]; intros m Hm Hl; cbn; [done|]. apply IH.
  - destruct (decide (ad_Address a = key)) as [E|Hne]; [|by rewrite lookup_insert_ne].
    rewrite <- E, lookup_insert_eq. f_equal. apply Hl; [by left|done].
  - intros b Hb. apply Hl. by right.
Qed.

Lemma index_in l m row_ :
  row_ ∈ l → (∀ a, a ∈ l → ad_Address a = ad_Address row_ → a = row_) → index m l !! ad_Address row_ = Some row_.
Proof.
  unfold index. revert m. induction l as [|a l IH]; intros m Hin Hl; [by apply elem_of_nil in Hin|]. cbn.
  apply elem_of_cons in Hin as [->|Hin].
  - apply (index_keep l (<[ad_Address a := a]> m)); [by rewrite lookup_insert_eq|]. intros b Hb. apply Hl. by right.
  - apply IH; [done|]. intros b Hb. apply Hl. by right.
Qed.

Lemma index_out l m key row_ :
  index m l !! key = Some row_ → (row_ ∈ l ∧ ad_Address row_ = key) ∨ m !! key = Some row_.
Proof.
  unfold index. revert m. induction l as [|a l IH]; intros m E; cbn in E; [by right|]. apply IH in E as [[Hin Ha]|E].
  - left. split; [by right|done].
  - destruct (decide (ad_Address a = key)) as [Ea|Hne].
    + rewrite <- Ea, lookup_insert_eq in E. injection E as <-. left. split; [by left|done].
    + rewrite lookup_insert_ne in E by done. by right.
Qed.
End index.

(** The texts of every address of a report. *)
Definition report_addrs (r : Report) : list string :=
  concat ((λ i, (λ a, Addr_String (ra_Addr a)) <$> ri_Addresses i) <$> rp_Interfaces r) ++
  match rp_BMC r with Some b => if Addr_IsValid (bm_Address b) then [Addr_String (bm_Address b)] else [] | None => [] end.

Section loaded.
Context `{Env} (tid : string).

(** What the planner's state says of the store it was loaded from. *)
Record loaded (m : Mem) (r : Report) (st : State) : Prop := {
  ld_host : match ca_ByHost (st_Candidates st) with
    | Some d => (∃ k, mem_devices m !! k = Some d) ∧ dv_TenantID d = tid ∧ is_empty (dv_InventoryHostID d) = false ∧
                EqualFold (dv_InventoryHostID d) (rp_HostID r) = true
    | None => ∀ k d, mem_devices m !! k = Some d → dv_TenantID d = tid → is_empty (dv_InventoryHostID d) = false →
                EqualFold (dv_InventoryHostID d) (rp_HostID r) = false
    end;
  ld_serial : ∀ d, d ∈ ca_BySerial (st_Candidates st) → (∃ k, mem_devices m !! k = Some d) ∧ dv_TenantID d = tid;
  ld_name : ∀ d, d ∈ ca_ByName (st_Candidates st) → (∃ k, mem_devices m !! k = Some d) ∧ dv_TenantID d = tid;
  ld_addr : ∀ key row_, st_Addresses st !! key = Some row_ →
    ad_Address row_ = key ∧ ad_TenantID row_ = tid ∧ ∃ k, mem_addrs m !! k = Some row_;
  ld_owned : ∀ k row_ d, mem_addrs m !! k = Some row_ → ad_TenantID row_ = tid → fst (Match (st_Candidates st) r) = Some d →
    ad_DeviceID row_ = dv_ID d → st_Addresses st !! ad_Address row_ = Some row_;
  ld_reported : ∀ k row_, mem_addrs m !! k = Some row_ → ad_TenantID row_ = tid → ad_Address row_ ∈ report_addrs r →
    st_Addresses st !! ad_Address row_ = Some row_
}.

Lemma elem_of_addrsWhere P m a : a ∈ addrsWhere tid P m ↔ ad_TenantID a = tid ∧ P a = true ∧ ∃ k, mem_addrs m !! k = Some a.
Proof.
  unfold addrsWhere. rewrite (sort_by_perm _ _), elem_of_map_select. rewrite andb_true_iff, String.eqb_eq. naive_solver.
Qed.
Lemma elem_of_devicesWhere P m d : d ∈ devicesWhere tid P m ↔ dv_TenantID d = tid ∧ P d = true ∧ ∃ k, mem_devices m !! k = Some d.
Proof.
  unfold devicesWhere. rewrite (sort_by_perm _ _), elem_of_map_select. rewrite andb_true_iff, String.eqb_eq. naive_solver.
Qed.

(** One tenant row per address. *)
Lemma addr_unique m k1 k2 a b :
  mem_ok m → mem_addrs m !! k1 = Some a → mem_addrs m !! k2 = Some b → ad_TenantID a = ad_TenantID b →
  ad_Address a = ad_Address b → k1 = k2 ∧ a = b.
Proof.
  intros Hm Ha Hb Ht Hd. destruct (ok_addrs _ Hm) as [_ Hu].
  assert (k1 = k2) as -> by (eapply Hu; [exact Ha|exact Hb|reflexivity|by rewrite Ht, Hd]). split; [done|congruence].
Qed.

Lemma optM_inv {A} b (z : A) (op : M A) w w' a : optM b z op w = (w', Ok a) → (b = true ∧ op w = (w', Ok a)) ∨ (b = false ∧ w' = w ∧ a = z).
Proof. unfold optM. destruct b; [by left|]. intros E%ret_inv. by right. Qed.

Lemma load_inv r w w' st : mem_ok (w_mem w) → load tid r w = (w', Ok st) → w' = w ∧ loaded (w_mem w) r st.
Proof.
  intros Hm E. unfold load in E.
  apply bind_inv in E as (w1 & d & E1 & E). unfold DeviceByInventoryHost, tx_fail in E1. revert E. m_inv. intros E. try clear a.
  set (d := snd <$> _) in *.
  apply bind_inv in E as (w1 & by_serial & E1 & E).
  assert (Hserial : w1 = w ∧ ∀ x, x ∈ by_serial → (∃ k, mem_devices (w_mem w) !! k = Some x) ∧ dv_TenantID x = tid).
  { destruct d; [apply ret_inv in E1 as [-> ->]; split; [done|intros x Hx; by apply elem_of_nil in Hx]|].
    destruct (IsPlaceholderSerial _); [apply ret_inv in E1 as [-> ->]; split; [done|intros x Hx; by apply elem_of_nil in Hx]|].
    unfold DevicesBySerial in E1. clear E. m_inv. split; [done|]. intros x Hx%elem_of_devicesWhere. naive_solver. }
  destruct Hserial as [-> Hserial]. clear E1.
  apply bind_inv in E as (w1 & by_name & E1 & E). unfold DevicesByNames in E1. revert E. m_inv. intros E.
  set (by_name := devicesWhere _ _ _) in *. cbv zeta in E.
  set (c := {| ca_ByHost := d; ca_BySerial := by_serial; ca_ByName := by_name |}) in *.
  apply bind_inv in E as (w1 & s & E1 & E).
  assert (Hs : w1 = w ∧ st_Candidates s = c ∧
    st_Addresses s = match fst (Match c r) with
      | Some dev => foldl (λ m a, <[ad_Address a := a]> m) ∅ (addrsWhere tid (λ a, ad_DeviceID a =s dv_ID dev) (w_mem w))
      | None => ∅ end).
  { destruct (fst (Match c r)) as [dev|]; [|apply ret_inv in E1 as [-> ->]; by split_and!].
    clear E. unfold Interfaces, AddressesOfDevice, Packages, Guests, GuestDevicesOf in E1. m_inv.
    destruct (rp_Hardware r); unfold GetHardware, tx_fail in *; m_inv; by split_and!. }
  destruct Hs as (-> & Hc & Hsa). clear E1. fold (report_addrs r) in E.
  apply bind_inv in E as (w1 & rows_ & E1 & E).
  assert (Hrows : w1 = w ∧ ∀ a, a ∈ rows_ ↔ ad_TenantID a = tid ∧ ad_Address a ∈ report_addrs r ∧ ∃ k, mem_addrs (w_mem w) !! k = Some a).
  { apply optM_inv in E1 as [[Hn E1]|(Hn & -> & ->)].
    - clear E. unfold AddressesByValue in E1. m_inv. split; [done|]. intros a. rewrite elem_of_addrsWhere, existsb_exists.
      setoid_rewrite <- list_elem_of_In. setoid_rewrite String.eqb_eq. naive_solver.
    - split; [done|]. intros a. rewrite elem_of_nil. split; [done|]. intros (_ & Ha & _).
      destruct (report_addrs r); [by apply elem_of_nil in Ha|done]. }
  destruct Hrows as [-> Hrows]. clear E1.
  apply bind_inv in E as (w1 & subs & E1 & E). unfold Subnets in E1. revert E. m_inv. intros E.
  apply bind_inv in E as (w1 & owners & E1 & E).
  assert (w1 = w) as -> by (apply optM_inv in E1 as [[_ E1]|(_ & -> & _)]; [clear E; unfold DevicesByMAC in E1; m_inv|]; done). clear E1.
  apply bind_inv in E as (w1 & grows & E1 & E).
  assert (w1 = w) as -> by (apply optM_inv in E1 as [[_ E1]|(_ & -> & _)]; [clear E; unfold GuestRowsByMAC in E1; m_inv|]; done). clear E1.
  apply ret_inv in E as [-> ->]. split; [done|].
  assert (Hsame : ∀ a b k1 k2, ad_TenantID a = tid → mem_addrs (w_mem w) !! k1 = Some a → ad_TenantID b = tid →
    mem_addrs (w_mem w) !! k2 = Some b → ad_Address a = ad_Address b → a = b).
  { intros a b k1 k2 Ta Ha Tb Hb Eab. by destruct (addr_unique _ k1 k2 a b Hm Ha Hb) as [_ ->]; [congruence|..]. }
  split; cbn [st_Candidates st_Addresses]; rewrite ?Hc.
  - cbn. unfold d. destruct (map_find _ (mem_devices (w_mem w))) as [[k x]|] eqn:Ef; cbn.
    + apply map_find_Some in Ef as [Hk Hx]. rewrite !andb_true_iff, negb_true_iff, String.eqb_eq in Hx. naive_solver.
    + intros k x Hk Ht Hne. pose proof (proj1 (map_find_None _ _) Ef k x Hk) as Hx. cbn beta in Hx.
      rewrite Ht, String.eqb_refl, Hne in Hx. exact Hx.
  - exact Hserial.
  - intros x Hx%elem_of_devicesWhere. naive_solver.
  - intros key row_ Ek. apply index_out in Ek as [[Hin <-]|Ek].
    + apply Hrows in Hin. naive_solver.
    + rewrite Hsa in Ek. destruct (fst (Match c r)) as [dev|]; [|by rewrite lookup_empty in Ek].
      apply index_out in Ek as [[Hin <-]|Ek]; [|by rewrite lookup_empty in Ek]. apply elem_of_addrsWhere in Hin. naive_solver.
  - intros k row_ dev Hk Ht Hmt Hdev. apply index_keep.
    + rewrite Hsa, Hmt. apply index_in.
      * apply elem_of_addrsWhere. rewrite Hdev, String.eqb_refl. eauto.
      * intros a (Ta & _ & ka & Ha)%elem_of_addrsWhere Eab. by eapply Hsame.
    + intros a (Ta & _ & ka & Ha)%Hrows Eab. by eapply Hsame.
  - intros k row_ Hk Ht Hrep. apply index_in.
    + apply Hrows. eauto.
    + intros a (Ta & _ & ka & Ha)%Hrows Eab. by eapply Hsame.
Qed.
End loaded.
