(* ===== verification/HostReflect.v ===== *)
(** * After a successful apply the store reflects the report

    The address rows ([Apply_reflects_addresses]) and the device row
    ([Apply_reflects_device]) after [Apply] succeeded, for every row of the
    table: what the report says is there, what the host no longer reports is
    released, everything else is as it was. *)

From S2P Require Import Prelude GoNet GoIP GoText Ipnet Placement Models Store Hostreport HostNorm MemNet MemDev MemScan HostTx MemInv HostTxProps AddressProps AuditLog Events HwChanges HostPlan HostPlanProps HostSync HostSyncProps HostApplyProps.

(** ** The addresses to record are distinct and were looked up *)

Section keys.
Context `{Env}.

Lemma dedup_fresh seen l x : x ∈ dedup_addrs seen l → key_of x ∉ seen ∧ x ∈ l.
Proof.
  revert seen. induction l as [|y l IH]; intros seen Hx; cbn in Hx; [by apply elem_of_nil in Hx|].
  destruct (decide _) as [Hin|Hni]; [apply IH in Hx as [? ?]; split; [done|by right]|].
  apply elem_of_cons in Hx as [->|Hx]; [split; [done|by left]|]. apply IH in Hx as [Hk Hl]. split; [set_solver|by right].
Qed.

Lemma dedup_keys seen l : NoDup (key_of <$> dedup_addrs seen l).
Proof.
  revert seen. induction l as [|y l IH]; intros seen; cbn; [constructor|]. destruct (decide _); [apply IH|].
  cbn. apply NoDup_cons. split; [|apply IH]. intros (x & Ex & Hx)%list_elem_of_fmap. apply dedup_fresh in Hx as [Hn _].
  apply Hn. rewrite <- Ex. set_solver.
Qed.

Lemma todo_keys ifs : NoDup (key_of <$> todo ifs).
Proof. apply dedup_keys. Qed.

Lemma bmc_port_addrs b taken st ports x :
  x ∈ fst (fst (foldl (bmc_port b taken) st ports)) → x ∈ fst (fst st) ∨ ∀ a, a ∈ rf_addrs x → ra_Addr a = bm_Address b ∧ Addr_IsValid (bm_Address b) = true.
Proof.
  revert st. induction ports as [|q ports IH]; intros st Hx; cbn in Hx; [by left|]. apply IH in Hx as [Hx|Hx]; [|by right].
  destruct st as [[out sk] i]. unfold bmc_port in Hx. destruct (decide _); [by left|]. cbn in Hx.
  apply elem_of_app in Hx as [Hx|Hx]; [by left|]. apply list_elem_of_singleton in Hx as ->. right. cbn. intros a Ha.
  destruct (_ && _) eqn:Eb; [|by apply elem_of_nil in Ha]. apply list_elem_of_singleton in Ha as ->. cbn.
  by apply andb_true_iff in Eb as [_ ?].
Qed.

Lemma todo_reported r p x : x ∈ todo (fst (reportedInterfaces r p)) → key_of x ∈ report_addrs r.
Proof.
  intros [_ Hx]%dedup_fresh. unfold iface_addrs in Hx. apply list_elem_of_In, in_concat in Hx as (l & Hl & Hx).
  apply list_elem_of_In, list_elem_of_fmap in Hl as (ri & -> & Hri). apply list_elem_of_In, list_elem_of_fmap in Hx as (a & -> & Ha).
  apply list_elem_of_In, filter_In in Ha as [Ha _]. rewrite <- list_elem_of_In in Ha. unfold key_of. cbn [snd].
  unfold reportedInterfaces in Hri. destruct (bmcInterfaces _ _) as [bmc sk] eqn:Eb. cbn [fst] in Hri.
  unfold report_addrs. apply elem_of_app. apply elem_of_app in Hri as [(i & -> & Hi)%list_elem_of_fmap|Hri].
  - left. apply list_elem_of_In, filter_In in Hi as [Hi _]. apply list_elem_of_In, in_concat.
    exists ((λ a, Addr_String (ra_Addr a)) <$> ri_Addresses i). split.
    + apply list_elem_of_In, list_elem_of_fmap. exists i. by rewrite list_elem_of_In.
    + apply list_elem_of_In, list_elem_of_fmap. by exists a.
  - right. unfold bmcInterfaces in Eb. destruct (rp_BMC r) as [b|]; [|injection Eb as <- <-; by apply elem_of_nil in Hri].
    match type of Eb with fst (foldl ?f ?z ?ps) = _ =>
      assert (Hin : ri ∈ fst (fst (foldl f z ps))) by (by rewrite Eb) end.
    apply bmc_port_addrs in Hin as [Hin|Hin]; [by apply elem_of_nil in Hin|]. destruct (Hin a Ha) as [-> ->]. by left.
Qed.
End keys.

(** ** The identifiers of the address writes *)

(** The identifiers drawn are new to the store. *)
Definition new_ids `{Env} (m : Mem) (from n : nat) : Prop :=
  fresh_ids m from n ∧ ∀ i, (from ≤ i < from + n)%nat →
    mem_devices m !! id_at i = None ∧ ∀ k row_, mem_addrs m !! k = Some row_ → ad_DeviceID row_ ≠ id_at i.

(** The row a write concerns. *)
Definition wid (ba : bool * IPAddress) : string := ad_ID (snd ba).

Section ids.
Context `{Env} (st : State) (r : Report) (p : Params) (m : Mem).
Context (Hok : mem_ok m) (Hld : loaded (pm_TenantID p) m r st).

(** Stored rows are told apart by their ids. *)
Lemma loaded_id key row_ : st_Addresses st !! key = Some row_ → mem_addrs m !! ad_ID row_ = Some row_ ∧ ad_Address row_ = key.
Proof.
  intros E. destruct (ld_addr _ _ _ _ Hld _ _ E) as (Ha & _ & k & Hk). by rewrite (proj1 (ok_addrs _ Hok) _ _ Hk).
Qed.
Lemma loaded_inj k1 k2 a b : st_Addresses st !! k1 = Some a → st_Addresses st !! k2 = Some b → ad_ID a = ad_ID b → k1 = k2.
Proof. intros [Ha <-]%loaded_id [Hb <-]%loaded_id E. congruence. Qed.

(** A column the moves and conflicts leave alone. *)
Lemma want_address_col {X} (f : IPAddress → X) dev ri primary hostname row_ :
  (∀ a, f (moved p row_ a) = f a) → (∀ a, f {| a with ad_Conflict := true |} = f a) →
  (∀ a, f {| a with ad_Conflict := false; ad_MoveCount := 0; ad_MoveWindowStart := None |} = f a) →
  f (want_address p dev ri primary hostname row_) = f (claimed dev ri primary hostname row_).
Proof.
  intros Hm Hc Hz. unfold want_address. cbv zeta. set (w0 := claimed dev ri primary hostname row_). clearbody w0.
  unfold clear_conflict. transitivity (f (after_move p (claim_action dev row_) row_ w0)).
  - destruct (conflict_over _ _ _); [apply Hz|done].
  - unfold after_move, mark_conflict. destruct (_ =s _); [|done]. destruct (new_conflict _ _ _); [by rewrite Hc|apply Hm].
Qed.

Lemma want_row_id dev x row_ : ad_ID (want_row r p dev x row_) = ad_ID row_.
Proof. unfold want_row. cbn [ad_ID]. by rewrite (want_address_col ad_ID). Qed.

(** Every write of the items, by its item. *)
Lemma items_elim dev n l ws n2 b a :
  items_writes st r p dev n l ws n2 → (b, a) ∈ ws →
  ∃ x, x ∈ l ∧ match st_Addresses st !! key_of x with
    | None => b = true ∧ ∃ i, (n ≤ i < n2)%nat ∧ is_new_row r p dev (id_at i) x a
    | Some row_ => b = false ∧ a = want_row r p dev x row_ ∧
        is_nil (addrChanges row_ (want_address p dev (fst x) (primary_of r x) (hostname_of r x) row_)) = false
    end.
Proof.
  intros Hi. assert (Hmono : ∀ n l ws n2, items_writes st r p dev n l ws n2 → (n ≤ n2)%nat) by (induction 1; lia).
  induction Hi as [n|n n1 n2 x rest l1 l2 Hx Hn Hrest IH]; intros Hin; [by apply elem_of_nil in Hin|].
  apply elem_of_app in Hin as [Hin|Hin].
  - exists x. split; [by left|]. unfold item_writes in Hx. destruct (st_Addresses st !! key_of x) as [row_|].
    + destruct (is_nil _) eqn:En; subst l1; [by apply elem_of_nil in Hin|]. by apply list_elem_of_singleton in Hin as [= -> ->].
    + destruct Hx as (na & -> & Hna). apply list_elem_of_singleton in Hin as [= -> ->]. split; [done|]. exists n.
      cbn in Hn. pose proof (Hmono _ _ _ _ Hrest). split; [lia|done].
  - destruct (IH Hin) as (y & Hy & Hcase). exists y. split; [by right|]. destruct (st_Addresses st !! key_of y); [done|].
    destruct Hcase as (-> & i & Hi & Hnew). split; [done|]. exists i. split; [lia|done].
Qed.

Lemma items_intro dev n l ws n2 x :
  items_writes st r p dev n l ws n2 → x ∈ l → ∃ i l1, item_writes st r p dev i x l1 ∧ ∀ e, e ∈ l1 → e ∈ ws.
Proof.
  induction 1 as [n|n n1 n2 y rest l1 l2 Hy Hn Hrest IH]; intros Hx; [by apply elem_of_nil in Hx|].
  apply elem_of_cons in Hx as [->|Hx].
  - exists n, l1. split; [done|]. intros e He. apply elem_of_app. by left.
  - destruct (IH Hx) as (i & l & Hl & Hall). exists i, l. split; [done|]. intros e He. apply elem_of_app. right. auto.
Qed.



Lemma items_ids_NoDup dev n l ws n2 from :
  items_writes st r p dev n l ws n2 → NoDup (key_of <$> l) → (from ≤ n)%nat → fresh_ids m from (n2 - from) → NoDup (wid <$> ws).
Proof.
  intros Hi. induction Hi as [n|n n1 n2 x rest l1 l2 Hx Hn Hrest IH]; intros Hnd Hfrom Hf; [constructor|].
  rewrite fmap_cons in Hnd. apply NoDup_cons in Hnd as [Hk Hnd].
  assert (Hn12 : (n1 ≤ n2)%nat) by (clear -Hrest; induction Hrest; lia).
  rewrite fmap_app. apply NoDup_app. split_and!.
  - unfold item_writes in Hx. destruct (st_Addresses st !! key_of x); [destruct (is_nil _); subst l1; [constructor|apply NoDup_singleton]|].
    destruct Hx as (na & -> & _). apply NoDup_singleton.
  - intros id ([b a] & -> & Hin)%list_elem_of_fmap ([b' a'] & E & Hin')%list_elem_of_fmap. unfold wid in E; cbn [snd] in E.
    destruct (items_elim _ _ _ _ _ _ _ Hrest Hin') as (y & Hy & Hcase).
    assert (Hyx : key_of y ≠ key_of x) by (intros Eq; apply Hk; rewrite <- Eq; by apply list_elem_of_fmap_2).
    unfold item_writes in Hx. destruct (st_Addresses st !! key_of x) as [row_|] eqn:Ex.
    + destruct (is_nil _); subst l1; [by apply elem_of_nil in Hin|]. apply list_elem_of_singleton in Hin as [= -> ->].
      rewrite want_row_id in E. destruct (loaded_id _ _ Ex) as [Hst _].
      destruct (st_Addresses st !! key_of y) as [row'|] eqn:Ey.
      * destruct Hcase as (_ & -> & _). rewrite want_row_id in E. apply Hyx. symmetry. by eapply loaded_inj.
      * destruct Hcase as (_ & i & Hi & (Hid & _)). rewrite Hid in E. destruct Hf as [Hf _]. rewrite E, (Hf i) in Hst; [done|lia].
    + destruct Hx as (na & -> & (Hid & _)). apply list_elem_of_singleton in Hin as [= -> ->]. rewrite Hid in E. cbn in Hn.
      destruct (st_Addresses st !! key_of y) as [row'|] eqn:Ey.
      * destruct Hcase as (_ & -> & _). rewrite want_row_id in E. destruct (loaded_id _ _ Ey) as [Hst _].
        destruct Hf as [Hf _]. rewrite <- E, (Hf n) in Hst; [done|lia].
      * destruct Hcase as (_ & i & Hi & (Hid' & _)). rewrite Hid' in E. destruct Hf as [_ Hf].
        apply Hf in E; lia.
  - apply IH; [done|lia|done].
Qed.

(** The released rows. *)
Lemma elem_of_gone dev ifs row_ :
  row_ ∈ gone_rows st r dev ifs ↔ st_Addresses st !! ad_Address row_ = Some row_ ∧ gone_addr r dev (key_of <$> todo ifs) (ad_Address row_) row_ = true.
Proof.
  unfold gone_rows. rewrite list_elem_of_fmap. split.
  - intros ([k v] & -> & Hin). apply list_elem_of_In, filter_In in Hin as [Hin Hg]. apply list_elem_of_In, list_elem_of_omap in Hin as (k' & _ & Hk').
    destruct (st_Addresses st !! k') as [v'|] eqn:E; [|done]. cbn in Hk'. injection Hk' as -> ->. cbn in Hg |- *.
    destruct (loaded_id _ _ E) as [_ ->]. done.
  - intros [E Hg]. exists (ad_Address row_, row_). split; [done|]. apply list_elem_of_In, filter_In. split; [|done].
    apply list_elem_of_In, list_elem_of_omap. exists (ad_Address row_). rewrite E. split; [|done].
    unfold sort_strings. rewrite (sort_by_perm _ _). apply list_elem_of_fmap. exists (ad_Address row_, row_). split; [done|]. by apply elem_of_map_to_list.
Qed.

Lemma gone_NoDup dev ifs : NoDup (ad_ID <$> gone_rows st r dev ifs).
Proof.
  unfold gone_rows. set (keys := sort_strings _).
  assert (Hnd : NoDup keys) by (unfold keys, sort_strings; rewrite (sort_by_perm _ _); apply NoDup_fst_map_to_list).
  clearbody keys. induction Hnd as [|k keys Hk Hnd IH]; [constructor|]. cbn.
  destruct (st_Addresses st !! k) as [v|] eqn:E; cbn; [|done]. destruct (gone_addr _ _ _ _ _); cbn; [|done].
  apply NoDup_cons. split; [|done]. intros (row_ & Eid & Hin)%list_elem_of_fmap. apply list_elem_of_fmap in Hin as ([k' v'] & -> & Hin).
  apply list_elem_of_In, filter_In in Hin as [Hin _]. apply list_elem_of_In, list_elem_of_omap in Hin as (k'' & Hin & Ek).
  destruct (st_Addresses st !! k'') as [v''|] eqn:E''; [|done]. cbn in Ek. injection Ek as -> ->. cbn in Eid.
  apply Hk. by rewrite (loaded_inj _ _ _ _ E E'' Eid).
Qed.

(** All address writes of a plan concern different rows. *)
Lemma writes_NoDup dev n items n2 from ifs :
  items_writes st r p dev n (todo ifs) items n2 → (from ≤ n)%nat → fresh_ids m from (n2 - from) →
  NoDup (wid <$> items ++ ((λ row_, (false, released dev row_)) <$> gone_rows st r dev ifs)).
Proof.
  intros Hi Hfrom Hf. rewrite fmap_app, <- list_fmap_compose. apply NoDup_app. split_and!.
  - eapply items_ids_NoDup; [done|apply todo_keys|done|done].
  - intros id ([b a] & -> & Hin)%list_elem_of_fmap (row_ & E & Hg)%list_elem_of_fmap. unfold wid, compose in E; cbn [snd] in E. change (ad_ID a = ad_ID row_) in E.
    apply elem_of_gone in Hg as [Est Hg]. destruct (loaded_id _ _ Est) as [Hst _].
    destruct (items_elim _ _ _ _ _ _ _ Hi Hin) as (x & Hx & Hcase). destruct (st_Addresses st !! key_of x) as [row'|] eqn:Ex.
    + destruct Hcase as (_ & -> & _). rewrite want_row_id in E. pose proof (loaded_inj _ _ _ _ Ex Est E) as Ek.
      unfold gone_addr in Hg. rewrite !andb_true_iff, negb_true_iff in Hg. destruct Hg as [[[Hg _] _] _].
      rewrite <- Ek in Hg. apply not_true_iff_false in Hg. apply Hg, existsb_exists. exists (key_of x). split; [|apply String.eqb_refl].
      apply list_elem_of_In. by apply list_elem_of_fmap_2.
    + destruct Hcase as (_ & i & Hi' & (Hid & _)). rewrite Hid in E. destruct Hf as [Hf _]. rewrite <- E, (Hf i) in Hst; [done|].
      lia.
  - apply gone_NoDup.
Qed.
End ids.

(** ** The addresses after an apply *)

(** The interfaces of a report a tenant records. *)
Definition report_ifaces `{Env} (s : HostSyncSettings) (nr : Report) : list reportedIface :=
  fst (reportedInterfaces nr {| pm_TenantID := hss_TenantID s; pm_RunID := ""; pm_Trigger := ""; pm_Now := time_zero;
         pm_Exclusions := hss_ExcludedInterfaces s; pm_ConflictMoves := 0; pm_ConflictWindow := 0 |}).

Lemma report_ifaces_params `{Env} s nr p :
  pm_Exclusions p = hss_ExcludedInterfaces s → fst (reportedInterfaces nr p) = report_ifaces s nr.
Proof. intros E. unfold report_ifaces, reportedInterfaces, recorded_interfaces. cbn. by rewrite E. Qed.

(** The columns of an address only an administrator or another source writes. *)
Definition keeps_address_admin (a b : IPAddress) : Prop :=
  ad_ID b = ad_ID a ∧ ad_TenantID b = ad_TenantID a ∧ ad_Address b = ad_Address a ∧ ad_SubnetID b = ad_SubnetID a ∧
  ad_Description b = ad_Description a ∧ ad_Status b = ad_Status a ∧ ad_AddressType b = ad_AddressType a ∧
  ad_PTRRecord b = ad_PTRRecord a ∧ ad_DNSName b = ad_DNSName a ∧ ad_Owner b = ad_Owner a ∧ ad_LeaseExpiry b = ad_LeaseExpiry a ∧
  ad_Note b = ad_Note a ∧ ad_Tags b = ad_Tags a ∧ ad_CreatedBy b = ad_CreatedBy a ∧ ad_CreatedAt b = ad_CreatedAt a ∧
  ad_Origin b = ad_Origin a ∧ ad_Link b = ad_Link a.

(** The row of a reported address. *)
Definition reflects (tid dev : string) (nr : Report) (x : reportedIface * Address) (a : IPAddress) : Prop :=
  ad_TenantID a = tid ∧ ad_Address a = key_of x ∧ ad_DeviceID a = dev ∧ ad_InterfaceName a = rf_name (fst x) ∧
  ad_MACAddress a = rf_mac (fst x) ∧ ad_Hostname a = hostname_of nr x ∧ ad_IsPrimary a = primary_of nr x ∧
  ad_ReportState a = RepReported.

(** A row the host no longer reports: the device's, reported before, and not
    of a BMC that could not be read this time. *)
Definition stale (dev : string) (nr : Report) (keys : list string) (a : IPAddress) : Prop :=
  ad_Address a ∉ keys ∧ ad_DeviceID a = dev ∧ ad_ReportState a = RepReported ∧
  (rp_BMC nr = None → IsBMCInterfaceName (ad_InterfaceName a) = false).

Lemma gone_addr_stale dev nr keys a : gone_addr nr dev keys (ad_Address a) a = true ↔ stale dev nr keys a.
Proof.
  unfold gone_addr, stale. rewrite !andb_true_iff, negb_true_iff, !String.eqb_eq, negb_andb, orb_true_iff, !negb_true_iff.
  assert (Hk : existsb (String.eqb (ad_Address a)) keys = false ↔ ad_Address a ∉ keys).
  { rewrite <- not_true_iff_false, existsb_exists. setoid_rewrite String.eqb_eq. setoid_rewrite <- list_elem_of_In. naive_solver. }
  rewrite Hk. destruct (rp_BMC nr); cbn; naive_solver.
Qed.

(** A reported address worth a row: of an interface the tenant does not
    exclude, global, neither temporary nor deprecated. *)
Definition to_record `{Env} (s : HostSyncSettings) (nr : Report) (i : Interface) (a : Address) : Prop :=
  i ∈ rp_Interfaces nr ∧ Excluded (ri_Name i) (ri_Kind i) (hss_ExcludedInterfaces s) = false ∧ a ∈ ri_Addresses i ∧
  Recordable (Classify (ra_Addr a)) = true ∧ ra_Temporary a = false ∧ ra_Deprecated a = false.

Lemma dedup_covers seen l x : x ∈ l → key_of x ∈ seen ∨ ∃ y, y ∈ dedup_addrs seen l ∧ key_of y = key_of x.
Proof.
  revert seen. induction l as [|z l IH]; intros seen Hx; [by apply elem_of_nil in Hx|]. cbn. apply elem_of_cons in Hx as [->|Hx].
  - destruct (decide _) as [Hin|Hn]; [by left|]. right. exists z. split; [by left|done].
  - destruct (decide _) as [Hin|Hn]; [by apply IH|]. destruct (IH ({[key_of z]} ∪ seen) Hx) as [Hs|(y & Hy & E)].
    + apply elem_of_union in Hs as [Hs%elem_of_singleton|Hs]; [|by left]. right. exists z. split; [by left|done].
    + right. exists y. split; [by right|done].
Qed.

Lemma to_record_todo `{Env} s nr i a : to_record s nr i a → ∃ x, x ∈ todo (report_ifaces s nr) ∧ key_of x = Addr_String (ra_Addr a).
Proof.
  intros (Hi & Hx & Ha & Hr & Ht & Hd). set (ri := host_iface i).
  assert (Hin : (ri, a) ∈ iface_addrs (report_ifaces s nr)).
  { unfold iface_addrs. apply list_elem_of_In, in_concat. eexists. split.
    - apply list_elem_of_In, list_elem_of_fmap. exists ri. split; [reflexivity|]. unfold report_ifaces, reportedInterfaces.
      destruct (bmcInterfaces _ _) as [bmc sk]. cbn [fst]. apply elem_of_app. left. apply list_elem_of_fmap_2.
      apply list_elem_of_In, filter_In. rewrite <- list_elem_of_In. split; [done|]. cbn. by rewrite Hx.
    - apply list_elem_of_In, list_elem_of_fmap. exists a. split; [done|]. apply list_elem_of_In, filter_In. rewrite <- list_elem_of_In. split; [done|].
      unfold recordable. by rewrite Hr, Ht, Hd. }
  destruct (dedup_covers ∅ _ _ Hin) as [Hs|(y & Hy & E)]; [set_solver|]. by exists y.
Qed.

Record addresses_reflect `{Env} (tid dev : string) (nr : Report) (ifs : list reportedIface) (m m' : gmap string IPAddress) : Prop := {
  rfl_present : ∀ x, x ∈ todo ifs → ∃ k a, m' !! k = Some a ∧ reflects tid dev nr x a;
  rfl_known : ∀ k a, m !! k = Some a → ad_TenantID a = tid → ad_Address a ∈ (key_of <$> todo ifs) →
    ∃ b, m' !! k = Some b ∧ keeps_address_admin a b;
  rfl_released : ∀ k a, m !! k = Some a → ad_TenantID a = tid → stale dev nr (key_of <$> todo ifs) a →
    ∃ t, m' !! k = Some {| a with ad_DeviceID := ""; ad_InterfaceName := ""; ad_IsPrimary := false; ad_PreviousDeviceID := dev;
                           ad_ReportState := RepNotReported; ad_UpdatedAt := t |};
  rfl_kept : ∀ k a, m !! k = Some a →
    ad_TenantID a ≠ tid ∨ (ad_Address a ∉ (key_of <$> todo ifs) ∧ ¬ stale dev nr (key_of <$> todo ifs) a) →
    m' !! k = Some a;
  rfl_new : ∀ k b, m' !! k = Some b → m !! k = None → ∃ x, x ∈ todo ifs ∧ reflects tid dev nr x b
}.

Section reflect.
Context `{Env} (st : State) (r : Report) (p : Params) (m m' : Mem).
Context (Hok : mem_ok m) (Hld : loaded (pm_TenantID p) m r st).
Context (dev : string) (ifs : list reportedIface) (items : list (bool * IPAddress)) (n n2 from : nat).
Context (Hitems : items_writes st r p dev n (todo ifs) items n2) (Hfrom : (from ≤ n)%nat) (Hfresh : fresh_ids m from (n2 - from)).
Context (ws : list write).
Context (Hws : omap addr_of ws = items ++ ((λ row_, (false, released dev row_)) <$> gone_rows st r dev ifs)).
Context (Heff : effects (pm_TenantID p) ws m m').
Context (Hreported : ∀ x, x ∈ todo ifs → key_of x ∈ report_addrs r).
Context (Howned : ∀ k a, mem_addrs m !! k = Some a → ad_TenantID a = pm_TenantID p → ad_DeviceID a = dev →
  st_Addresses st !! ad_Address a = Some a).

Lemma written_rows b a : (b, a) ∈ omap addr_of ws → written (pm_TenantID p) b a (mem_addrs m) (mem_addrs m').
Proof.
  intros Hin. eapply effects_addrs; [exact Heff| |done]. rewrite Hws.
  eapply (writes_NoDup st r p m Hok Hld); [exact Hitems|exact Hfrom|exact Hfresh].
Qed.

Lemma unwritten_rows k :
  (∀ b a, (b, a) ∈ omap addr_of ws → ad_ID a ≠ k) → mem_addrs m' !! k = mem_addrs m !! k.
Proof.
  intros Hn. eapply effects_addrs; [exact Heff| |].
  - rewrite Hws. eapply (writes_NoDup st r p m Hok Hld); [exact Hitems|exact Hfrom|exact Hfresh].
  - intros ([b a] & E & Hin)%list_elem_of_fmap. by apply (Hn b a).
Qed.

(** Which rows the plan writes. *)
Lemma writes_elim b a : (b, a) ∈ omap addr_of ws →
  (∃ x i, x ∈ todo ifs ∧ b = true ∧ (n ≤ i < n2)%nat ∧ is_new_row r p dev (id_at i) x a) ∨
  (∃ x row_, x ∈ todo ifs ∧ b = false ∧ st_Addresses st !! key_of x = Some row_ ∧ a = want_row r p dev x row_ ∧
     is_nil (addrChanges row_ (want_address p dev (fst x) (primary_of r x) (hostname_of r x) row_)) = false) ∨
  (∃ row_, b = false ∧ a = released dev row_ ∧ st_Addresses st !! ad_Address row_ = Some row_ ∧
     gone_addr r dev (key_of <$> todo ifs) (ad_Address row_) row_ = true).
Proof.
  rewrite Hws. intros [Hin|Hin]%elem_of_app.
  - destruct (items_elim st r p _ _ _ _ _ _ _ Hitems Hin) as (x & Hx & Hc). destruct (st_Addresses st !! key_of x) as [row_|] eqn:E.
    + right. left. exists x, row_. naive_solver.
    + left. destruct Hc as (-> & i & Hi & Hnew). by exists x, i.
  - right. right. apply list_elem_of_fmap in Hin as (row_ & [= -> ->] & Hg). apply (elem_of_gone st r p m Hok Hld) in Hg as [? ?].
    by exists row_.
Qed.

(** A known reported address. *)
Lemma known_row x row_ :
  x ∈ todo ifs → st_Addresses st !! key_of x = Some row_ →
  ∃ b, mem_addrs m' !! ad_ID row_ = Some b ∧ reflects (pm_TenantID p) dev r x b ∧ keeps_address_admin row_ b.
Proof.
  intros Hx E. destruct (ld_addr _ _ _ _ Hld _ _ E) as (Ha & Ht & _). destruct (loaded_id st r p m Hok Hld _ _ E) as [Hst _].
  set (want := want_address p dev (fst x) (primary_of r x) (hostname_of r x) row_).
  assert (Hcol : ∀ {X} (f : IPAddress → X), (∀ a, f (moved p row_ a) = f a) → (∀ a, f {| a with ad_Conflict := true |} = f a) →
    (∀ a, f {| a with ad_Conflict := false; ad_MoveCount := 0; ad_MoveWindowStart := None |} = f a) →
    f want = f (claimed dev (fst x) (primary_of r x) (hostname_of r x) row_)) by (intros X f; apply want_address_col).
  destruct (is_nil (addrChanges row_ want)) eqn:En.
  - exists row_. split_and!; [|..].
    + rewrite unwritten_rows; [done|]. intros b a [(y & i & Hy & _ & Hi & (Hid & _))|[(y & row' & Hy & _ & Ey & -> & Hn')|(row' & _ & -> & Ey & Hg)]]%writes_elim Eid.
      * rewrite Hid in Eid. destruct Hfresh as [Hf _]. rewrite <- Eid, (Hf i) in Hst; [done|lia].
      * rewrite want_row_id in Eid. pose proof (loaded_inj st r p m Hok Hld _ _ _ _ Ey E Eid) as Ek.
        assert (y = x) as ->.
        { pose proof (todo_keys ifs) as Hnd. clear -Hnd Hy Hx Ek. induction (todo ifs) as [|z l IH]; [by apply elem_of_nil in Hx|].
          rewrite fmap_cons in Hnd. apply NoDup_cons in Hnd as [Hz Hnd].
          apply elem_of_cons in Hy as [->|Hy], Hx as [->|Hx]; try done; [|..|by apply IH]; exfalso; apply Hz; [rewrite Ek|rewrite <- Ek]; by apply list_elem_of_fmap_2. }
        rewrite E in Ey. injection Ey as <-. fold want in Hn'. congruence.
      * cbn in Eid. pose proof (loaded_inj st r p m Hok Hld _ _ _ _ Ey E Eid) as Ek. rewrite Ek in Hg.
        unfold gone_addr in Hg. rewrite !andb_true_iff, negb_true_iff in Hg. destruct Hg as [[[Hg _] _] _].
        apply not_true_iff_false in Hg. apply Hg, existsb_exists. exists (key_of x). split; [|apply String.eqb_refl].
        apply list_elem_of_In. by apply list_elem_of_fmap_2.
    + unfold is_nil, addrChanges in En.
      assert (Hz : ∀ {X} (l1 l2 : list X), match l1 ++ l2 with [] => true | _ => false end = true → l1 = [] ∧ match l2 with [] => true | _ => false end = true)
        by (intros X [|? l1] l2; done).
      assert (Hs : ∀ f a b, str_change f a b = [] → a = b) by (intros f a b; unfold str_change; destruct (a =s b) eqn:Eab; [by apply String.eqb_eq in Eab|done]).
      assert (Hb : ∀ f a b, bool_change f a b = [] → a = b) by (intros f [] []; done).
      apply Hz in En as [E1 En]. apply Hz in En as [E2 En]. apply Hz in En as [E3 En]. apply Hz in En as [E4 En]. apply Hz in En as [E5 En].
      apply Hz in En as [_ En]. apply Hz in En as [E7 _]. apply Hs in E1, E2, E3, E4, E5. apply Hb in E7.
      rewrite (Hcol _ ad_DeviceID) in E1 by done. rewrite (Hcol _ ad_InterfaceName) in E2 by done. rewrite (Hcol _ ad_MACAddress) in E3 by done.
      rewrite (Hcol _ ad_Hostname) in E4 by done. rewrite (Hcol _ ad_ReportState) in E5 by done. rewrite (Hcol _ ad_IsPrimary) in E7 by done.
      by split_and!.
    + by split_and!.
  - assert (Hin : (false, want_row r p dev x row_) ∈ omap addr_of ws).
    { rewrite Hws. apply elem_of_app. left. destruct (items_intro st r p _ _ _ _ _ _ Hitems Hx) as (i & l1 & Hl & Hall).
      apply Hall. unfold item_writes in Hl. rewrite E in Hl. fold want in Hl. rewrite En in Hl. subst l1. by apply list_elem_of_singleton. }
    apply written_rows in Hin as (cur & t & Hcur & _ & Hnew). rewrite want_row_id in Hcur, Hnew. rewrite Hst in Hcur. injection Hcur as <-.
    eexists. split; [exact Hnew|]. unfold reported_row. cbn zeta.
    assert (Hst' : ad_ReportState (want_row r p dev x row_) = RepReported) by (unfold want_row; cbn [ad_ReportState]; fold want; by rewrite (Hcol _ ad_ReportState)).
    rewrite Hst', String.eqb_refl. unfold agent_mac, want_row. cbn. fold want. split; split_and!; try done;
      first [by rewrite (Hcol _ ad_DeviceID)|by rewrite (Hcol _ ad_InterfaceName)|by rewrite (Hcol _ ad_MACAddress)
            |by rewrite (Hcol _ ad_Hostname)|by rewrite (Hcol _ ad_IsPrimary)].
Qed.

Lemma reflect_all : addresses_reflect (pm_TenantID p) dev r ifs (mem_addrs m) (mem_addrs m').
Proof.
  split.
  - intros x Hx. destruct (st_Addresses st !! key_of x) as [row_|] eqn:E.
    + destruct (known_row x row_ Hx E) as (b & Hb & Hr & _). eauto.
    + destruct (items_intro st r p _ _ _ _ _ _ Hitems Hx) as (i & l1 & Hl & Hall). unfold item_writes in Hl. rewrite E in Hl.
      destruct Hl as (na & -> & Hna). assert (Hin : (true, na) ∈ omap addr_of ws).
      { rewrite Hws. apply elem_of_app. left. apply Hall. by apply list_elem_of_singleton. }
      apply written_rows in Hin as [t Hl]. exists (ad_ID na), (inserted_row (pm_TenantID p) na t). split; [done|].
      destruct Hna as (_ & _ & ? & ? & ? & ? & ? & ? & ? & _). by split_and!.
  - intros k a Hk Ht (x & Ek & Hx)%list_elem_of_fmap. pose proof (ld_reported _ _ _ _ Hld k a Hk Ht) as Hst. rewrite Ek in Hst.
    specialize (Hst (Hreported x Hx)). destruct (known_row x a Hx Hst) as (b & Hb & _ & Hadm).
    rewrite (proj1 (ok_addrs _ Hok) _ _ Hk) in Hb. eauto.
  - intros k a Hk Ht Hg%gone_addr_stale. assert (Hst : st_Addresses st !! ad_Address a = Some a).
    { eapply Howned; [exact Hk|done|]. unfold gone_addr in Hg. rewrite !andb_true_iff in Hg. destruct Hg as [[[_ Hd] _] _]. by apply String.eqb_eq in Hd. }
    assert (Hin : (false, released dev a) ∈ omap addr_of ws).
    { rewrite Hws. apply elem_of_app. right. apply (list_elem_of_fmap_2 (λ row_, (false, released dev row_))), (elem_of_gone st r p m Hok Hld). done. }
    apply written_rows in Hin as (cur & t & Hcur & _ & Hnew). cbn in Hcur, Hnew. rewrite (proj1 (ok_addrs _ Hok) _ _ Hk) in Hcur, Hnew.
    rewrite Hk in Hcur. injection Hcur as <-. exists t. rewrite Hnew. by destruct a.
  - intros k a Hk Hcase. rewrite unwritten_rows; [done|]. pose proof (proj1 (ok_addrs _ Hok) _ _ Hk) as Hid.
    intros b c [(y & i & Hy & _ & Hi & (Hid' & _))|[(y & row' & Hy & _ & Ey & -> & _)|(row' & _ & -> & Ey & Hg)]]%writes_elim Eid.
    + rewrite Hid' in Eid. destruct Hfresh as [Hf _]. rewrite <- Eid, (Hf i) in Hk; [done|lia].
    + rewrite want_row_id in Eid. destruct (loaded_id st r p m Hok Hld _ _ Ey) as [Hst Ha]. rewrite Eid, Hk in Hst. injection Hst as <-.
      destruct (ld_addr _ _ _ _ Hld _ _ Ey) as (_ & Ht & _). destruct Hcase as [?|[Hn _]]; [done|].
      apply Hn. rewrite Ha. by apply list_elem_of_fmap_2.
    + cbn in Eid. destruct (loaded_id st r p m Hok Hld _ _ Ey) as [Hst Ha]. rewrite Eid, Hk in Hst. injection Hst as <-.
      destruct (ld_addr _ _ _ _ Hld _ _ Ey) as (_ & Ht & _). destruct Hcase as [?|[_ Hn]]; [done|]. by apply Hn, gone_addr_stale.
  - intros k b Hk Hnone. destruct (decide (k ∈ (wid <$> omap addr_of ws))) as [Hin|Hn].
    + apply list_elem_of_fmap in Hin as ([bb a] & Ea & Hin). symmetry in Ea. unfold wid in Ea. cbn [snd] in Ea. apply writes_elim in Hin as Hc. apply written_rows in Hin. unfold written in Hin. destruct bb.
      * destruct Hin as [t Hl]. rewrite Ea, Hk in Hl. injection Hl as ->.
        destruct Hc as [(x & i & Hx & _ & _ & Hna)|[(x & row' & _ & [=] & _)|(row' & [=] & _)]]. exists x. split; [done|].
        destruct Hna as (_ & _ & ? & ? & ? & ? & ? & ? & ? & _). by split_and!.
      * destruct Hin as (cur & t & Hcur & _). rewrite Ea in Hcur. congruence.
    + rewrite unwritten_rows in Hk; [congruence|]. intros bb a Hin <-. apply Hn. by apply (list_elem_of_fmap_2 wid _ (bb, a)).
Qed.
End reflect.

(** ** The committed transaction *)

Section committed.
Context `{Env}.

Lemma report_device_id r d c name : dv_ID (report_device r d c name) = dv_ID d ∧ dv_TenantID (report_device r d c name) = dv_TenantID d.
Proof. done. Qed.

(** What the callback of a committed transaction did: load, plan, execute. *)
Record committed (s : HostSyncSettings) (nr : Report) (w w' : World) (plan : Plan) (st : State) (p : Params)
    (d0 d : Device) (n n1 n2 : nat) (items : list (bool * IPAddress)) : Prop := {
  cm_tenant : pm_TenantID p = hss_TenantID s;
  cm_exclusions : pm_Exclusions p = hss_ExcludedInterfaces s;
  cm_loaded : loaded (pm_TenantID p) (w_mem w) nr st;
  cm_ids : (n = w_ids w ∧ n ≤ n1 ∧ n1 ≤ n2 ∧ n2 ≤ w_ids w')%nat;
  cm_new : fst (Match (st_Candidates st) nr) = None → (n < n1)%nat;
  cm_device : hpl_DeviceID plan = dv_ID d;
  cm_ops : ∃ dev_ws rest, op_write <$> hpl_Ops plan = dev_ws ++ rest ∧ device_writes st nr p n d0 d dev_ws ∧ Forall not_device_write rest;
  cm_addrs : omap addr_of (op_write <$> hpl_Ops plan) =
    items ++ ((λ row_, (false, released (dv_ID d) row_)) <$> gone_rows st nr (dv_ID d) (report_ifaces s nr));
  cm_items : items_writes st nr p (dv_ID d) n1 (todo (report_ifaces s nr)) items n2;
  cm_effects : effects (pm_TenantID p) (op_write <$> hpl_Ops plan) (w_mem w) (w_mem w')
}.

Lemma attempt_committed cfg s nr trigger runID w w' plan :
  mem_ok (w_mem w) → attempt_body cfg s nr trigger runID w = (w', Ok plan) →
  ∃ st p d0 d n n1 n2 items, committed s nr w w' plan st p d0 d n n1 n2 items.
Proof.
  intros Hok E. unfold attempt_body in E. apply bind_inv in E as (wa & st & E1 & E). apply load_inv in E1 as [-> Hld]; [|done].
  apply bind_inv in E as (wb & t & E2 & E). apply now_inv in E2 as [Hmb Hib].
  set (p := {| pm_TenantID := _ |}) in E.
  apply bind_inv in E as (wc & plan' & E3 & E). destruct (Build_shape st nr p wb) as (wc' & plan'' & d0 & d & n1 & n2 & items & E3' & Hsh).
  rewrite E3' in E3. injection E3 as <- <-.
  apply bind_inv in E as (wd & [] & E4 & E). pose proof (proj2 (execute_tx (hss_TenantID s) plan'') wc') as (_ & _ & Hid4).
  rewrite E4 in Hid4. cbn in Hid4. apply execute_effects in E4.
  apply bind_inv in E as (we & [] & E5 & E). pose proof (proj2 (SaveDeviceState_tx (hss_TenantID s) (hpl_State plan'')) wd) as (_ & _ & Hid5).
  rewrite E5 in Hid5. cbn in Hid5. apply ret_inv in E as [-> ->].
  unfold SaveDeviceState, tx_fail in E5. apply bind_inv in E5 as (w5 & [] & E5%fail_inv & E6). subst w5. apply set_mem_inv in E6 as [Hm6 _].
  destruct Hsh as [Hm _ _ Hi Hn Hd _ _ (l1 & l2 & Eo & Hdw & Hf) Ha Hit]. exists st, p, d0, d, (w_ids w), n1, n2, items.
  rewrite (report_ifaces_params s nr p) in Ha, Hit by done. rewrite Hmb in Hm. rewrite Hib in Hi, Hn, Hdw. split; try done.
  - split_and!; lia.
  - exists (op_write <$> l1), (op_write <$> l2). by rewrite Eo, fmap_app.
  - rewrite <- Hm. eapply effects_end; [exact E4|by rewrite Hm6..].
Qed.

(** The identifiers a committed transaction drew. *)
Lemma committed_new_ids m from n m' from' n' :
  new_ids m from n → mem_addrs m' = mem_addrs m → mem_devices m' = mem_devices m → (from ≤ from')%nat → (from' + n' ≤ from + n)%nat →
  new_ids m' from' n'.
Proof.
  intros [[Hf Hd] Hn] Ha Hv H1 H2. unfold new_ids, fresh_ids. rewrite Ha, Hv. split_and!.
  - intros i Hi. apply Hf. lia.
  - intros i j Hi Hj. apply Hd; lia.
  - intros i Hi. apply Hn. lia.
Qed.

(** The device of a plan: a stored one, or a new one. *)
Lemma committed_owned s nr w w' plan st p d0 d n n1 n2 items k a :
  committed s nr w w' plan st p d0 d n n1 n2 items → new_ids (w_mem w) n (n2 - n) →
  mem_addrs (w_mem w) !! k = Some a → ad_TenantID a = pm_TenantID p → ad_DeviceID a = dv_ID d → st_Addresses st !! ad_Address a = Some a.
Proof.
  intros Hc [_ Hn] Hk Ht Hd. destruct (cm_ops _ _ _ _ _ _ _ _ _ _ _ _ _ Hc) as (l1 & l2 & _ & [-> Hdw] & _).
  destruct (fst (Match (st_Candidates st) nr)) as [dv|] eqn:Em.
  - destruct Hdw as [-> _]. by eapply (ld_owned _ _ _ _ (cm_loaded _ _ _ _ _ _ _ _ _ _ _ _ _ Hc)).
  - destruct Hdw as [-> _]. exfalso. pose proof (cm_new _ _ _ _ _ _ _ _ _ _ _ _ _ Hc Em). pose proof (cm_ids _ _ _ _ _ _ _ _ _ _ _ _ _ Hc).
    destruct (Hn n) as [_ Hn']; [lia|]. by apply (Hn' _ _ Hk).
Qed.
End committed.

(** ** The device after an apply *)

(** A device is linked to an inventory host. *)
Definition linked_to `{Env} (hostID : string) (d : Device) : Prop :=
  is_empty (dv_InventoryHostID d) = false ∧ EqualFold (dv_InventoryHostID d) hostID = true.

(** The columns of a device row only an administrator writes. *)
Definition keeps_device_admin (a b : Device) : Prop :=
  dv_ID b = dv_ID a ∧ dv_TenantID b = dv_TenantID a ∧ dv_Description b = dv_Description a ∧ dv_AssetTag b = dv_AssetTag a ∧
  dv_LocationID b = dv_LocationID a ∧ dv_RackID b = dv_RackID a ∧ dv_RackPosition b = dv_RackPosition a ∧
  dv_DeviceHeightU b = dv_DeviceHeightU a ∧ dv_Status b = dv_Status a ∧ dv_FirmwareVersion b = dv_FirmwareVersion a ∧
  dv_Contact b = dv_Contact a ∧ dv_IPMISecretRef b = dv_IPMISecretRef a ∧ dv_Tags b = dv_Tags a ∧
  dv_CreatedBy b = dv_CreatedBy a ∧ dv_CreatedAt b = dv_CreatedAt a.

(** A reported text replaces the column, an empty one leaves it. *)
Definition set_or_kept (reported before after : string) : Prop :=
  after = (if is_empty reported then before else reported).

(** The reported columns, where [a] is the row before (a blank one for a new
    device). *)
Record host_columns `{Env} (nr : Report) (a b : Device) : Prop := {
  hc_name : dv_Name b ∈ CandidateNames nr;
  hc_host : dv_InventoryHostID b = rp_HostID nr;
  hc_source : dv_Source b = SrcHostReport;
  hc_state : dv_ReportState b = RepReported;
  hc_digest : dv_ReportDigest b = rp_Digest nr;
  hc_updates : dv_UpdateStatus b = u_Status (rp_Updates nr);
  hc_reported_at : dv_LastReportAt b = timePtr (rp_CollectedAt nr);
  hc_manufacturer : set_or_kept (rp_Manufacturer nr) (dv_Manufacturer a) (dv_Manufacturer b);
  hc_model : set_or_kept (rp_Model nr) (dv_Model a) (dv_Model b);
  hc_serial : set_or_kept (rp_Serial nr) (dv_SerialNumber a) (dv_SerialNumber b);
  hc_os : set_or_kept (rp_OSFamily nr) (dv_OSType a) (dv_OSType b);
  hc_ipv4 : dv_PrimaryIP b = if Addr_IsValid (rp_PrimaryIPv4 nr) then Addr_String (rp_PrimaryIPv4 nr) else dv_PrimaryIP a;
  hc_ipv6 : dv_PrimaryIPv6 b = if Addr_IsValid (rp_PrimaryIPv6 nr) then Addr_String (rp_PrimaryIPv6 nr) else dv_PrimaryIPv6 a
}.

Record device_reflects `{Env} (tid dev : string) (nr : Report) (m m' : gmap string Device) : Prop := {
  dr_row : ∃ d', m' !! dev = Some d' ∧ dv_ID d' = dev ∧ dv_TenantID d' = tid ∧
    match m !! dev with
    | Some d => (is_empty (dv_InventoryHostID d) = true ∨ linked_to (rp_HostID nr) d) ∧ keeps_device_admin d d' ∧ host_columns nr d d'
    | None => dv_Status d' = DevStActive ∧ dv_CreatedBy d' = HostSyncActor ∧ host_columns nr zero_Device d'
    end;
  dr_others : ∀ k, k ≠ dev → relinked (m !! k) (m' !! k);
  dr_unique :
    (∀ k1 k2 d1 d2, m !! k1 = Some d1 → m !! k2 = Some d2 → dv_TenantID d1 = tid → dv_TenantID d2 = tid →
       linked_to (rp_HostID nr) d1 → linked_to (rp_HostID nr) d2 → k1 = k2) →
    ∀ k d', m' !! k = Some d' → dv_TenantID d' = tid → linked_to (rp_HostID nr) d' → k = dev
}.

Section device.
Context `{Env}.

Lemma desiredName_candidate c r id : desiredName c r id ∈ CandidateNames r.
Proof. unfold desiredName, CandidateNames. destruct (name_taken _ _ _); set_solver. Qed.

(** A matched device is stored, of the tenant, and not another host's. *)
Lemma Match_stored tid m r st d :
  loaded tid m r st → fst (Match (st_Candidates st) r) = Some d →
  (∃ k, mem_devices m !! k = Some d) ∧ dv_TenantID d = tid ∧ (is_empty (dv_InventoryHostID d) = true ∨ linked_to (rp_HostID r) d).
Proof.
  intros [Hh Hs Hn _ _ _] E. unfold Match in E. destruct (ca_ByHost _) as [dh|].
  { injection E as <-. destruct Hh as (? & ? & ? & ?). split_and!; [done|done|by right]. }
  assert (Hlink : ∀ d, linkedElsewhere d (rp_HostID r) = false → is_empty (dv_InventoryHostID d) = true ∨ linked_to (rp_HostID r) d).
  { clear. intros d. unfold linkedElsewhere, linked_to. destruct (is_empty _), (EqualFold _ _); naive_solver. }
  cbv zeta in E. destruct (if IsPlaceholderSerial (rp_Serial r) then _ else _) as [ds|] eqn:Es.
  - injection E as <-. destruct (IsPlaceholderSerial _); [done|].
    destruct (List.filter (same_serial r) (ca_BySerial (st_Candidates st))) as [|x [|]] eqn:Ef; try done.
    destruct (linkedElsewhere x _) eqn:El; [done|]. injection Es as <-.
    assert (Hx : x ∈ ca_BySerial (st_Candidates st)).
    { apply list_elem_of_In. apply (filter_In (same_serial r)). rewrite Ef. by left. }
    destruct (Hs _ Hx). auto.
  - destruct (if is_empty (rp_Hostname r) || IsGenericName (rp_Hostname r) then _ else _) as [dn|] eqn:En; [|done]. injection E as <-.
    destruct (_ || _); [done|]. apply find_first_Some in En as [Hx Hp]. apply andb_true_iff in Hp as [_ Hp%negb_true_iff].
    destruct (Hn dn); auto.
Qed.

(** Nothing to change: the row already has the wanted columns. *)
Lemma no_device_changes a b : is_nil (deviceChanges a b) = true →
  reported_columns a b (dv_UpdatedAt a) = a.
Proof.
  unfold is_nil, deviceChanges. intros En.
  assert (Hz : ∀ {X} (l1 l2 : list X), match l1 ++ l2 with [] => true | _ => false end = true → l1 = [] ∧ match l2 with [] => true | _ => false end = true)
    by (intros X [|? l1] l2; done).
  assert (Hs : ∀ f x y, str_change f x y = [] → x = y) by (intros f x y; unfold str_change; destruct (x =s y) eqn:E; [by apply String.eqb_eq in E|done]).
  assert (Hb : ∀ f x y, bool_change f x y = [] → x = y) by (intros f [] []; done).
  assert (Ht : ∀ f x y, time_change f x y = [] → x = y).
  { intros f x y. unfold time_change. destruct (sameTime x y) eqn:E; [|done]. destruct x, y; try done. cbn in E. apply Z.eqb_eq in E. by subst. }
  do 19 (let E := fresh "E" in apply Hz in En as [E En]; first [apply Hs in E|apply Hb in E|apply Ht in E]).
  assert (Hl : time_change "last_report_at" (dv_LastReportAt a) (dv_LastReportAt b) = []) by (by destruct (time_change _ _ _)). apply Ht in Hl.
  destruct a, b; cbn in *; unfold reported_columns; cbn; by subst.
Qed.

Lemma effects_app_inv tid ws1 ws2 m m' :
  effects tid (ws1 ++ ws2) m m' → ∃ m1, effects tid ws1 m m1 ∧ effects tid ws2 m1 m'.
Proof.
  revert m. induction ws1 as [|x ws1 IH]; intros m He; cbn in He.
  - exists m. split; [by constructor|done].
  - inversion He as [|? ? ? m1 ? Hx Hr]; subst. destruct (IH _ Hr) as (m2 & H1 & H2). exists m2. split; [by econstructor|done].
Qed.

Lemma effects_one tid x m m' : effects tid [x] m m' → devices_after tid x (mem_devices m) (mem_devices m').
Proof. inversion 1 as [|? ? ? m1 ? [Hx _] Hr]; subst. inversion Hr as [? ? Hd _|]; subst. by rewrite Hd. Qed.

Lemma report_columns r d c name u d1 :
  name ∈ CandidateNames r → d1 = reported_columns d (report_device r d c name) u → host_columns r d d1 ∧ keeps_device_admin d d1.
Proof. intros Hn ->. split; [split|split_and!]; done. Qed.

(** The device row between its own write and the rest. *)
Lemma device_step st r p n d0 d ws m m1 :
  mem_ok m → loaded (pm_TenantID p) m r st → device_writes st r p n d0 d ws → effects (pm_TenantID p) ws m m1 →
  (fst (Match (st_Candidates st) r) = None → mem_devices m !! dv_ID d = None) →
  (∀ k, k ≠ dv_ID d → mem_devices m1 !! k = mem_devices m !! k) ∧
  ∃ d1, mem_devices m1 !! dv_ID d = Some d1 ∧ dv_ID d1 = dv_ID d ∧ dv_TenantID d1 = pm_TenantID p ∧
    match mem_devices m !! dv_ID d with
    | Some d => (is_empty (dv_InventoryHostID d) = true ∨ linked_to (rp_HostID r) d) ∧ keeps_device_admin d d1 ∧ host_columns r d d1
    | None => dv_Status d1 = DevStActive ∧ dv_CreatedBy d1 = HostSyncActor ∧ host_columns r zero_Device d1
    end.
Proof.
  intros Hok Hld [-> Hw] He Hfresh. cbn [report_device dv_ID] in *.
  pose proof (desiredName_candidate (st_Candidates st) r (dv_ID d0)) as Hname.
  destruct (fst (Match (st_Candidates st) r)) as [dv|] eqn:Em; cbn [is_some negb] in *.
  - destruct Hw as [-> ->]. destruct (Match_stored _ _ _ _ _ Hld Em) as ([k Hk] & Ht & Hl).
    pose proof (proj1 (ok_devices _ Hok) _ _ Hk) as <-. rewrite Hk.
    set (want := report_device r dv false _) in *. destruct (is_nil (deviceChanges dv want)) eqn:En.
    + inversion He as [? ? Hd _|]; subst. rewrite Hd, Hk. split; [done|]. exists dv. split_and!; try done.
      apply report_columns with (c := false) (name := desiredName (st_Candidates st) r (dv_ID dv)) (u := dv_UpdatedAt dv); [done|]. symmetry. by apply no_device_changes.
    + apply effects_one in He as (cur & t & Hcur & _ & ->). cbn [want report_device dv_ID] in *. rewrite Hk in Hcur. injection Hcur as <-.
      split; [intros k Hne; by rewrite lookup_insert_ne|]. eexists. rewrite lookup_insert_eq. split; [done|].
      destruct (report_columns r dv false _ t _ Hname eq_refl) as [Hc Ha]. split_and!; try done; by apply Ha.
  - destruct Hw as [-> ->]. rewrite (Hfresh eq_refl). apply effects_one in He as (t & ->). cbn [report_device new_device dv_ID] in *.
    split; [intros k Hne; by rewrite lookup_insert_ne|]. eexists. rewrite lookup_insert_eq. split; [done|]. by split_and!.
Qed.

(** Links to hypervisors change nothing a report sets or an administrator owns. *)
Lemma relinked_row (m m' : gmap string Device) k d : relinked (m !! k) (m' !! k) → m !! k = Some d →
  ∃ h, m' !! k = Some {| d with dv_HypervisorDeviceID := h |}.
Proof. intros Hr E. rewrite E in Hr. destruct (m' !! k) as [d'|]; [|done]. destruct Hr as [h ->]. by exists h. Qed.

Lemma relinked_columns r a b h : host_columns r a b → host_columns r a {| b with dv_HypervisorDeviceID := h |}.
Proof. intros []. by split. Qed.

Lemma committed_device s nr w w' plan st p d0 d n n1 n2 items :
  mem_ok (w_mem w) → committed s nr w w' plan st p d0 d n n1 n2 items → new_ids (w_mem w) n (n2 - n) →
  device_reflects (pm_TenantID p) (dv_ID d) nr (mem_devices (w_mem w)) (mem_devices (w_mem w')).
Proof.
  intros Hok Hc [_ Hnew]. destruct (cm_ops _ _ _ _ _ _ _ _ _ _ _ _ _ Hc) as (ws & rest & Eo & Hdw & Hf).
  pose proof (cm_effects _ _ _ _ _ _ _ _ _ _ _ _ _ Hc) as He. rewrite Eo in He. apply effects_app_inv in He as (m1 & He1 & He2).
  pose proof (cm_loaded _ _ _ _ _ _ _ _ _ _ _ _ _ Hc) as Hld. pose proof (effects_devices _ _ _ _ He2 Hf) as Hrel.
  destruct (device_step _ _ _ _ _ _ _ _ _ Hok Hld Hdw He1) as [Hoth (d1 & Hd1 & Hid & Ht & Hcase)].
  { intros Em. pose proof (cm_new _ _ _ _ _ _ _ _ _ _ _ _ _ Hc Em). pose proof (cm_ids _ _ _ _ _ _ _ _ _ _ _ _ _ Hc).
    destruct Hdw as [-> Hw]. rewrite Em in Hw. destruct Hw as [-> _]. apply (Hnew n). lia. }
  destruct (relinked_row _ _ _ _ (Hrel (dv_ID d)) Hd1) as [h Hd']. split.
  - eexists. split; [exact Hd'|]. split_and!; [done|done|]. destruct (mem_devices (w_mem w) !! dv_ID d) as [dv|].
    + destruct Hcase as (Hl & Ha & Hh). split_and!; [done|done|by apply relinked_columns].
    + destruct Hcase as (? & ? & Hh). split_and!; [done|done|by apply relinked_columns].
  - intros k Hne. rewrite <- (Hoth k Hne). apply Hrel.
  - intros Huniq k d' Hk Htk Hlk. destruct (decide (k = dv_ID d)) as [|Hne]; [done|]. exfalso.
    specialize (Hrel k). rewrite (Hoth k Hne), Hk in Hrel. destruct (mem_devices (w_mem w) !! k) as [dk|] eqn:Ek; [|done].
    destruct Hrel as [hk ->]. change (linked_to (rp_HostID nr) dk) in Hlk. cbn in Htk. pose proof (ld_host _ _ _ _ Hld) as Hh.
    destruct (ca_ByHost (st_Candidates st)) as [dh|] eqn:Eh.
    + destruct Hh as ([kh Hkh] & Hth & Hl1 & Hl2). apply Hne. rewrite (Huniq k kh dk dh Ek Hkh Htk Hth Hlk (conj Hl1 Hl2)).
      rewrite <- (proj1 (ok_devices _ Hok) _ _ Hkh). destruct Hdw as [-> Hw]. unfold Match in Hw. rewrite Eh in Hw. cbn in Hw. destruct Hw as [-> _].
      unfold Match. by rewrite Eh.
    + destruct Hlk as [Hl1 Hl2]. by rewrite (Hh k dk Ek Htk Hl1) in Hl2.
Qed.
End device.

Section theorems.
Context `{Env} (json_profile : HardwareProfile → string) (sha256_hex : string → string).

Lemma Apply_committed_full cfg s rep trigger runID w w' res nr :
  mem_ok (w_mem w) → Normalize json_profile sha256_hex rep (hss_TenantID s) = Ok nr → rp_HostStatus nr ≠ "retired"%string →
  Apply json_profile sha256_hex cfg s rep trigger runID w = (w', Ok res) →
  new_ids (w_mem w) (w_ids w) (w_ids w' - w_ids w) →
  ∃ w1 w2 plan st p d0 d n n1 n2 items, committed s nr w1 w2 plan st p d0 d n n1 n2 items ∧ mem_ok (w_mem w1) ∧
    mem_addrs (w_mem w1) = mem_addrs (w_mem w) ∧ mem_devices (w_mem w1) = mem_devices (w_mem w) ∧ w_mem w' = w_mem w2 ∧
    rs_DeviceID res = dv_ID d ∧ new_ids (w_mem w1) n (n2 - n).
Proof.
  intros Hok Hn Hr E Hnew. destruct (Apply_committed _ _ _ _ _ _ _ _ _ _ _ Hn Hr E) as (w1 & w2 & plan & s' & Hs & _ & _ & Hi & Eb & Hm & Hi2 & Hd & _).
  assert (Hok1 : mem_ok (w_mem w1)) by (by eapply same_tables_ok).
  destruct (attempt_committed _ _ _ _ _ _ _ _ Hok1 Eb) as (st & p & d0 & d & n & n1 & n2 & items & Hc).
  destruct Hs as (ss & f & Em & _ & _). assert (mem_addrs (w_mem w1) = mem_addrs (w_mem w) ∧ mem_devices (w_mem w1) = mem_devices (w_mem w)) as [Ea Ed] by (by rewrite Em).
  exists w1, w2, plan, st, p, d0, d, n, n1, n2, items. split_and!; try done.
  - rewrite Hd. by apply Hc.
  - pose proof (cm_ids _ _ _ _ _ _ _ _ _ _ _ _ _ Hc). eapply committed_new_ids; [exact Hnew|done|done|lia|lia].
Qed.

Lemma Apply_addresses cfg s rep trigger runID w w' res nr :
  mem_ok (w_mem w) → Normalize json_profile sha256_hex rep (hss_TenantID s) = Ok nr → rp_HostStatus nr ≠ "retired"%string →
  Apply json_profile sha256_hex cfg s rep trigger runID w = (w', Ok res) →
  new_ids (w_mem w) (w_ids w) (w_ids w' - w_ids w) →
  addresses_reflect (hss_TenantID s) (rs_DeviceID res) nr (report_ifaces s nr) (mem_addrs (w_mem w)) (mem_addrs (w_mem w')).
Proof.
  intros Hok Hn Hr E Hnew.
  destruct (Apply_committed_full _ _ _ _ _ _ _ _ _ Hok Hn Hr E Hnew) as (w1 & w2 & plan & st & p & d0 & d & n & n1 & n2 & items & Hc & Hok1 & Ea & _ & -> & -> & Hnew1).
  rewrite <- Ea, <- (cm_tenant _ _ _ _ _ _ _ _ _ _ _ _ _ Hc). pose proof (cm_ids _ _ _ _ _ _ _ _ _ _ _ _ _ Hc) as Hi.
  eapply (reflect_all st nr p (w_mem w1) (w_mem w2) Hok1 (cm_loaded _ _ _ _ _ _ _ _ _ _ _ _ _ Hc) (dv_ID d) (report_ifaces s nr) items n1 n2 n).
  - by apply Hc.
  - lia.
  - by apply Hnew1.
  - by apply Hc.
  - by apply Hc.
  - intros x. rewrite <- (report_ifaces_params s nr p) by apply Hc. apply todo_reported.
  - intros k a. by eapply committed_owned.
Qed.

(** C4: after a report was applied, the addresses of the store are exactly what
    the report says: every address of a recorded interface has one row of the
    device with the reported interface, MAC, name and primary flag; a row that
    already existed kept its identity and every column an administrator or the
    network scan owns; every other row the device held is released (unless a
    BMC that was not reported owns it); every row of another tenant, or of an
    address neither reported nor released, is untouched; and nothing else was
    inserted. *)
Theorem Apply_reflects_addresses cfg s rep trigger runID w w' res nr :
  mem_ok (w_mem w) → Normalize json_profile sha256_hex rep (hss_TenantID s) = Ok nr → rp_HostStatus nr ≠ "retired"%string →
  Apply json_profile sha256_hex cfg s rep trigger runID w = (w', Ok res) →
  new_ids (w_mem w) (w_ids w) (w_ids w' - w_ids w) →
  addresses_reflect (hss_TenantID s) (rs_DeviceID res) nr (report_ifaces s nr) (mem_addrs (w_mem w)) (mem_addrs (w_mem w')) ∧
  ∀ i a, to_record s nr i a → ∃ k row_, mem_addrs (w_mem w') !! k = Some row_ ∧ ad_TenantID row_ = hss_TenantID s ∧
    ad_Address row_ = Addr_String (ra_Addr a) ∧ ad_DeviceID row_ = rs_DeviceID res ∧ ad_ReportState row_ = RepReported.
Proof.
  intros Hok Hn Hr E Hnew. assert (Hall := Apply_addresses _ _ _ _ _ _ _ _ _ Hok Hn Hr E Hnew). split; [done|].
  intros i a (x & Hx & <-)%to_record_todo. destruct (rfl_present _ _ _ _ _ _ Hall x Hx) as (k & row_ & Hk & Ht & Ha & Hd & _ & _ & _ & _ & Hs).
  by exists k, row_.
Qed.

(** C12: after a report was applied, the device named in the result is the
    host's: it carries the report's columns; when the row existed before it was
    not linked to another inventory host and kept every administrator's column;
    every other device is unchanged but for its hypervisor link; and no second
    device of the tenant is linked to the host. *)
Theorem Apply_reflects_device cfg s rep trigger runID w w' res nr :
  mem_ok (w_mem w) → Normalize json_profile sha256_hex rep (hss_TenantID s) = Ok nr → rp_HostStatus nr ≠ "retired"%string →
  Apply json_profile sha256_hex cfg s rep trigger runID w = (w', Ok res) →
  new_ids (w_mem w) (w_ids w) (w_ids w' - w_ids w) →
  device_reflects (hss_TenantID s) (rs_DeviceID res) nr (mem_devices (w_mem w)) (mem_devices (w_mem w')).
Proof.
  intros Hok Hn Hr E Hnew.
  destruct (Apply_committed_full _ _ _ _ _ _ _ _ _ Hok Hn Hr E Hnew) as (w1 & w2 & plan & st & p & d0 & d & n & n1 & n2 & items & Hc & Hok1 & _ & Ed & -> & -> & Hnew1).
  rewrite <- Ed, <- (cm_tenant _ _ _ _ _ _ _ _ _ _ _ _ _ Hc). by eapply committed_device.
Qed.
End theorems.
