(* ===== verification/HostPoll.v ===== *)
(** * Polling host reports: the watermark and what the next poll lists

    A poll handles the listed reports in the order of their change times; its
    watermark is the last change time before the first failure, so the next
    poll, from that watermark, lists a failed host again unless its change time
    equals the watermark. *)

From S2P Require Import Prelude Models Store HostNorm MemNet MemDev HostTx MemInv HostPlan HostSync.

(** ** Pages *)

Lemma concat_pages {A} fuel size (l : list A) : (0 < size)%nat → (length l ≤ fuel)%nat → concat (pages_of fuel size l) = l.
Proof.
  intros Hs. revert l. induction fuel as [|fuel IH]; intros [|x l] Hl; cbn in *; try done; [lia|].
  rewrite IH; [apply take_drop|]. rewrite length_drop. cbn. lia.
Qed.

(** The reports a fake inventory that answers hands to a callback. *)
Lemma fake_pages f tid flt : fake_failure f = None →
  concat (fst (fake_ListHostReports f tid flt)) = fake_list f tid flt ∧ snd (fake_ListHostReports f tid flt) = None.
Proof. intros E. unfold fake_ListHostReports. rewrite E. split; [|done]. apply concat_pages; lia. Qed.

Lemma elem_of_fake_list f tid since rep :
  rep ∈ fake_list f tid {| f_ChangedSince := since; f_Digest := false |} ↔
  changed_after since rep = true ∧ ∃ h, default ∅ (fk_reports f !! tid) !! h = Some rep.
Proof.
  unfold fake_list. cbn. rewrite (sort_by_perm _ _), list_elem_of_fmap. setoid_rewrite elem_of_map_select. naive_solver.
Qed.

(** The listing is in the order of the change times. *)
Lemma fake_list_sorted f tid flt : StronglySorted (λ a b, ir_ChangedAt a ≤ ir_ChangedAt b) (fake_list f tid flt).
Proof.
  assert (Hs : StronglySorted (le_by report_less) (fake_list f tid flt)).
  { apply sort_by_sorted.
    - intros a b. unfold report_less. rewrite (Z.eqb_sym (ir_ChangedAt b)). destruct (Z.eqb_spec (ir_ChangedAt a) (ir_ChangedAt b)).
      + eauto with ipam.
      + rewrite Z.ltb_lt, Z.ltb_ge. lia.
    - intros a b c. unfold report_less. destruct (Z.eqb_spec (ir_ChangedAt b) (ir_ChangedAt a)),
        (Z.eqb_spec (ir_ChangedAt c) (ir_ChangedAt b)), (Z.eqb_spec (ir_ChangedAt c) (ir_ChangedAt a)); rewrite ?Z.ltb_ge; try lia.
      eauto with ipam. }
  induction Hs as [|a l Hl IH Ha]; constructor; [done|]. eapply Forall_impl; [exact Ha|]. intros b. unfold le_by, report_less.
  destruct (Z.eqb_spec (ir_ChangedAt b) (ir_ChangedAt a)); rewrite ?Z.ltb_ge; lia.
Qed.

(** ** The outcomes of a poll *)

Section with_env.
Context `{Env} (json_profile : HardwareProfile → string) (sha256_hex : string → string).
Context (cfg : Config) (s : HostSyncSettings) (digests : gmap string deviceRef).

(** The reports handled one after the other, each with its outcome. *)
Inductive handled : run → World → list inv_Report → list outcome → run → World → Prop :=
| handled_nil ru w : handled ru w [] [] ru w
| handled_cons ru ru1 ru' w w1 w' rep o l outs :
    handle json_profile sha256_hex cfg s rep TriggerPoll {| ru with ru_fetched := ru_fetched ru + 1 |} digests false w = (w1, Ok (ru1, o, None)) →
    handled ru1 w1 l outs ru' w' → handled ru w (rep :: l) (o :: outs) ru' w'.

(** The reports handled before the first failure. *)
Fixpoint before_failed (l : list (inv_Report * outcome)) : list inv_Report :=
  match l with
  | [] => []
  | (_, outcomeFailed) :: _ => []
  | (rep, _) :: l' => rep :: before_failed l'
  end.

Definition latest (from : Time) (l : list inv_Report) : Time := foldl Z.max from (ir_ChangedAt <$> l).

Lemma poll_reports_run ps l w w' ps' :
  poll_reports json_profile sha256_hex cfg s digests ps l w = (w', Ok (ps', None)) →
  ∃ outs, handled (ps_run ps) w l outs (ps_run ps') w' ∧ length outs = length l ∧
    ps_watermark ps' = if ps_blocked ps then ps_watermark ps else latest (ps_watermark ps) (before_failed (zip l outs)).
Proof.
  revert ps w. induction l as [|rep l IH]; intros ps w E; cbn [poll_reports] in E.
  { apply ret_inv in E as [-> [= ->]]. exists []. split_and!; [constructor|done|by destruct (ps_blocked ps)]. }
  cbv zeta in E. apply bind_inv in E as (w1 & [[ru o] [e|]] & E1 & E); [by apply ret_inv in E as [_ [=]]|].
  apply IH in E as (outs & Hh & Hl & Hw). exists (o :: outs). split_and!; [|by cbn; rewrite Hl|].
  - econstructor; [exact E1|]. destruct o; cbn in Hh; try exact Hh; destruct (_ && _); exact Hh.
  - rewrite Hw. unfold latest, advance. cbn. destruct o; cbn; destruct (ps_blocked ps); cbn; try done;
      (destruct (ps_watermark ps <? ir_ChangedAt rep) eqn:El; cbn; f_equal; [apply Z.ltb_lt in El|apply Z.ltb_ge in El]; lia).
Qed.

(** The watermark is a change time before the first failure, or none. *)
Lemma latest_case from l : latest from l = from ∨ ∃ rep, rep ∈ l ∧ latest from l = ir_ChangedAt rep.
Proof.
  unfold latest. revert from. induction l as [|rep l IH]; intros from; cbn; [by left|].
  destruct (IH (from `max` ir_ChangedAt rep)) as [->|(rep' & Hin & ->)].
  - destruct (Z.max_spec from (ir_ChangedAt rep)) as [[_ ->]|[_ ->]]; [right; exists rep; split; [by left|done]|by left].
  - right. exists rep'. split; [by right|done].
Qed.

Lemma latest_from from l : from ≤ latest from l.
Proof.
  unfold latest. revert from. induction l as [|x l IH]; intros from; cbn; [lia|]. specialize (IH (from `max` ir_ChangedAt x)). lia.
Qed.

Lemma latest_ge from l rep : rep ∈ l → ir_ChangedAt rep ≤ latest from l.
Proof.
  revert from. induction l as [|x l IH]; intros from Hin; [by apply elem_of_nil in Hin|].
  apply elem_of_cons in Hin as [->|Hin]; [|by apply IH].
  pose proof (latest_from (from `max` ir_ChangedAt x) l) as Hf. unfold latest in *. cbn. lia.
Qed.

Lemma before_failed_In l rep : rep ∈ before_failed l → ∃ o, (rep, o) ∈ l ∧ o ≠ outcomeFailed.
Proof.
  induction l as [|[x o] l IH]; cbn; [by intros ?%elem_of_nil|].
  destruct o; try (intros [->|Hin]%elem_of_cons; [eexists; split; [by left|done]|destruct (IH Hin) as (o & ? & ?); exists o; split; [by right|done]]).
  by intros ?%elem_of_nil.
Qed.

(** In a listing sorted by change time, what precedes the first failure is no
    newer than any failure. *)
Lemma before_failed_older l outs rep bad :
  StronglySorted (λ a b, ir_ChangedAt a ≤ ir_ChangedAt b) l → length outs = length l →
  rep ∈ before_failed (zip l outs) → (bad, outcomeFailed) ∈ zip l outs → ir_ChangedAt rep ≤ ir_ChangedAt bad.
Proof.
  intros Hs. revert outs. induction Hs as [|x l Hl IH Hx]; intros [|o outs] Hlen Hrep Hbad; try done; cbn in *; [by apply elem_of_nil in Hrep|].
  apply elem_of_cons in Hbad as [[= -> <-]|Hbad]; [by apply elem_of_nil in Hrep|].
  assert (Hb : bad ∈ l) by (by apply elem_of_zip_l in Hbad).
  assert (Hhead : ir_ChangedAt x ≤ ir_ChangedAt bad) by (by apply (proj1 (Forall_forall _ _) Hx)).
  destruct o; try (apply elem_of_cons in Hrep as [->|Hrep]; [done|eapply IH; [|exact Hrep|exact Hbad]; lia]).
  by apply elem_of_nil in Hrep.
Qed.
End with_env.

(** The change time the next poll starts from: [SaveHostSyncState] keeps the
    stored one when the poll has no watermark. *)
Definition next_since (since watermark : Time) : Time := default since (timePtr watermark).

Section theorems.
Context `{Env} (json_profile : HardwareProfile → string) (sha256_hex : string → string).

Lemma fake_poll_inv f cfg s since ru w w' ru' wm :
  poll json_profile sha256_hex (Fake_inventory f) cfg s since ru w = (w', Ok (ru', wm, None)) →
  ∃ digests w1 outs, deviceDigests (hss_TenantID s) w = (w1, Ok digests) ∧
    let l := fake_list f (hss_TenantID s) {| f_ChangedSince := since; f_Digest := false |} in
    handled json_profile sha256_hex cfg s digests ru w1 l outs ru' w' ∧ length outs = length l ∧
    wm = latest time_zero (before_failed (zip l outs)).
Proof.
  unfold poll. intros E. apply bind_inv in E as (w1 & [digests|e] & E1 & E); [|by apply ret_inv in E as [_ [=]]].
  apply try_inv in E1. cbn [inv_ListHostReports Fake_inventory] in E.
  set (flt := {| f_ChangedSince := since; f_Digest := false |}) in *. destruct (fake_failure f) as [e|] eqn:Ef.
  { unfold fake_ListHostReports in E. rewrite Ef in E. apply bind_inv in E as (w2 & [ps pe] & E2 & E). cbn in E2.
    apply ret_inv in E2 as [_ [= -> ->]]. by apply ret_inv in E as [_ [=]]. }
  destruct (fake_pages f (hss_TenantID s) flt Ef) as [Hp He]. destruct (fake_ListHostReports _ _ _) as [pages err]. cbn in Hp, He. subst err.
  apply bind_inv in E as (w2 & [ps pe] & E2 & E). apply ret_inv in E as [-> [= -> -> Hpe]]. destruct pe; [done|].
  rewrite Hp in E2. apply poll_reports_run in E2 as (outs & Hh & Hl & Hw). exists digests, w1, outs. by split_and!.
Qed.

(** C13: a poll that lists a tenant's reports from [since] handles every report
    changed after it, in the order of the change times, and loses none: the
    watermark it returns is the change time of a report handled before the
    first failure (or none), every report handled before the first failure is
    at most that old, and a report that failed is listed again by a poll from
    the stored watermark, unless its change time is the watermark itself. *)
Theorem poll_loses_none f cfg s since ru w w' ru' wm :
  poll json_profile sha256_hex (Fake_inventory f) cfg s since ru w = (w', Ok (ru', wm, None)) →
  ∃ digests w1 outs, deviceDigests (hss_TenantID s) w = (w1, Ok digests) ∧
    let listed t := fake_list f (hss_TenantID s) {| f_ChangedSince := t; f_Digest := false |} in
    handled json_profile sha256_hex cfg s digests ru w1 (listed since) outs ru' w' ∧ length outs = length (listed since) ∧
    (∀ h rep, default ∅ (fk_reports f !! hss_TenantID s) !! h = Some rep → changed_after since rep = true → rep ∈ listed since) ∧
    (wm = time_zero ∨ ∃ rep, rep ∈ before_failed (zip (listed since) outs) ∧ wm = ir_ChangedAt rep) ∧
    (∀ rep, rep ∈ before_failed (zip (listed since) outs) → ir_ChangedAt rep ≤ wm) ∧
    (∀ rep, (rep, outcomeFailed) ∈ zip (listed since) outs →
       (wm = time_zero ∨ wm ≤ ir_ChangedAt rep) ∧ (wm ≠ ir_ChangedAt rep → rep ∈ listed (next_since since wm))).
Proof.
  intros E. destruct (fake_poll_inv _ _ _ _ _ _ _ _ _ E) as (digests & w1 & outs & E1 & Hh & Hl & Hw).
  exists digests, w1, outs. cbv zeta in *. split; [done|]. set (l := fake_list _ _ _) in *. split_and!; try done.
  - intros h rep Hh' Hc. apply elem_of_fake_list. eauto.
  - rewrite Hw. apply latest_case.
  - intros rep Hin. rewrite Hw. by apply latest_ge.
  - intros rep Hbad. assert (Hle : wm = time_zero ∨ wm ≤ ir_ChangedAt rep).
    { rewrite Hw. destruct (latest_case time_zero (before_failed (zip l outs))) as [->|(x & Hx & ->)]; [by left|right].
      eapply before_failed_older; [apply fake_list_sorted|exact Hl|exact Hx|exact Hbad]. }
    split; [done|]. intros Hne. assert (Hin : rep ∈ l) by (by apply elem_of_zip_l in Hbad). unfold l in Hin.
    rewrite elem_of_fake_list in Hin |- *. destruct Hin as [Hc Hst]. split; [|done]. unfold next_since, timePtr.
    destruct (IsZero wm) eqn:Ez; cbn; [done|]. unfold changed_after. rewrite Ez. cbn. apply Z.ltb_lt.
    destruct Hle as [->|Hle]; [by vm_compute in Ez|lia].
Qed.
End theorems.
