(* ===== verification/HostAdmin.v ===== *)
(** * internal/hostsync/admin.go: the administrator surface of the host sync

    Settings, status, re-sync and conflict clearing for the caller's tenant.
    A re-sync asks the host's agent for a fresh report and waits for it: what
    the wait sees, in order, is an argument ([refresh_event]), and it returns
    at the latest when the deadline is seen ([freshReport_returns]). *)

From S2P Require Import Prelude GoNet Models Store Hostreport HostNorm MemNet MemDev MemScan HostTx AuditLog Events Authz HostPlan HostSync.

Definition MinFullInterval : Z := 15.
Definition MaxFullInterval : Z := 1440.
Definition RefreshFresh : string := "fresh".
Definition RefreshPending : string := "pending".
Definition RefreshOffline : string := "agent_offline".
Definition RefreshUnavailable : string := "unavailable".

Record SettingsInput : Type := { si_Enabled : bool; si_FullIntervalMinutes : Z; si_ExcludedInterfaces : list string }.

Record AdminStatus : Type := {
  as_Enabled : bool; as_State : string; as_LastError : string; as_LastPollAt : option Time; as_LastReconcileAt : option Time;
  as_NextReconcileAt : option Time; as_HostsReported : Z; as_HostsFailed : Z; as_DevicesNotReported : Z; as_AddressesInConflict : Z }.

Record DeviceHostSync : Type := {
  dh_Source : string; dhs_InventoryHostID : string; dhs_ReportState : string; dhs_SnapshotID : string; dhs_CollectedAt : option Time;
  dhs_AppliedAt : option Time; dhs_Trigger : string; dhs_Changes : Z; dhs_Issues : list HostSyncIssue }.

Record ResyncResult : Type := {
  rr_Applied : bool; rr_Changes : Z; rr_Issues : list HostSyncIssue; rr_Refresh : string; rr_CollectedAt : Time }.

(** ** Waiting for a fresh report *)

(** The request was cancelled, the deadline passed, or a tick with what the
    inventory then answers. *)
Inductive refresh_event : Type := RDone | RDeadline | RTick (answer : result error inv_Report).

(** [None]: still waiting after the events. *)
Fixpoint wait_report (cur : inv_Report) (events : list refresh_event) : option (result error (inv_Report * string)) :=
  match events with
  | [] => None
  | RDone :: _ => Some (Err Ctx_Canceled)
  | RDeadline :: _ => Some (Ok (cur, RefreshPending))
  | RTick (Ok next) :: events' =>
      if ir_CollectedAt cur <? ir_CollectedAt next then Some (Ok (next, RefreshFresh)) else wait_report cur events'
  | RTick (Err _) :: events' => wait_report cur events'
  end.

Definition freshReport (delivered : result error bool) (cur : inv_Report) (events : list refresh_event) : option (result error (inv_Report * string)) :=
  match delivered with
  | Err _ => Some (Ok (cur, RefreshUnavailable))
  | Ok false => Some (Ok (cur, RefreshOffline))
  | Ok true => wait_report cur events
  end.

Section admin.
Context `{Env} (json_profile : HardwareProfile → string) (sha256_hex : string → string) (cfg : Config) (inv : Inventory) (globalEnabled : bool).

Definition userRow (subj : Subjects) (et : EventType) (kind id : string) (detail : list (string * any)) (at_ : Time) : M AuditRow :=
  r ← Row {| e_TenantID := su_TenantID subj; e_EventType := et; e_ActorKind := AuditLog.ActorUser; e_ActorID := ActorID subj;
             e_SubjectKind := kind; e_SubjectID := id; e_Target := ""; e_Outcome := OutcomeOK; e_Reason := ""; e_Details := detail |} at_;
  mret match r with Ok row => row | Err _ => zero_AuditRow end.

Definition Settings (subj : Subjects) : M HostSyncSettings :=
  lift (RequireTenant subj (su_TenantID subj));; EnsureHostSyncSettings (su_TenantID subj).

Definition toAny (s : list string) : list any := AnyString <$> s.

Definition change (name : string) (before after : any) : string * any := (name, AnyMap [("before", before); ("after", after)]).

Definition settings_changes (cur : HostSyncSettings) (in_ : SettingsInput) : list (string * any) :=
  (if Bool.eqb (hss_Enabled cur) (si_Enabled in_) then [] else [change "enabled" (AnyBool (hss_Enabled cur)) (AnyBool (si_Enabled in_))]) ++
  (if hss_FullIntervalMinutes cur =? si_FullIntervalMinutes in_ then []
   else [change "full_interval_minutes" (AnyInt (hss_FullIntervalMinutes cur)) (AnyInt (si_FullIntervalMinutes in_))]) ++
  (if bool_decide (hss_ExcludedInterfaces cur = si_ExcludedInterfaces in_) then []
   else [change "excluded_interfaces" (AnyList (toAny (hss_ExcludedInterfaces cur))) (AnyList (toAny (si_ExcludedInterfaces in_)))]).

Definition UpdateSettings (subj : Subjects) (in_ : SettingsInput) : M HostSyncSettings :=
  lift (RequireTenant subj (su_TenantID subj));;
  if (si_FullIntervalMinutes in_ <? MinFullInterval) || (MaxFullInterval <? si_FullIntervalMinutes in_)
  then throw (Hostsync_ErrValidation "full_interval_minutes")
  else if negb (ValidatePatterns (si_ExcludedInterfaces in_)) then throw (Hostsync_ErrValidation "excluded_interfaces")
  else
    cur ← EnsureHostSyncSettings (su_TenantID subj);
    let next := {| cur with hss_Enabled := si_Enabled in_; hss_FullIntervalMinutes := si_FullIntervalMinutes in_;
                   hss_ExcludedInterfaces := si_ExcludedInterfaces in_; hss_UpdatedBy := ActorID subj |} in
    t ← now;
    row ← userRow subj HostSyncSettingsUpdated SubjectHostSync (su_TenantID subj) [("changes", AnyMap (settings_changes cur in_))] t;
    UpdateHostSyncSettings next row;;
    GetHostSyncSettings (su_TenantID subj).

Definition minute : Z := 60 * 1000000000.

Definition AdminStatusOf (subj : Subjects) : M AdminStatus :=
  s ← Settings subj;
  counts ← HostSyncCounts (su_TenantID subj);
  let enabled := hss_Enabled s && globalEnabled in
  let state := if negb enabled then HostSyncDisabled else if is_empty (hss_Status s) then HostSyncOK else hss_Status s in
  mret {| as_Enabled := enabled; as_State := state; as_LastError := hss_LastError s; as_LastPollAt := hss_LastPollAt s;
          as_LastReconcileAt := hss_LastReconcileAt s;
          as_NextReconcileAt := match hss_LastReconcileAt s with
            | Some l => if enabled && negb (hss_ReconcileRequested s) then Some (l + hss_FullIntervalMinutes s * minute) else None
            | None => None
            end;
          as_HostsReported := hss_HostsReported s; as_HostsFailed := hss_HostsFailed s;
          as_DevicesNotReported := fst counts; as_AddressesInConflict := snd counts |}.

Definition ResyncAll (subj : Subjects) : M () :=
  lift (RequireTenant subj (su_TenantID subj));;
  s ← EnsureHostSyncSettings (su_TenantID subj);
  if negb (hss_Enabled s) || negb globalEnabled then throw ErrSyncDisabled
  else
    t ← now;
    row ← userRow subj HostSyncResyncRequested SubjectHostSync "all" [("trigger", AnyString ("resync_all:" +:+ ActorID subj))] t;
    RequestReconcile (su_TenantID subj) row.

Definition hostDevice (subj : Subjects) (deviceID : string) : M Device :=
  lift (RequireTenant subj (su_TenantID subj));; GetDevice (su_TenantID subj) deviceID.

(** [events]: what the wait for a fresh report sees. *)
Definition ResyncDevice (subj : Subjects) (deviceID : string) (events : list refresh_event) : M ResyncResult :=
  d ← hostDevice subj deviceID;
  if is_empty (dv_InventoryHostID d) then throw Hostsync_ErrNotHostReported
  else
    s ← EnsureHostSyncSettings (su_TenantID subj);
    if negb (hss_Enabled s) || negb globalEnabled then throw ErrSyncDisabled
    else
      rep ← lift (inv_GetHostReport inv (su_TenantID subj) (dv_InventoryHostID d));
      fr ← lift (default (Err LoopFuel) (freshReport (inv_RefreshHost inv (su_TenantID subj) (dv_InventoryHostID d)) rep events));
      let '(rep, refresh) := fr in
      let trigger := String.substring 0 80 ("resync:" +:+ ActorID subj) in
      t ← now;
      row ← userRow subj HostSyncResyncRequested SubjectHostSync deviceID
              [("trigger", AnyString trigger); ("inventory_host_id", AnyString (dv_InventoryHostID d)); ("refresh", AnyString refresh)] t;
      AppendAudit row;;
      runID ← newID;
      res ← Apply json_profile sha256_hex cfg s rep trigger runID;
      mret {| rr_Applied := rs_Applied res; rr_Changes := rs_Changes res; rr_Issues := rs_Issues res; rr_Refresh := refresh;
              rr_CollectedAt := ir_CollectedAt rep |}.

Definition DeviceHostSyncOf (subj : Subjects) (deviceID : string) : M DeviceHostSync :=
  d ← hostDevice subj deviceID;
  let out := {| dh_Source := dv_Source d; dhs_InventoryHostID := dv_InventoryHostID d; dhs_ReportState := dv_ReportState d; dhs_SnapshotID := "";
                dhs_CollectedAt := None; dhs_AppliedAt := None; dhs_Trigger := ""; dhs_Changes := 0; dhs_Issues := [] |} in
  r ← try (GetHostSyncDeviceState (su_TenantID subj) deviceID);
  match r with
  | Ok st => mret {| out with dhs_SnapshotID := hsd_SnapshotID st; dhs_CollectedAt := hsd_CollectedAt st; dhs_AppliedAt := hsd_AppliedAt st;
                     dhs_Trigger := hsd_Trigger st; dhs_Changes := hsd_Changes st; dhs_Issues := hsd_Issues st |}
  | Err e => match err_root e with ErrNotFound => mret out | _ => throw e end
  end.

Definition Guests (subj : Subjects) (deviceID : string) : M (list HypervisorGuest) :=
  hostDevice subj deviceID;; ListGuests (su_TenantID subj) deviceID.

Definition ClearConflict (subj : Subjects) (addressID : string) : M IPAddress :=
  lift (RequireTenant subj (su_TenantID subj));;
  t ← now;
  row ← userRow subj AddressConflictCleared SubjectAddress addressID [("by", AnyString "user")] t;
  ClearAddressConflict (su_TenantID subj) addressID row.
End admin.

(** ** The wait *)

(** The wait ends at the latest with the deadline or the cancellation. *)
Lemma freshReport_returns delivered cur events : RDone ∈ events ∨ RDeadline ∈ events → is_Some (freshReport delivered cur events).
Proof.
  intros Hin. destruct delivered as [[]|e]; cbn; [|by eexists|by eexists]. revert Hin.
  induction events as [|[| |[next|e]] events IH]; cbn; intros Hin; [set_solver|by eexists|by eexists| |apply IH; set_solver].
  destruct (_ <? _); [by eexists|apply IH; set_solver].
Qed.

(** A report is called fresh exactly when it is newer than the stored one, and
    anything else falls back to the stored one. *)
Lemma freshReport_newest delivered cur events rep refresh : freshReport delivered cur events = Some (Ok (rep, refresh)) →
  (refresh = RefreshFresh ∧ ir_CollectedAt cur < ir_CollectedAt rep ∧ RTick (Ok rep) ∈ events) ∨ (refresh ≠ RefreshFresh ∧ rep = cur).
Proof.
  destruct delivered as [[]|e]; cbn; [|intros [= <- <-]; by right|intros [= <- <-]; by right].
  induction events as [|[| |[next|e]] events IH]; cbn; intros E; [done|done|injection E as <- <-; by right| |destruct (IH E) as [(?&?&?)|?]; set_solver].
  destruct (ir_CollectedAt cur <? ir_CollectedAt next) eqn:El; [|destruct (IH E) as [(?&?&?)|?]; set_solver].
  injection E as <- <-. left. bool_hyps. split_and!; [done|lia|set_solver].
Qed.
