(* ===== verification/HostNormProps.v ===== *)
(** * A normalized report is well-formed

    [Normalize_wf]: whatever inventory sends, the report the planner gets is
    within every bound, its names, references and addresses are distinct, its
    texts printable, its MACs canonical, its enumerations closed and its issue
    list sorted.  The loops of the normalisation are proved in a small logic
    of postconditions, [post]. *)

From S2P Require Import Prelude GoNet GoIP GoText Placement Models Store Hostreport HostNorm.

(** ** Postconditions *)

(** The issues counted so far are positive. *)
Definition notes_ok (s : notes) : Prop := ∀ k n, nt_issues s !! k = Some n → 0 < n.

Definition post {A} (m : Norm A) (Q : A → Prop) : Prop := ∀ s, notes_ok s → notes_ok (fst (m s)) ∧ Q (snd (m s)).

Lemma post_ret {A} (a : A) (Q : A → Prop) : Q a → post (mret a) Q.
Proof. by intros Ha s Hs. Qed.

Lemma post_bind {A B} (m : Norm A) (k : A → Norm B) (P : A → Prop) (Q : B → Prop) :
  post m P → (∀ a, P a → post (k a) Q) → post (m ≫= k) Q.
Proof.
  intros Hm Hk s Hs. unfold mbind, Norm_bind. destruct (Hm s Hs) as [Hs1 Ha]. destruct (m s) as [s1 a]. by apply Hk.
Qed.

Lemma post_weaken {A} (m : Norm A) (P Q : A → Prop) : post m P → (∀ a, P a → Q a) → post m Q.
Proof. intros Hm HPQ s Hs. destruct (Hm s Hs). auto. Qed.

Lemma issues_add_lookup field reason n (iss : issues) k :
  issues_add field reason n iss !! k = if (0 <? n) && bool_decide (k = (field, reason)) then Some (default 0 (iss !! k) + n) else iss !! k.
Proof.
  unfold issues_add, issues in *. destruct (0 <? n); [|done]. cbn [andb]. destruct (bool_decide _) eqn:E; bool_hyps.
  - apply bool_decide_eq_true in E as ->. apply lookup_insert_eq.
  - apply bool_decide_eq_false in E. by apply lookup_insert_ne.
Qed.

Lemma post_note field reason n : post (note field reason n) (λ _, True).
Proof.
  intros s Hs. split; [|done]. intros k v. cbn [fst note nt_issues]. rewrite issues_add_lookup. destruct (_ && _) eqn:E; [|by apply Hs].
  bool_hyps. intros [= <-]. destruct (nt_issues s !! k) eqn:Ei; cbn; [apply Hs in Ei; lia|lia].
Qed.

Lemma post_then {A B} (m : Norm A) (k : Norm B) (Q : B → Prop) : post m (λ _, True) → post k Q → post (m;; k) Q.
Proof. intros Hm Hk. by eapply post_bind. Qed.

Lemma post_noted {A} field reason n (a : A) (Q : A → Prop) : Q a → post (note field reason n;; mret a) Q.
Proof. intros Ha. apply post_then; [apply post_note|by apply post_ret]. Qed.

(** A loop over [l] with an invariant on the number of elements read. *)
Lemma post_foldN {A S} (f : S → A → Norm S) (I : nat → S → Prop) s l :
  (∀ n s x, x ∈ l → I n s → post (f s x) (I (n + 1)%nat)) → I O s → post (foldN f s l) (I (length l)).
Proof.
  intros Hf. assert (Hg : ∀ n s, I n s → post (foldN f s l) (I (n + length l)%nat)); [|by intros Hs; apply (Hg 0%nat)].
  induction l as [|x l IH]; intros n s0 Hs; cbn [foldN length].
  - apply post_ret. by rewrite Nat.add_0_r.
  - eapply post_bind; [apply Hf; [by left|exact Hs]|]. intros s1 Hs1. replace (n + Datatypes.S (length l))%nat with (n + 1 + length l)%nat by lia.
    apply IH; [|done]. intros. apply Hf; [by right|done].
Qed.

Lemma post_mapN {A B} (f : A → Norm B) (Q : B → Prop) l : (∀ x, post (f x) Q) → post (mapN f l) (λ ys, length ys = length l ∧ Forall Q ys).
Proof.
  intros Hf. induction l as [|x l IH]; cbn [mapN]; [by apply post_ret|].
  eapply post_bind; [apply Hf|]. intros y Hy. eapply post_bind; [apply IH|]. intros ys [Hl Hys]. apply post_ret. cbn. split; [lia|by constructor].
Qed.

Lemma post_bounded {A} field max (l : list A) : 0 ≤ max → post (bounded field max l) (λ r, Z.of_nat (length r) ≤ max).
Proof.
  intros Hm. unfold bounded. apply post_then; [apply post_note|]. apply post_ret. rewrite length_take. lia.
Qed.

(** The results of an interpreter of notes need no precondition. *)
Lemma post_run {A} (m : Norm A) Q : post m Q → Q (snd (m {| nt_issues := ∅; nt_trunc := ∅ |})).
Proof. intros Hm. apply Hm. intros k n E. by destruct (lookup_empty_Some (M := gmap (string * string)) k n E). Qed.

(** Runs through a chain of binds, keeping what each step returns. *)
Ltac post_step H := eapply post_bind; [apply H|cbv beta; intros].

(** ** Specification *)

Section wf.
Context `{Env}.

Definition printable (s : string) : bool :=
  ValidString s && forallb (λ r, match fst r with Some x => IsPrint x | None => false end) (runes s).
Definition clean (max : Z) (s : string) : Prop := printable s = true ∧ Z.of_nat (String.length s) ≤ max.
Definition canonical_mac (m : string) : Prop := m = "" ∨ NormalizeMAC m = Some m.

Definition address_wf (a : Address) : Prop := Addr_IsValid (ra_Addr a) = true ∧ ra_Prefix a ≤ Addr_BitLen (ra_Addr a).

Record interface_wf (i : Interface) : Prop := {
  iw_name : clean MaxIfaceName (ri_Name i) ∧ ri_Name i ≠ "";
  iw_mac : canonical_mac (ri_MAC i);
  iw_kind : ri_Kind i = "" ∨ ri_Kind i ∈ interface_kinds;
  iw_speed : ri_SpeedMbps i ≤ 1000000;
  iw_count : Z.of_nat (length (ri_Addresses i)) ≤ MaxAddrsPerIface;
  iw_distinct : NoDup (ra_Addr <$> ri_Addresses i);
  iw_addresses : Forall address_wf (ri_Addresses i) }.

Definition total_addresses (l : list Interface) : nat := length (concat (ri_Addresses <$> l)).

Record interfaces_wf (l : list Interface) : Prop := {
  isw_count : Z.of_nat (length l) ≤ MaxInterfaces;
  isw_total : Z.of_nat (total_addresses l) ≤ MaxAddrs;
  isw_names : NoDup (ri_Name <$> l);
  isw_each : Forall interface_wf l }.

Record bmc_wf (b : BMC) : Prop := {
  bw_present : Addr_IsValid (bm_Address b) = true ∨ bm_Ports b ≠ [];
  bw_prefix : bm_Prefix b = 0 ∨ (Addr_IsValid (bm_Address b) = true ∧ 1 ≤ bm_Prefix b ≤ Addr_BitLen (bm_Address b));
  bw_count : Z.of_nat (length (bm_Ports b)) ≤ MaxBMCPorts;
  bw_distinct : NoDup (bp_MAC <$> bm_Ports b);
  bw_ports : Forall (λ p, NormalizeMAC (bp_MAC p) = Some (bp_MAC p) ∧ 0 ≤ bp_Channel p ≤ 255) (bm_Ports b) }.

Record guest_wf (g : Guest) : Prop := {
  gw_ref : guestRefRe (g_Ref g) = true;
  gw_kind : g_Kind g ∈ [GuestVM; GuestContainer];
  gw_name : clean MaxGuestName (g_Name g);
  gw_platform : clean 32 (g_Platform g) ∧ g_Platform g ≠ "";
  gw_count : Z.of_nat (length (g_MACs g)) ≤ MaxGuestMACs;
  gw_distinct : NoDup (g_MACs g);
  gw_macs : Forall (λ m, NormalizeMAC m = Some m) (g_MACs g) }.

Record package_wf (p : Package) : Prop := {
  pw_name : clean MaxPackageName (pk_Name p) ∧ pk_Name p ≠ "";
  pw_installed : clean MaxVersion (pk_Installed p);
  pw_available : clean MaxVersion (pk_Available p) }.

(** ** Texts, MACs and enumerations *)

Lemma clean_empty max : 0 ≤ max → clean max "".
Proof. intros Hm. split; [reflexivity|exact Hm]. Qed.

Lemma cleanText_ok s max v reason : cleanText s max = (v, reason) → 0 ≤ max → clean max v.
Proof.
  unfold cleanText. cbv zeta. destruct (ValidString (TrimSpace s)) eqn:Ev; cbn [negb]; [|intros [= <- <-]; apply clean_empty].
  destruct (forallb _ _) eqn:Ep; cbn [negb]; [|intros [= <- <-]; apply clean_empty].
  destruct (max <? _) eqn:El; [intros [= <- <-]; apply clean_empty|]. intros [= <- <-] _. bool_hyps. split; [|lia].
  unfold printable. by rewrite Ev, Ep.
Qed.

Lemma text_post field s max : 0 ≤ max → post (text field s max) (clean max).
Proof.
  intros Hm. unfold text. destruct (cleanText s max) as [v reason] eqn:E. apply post_noted. by eapply cleanText_ok.
Qed.

Lemma mac_post field s : post (mac field s) canonical_mac.
Proof.
  unfold mac. destruct (is_empty _); [apply post_ret; by left|]. destruct (NormalizeMAC s) as [m|] eqn:E.
  - apply post_ret. right. by apply NormalizeMAC_canonical in E as (_ & _ & _ & _ & ?).
  - apply post_noted. by left.
Qed.

Lemma canonical_nonempty m : canonical_mac m → is_empty m = false → NormalizeMAC m = Some m.
Proof. by intros [->|?]. Qed.

Lemma oneOf_elem v set : oneOf v set = true ↔ v ∈ set.
Proof.
  unfold oneOf. rewrite existsb_exists. split.
  - intros (x & Hx & ->%String.eqb_eq). by apply list_elem_of_In.
  - intros Hv%list_elem_of_In. exists v. split; [done|apply String.eqb_refl].
Qed.

Lemma closed_post field v def set : post (closed field v def set) (λ r, r ∈ def :: set).
Proof.
  unfold closed. destruct (oneOf v set) eqn:E; [apply post_ret; right; by apply oneOf_elem|apply post_noted; by left].
Qed.

(** ** Appending distinct entries *)

Lemma existsb_key {X} (key : X → string) l k : existsb (λ x, key x =s k) l = false → k ∉ key <$> l.
Proof.
  intros E (x & -> & Hx)%list_elem_of_fmap. apply not_true_iff_false in E. apply E, existsb_exists. exists x.
  split; [by apply list_elem_of_In|apply String.eqb_refl].
Qed.

Lemma NoDup_snoc {X K} (key : X → K) l x : NoDup (key <$> l) → key x ∉ key <$> l → NoDup (key <$> (l ++ [x])).
Proof. intros Hnd Hx. rewrite fmap_app. apply NoDup_app. split_and!; [done| |apply NoDup_singleton]. intros y Hy ->%list_elem_of_singleton. done. Qed.

Lemma Forall_snoc {X} (P : X → Prop) l x : Forall P l → P x → Forall P (l ++ [x]).
Proof. intros Hl Hx. apply Forall_app. split; [done|by constructor]. Qed.

(** ** Interfaces *)

Lemma parseAddr_valid s a : parseAddr s = Some a → Addr_IsValid a = true.
Proof. unfold parseAddr. intros (b & E & ->)%fmap_Some. apply ParseAddr_wf in E as [_ Hv]. by destruct b. Qed.

Lemma read_address_post out a : Forall address_wf out → post (read_address out a) (Forall address_wf).
Proof.
  intros Ho. unfold read_address. destruct (parseAddr (ia_Address a)) as [addr|] eqn:E; [|by apply post_noted].
  destruct (_ <? _) eqn:El; [by apply post_noted|]. bool_hyps. apply post_ret, Forall_snoc; [done|]. split; cbn; [by eapply parseAddr_valid|lia].
Qed.

Lemma read_cidr_post out c : Forall address_wf out → post (read_cidr out c) (Forall address_wf).
Proof.
  intros Ho. unfold read_cidr. destruct (ParsePrefix (TrimSpace c)) as [p|] eqn:E; [|by apply post_noted].
  apply post_ret, Forall_snoc; [done|]. apply ParsePrefix_bits in E as Hb. unfold ParsePrefix in E. repeat inv_step E. injection E as <-.
  match goal with H : ParseAddr _ = Some ?a |- _ => apply ParseAddr_wf in H as [_ Hv]; split; cbn in *; destruct a; cbn in *; done || lia end.
Qed.

Definition kept_addresses (total0 : Z) (st : list Address * Z) : Prop :=
  Forall address_wf (fst st) ∧ NoDup (ra_Addr <$> fst st) ∧ Z.of_nat (length (fst st)) ≤ MaxAddrsPerIface ∧
  snd st = total0 + Z.of_nat (length (fst st)) ∧ snd st ≤ Z.max total0 MaxAddrs.

Lemma keep_address_post total0 st a : address_wf a → kept_addresses total0 st → post (keep_address st a) (kept_addresses total0).
Proof.
  intros Ha (Hw & Hnd & Hl & Ht & Hm). destruct st as [out total]. cbn [fst snd] in *. unfold keep_address.
  destruct (existsb _ out) eqn:E; [by apply post_ret|]. destruct (_ || _) eqn:Eb; [by apply post_noted|].
  apply orb_false_iff in Eb as [E1 E2]. bool_hyps. apply post_ret. unfold kept_addresses. cbn [fst snd].
  split_and!; [by apply Forall_snoc|apply NoDup_snoc; [done|]|rewrite length_app; cbn; lia|rewrite length_app; cbn; lia|lia].
  intros (b & Eb & Hb)%list_elem_of_fmap. apply not_true_iff_false in E. apply E, existsb_exists. exists b.
  split; [by apply list_elem_of_In|]. by apply bool_decide_eq_true.
Qed.

Lemma normalizeAddresses_post raw total : post (normalizeAddresses raw total) (kept_addresses total).
Proof.
  unfold normalizeAddresses. eapply post_bind with (P := Forall address_wf).
  - destruct (0 <? _)%nat; apply (post_foldN _ (λ _, Forall address_wf)); auto using read_address_post, read_cidr_post.
  - intros cands Hc. apply (post_foldN _ (λ _, kept_addresses total)).
    + intros n st a Ha. apply keep_address_post. by rewrite Forall_forall in Hc; apply Hc.
    + unfold kept_addresses, MaxAddrsPerIface. cbn. split_and!; [constructor|constructor|lia|lia|lia].
Qed.

Definition read_interfaces (n : nat) (st : list Interface * Z) : Prop :=
  (length (fst st) ≤ n)%nat ∧ snd st = Z.of_nat (total_addresses (fst st)) ∧ snd st ≤ MaxAddrs ∧ NoDup (ri_Name <$> fst st) ∧
  Forall interface_wf (fst st).

Lemma read_interfaces_S n st : read_interfaces n st → read_interfaces (n + 1) st.
Proof. intros (? & ?). split; [lia|done]. Qed.

Lemma read_interface_post n st raw : read_interfaces n st → post (read_interface st raw) (read_interfaces (n + 1)).
Proof.
  intros Hst. apply read_interfaces_S in Hst as Hskip. destruct st as [out total]. unfold read_interface.
  destruct (cleanText (ii_Name raw) MaxIfaceName) as [name reason] eqn:Ec. apply cleanText_ok in Ec as Hclean; [|unfold MaxIfaceName; lia].
  cbv zeta. set (why := if is_empty reason && _ then _ else reason). destruct (is_empty why) eqn:Er; cbn [negb]; [|by apply post_noted].
  destruct (existsb _ out) eqn:Ed; [by apply post_noted|].
  assert (Hne : name ≠ ""). { intros ->. unfold why in Er. destruct (is_empty reason) eqn:Ee; cbn in Er; [done|by rewrite Ee in Er]. }
  post_step mac_post. post_step closed_post.
  eapply post_bind with (P := λ sp, sp ≤ 1000000).
  { destruct (_ <? _) eqn:Es; [apply post_noted; lia|]. bool_hyps. apply post_ret. apply Z.div_le_upper_bound; [lia|]. unfold MaxSpeedBps in *. lia. }
  intros sp Hsp. post_step normalizeAddresses_post. apply post_ret. destruct Hst as (Hl & Ht & Hm & Hnd & Hall). cbn [fst snd] in *.
  destruct H2 as (Hw & Hnd2 & Hc & Htot & Hmax). unfold read_interfaces. cbn [fst snd]. split_and!.
  - rewrite length_app. cbn. lia.
  - rewrite Htot, Ht. unfold total_addresses. rewrite fmap_app, concat_app, length_app. cbn. rewrite app_nil_r. lia.
  - lia.
  - apply NoDup_snoc; [done|]. by apply existsb_key.
  - apply Forall_snoc; [done|]. split; cbn; try done.
    destruct (is_empty (ii_Type raw)); [destruct (name =s "lo"); [right; unfold interface_kinds; set_solver|by left]|].
    right. apply elem_of_cons in H1 as [->|?]; [unfold interface_kinds; set_solver|done].
Qed.

Lemma normalizeInterfaces_post l : post (normalizeInterfaces l) interfaces_wf.
Proof.
  unfold normalizeInterfaces. eapply post_bind; [apply (post_bounded _ MaxInterfaces); unfold MaxInterfaces; lia|]. intros l' Hl'. cbv beta in Hl'.
  eapply post_bind; [apply (post_foldN _ read_interfaces)|].
  - intros n st raw _. apply read_interface_post.
  - unfold read_interfaces, MaxAddrs. cbn. split_and!; [lia|done|lia|constructor|constructor].
  - intros st (Hl & Ht & Hm & Hnd & Hall). apply post_ret. split; [lia|lia|done|done].
Qed.

(** ** BMC, guests and packages *)

Definition read_ports (n : nat) (out : list BMCPort) : Prop :=
  (length out ≤ n)%nat ∧ NoDup (bp_MAC <$> out) ∧ Forall (λ p, NormalizeMAC (bp_MAC p) = Some (bp_MAC p) ∧ 0 ≤ bp_Channel p ≤ 255) out.

Lemma read_port_post n out p : read_ports n out → post (read_port out p) (read_ports (n + 1)).
Proof.
  intros (Hl & Hnd & Hall). unfold read_port. eapply post_bind; [apply mac_post|]. intros m Hm.
  destruct (_ || _) eqn:E; [apply post_ret; split_and!; [lia|done|done]|]. apply orb_false_iff in E as [E1 E2]. apply post_ret. split_and!.
  - rewrite length_app. cbn. lia.
  - apply NoDup_snoc; [done|]. by apply existsb_key.
  - apply Forall_snoc; [done|]. cbn. split; [by apply canonical_nonempty|]. 
    assert (E : Z.land (ip_Channel p) 255 = ip_Channel p mod 2 ^ 8) by (apply (Z.land_ones (ip_Channel p) 8); lia). rewrite E.
    pose proof (Z.mod_pos_bound (ip_Channel p) (2 ^ 8) ltac:(lia)). lia.
Qed.

Lemma normalizeBMC_post b : post (normalizeBMC b) (λ r, ∀ x, r = Some x → bmc_wf x).
Proof.
  destruct b as [b|]; cbn [normalizeBMC]; [|by apply post_ret].
  eapply post_bind with (P := λ _, True); [destruct (is_empty _); [by apply post_ret|]; destruct (parseAddr _); [by apply post_ret|by apply post_noted]|].
  intros addr _. eapply post_bind with (P := λ px, px = 0 ∨ (Addr_IsValid addr = true ∧ 1 ≤ px ≤ Addr_BitLen addr)).
  { destruct (_ && _ && _) eqn:E; [|apply post_noted; by left]. bool_hyps. apply post_ret. right. split; [done|lia]. }
  intros px Hpx. cbv zeta. eapply post_bind; [apply (post_bounded _ MaxBMCPorts); unfold MaxBMCPorts; lia|]. intros ports Hp. cbv beta in Hp.
  eapply post_bind; [apply (post_foldN _ read_ports)|].
  - intros n out p _. apply read_port_post.
  - split_and!; [cbn; lia|constructor|constructor].
  - intros out (Hl & Hnd & Hall). destruct (_ && _) eqn:E; [by apply post_ret|]. apply post_ret. intros x [= <-]. split; cbn; try done; [|lia].
    apply andb_false_iff in E as [E|E]; [left; by apply negb_false_iff in E|right]. by intros ->.
Qed.

Definition read_macs (n : nat) (out : list string) : Prop := (length out ≤ n)%nat ∧ NoDup out ∧ Forall (λ m, NormalizeMAC m = Some m) out.

Lemma read_mac_post n out m : read_macs n out → post (read_mac out m) (read_macs (n + 1)).
Proof.
  intros (Hl & Hnd & Hall). unfold read_mac. eapply post_bind; [apply mac_post|]. intros m' Hm.
  destruct (_ && _) eqn:E; [|apply post_ret; split_and!; [lia|done|done]]. apply andb_true_iff in E as [E1%negb_true_iff E2%negb_true_iff].
  apply post_ret. split_and!; [rewrite length_app; cbn; lia| |apply Forall_snoc; [done|by apply canonical_nonempty]].
  apply NoDup_app. split_and!; [done| |apply NoDup_singleton]. intros x Hx ->%list_elem_of_singleton.
  apply not_true_iff_false in E2. apply E2, existsb_exists. exists m'. split; [by apply list_elem_of_In|apply String.eqb_refl].
Qed.

Definition read_guests (n : nat) (out : list Guest) : Prop := (length out ≤ n)%nat ∧ NoDup (g_Ref <$> out) ∧ Forall guest_wf out.

Lemma read_guest_post n out g : read_guests n out → post (read_guest out g) (read_guests (n + 1)).
Proof.
  intros (Hl & Hnd & Hall). assert (Hskip : read_guests (n + 1) out) by (split; [lia|done]). unfold read_guest. cbv zeta.
  destruct (guestRefRe _) eqn:Er; cbn [negb]; [|by apply post_noted]. destruct (existsb _ out) eqn:Ed; [by apply post_noted|].
  destruct (oneOf _ _) eqn:Ek; cbn [negb]; [|by apply post_noted].
  eapply post_bind; [apply text_post; unfold MaxGuestName; lia|]. intros name Hname.
  eapply post_bind; [apply text_post; lia|]. intros platform Hplat.
  eapply post_bind; [apply (post_bounded _ MaxGuestMACs); unfold MaxGuestMACs; lia|]. intros macs Hmacs. cbv beta in Hmacs.
  eapply post_bind; [apply (post_foldN _ read_macs)|].
  - intros k ms m _. apply read_mac_post.
  - split_and!; [cbn; lia|constructor|constructor].
  - intros ms (Hml & Hmnd & Hms). apply post_ret. split_and!; [rewrite length_app; cbn; lia|apply NoDup_snoc; [done|by apply existsb_key]|].
    apply Forall_snoc; [done|]. split; cbn; try done; [by apply oneOf_elem| |lia]. unfold default_str. destruct platform; [split; [split; [reflexivity|cbn; lia]|done]|done].
Qed.

Lemma normalizeGuests_post l : post (normalizeGuests l) (λ out, Z.of_nat (length out) ≤ MaxGuests ∧ NoDup (g_Ref <$> out) ∧ Forall guest_wf out).
Proof.
  unfold normalizeGuests. eapply post_bind; [apply (post_bounded _ MaxGuests); unfold MaxGuests; lia|]. intros l' Hl'. cbv beta in Hl'.
  eapply post_weaken; [apply (post_foldN _ read_guests)|].
  - intros n out g _. apply read_guest_post.
  - split_and!; [cbn; lia|constructor|constructor].
  - intros out (Hl & Hnd & Hall). split_and!; [lia|done|done].
Qed.

Definition read_packages (n : nat) (out : list Package) : Prop := (length out ≤ n)%nat ∧ NoDup (pk_Name <$> out) ∧ Forall package_wf out.

Lemma read_package_post n out p : read_packages n out → post (read_package out p) (read_packages (n + 1)).
Proof.
  intros (Hl & Hnd & Hall). assert (Hskip : read_packages (n + 1) out) by (split; [lia|done]). unfold read_package.
  destruct (cleanText (ipu_Name p) MaxPackageName) as [name r1] eqn:E1. destruct (cleanText (ipu_InstalledVersion p) MaxVersion) as [inst r2] eqn:E2.
  destruct (cleanText (ipu_AvailableVersion p) MaxVersion) as [avail r3] eqn:E3.
  apply cleanText_ok in E1; [|unfold MaxPackageName; lia]. apply cleanText_ok in E2; [|unfold MaxVersion; lia]. apply cleanText_ok in E3; [|unfold MaxVersion; lia].
  destruct (_ || is_empty name) eqn:En; [by apply post_noted|]. apply orb_false_iff in En as [_ En]. destruct (_ || _); [by apply post_noted|].
  destruct (existsb _ out) eqn:Ed; [by apply post_noted|]. apply post_ret.
  split_and!; [rewrite length_app; cbn; lia|apply NoDup_snoc; [done|by apply existsb_key]|]. apply Forall_snoc; [done|]. split; cbn; try done.
  split; [done|]. by intros ->.
Qed.

Lemma normalizePackages_post l : post (normalizePackages l) (λ out, Z.of_nat (length out) ≤ MaxPackages ∧ NoDup (pk_Name <$> out) ∧ Forall package_wf out).
Proof.
  unfold normalizePackages. eapply post_bind; [apply (post_bounded _ MaxPackages); unfold MaxPackages; lia|]. intros l' Hl'. cbv beta in Hl'.
  eapply post_weaken; [apply (post_foldN _ read_packages)|].
  - intros n out g _. apply read_package_post.
  - split_and!; [cbn; lia|constructor|constructor].
  - intros out (Hl & Hnd & Hall). split_and!; [lia|done|done].
Qed.

(** ** Hardware *)

Lemma strip_bytes_length p s s' : strip_bytes p s = Some s' → (length s' ≤ length s)%nat.
Proof.
  revert s. induction p as [|b p IH]; intros s; cbn [strip_bytes]; [by intros [= <-]|]. destruct s as [|c s]; [done|].
  destruct (_ =? _); [|done]. intros E%IH. cbn. lia.
Qed.
Lemma strip_any_length ps s s' : strip_any ps s = Some s' → (length s' ≤ length s)%nat.
Proof.
  induction ps as [|p ps IH]; cbn [strip_any]; [done|]. destruct (strip_bytes p s) eqn:E; [|done]. intros [= <-]. by eapply strip_bytes_length.
Qed.
Lemma trim_front_length fuel ps s : (length (trim_front fuel ps s) ≤ length s)%nat.
Proof.
  revert s. induction fuel as [|f IH]; intros s; cbn [trim_front]; [done|]. destruct (strip_any ps s) as [s'|] eqn:E; [|done].
  apply strip_any_length in E. specialize (IH s'). lia.
Qed.
Lemma length_list_ascii s : length (String.list_ascii_of_string s) = String.length s.
Proof. induction s as [|c s IH]; cbn; [done|by rewrite IH]. Qed.
Lemma length_of_list_ascii l : String.length (String.string_of_list_ascii l) = length l.
Proof. induction l as [|c l IH]; cbn; [done|by rewrite IH]. Qed.

Lemma TrimSpace_length s : (String.length (TrimSpace s) ≤ String.length s)%nat.
Proof.
  unfold TrimSpace. rewrite length_of_list_ascii, length_rev.
  etrans; [apply trim_front_length|]. rewrite length_rev. etrans; [apply trim_front_length|]. by rewrite length_list_ascii.
Qed.

Lemma rune_cut_le n l : (rune_cut n l ≤ n)%nat.
Proof. induction n as [|n IH]; cbn [rune_cut]; [done|]. destruct (l !! S n); [|done]. destruct (RuneStart _); [done|lia]. Qed.

Definition hw_str (s : string) : Prop := Z.of_nat (String.length s) ≤ MaxHWString.

Lemma cleanHW_bound s : hw_str (cleanHW s).
Proof.
  unfold cleanHW, hw_str. cbv zeta. destruct (_ <=? _) eqn:E; bool_hyps; [lia|].
  match goal with |- Z.of_nat (String.length (TrimSpace ?x)) ≤ _ => pose proof (TrimSpace_length x) as Hle end.
  rewrite length_of_list_ascii, length_take in Hle. pose proof (rune_cut_le (Z.to_nat MaxHWString) (String.list_ascii_of_string (TrimSpace (keep_runes control_rune s)))).
  unfold MaxHWString in *. lia.
Qed.

Lemma hw_text_post s : post (hw_text s) hw_str.
Proof. unfold hw_text. cbv zeta. apply post_noted, cleanHW_bound. Qed.

Lemma hw_closed_post field v bad empty set : post (hw_closed field v bad empty set) (λ r, r ∈ bad :: empty :: set).
Proof.
  unfold hw_closed. cbv zeta. destruct (is_empty _); [apply post_ret; set_solver|]. destruct (oneOf _ _) eqn:E; [|apply post_noted; set_solver].
  apply post_ret. apply oneOf_elem in E. set_solver.
Qed.

Lemma post_set_truncations f : post (set_truncations f) (λ _, True).
Proof. by intros s Hs. Qed.

Lemma hw_bound_post list_ n max reported : 0 ≤ max → post (hw_bound list_ n max reported) (λ k, Z.of_nat k ≤ max).
Proof.
  intros Hm. unfold hw_bound. cbv zeta. destruct (0 <? _); [|apply post_ret; lia].
  apply post_then; [apply post_set_truncations|]. apply post_noted. lia.
Qed.

Lemma hw_list_post l max field : 0 ≤ max → post (hw_list l max field) (λ r, Z.of_nat (length r) ≤ max ∧ Forall hw_str r).
Proof.
  intros Hm. unfold hw_list. eapply post_bind; [apply (post_foldN _ (λ _ st, Z.of_nat (length (fst st)) ≤ max ∧ Forall hw_str (fst st)))|].
  - intros n [out dropped] x _ [Hl Hs]. unfold hw_list_step. eapply post_bind; [apply hw_text_post|]. intros v Hv. apply post_ret.
    destruct (is_empty v); [done|]. destruct (_ =? _) eqn:E; [done|]. bool_hyps. cbn [fst] in *. split; [rewrite length_app; cbn; lia|by apply Forall_snoc].
  - cbn. split; [lia|constructor].
  - intros st Hst. apply post_then; [destruct (is_empty field); [by apply post_ret|apply post_note]|by apply post_ret].
Qed.

Record slot_wf (s : HardwareMemorySlot) : Prop := {
  slw_texts : Forall hw_str [hms_Locator s; hms_Bank s; hms_Type s; hms_FormFactor s; hms_Manufacturer s; hms_PartNumber s; hms_Serial s];
  slw_detail : Z.of_nat (length (hms_TypeDetail s)) ≤ MaxHWTypeDetail ∧ Forall hw_str (hms_TypeDetail s);
  slw_size : hms_SizeBytes s ≤ MaxInt64 }.
Record disk_wf (d : HardwareDisk) : Prop := {
  dw_texts : Forall hw_str [hd_Name d; hd_Model d; hd_Vendor d; hd_Serial d];
  dw_media : hd_Media d ∈ mediaSet; dw_interface : hd_Interface d ∈ ifaceSet; dw_size : hd_SizeBytes d ≤ MaxInt64 }.
Record filesystem_wf (f : HardwareFilesystem) : Prop := {
  fw_texts : Forall hw_str [hf_Mount f; hf_FS f];
  fw_disks : Z.of_nat (length (hf_Disks f)) ≤ MaxHWFSDisks ∧ Forall hw_str (hf_Disks f);
  fw_sizes : hf_SizeBytes f ≤ MaxInt64 ∧ hf_FreeBytes f ≤ MaxInt64 }.
Definition processor_wf (c : HardwareProcessor) : Prop := Forall hw_str [hpr_Socket c; hpr_Manufacturer c; hpr_Model c; hpr_Family c].

Lemma clampI64_le v : clampI64 v ≤ MaxInt64.
Proof. unfold clampI64. destruct (_ <? _) eqn:E; bool_hyps; lia. Qed.

Ltac hw_texts := repeat (eapply post_bind; [apply hw_text_post|intros ? ?]).

Lemma hw_processor_post c : post (hw_processor c) processor_wf.
Proof. unfold hw_processor. hw_texts. apply post_ret. unfold processor_wf. cbn. repeat constructor; done. Qed.

Lemma hw_slot_post c : post (hw_slot c) slot_wf.
Proof.
  unfold hw_slot. hw_texts. eapply post_bind; [apply hw_list_post; unfold MaxHWTypeDetail; lia|]. intros detail Hd. hw_texts.
  apply post_ret. split; cbn; [repeat constructor; done|exact Hd|apply clampI64_le].
Qed.

Lemma hw_disk_post d : post (hw_disk d) disk_wf.
Proof.
  unfold hw_disk. hw_texts. eapply post_bind; [apply hw_closed_post|]. intros media Hm. eapply post_bind; [apply hw_closed_post|]. intros iface Hi.
  apply post_ret. split; cbn; [repeat constructor; done| | |apply clampI64_le]; [unfold MediaUnknown, mediaSet in *|unfold IfOther, ifaceSet in *]; set_solver.
Qed.

Lemma hw_filesystem_post f : post (hw_filesystem f) filesystem_wf.
Proof.
  unfold hw_filesystem. hw_texts. eapply post_bind; [apply hw_list_post; unfold MaxHWFSDisks; lia|]. intros disks Hd.
  apply post_ret. split; cbn; [repeat constructor; done|exact Hd|split; apply clampI64_le].
Qed.

Record memory_wf (m : HardwareMemory) : Prop := {
  mw_texts : Forall hw_str [hmm_ErrorCorrection m; hmm_Location m; hmm_Use m];
  mw_sizes : hmm_TotalBytes m ≤ MaxInt64 ∧ hmm_MaxCapacityBytes m ≤ MaxInt64;
  mw_slots : Z.of_nat (length (hmm_Slots m)) ≤ MaxHWSlots ∧ Forall slot_wf (hmm_Slots m) }.

Lemma post_list {X Y} (f : X → Norm Y) (Q : Y → Prop) k l max :
  (∀ x, post (f x) Q) → Z.of_nat k ≤ max → post (mapN f (take k l)) (λ ys, Z.of_nat (length ys) ≤ max ∧ Forall Q ys).
Proof. intros Hf Hk. eapply post_weaken; [by apply post_mapN|]. intros ys [Hl Hys]. rewrite length_take in Hl. split; [lia|done]. Qed.

Lemma hw_memory_post m lim : post (hw_memory m lim) memory_wf.
Proof.
  unfold hw_memory. eapply post_bind; [apply hw_bound_post; lia|]. intros _ _. hw_texts.
  eapply post_bind; [apply hw_bound_post; unfold MaxHWSlots; lia|]. intros k Hk. cbv beta in Hk.
  eapply post_bind; [by apply (post_list _ slot_wf _ _ MaxHWSlots hw_slot_post)|]. intros slots Hs. cbv zeta. apply post_ret.
  split; cbn; [repeat constructor; done|split; apply clampI64_le|exact Hs].
Qed.

Section report.
Context (json_profile : HardwareProfile → string) (sha256_hex : string → string).

Record hardware_wf (h : Hardware) : Prop := {
  hrw_schema : hp_Schema (hw_Profile h) = hardwareSchema;
  hrw_processors : Z.of_nat (length (hp_Processors (hw_Profile h))) ≤ MaxHWProcessors ∧ Forall processor_wf (hp_Processors (hw_Profile h));
  hrw_memory : memory_wf (hp_Memory (hw_Profile h));
  hrw_disks : Z.of_nat (length (hp_Disks (hw_Profile h))) ≤ MaxHWDisks ∧ Forall disk_wf (hp_Disks (hw_Profile h));
  hrw_filesystems : Z.of_nat (length (hp_Filesystems (hw_Profile h))) ≤ MaxHWFilesystems ∧ Forall filesystem_wf (hp_Filesystems (hw_Profile h));
  hrw_size : Z.of_nat (String.length (json_profile (hw_Profile h))) ≤ MaxHWProfileBytes;
  hrw_summary : hw_Summary h = Summarize (hw_Profile h);
  hrw_digest : hw_Digest h = HardwareDigest json_profile sha256_hex (hw_Profile h) }.

Lemma normalizeHardware_post h lim : post (normalizeHardware json_profile sha256_hex h lim) (λ r, ∀ x, r = Some x → hardware_wf x).
Proof.
  destruct h as [h|]; cbn [normalizeHardware]; [|by apply post_ret]. destruct (_ <? hardwareSchema); [by apply post_noted|].
  apply post_then; [apply post_set_truncations|].
  eapply post_bind with (P := λ _, True); [unfold hw_bios; hw_texts; by apply post_ret|intros bios _].
  eapply post_bind with (P := λ _, True); [unfold hw_system; hw_texts; by apply post_ret|intros system _].
  eapply post_bind with (P := λ _, True); [unfold hw_board; hw_texts; by apply post_ret|intros board _].
  eapply post_bind with (P := λ _, True); [unfold hw_chassis; hw_texts; by apply post_ret|intros chassis _].
  eapply post_bind with (P := λ _, True);
    [unfold hw_availability; do 2 (eapply post_bind; [apply hw_closed_post|intros ? ?]); by apply post_ret|intros avail _].
  eapply post_bind; [apply hw_bound_post; unfold MaxHWProcessors; lia|]. intros np Hnp. cbv beta in Hnp.
  eapply post_bind; [by apply (post_list _ processor_wf _ _ MaxHWProcessors hw_processor_post)|]. intros procs Hprocs.
  eapply post_bind; [apply hw_memory_post|]. intros memory Hmem.
  eapply post_bind; [apply hw_bound_post; unfold MaxHWDisks; lia|]. intros nd Hnd. cbv beta in Hnd.
  eapply post_bind; [by apply (post_list _ disk_wf _ _ MaxHWDisks hw_disk_post)|]. intros disks Hdisks.
  eapply post_bind; [apply hw_bound_post; unfold MaxHWFilesystems; lia|]. intros nf Hnf. cbv beta in Hnf.
  eapply post_bind; [by apply (post_list _ filesystem_wf _ _ MaxHWFilesystems hw_filesystem_post)|]. intros fss Hfss.
  eapply post_bind with (P := λ _, True); [by intros s Hs|intros trunc _]. cbv zeta.
  destruct (_ <? _) eqn:E; [by apply post_noted|]. apply post_ret. intros x [= <-]. bool_hyps. split; cbn [hw_Profile hw_Summary hw_Digest]; try done.
Qed.

(** ** Issues *)

Record issues_wf (l : list HostSyncIssue) : Prop := {
  isl_count : Z.of_nat (length l) ≤ MaxIssues;
  isl_sorted : StronglySorted (le_by issue_less) l;
  isl_distinct : NoDup ((λ i, (hsi_Field i, hsi_Reason i)) <$> l);
  isl_positive : Forall (λ i, 0 < hsi_Count i) l }.

Lemma issue_less_order : go_order issue_less.
Proof.
  destruct (lex_str _ (order_str hsi_Reason) hsi_Field) as [Ha Ht].
  assert (E : ∀ a b, issue_less a b = if negb (hsi_Field a =s hsi_Field b) then str_ltb (hsi_Field a) (hsi_Field b) else str_ltb (hsi_Reason a) (hsi_Reason b)).
  { intros a b. unfold issue_less. by destruct (_ =s _). }
  split; intros *; rewrite !E; [apply Ha|apply Ht].
Qed.

Lemma sorted_take {X} (R : X → X → Prop) n l : StronglySorted R l → StronglySorted R (take n l).
Proof.
  intros Hs. revert n. induction Hs as [|x l Hs IH Hx]; intros [|n]; cbn; constructor; [apply IH|]. by apply Forall_take.
Qed.

Lemma issues_list_wf s : notes_ok s → issues_wf (issues_list (nt_issues s)).
Proof.
  intros Hs. unfold issues_list. assert (Hp := sort_by_perm issue_less (issue_rows (nt_issues s))).
  assert (Hnd : NoDup ((λ i, (hsi_Field i, hsi_Reason i)) <$> sort_by issue_less (issue_rows (nt_issues s)))).
  { rewrite Hp. unfold issue_rows. rewrite <- list_fmap_compose. rewrite (list_fmap_ext _ fst).
    - apply NoDup_fst_map_to_list.
    - by intros _ [[? ?] ?] _. }
  split.
  - rewrite length_take. unfold MaxIssues. lia.
  - apply sorted_take, sort_by_sorted; apply issue_less_order.
  - rewrite fmap_take. eapply sublist_NoDup; [exact Hnd|]. apply sublist_take.
  - apply Forall_take. rewrite Hp. unfold issue_rows. apply Forall_fmap, Forall_forall. intros [k n] Hk%elem_of_map_to_list. by eapply Hs.
Qed.

(** ** The report *)

Record report_wf (r : Report) : Prop := {
  rw_tenant : IsUUID (rp_TenantID r) = true;
  rw_hostname : clean MaxHostname (rp_Hostname r);
  rw_texts : Forall (clean MaxText) [rp_Serial r; rp_Manufacturer r; rp_Model r; rp_OSName r; rp_OSVersion r; rp_AgentVersion r];
  rw_snapshot : clean maxSnapshotIDLength (rp_SnapshotID r);
  rw_status : rp_HostStatus r ∈ [""; "active"; "stale"; "retired"]%string;
  rw_family : rp_OSFamily r ∈ [""; "linux"; "windows"]%string;
  rw_role : rp_VirtRole r ∈ [RolePhysical; RoleVM; RoleContainer; RoleUnknown];
  rw_kind : rp_VirtKind r = "" ∨ virtKindRe (rp_VirtKind r) = true;
  rw_report_digest : rp_Digest r = "" ∨ digestRe (rp_Digest r) = true;
  rw_update_status : u_Status (rp_Updates r) ∈ [UpdUnknown; UpdUpToDate; UpdAvailable; UpdUnsupported; UpdError];
  rw_reboot : u_RebootRequired (rp_Updates r) ∈ [TriUnknown; TriTrue; TriFalse];
  rw_interfaces : interfaces_wf (rp_Interfaces r);
  rw_bmc : ∀ b, rp_BMC r = Some b → bmc_wf b;
  rw_guests : Z.of_nat (length (rp_Guests r)) ≤ MaxGuests ∧ NoDup (g_Ref <$> rp_Guests r) ∧ Forall guest_wf (rp_Guests r);
  rw_pending : Z.of_nat (length (rp_Pending r)) ≤ MaxPackages ∧ NoDup (pk_Name <$> rp_Pending r) ∧ Forall package_wf (rp_Pending r);
  rw_hardware : ∀ h, rp_Hardware r = Some h → hardware_wf h;
  rw_issues : issues_wf (rp_Issues r) }.

Lemma known_default set def (v : string) : oneOf def set = true → v ∈ def :: set → v ∈ set.
Proof. by intros ?%oneOf_elem [->|?]%elem_of_cons. Qed.

Lemma optional_post (b : bool) field reason n v P : (b = true → P v) → P "" → post (if b then mret v else note field reason n;; mret "") P.
Proof. intros Hv H0. destruct b; [by apply post_ret, Hv|by apply post_noted]. Qed.

Lemma post_drop {A B} (m : Norm A) (k : A → Norm B) (Q : B → Prop) : post m (λ _, True) → (∀ a, post (k a) Q) → post (m ≫= k) Q.
Proof. intros Hm Hk. by eapply post_bind. Qed.

Lemma primary_post s v4 : post (primary s v4) (λ _, True).
Proof. unfold primary. destruct (is_empty _); [by apply post_ret|]. destruct (parseAddr s); [destruct (Bool.eqb _ _); [by apply post_ret|]|]; by apply post_noted. Qed.

Lemma normalize_body_post r tenantID : IsUUID tenantID = true → post (normalize_body json_profile sha256_hex r tenantID) report_wf.
Proof.
  intros Ht. unfold normalize_body. cbv zeta.
  eapply post_bind; [apply text_post; unfold MaxHostname; lia|intros hostname Hh].
  do 6 (eapply post_bind; [apply (text_post _ _ MaxText); unfold MaxText; lia|intros ? ?]).
  eapply post_bind; [apply text_post; unfold maxSnapshotIDLength; lia|intros snapshot Hsn].
  eapply post_bind; [apply closed_post|intros status Hst]. eapply post_bind; [apply closed_post|intros family Hfam].
  eapply post_bind; [apply (optional_post _ _ _ _ _ (λ d, d = "" ∨ digestRe d = true)); [by right|by left]|intros digest Hdig].
  eapply post_bind; [apply normalizeInterfaces_post|intros ifaces Hif].
  eapply post_drop; [apply primary_post|intros p4]. eapply post_drop; [apply primary_post|intros p6].
  eapply post_bind; [apply closed_post|intros role Hrole].
  eapply post_bind; [apply (optional_post _ _ _ _ _ (λ d, d = "" ∨ virtKindRe d = true)); [by right|by left]|intros kind Hkind].
  eapply post_bind; [apply normalizeBMC_post|intros bmc Hbmc]. eapply post_bind; [apply normalizeGuests_post|intros guests Hg].
  eapply post_drop; [eapply post_weaken; [apply closed_post|done]|intros manager].
  eapply post_bind; [apply closed_post|intros ustatus Hus]. eapply post_bind; [apply closed_post|intros reboot Hreb].
  eapply post_drop; [eapply post_weaken; [apply closed_post|done]|intros auto_].
  eapply post_bind; [apply normalizePackages_post|intros pending Hpk].
  do 5 (eapply post_drop; [apply post_note|intros _]).
  eapply post_bind; [apply normalizeHardware_post|intros hw Hhw].
  eapply post_bind with (P := λ i, issues_wf (issues_list i)); [intros s Hs; split; [done|by apply issues_list_wf]|intros found Hf].
  apply post_ret. split; cbn [rp_TenantID rp_Hostname rp_Serial rp_Manufacturer rp_Model rp_OSName rp_OSVersion rp_AgentVersion rp_SnapshotID rp_HostStatus
    rp_OSFamily rp_VirtRole rp_VirtKind rp_Digest rp_Updates u_Status u_RebootRequired rp_Interfaces rp_BMC rp_Guests rp_Pending rp_Hardware rp_Issues]; cbv beta in *; try done.
  - repeat (apply Forall_cons; split; [done|]). by apply Forall_nil.
  - by apply (known_default _ RoleUnknown); [reflexivity|].
  - by apply (known_default _ UpdUnknown); [reflexivity|].
  - by apply (known_default _ TriUnknown); [reflexivity|].
Qed.

End report.
End wf.
