(* ===== verification/HostExamples.v ===== *)
(** * Host sync: concrete runs

    A report of a host whose device, one manual address and one address no
    longer reported are stored: the theorems of the host sync applied to it,
    and two reports with one change time of which the second fails. *)

From S2P Require Import Prelude GoNet GoIP GoText Ipnet Placement Models Store Hostreport HostNorm MemNet MemDev MemScan HostTx MemInv HostTxProps AddressProps ArpPlanProps AuditLog Events HwChanges HostPlan HostPlanProps HostSync HostSyncProps HostApplyProps HostReflect HostPoll HostNormProps.

Definition ex_tenant : string := "00000000-0000-4000-8000-000000000001".
Definition ex_host : string := "00000000-0000-4000-8000-0000000000aa".
Definition ex_host2 : string := "00000000-0000-4000-8000-0000000000bb".
Definition ex_profile (h : HardwareProfile) : string := "".
Definition ex_sha (s : string) : string := s.
Definition ex_cfg : Config :=
  {| cf_PollInterval := 60000000000; cf_Workers := 1; cf_ConflictMoves := 3; cf_ConflictWindow := 86400000000000 |}.
Definition ex_settings : HostSyncSettings :=
  {| zero_HostSyncSettings with hss_TenantID := ex_tenant; hss_Enabled := true; hss_FullIntervalMinutes := 60; hss_ExcludedInterfaces := ["docker*"%string] |}.

Definition ex_nic : inv_Interface :=
  {| ii_Name := "eth0"; ii_MAC := "02:00:00:00:00:01"; ii_IPAddresses := []; ii_Gateway := ""; ii_DHCP := false; ii_SpeedBps := 0;
     ii_Type := "ethernet"; ii_Up := true;
     ii_Addresses := [{| ia_Address := "10.0.0.7"; ia_PrefixLength := 24; ia_Family := "ipv4"; ia_DHCP := false; ia_Temporary := false;
                         ia_Deprecated := false; ia_Scope := "global" |};
                      {| ia_Address := "10.0.0.8"; ia_PrefixLength := 24; ia_Family := "ipv4"; ia_DHCP := false; ia_Temporary := false;
                         ia_Deprecated := false; ia_Scope := "global" |}];
     ii_DefaultRoute := true; ii_Master := ""; ii_VLANID := 0 |}.

Definition ex_inv_host (id name : string) : inv_Host :=
  {| ih_ID := id; ih_Hostname := name; ih_SystemSerial := "S1"; ih_Manufacturer := "ACME"; ih_Model := ""; ih_OSName := "Debian";
     ih_OSVersion := "13"; ih_Status := "active"; ih_LastSeen := 5 |}.
Definition ex_report : inv_Report :=
  {| zero_inv_Report with ir_TenantID := ex_tenant; ir_Host := ex_inv_host ex_host "web1"; ir_CollectedAt := 4; ir_ChangedAt := 4;
     ir_Digest := "d1"; ir_OSFamily := "linux"; ir_Interfaces := [ex_nic]; ir_PrimaryIPv4 := "10.0.0.7" |}.

(** The store before: the device without a link, an administrator's address
    and one the device no longer has. *)
Definition ex_device : Device :=
  {| zero_Device with dv_ID := "d1"; dv_TenantID := ex_tenant; dv_Name := "WEB1"; dv_Contact := "ops"; dv_Model := "X1" |}.
Definition ex_address (id addr dev : string) : IPAddress :=
  {| zero_IPAddress with ad_ID := id; ad_TenantID := ex_tenant; ad_Address := addr; ad_SubnetID := "s1"; ad_DeviceID := dev; ad_Note := "note" |}.
Definition ex_old : IPAddress := let a := ex_address "a9" "10.0.0.9" "d1" in {| a with ad_ReportState := RepReported |}.
Definition ex_store : M () :=
  CreateDevice (H := ex_env) ex_device;; CreateAddress (H := ex_env) (ex_address "a7" "10.0.0.7" "");;
  InsertAddressReported (H := ex_env) ex_tenant ex_old.
Definition ex_before : World := fst (ex_store init_world).

Lemma ex_before_ok : mem_ok (w_mem ex_before).
Proof.
  apply (preserves_bind (CreateDevice (H := ex_env) ex_device)); [apply CreateDevice_preserves|intros _|apply New_ok].
  apply preserves_bind; [apply CreateAddress_preserves|intros _; apply (proj1 (InsertAddressReported_tx _ _))].
Qed.

(** ** A report applied *)

Definition ex_apply : M Result := Apply (H := ex_env) ex_profile ex_sha ex_cfg ex_settings ex_report TriggerPoll "run1".
Definition ex_nr : Report :=
  snd (normalize_body (H := ex_env) ex_profile ex_sha ex_report ex_tenant {| nt_issues := ∅; nt_trunc := ∅ |}).
Definition ex_after : World := fst (ex_apply ex_before).
Definition ex_result : Result := match snd (ex_apply ex_before) with Ok r => r | Err _ => zero_Result end.

Lemma ex_nr_ok : Normalize (H := ex_env) ex_profile ex_sha ex_report (hss_TenantID ex_settings) = Ok ex_nr.
Proof. vm_compute. reflexivity. Qed.
Lemma ex_apply_ok : Apply (H := ex_env) ex_profile ex_sha ex_cfg ex_settings ex_report TriggerPoll "run1" ex_before = (ex_after, Ok ex_result).
Proof. vm_compute. reflexivity. Qed.

Lemma ex_result_device : rs_DeviceID ex_result = "d1"%string.
Proof. vm_compute. reflexivity. Qed.

Lemma new_ids_check `{Env} m from n :
  forallb (λ i, negb (is_some (mem_addrs m !! id_at i))) (seq from n) = true → bool_decide (NoDup (id_at <$> seq from n)) = true →
  forallb (λ i, negb (is_some (mem_devices m !! id_at i)) && negb (map_any (λ a, ad_DeviceID a =s id_at i) (mem_addrs m))) (seq from n) = true →
  new_ids m from n.
Proof.
  intros H1 H2 H3. split; [by apply fresh_ids_check|]. intros i Hi. rewrite forallb_forall in H3.
  specialize (H3 i ltac:(apply in_seq; lia)). apply andb_true_iff in H3 as [Hd Ha%negb_true_iff].
  split; [by destruct (mem_devices m !! id_at i)|]. intros k row_ Hk E.
  pose proof (proj1 (map_any_false _ _) Ha k row_ Hk) as Hn. cbn beta in Hn. by rewrite E, String.eqb_refl in Hn.
Qed.

Lemma ex_new_ids : new_ids (H := ex_env) (w_mem ex_before) (w_ids ex_before) (w_ids ex_after - w_ids ex_before).
Proof. apply new_ids_check; vm_compute; reflexivity. Qed.

Lemma ex_contact_kept : (dv_Contact <$> mem_devices (w_mem ex_after) !! "d1"%string) = Some "ops"%string.
Proof. vm_compute. reflexivity. Qed.
Lemma ex_unlinked : (dv_InventoryHostID <$> mem_devices (w_mem ex_before) !! "d1"%string) = Some ""%string.
Proof. vm_compute. reflexivity. Qed.
Lemma ex_names : ri_Name <$> rp_Interfaces ex_nr = ["eth0"]%string ∧ length (concat (ri_Addresses <$> rp_Interfaces ex_nr)) = 2%nat.
Proof. vm_compute. done. Qed.


Lemma ex_not_retired : rp_HostStatus ex_nr ≠ "retired"%string.
Proof. vm_compute. discriminate. Qed.

Lemma ex_todo : key_of <$> todo (report_ifaces (H := ex_env) ex_settings ex_nr) = ["10.0.0.7"; "10.0.0.8"]%string.
Proof. vm_compute. reflexivity. Qed.
Lemma ex_gone : gone_addr ex_nr "d1" ["10.0.0.7"; "10.0.0.8"]%string "10.0.0.9" ex_old = true.
Proof. vm_compute. reflexivity. Qed.

(** The administrator's row becomes the device's and keeps its note, the new
    address is inserted, the old one is released. *)
Lemma Apply_reflects_addresses_witness :
  key_of <$> todo (report_ifaces (H := ex_env) ex_settings ex_nr) = ["10.0.0.7"; "10.0.0.8"]%string ∧
  gone_addr ex_nr "d1" ["10.0.0.7"; "10.0.0.8"]%string "10.0.0.9" ex_old = true ∧
  addresses_reflect (H := ex_env) (hss_TenantID ex_settings) "d1" ex_nr (report_ifaces (H := ex_env) ex_settings ex_nr)
    (mem_addrs (w_mem ex_before)) (mem_addrs (w_mem ex_after)).
Proof.
  split; [exact ex_todo|split; [exact ex_gone|]].
  rewrite <- ex_result_device.
  refine (proj1 (Apply_reflects_addresses (H := ex_env) ex_profile ex_sha ex_cfg ex_settings ex_report TriggerPoll "run1" ex_before ex_after ex_result ex_nr
    ex_before_ok ex_nr_ok ex_not_retired ex_apply_ok ex_new_ids)).
Defined.

(** The device matched by its name is linked and keeps its contact. *)
Lemma Apply_reflects_device_witness :
  (dv_InventoryHostID <$> mem_devices (w_mem ex_before) !! "d1"%string) = Some ""%string ∧
  (dv_Contact <$> mem_devices (w_mem ex_after) !! "d1"%string) = Some "ops"%string ∧
  device_reflects (H := ex_env) (hss_TenantID ex_settings) "d1" ex_nr (mem_devices (w_mem ex_before)) (mem_devices (w_mem ex_after)).
Proof.
  split; [exact ex_unlinked|split; [exact ex_contact_kept|]].
  rewrite <- ex_result_device.
  apply (Apply_reflects_device (H := ex_env) ex_profile ex_sha ex_cfg ex_settings ex_report TriggerPoll "run1" ex_before ex_after ex_result ex_nr);
    [exact ex_before_ok|exact ex_nr_ok|exact ex_not_retired|exact ex_apply_ok|exact ex_new_ids].
Defined.

(** ** A report that fails at its last write *)

Definition ex_armed : World := fst (FailNext "tx.SaveDeviceState" ex_before).
Definition ex_failed : World := fst (ex_apply ex_armed).

Lemma ex_apply_fails :
  Apply (H := ex_env) ex_profile ex_sha ex_cfg ex_settings ex_report TriggerPoll "run1" ex_armed = (ex_failed, Err (injectedErr "tx.SaveDeviceState")).
Proof. vm_compute. reflexivity. Qed.

Lemma Apply_atomic_witness :
  (w_ids ex_armed < w_ids ex_failed)%nat ∧
  same_tables (w_mem ex_armed) (w_mem ex_failed) ∧ w_events ex_failed = w_events ex_armed.
Proof.
  split; [vm_compute; lia|].
  apply (Apply_atomic (H := ex_env) ex_profile ex_sha ex_cfg ex_settings ex_report TriggerPoll "run1" _ _ _ ex_apply_fails).
Defined.

(** ** Two reports of one change time *)

(** Both names the second host may take belong to another host's devices. *)
Definition ex_taken (id name host : string) : Device :=
  {| zero_Device with dv_ID := id; dv_TenantID := ex_tenant; dv_Name := name; dv_InventoryHostID := host |}.
Definition ex_report2 : inv_Report :=
  {| zero_inv_Report with ir_TenantID := ex_tenant; ir_Host := ex_inv_host ex_host2 "db"; ir_CollectedAt := 4; ir_ChangedAt := 4 |}.
Definition ex_report3 : inv_Report := {| ex_report2 with ir_ChangedAt := 6 |}.

Definition ex_busy : World :=
  fst ((ex_store;; InsertDevice (H := ex_env) ex_tenant (ex_taken "d2" "db" "h2");; InsertDevice (H := ex_env) ex_tenant (ex_taken "d3" "db (00000000)" "h3")) init_world).
Definition ex_inventory (reps : list inv_Report) : Fake :=
  foldr fake_Put {| fk_reports := ∅; fk_Down := false; fk_Err := None; fk_PageSize := 1 |} reps.
Definition ex_poll (f : Fake) : M (run * Time * option error) :=
  poll (H := ex_env) ex_profile ex_sha (Fake_inventory f) ex_cfg ex_settings time_zero (new_run "run1" ex_tenant).
Definition ex_polled (f : Fake) : World := fst (ex_poll f ex_busy).
Definition ex_later : Fake := ex_inventory [ex_report; ex_report3].
Definition ex_tied : Fake := ex_inventory [ex_report; ex_report2].
Definition ex_run : run :=
  {| ru_id := "run1"; ru_tenant := ex_tenant; ru_fetched := 2; ru_applied := 1; ru_failed := 1; ru_skipped := 0; ru_changes := 6; ru_rejected := 0 |}.

Lemma ex_poll_later :
  poll (H := ex_env) ex_profile ex_sha (Fake_inventory ex_later) ex_cfg ex_settings time_zero (new_run "run1" ex_tenant) ex_busy =
  (ex_polled ex_later, Ok (ex_run, 4, None)).
Proof. vm_compute. reflexivity. Qed.

Lemma ex_later_listed : fake_list ex_later (hss_TenantID ex_settings) {| f_ChangedSince := time_zero; f_Digest := false |} = [ex_report; ex_report3].
Proof. vm_compute. reflexivity. Qed.

(** The failed host, changed later, is listed again. *)
Lemma poll_loses_none_witness :
  ∃ digests w1 o1 o2,
    handled (H := ex_env) ex_profile ex_sha ex_cfg ex_settings digests (new_run "run1" ex_tenant) w1 [ex_report; ex_report3] [o1; o2] ex_run (ex_polled ex_later) ∧
    (o2 = outcomeFailed → ex_report3 ∈ fake_list ex_later (hss_TenantID ex_settings) {| f_ChangedSince := 4; f_Digest := false |}).
Proof.
  destruct (poll_loses_none (H := ex_env) ex_profile ex_sha ex_later ex_cfg ex_settings time_zero _ _ _ _ _ ex_poll_later)
    as (digests & w1 & outs & _ & Hh & Hl & _ & _ & _ & Hf).
  rewrite ex_later_listed in Hh, Hl, Hf. destruct outs as [|o1 [|o2 [|]]]; try discriminate Hl.
  exists digests, w1, o1, o2. split; [exact Hh|]. intros ->. change 4 with (next_since time_zero 4). apply Hf; [right; left|discriminate].
Defined.

(** The other side of [poll_loses_none]: of two hosts whose reports have one
    change time the second fails, the poll returns that time as its watermark
    with one failure, and no later poll from it lists the failed host. *)
Theorem poll_tie_not_listed :
  ∃ w', poll (H := ex_env) ex_profile ex_sha (Fake_inventory ex_tied) ex_cfg ex_settings time_zero (new_run "run1" ex_tenant) ex_busy =
    (w', Ok (ex_run, ir_ChangedAt ex_report2, None)) ∧
  ru_failed ex_run = 1 ∧ fake_list ex_tied ex_tenant {| f_ChangedSince := next_since time_zero (ir_ChangedAt ex_report2); f_Digest := false |} = [] ∧
  map_any (λ d, dv_InventoryHostID d =s ex_host2) (mem_devices (w_mem w')) = false.
Proof. exists (ex_polled ex_tied). split_and!; vm_compute; reflexivity. Qed.
