(* ===== verification/PortLink.v ===== *)
(** * internal/portlink: attributing hosts to switch ports

    [Rank] infers, from what the switch ports learned, which port each host
    interface (or address with a MAC) hangs on; [Correlate] reads the tenant's
    rows ([PortLinkData] of memstore/portlink.go), ranks them and writes the
    links back.  The maps the code iterates are finite maps; where it collects
    their values it sorts them with a total order, so the result does not
    depend on the iteration order. *)

From S2P Require Import Prelude GoNet Models Store Hostreport MemNet MemDev MemScan HostTx AuditLog HostPlan.

(** ** The data of a tenant (repo.PortLinkData, memstore/portlink.go) *)

Record PortLinkData_ : Type := {
  pld_Switches : list Device; pld_SwitchIfaces : list DeviceInterface; pld_Links : list DeviceInterfaceLink;
  pld_Hosts : list Device; pld_HostIfaces : list DeviceInterface; pld_Addresses : list IPAddress;
  pld_NetworkMACs : gset string; pld_Guests : list HypervisorGuest }.

Definition by_id {V} (id : V → string) (l : list V) : list V := sort_by (λ a b, str_ltb (id a) (id b)) l.

Section data.
Context (m : Mem) (tenantID : string).

Definition is_switch (d : Device) : bool := (dv_TenantID d =s tenantID) && (dv_DeviceType d =s DevSwitch).
Definition is_reported_host (d : Device) : bool := (dv_TenantID d =s tenantID) && (dv_Source d =s SrcHostReport).
Definition of_devices (P : Device → bool) (i : DeviceInterface) : bool :=
  existsb (λ d, dv_ID d =s di_DeviceID i) (map_select P (mem_devices m)).

Definition switch_iface (i : DeviceInterface) : bool := (di_TenantID i =s tenantID) && of_devices is_switch i.
Definition host_iface_row (i : DeviceInterface) : bool :=
  (di_TenantID i =s tenantID) && of_devices is_reported_host i && (di_ReportState i =s RepReported) && negb (is_empty (di_MACAddress i)).
Definition learned_link (l : DeviceInterfaceLink) : bool :=
  (dl_TenantID l =s tenantID) && ((dl_LinkSource l =s LinkSNMPFDB) || (dl_LinkSource l =s LinkLLDP)).
Definition linkable_addr (a : IPAddress) : bool :=
  (ad_TenantID a =s tenantID) && (negb (is_empty (ad_MACAddress a)) || is_some (ad_Link a)).
Definition with_links (i : DeviceInterface) : DeviceInterface :=
  {| i with di_Links := hostLinksLocked m tenantID HostKindInterface (di_ID i) (di_RemoteInterfaceID i) |}.

Definition port_link_data : PortLinkData_ :=
  {| pld_Switches := by_id dv_ID (map_select is_switch (mem_devices m));
     pld_SwitchIfaces := by_id di_ID (map_select switch_iface (mem_ifaces m));
     pld_Links := by_id dl_ID (concat ((λ i, List.filter learned_link (default [] (mem_links m !! di_ID i))) <$>
                                       map_select switch_iface (mem_ifaces m)));
     pld_Hosts := by_id dv_ID (map_select is_reported_host (mem_devices m));
     pld_HostIfaces := by_id di_ID (with_links <$> map_select host_iface_row (mem_ifaces m));
     pld_Addresses := by_id ad_ID (decorateAddrLocked m <$> map_select linkable_addr (mem_addrs m));
     pld_NetworkMACs := networkMACsLocked m tenantID;
     pld_Guests := by_id hg_ID (map_select (λ g, hg_TenantID g =s tenantID) (mem_guests m)) |}.
End data.

Definition PortLinkData (tenantID : string) : M PortLinkData_ :=
  fail "PortLinkData";; m ← mem; mret (port_link_data m tenantID).

(** ** Ranking (rank.go) *)

Record Port : Type := { pt_SwitchID : string; pt_PortID : string; pt_Name : string; pt_MACs : gmap string Z; pt_LLDP : list (string * string) }.

Record Host : Type := {
  ht_DeviceID : string; ht_DeviceName : string; ht_IfaceID : string; ht_IfaceName : string; ht_MAC : string; ht_AddressID : string;
  ht_Related : gset string }.

Record Input : Type := {
  in_Ports : list Port; in_Hosts : list Host; in_SwitchMACs : gmap string string; in_SwitchNames : gset string; in_MaxMACs : Z }.

Record Link : Type := {
  lk_HostIfaceID : string; lk_AddressID : string; lk_SwitchID : string; lk_PortID : string; lk_PortName : string; lk_VLAN : Z;
  lk_Source : string; lk_Count : Z; lk_Primary : bool }.

(** A port that learned a MAC, with the count it is judged by. *)
Record cand : Type := { cd_port : Port; cd_count : Z; cd_vlan : Z }.

Definition mac_count (p : Port) : Z := Z.of_nat (size (pt_MACs p)).

Definition hasMAC (p : Port) (mac : string) : bool := is_some (pt_MACs p !! mac).

(** Only foreign MACs count; the host's own MAC always does. *)
Definition foreignMACs (p : Port) (h : Host) : Z :=
  Z.of_nat (length (List.filter (λ kv, (fst kv =s ht_MAC h) || negb (bool_decide (fst kv ∈ ht_Related h))) (map_to_list (pt_MACs p)))).

Definition primaryBefore (a b : Link) : bool :=
  if negb (Bool.eqb (lk_Source a =s LinkLLDP) (lk_Source b =s LinkLLDP)) then lk_Source a =s LinkLLDP
  else if negb (lk_Count a =? lk_Count b) then lk_Count a <? lk_Count b
  else if negb (lk_SwitchID a =s lk_SwitchID b) then str_ltb (lk_SwitchID a) (lk_SwitchID b)
  else str_ltb (lk_PortID a) (lk_PortID b).

Definition link_less (a b : Link) : bool :=
  if negb (lk_HostIfaceID a =s lk_HostIfaceID b) then str_ltb (lk_HostIfaceID a) (lk_HostIfaceID b)
  else if negb (lk_AddressID a =s lk_AddressID b) then str_ltb (lk_AddressID a) (lk_AddressID b)
  else if negb (Bool.eqb (lk_Primary a) (lk_Primary b)) then lk_Primary a
  else str_ltb (lk_SwitchID a) (lk_SwitchID b).

Definition ParseLLDP (s : string) : string * string :=
  let s := TrimSpace s in
  match cut_byte " " s with Some (a, b) => (a, TrimSpace b) | None => ("", s) end.

Section rank.
Context `{Env}.

Definition facesSwitch (i : Input) (p : Port) : bool :=
  existsb (λ kv, match in_SwitchMACs i !! fst kv with Some sw => negb (sw =s pt_SwitchID p) | None => false end) (map_to_list (pt_MACs p)) ||
  existsb (λ n, bool_decide (ToLower (fst n) ∈ in_SwitchNames i)) (pt_LLDP p).

(** Whether an LLDP neighbour of the port is the host interface. *)
Definition neighbour_is (h : Host) (single : bool) (p : Port) (nb : string * string) : bool :=
  let '(sys, port) := nb in
  let pm := default "" (NormalizeMAC port) in
  let byPort := (negb (is_empty pm) && (pm =s ht_MAC h)) ||
                (negb (is_empty port) && EqualFold port (ht_IfaceName h) && EqualFold sys (ht_DeviceName h)) in
  let bySys := negb (is_empty sys) && EqualFold sys (ht_DeviceName h) in
  byPort || (bySys && (single || hasMAC p (ht_MAC h))).

Definition single_iface (h : Host) (hosts : list Host) : bool :=
  (length (List.filter (λ o, ht_DeviceID o =s ht_DeviceID h) hosts) =? 1)%nat.

Definition lldp_link (h : Host) (p : Port) : Link :=
  {| lk_HostIfaceID := ht_IfaceID h; lk_AddressID := ht_AddressID h; lk_SwitchID := pt_SwitchID p; lk_PortID := pt_PortID p;
     lk_PortName := pt_Name p; lk_VLAN := default 0 (pt_MACs p !! ht_MAC h); lk_Source := LinkLLDP; lk_Count := mac_count p;
     lk_Primary := false |}.

Definition lldp_step (h : Host) (single : bool) (out : gmap string Link) (p : Port) : gmap string Link :=
  if is_some (out !! pt_SwitchID p) then out
  else if existsb (neighbour_is h single p) (pt_LLDP p) then <[pt_SwitchID p := lldp_link h p]> out else out.

Definition lldpLinks (h : Host) (hosts : list Host) (ports : list Port) : gmap string Link :=
  foldl (lldp_step h (single_iface h hosts)) ∅ ports.

(** [byMAC]: the access ports that learned the MAC, in order. *)
Definition by_mac (access : list Port) (mac : string) : list cand :=
  omap (λ p, (λ vlan, {| cd_port := p; cd_count := mac_count p; cd_vlan := vlan |}) <$> pt_MACs p !! mac) access.

(** [bySwitch]: of a switch without LLDP link, the ports with few foreign MACs. *)
Definition fdb_cand (i : Input) (h : Host) (per : gmap string Link) (c : cand) : option cand :=
  if is_some (per !! pt_SwitchID (cd_port c)) then None
  else let n := foreignMACs (cd_port c) h in if in_MaxMACs i <? n then None else Some {| c with cd_count := n |}.

Definition add_cand (m : gmap string (list cand)) (c : cand) : gmap string (list cand) :=
  let sw := pt_SwitchID (cd_port c) in <[sw := default [] (m !! sw) ++ [c]]> m.

Definition cand_less (a b : cand) : bool :=
  if negb (cd_count a =? cd_count b) then cd_count a <? cd_count b else str_ltb (pt_PortID (cd_port a)) (pt_PortID (cd_port b)).

(** The link of one switch; a tie links nothing. *)
Definition fdb_link (h : Host) (cs : list cand) : option Link :=
  match sort_by cand_less cs with
  | [] => None
  | c :: rest =>
      if match rest with c2 :: _ => cd_count c =? cd_count c2 | [] => false end then None
      else Some {| lk_HostIfaceID := ht_IfaceID h; lk_AddressID := ht_AddressID h; lk_SwitchID := pt_SwitchID (cd_port c);
                   lk_PortID := pt_PortID (cd_port c); lk_PortName := pt_Name (cd_port c); lk_VLAN := cd_vlan c;
                   lk_Source := LinkSNMPFDB; lk_Count := cd_count c; lk_Primary := false |}
  end.

Definition access_ports (i : Input) : list Port := List.filter (λ p, negb (facesSwitch i p)) (in_Ports i).

Definition per_switch (i : Input) (h : Host) : gmap string Link :=
  let access := access_ports i in
  let per := lldpLinks h (in_Hosts i) access in
  per ∪ omap (fdb_link h) (foldl add_cand ∅ (omap (fdb_cand i h per) (by_mac access (ht_MAC h)))).

Definition host_links (i : Input) (h : Host) : list Link :=
  match sort_by primaryBefore (rows (per_switch i h)) with
  | [] => []
  | l :: rest => {| l with lk_Primary := true |} :: rest
  end.

Definition Rank (i : Input) : list Link := sort_by link_less (concat (host_links i <$> in_Hosts i)).

(** ** The ranking input (portlink.go) *)

Definition learn (ports : gmap string Port) (l : DeviceInterfaceLink) : gmap string Port :=
  match ports !! dl_InterfaceID l with
  | None => ports
  | Some p =>
      if dl_LinkSource l =s LinkSNMPFDB then
        match NormalizeMAC (dl_RemotePortName l) with
        | Some m => <[dl_InterfaceID l := {| p with pt_MACs := <[m := dl_LinkVlan l]> (pt_MACs p) |}]> ports
        | None => ports
        end
      else if dl_LinkSource l =s LinkLLDP then
        <[dl_InterfaceID l := {| p with pt_LLDP := pt_LLDP p ++ [ParseLLDP (dl_RemotePortName l)] |}]> ports
      else ports
  end.

Definition blank_port (i : DeviceInterface) : Port :=
  {| pt_SwitchID := di_DeviceID i; pt_PortID := di_ID i; pt_Name := di_Name i; pt_MACs := ∅; pt_LLDP := [] |}.

(** [related]: the MACs of a device's reported interfaces and guests. *)
Definition add_related (m : gmap string (gset string)) (dm : string * string) : gmap string (gset string) :=
  match NormalizeMAC (snd dm) with
  | Some mac => if is_empty (fst dm) then m else <[fst dm := {[mac]} ∪ default ∅ (m !! fst dm)]> m
  | None => m
  end.

Definition BuildInput (d : PortLinkData_) (maxMACs : Z) : Input :=
  let switchMACs := foldl (λ m i, match NormalizeMAC (di_MACAddress i) with Some mac => <[mac := di_DeviceID i]> m | None => m end) ∅ (pld_SwitchIfaces d) in
  let ports := foldl learn (foldl (λ m i, <[di_ID i := blank_port i]> m) ∅ (pld_SwitchIfaces d)) (pld_Links d) in
  let names := foldl (λ m h, <[dv_ID h := dv_Name h]> m) (∅ : gmap string string) (pld_Hosts d) in
  let related := foldl add_related ∅
    (((λ i, (di_DeviceID i, di_MACAddress i)) <$> pld_HostIfaces d) ++
     concat ((λ g, (λ mac, (hg_HostDeviceID g, mac)) <$> hg_MACs g) <$> pld_Guests d)) in
  let ifaces := omap (λ i, (λ mac, {| ht_DeviceID := di_DeviceID i; ht_DeviceName := default "" (names !! di_DeviceID i); ht_IfaceID := di_ID i;
                                      ht_IfaceName := di_Name i; ht_MAC := mac; ht_AddressID := "";
                                      ht_Related := default ∅ (related !! di_DeviceID i) |}) <$> NormalizeMAC (di_MACAddress i)) (pld_HostIfaces d) in
  let reported : gset string := list_to_set (ht_MAC <$> ifaces) in
  let addrs := omap (λ a, match NormalizeMAC (ad_MACAddress a) with
    | Some mac =>
        if bool_decide (mac ∈ reported) || bool_decide (mac ∈ pld_NetworkMACs d) || negb (is_empty (default "" (switchMACs !! mac))) then None
        else Some {| ht_DeviceID := "address:" +:+ ad_ID a; ht_DeviceName := ad_Hostname a; ht_IfaceID := ""; ht_IfaceName := "";
                     ht_MAC := mac; ht_AddressID := ad_ID a; ht_Related := default ∅ (related !! ad_DeviceID a) |}
    | None => None
    end) (pld_Addresses d) in
  {| in_Ports := omap (λ i, ports !! di_ID i) (pld_SwitchIfaces d); in_Hosts := ifaces ++ addrs; in_SwitchMACs := switchMACs;
     in_SwitchNames := list_to_set ((λ s, ToLower (dv_Name s)) <$> pld_Switches d); in_MaxMACs := maxMACs |}.
End rank.

(** ** Correlation (portlink.go) *)

Section correlate.
Context `{Env} (maxMACs staleAge : Z).

Definition subjectRow (tenantID : string) (t : EventType) (kind id : string) (detail : list (string * any)) (at_ : Time) : M AuditRow :=
  res ← Row {| e_TenantID := tenantID; e_EventType := t; e_ActorKind := ActorSystem; e_ActorID := HostSyncActor; e_SubjectKind := kind;
               e_SubjectID := id; e_Target := ""; e_Outcome := OutcomeOK; e_Reason := ""; e_Details := detail |} at_;
  mret match res with Ok row => row | Err _ => zero_AuditRow end.

Definition unlinked_detail (reason port : string) : list (string * any) :=
  [("reason", AnyString reason); ("switch_interface_id", AnyString port)]%string.
Definition linked_detail (l : Link) : list (string * any) :=
  [("switch_device_id", AnyString (lk_SwitchID l)); ("switch_interface_id", AnyString (lk_PortID l)); ("vlan", AnyInt (lk_VLAN l));
   ("source", AnyString (lk_Source l))]%string.
Definition secondary : list (string * any) := [("secondary"%string, AnyBool true)].

(** Whether a sighting is older than the stale age. *)
Definition expired (seen : option Time) (t : Time) : bool :=
  match seen with None => true | Some s => staleAge <? Sub t s end.

(** The state of [mergeSet]. *)
Record merge : Type := {
  mg_existing : gmap string HostSwitchLink; mg_set : list HostSwitchLink; mg_rows : list AuditRow; mg_changed : bool }.

Section merge_set.
Context (tenantID kind id : string) (oldPrimary newPrimary : string) (t : Time).

Definition unlink (e : HostSwitchLink) (reason : string) (s : merge) : M merge :=
  let s := {| s with mg_changed := true |} in
  if hl_PortID e =s oldPrimary then mret s
  else row ← subjectRow tenantID PortUnlinked kind id (unlinked_detail reason (hl_PortID e) ++ secondary) t;
       mret {| s with mg_rows := mg_rows s ++ [row] |}.

Definition set_link (l : Link) : HostSwitchLink :=
  {| hl_SwitchID := lk_SwitchID l; hl_SwitchName := ""; hl_PortID := lk_PortID l; hl_PortName := lk_PortName l; hl_VLAN := lk_VLAN l;
     hl_Source := lk_Source l; hl_LastSeen := Some t; hl_Primary := false |}.

Definition merge_ranked (s : merge) (l : Link) : M merge :=
  let e := mg_existing s !! lk_SwitchID l in
  let s := {| s with mg_changed := true; mg_existing := delete (lk_SwitchID l) (mg_existing s) |} in
  let same := match e with Some e => hl_PortID e =s lk_PortID l | None => false end in
  s ← match e with Some e => if hl_PortID e =s lk_PortID l then mret s else unlink e "superseded" s | None => mret s end;
  s ← (if negb same && negb (lk_PortID l =s newPrimary) then
         row ← subjectRow tenantID PortLinked kind id (linked_detail l ++ secondary) t; mret {| s with mg_rows := mg_rows s ++ [row] |}
       else mret s);
  mret {| s with mg_set := mg_set s ++ [set_link l] |}.

Definition merge_current (s : merge) (e : HostSwitchLink) : M merge :=
  if negb (is_some (mg_existing s !! hl_SwitchID e)) then mret s
  else if expired (hl_LastSeen e) t then unlink e "stale" s
  else mret {| s with mg_set := mg_set s ++ [{| e with hl_Primary := false |}] |}.

Definition mergeSet (cur : list HostSwitchLink) (ranked : list Link) : M merge :=
  s ← foldM merge_ranked {| mg_existing := foldl (λ m e, <[hl_SwitchID e := e]> m) ∅ cur; mg_set := []; mg_rows := []; mg_changed := false |} ranked;
  foldM merge_current s cur.
End merge_set.

(** *** Interfaces *)

(** The flat link columns of an interface, the rows that record the change and
    whether there is one. *)
Definition flat_iface (tenantID : string) (t : Time) (i : DeviceInterface) (ls : list Link) : M (DeviceInterface * list AuditRow * bool) :=
  let audit ty detail := subjectRow tenantID ty SubjectInterface (di_ID i) detail t in
  match ls with
  | l :: _ =>
      if (di_RemoteInterfaceID i =s lk_PortID l) && (di_LinkSource i =s lk_Source l) && (di_LinkVlan i =? lk_VLAN l)
      then mret ({| i with di_LinkLastSeen := Some t |}, [], true)
      else
        rows ← (if is_empty (di_RemoteInterfaceID i) then mret []
                else row ← audit PortUnlinked (unlinked_detail "superseded" (di_RemoteInterfaceID i)); mret [row]);
        row ← audit PortLinked (linked_detail l);
        mret ({| i with di_RemoteDeviceID := lk_SwitchID l; di_RemoteInterfaceID := lk_PortID l; di_RemotePortName := lk_PortName l;
                 di_LinkSource := lk_Source l; di_LinkVlan := lk_VLAN l; di_LinkLastSeen := Some t |}, rows ++ [row], true)
  | [] =>
      if negb (is_empty (di_RemoteInterfaceID i)) && ((di_LinkSource i =s LinkSNMPFDB) || (di_LinkSource i =s LinkLLDP)) &&
         expired (di_LinkLastSeen i) t
      then
        row ← audit PortUnlinked (unlinked_detail "stale" (di_RemoteInterfaceID i));
        mret ({| i with di_RemoteDeviceID := ""; di_RemoteInterfaceID := ""; di_RemotePortName := ""; di_LinkSource := ""; di_LinkVlan := 0;
                 di_LinkLastSeen := None |}, [row], true)
      else mret (i, [], false)
  end.

Definition iface_step (tenantID : string) (t : Time) (byIface : string → list Link) (acc : list DeviceInterface * list AuditRow)
    (i : DeviceInterface) : M (list DeviceInterface * list AuditRow) :=
  let '(changed, rows) := acc in
  let ls := byIface (di_ID i) in
  f ← flat_iface tenantID t i ls;
  let '(i', frows, flat) := f in
  s ← mergeSet tenantID SubjectInterface (di_ID i) (di_RemoteInterfaceID i) (di_RemoteInterfaceID i') t (di_Links i) ls;
  mret (if flat || mg_changed s then changed ++ [{| i' with di_Links := mg_set s |}] else changed, rows ++ frows ++ mg_rows s).

(** *** Addresses *)

Definition addr_link (t : Time) (l : Link) : AddressLink :=
  {| al_SwitchID := lk_SwitchID l; al_SwitchName := ""; al_PortID := lk_PortID l; al_PortName := lk_PortName l; al_VLAN := lk_VLAN l;
     al_Source := lk_Source l; al_LastSeen := Some t |}.
Definition link_port (l : option AddressLink) : string := match l with Some l => al_PortID l | None => "" end.

Definition flat_addr (tenantID : string) (t : Time) (a : IPAddress) (ls : list Link) : M (option AddressLink * list AuditRow * bool) :=
  let audit ty detail := subjectRow tenantID ty SubjectAddress (ad_ID a) detail t in
  match ls with
  | l :: _ =>
      match ad_Link a with
      | Some cur =>
          if (al_PortID cur =s lk_PortID l) && (al_Source cur =s lk_Source l) && (al_VLAN cur =? lk_VLAN l)
          then mret (Some {| cur with al_LastSeen := Some t |}, [], true)
          else row ← audit PortUnlinked (unlinked_detail "superseded" (al_PortID cur));
               row2 ← audit PortLinked (linked_detail l);
               mret (Some (addr_link t l), [row; row2], true)
      | None => row ← audit PortLinked (linked_detail l); mret (Some (addr_link t l), [row], true)
      end
  | [] =>
      match ad_Link a with
      | Some cur => if expired (al_LastSeen cur) t
                    then row ← audit PortUnlinked (unlinked_detail "stale" (al_PortID cur)); mret (None, [row], true)
                    else mret (Some cur, [], false)
      | None => mret (None, [], false)
      end
  end.

Definition addr_links (byAddr : string → list Link) (byMAC : gmap string (list Link)) (a : IPAddress) : list Link :=
  match byAddr (ad_ID a) with
  | [] => default [] (byMAC !! default "" (NormalizeMAC (ad_MACAddress a)))
  | ls => ls
  end.

Definition addr_step (tenantID : string) (t : Time) (byAddr : string → list Link) (byMAC : gmap string (list Link))
    (acc : list IPAddress * list AuditRow) (a : IPAddress) : M (list IPAddress * list AuditRow) :=
  let '(changed, rows) := acc in
  let ls := addr_links byAddr byMAC a in
  f ← flat_addr tenantID t a ls;
  let '(link, frows, flat) := f in
  s ← mergeSet tenantID SubjectAddress (ad_ID a) (link_port (ad_Link a)) (link_port link) t (ad_Links a) ls;
  mret (if flat || mg_changed s then changed ++ [{| a with ad_Link := link; ad_Links := mg_set s |}] else changed, rows ++ frows ++ mg_rows s).

Definition correlateAddresses (tenantID : string) (d : PortLinkData_) (byIface byAddr : string → list Link) (t : Time) : M () :=
  let byMAC := foldl (λ m i, match byIface (di_ID i), NormalizeMAC (di_MACAddress i) with
                             | (_ :: _) as ls, Some mac => <[mac := ls]> m
                             | _, _ => m
                             end) ∅ (pld_HostIfaces d) in
  r ← foldM (addr_step tenantID t byAddr byMAC) ([], []) (pld_Addresses d);
  match fst r with [] => mret () | changed => SetAddressLinks tenantID changed (snd r) end.

Definition Correlate (tenantID : string) : M () :=
  d ← PortLinkData tenantID;
  if is_nil (pld_Switches d) then mret ()
  else
    let ranked := Rank (BuildInput d maxMACs) in
    let byIface id := List.filter (λ l, is_empty (lk_AddressID l) && (lk_HostIfaceID l =s id)) ranked in
    let byAddr id := List.filter (λ l, negb (is_empty (lk_AddressID l)) && (lk_AddressID l =s id)) ranked in
    t ← now;
    r ← foldM (iface_step tenantID t byIface) ([], []) (pld_HostIfaces d);
    match fst r with [] => mret () | changed => SetInterfaceLinks tenantID changed (snd r) end;;
    correlateAddresses tenantID d byIface byAddr t.
End correlate.
