(* ===== verification/PortLinkProps.v ===== *)
(** * What the port ranking infers

    [Rank_exact]: a host is linked, per switch, to the first access port whose
    LLDP neighbour it is, else to the one access port that learned its MAC
    with strictly the fewest foreign MACs; uplinks are never linked and every
    linked host has one primary link, which comes first. *)

From S2P Require Import Prelude GoNet Models Store Hostreport MemNet MemDev MemScan HostTx MemInv AuditLog HostPlan PortLink.

(** ** Specification *)

Section spec.
Context `{Env} (i : Input) (h : Host).

(** The first access port of the switch with the host as LLDP neighbour. *)
Definition lldp_port (sw : string) : option Port :=
  find_first (λ p, (pt_SwitchID p =s sw) && existsb (neighbour_is h (single_iface h (in_Hosts i)) p) (pt_LLDP p)) (access_ports i).

(** The access ports of the switch that learned the host's MAC and not too
    many foreign ones. *)
Definition fdb_ports (sw : string) : list Port :=
  List.filter (λ p, (pt_SwitchID p =s sw) && hasMAC p (ht_MAC h) && (foreignMACs p h <=? in_MaxMACs i)) (access_ports i).

Inductive attached : Port → string → Prop :=
| attached_lldp p : lldp_port (pt_SwitchID p) = Some p → attached p LinkLLDP
| attached_fdb p rest : lldp_port (pt_SwitchID p) = None → fdb_ports (pt_SwitchID p) ≡ₚ p :: rest →
    Forall (λ q, foreignMACs p h < foreignMACs q h) rest → attached p LinkSNMPFDB.
End spec.

(** A link of the host to the port, whatever its primary flag. *)
Definition is_link (h : Host) (p : Port) (src : string) (l : Link) : Prop :=
  lk_HostIfaceID l = ht_IfaceID h ∧ lk_AddressID l = ht_AddressID h ∧ lk_SwitchID l = pt_SwitchID p ∧ lk_PortID l = pt_PortID p ∧
  lk_PortName l = pt_Name p ∧ lk_VLAN l = default 0 (pt_MACs p !! ht_MAC h) ∧ lk_Source l = src.

(** ** One switch *)

Section proofs.
Context `{Env}.

Lemma lldp_fold h single ports acc sw :
  foldl (lldp_step h single) acc ports !! sw =
  match acc !! sw with
  | Some l => Some l
  | None => lldp_link h <$> find_first (λ p, (pt_SwitchID p =s sw) && existsb (neighbour_is h single p) (pt_LLDP p)) ports
  end.
Proof.
  revert acc. induction ports as [|p ports IH]; intros acc; cbn [foldl]; [by destruct (acc !! sw)|]. rewrite IH. unfold lldp_step. cbn [find_first].
  destruct (pt_SwitchID p =s sw) eqn:Es; [apply String.eqb_eq in Es as <-|].
  - destruct (acc !! pt_SwitchID p) as [l|] eqn:Ea; cbn [is_some]; [by rewrite Ea|].
    destruct (existsb _ _); cbn; [by rewrite lookup_insert_eq|by rewrite Ea].
  - apply String.eqb_neq in Es. destruct (is_some _); [done|]. destruct (existsb _ _); [|done]. by rewrite lookup_insert_ne.
Qed.

Lemma lldpLinks_lookup i h sw : lldpLinks h (in_Hosts i) (access_ports i) !! sw = lldp_link h <$> lldp_port i h sw.
Proof. unfold lldpLinks. by rewrite lldp_fold, lookup_empty. Qed.

Lemma add_cands_lookup cs m sw :
  default [] (foldl add_cand m cs !! sw) = default [] (m !! sw) ++ List.filter (λ c, pt_SwitchID (cd_port c) =s sw) cs.
Proof.
  revert m. induction cs as [|c cs IH]; intros m; cbn [foldl List.filter]; [by rewrite app_nil_r|]. rewrite IH. unfold add_cand.
  destruct (pt_SwitchID (cd_port c) =s sw) eqn:Es.
  - apply String.eqb_eq in Es as <-. rewrite lookup_insert_eq. cbn. by rewrite <- app_assoc.
  - apply String.eqb_neq in Es. by rewrite lookup_insert_ne.
Qed.

(** A candidate as judged for the host. *)
Definition cand_of (h : Host) (p : Port) : cand :=
  {| cd_port := p; cd_count := foreignMACs p h; cd_vlan := default 0 (pt_MACs p !! ht_MAC h) |}.

Lemma switch_cands i h sw :
  lldp_port i h sw = None →
  List.filter (λ c, pt_SwitchID (cd_port c) =s sw)
    (omap (fdb_cand i h (lldpLinks h (in_Hosts i) (access_ports i))) (by_mac (access_ports i) (ht_MAC h))) =
  cand_of h <$> fdb_ports i h sw.
Proof.
  intros Hn. unfold fdb_ports. pose proof (lldpLinks_lookup i h sw) as Hl. rewrite Hn in Hl. cbn in Hl.
  generalize dependent (lldpLinks h (in_Hosts i) (access_ports i)). intros per Hl. unfold by_mac.
  induction (access_ports i) as [|p l IH]; [done|]. cbn [omap list_omap List.filter]. unfold hasMAC at 1.
  destruct (pt_MACs p !! ht_MAC h) as [vlan|] eqn:Ev; cbn [fmap option_fmap option_map is_some]; [|rewrite andb_false_r; exact IH].
  cbn [omap list_omap]. unfold fdb_cand at 1. cbn [cd_port]. rewrite andb_true_r.
  destruct (pt_SwitchID p =s sw) eqn:Es; cbn [andb].
  - apply String.eqb_eq in Es as <-. rewrite Hl. cbn [is_some]. destruct (Z.ltb_spec (in_MaxMACs i) (foreignMACs p h)) as [Hlt|Hle].
    + rewrite (proj2 (Z.leb_gt _ _) Hlt). exact IH.
    + rewrite (proj2 (Z.leb_le _ _) Hle). cbn [List.filter cd_port]. rewrite String.eqb_refl, fmap_cons. unfold cand_of at 1. rewrite Ev. cbn. by rewrite IH.
  - destruct (is_some _); [exact IH|]. destruct (_ <? _); [exact IH|]. cbn [List.filter cd_port]. by rewrite Es.
Qed.

Lemma cand_less_asym x y : cand_less x y = true → cand_less y x = false.
Proof.
  unfold cand_less. rewrite (Z.eqb_sym (cd_count y)). destruct (Z.eqb_spec (cd_count x) (cd_count y)); cbn; [eauto with ipam|].
  rewrite Z.ltb_lt, Z.ltb_ge. lia.
Qed.
Lemma cand_less_trans x y z : cand_less y x = false → cand_less z y = false → cand_less z x = false.
Proof.
  unfold cand_less. destruct (Z.eqb_spec (cd_count y) (cd_count x)), (Z.eqb_spec (cd_count z) (cd_count y)),
    (Z.eqb_spec (cd_count z) (cd_count x)); cbn; rewrite ?Z.ltb_ge; try lia; eauto with ipam.
Qed.
Lemma cand_le_count a b : le_by cand_less a b → cd_count a ≤ cd_count b.
Proof. unfold le_by, cand_less. destruct (Z.eqb_spec (cd_count b) (cd_count a)); cbn; rewrite ?Z.ltb_ge; lia. Qed.

Lemma fdb_link_spec h cs l :
  fdb_link h cs = Some l ↔
  ∃ c rest, cs ≡ₚ c :: rest ∧ Forall (λ c', cd_count c < cd_count c') rest ∧
    l = {| lk_HostIfaceID := ht_IfaceID h; lk_AddressID := ht_AddressID h; lk_SwitchID := pt_SwitchID (cd_port c);
           lk_PortID := pt_PortID (cd_port c); lk_PortName := pt_Name (cd_port c); lk_VLAN := cd_vlan c;
           lk_Source := LinkSNMPFDB; lk_Count := cd_count c; lk_Primary := false |}.
Proof.
  unfold fdb_link. pose proof (sort_by_perm cand_less cs) as Hp. pose proof (sort_by_sorted cand_less cand_less_asym cand_less_trans cs) as Hs.
  destruct (sort_by cand_less cs) as [|c0 rest0].
  { split; [done|]. intros (c & rest & Hc & _). rewrite <- Hp in Hc. by apply Permutation_nil_cons in Hc. }
  apply StronglySorted_inv in Hs as [Hs H0].
  assert (Hle : Forall (λ c', cd_count c0 ≤ cd_count c') rest0) by (eapply Forall_impl; [exact H0|apply cand_le_count]).
  split.
  - intros E. exists c0, rest0. split; [by rewrite Hp|]. destruct rest0 as [|c2 rest0]; [by injection E as <-|].
    destruct (Z.eqb_spec (cd_count c0) (cd_count c2)) as [|Hne]; [done|]. injection E as <-. split; [|done].
    apply Forall_cons in Hle as [Hle2 _]. apply StronglySorted_inv in Hs as [_ H2]. constructor; [lia|].
    eapply Forall_impl; [exact H2|]. intros c' Hc'%cand_le_count. lia.
  - intros (c & rest & Hc & Hlt & ->). rewrite <- Hp in Hc.
    assert (c0 = c) as ->.
    { assert (Hin : c0 ∈ c :: rest) by (rewrite <- Hc; by left). apply elem_of_cons in Hin as [?|Hin]; [done|]. exfalso.
      pose proof (proj1 (Forall_forall _ _) Hlt _ Hin) as Hl1. cbn beta in Hl1.
      assert (Hin' : c ∈ c0 :: rest0) by (rewrite Hc; by left). apply elem_of_cons in Hin' as [->|Hin']; [lia|].
      pose proof (proj1 (Forall_forall _ _) Hle _ Hin') as Hl2. cbn beta in Hl2. lia. }
    apply Permutation_cons_inv in Hc. destruct rest0 as [|c2 rest0]; [done|].
    assert (Hin : c2 ∈ rest) by (rewrite <- Hc; by left). pose proof (proj1 (Forall_forall _ _) Hlt _ Hin) as Hl1. cbn beta in Hl1.
    destruct (Z.eqb_spec (cd_count c) (cd_count c2)); [lia|done].
Qed.

Lemma per_switch_lookup i h sw :
  per_switch i h !! sw = match lldp_port i h sw with
    | Some p => Some (lldp_link h p)
    | None => fdb_link h (cand_of h <$> fdb_ports i h sw)
    end.
Proof.
  unfold per_switch. cbv zeta. rewrite lookup_union, lldpLinks_lookup, lookup_omap.
  set (cs := omap _ _). pose proof (add_cands_lookup cs ∅ sw) as Hc. rewrite lookup_empty in Hc. cbn [default app] in Hc.
  assert (Hb : (foldl add_cand ∅ cs !! sw ≫= fdb_link h) = fdb_link h (default [] (foldl add_cand ∅ cs !! sw))) by (by destruct (foldl add_cand ∅ cs !! sw)).
  rewrite Hb, Hc. destruct (lldp_port i h sw) as [p|] eqn:Ep.
  - generalize (fdb_link h (List.filter (λ c, pt_SwitchID (cd_port c) =s sw) cs)). by intros [].
  - unfold cs. rewrite switch_cands by done. generalize (fdb_link h (cand_of h <$> fdb_ports i h sw)). by intros [].
Qed.

(** The links of the switches are the attachments. *)
Lemma per_switch_attached i h sw l :
  per_switch i h !! sw = Some l → ∃ p src, attached i h p src ∧ is_link h p src l ∧ pt_SwitchID p = sw ∧ lk_Primary l = false.
Proof.
  rewrite per_switch_lookup. destruct (lldp_port i h sw) as [p|] eqn:Ep.
  - intros [= <-]. pose proof Ep as Ep'. unfold lldp_port in Ep'. apply find_first_Some in Ep' as [_ [Hsw _]%andb_true_iff].
    apply String.eqb_eq in Hsw as <-. exists p, LinkLLDP. split; [by constructor|]. by split_and!.
  - intros (c & rest & Hp & Hlt & ->)%fdb_link_spec.
    assert (Hin : c ∈ cand_of h <$> fdb_ports i h sw) by (rewrite Hp; by left). apply list_elem_of_fmap in Hin as (p & -> & Hin).
    assert (Hsw : pt_SwitchID p = sw).
    { apply list_elem_of_In, filter_In in Hin as [_ Hin]. apply andb_true_iff in Hin as [[Hin _]%andb_true_iff _]. by apply String.eqb_eq. }
    destruct (Permutation_map_inv (cand_of h) (fdb_ports i h sw) (symmetry Hp)) as (ps & Hps & Hperm).
    destruct ps as [|p' ps]; [done|]. apply (f_equal (λ l, (cd_port <$> head l, tail l))) in Hps. cbn in Hps. injection Hps as <- Hps.
    exists p, LinkSNMPFDB. split; [|by split_and!]. rewrite <- Hsw in Ep, Hperm. econstructor; [exact Ep|exact Hperm|].
    rewrite Hps in Hlt. apply (Forall_fmap (cand_of h)) in Hlt. exact Hlt.
Qed.

Lemma attached_per_switch i h p src :
  attached i h p src → ∃ l, per_switch i h !! pt_SwitchID p = Some l ∧ is_link h p src l.
Proof.
  intros [q Hq|q rest Hn Hp Hlt]; rewrite per_switch_lookup.
  - rewrite Hq. eexists. split; [done|]. by split_and!.
  - rewrite Hn. assert (Hf : ∃ l, fdb_link h (cand_of h <$> fdb_ports i h (pt_SwitchID q)) = Some l ∧ is_link h q LinkSNMPFDB l);
      [|destruct Hf as (l & -> & Hl); by exists l].
    eexists. split.
    + apply fdb_link_spec. exists (cand_of h q), (cand_of h <$> rest). split_and!; [by rewrite Hp|by apply Forall_fmap|reflexivity].
    + by split_and!.
Qed.

Lemma attached_access i h p src : attached i h p src → p ∈ in_Ports i ∧ facesSwitch i p = false.
Proof.
  intros Ha. assert (Hin : p ∈ access_ports i).
  { destruct Ha as [q Hq|q rest Hn Hp Hlt].
    - by apply find_first_Some in Hq as [? _].
    - assert (Hq : q ∈ fdb_ports i h (pt_SwitchID q)) by (rewrite Hp; by left). by apply list_elem_of_In, filter_In, proj1, list_elem_of_In in Hq. }
  apply list_elem_of_In, filter_In in Hin as [Hin Hf]. rewrite <- list_elem_of_In in Hin. split; [done|by apply negb_true_iff].
Qed.

End proofs.

(** ** The two orders *)

Lemma primaryBefore_order : go_order primaryBefore.
Proof. apply (lex_flag _ (lex_Z _ (lex_str _ (order_str lk_PortID) lk_SwitchID) lk_Count) (λ l, lk_Source l =s LinkLLDP)). Qed.
Lemma link_less_order : go_order link_less.
Proof. apply (lex_str _ (lex_str _ (lex_flag _ (order_str lk_SwitchID) lk_Primary) lk_AddressID) lk_HostIfaceID). Qed.

(** ** One host *)

Section hosts.
Context `{Env}.

Lemma per_switch_key i h sw l : per_switch i h !! sw = Some l → lk_SwitchID l = sw.
Proof. intros (p & src & _ & (_ & _ & -> & _) & <- & _)%per_switch_attached. done. Qed.

Lemma rows_switches i h : NoDup (lk_SwitchID <$> rows (per_switch i h)).
Proof.
  unfold rows. rewrite <- list_fmap_compose.
  assert (E : (lk_SwitchID ∘ snd) <$> map_to_list (per_switch i h) = fst <$> map_to_list (per_switch i h)).
  { apply list_fmap_ext. intros n [sw l] Hn. apply list_elem_of_lookup_2, elem_of_map_to_list, per_switch_key in Hn. done. }
  rewrite E. apply NoDup_fst_map_to_list.
Qed.

(** The links of a host: the primary one, then the others. *)
Lemma host_links_spec i h :
  (rows (per_switch i h) = [] ∧ host_links i h = []) ∨
  ∃ l0 rest, rows (per_switch i h) ≡ₚ l0 :: rest ∧ host_links i h = {| l0 with lk_Primary := true |} :: rest ∧
    Forall (λ l, primaryBefore l0 l = true) rest.
Proof.
  unfold host_links. pose proof (sort_by_perm primaryBefore (rows (per_switch i h))) as Hp.
  pose proof (sort_by_sorted primaryBefore (proj1 primaryBefore_order) (proj2 primaryBefore_order) (rows (per_switch i h))) as Hs.
  destruct (sort_by primaryBefore (rows (per_switch i h))) as [|l0 rest].
  { left. split; [|done]. by apply Permutation_nil. }
  right. exists l0, rest. split_and!; [by rewrite Hp|done|]. apply StronglySorted_inv in Hs as [_ Hs].
  assert (Hnd : NoDup (lk_SwitchID <$> l0 :: rest)) by (rewrite Hp; apply rows_switches). rewrite fmap_cons in Hnd. apply NoDup_cons in Hnd as [Hni _].
  rewrite Forall_forall in Hs |- *. intros l Hl. specialize (Hs l Hl). unfold le_by in Hs.
  assert (Hsw : lk_SwitchID l0 ≠ lk_SwitchID l) by (intros E; apply Hni; rewrite E; by apply list_elem_of_fmap_2).
  revert Hs. unfold primaryBefore. rewrite (Z.eqb_sym (lk_Count l)), (String.eqb_sym (lk_SwitchID l)), (proj2 (String.eqb_neq _ _) Hsw).
  destruct (lk_Source l0 =s LinkLLDP), (lk_Source l =s LinkLLDP); cbn; try done;
    (destruct (Z.eqb_spec (lk_Count l0) (lk_Count l)); cbn; [|rewrite Z.ltb_ge, Z.ltb_lt; lia]);
    (intros Hf; destruct (str_ltb (lk_SwitchID l0) (lk_SwitchID l)) eqn:E; [done|]; by pose proof (str_ltb_total _ _ Hf E)).
Qed.

Definition link_key (l : Link) : string * string := (lk_HostIfaceID l, lk_AddressID l).
Definition host_key (h : Host) : string * string := (ht_IfaceID h, ht_AddressID h).

Lemma host_links_key i h l : l ∈ host_links i h → link_key l = host_key h.
Proof.
  assert (Hr : ∀ l, l ∈ rows (per_switch i h) → link_key l = host_key h).
  { intros l' (sw & Hl)%elem_of_rows. apply per_switch_attached in Hl as (p & src & _ & (E1 & E2 & _) & _). unfold link_key. by rewrite E1, E2. }
  destruct (host_links_spec i h) as [[_ ->]|(l0 & rest & Hp & -> & _)]; [by intros ?%elem_of_nil|].
  intros [->|Hl]%elem_of_cons; [change (link_key l0 = host_key h)|]; apply Hr; rewrite Hp; [by left|by right].
Qed.

(** The ranked links of one host. *)
Definition ranked_for (i : Input) (h : Host) : list Link :=
  List.filter (λ l, (lk_HostIfaceID l =s ht_IfaceID h) && (lk_AddressID l =s ht_AddressID h)) (Rank i).

Lemma concat_links i h hs :
  NoDup (host_key <$> hs) → h ∈ hs →
  List.filter (λ l, (lk_HostIfaceID l =s ht_IfaceID h) && (lk_AddressID l =s ht_AddressID h)) (concat (host_links i <$> hs)) = host_links i h.
Proof.
  assert (Hsel : ∀ h', host_key h' = host_key h → List.filter (λ l, (lk_HostIfaceID l =s ht_IfaceID h) && (lk_AddressID l =s ht_AddressID h)) (host_links i h') = host_links i h').
  { intros h' E. apply forallb_filter_id, forallb_forall. intros l Hl%list_elem_of_In%host_links_key. unfold link_key, host_key in *.
    rewrite E in Hl. injection Hl as -> ->. by rewrite !String.eqb_refl. }
  assert (Hnone : ∀ hs, host_key h ∉ (host_key <$> hs) →
    List.filter (λ l, (lk_HostIfaceID l =s ht_IfaceID h) && (lk_AddressID l =s ht_AddressID h)) (concat (host_links i <$> hs)) = []).
  { clear Hsel hs. intros hs. induction hs as [|h' hs IH]; intros Hn; [done|]. cbn. rewrite List.filter_app. rewrite fmap_cons, not_elem_of_cons in Hn. destruct Hn as [Hne Hn].
    rewrite IH by done. rewrite app_nil_r. destruct (List.filter _ (host_links i h')) as [|l ls] eqn:E; [done|]. exfalso.
    assert (Hl : l ∈ List.filter (λ l, (lk_HostIfaceID l =s ht_IfaceID h) && (lk_AddressID l =s ht_AddressID h)) (host_links i h')) by (rewrite E; by left).
    apply list_elem_of_In, filter_In in Hl as [Hl [E1%String.eqb_eq E2%String.eqb_eq]%andb_true_iff]. apply list_elem_of_In, host_links_key in Hl.
    apply Hne. rewrite <- Hl. unfold link_key, host_key. by rewrite E1, E2. }
  induction hs as [|h' hs IH]; intros Hnd Hin; [by apply elem_of_nil in Hin|]. cbn. rewrite List.filter_app. rewrite fmap_cons in Hnd. apply NoDup_cons in Hnd as [Hn Hnd].
  apply elem_of_cons in Hin as [->|Hin].
  - rewrite Hsel, Hnone by done. by rewrite app_nil_r.
  - rewrite IH by done. destruct (List.filter _ (host_links i h')) as [|l ls] eqn:E; [done|]. exfalso.
    assert (Hl : l ∈ List.filter (λ l, (lk_HostIfaceID l =s ht_IfaceID h) && (lk_AddressID l =s ht_AddressID h)) (host_links i h')) by (rewrite E; by left).
    apply list_elem_of_In, filter_In in Hl as [Hl [E1%String.eqb_eq E2%String.eqb_eq]%andb_true_iff]. apply list_elem_of_In, host_links_key in Hl.
    apply Hn. rewrite <- Hl. unfold link_key. rewrite E1, E2. by apply (list_elem_of_fmap_2 host_key).
Qed.

Lemma filter_perm {A} (f : A → bool) l1 l2 : l1 ≡ₚ l2 → List.filter f l1 ≡ₚ List.filter f l2.
Proof.
  induction 1 as [|x l1 l2 _ IH|x y l|l1 l2 l3 _ IH1 _ IH2]; cbn; [done| | |by transitivity (List.filter f l2)].
  - destruct (f x); [by constructor|done].
  - destruct (f x), (f y); try done. apply perm_swap.
Qed.

Lemma filter_sorted {A} (R : A → A → Prop) (f : A → bool) l : StronglySorted R l → StronglySorted R (List.filter f l).
Proof.
  induction 1 as [|x l Hl IH Hx]; cbn; [constructor|]. destruct (f x); [|done]. constructor; [done|].
  rewrite Forall_forall in Hx |- *. intros y Hy. apply Hx. apply list_elem_of_In, filter_In in Hy as [Hy _]. by apply list_elem_of_In.
Qed.

Lemma ranked_shape i h :
  NoDup (host_key <$> in_Hosts i) → h ∈ in_Hosts i →
  (rows (per_switch i h) = [] ∧ ranked_for i h = []) ∨
  ∃ l0 rest, rows (per_switch i h) ≡ₚ l0 :: rest ∧ ranked_for i h = {| l0 with lk_Primary := true |} :: rest ∧
    Forall (λ l, primaryBefore l0 l = true) rest.
Proof.
  intros Hnd Hin. assert (Hp : ranked_for i h ≡ₚ host_links i h).
  { unfold ranked_for, Rank. rewrite (filter_perm _ _ _ (sort_by_perm link_less _)). by rewrite concat_links. }
  assert (Hs : StronglySorted (le_by link_less) (ranked_for i h)).
  { apply filter_sorted, sort_by_sorted; apply link_less_order. }
  destruct (host_links_spec i h) as [[Hr E]|(l0 & rest & Hr & E & Hb)]; rewrite E in Hp.
  { left. split; [done|]. by apply Permutation_nil. }
  right. destruct (ranked_for i h) as [|x xs] eqn:Er; [by apply Permutation_nil_cons in Hp|].
  apply StronglySorted_inv in Hs as [_ Hs]. set (l1 := {| l0 with lk_Primary := true |}) in *.
  assert (Hnp : ∀ l, l ∈ rest → lk_Primary l = false).
  { intros l Hl. assert (Hrow : l ∈ rows (per_switch i h)) by (rewrite Hr; by right). apply elem_of_rows in Hrow as [sw Hsw].
    by apply per_switch_attached in Hsw as (_ & _ & _ & _ & _ & ?). }
  assert (x = l1) as ->.
  { assert (Hx : x ∈ l1 :: rest) by (rewrite <- Hp; by left). apply elem_of_cons in Hx as [?|Hx]; [done|]. exfalso.
    assert (H1 : l1 ∈ x :: xs) by (rewrite Hp; by left). apply elem_of_cons in H1 as [E1|H1]; [specialize (Hnp x Hx); rewrite <- E1 in Hnp; done|].
    rewrite Forall_forall in Hs. specialize (Hs l1 H1). unfold le_by, link_less in Hs.
    assert (K1 : link_key l1 = host_key h) by (apply (host_links_key i h); rewrite E; by left).
    assert (Kx : link_key x = host_key h) by (apply (host_links_key i h); rewrite E; by right).
    rewrite <- Kx in K1. pose proof (f_equal fst K1) as E1. pose proof (f_equal snd K1) as E2. cbn [fst snd link_key] in E1, E2.
    rewrite E1, E2, !String.eqb_refl, (Hnp x Hx) in Hs. done. }
  apply Permutation_cons_inv in Hp. exists l0, xs. split_and!; [by rewrite Hr, Hp|done|by rewrite Hp].
Qed.

(** C18: the port ranking, for every host of the input: its links are exactly
    its attachments, per switch the first access port whose LLDP neighbour is
    the host, else the one access port that learned its MAC with strictly the
    fewest foreign MACs and at most the bound, and nothing on a tie; a port
    facing another switch is never linked; there is at most one link per
    switch; and the first link, and only it, is primary: an LLDP link if there
    is one, else the one with the fewest MACs. *)
Theorem Rank_exact i h :
  NoDup (host_key <$> in_Hosts i) → h ∈ in_Hosts i →
  (∀ p src, attached i h p src → ∃ l, l ∈ ranked_for i h ∧ is_link h p src l) ∧
  (∀ l, l ∈ ranked_for i h → ∃ p src, attached i h p src ∧ is_link h p src l ∧ p ∈ in_Ports i ∧ facesSwitch i p = false) ∧
  NoDup (lk_SwitchID <$> ranked_for i h) ∧
  match ranked_for i h with
  | [] => True
  | l0 :: rest => lk_Primary l0 = true ∧ Forall (λ l, lk_Primary l = false ∧ primaryBefore l0 l = true) rest
  end.
Proof.
  intros Hnd Hin. pose proof (rows_switches i h) as Hsw.
  assert (Hatt : ∀ l, l ∈ rows (per_switch i h) → ∃ p src, attached i h p src ∧ is_link h p src l ∧ p ∈ in_Ports i ∧ facesSwitch i p = false ∧ lk_Primary l = false).
  { intros l (sw & Hl)%elem_of_rows. apply per_switch_attached in Hl as (p & src & Ha & Hl & _ & Hp). destruct (attached_access _ _ _ _ Ha). by exists p, src. }
  assert (Hrow : ∀ p src, attached i h p src → ∃ l, l ∈ rows (per_switch i h) ∧ is_link h p src l).
  { intros p src (l & Hl & Hi)%attached_per_switch. exists l. split; [|done]. apply elem_of_rows. by exists (pt_SwitchID p). }
  destruct (ranked_shape i h Hnd Hin) as [[E ->]|(l0 & rest & Hp & -> & Hb)]; [rewrite E in *|setoid_rewrite Hp in Hrow; setoid_rewrite Hp in Hatt; rewrite Hp in Hsw].
  - split_and!; [|by intros l ?%elem_of_nil|constructor|done]. intros p src (l & Hl & _)%Hrow. by apply elem_of_nil in Hl.
  - split_and!; [| |exact Hsw|done|].
    + intros p src (l & [->|Hl]%elem_of_cons & Hi)%Hrow; [exists {| l0 with lk_Primary := true |}; split; [by left|exact Hi]|exists l; split; [by right|exact Hi]].
    + intros l [->|Hl]%elem_of_cons; [destruct (Hatt l0 ltac:(by left)) as (p & src & Ha & Hi & ? & ? & _)
        |destruct (Hatt l ltac:(by right)) as (p & src & Ha & Hi & ? & ? & _)]; by exists p, src.
    + rewrite Forall_forall in Hb |- *. intros l Hl. split; [|by apply Hb]. destruct (Hatt l ltac:(by right)) as (_ & _ & _ & _ & _ & _ & ?). done.
Qed.
End hosts.
