(* ===== verification/CorrelateProps.v ===== *)
(** * What a correlation leaves in the store

    [Correlate] always returns when no store method fails; it rewrites the link
    columns and the per-switch link sets of the tenant's host interfaces and
    addresses as the ranking says and nothing else. *)

From S2P Require Import Prelude GoNet Models Store Hostreport MemNet MemDev MemScan HostTx MemInv HostTxProps AddressProps StoreProps AuditLog HostPlan HostPlanProps PortLink PortLinkProps.

(** ** Specification *)

Section spec.
Context (staleAge : Z) (t : Time).

(** The links of a host after a ranking: the ranked ones, then the former
    links of switches not ranked this time that are not stale. *)
Definition kept_links (ls : list Link) (cur : list HostSwitchLink) : list HostSwitchLink :=
  List.filter (λ e, negb (existsb (λ l, lk_SwitchID l =s hl_SwitchID e) ls) && negb (expired staleAge (hl_LastSeen e) t)) cur.
Definition new_links (ls : list Link) (cur : list HostSwitchLink) : list HostSwitchLink :=
  (set_link t <$> ls) ++ ((λ e, {| e with hl_Primary := false |}) <$> kept_links ls cur).
Definition set_changes (ls : list Link) (cur : list HostSwitchLink) : bool :=
  negb (is_nil ls) || existsb (λ e, expired staleAge (hl_LastSeen e) t) cur.

(** The flat link of an interface: confirmed, replaced, cleared when stale,
    else kept. *)
Definition iface_stale (i : DeviceInterface) : bool :=
  negb (is_empty (di_RemoteInterfaceID i)) && ((di_LinkSource i =s LinkSNMPFDB) || (di_LinkSource i =s LinkLLDP)) &&
  expired staleAge (di_LinkLastSeen i) t.
Definition iface_linked (ls : list Link) (i : DeviceInterface) : DeviceInterface :=
  match ls with
  | l :: _ =>
      if (di_RemoteInterfaceID i =s lk_PortID l) && (di_LinkSource i =s lk_Source l) && (di_LinkVlan i =? lk_VLAN l)
      then {| i with di_LinkLastSeen := Some t |}
      else {| i with di_RemoteDeviceID := lk_SwitchID l; di_RemoteInterfaceID := lk_PortID l; di_RemotePortName := lk_PortName l;
              di_LinkSource := lk_Source l; di_LinkVlan := lk_VLAN l; di_LinkLastSeen := Some t |}
  | [] => if iface_stale i
          then {| i with di_RemoteDeviceID := ""; di_RemoteInterfaceID := ""; di_RemotePortName := ""; di_LinkSource := "";
                  di_LinkVlan := 0; di_LinkLastSeen := None |}
          else i
  end.
Definition iface_written (ls : list Link) (i : DeviceInterface) : bool := iface_stale i || set_changes ls (di_Links i).

(** The link of an address, likewise. *)
Definition addr_stale (a : IPAddress) : bool := match ad_Link a with Some cur => expired staleAge (al_LastSeen cur) t | None => false end.
Definition addr_linked (ls : list Link) (a : IPAddress) : option AddressLink :=
  match ls, ad_Link a with
  | l :: _, Some cur =>
      if (al_PortID cur =s lk_PortID l) && (al_Source cur =s lk_Source l) && (al_VLAN cur =? lk_VLAN l)
      then Some {| cur with al_LastSeen := Some t |} else Some (addr_link t l)
  | l :: _, None => Some (addr_link t l)
  | [], cur => if addr_stale a then None else cur
  end.
Definition addr_written (ls : list Link) (a : IPAddress) : bool := addr_stale a || set_changes ls (ad_Links a).
End spec.

(** ** Planning the writes *)

(** Only identifiers were drawn. *)
Definition drawn (w w' : World) : Prop :=
  w_mem w' = w_mem w ∧ w_events w' = w_events w ∧ w_ticks w' = w_ticks w ∧ (w_ids w ≤ w_ids w')%nat.
#[export] Instance drawn_refl : Reflexive drawn.
Proof. by intros w. Qed.
#[export] Instance drawn_trans : Transitive drawn.
Proof. intros w1 w2 w3 (E1 & E2 & E3 & L1) (F1 & F2 & F3 & L2). split_and!; try congruence. lia. Qed.

Section plan.
Context `{Env} (staleAge : Z) (tenantID : string).

Lemma subjectRow_run t0 kind id detail at_ w :
  ∃ w' row, subjectRow tenantID t0 kind id detail at_ w = (w', Ok row) ∧ drawn w w'.
Proof.
  unfold subjectRow. assert (Hd : draws (Row {| e_TenantID := tenantID; e_EventType := t0; e_ActorKind := ActorSystem; e_ActorID := HostSyncActor;
    e_SubjectKind := kind; e_SubjectID := id; e_Target := ""; e_Outcome := OutcomeOK; e_Reason := ""; e_Details := detail |} at_)).
  { unfold Row. destruct (Validate _); [|apply draws_ret]. apply draws_bind; [apply draws_newID|intros ?; apply draws_ret]. }
  destruct (Hd w) as (w' & res & E & Hm & He & Ht & Hi). rewrite (bind_Ok _ _ _ _ _ E). by eexists w', _.
Qed.

Section merge.
Context (kind id oldP newP : string) (t : Time).

Lemma unlink_run e reason s w :
  ∃ w' s', unlink tenantID kind id oldP t e reason s w = (w', Ok s') ∧ drawn w w' ∧ mg_set s' = mg_set s ∧ mg_existing s' = mg_existing s ∧
    mg_changed s' = true.
Proof.
  unfold unlink. cbv zeta. destruct (_ =s _); [by eexists w, _|].
  destruct (subjectRow_run PortUnlinked kind id (unlinked_detail reason (hl_PortID e) ++ secondary) t w) as (w' & row & E & Hd).
  rewrite (bind_Ok _ _ _ _ _ E). by eexists w', _.
Qed.

Lemma merge_ranked_run s l w :
  ∃ w' s', merge_ranked tenantID kind id oldP newP t s l w = (w', Ok s') ∧ drawn w w' ∧ mg_set s' = mg_set s ++ [set_link t l] ∧
    mg_existing s' = delete (lk_SwitchID l) (mg_existing s) ∧ mg_changed s' = true.
Proof.
  unfold merge_ranked. cbv zeta. set (s0 := {| s with mg_changed := true; mg_existing := _ |}).
  set (same := match mg_existing s !! lk_SwitchID l with Some e => _ | None => false end).
  assert (H1 : ∃ w1 s1, (match mg_existing s !! lk_SwitchID l with
      | Some e => if hl_PortID e =s lk_PortID l then mret s0 else unlink tenantID kind id oldP t e "superseded" s0 | None => mret s0 end) w = (w1, Ok s1) ∧
      drawn w w1 ∧ mg_set s1 = mg_set s ∧ mg_existing s1 = delete (lk_SwitchID l) (mg_existing s) ∧ mg_changed s1 = true).
  { destruct (mg_existing s !! lk_SwitchID l) as [e|]; [|by exists w, s0]. destruct (_ =s _); [by exists w, s0|].
    destruct (unlink_run e "superseded" s0 w) as (w1 & s1 & E & ? & ? & ? & ?). by exists w1, s1. }
  destruct H1 as (w1 & s1 & E1 & D1 & S1 & X1 & C1). rewrite (bind_Ok _ _ _ _ _ E1).
  destruct (negb same && negb (lk_PortID l =s newP)).
  - destruct (subjectRow_run PortLinked kind id (linked_detail l ++ secondary) t w1) as (w2 & row & E2 & D2).
    eexists w2, _. split; [rewrite (bind_Ok _ _ w1 w2 {| s1 with mg_rows := mg_rows s1 ++ [row] |}); [reflexivity|]; by rewrite (bind_Ok _ _ _ _ _ E2)|].
    split; [by transitivity w1|]. cbn. by rewrite S1.
  - eexists w1, _. split; [reflexivity|]. cbn. by rewrite S1.
Qed.

Lemma merge_all_ranked ls s w :
  ∃ w' s', foldM (merge_ranked tenantID kind id oldP newP t) s ls w = (w', Ok s') ∧ drawn w w' ∧ mg_set s' = mg_set s ++ (set_link t <$> ls) ∧
    (∀ sw, mg_existing s' !! sw = if existsb (λ l, lk_SwitchID l =s sw) ls then None else mg_existing s !! sw) ∧
    mg_changed s' = mg_changed s || negb (is_nil ls).
Proof.
  revert s w. induction ls as [|l ls IH]; intros s w; cbn [foldM].
  { exists w, s. split_and!; try done; [by rewrite app_nil_r|by rewrite orb_false_r]. }
  destruct (merge_ranked_run s l w) as (w1 & s1 & E1 & D1 & S1 & X1 & C1). rewrite (bind_Ok _ _ _ _ _ E1).
  destruct (IH s1 w1) as (w2 & s2 & E2 & D2 & S2 & X2 & C2). exists w2, s2. split_and!; [done|by transitivity w1| | |].
  - by rewrite S2, S1, <- app_assoc.
  - intros sw. rewrite X2, X1. cbn. destruct (lk_SwitchID l =s sw) eqn:E; cbn.
    + apply String.eqb_eq in E as <-. rewrite lookup_delete_eq. by destruct (existsb _ _).
    + apply String.eqb_neq in E. by rewrite lookup_delete_ne.
  - rewrite C2, C1. by rewrite orb_true_r.
Qed.

Lemma merge_all_current cur s w :
  ∃ w' s', foldM (merge_current staleAge tenantID kind id oldP t) s cur w = (w', Ok s') ∧ drawn w w' ∧
    mg_set s' = mg_set s ++ ((λ e, {| e with hl_Primary := false |}) <$>
      List.filter (λ e, is_some (mg_existing s !! hl_SwitchID e) && negb (expired staleAge (hl_LastSeen e) t)) cur) ∧
    mg_changed s' = mg_changed s || existsb (λ e, is_some (mg_existing s !! hl_SwitchID e) && expired staleAge (hl_LastSeen e) t) cur.
Proof.
  revert s w. induction cur as [|e cur IH]; intros s w; cbn [foldM].
  { exists w, s. split_and!; try done; [by rewrite app_nil_r|by rewrite orb_false_r]. }
  assert (H1 : ∃ w1 s1, merge_current staleAge tenantID kind id oldP t s e w = (w1, Ok s1) ∧ drawn w w1 ∧ mg_existing s1 = mg_existing s ∧
    mg_set s1 = mg_set s ++ (if is_some (mg_existing s !! hl_SwitchID e) && negb (expired staleAge (hl_LastSeen e) t) then [{| e with hl_Primary := false |}] else []) ∧
    mg_changed s1 = mg_changed s || (is_some (mg_existing s !! hl_SwitchID e) && expired staleAge (hl_LastSeen e) t)).
  { unfold merge_current. destruct (is_some _); cbn [negb andb].
    - destruct (expired _ _ _); cbn [negb].
      + destruct (unlink_run e "stale" s w) as (w1 & s1 & E & D & S1 & X1 & C1). exists w1, s1. rewrite S1, C1, app_nil_r, orb_true_r. by split_and!.
      + eexists w, _. split; [reflexivity|]. cbn. by rewrite orb_false_r.
    - exists w, s. rewrite app_nil_r, orb_false_r. by split_and!. }
  destruct H1 as (w1 & s1 & E1 & D1 & X1 & S1 & C1). rewrite (bind_Ok _ _ _ _ _ E1).
  destruct (IH s1 w1) as (w2 & s2 & E2 & D2 & S2 & C2). exists w2, s2. split_and!; [done|by transitivity w1| |].
  - rewrite S2, S1, X1, <- app_assoc. cbn [List.filter]. destruct (_ && _); [|done]. by rewrite fmap_cons.
  - rewrite C2, C1, X1. cbn [existsb]. by rewrite orb_assoc.
Qed.

Lemma index_links_some cur e : e ∈ cur → is_some (foldl (λ m e, <[hl_SwitchID e := e]> m) (∅ : gmap string HostSwitchLink) cur !! hl_SwitchID e) = true.
Proof.
  assert (Hk : ∀ cur (m : gmap string HostSwitchLink) sw, is_some (m !! sw) = true → is_some (foldl (λ m e, <[hl_SwitchID e := e]> m) m cur !! sw) = true).
  { intros l. induction l as [|x l IH]; intros m sw Hm; cbn; [done|]. apply IH. destruct (decide (hl_SwitchID x = sw)) as [<-|Hne]; [by rewrite lookup_insert_eq|by rewrite lookup_insert_ne]. }
  generalize (∅ : gmap string HostSwitchLink). induction cur as [|x cur IH]; intros m Hin; [by apply elem_of_nil in Hin|]. cbn.
  apply elem_of_cons in Hin as [->|Hin]; [apply Hk; by rewrite lookup_insert_eq|by apply IH].
Qed.

Lemma filter_ext_in_bool {A} (f g : A → bool) l : (∀ x, x ∈ l → f x = g x) → List.filter f l = List.filter g l.
Proof. intros E. apply filter_ext_in. intros x Hx. apply E. by apply list_elem_of_In. Qed.

(** The merged set is what the specification says. *)
Lemma mergeSet_run cur ls w :
  ∃ w' s', mergeSet staleAge tenantID kind id oldP newP t cur ls w = (w', Ok s') ∧ drawn w w' ∧ mg_set s' = new_links staleAge t ls cur ∧
    mg_changed s' = set_changes staleAge t ls cur.
Proof.
  unfold mergeSet. set (s0 := {| mg_existing := _ |}).
  destruct (merge_all_ranked ls s0 w) as (w1 & s1 & E1 & D1 & S1 & X1 & C1). rewrite (bind_Ok _ _ _ _ _ E1).
  destruct (merge_all_current cur s1 w1) as (w2 & s2 & E2 & D2 & S2 & C2). exists w2, s2.
  assert (Hex : ∀ e, e ∈ cur → is_some (mg_existing s1 !! hl_SwitchID e) = negb (existsb (λ l, lk_SwitchID l =s hl_SwitchID e) ls)).
  { intros e He. rewrite X1. destruct (existsb (λ l, lk_SwitchID l =s hl_SwitchID e) ls); [reflexivity|]. cbn [negb]. by apply index_links_some. }
  split_and!; [done|by transitivity w1| |].
  - rewrite S2, S1. change (mg_set s0) with (@nil HostSwitchLink). cbn [app]. unfold new_links, kept_links. do 2 f_equal. apply filter_ext_in_bool.
    intros e He. by rewrite Hex.
  - rewrite C2, C1. unfold set_changes. change (mg_changed s0) with false. destruct ls as [|l ls]; cbn [is_nil negb orb]; [|done].
    clear -Hex. induction cur as [|e cur IH]; [done|]. cbn. rewrite Hex by (by left). cbn. f_equal. apply IH. intros e' He'. apply Hex. by right.
Qed.
End merge.

Lemma append_if {X} (b : bool) (l : list X) x : (if b then l ++ [x] else l) = l ++ option_list (if b then Some x else None).
Proof. destruct b; cbn; [done|]. by rewrite app_nil_r. Qed.

(** A fold that may append a written row per element. *)
Lemma plan_fold {X} (step : list X * list AuditRow → X → M (list X * list AuditRow)) (out : X → option X) l :
  (∀ acc x w, x ∈ l → ∃ w' r, step acc x w = (w', Ok (fst acc ++ option_list (out x), r)) ∧ drawn w w') →
  ∀ acc w, ∃ w' r, foldM step acc l w = (w', Ok (fst acc ++ omap out l, r)) ∧ drawn w w'.
Proof.
  induction l as [|x l IH]; intros Hs acc w; cbn [foldM omap].
  { exists w, (snd acc). cbn. rewrite app_nil_r. by destruct acc. }
  destruct (Hs acc x w) as (w1 & r1 & E1 & D1); [by left|]. rewrite (bind_Ok _ _ _ _ _ E1).
  destruct (IH (λ acc x w Hx, Hs acc x w (list_elem_of_further _ _ _ Hx)) (fst acc ++ option_list (out x), r1) w1) as (w2 & r2 & E2 & D2).
  exists w2, r2. split; [|by transitivity w1]. rewrite E2. cbn. rewrite <- app_assoc. by destruct (out x).
Qed.

Section rows.
Context (t : Time).

Lemma flat_iface_run i ls w :
  ∃ w' rows_, flat_iface staleAge tenantID t i ls w =
    (w', Ok (iface_linked staleAge t ls i, rows_, negb (is_nil ls) || iface_stale staleAge t i)) ∧ drawn w w'.
Proof.
  unfold flat_iface, iface_linked, iface_stale. cbv zeta. destruct ls as [|l ls]; cbn [is_nil negb orb].
  - destruct (_ && _ && _); [|by eexists w, _].
    edestruct subjectRow_run as (w1 & row & E & D). rewrite (bind_Ok _ _ _ _ _ E). by eexists w1, _.
  - destruct (_ && _ && _); [by eexists w, _|].
    set (un := if is_empty _ then _ else _).
    assert (Hun : ∃ w1 rs, un w = (w1, Ok rs) ∧ drawn w w1).
    { unfold un. destruct (is_empty _); [by eexists w, _|].
      edestruct subjectRow_run as (w1 & row & E & D). rewrite (bind_Ok _ _ _ _ _ E). by eexists w1, _. }
    destruct Hun as (w1 & rs & E1 & D1). rewrite (bind_Ok _ _ _ _ _ E1).
    edestruct subjectRow_run as (w2 & row & E2 & D2). rewrite (bind_Ok _ _ _ _ _ E2). eexists w2, _. split; [done|]. by transitivity w1.
Qed.

Definition iface_out (byIface : string → list Link) (i : DeviceInterface) : option DeviceInterface :=
  let ls := byIface (di_ID i) in
  if iface_written staleAge t ls i then Some (let j := iface_linked staleAge t ls i in {| j with di_Links := new_links staleAge t ls (di_Links i) |}) else None.

Lemma iface_step_run byIface acc i w :
  ∃ w' r, iface_step staleAge tenantID t byIface acc i w = (w', Ok (fst acc ++ option_list (iface_out byIface i), r)) ∧ drawn w w'.
Proof.
  destruct acc as [changed rows_]. unfold iface_step, iface_out, iface_written. cbv zeta. cbn [fst].
  destruct (flat_iface_run i (byIface (di_ID i)) w) as (w1 & fr & E1 & D1). rewrite (bind_Ok _ _ _ _ _ E1).
  edestruct mergeSet_run as (w2 & s & E2 & D2 & S2 & C2). rewrite (bind_Ok _ _ _ _ _ E2). rewrite S2, C2. unfold set_changes.
  eexists w2, _. split; [|by transitivity w1]. rewrite append_if. do 4 f_equal.
  destruct (byIface (di_ID i)) as [|l ls]; cbn [is_nil negb orb]; [done|]. by rewrite orb_true_r.
Qed.

Lemma flat_addr_run a ls w :
  ∃ w' rows_, flat_addr staleAge tenantID t a ls w =
    (w', Ok (addr_linked staleAge t ls a, rows_, negb (is_nil ls) || addr_stale staleAge t a)) ∧ drawn w w'.
Proof.
  unfold flat_addr, addr_linked, addr_stale. cbv zeta. destruct ls as [|l ls]; cbn [is_nil negb orb].
  - destruct (ad_Link a) as [cur|]; [|by eexists w, _]. destruct (expired _ _ _); [|by eexists w, _].
    edestruct subjectRow_run as (w1 & row & E & D). rewrite (bind_Ok _ _ _ _ _ E). by eexists w1, _.
  - destruct (ad_Link a) as [cur|].
    + destruct (_ && _ && _); [by eexists w, _|].
      edestruct subjectRow_run as (w1 & row & E & D). rewrite (bind_Ok _ _ _ _ _ E).
      edestruct subjectRow_run as (w2 & row2 & E2 & D2). rewrite (bind_Ok _ _ _ _ _ E2). eexists w2, _. split; [done|]. by transitivity w1.
    + edestruct subjectRow_run as (w1 & row & E & D). rewrite (bind_Ok _ _ _ _ _ E). by eexists w1, _.
Qed.

Definition addr_out (links : IPAddress → list Link) (a : IPAddress) : option IPAddress :=
  let ls := links a in
  if addr_written staleAge t ls a then Some {| a with ad_Link := addr_linked staleAge t ls a; ad_Links := new_links staleAge t ls (ad_Links a) |} else None.

Lemma addr_step_run byAddr byMAC acc a w :
  ∃ w' r, addr_step staleAge tenantID t byAddr byMAC acc a w = (w', Ok (fst acc ++ option_list (addr_out (addr_links byAddr byMAC) a), r)) ∧ drawn w w'.
Proof.
  destruct acc as [changed rows_]. unfold addr_step, addr_out, addr_written. cbv zeta. cbn [fst].
  destruct (flat_addr_run a (addr_links byAddr byMAC a) w) as (w1 & fr & E1 & D1). rewrite (bind_Ok _ _ _ _ _ E1).
  edestruct mergeSet_run as (w2 & s & E2 & D2 & S2 & C2). rewrite (bind_Ok _ _ _ _ _ E2). rewrite S2, C2. unfold set_changes.
  eexists w2, _. split; [|by transitivity w1]. rewrite append_if. do 4 f_equal.
  destruct (addr_links byAddr byMAC a) as [|l ls]; cbn [is_nil negb orb]; [done|]. by rewrite orb_true_r.
Qed.
End rows.
End plan.

(** ** Writing the links *)

(** The stored form of a link: the switch name and the primary flag are
    derived when the set is read. *)
Definition stored_link (l : HostSwitchLink) : HostSwitchLink := {| l with hl_SwitchName := ""; hl_Primary := false |}.

Definition put_links (k : hostKey) (ls : list HostSwitchLink) (hl : gmap hostKey (list HostSwitchLink)) : gmap hostKey (list HostSwitchLink) :=
  match ls with [] => delete k hl | _ => <[k := stored_link <$> ls]> hl end.

Lemma put_links_eq k ls hl : default [] (put_links k ls hl !! k) = stored_link <$> ls.
Proof. destruct ls; cbn [put_links]; [by rewrite lookup_delete_eq|by rewrite lookup_insert_eq]. Qed.
Lemma put_links_ne k k' ls hl : k ≠ k' → put_links k ls hl !! k' = hl !! k'.
Proof. intros Hne. destruct ls; cbn [put_links]; [by rewrite lookup_delete_ne|by rewrite lookup_insert_ne]. Qed.

Lemma new_links_seen staleAge t ls cur : Forall (λ l, is_Some (hl_LastSeen l)) (new_links staleAge t ls cur).
Proof.
  unfold new_links, kept_links. apply Forall_app. split; apply Forall_fmap, Forall_forall; [by intros; eexists|]. intros e He.
  apply list_elem_of_In, filter_In in He as [_ He]. cbn. destruct (hl_LastSeen e); [by eexists|]. cbn in He. by rewrite andb_false_r in He.
Qed.

Section write.
Context `{Env} (tenantID : string).

Lemma stamp_links_seen ls w : Forall (λ l, is_Some (hl_LastSeen l)) ls → stamp_links ls w = (w, Ok (stored_link <$> ls)).
Proof.
  intros Hs. induction Hs as [|l ls [s Hl] _ IH]; [done|]. cbn [stamp_links]. rewrite Hl.
  unfold mbind at 1, M_bind at 1. cbn [mret M_ret]. rewrite (bind_Ok _ _ _ _ _ IH). rewrite fmap_cons. unfold stored_link at 3. by rewrite <- Hl.
Qed.

Lemma setHostLinks_run kind id ls w :
  Forall (λ l, is_Some (hl_LastSeen l)) ls →
  setHostLinksLocked tenantID kind id ls w =
    (let m := w_mem w in {| w with w_mem := {| m with mem_hostLinks := put_links (tenantID, kind, id) ls (mem_hostLinks m) |} |}, Ok ()).
Proof. intros Hs. unfold setHostLinksLocked. destruct ls as [|l ls]; [done|]. by rewrite (bind_Ok _ _ _ _ _ (stamp_links_seen _ w Hs)). Qed.

(** Rows written one after the other, each under its own key. *)
Section loop.
Context {X V : Type} (f : X → M ()) (tbl : Mem → gmap string V) (key : X → string) (upd : X → V → Time → V) (links : X → list HostSwitchLink).
Context (kind : string) (frame : Mem → Mem → Prop) `{!PreOrder frame}.

Definition writes (x : X) : Prop := ∀ w cur, tbl (w_mem w) !! key x = Some cur →
  ∃ w' u, f x w = (w', Ok ()) ∧ tbl (w_mem w') = <[key x := upd x cur u]> (tbl (w_mem w)) ∧
    mem_hostLinks (w_mem w') = put_links (tenantID, kind, key x) (links x) (mem_hostLinks (w_mem w)) ∧ frame (w_mem w) (w_mem w').

Lemma write_loop xs w :
  Forall writes xs → NoDup (key <$> xs) → Forall (λ x, is_Some (tbl (w_mem w) !! key x)) xs →
  ∃ w', mapM_ f xs w = (w', Ok ()) ∧ frame (w_mem w) (w_mem w') ∧
    (∀ x cur, x ∈ xs → tbl (w_mem w) !! key x = Some cur → ∃ u, tbl (w_mem w') !! key x = Some (upd x cur u) ∧
       default [] (mem_hostLinks (w_mem w') !! (tenantID, kind, key x)) = stored_link <$> links x) ∧
    (∀ k, k ∉ key <$> xs → tbl (w_mem w') !! k = tbl (w_mem w) !! k) ∧
    (∀ k, k ∉ (λ x, (tenantID, kind, key x)) <$> xs → mem_hostLinks (w_mem w') !! k = mem_hostLinks (w_mem w) !! k).
Proof.
  revert w. induction xs as [|x xs IH]; intros w Hw Hnd Hin; cbn [mapM_].
  { exists w. split_and!; try done. by intros x cur ?%elem_of_nil. }
  apply Forall_cons in Hw as [Hx Hw]. apply Forall_cons in Hin as [[cur Hc] Hin].
  rewrite fmap_cons in Hnd. apply NoDup_cons in Hnd as [Hnx Hnd].
  destruct (Hx w cur Hc) as (w1 & u & E1 & T1 & L1 & F1). rewrite (bind_Ok _ _ _ _ _ E1).
  assert (Hne : ∀ y, y ∈ xs → key x ≠ key y). { intros y Hy E. apply Hnx. rewrite E. by apply list_elem_of_fmap_2. }
  destruct (IH w1 Hw Hnd) as (w2 & E2 & F2 & R2 & K2 & L2).
  { apply Forall_forall. intros y Hy. rewrite T1, lookup_insert_ne by auto. by rewrite Forall_forall in Hin; apply Hin. }
  exists w2. split_and!; [done|by etrans| | |].
  - intros y c Hy Hcy. apply elem_of_cons in Hy as [->|Hy].
    + rewrite Hc in Hcy. injection Hcy as <-. exists u. split; [by rewrite K2, T1, lookup_insert_eq by done|].
      rewrite L2, L1, put_links_eq; [done|]. intros (y & Ey & Hy)%list_elem_of_fmap. injection Ey as Ey. by apply (Hne y).
    + apply R2; [done|]. by rewrite T1, lookup_insert_ne by auto.
  - intros k Hk. rewrite fmap_cons, elem_of_cons in Hk. rewrite K2, T1 by tauto. apply lookup_insert_ne. naive_solver.
  - intros k Hk. rewrite fmap_cons, elem_of_cons in Hk. rewrite L2, L1 by tauto. apply put_links_ne. naive_solver.
Qed.
End loop.

(** What the two writes leave alone. *)
Definition iface_frame (m m' : Mem) : Prop := ∃ ifs hl au,
  m' = {| m with mem_ifaces := ifs; mem_hostLinks := hl; mem_audit := mem_audit m ++ au |}.
Definition addr_frame (m m' : Mem) : Prop := ∃ ads hl au,
  m' = {| m with mem_addrs := ads; mem_hostLinks := hl; mem_audit := mem_audit m ++ au |}.
#[global] Instance iface_frame_pre : PreOrder iface_frame.
Proof.
  split; [intros m; exists (mem_ifaces m), (mem_hostLinks m), []; rewrite app_nil_r; by destruct m|].
  intros m1 m2 m3 (i2 & h2 & a2 & ->) (i3 & h3 & a3 & ->). exists i3, h3, (a2 ++ a3). cbn. by rewrite app_assoc.
Qed.
#[global] Instance addr_frame_pre : PreOrder addr_frame.
Proof.
  split; [intros m; exists (mem_addrs m), (mem_hostLinks m), []; rewrite app_nil_r; by destruct m|].
  intros m1 m2 m3 (i2 & h2 & a2 & ->) (i3 & h3 & a3 & ->). exists i3, h3, (a2 ++ a3). cbn. by rewrite app_assoc.
Qed.

(** The link columns of an interface row. *)
Definition iface_cols (i cur : DeviceInterface) (u : Time) : DeviceInterface :=
  {| cur with di_RemoteDeviceID := di_RemoteDeviceID i; di_RemoteInterfaceID := di_RemoteInterfaceID i;
     di_RemotePortName := di_RemotePortName i; di_LinkSource := di_LinkSource i;
     di_LinkVlan := di_LinkVlan i; di_LinkLastSeen := di_LinkLastSeen i; di_UpdatedAt := u |}.
Definition stored_addr_link (l : option AddressLink) : option AddressLink :=
  match l with Some l => Some {| l with al_SwitchName := "" |} | None => None end.
Definition addr_cols (a cur : IPAddress) (u : Time) : IPAddress :=
  {| cur with ad_Link := stored_addr_link (ad_Link a); ad_UpdatedAt := u |}.

Lemma set_iface_link_writes i : Forall (λ l, is_Some (hl_LastSeen l)) (di_Links i) →
  writes (set_iface_link tenantID) mem_ifaces di_ID iface_cols di_Links HostKindInterface iface_frame i.
Proof.
  intros Hs w cur Hc. unfold set_iface_link. rewrite (bind_Ok _ _ _ _ _ (setHostLinks_run _ _ _ w Hs)).
  eexists _, (env_clock (w_ticks w)). split; [unfold mbind, M_bind, mem; cbn; rewrite Hc; reflexivity|].
  split; [done|]. split; [done|]. eexists _, _, []. rewrite app_nil_r. reflexivity.
Qed.

Lemma set_addr_link_writes a : Forall (λ l, is_Some (hl_LastSeen l)) (ad_Links a) →
  writes (set_addr_link tenantID) mem_addrs ad_ID addr_cols ad_Links HostKindAddress addr_frame a.
Proof.
  intros Hs w cur Hc. unfold set_addr_link. rewrite (bind_Ok _ _ _ _ _ (setHostLinks_run _ _ _ w Hs)).
  eexists _, (env_clock (w_ticks w)). split; [unfold mbind, M_bind, mem; cbn; rewrite Hc; reflexivity|].
  split; [done|]. split; [done|]. eexists _, _, []. rewrite app_nil_r. reflexivity.
Qed.

(** Audit rows are only appended. *)
Lemma append_rows_run l w :
  ∃ w' au, append_rows tenantID l w = (w', Ok ()) ∧ w_mem w' = (let m := w_mem w in {| m with mem_audit := mem_audit m ++ au |}).
Proof.
  unfold append_rows. revert w. induction l as [|r l IH]; intros w; cbn [mapM_].
  { exists w, []. cbn. rewrite app_nil_r. by destruct (w_mem w). }
  assert (H1 : ∃ w1 row, appendAuditLocked {| r with ar_TenantID := tenantID |} w = (w1, Ok ()) ∧
    w_mem w1 = (let m := w_mem w in {| m with mem_audit := mem_audit m ++ [row] |})).
  { unfold appendAuditLocked, mbind, M_bind. destruct (is_empty _), (IsZero _); eexists _, _; (split; [reflexivity|done]). }
  destruct H1 as (w1 & row & E1 & M1). rewrite (bind_Ok _ _ _ _ _ E1). destruct (IH w1) as (w2 & au & E2 & M2).
  exists w2, (row :: au). split; [done|]. rewrite M2, M1. cbn. by rewrite <- app_assoc.
Qed.
End write.

(** ** The whole correlation *)

Section correlate.
Context `{Env} (maxMACs staleAge : Z) (tenantID : string).

Section spec.
Context (m : Mem) (t : Time).

Definition ranking : list Link := Rank (BuildInput (port_link_data m tenantID) maxMACs).
Definition iface_ranked (id : string) : list Link := List.filter (λ l, is_empty (lk_AddressID l) && (lk_HostIfaceID l =s id)) ranking.
Definition own_ranked (id : string) : list Link := List.filter (λ l, negb (is_empty (lk_AddressID l)) && (lk_AddressID l =s id)) ranking.

(** The last linked host interface that carries the MAC. *)
Definition carrier (mac : string) : option DeviceInterface :=
  last (List.filter (λ i, bool_decide (NormalizeMAC (di_MACAddress i) = Some mac) && negb (is_nil (iface_ranked (di_ID i))))
                    (pld_HostIfaces (port_link_data m tenantID))).

(** The links of an address: its own, else those of the interface that
    carries its MAC. *)
Definition addr_ranked (a : IPAddress) : list Link :=
  match own_ranked (ad_ID a) with
  | [] => match NormalizeMAC (ad_MACAddress a) with
          | Some mac => match carrier mac with Some i => iface_ranked (di_ID i) | None => [] end
          | None => []
          end
  | ls => ls
  end.

(** The rows a correlation at time [t] leaves. *)
Definition iface_after (m' : Mem) (i : DeviceInterface) : Prop :=
  let ls := iface_ranked (di_ID i) in
  let cur := di_Links (with_links m tenantID i) in
  let k := (tenantID, HostKindInterface, di_ID i) in
  if host_iface_row m tenantID i && iface_written staleAge t ls (with_links m tenantID i)
  then (∃ u, let j := iface_linked staleAge t ls i in mem_ifaces m' !! di_ID i = Some {| j with di_UpdatedAt := u |}) ∧
       default [] (mem_hostLinks m' !! k) = stored_link <$> new_links staleAge t ls cur
  else mem_ifaces m' !! di_ID i = Some i ∧ mem_hostLinks m' !! k = mem_hostLinks m !! k.

Definition addr_after (m' : Mem) (a : IPAddress) : Prop :=
  let d := decorateAddrLocked m a in
  let ls := addr_ranked a in
  let k := (tenantID, HostKindAddress, ad_ID a) in
  if linkable_addr tenantID a && addr_written staleAge t ls d
  then (∃ u, mem_addrs m' !! ad_ID a = Some {| a with ad_Link := stored_addr_link (addr_linked staleAge t ls d); ad_UpdatedAt := u |}) ∧
       default [] (mem_hostLinks m' !! k) = stored_link <$> new_links staleAge t ls (ad_Links d)
  else mem_addrs m' !! ad_ID a = Some a ∧ mem_hostLinks m' !! k = mem_hostLinks m !! k.

Record correlated (m' : Mem) : Prop := {
  co_ifaces : ∀ k i, mem_ifaces m !! k = Some i → iface_after m' i;
  co_addrs : ∀ k a, mem_addrs m !! k = Some a → addr_after m' a;
  co_no_iface : ∀ k, mem_ifaces m !! k = None → mem_ifaces m' !! k = None;
  co_no_addr : ∀ k, mem_addrs m !! k = None → mem_addrs m' !! k = None;
  co_tenants : ∀ T kind id, T ≠ tenantID → mem_hostLinks m' !! (T, kind, id) = mem_hostLinks m !! (T, kind, id);
  co_rest : ∃ ifs ads hl au, m' = {| m with mem_ifaces := ifs; mem_addrs := ads; mem_hostLinks := hl; mem_audit := mem_audit m ++ au |} }.
End spec.

Definition mac_index (d : PortLinkData_) (byIface : string → list Link) : gmap string (list Link) :=
  foldl (λ m i, match byIface (di_ID i), NormalizeMAC (di_MACAddress i) with
                | (_ :: _) as ls, Some mac => <[mac := ls]> m
                | _, _ => m
                end) ∅ (pld_HostIfaces d).

Lemma mac_index_lookup byIface l (acc : gmap string (list Link)) mac :
  foldl (λ m i, match byIface (di_ID i), NormalizeMAC (di_MACAddress i) with
                | (_ :: _) as ls, Some mac => <[mac := ls]> m
                | _, _ => m
                end) acc l !! mac =
  match last (List.filter (λ i, bool_decide (NormalizeMAC (di_MACAddress i) = Some mac) && negb (is_nil (byIface (di_ID i)))) l) with
  | Some i => Some (byIface (di_ID i))
  | None => acc !! mac
  end.
Proof.
  revert acc. induction l as [|i l IH]; intros acc; cbn [foldl List.filter]; [done|]. rewrite IH.
  destruct (byIface (di_ID i)) as [|x ls] eqn:Eb; cbn [is_nil negb]; [by rewrite andb_false_r|]. rewrite andb_true_r.
  destruct (NormalizeMAC (di_MACAddress i)) as [mac'|] eqn:En; [|by rewrite bool_decide_false].
  destruct (decide (mac' = mac)) as [->|Hne].
  - rewrite bool_decide_true by done. rewrite lookup_insert_eq.
    destruct (List.filter _ l) as [|y l'] eqn:Ef; [cbn; by rewrite Eb|]. cbn [last]. by destruct (last (y :: l')) eqn:El; [|apply last_None in El].
  - rewrite bool_decide_false by congruence. by rewrite lookup_insert_ne.
Qed.

Lemma NormalizeMAC_nonempty s : NormalizeMAC s ≠ Some "".
Proof.
  intros (hw & E & Hl & _)%NormalizeMAC_canonical. do 2 (destruct hw as [|? hw]; [done|]). done.
Qed.

Lemma addr_links_ranked m a :
  addr_links (own_ranked m) (mac_index (port_link_data m tenantID) (iface_ranked m)) a = addr_ranked m a.
Proof.
  unfold addr_links, addr_ranked, carrier. destruct (own_ranked m (ad_ID a)); [|done]. unfold mac_index. rewrite mac_index_lookup, lookup_empty.
  destruct (NormalizeMAC (ad_MACAddress a)) as [mac|]; cbn [default]; [by destruct (last _)|].
  rewrite (filter_ext_in_bool _ (λ _, false)).
  - by induction (pld_HostIfaces _).
  - intros i _. rewrite bool_decide_false; [done|]. apply NormalizeMAC_nonempty.
Qed.

(** *** The rows written *)

Lemma omap_key {X} (key : X → string) (out : X → option X) l :
  (∀ x y, out x = Some y → key y = key x) → NoDup (key <$> l) → NoDup (key <$> omap out l).
Proof.
  intros Hk. induction l as [|x l IH]; intros Hnd; [constructor|]. rewrite fmap_cons in Hnd. apply NoDup_cons in Hnd as [Hx Hnd].
  cbn [omap list_omap]. change (list_omap X X out l) with (omap out l). destruct (out x) as [y|] eqn:E; [|by apply IH].
  rewrite fmap_cons. apply NoDup_cons. split; [|by apply IH]. rewrite (Hk _ _ E).
  intros (z & Ez & (x' & Hx' & Eo)%list_elem_of_omap)%list_elem_of_fmap. apply Hx. rewrite Ez, (Hk _ _ Eo). by apply list_elem_of_fmap_2.
Qed.

Lemma by_id_NoDup {V} (id : V → string) l : NoDup (id <$> l) → NoDup (id <$> by_id id l).
Proof. unfold by_id. by rewrite sort_by_perm. Qed.

Section rows.
Context (m : Mem) (Hm : mem_ok m) (t : Time).

Definition ifaces_out : list DeviceInterface := omap (iface_out staleAge t (iface_ranked m)) (pld_HostIfaces (port_link_data m tenantID)).
Definition addrs_out : list IPAddress := omap (addr_out staleAge t (addr_ranked m)) (pld_Addresses (port_link_data m tenantID)).

Lemma iface_out_key i x : iface_out staleAge t (iface_ranked m) i = Some x → di_ID x = di_ID i.
Proof.
  unfold iface_out. cbv zeta. destruct (iface_written _ _ _ _); [|done]. intros [= <-]. cbn [di_ID]. unfold iface_linked.
  destruct (iface_ranked m (di_ID i)); [by destruct (iface_stale staleAge t i)|by destruct (_ && _ && _)].
Qed.

Lemma addr_out_key a x : addr_out staleAge t (addr_ranked m) a = Some x → ad_ID x = ad_ID a.
Proof. unfold addr_out. cbv zeta. destruct (addr_written _ _ _ _); [|done]. by intros [= <-]. Qed.

Lemma elem_of_ifaces_out x : x ∈ ifaces_out ↔
  ∃ i, mem_ifaces m !! di_ID i = Some i ∧ host_iface_row m tenantID i = true ∧ iface_out staleAge t (iface_ranked m) (with_links m tenantID i) = Some x.
Proof.
  unfold ifaces_out. rewrite list_elem_of_omap. cbn [pld_HostIfaces port_link_data]. unfold by_id. setoid_rewrite elem_of_sort_by. split.
  - intros (j & (i & -> & [Hr [k Hk]]%elem_of_map_select)%list_elem_of_fmap & E). exists i. by rewrite (proj1 (ok_ifaces _ Hm) _ _ Hk).
  - intros (i & Hi & Hr & E). exists (with_links m tenantID i). split; [|done]. apply list_elem_of_fmap_2, elem_of_map_select. eauto.
Qed.

Lemma elem_of_addrs_out x : x ∈ addrs_out ↔
  ∃ a, mem_addrs m !! ad_ID a = Some a ∧ linkable_addr tenantID a = true ∧ addr_out staleAge t (addr_ranked m) (decorateAddrLocked m a) = Some x.
Proof.
  unfold addrs_out. rewrite list_elem_of_omap. cbn [pld_Addresses port_link_data]. unfold by_id. setoid_rewrite elem_of_sort_by. split.
  - intros (j & (i & -> & [Hr [k Hk]]%elem_of_map_select)%list_elem_of_fmap & E). exists i. by rewrite (proj1 (ok_addrs _ Hm) _ _ Hk).
  - intros (i & Hi & Hr & E). exists (decorateAddrLocked m i). split; [|done]. apply list_elem_of_fmap_2, elem_of_map_select. eauto.
Qed.

Lemma ifaces_out_NoDup : NoDup (di_ID <$> ifaces_out).
Proof.
  apply omap_key; [apply iface_out_key|]. cbn [pld_HostIfaces port_link_data]. apply by_id_NoDup. rewrite <- list_fmap_compose.
  apply (keyed_select_NoDup di_ID), ok_ifaces, Hm.
Qed.

Lemma addrs_out_NoDup : NoDup (ad_ID <$> addrs_out).
Proof.
  apply omap_key; [apply addr_out_key|]. cbn [pld_Addresses port_link_data]. apply by_id_NoDup. rewrite <- list_fmap_compose.
  apply (keyed_select_NoDup ad_ID), ok_addrs, Hm.
Qed.

(** The row of an interface is written iff its specification says so. *)
Lemma iface_out_at i : mem_ifaces m !! di_ID i = Some i →
  if host_iface_row m tenantID i && iface_written staleAge t (iface_ranked m (di_ID i)) (with_links m tenantID i)
  then ∃ x, x ∈ ifaces_out ∧ di_ID x = di_ID i ∧ di_Links x = new_links staleAge t (iface_ranked m (di_ID i)) (di_Links (with_links m tenantID i)) ∧
       ∀ u, iface_cols x i u = (let j := iface_linked staleAge t (iface_ranked m (di_ID i)) i in {| j with di_UpdatedAt := u |})
  else di_ID i ∉ di_ID <$> ifaces_out.
Proof.
  intros Hi. destruct (host_iface_row m tenantID i && _) eqn:E.
  - apply andb_true_iff in E as [Er Ew]. eexists. split; [apply elem_of_ifaces_out; exists i; split_and!; [done|done|]; unfold iface_out; cbn [with_links di_ID];
      cbv zeta; rewrite Ew; reflexivity|]. cbn [with_links di_ID].
    unfold iface_linked, iface_cols. destruct (iface_ranked m (di_ID i)) as [|l ls]; cbn [with_links di_RemoteInterfaceID di_LinkSource di_LinkVlan].
    + change (iface_stale staleAge t (with_links m tenantID i)) with (iface_stale staleAge t i). destruct (iface_stale staleAge t i); by destruct i.
    + destruct (_ && _ && _); by destruct i.
  - intros (x & Ex & (i' & Hi' & Hr & Ho)%elem_of_ifaces_out)%list_elem_of_fmap. apply iface_out_key in Ho as Hk. cbn in Hk.
    rewrite Ex, Hk, Hi' in Hi. injection Hi as <-. unfold iface_out in Ho. cbv zeta in Ho. cbn [with_links di_ID] in Ho.
    rewrite Hr in E. cbn [andb] in E. by rewrite E in Ho.
Qed.

Lemma addr_out_at a : mem_addrs m !! ad_ID a = Some a →
  if linkable_addr tenantID a && addr_written staleAge t (addr_ranked m a) (decorateAddrLocked m a)
  then ∃ x, x ∈ addrs_out ∧ ad_ID x = ad_ID a ∧ ad_Links x = new_links staleAge t (addr_ranked m a) (ad_Links (decorateAddrLocked m a)) ∧
       ad_Link x = addr_linked staleAge t (addr_ranked m a) (decorateAddrLocked m a)
  else ad_ID a ∉ ad_ID <$> addrs_out.
Proof.
  intros Ha. destruct (linkable_addr tenantID a && _) eqn:E.
  - apply andb_true_iff in E as [Er Ew]. eexists. split; [apply elem_of_addrs_out; exists a; split_and!; [done|done|]; unfold addr_out;
      change (addr_ranked m (decorateAddrLocked m a)) with (addr_ranked m a); cbv zeta; rewrite Ew; reflexivity|]. done.
  - intros (x & Ex & (a' & Ha' & Hr & Ho)%elem_of_addrs_out)%list_elem_of_fmap. apply addr_out_key in Ho as Hk. cbn in Hk.
    rewrite Ex, Hk, Ha' in Ha. injection Ha as <-. unfold addr_out in Ho. change (addr_ranked m (decorateAddrLocked m a')) with (addr_ranked m a') in Ho.
    cbv zeta in Ho. rewrite Hr in E. cbn [andb] in E. by rewrite E in Ho.
Qed.
End rows.

(** *** The two writes *)

Lemma write_ifaces m t rows_ w :
  mem_ok m → w_mem w = m → "SetInterfaceLinks"%string ∉ mem_failNext m →
  ∃ w', (match ifaces_out m t with [] => mret () | changed => SetInterfaceLinks tenantID changed rows_ end) w = (w', Ok ()) ∧
    iface_frame m (w_mem w') ∧
    (∀ x cur, x ∈ ifaces_out m t → mem_ifaces m !! di_ID x = Some cur → ∃ u, mem_ifaces (w_mem w') !! di_ID x = Some (iface_cols x cur u) ∧
       default [] (mem_hostLinks (w_mem w') !! (tenantID, HostKindInterface, di_ID x)) = stored_link <$> di_Links x) ∧
    (∀ k, k ∉ di_ID <$> ifaces_out m t → mem_ifaces (w_mem w') !! k = mem_ifaces m !! k) ∧
    (∀ k, k ∉ (λ x, (tenantID, HostKindInterface, di_ID x)) <$> ifaces_out m t → mem_hostLinks (w_mem w') !! k = mem_hostLinks m !! k).
Proof.
  intros Hm Hw Hf. subst m. set (m := w_mem w) in *. pose proof (ifaces_out_NoDup m Hm t) as Hnd.
  pose proof (λ x, proj1 (elem_of_ifaces_out m Hm t x)) as Hel. destruct (ifaces_out m t) as [|x0 xs] eqn:Eo.
  { exists w. split_and!; try done. by intros x cur ?%elem_of_nil. }
  rewrite <- Eo in *. clear x0 xs Eo.
  assert (Hrow : ∀ x, x ∈ ifaces_out m t → ∃ i, mem_ifaces m !! di_ID x = Some i ∧ di_TenantID i = tenantID ∧ Forall (λ l, is_Some (hl_LastSeen l)) (di_Links x)).
  { intros x (i & Hi & Hr & Ho)%Hel. exists i. apply iface_out_key in Ho as Hk. cbn in Hk. rewrite Hk. split; [done|]. split.
    - unfold host_iface_row in Hr. by bool_hyps.
    - unfold iface_out in Ho. cbv zeta in Ho. destruct (iface_written _ _ _ _); [|done]. injection Ho as <-. apply new_links_seen. }
  unfold SetInterfaceLinks. rewrite (bind_Ok _ _ _ _ _ (fail_unarmed _ _ Hf)). unfold mbind at 1, M_bind at 1, mem. cbv beta iota.
  rewrite (proj2 (forallb_forall _ _)).
  2:{ intros x Hx%list_elem_of_In. destruct (Hrow x Hx) as (i & Hi & Ht & _). fold m. rewrite Hi, Ht. apply String.eqb_refl. }
  destruct (write_loop tenantID (set_iface_link tenantID) mem_ifaces di_ID iface_cols di_Links HostKindInterface iface_frame (ifaces_out m t) w)
    as (w1 & E1 & F1 & R1 & K1 & L1); [|done| |].
  { apply Forall_forall. intros x Hx. apply set_iface_link_writes. by destruct (Hrow x Hx) as (? & ? & ? & ?). }
  { apply Forall_forall. intros x Hx. destruct (Hrow x Hx) as (i & Hi & _). by exists i. }
  rewrite (bind_Ok _ _ _ _ _ E1). destruct (append_rows_run tenantID rows_ w1) as (w2 & au & E2 & M2). exists w2. rewrite M2. cbn.
  split_and!; try done. etrans; [exact F1|]. eexists _, _, au. reflexivity.
Qed.

Lemma write_addrs m t rows_ w :
  mem_ok m → mem_addrs (w_mem w) = mem_addrs m → "SetAddressLinks"%string ∉ mem_failNext (w_mem w) →
  ∃ w', (match addrs_out m t with [] => mret () | changed => SetAddressLinks tenantID changed rows_ end) w = (w', Ok ()) ∧
    addr_frame (w_mem w) (w_mem w') ∧
    (∀ x cur, x ∈ addrs_out m t → mem_addrs m !! ad_ID x = Some cur → ∃ u, mem_addrs (w_mem w') !! ad_ID x = Some (addr_cols x cur u) ∧
       default [] (mem_hostLinks (w_mem w') !! (tenantID, HostKindAddress, ad_ID x)) = stored_link <$> ad_Links x) ∧
    (∀ k, k ∉ ad_ID <$> addrs_out m t → mem_addrs (w_mem w') !! k = mem_addrs m !! k) ∧
    (∀ k, k ∉ (λ x, (tenantID, HostKindAddress, ad_ID x)) <$> addrs_out m t → mem_hostLinks (w_mem w') !! k = mem_hostLinks (w_mem w) !! k).
Proof.
  intros Hm Hw Hf. rewrite <- Hw. pose proof (addrs_out_NoDup m Hm t) as Hnd.
  pose proof (λ x, proj1 (elem_of_addrs_out m Hm t x)) as Hel. rewrite <- Hw in Hel. destruct (addrs_out m t) as [|x0 xs] eqn:Eo.
  { exists w. split_and!; try done. by intros x cur ?%elem_of_nil. }
  rewrite <- Eo in *. clear x0 xs Eo.
  assert (Hrow : ∀ x, x ∈ addrs_out m t → ∃ a, mem_addrs (w_mem w) !! ad_ID x = Some a ∧ ad_TenantID a = tenantID ∧ Forall (λ l, is_Some (hl_LastSeen l)) (ad_Links x)).
  { intros x (a & Ha & Hr & Ho)%Hel. exists a. apply addr_out_key in Ho as Hk. cbn in Hk. rewrite Hk. split; [done|]. split.
    - unfold linkable_addr in Hr. by bool_hyps.
    - unfold addr_out in Ho. cbv zeta in Ho. destruct (addr_written _ _ _ _); [|done]. injection Ho as <-. apply new_links_seen. }
  unfold SetAddressLinks. rewrite (bind_Ok _ _ _ _ _ (fail_unarmed _ _ Hf)). unfold mbind at 1, M_bind at 1, mem. cbv beta iota.
  rewrite (proj2 (forallb_forall _ _)).
  2:{ intros x Hx%list_elem_of_In. destruct (Hrow x Hx) as (a & Ha & Ht & _). rewrite Ha, Ht. apply String.eqb_refl. }
  destruct (write_loop tenantID (set_addr_link tenantID) mem_addrs ad_ID addr_cols ad_Links HostKindAddress addr_frame (addrs_out m t) w)
    as (w1 & E1 & F1 & R1 & K1 & L1); [|done| |].
  { apply Forall_forall. intros x Hx. apply set_addr_link_writes. by destruct (Hrow x Hx) as (? & ? & ? & ?). }
  { apply Forall_forall. intros x Hx. destruct (Hrow x Hx) as (a & Ha & _). by exists a. }
  rewrite (bind_Ok _ _ _ _ _ E1). destruct (append_rows_run tenantID rows_ w1) as (w2 & au & E2 & M2). exists w2. rewrite M2. cbn.
  split_and!; try done. etrans; [exact F1|]. eexists _, _, au. reflexivity.
Qed.

Lemma key_other {X} (key : X → string) (kind T k id : string) (l : list X) : (T, k, id) ∈ (λ x, (tenantID, kind, key x)) <$> l → T = tenantID ∧ k = kind ∧ id ∈ key <$> l.
Proof. intros (x & [= -> -> ->] & Hx)%list_elem_of_fmap. split_and!; try done. by apply list_elem_of_fmap_2. Qed.

(** The two writes one after the other. *)
Lemma writes_correlated m t m3 m5 : mem_ok m →
  iface_frame m m3 →
  (∀ x cur, x ∈ ifaces_out m t → mem_ifaces m !! di_ID x = Some cur → ∃ u, mem_ifaces m3 !! di_ID x = Some (iface_cols x cur u) ∧
     default [] (mem_hostLinks m3 !! (tenantID, HostKindInterface, di_ID x)) = stored_link <$> di_Links x) →
  (∀ k, k ∉ di_ID <$> ifaces_out m t → mem_ifaces m3 !! k = mem_ifaces m !! k) →
  (∀ k, k ∉ (λ x, (tenantID, HostKindInterface, di_ID x)) <$> ifaces_out m t → mem_hostLinks m3 !! k = mem_hostLinks m !! k) →
  addr_frame m3 m5 →
  (∀ x cur, x ∈ addrs_out m t → mem_addrs m !! ad_ID x = Some cur → ∃ u, mem_addrs m5 !! ad_ID x = Some (addr_cols x cur u) ∧
     default [] (mem_hostLinks m5 !! (tenantID, HostKindAddress, ad_ID x)) = stored_link <$> ad_Links x) →
  (∀ k, k ∉ ad_ID <$> addrs_out m t → mem_addrs m5 !! k = mem_addrs m !! k) →
  (∀ k, k ∉ (λ x, (tenantID, HostKindAddress, ad_ID x)) <$> addrs_out m t → mem_hostLinks m5 !! k = mem_hostLinks m3 !! k) →
  correlated m t m5.
Proof.
  intros Hm F3 R3 K3 L3 F5 R5 K5 L5.
  assert (Hi5 : mem_ifaces m5 = mem_ifaces m3) by (by destruct F5 as (? & ? & ? & ->)).
  split.
  - intros k i Hk. assert (Hi : mem_ifaces m !! di_ID i = Some i) by (by rewrite (proj1 (ok_ifaces _ Hm) _ _ Hk)).
    unfold iface_after. cbv zeta. rewrite Hi5, L5 by (intros [_ [? _]]%key_other; done).
    pose proof (iface_out_at m Hm t i Hi) as Ho. destruct (_ && iface_written _ _ _ _).
    + destruct Ho as (x & Hx & Ex & El & Ec). rewrite <- Ex in Hi. destruct (R3 x i Hx Hi) as (u & Hu & Hl). rewrite Ex in Hu, Hl. rewrite Ec in Hu.
      rewrite El in Hl. split; [by exists u|done].
    + rewrite K3, L3; [done| |done]. by intros [_ [_ ?]]%key_other.
  - intros k a Hk. assert (Ha : mem_addrs m !! ad_ID a = Some a) by (by rewrite (proj1 (ok_addrs _ Hm) _ _ Hk)).
    unfold addr_after. cbv zeta. pose proof (addr_out_at m Hm t a Ha) as Ho. destruct (_ && addr_written _ _ _ _).
    + destruct Ho as (x & Hx & Ex & El & Ec). rewrite <- Ex in Ha. destruct (R5 x a Hx Ha) as (u & Hu & Hl). rewrite Ex in Hu, Hl.
      unfold addr_cols in Hu. rewrite Ec in Hu. rewrite El in Hl. split; [by exists u|done].
    + rewrite K5, L5, L3; [done| | |done]; [by intros [_ [? _]]%key_other|by intros [_ [_ ?]]%key_other].
  - intros k Hk. rewrite Hi5, K3; [done|]. intros (x & -> & (i & Hi & _ & Ho)%(elem_of_ifaces_out m Hm))%list_elem_of_fmap.
    apply iface_out_key in Ho. cbn in Ho. congruence.
  - intros k Hk. rewrite K5; [done|]. intros (x & -> & (a & Ha & _ & Ho)%(elem_of_addrs_out m Hm))%list_elem_of_fmap.
    apply addr_out_key in Ho. cbn in Ho. congruence.
  - intros T kind id HT. rewrite L5, L3; [done| |]; by intros [? _]%key_other.
  - destruct F3 as (ifs & hl & au & E3), F5 as (ads & hl5 & au5 & ->). rewrite E3. exists ifs, ads, hl5, (au ++ au5). cbn. by rewrite <- app_assoc.
Qed.

(** C10: a correlation always succeeds when no store method fails and a switch
    exists; it leaves every host interface and every address of the tenant
    with the links the ranking gives it (confirmed, superseded or, when stale,
    cleared), keeps unexpired links of switches that were not ranked, and
    changes nothing else but the appended audit rows. *)
Theorem Correlate_exact w :
  mem_ok (w_mem w) → ({["PortLinkData"; "SetInterfaceLinks"; "SetAddressLinks"]} : gset string) ## mem_failNext (w_mem w) →
  map_any (is_switch tenantID) (mem_devices (w_mem w)) = true →
  ∃ w', Correlate maxMACs staleAge tenantID w = (w', Ok ()) ∧ correlated (w_mem w) (env_clock (w_ticks w)) (w_mem w').
Proof.
  intros Hm Hf Hsw. set (m := w_mem w) in *. set (t := env_clock (w_ticks w)).
  set (d := port_link_data m tenantID). unfold Correlate.
  rewrite (bind_Ok _ _ w w d).
  2:{ unfold PortLinkData. rewrite (bind_Ok _ _ _ _ _ (fail_unarmed "PortLinkData" w ltac:(set_solver))). done. }
  assert (Hne : is_nil (pld_Switches d) = false).
  { apply map_any_true in Hsw as (k & v & Hk & Hv). assert (Hin : v ∈ pld_Switches d).
    { cbn. unfold by_id. apply elem_of_sort_by, elem_of_map_select. eauto. } by destruct (pld_Switches d); [apply elem_of_nil in Hin|]. }
  rewrite Hne. cbv zeta. fold (ranking m). fold (iface_ranked m). fold (own_ranked m).
  rewrite (bind_Ok _ _ w {| w with w_ticks := S (w_ticks w) |} t) by done. set (w1 := {| w with w_ticks := _ |}).
  destruct (plan_fold (iface_step staleAge tenantID t (iface_ranked m)) (iface_out staleAge t (iface_ranked m)) (pld_HostIfaces d)
    (λ acc x w _, iface_step_run staleAge tenantID t (iface_ranked m) acc x w) ([], []) w1) as (w2 & r2 & E2 & D2).
  rewrite (bind_Ok _ _ _ _ _ E2). cbn [fst app snd]. fold (ifaces_out m t). destruct D2 as (M2 & _).
  destruct (write_ifaces m t r2 w2 Hm M2) as (w3 & E3 & F3 & R3 & K3 & L3); [set_solver|]. rewrite (bind_Ok _ _ _ _ _ E3).
  unfold correlateAddresses. fold (mac_index d (iface_ranked m)).
  destruct (plan_fold (addr_step staleAge tenantID t (own_ranked m) (mac_index d (iface_ranked m)))
    (addr_out staleAge t (addr_ranked m)) (pld_Addresses d)) with (acc := ([], []) : list IPAddress * list AuditRow) (w := w3)
    as (w4 & r4 & E4 & D4).
  { intros acc x w0 _. destruct (addr_step_run staleAge tenantID t (own_ranked m) (mac_index d (iface_ranked m)) acc x w0) as (w' & r & E & D).
    exists w', r. split; [|done]. rewrite E. unfold addr_out. by rewrite addr_links_ranked. }
  rewrite (bind_Ok _ _ _ _ _ E4). cbn [fst app snd]. fold (addrs_out m t). destruct D4 as (M4 & _).
  assert (Ha4 : mem_addrs (w_mem w4) = mem_addrs m). { rewrite M4. by destruct F3 as (? & ? & ? & ->). }
  destruct (write_addrs m t r4 w4 Hm Ha4) as (w5 & E5 & F5 & R5 & K5 & L5).
  { rewrite M4. destruct F3 as (? & ? & ? & ->). cbn. set_solver. }
  exists w5. split; [exact E5|]. rewrite M4 in F5, L5. by apply (writes_correlated m t (w_mem w3)).
Qed.
End correlate.
