(* ===== verification/PortLinkExamples.v ===== *)
(** * Port attribution: a concrete correlation

    A switch port that learned the MAC of a host's reported interface, and an
    address with that MAC whose link to another port has expired. *)

From S2P Require Import Prelude GoNet Models Store Hostreport MemNet MemDev MemScan HostTx MemInv HostTxProps AddressProps AuditLog HostPlan PortLink PortLinkProps CorrelateProps.

Definition exl_switch : Device := {| zero_Device with dv_ID := "sw1"; dv_TenantID := "t1"; dv_Name := "Core1"; dv_DeviceType := DevSwitch |}.
Definition exl_host : Device := {| zero_Device with dv_ID := "h1"; dv_TenantID := "t1"; dv_Name := "web1"; dv_Source := SrcHostReport |}.
Definition exl_iface (id dev name mac rep : string) : DeviceInterface :=
  {| zero_DeviceInterface with di_ID := id; di_TenantID := "t1"; di_DeviceID := dev; di_Name := name; di_MACAddress := mac; di_ReportState := rep |}.
Definition exl_fdb : DeviceInterfaceLink :=
  {| zero_DeviceInterfaceLink with dl_ID := "l1"; dl_TenantID := "t1"; dl_InterfaceID := "p1"; dl_LinkSource := LinkSNMPFDB;
     dl_RemotePortName := "02-00-00-00-00-01"; dl_LinkVlan := 7 |}.
Definition exl_addr : IPAddress :=
  {| zero_IPAddress with ad_ID := "a1"; ad_TenantID := "t1"; ad_Address := "10.0.0.7"; ad_SubnetID := "s1"; ad_MACAddress := "02:00:00:00:00:01" |}.
Definition exl_store : M () :=
  CreateDevice (H := ex_env) exl_switch;; InsertDevice (H := ex_env) "t1" exl_host;;
  CreateInterface (H := ex_env) (exl_iface "p1" "sw1" "ge-0/0/1" "02:00:00:00:00:fe" "");;
  CreateInterface (H := ex_env) (exl_iface "p2" "sw1" "ge-0/0/2" "02:00:00:00:00:fd" "");;
  UpsertInterfaceReported (H := ex_env) "t1" (exl_iface "e0" "h1" "eth0" "02:00:00:00:00:01" RepReported) true;;
  ReplaceInterfaceLinks (H := ex_env) "t1" "p1" [exl_fdb];;
  CreateAddress (H := ex_env) exl_addr.
Definition exl_world : World := fst (exl_store init_world).

Lemma exl_ok : mem_ok (w_mem exl_world).
Proof.
  apply (preserves_bind (CreateDevice (H := ex_env) exl_switch)); [apply CreateDevice_preserves|intros _|apply New_ok].
  repeat (apply preserves_bind; [first [apply (proj1 (InsertDevice_tx _ _))|apply CreateInterface_preserves|apply ReplaceInterfaceLinks_preserves
    |apply (proj1 (UpsertInterfaceReported_tx _ _ _))]|intros _]). apply CreateAddress_preserves.
Qed.

Lemma exl_unarmed : ({["PortLinkData"; "SetInterfaceLinks"; "SetAddressLinks"]}%string : gset string) ## mem_failNext (w_mem exl_world).
Proof. assert (E : mem_failNext (w_mem exl_world) = ∅) by (vm_compute; reflexivity). rewrite E. apply disjoint_empty_r. Qed.

Definition exl_input : Input := BuildInput (H := ex_env) (port_link_data (w_mem exl_world) "t1") 4.
Lemma exl_hosts_eq : host_key <$> in_Hosts exl_input = [("e0", "")]%string.
Proof. vm_compute. reflexivity. Qed.

(** ** The ranking *)

Definition exl_mac_host : Host :=
  {| ht_DeviceID := "h1"; ht_DeviceName := "web1"; ht_IfaceID := "e0"; ht_IfaceName := "eth0"; ht_MAC := "02:00:00:00:00:01"; ht_AddressID := "";
     ht_Related := {["02:00:00:00:00:01"%string]} |}.
Definition exl_port : Port :=
  {| pt_SwitchID := "sw1"; pt_PortID := "p1"; pt_Name := "ge-0/0/1"; pt_MACs := {["02:00:00:00:00:01"%string := 7]}; pt_LLDP := [] |}.

Lemma exl_hosts : in_Hosts exl_input = [exl_mac_host].
Proof. vm_compute. reflexivity. Qed.
Lemma exl_no_lldp : lldp_port (H := ex_env) exl_input exl_mac_host "sw1" = None.
Proof. vm_compute. reflexivity. Qed.
Lemma exl_learned : fdb_ports (H := ex_env) exl_input exl_mac_host "sw1" = [exl_port].
Proof. vm_compute. reflexivity. Qed.

Lemma Rank_exact_witness :
  NoDup (host_key <$> in_Hosts exl_input) ∧ exl_mac_host ∈ in_Hosts exl_input ∧
  ∃ l, l ∈ ranked_for (H := ex_env) exl_input exl_mac_host ∧ lk_PortID l = "p1"%string ∧ lk_VLAN l = 7 ∧ lk_Source l = LinkSNMPFDB.
Proof.
  assert (Hnd : NoDup (host_key <$> in_Hosts exl_input)) by (rewrite exl_hosts_eq; apply NoDup_singleton).
  assert (Hin : exl_mac_host ∈ in_Hosts exl_input) by (rewrite exl_hosts; by left).
  split; [exact Hnd|]. split; [exact Hin|].
  destruct (Rank_exact (H := ex_env) exl_input exl_mac_host Hnd Hin) as (Hall & _).
  destruct (Hall exl_port LinkSNMPFDB) as (l & Hl & (_ & _ & _ & Hp & _ & Hv & Hs)).
  { apply (attached_fdb (H := ex_env) _ _ _ []); [exact exl_no_lldp| |constructor]. change (pt_SwitchID exl_port) with "sw1"%string. by rewrite exl_learned. }
  exists l. split; [exact Hl|]. split; [exact Hp|]. split; [|exact Hs]. rewrite Hv. reflexivity.
Defined.

(** ** The correlation *)

Definition exl_e0 : DeviceInterface :=
  let i := exl_iface "e0" "h1" "eth0" "02:00:00:00:00:01" RepReported in {| i with di_CreatedAt := 1004; di_UpdatedAt := 1004 |}.
Lemma exl_e0_stored : mem_ifaces (w_mem exl_world) !! "e0"%string = Some exl_e0.
Proof. vm_compute. reflexivity. Qed.
Lemma exl_e0_written :
  host_iface_row (w_mem exl_world) "t1" exl_e0 &&
  iface_written 100 1006 (iface_ranked (H := ex_env) 4 "t1" (w_mem exl_world) (di_ID exl_e0)) (with_links (w_mem exl_world) "t1" exl_e0) = true.
Proof. vm_compute. reflexivity. Qed.
Definition exl_linked (j : DeviceInterface) : Prop := di_RemoteInterfaceID j = "p1"%string ∧ di_LinkVlan j = 7 ∧ di_LinkLastSeen j = Some 1006.
Lemma exl_e0_port : exl_linked (iface_linked 100 1006 (iface_ranked (H := ex_env) 4 "t1" (w_mem exl_world) (di_ID exl_e0)) exl_e0).
Proof. vm_compute. done. Qed.
Lemma exl_linked_updated j u : exl_linked j → exl_linked {| j with di_UpdatedAt := u |}.
Proof. done. Qed.
Lemma exl_has_switch : map_any (is_switch "t1") (mem_devices (w_mem exl_world)) = true.
Proof. vm_compute. reflexivity. Qed.
Lemma exl_ticks : env_clock (Env := ex_env) (w_ticks exl_world) = 1006.
Proof. vm_compute. reflexivity. Qed.

Lemma exl_after m' : correlated (H := ex_env) 4 100 "t1" (w_mem exl_world) 1006 m' → ∃ i, mem_ifaces m' !! "e0"%string = Some i ∧ exl_linked i.
Proof.
  intros Hco. pose proof (co_ifaces (H := ex_env) _ _ _ _ _ _ Hco _ _ exl_e0_stored) as Hi. unfold iface_after in Hi. cbv zeta in Hi.
  rewrite exl_e0_written in Hi. destruct Hi as [[u Hu] _]. eexists. split; [exact Hu|]. apply exl_linked_updated, exl_e0_port.
Qed.

Lemma Correlate_exact_witness :
  ∃ w' i, Correlate (H := ex_env) 4 100 "t1" exl_world = (w', Ok ()) ∧ mem_ifaces (w_mem w') !! "e0"%string = Some i ∧ exl_linked i.
Proof.
  destruct (Correlate_exact (H := ex_env) 4 100 "t1" exl_world exl_ok exl_unarmed exl_has_switch) as (w' & E & Hco).
  rewrite exl_ticks in Hco. destruct (exl_after _ Hco) as (i & Hi & Hl). exists w', i.
  split; [exact E|]. split; [exact Hi|exact Hl].
Defined.
