(* ===== verification/Stream.v ===== *)
(** * internal/stream: the realtime hub

    Events are appended to one stream per tenant and fanned out to the open
    subscriptions.  The in-process client ([Memory]) and the hub are modelled
    with their state; the hub's goroutines (a loop per tenant, the callers of
    [Subscribe], the readers) are interleaved by [step], whose atomic actions
    are the code's critical sections. *)

From S2P Require Import Prelude GoText Models Store HostNorm Json.

(** ** Standard library *)

(** [strconv.ParseInt(s, 10, 64)]: the value (saturated out of range, 0 on a
    syntax error) and whether it parsed. *)
Definition uint_cutoff : Z := 1844674407370955162.
Definition MaxUint64 : Z := 2 ^ 64 - 1.
Definition MinInt64_ : Z := - 2 ^ 63.

Inductive num_error : Type := ErrSyntax | ErrRange.

Fixpoint parse_uint (n : Z) (s : string) : Z * option num_error :=
  match s with
  | EmptyString => (n, None)
  | String c s' =>
      if negb (digit_class c) then (0, Some ErrSyntax)
      else if uint_cutoff <=? n then (MaxUint64, Some ErrRange)
      else let n1 := n * 10 + (byte_of c - 48) in
           if MaxUint64 <? n1 then (MaxUint64, Some ErrRange) else parse_uint n1 s'
  end.

Definition ParseUint (s : string) : Z * option num_error := if is_empty s then (0, Some ErrSyntax) else parse_uint 0 s.

Definition ParseInt (s : string) : Z * bool :=
  let '(neg, body) := match s with
    | String "+" s' => (false, s')
    | String "-" s' => (true, s')
    | _ => (false, s)
    end in
  match ParseUint body with
  | (_, Some ErrSyntax) => (0, false)
  | (un, err) =>
      if negb neg && (2 ^ 63 <=? un) then (MaxInt64, false)
      else if neg && (2 ^ 63 <? un) then (MinInt64_, false)
      else (if neg then - un else un, negb (is_some err))
  end.

(** ** The in-process client (client.go) *)

Record Entry : Type := { en_ID : string; en_Fields : gmap string string }.
Record counter : Type := { ct_n : Z; ct_exp : Time }.
Record Memory : Type := {
  mm_streams : gmap string (list Entry); mm_counters : gmap string counter; mm_seq : Z; mm_Err : option error }.

Definition NewMemory : Memory := {| mm_streams := ∅; mm_counters := ∅; mm_seq := 0; mm_Err := None |}.

(** Seconds from Go's zero time to the Unix epoch. *)
Definition unix_epoch : Z := 62135596800.
Definition UnixMilli (t : Time) : Z := (t - unix_epoch * 1000000000) / 1000000.
Definition Unix (t : Time) : Z := (t - unix_epoch * 1000000000) / 1000000000.

Definition ID (at_ : Time) (seq : Z) : string := Z_text (UnixMilli at_) +:+ "-" +:+ Z_text seq.

Definition ParseID (id : string) : Z * Z * bool :=
  match cut_byte "-" id with
  | None => (0, 0, false)
  | Some (a, b) => let '(ms, ok1) := ParseInt a in let '(seq, ok2) := ParseInt b in (ms, seq, ok1 && ok2)
  end.

Definition Less (a b : string) : bool :=
  let '(am, as_, _) := ParseID a in
  let '(bm, bs, _) := ParseID b in
  if negb (am =? bm) then am <? bm else as_ <? bs.

(** The newest [maxLen] entries. *)
Definition newest (maxLen : Z) (l : list Entry) : list Entry :=
  if (0 <? maxLen) && (maxLen <? Z.of_nat (length l)) then drop (length l - Z.to_nat maxLen) l else l.

Section client.
Context (m : Memory).

Definition stream_of (key : string) : list Entry := default [] (mm_streams m !! key).

Definition XAdd (t : Time) (key : string) (fields : gmap string string) (maxLen : Z) : Memory * result error string :=
  match mm_Err m with
  | Some e => (m, Err e)
  | None =>
      let seq := mm_seq m + 1 in
      let id := ID t seq in
      let l := newest maxLen (stream_of key ++ [{| en_ID := id; en_Fields := fields |}]) in
      ({| m with mm_streams := <[key := l]> (mm_streams m); mm_seq := seq |}, Ok id)
  end.

Definition after (key afterID : string) (count : Z) : list Entry :=
  let l := List.filter (λ e, is_empty afterID || Less afterID (en_ID e)) (stream_of key) in
  if 0 <? count then take (Z.to_nat count) l else l.

(** The entries a read returns at the moment it takes the lock. *)
Definition XRead (key afterID : string) (count : Z) : result error (list Entry) :=
  match mm_Err m with
  | Some e => Err e
  | None =>
      let afterID := if is_empty afterID || (afterID =s "$") then
          match last (stream_of key) with Some e => en_ID e | None => "0-0" end else afterID in
      Ok (after key afterID count)
  end.

Definition XRange (key afterID : string) (count : Z) : result error (list Entry) :=
  match mm_Err m with Some e => Err e | None => Ok (after key afterID count) end.

Definition XLast (key : string) : result error string :=
  match mm_Err m with Some e => Err e | None => Ok match last (stream_of key) with Some e => en_ID e | None => "" end end.

Definition XTrimMinID (key minID : string) : Memory * result error () :=
  match mm_Err m with
  | Some e => (m, Err e)
  | None => ({| m with mm_streams := <[key := List.filter (λ e, negb (Less (en_ID e) minID)) (stream_of key)]> (mm_streams m) |}, Ok ())
  end.

Definition Incr (now : Time) (key : string) (ttl : Z) : Memory * result error Z :=
  match mm_Err m with
  | Some e => (m, Err e)
  | None =>
      let c := default {| ct_n := 0; ct_exp := time_zero |} (mm_counters m !! key) in
      let c1 := if (ct_n c =? 0) || (negb (IsZero (ct_exp c)) && negb (now <? ct_exp c))
                then {| ct_n := 0; ct_exp := if 0 <? ttl then now + ttl else time_zero |} else c in
      let c2 := {| c1 with ct_n := ct_n c1 + 1 |} in
      ({| m with mm_counters := <[key := c2]> (mm_counters m) |}, Ok (ct_n c2))
  end.
End client.

Definition Ping (m : Memory) : option error := mm_Err m.
Definition CloseMemory (m : Memory) : Memory := {| m with mm_streams := ∅; mm_counters := ∅ |}.

Definition RateKey (kind subject : string) (at_ : Time) : string :=
  "lcm:rl:" +:+ kind +:+ ":" +:+ subject +:+ ":" +:+ Z_text (Z.quot (Unix at_) 60).

(** [Limiter.Limited]: a failed counter limits. *)
Definition Limited (m : Memory) (now : Time) (kind subject : string) (limit : Z) (at_ : Time) : Memory * (bool * option error) :=
  if limit <=? 0 then (m, (false, None))
  else match Incr m now (RateKey kind subject at_) 120000000000 with
       | (m', Err e) => (m', (true, Some e))
       | (m', Ok n) => (m', (limit <? n, None))
       end.

(** ** Publishing (hub.go) *)

Definition MaxPayload : Z := 16384.
Definition MaxTargets : Z := 1000.
Definition DefaultMaxLen : Z := 10000.
Definition connBuffer : nat := 32.

Inductive hub_error : Type :=
| ErrTooMany | ErrType | ErrPayload | ErrTargets | ErrReserved | ErrHubClosed | ErrClient (e : error).

(** [^[a-z][a-z0-9._-]{0,63}$] *)
Definition typeRE (s : string) : bool :=
  match s with
  | String c s' => lower_class c && sized 0 63 (λ c, lower_class c || digit_class c || existsb (Ascii.eqb c) ["."; "_"; "-"]%char) s'
  | EmptyString => false
  end.

Definition Reserved (typ : string) : bool := existsb (String.eqb typ) ["issued"; "renewed"; "revoked"; "reset"; "bye"]%string.

Record Config : Type := {
  hc_ReplayWindow : Z; hc_StreamsPerUser : Z; hc_StreamsPerTenant : Z; hc_MaxLen : Z; hc_TrimInterval : Z; hc_ReadBlock : Z; hc_RetryDelay : Z }.

(** The defaults [NewHub] fills in. *)
Definition NewHub_config (c : Config) : Config :=
  let pos x d := if x <=? 0 then d else x in
  {| hc_ReplayWindow := pos (hc_ReplayWindow c) 300000000000; hc_StreamsPerUser := pos (hc_StreamsPerUser c) 5;
     hc_StreamsPerTenant := pos (hc_StreamsPerTenant c) 2000; hc_MaxLen := pos (hc_MaxLen c) DefaultMaxLen;
     hc_TrimInterval := pos (hc_TrimInterval c) 60000000000; hc_ReadBlock := pos (hc_ReadBlock c) 5000000000;
     hc_RetryDelay := pos (hc_RetryDelay c) 1000000000 |}.

Record Event : Type := { ev_ID : string; ev_Type : string; ev_Data : string }.

Definition Key (tenantID : string) : string := "platform:events:" +:+ tenantID.

Definition ValidateType (typ : string) (module_ : bool) : option hub_error :=
  if negb (typeRE typ) then Some ErrType else if module_ && Reserved typ then Some ErrReserved else None.

(** The dynamic type of the published value; [DataValue] carries what
    [json.Marshal] returns for it. *)
Inductive payload : Type := DataNil | DataRaw (raw : string) | DataValue (marshalled : option string).

Definition raw_data (d : payload) : option string :=
  match d with DataNil => Some "{}" | DataRaw raw => Some raw | DataValue r => r end.

Definition contains_any (cs : list ascii) (s : string) : bool := existsb (λ c, has_byte c s) cs.
Definition LF : ascii := ascii_of_nat 10.
Definition CR : ascii := ascii_of_nat 13.

Definition PublishID (cfg : Config) (m : Memory) (now : Time) (tenantID : string) (to : list string) (all : bool) (typ : string)
    (data : payload) (module_ : bool) : Memory * result hub_error string :=
  match ValidateType typ module_ with
  | Some e => (m, Err e)
  | None =>
      if Bool.eqb all (negb (is_nil to)) || (MaxTargets <? Z.of_nat (length to)) then (m, Err ErrTargets)
      else match raw_data data with
      | None => (m, Err ErrPayload)
      | Some raw =>
          if (MaxPayload <? Z.of_nat (String.length raw)) || negb (JSON.Valid raw) || contains_any [LF; CR] raw then (m, Err ErrPayload)
          else if negb all && existsb (λ u, is_empty u || contains_any [","; " "; LF]%char u) to then (m, Err ErrTargets)
          else
            let target := if all then "*" else GoText.join "," to in
            match XAdd m now (Key tenantID)
                    (<["to" := target]> (<["type" := typ]> (<["data" := raw]> {["at" := Z_text (UnixMilli now)]})))%string (hc_MaxLen cfg) with
            | (m', Ok id) => (m', Ok id)
            | (m', Err e) => (m', Err (ErrClient e))
            end
      end
  end.

Definition Publish (cfg : Config) (m : Memory) (now : Time) (tenantID : string) (to : list string) (all : bool) (typ : string) (data : payload)
    : Memory * result hub_error () :=
  let '(m', r) := PublishID cfg m now tenantID to all typ data false in (m', match r with Ok _ => Ok () | Err e => Err e end).

(** Whether an entry's recipients include the user. *)
Definition targets (to user : string) : bool := (to =s "*") || existsb (String.eqb user) (split_byte "," to).

(** ** Subscriptions *)

(** Where the goroutine that opened the subscription is: still in [Subscribe]
    with a replay to read or to push, or returned to its reader. *)
Inductive sub_phase : Type := Replay (lastID : string) | Replaying (l : list Event) | Opened.

Record Subscription : Type := {
  sb_tenant : string; sb_user : string; sb_ch : list Event; sb_last : string; sb_closed : bool; sb_phase : sub_phase;
  sb_read : list Event (* received by the reader so far *) }.

(** [push]: the queued subscription and whether the subscriber kept up. *)
Definition push (ev : Event) (s : Subscription) : Subscription * bool :=
  if sb_closed s || (negb (is_empty (ev_ID ev)) && negb (is_empty (sb_last s)) && negb (Less (sb_last s) (ev_ID ev))) then (s, true)
  else
    let s := if negb (is_empty (ev_ID ev)) then {| s with sb_last := ev_ID ev |} else s in
    if (length (sb_ch s) <? connBuffer)%nat then ({| s with sb_ch := sb_ch s ++ [ev] |}, true) else (s, false).

Definition event_of (e : Entry) : Event :=
  let f k := default "" (en_Fields e !! k) in {| ev_ID := en_ID e; ev_Type := f "type"%string; ev_Data := f "data"%string |}.
Definition recipients (e : Entry) : string := default "" (en_Fields e !! "to"%string).

Definition quoted (s : string) : string := let q := String (ascii_of_nat 34) "" in q +:+ s +:+ q.
Definition reset_event (reason : string) : Event :=
  {| ev_ID := ""; ev_Type := "reset"; ev_Data := "{" +:+ quoted "reason" +:+ ":" +:+ quoted reason +:+ "}" |}.

(** ** The hub *)

(** A [tenantSub] with the state of the loop that serves it: the last id read,
    the entries read and not yet dispatched, the subscriptions the current
    entry is still to be pushed to, and the stalled one it is about to close. *)
Record tenantSub : Type := {
  ts_tenant : string; ts_conns : gset nat; ts_byUser : gmap string Z; ts_cancelled : bool; ts_last : string; ts_todo : list Entry;
  ts_push : list (nat * Event); ts_stalled : option nat }.

Record Hub : Type := {
  hb_client : Memory; hb_now : Time; hb_tenants : gmap string nat; hb_objs : gmap nat tenantSub; hb_subs : gmap nat Subscription;
  hb_nobjs : nat; hb_nsubs : nat; hb_closed : bool;
  hb_log : gmap string (list Entry) (* every entry ever added, by stream *) }.

Definition NewHub (now : Time) : Hub :=
  {| hb_client := NewMemory; hb_now := now; hb_tenants := ∅; hb_objs := ∅; hb_subs := ∅; hb_nobjs := O; hb_nsubs := O; hb_closed := false;
     hb_log := ∅ |}.

Definition put_sub (id : nat) (s : Subscription) (h : Hub) : Hub := {| h with hb_subs := <[id := s]> (hb_subs h) |}.
Definition put_obj (o : nat) (t : tenantSub) (h : Hub) : Hub := {| h with hb_objs := <[o := t]> (hb_objs h) |}.

Section hub.
Context (cfg : Config).

Definition user_count (t : tenantSub) (user : string) : Z := default 0 (ts_byUser t !! user).

(** The tenant's entry, created after the current tail of its stream. *)
Definition open_tenant (tenantID : string) (h : Hub) : result hub_error (Hub * nat) :=
  match hb_tenants h !! tenantID with
  | Some o => Ok (h, o)
  | None =>
      match XLast (hb_client h) (Key tenantID) with
      | Err e => Err (ErrClient e)
      | Ok start =>
          let o := hb_nobjs h in
          Ok ({| h with hb_tenants := <[tenantID := o]> (hb_tenants h); hb_nobjs := S o;
                 hb_objs := <[o := {| ts_tenant := tenantID; ts_conns := ∅; ts_byUser := ∅; ts_cancelled := false;
                                      ts_last := default_str start "0-0"; ts_todo := []; ts_push := []; ts_stalled := None |}]> (hb_objs h) |}, o)
      end
  end.

(** [Subscribe] up to releasing the hub's lock. *)
Definition Subscribe (tenantID userID lastID : string) (h : Hub) : Hub * result hub_error nat :=
  if hb_closed h then (h, Err ErrHubClosed)
  else match open_tenant tenantID h with
  | Err e => (h, Err e)
  | Ok (h, o) =>
      match hb_objs h !! o with
      | None => (h, Err ErrHubClosed)
      | Some t =>
          if (hc_StreamsPerUser cfg <=? user_count t userID) || (hc_StreamsPerTenant cfg <=? Z.of_nat (size (ts_conns t))) then (h, Err ErrTooMany)
          else
            let id := hb_nsubs h in
            let s := {| sb_tenant := tenantID; sb_user := userID; sb_ch := []; sb_last := ""; sb_closed := false;
                        sb_phase := if is_empty lastID then Opened else Replay lastID; sb_read := [] |} in
            let t' := {| t with ts_conns := {[id]} ∪ ts_conns t; ts_byUser := <[userID := user_count t userID + 1]> (ts_byUser t) |} in
            let h := put_sub id s (put_obj o t' h) in
            ({| h with hb_nsubs := S id |}, Ok id)
      end
  end.

(** The first half of [replay]: what it will push. *)
Definition replay_events (h : Hub) (s : Subscription) (lastID : string) : list Event :=
  let '(ms, _, ok) := ParseID lastID in
  if negb ok || (unix_epoch * 1000000000 + ms * 1000000 <? hb_now h - hc_ReplayWindow cfg) then [reset_event "replay_window"]
  else match XRange (hb_client h) (Key (sb_tenant s)) lastID (hc_MaxLen cfg) with
  | Err _ => [reset_event "replay_unavailable"]
  | Ok entries => event_of <$> List.filter (λ e, targets (recipients e) (sb_user s)) entries
  end.

(** [Close] of a subscription: both locks are held throughout. *)
Definition CloseSub (id : nat) (h : Hub) : Hub :=
  match hb_subs h !! id with
  | None => h
  | Some s =>
      if sb_closed s then h
      else
        let h := put_sub id {| s with sb_closed := true |} h in
        match hb_tenants h !! sb_tenant s with
        | None => h
        | Some o =>
            match hb_objs h !! o with
            | None => h
            | Some t =>
                let n := user_count t (sb_user s) - 1 in
                let t' := {| t with ts_conns := ts_conns t ∖ {[id]};
                             ts_byUser := if n <=? 0 then delete (sb_user s) (ts_byUser t) else <[sb_user s := n]> (ts_byUser t) |} in
                if (size (ts_conns t') =? 0)%nat then
                  let h := put_obj o {| t' with ts_cancelled := true |} h in {| h with hb_tenants := delete (sb_tenant s) (hb_tenants h) |}
                else put_obj o t' h
            end
        end
  end.

(** The subscriptions of an entry, in the order of the map of connections. *)
Definition audience (h : Hub) (t : tenantSub) (e : Entry) : list (nat * Event) :=
  omap (λ id, match hb_subs h !! id with
              | Some s => if targets (recipients e) (sb_user s) then Some (id, event_of e) else None
              | None => None
              end) (elements (ts_conns t)).

(** *** The atomic actions *)

Inductive action : Type :=
| APublish (tenantID : string) (to : list string) (all : bool) (typ : string) (data : payload) (module_ : bool)
| ASubscribe (tenantID userID lastID : string)
| AReplayRead (id : nat)      (* XRange of a replay *)
| AReplayPush (id : nat)      (* one push of a replay, or its end *)
| ATrim (o : nat)             (* the loop's ticker fires *)
| ARead (o : nat)             (* the loop's XRead returns *)
| ADispatch (o : nat)         (* the loop takes the next entry and its audience *)
| APush (o : nat)             (* one push of a dispatch *)
| ACloseStalled (o : nat)     (* the loop closes the subscription that stalled *)
| AReceive (id : nat)         (* the reader takes an event *)
| AClose (id : nat)           (* the reader leaves, or [Hub.Close] reaches it *)
| AShutdown                   (* [Hub.Close] cancels the loops *)
| AOutage (e : option error)  (* the client starts or stops failing *)
| ATick (d : Z).              (* time passes *)

(** The loop is stopped or has not finished the last batch. *)
Definition busy (t : tenantSub) : bool :=
  ts_cancelled t || negb (is_nil (ts_todo t)) || negb (is_nil (ts_push t)) || is_some (ts_stalled t).

Definition step (a : action) (h : Hub) : option Hub :=
  match a with
  | APublish tenantID to all typ data module_ =>
      let '(m, r) := PublishID cfg (hb_client h) (hb_now h) tenantID to all typ data module_ in
      let added := match r with Ok _ => option_list (last (stream_of m (Key tenantID))) | Err _ => [] end in
      Some {| h with hb_client := m; hb_log := <[Key tenantID := default [] (hb_log h !! Key tenantID) ++ added]> (hb_log h) |}
  | ASubscribe tenantID userID lastID => Some (fst (Subscribe tenantID userID lastID h))
  | AReplayRead id =>
      s ← hb_subs h !! id;
      match sb_phase s with Replay lastID => Some (put_sub id {| s with sb_phase := Replaying (replay_events h s lastID) |} h) | _ => None end
  | AReplayPush id =>
      s ← hb_subs h !! id;
      match sb_phase s with
      | Replaying [] => Some (put_sub id {| s with sb_phase := Opened |} h)
      | Replaying (ev :: l) => Some (put_sub id (fst (push ev {| s with sb_phase := Replaying l |})) h)
      | _ => None
      end
  | ATrim o =>
      t ← hb_objs h !! o;
      if busy t then None
      else Some {| h with hb_client := fst (XTrimMinID (hb_client h) (Key (ts_tenant t)) (ID (hb_now h - hc_ReplayWindow cfg) 0)) |}
  | ARead o =>
      t ← hb_objs h !! o;
      if busy t then None
      else match XRead (hb_client h) (Key (ts_tenant t)) (ts_last t) 100 with
           | Err _ => Some h
           | Ok entries => Some (put_obj o {| t with ts_todo := entries |} h)
           end
  | ADispatch o =>
      t ← hb_objs h !! o;
      match ts_todo t, ts_push t, ts_stalled t with
      | e :: l, [], None => Some (put_obj o {| t with ts_last := en_ID e; ts_todo := l; ts_push := audience h t e |} h)
      | _, _, _ => None
      end
  | APush o =>
      t ← hb_objs h !! o;
      match ts_push t, ts_stalled t with
      | (id, ev) :: l, None =>
          s ← hb_subs h !! id;
          let '(s', ok) := push ev s in
          Some (put_sub id s' (put_obj o {| t with ts_push := l; ts_stalled := if (ok : bool) then None else Some id |} h))
      | _, _ => None
      end
  | ACloseStalled o =>
      t ← hb_objs h !! o;
      id ← ts_stalled t;
      Some (CloseSub id (put_obj o {| t with ts_stalled := None |} h))
  | AReceive id =>
      s ← hb_subs h !! id;
      match sb_phase s, sb_ch s with
      | Opened, ev :: l => Some (put_sub id {| s with sb_ch := l; sb_read := sb_read s ++ [ev] |} h)
      | _, _ => None
      end
  | AClose id => Some (CloseSub id h)
  | AShutdown => Some {| h with hb_closed := true; hb_objs := (λ t, {| t with ts_cancelled := true |}) <$> hb_objs h |}
  | AOutage e => let m := hb_client h in Some {| h with hb_client := {| m with mm_Err := e |} |}
  | ATick d => if d <? 0 then None else Some {| h with hb_now := hb_now h + d |}
  end.

Fixpoint run (l : list action) (h : Hub) : option Hub := match l with [] => Some h | a :: l' => h' ← step a h; run l' h' end.

Definition OpenStreams (h : Hub) : nat :=
  foldr (λ o n, match hb_objs h !! o with Some t => size (ts_conns t) + n | None => n end)%nat O (snd <$> map_to_list (hb_tenants h)).

(** States the hub can be in. *)
Inductive reachable : Hub → Prop :=
| reach_new now : reachable (NewHub now)
| reach_step a h h' : reachable h → step a h = Some h' → reachable h'.
End hub.

(** ** Server-sent events (sse.go) *)

Definition sse_Retry : Z := 3000.
Definition nl : string := String LF "".

Fixpoint drop_bytes (cs : list ascii) (s : string) : string :=
  match s with
  | EmptyString => ""
  | String c s' => if existsb (Ascii.eqb c) cs then drop_bytes cs s' else String c (drop_bytes cs s')
  end.

Definition Frame (ev : Event) : string :=
  (if is_empty (ev_ID ev) then "" else "id: " +:+ ev_ID ev +:+ nl) +:+
  "event: " +:+ ev_Type ev +:+ nl +:+
  "data: " +:+ drop_bytes [CR; LF] (ev_Data ev) +:+ nl +:+ nl.
