(* ===== verification/StreamProps.v ===== *)
(** * What the realtime hub guarantees

    [hub_invariant]: in every reachable state the connection limits hold and
    the counters are exact, every open subscription is served by a running
    loop, no channel exceeds its buffer, and a subscription only ever holds
    events of its own tenant addressed to its user, in increasing order
    without repetition.  [replay_loses_overflow]: a replay of more events than
    the buffer holds silently loses the rest. *)

From S2P Require Import Prelude GoText Models Store HostNorm Stream.

(** ** Stream ids *)

Lemma Less_irrefl a : Less a a = false.
Proof. unfold Less. destruct (ParseID a) as [[m s] ?]. rewrite Z.eqb_refl. cbn. apply Z.ltb_irrefl. Qed.

Lemma Less_trans a b c : Less a b = true → Less b c = true → Less a c = true.
Proof.
  unfold Less. destruct (ParseID a) as [[am as_] ?], (ParseID b) as [[bm bs] ?], (ParseID c) as [[cm cs] ?].
  destruct (am =? bm) eqn:E1, (bm =? cm) eqn:E2, (am =? cm) eqn:E3; cbn; bool_hyps; intros H1 H2; bool_hyps; apply Z.ltb_lt; lia.
Qed.

(** ** One subscription *)

Definition hist (s : Subscription) : list Event := sb_read s ++ sb_ch s.
Definition ids (l : list Event) : list string := List.filter (λ i, negb (is_empty i)) (ev_ID <$> l).

(** Delivered in increasing order, the last one remembered. *)
Record ordered (s : Subscription) : Prop := {
  or_sorted : StronglySorted (λ a b, Less a b = true) (ids (hist s));
  or_last : ∀ i, i ∈ ids (hist s) → i = sb_last s ∨ Less i (sb_last s) = true;
  or_none : sb_last s = "" → ids (hist s) = [];
  or_buffer : (length (sb_ch s) ≤ connBuffer)%nat }.

Lemma ids_app l1 l2 : ids (l1 ++ l2) = ids l1 ++ ids l2.
Proof. unfold ids. by rewrite fmap_app, List.filter_app. Qed.

Lemma sorted_snoc {A} (R : A → A → Prop) l x : StronglySorted R l → Forall (λ y, R y x) l → StronglySorted R (l ++ [x]).
Proof.
  intros Hs. induction Hs as [|y l Hs IH Hy]; intros Hx; cbn; [repeat constructor|].
  apply Forall_cons in Hx as [Hyx Hx]. constructor; [by apply IH|]. apply Forall_app. split; [done|by constructor].
Qed.

(** What a push can do. *)
Inductive pushed (ev : Event) (s : Subscription) : Subscription → bool → Prop :=
| pushed_skip : (sb_closed s = true ∨ (ev_ID ev ≠ "" ∧ sb_last s ≠ "" ∧ Less (sb_last s) (ev_ID ev) = false)) → pushed ev s s true
| pushed_queue l s' : s' = {| s with sb_last := l; sb_ch := sb_ch s ++ [ev] |} → sb_closed s = false → (length (sb_ch s) < connBuffer)%nat → (ev_ID ev = "" ∧ l = sb_last s ∨ ev_ID ev ≠ "" ∧ l = ev_ID ev) →
    (ev_ID ev = "" ∨ sb_last s = "" ∨ Less (sb_last s) (ev_ID ev) = true) →
    pushed ev s s' true
| pushed_full l s' : s' = {| s with sb_last := l |} → sb_closed s = false → (connBuffer ≤ length (sb_ch s))%nat → (ev_ID ev = "" ∧ l = sb_last s ∨ ev_ID ev ≠ "" ∧ l = ev_ID ev) →
    (ev_ID ev = "" ∨ sb_last s = "" ∨ Less (sb_last s) (ev_ID ev) = true) →
    pushed ev s s' false.

Ltac sub_simpl := cbv zeta; cbn [sb_tenant sb_user sb_ch sb_last sb_closed sb_phase sb_read].

Lemma push_spec ev s : pushed ev s (fst (push ev s)) (snd (push ev s)).
Proof.
  destruct s as [te us ch la cl ph rd]. unfold push. sub_simpl. destruct cl; cbn [orb]; [by apply pushed_skip; left|].
  destruct (is_empty (ev_ID ev)) eqn:Ei; cbn [negb andb]; sub_simpl.
  - apply is_empty_spec in Ei. destruct (length ch <? connBuffer)%nat eqn:El; apply Nat.ltb_lt in El || apply Nat.ltb_ge in El; cbn [fst snd];
      [by apply (pushed_queue _ _ la); cbn; auto|by apply (pushed_full _ _ la); cbn; auto].
  - assert (Hne : ev_ID ev ≠ "") by (by intros E; rewrite E in Ei).
    assert (Hnew : (la = "" ∨ Less la (ev_ID ev) = true) → pushed ev {| sb_tenant := te; sb_user := us; sb_ch := ch; sb_last := la; sb_closed := false; sb_phase := ph; sb_read := rd |}
      (fst (if (length ch <? connBuffer)%nat then ({| sb_tenant := te; sb_user := us; sb_ch := ch ++ [ev]; sb_last := ev_ID ev; sb_closed := false; sb_phase := ph; sb_read := rd |}, true)
            else ({| sb_tenant := te; sb_user := us; sb_ch := ch; sb_last := ev_ID ev; sb_closed := false; sb_phase := ph; sb_read := rd |}, false)))
      (snd (if (length ch <? connBuffer)%nat then ({| sb_tenant := te; sb_user := us; sb_ch := ch ++ [ev]; sb_last := ev_ID ev; sb_closed := false; sb_phase := ph; sb_read := rd |}, true)
            else ({| sb_tenant := te; sb_user := us; sb_ch := ch; sb_last := ev_ID ev; sb_closed := false; sb_phase := ph; sb_read := rd |}, false)))).
    { intros Hl. destruct (length ch <? connBuffer)%nat eqn:El; apply Nat.ltb_lt in El || apply Nat.ltb_ge in El; cbn [fst snd];
      [by apply (pushed_queue _ _ (ev_ID ev)); cbn; auto|by apply (pushed_full _ _ (ev_ID ev)); cbn; auto]. }
    destruct (is_empty la) eqn:Es; cbn [negb andb]; [apply Hnew; left; by apply is_empty_spec|].
    destruct (Less la (ev_ID ev)) eqn:Ell; cbn [negb]; [by apply Hnew; right|].
    apply pushed_skip. right. cbn. split_and!; [done|by intros ->|done].
Qed.

Lemma ids_one ev : ids [ev] = if is_empty (ev_ID ev) then [] else [ev_ID ev].
Proof. unfold ids. cbn. by destruct (is_empty _). Qed.

(** Ids already seen come before a newer one. *)
Lemma older_than s i : ordered s → (sb_last s = "" ∨ Less (sb_last s) i = true) → Forall (λ j, Less j i = true) (ids (hist s)).
Proof.
  intros Ho [Hn|Hl]; [by rewrite (or_none _ Ho Hn)|]. apply Forall_forall. intros j Hj.
  destruct (or_last _ Ho j Hj) as [->|Hjl]; [done|by eapply Less_trans].
Qed.

Lemma push_ordered ev s s' ok : pushed ev s s' ok → ordered s → ordered s'.
Proof.
  intros Hp Ho. destruct Hp as [_|l s' -> Hc Hb Hl Hlt|l s' -> Hc Hb Hl Hlt]; [done| |].
  - assert (Ei : ids (hist {| s with sb_last := l; sb_ch := sb_ch s ++ [ev] |}) = ids (hist s) ++ (if is_empty (ev_ID ev) then [] else [ev_ID ev])).
    { unfold hist. sub_simpl. by rewrite app_assoc, (ids_app (_ ++ _) [ev]), ids_one. }
    destruct Hl as [[E ->]|[E ->]].
    + rewrite E in Ei. cbn [is_empty] in Ei. rewrite app_nil_r in Ei. destruct Ho as [Hs Hla Hn Hbuf].
      split; [by rewrite Ei|by rewrite Ei|by rewrite Ei|]. sub_simpl. rewrite length_app. cbn. lia.
    + assert (En : is_empty (ev_ID ev) = false) by (by destruct (ev_ID ev)). rewrite En in Ei.
      assert (Hall : Forall (λ j, Less j (ev_ID ev) = true) (ids (hist s))) by (apply older_than; [done|naive_solver]).
      split; rewrite ?Ei; cbn [sb_last sb_ch].
      * apply sorted_snoc; [apply Ho|done].
      * intros i [Hi| ->%list_elem_of_singleton]%elem_of_app; [right|by left]. rewrite Forall_forall in Hall. by apply Hall.
      * done.
      * rewrite length_app. cbn. lia.
  - destruct Hl as [[E ->]|[E ->]]; [by destruct Ho|].
    assert (Hall : Forall (λ j, Less j (ev_ID ev) = true) (ids (hist s))) by (apply older_than; [done|naive_solver]).
    destruct Ho as [Hs Hlast Hn Hbuf]. split; cbn; try done. intros i Hi. right. rewrite Forall_forall in Hall. by apply Hall.
Qed.

(** ** Who is connected *)

(** The part of the state the accounting depends on. *)
Record oskel : Type := { so_tenant : string; so_conns : gset nat; so_byUser : gmap string Z; so_cancelled : bool }.
Record cskel : Type := { sc_tenant : string; sc_user : string; sc_closed : bool }.
Record skel : Type := {
  sk_tenants : gmap string nat; sk_objs : gmap nat oskel; sk_subs : gmap nat cskel; sk_nobjs : nat; sk_nsubs : nat; sk_closed : bool }.

Definition obj_skel (t : tenantSub) : oskel :=
  {| so_tenant := ts_tenant t; so_conns := ts_conns t; so_byUser := ts_byUser t; so_cancelled := ts_cancelled t |}.
Definition sub_skel (s : Subscription) : cskel := {| sc_tenant := sb_tenant s; sc_user := sb_user s; sc_closed := sb_closed s |}.
Definition skel_of (h : Hub) : skel :=
  {| sk_tenants := hb_tenants h; sk_objs := obj_skel <$> hb_objs h; sk_subs := sub_skel <$> hb_subs h; sk_nobjs := hb_nobjs h;
     sk_nsubs := hb_nsubs h; sk_closed := hb_closed h |}.

(** The connections of a user in a tenant. *)
Definition conns_of (k : skel) (t : oskel) (u : string) : gset nat := filter (λ id, sc_user <$> sk_subs k !! id = Some u) (so_conns t).
Definition count_of (t : oskel) (u : string) : Z := default 0 (so_byUser t !! u).

Record conns_ok (cfg : Config) (k : skel) : Prop := {
  ko_tenant : ∀ T o, sk_tenants k !! T = Some o →
    ∃ t, sk_objs k !! o = Some t ∧ so_tenant t = T ∧ (sk_closed k = false → so_cancelled t = false);
  ko_conn : ∀ o t id, sk_objs k !! o = Some t → id ∈ so_conns t →
    sk_tenants k !! so_tenant t = Some o ∧ ∃ s, sk_subs k !! id = Some s ∧ sc_tenant s = so_tenant t ∧ sc_closed s = false;
  ko_open : ∀ id s, sk_subs k !! id = Some s → sc_closed s = false →
    ∃ o t, sk_tenants k !! sc_tenant s = Some o ∧ sk_objs k !! o = Some t ∧ id ∈ so_conns t;
  ko_count : ∀ o t u, sk_objs k !! o = Some t → count_of t u = Z.of_nat (size (conns_of k t u));
  ko_user_limit : ∀ o t u, sk_objs k !! o = Some t → count_of t u ≤ hc_StreamsPerUser cfg;
  ko_tenant_limit : ∀ o t, sk_objs k !! o = Some t → Z.of_nat (size (so_conns t)) ≤ hc_StreamsPerTenant cfg;
  ko_fresh_sub : ∀ id s, sk_subs k !! id = Some s → (id < sk_nsubs k)%nat;
  ko_fresh_obj : ∀ o t, sk_objs k !! o = Some t → (o < sk_nobjs k)%nat }.

(** Every tenant with an entry has a connection. *)
Definition no_idle (k : skel) : Prop := ∀ T o t, sk_tenants k !! T = Some o → sk_objs k !! o = Some t → so_conns t ≠ ∅.

(** Rewriting a row that keeps its skeleton. *)
Lemma skel_put_sub h id s s' : hb_subs h !! id = Some s → sub_skel s' = sub_skel s → skel_of (put_sub id s' h) = skel_of h.
Proof.
  intros Hs E. unfold skel_of, put_sub. cbn. f_equal. rewrite fmap_insert, E, <- fmap_insert. by rewrite insert_id.
Qed.
Lemma skel_put_obj h o t t' : hb_objs h !! o = Some t → obj_skel t' = obj_skel t → skel_of (put_obj o t' h) = skel_of h.
Proof.
  intros Hs E. unfold skel_of, put_obj. cbn. f_equal. rewrite fmap_insert, E, <- fmap_insert. by rewrite insert_id.
Qed.
Lemma push_skel ev s : sub_skel (fst (push ev s)) = sub_skel s.
Proof. by destruct (push_spec ev s) as [?|l s' ->|l s' ->]. Qed.

Section accounting.
Context (c : Config).
Notation cfg := (NewHub_config c).

Lemma limits_positive : 0 < hc_StreamsPerUser cfg ∧ 0 < hc_StreamsPerTenant cfg.
Proof. cbn. destruct (hc_StreamsPerUser c <=? 0) eqn:E1, (hc_StreamsPerTenant c <=? 0) eqn:E2; bool_hyps; lia. Qed.

(** A connection added to a tenant's entry. *)
Definition add_conn (k : skel) (o : nat) (t : oskel) (u : string) : skel :=
  let id := sk_nsubs k in
  {| k with sk_objs := <[o := {| t with so_conns := {[id]} ∪ so_conns t; so_byUser := <[u := count_of t u + 1]> (so_byUser t) |}]> (sk_objs k);
     sk_subs := <[id := {| sc_tenant := so_tenant t; sc_user := u; sc_closed := false |}]> (sk_subs k); sk_nsubs := S id |}.

Lemma count_insert t cs u n v :
  count_of {| t with so_conns := cs; so_byUser := <[u := n]> (so_byUser t) |} v = if decide (u = v) then n else count_of t v.
Proof. unfold count_of. cbn [so_byUser]. destruct (decide (u = v)) as [->|Hne]; [by rewrite lookup_insert_eq|by rewrite lookup_insert_ne]. Qed.

Lemma size_user_add (k : skel) (t : oskel) id u v (s : cskel) : id ∉ so_conns t → sk_subs k !! id = None → sc_user s = u →
  size (filter (λ j, sc_user <$> <[id := s]> (sk_subs k) !! j = Some v) ({[id]} ∪ so_conns t)) =
  (if decide (u = v) then S (size (conns_of k t v)) else size (conns_of k t v)).
Proof.
  intros Hid Hn Hu.
  assert (E : filter (λ j, sc_user <$> <[id := s]> (sk_subs k) !! j = Some v) ({[id]} ∪ so_conns t) =
              (if decide (u = v) then {[id]} else ∅) ∪ conns_of k t v).
  { apply set_eq. intros j. unfold conns_of. rewrite elem_of_filter, !elem_of_union, elem_of_filter, elem_of_singleton.
    destruct (decide (j = id)) as [->|Hj].
    - rewrite lookup_insert_eq, Hn. cbn. destruct (decide (u = v)); set_solver.
    - rewrite lookup_insert_ne by done. destruct (decide (u = v)); set_solver. }
  rewrite E. destruct (decide (u = v)); [|by rewrite union_empty_l_L].
  rewrite size_union, size_singleton; [done|]. unfold conns_of. set_solver.
Qed.

Lemma add_conn_ok k o t u : conns_ok cfg k → sk_objs k !! o = Some t → sk_tenants k !! so_tenant t = Some o →
  count_of t u < hc_StreamsPerUser cfg → Z.of_nat (size (so_conns t)) < hc_StreamsPerTenant cfg → conns_ok cfg (add_conn k o t u).
Proof.
  intros Hk Ho Ht Hu Hs. set (id := sk_nsubs k).
  assert (Hn : sk_subs k !! id = None). { destruct (sk_subs k !! id) eqn:E; [|done]. apply (ko_fresh_sub _ _ Hk) in E. unfold id in E. lia. }
  assert (Hid : ∀ o' t', sk_objs k !! o' = Some t' → id ∉ so_conns t').
  { intros o' t' Ho' Hc. destruct (ko_conn _ _ Hk _ _ _ Ho' Hc) as (_ & s & E & _). congruence. }
  unfold add_conn. fold id. split; cbn [sk_tenants sk_objs sk_subs sk_nobjs sk_nsubs sk_closed].
  - intros T o' HT. destruct (ko_tenant _ _ Hk _ _ HT) as (t' & Ho' & ET & Hc). destruct (decide (o' = o)) as [->|Hne].
    + rewrite Ho in Ho'. injection Ho' as <-. eexists. split; [apply lookup_insert_eq|]. done.
    + exists t'. by rewrite lookup_insert_ne.
  - intros o' t' j Ho' Hj. apply lookup_insert_Some in Ho' as [[<- <-]|[Hne Ho']]; cbn in *.
    + split; [done|]. apply elem_of_union in Hj as [->%elem_of_singleton|Hj]; [eexists; split; [apply lookup_insert_eq|done]|].
      destruct (ko_conn _ _ Hk _ _ _ Ho Hj) as (_ & s & Es & ?). exists s. rewrite lookup_insert_ne; [done|]. intros <-. congruence.
    + destruct (ko_conn _ _ Hk _ _ _ Ho' Hj) as (? & s & Es & ?). split; [done|]. exists s. rewrite lookup_insert_ne; [done|]. intros <-. congruence.
  - intros j s Hj Hc. apply lookup_insert_Some in Hj as [[<- <-]|[Hne Hj]]; cbn in *.
    + exists o. eexists. split; [done|]. split; [apply lookup_insert_eq|]. cbn. set_solver.
    + destruct (ko_open _ _ Hk _ _ Hj Hc) as (o' & t' & E1 & E2 & E3). exists o'. destruct (decide (o' = o)) as [->|Hno].
      * rewrite Ho in E2. injection E2 as <-. eexists. split; [done|]. split; [apply lookup_insert_eq|]. cbn. set_solver.
      * exists t'. by rewrite lookup_insert_ne.
  - intros o' t' v Ho'. apply lookup_insert_Some in Ho' as [[<- <-]|[Hne Ho']]; unfold conns_of; cbn [so_conns sk_subs].
    + rewrite (size_user_add k t id u); [|by eapply Hid|done|done]. rewrite count_insert.
      pose proof (ko_count _ _ Hk _ _ v Ho) as Hcv. destruct (decide (u = v)) as [->|Huv]; lia.
    + rewrite (ko_count _ _ Hk _ _ v Ho'). do 2 f_equal. apply set_eq. intros j. unfold conns_of. rewrite !elem_of_filter. destruct (decide (j = id)) as [->|Hj].
      * pose proof (Hid _ _ Ho'). set_solver.
      * by rewrite lookup_insert_ne.
  - intros o' t' v Ho'. apply lookup_insert_Some in Ho' as [[<- <-]|[Hne Ho']]; [|by eapply ko_user_limit].
    rewrite count_insert. destruct (decide (u = v)) as [->|Huv]; [lia|]. by eapply (ko_user_limit _ _ Hk).
  - intros o' t' Ho'. apply lookup_insert_Some in Ho' as [[<- <-]|[Hne Ho']]; [|by eapply ko_tenant_limit]. cbn [so_conns].
    rewrite size_union, size_singleton; [lia|]. apply disjoint_singleton_l. by eapply Hid.
  - intros j s Hj. apply lookup_insert_Some in Hj as [[<- _]|[_ Hj]]; [lia|]. apply (ko_fresh_sub _ _ Hk) in Hj. fold id in Hj. lia.
  - intros o' t' Ho'. apply lookup_insert_Some in Ho' as [[<- _]|[_ Ho']]; [|by eapply ko_fresh_obj]. by eapply (ko_fresh_obj _ _ Hk).
Qed.

(** A tenant's entry without connections yet. *)
Definition add_tenant (k : skel) (T : string) : skel :=
  let o := sk_nobjs k in
  {| k with sk_tenants := <[T := o]> (sk_tenants k); sk_nobjs := S o;
     sk_objs := <[o := {| so_tenant := T; so_conns := ∅; so_byUser := ∅; so_cancelled := false |}]> (sk_objs k) |}.

Lemma add_tenant_ok k T : conns_ok cfg k → sk_tenants k !! T = None → conns_ok cfg (add_tenant k T).
Proof.
  intros Hk HT. set (o := sk_nobjs k). pose proof limits_positive as [Hpu Hpt].
  assert (Hn : sk_objs k !! o = None). { destruct (sk_objs k !! o) eqn:E; [|done]. apply (ko_fresh_obj _ _ Hk) in E. unfold o in E. lia. }
  unfold add_tenant. fold o. split; cbn [sk_tenants sk_objs sk_subs sk_nobjs sk_nsubs sk_closed].
  - intros T' o' HT'. apply lookup_insert_Some in HT' as [[<- <-]|[Hne HT']]; [eexists; split; [apply lookup_insert_eq|done]|].
    destruct (ko_tenant _ _ Hk _ _ HT') as (t & Ho & ?). exists t. rewrite lookup_insert_ne; [done|]. intros E. congruence.
  - intros o' t id Ho Hid. apply lookup_insert_Some in Ho as [[<- <-]|[Hne Ho]]; [cbn in Hid; set_solver|].
    destruct (ko_conn _ _ Hk _ _ _ Ho Hid) as [Ht ?]. split; [|done]. rewrite lookup_insert_ne; [done|]. intros E. congruence.
  - intros id s Hs Hc. destruct (ko_open _ _ Hk _ _ Hs Hc) as (o' & t & E1 & E2 & E3). exists o', t.
    rewrite !lookup_insert_ne; [done| |]; intros E; congruence.
  - intros o' t u Ho. apply lookup_insert_Some in Ho as [[<- <-]|[Hne Ho]]; [|by eapply (ko_count _ _ Hk)].
    unfold conns_of, count_of. cbn [so_byUser so_conns]. rewrite lookup_empty. match goal with |- context [size ?X] => replace X with (∅ : gset nat) by set_solver end. done.
  - intros o' t u Ho. apply lookup_insert_Some in Ho as [[<- <-]|[Hne Ho]]; [|by eapply ko_user_limit].
    unfold count_of. cbn [so_byUser]. rewrite lookup_empty. cbn [from_option]. lia.
  - intros o' t Ho. apply lookup_insert_Some in Ho as [[<- <-]|[Hne Ho]]; [|by eapply ko_tenant_limit]. cbn [so_conns]. rewrite size_empty. lia.
  - intros id s Hs. by eapply ko_fresh_sub.
  - intros o' t Ho. apply lookup_insert_Some in Ho as [[<- <-]|[Hne Ho]]; [lia|]. apply (ko_fresh_obj _ _ Hk) in Ho. unfold o. lia.
Qed.

(** A connection closed: the last one of a tenant takes its entry along. *)
Definition drop_conn (k : skel) (id : nat) (s : cskel) (o : nat) (t : oskel) : skel :=
  let n := count_of t (sc_user s) - 1 in
  let cs := so_conns t ∖ {[id]} in
  let idle := (size cs =? 0)%nat in
  {| k with sk_subs := <[id := {| s with sc_closed := true |}]> (sk_subs k);
     sk_objs := <[o := {| t with so_conns := cs; so_byUser := if n <=? 0 then delete (sc_user s) (so_byUser t) else <[sc_user s := n]> (so_byUser t);
                          so_cancelled := so_cancelled t || idle |}]> (sk_objs k);
     sk_tenants := if idle then delete (so_tenant t) (sk_tenants k) else sk_tenants k |}.

Lemma size_user_drop (k : skel) (t : oskel) id (s s' : cskel) v : id ∈ so_conns t → sk_subs k !! id = Some s →
  size (conns_of k t v) =
  (size (filter (λ j, sc_user <$> <[id := s']> (sk_subs k) !! j = Some v) (so_conns t ∖ {[id]})) + if decide (sc_user s = v) then 1 else 0)%nat.
Proof.
  intros Hid Hs.
  assert (E : conns_of k t v = filter (λ j, sc_user <$> <[id := s']> (sk_subs k) !! j = Some v) (so_conns t ∖ {[id]}) ∪
              (if decide (sc_user s = v) then {[id]} else ∅)).
  { apply set_eq. intros j. unfold conns_of. rewrite elem_of_union, !elem_of_filter, elem_of_difference, elem_of_singleton.
    destruct (decide (j = id)) as [->|Hj].
    - rewrite Hs. cbn. destruct (decide (sc_user s = v)); set_solver.
    - rewrite lookup_insert_ne by done. destruct (decide (sc_user s = v)); set_solver. }
  rewrite E. destruct (decide (sc_user s = v)); [|rewrite union_empty_r_L; lia]. rewrite size_union, size_singleton; [done|set_solver].
Qed.

Lemma count_drop t cs b u v :
  let n := count_of t u - 1 in 0 ≤ n →
  count_of {| t with so_conns := cs; so_byUser := if n <=? 0 then delete u (so_byUser t) else <[u := n]> (so_byUser t); so_cancelled := b |} v =
  count_of t v - if decide (u = v) then 1 else 0.
Proof.
  cbv zeta. intros Hn. unfold count_of at 1. cbn [so_byUser]. destruct (_ <=? 0) eqn:E; bool_hyps; destruct (decide (u = v)) as [->|Hne].
  - rewrite lookup_delete_eq. cbn [from_option]. lia.
  - rewrite lookup_delete_ne by done. unfold count_of. lia.
  - by rewrite lookup_insert_eq.
  - rewrite lookup_insert_ne by done. unfold count_of. lia.
Qed.

Lemma drop_conn_ok k id s o t : conns_ok cfg k → sk_subs k !! id = Some s → sk_tenants k !! sc_tenant s = Some o → sk_objs k !! o = Some t →
  id ∈ so_conns t → sc_tenant s = so_tenant t → conns_ok cfg (drop_conn k id s o t).
Proof.
  intros Hk Hs HT Ho Hid Et. rewrite Et in HT.
  assert (Hother : ∀ o' t', sk_objs k !! o' = Some t' → o' ≠ o → id ∉ so_conns t').
  { intros o' t' Ho' Hne Hc. destruct (ko_conn _ _ Hk _ _ _ Ho' Hc) as (E1 & s' & E2 & E3 & _). rewrite Hs in E2. injection E2 as <-.
    rewrite <- E3, Et, HT in E1. congruence. }
  pose proof (ko_count _ _ Hk _ _ (sc_user s) Ho) as Hcnt. rewrite (size_user_drop k t id s {| s with sc_closed := true |}) in Hcnt by done.
  destruct (decide (sc_user s = sc_user s)) as [_|?]; [|done].
  unfold drop_conn. cbv zeta. set (cs := so_conns t ∖ {[id]}).
  assert (Hidle : (size cs =? 0)%nat = true → cs = ∅) by (intros E; bool_hyps; apply size_empty_inv in E; set_solver).
  split; cbn [sk_tenants sk_objs sk_subs sk_nobjs sk_nsubs sk_closed].
  - intros T' o' HT'. assert (HT2 : sk_tenants k !! T' = Some o') by (destruct (size cs =? 0)%nat; [by apply lookup_delete_Some in HT' as [_ ?]|done]).
    destruct (ko_tenant _ _ Hk _ _ HT2) as (t' & Ho' & <- & Hc). destruct (decide (o' = o)) as [->|Hne].
    + rewrite Ho in Ho'. injection Ho' as <-. destruct (size cs =? 0)%nat; [by rewrite lookup_delete_eq in HT'|].
      eexists. split; [apply lookup_insert_eq|]. split; [done|]. cbn. intros Hcl. by rewrite Hc.
    + exists t'. by rewrite lookup_insert_ne.
  - intros o' t' j Ho' Hj. apply lookup_insert_Some in Ho' as [[<- <-]|[Hne Ho']]; cbn [so_conns so_tenant] in *.
    + destruct (size cs =? 0)%nat eqn:Ei; [rewrite Hidle in Hj by done; set_solver|]. split; [done|].
      apply elem_of_difference in Hj as [Hj Hji]. destruct (ko_conn _ _ Hk _ _ _ Ho Hj) as (_ & s' & E & ?). exists s'. rewrite lookup_insert_ne; [done|set_solver].
    + destruct (ko_conn _ _ Hk _ _ _ Ho' Hj) as (E1 & s' & E2 & E3 & E4). pose proof (Hother _ _ Ho' (not_eq_sym Hne)). split.
      * destruct (size cs =? 0)%nat; [|done]. rewrite lookup_delete_ne; [done|]. intros E. rewrite <- E, HT in E1. congruence.
      * exists s'. rewrite lookup_insert_ne; [done|]. by intros ->.
  - intros j s' Hj Hc. apply lookup_insert_Some in Hj as [[<- <-]|[Hne Hj]]; [done|].
    destruct (ko_open _ _ Hk _ _ Hj Hc) as (o' & t' & E1 & E2 & E3). exists o'. destruct (decide (o' = o)) as [->|Hno].
    + rewrite Ho in E2. injection E2 as <-. assert (Hjc : j ∈ cs) by set_solver.
      destruct (size cs =? 0)%nat eqn:Ei; [rewrite Hidle in Hjc by done; set_solver|]. eexists. split; [done|]. split; [apply lookup_insert_eq|done].
    + exists t'. rewrite lookup_insert_ne by done. split; [|done]. destruct (size cs =? 0)%nat; [|done]. rewrite lookup_delete_ne; [done|].
      intros E. rewrite E, E1 in HT. congruence.
  - intros o' t' v Ho'. apply lookup_insert_Some in Ho' as [[<- <-]|[Hne Ho']].
    + rewrite count_drop by lia. unfold conns_of. cbn [so_conns sk_subs].
      pose proof (ko_count _ _ Hk _ _ v Ho) as Hv. rewrite (size_user_drop k t id s {| s with sc_closed := true |}) in Hv by done. fold cs in Hv.
      destruct (decide (sc_user s = v)); lia.
    + rewrite (ko_count _ _ Hk _ _ v Ho'). do 2 f_equal. unfold conns_of. apply set_eq. intros j. rewrite !elem_of_filter. cbn [sk_subs].
      destruct (decide (j = id)) as [->|Hj]; [pose proof (Hother _ _ Ho' (not_eq_sym Hne)); set_solver|by rewrite lookup_insert_ne].
  - intros o' t' v Ho'. apply lookup_insert_Some in Ho' as [[<- <-]|[Hne Ho']]; [|by eapply ko_user_limit].
    rewrite count_drop by lia. pose proof (ko_user_limit _ _ Hk _ _ v Ho). destruct (decide _); lia.
  - intros o' t' Ho'. apply lookup_insert_Some in Ho' as [[<- <-]|[Hne Ho']]; [|by eapply ko_tenant_limit]. cbn [so_conns].
    pose proof (ko_tenant_limit _ _ Hk _ _ Ho). pose proof (subseteq_size cs (so_conns t) ltac:(set_solver)). lia.
  - intros j s' Hj. apply lookup_insert_Some in Hj as [[<- _]|[_ Hj]]; by eapply (ko_fresh_sub _ _ Hk).
  - intros o' t' Ho'. apply lookup_insert_Some in Ho' as [[<- _]|[_ Ho']]; by eapply (ko_fresh_obj _ _ Hk).
Qed.

(** *** Every step keeps the accounting *)

Definition accounted (h : Hub) : Prop := conns_ok cfg (skel_of h) ∧ no_idle (skel_of h).

Lemma accounted_same h h' : skel_of h' = skel_of h → accounted h → accounted h'.
Proof. unfold accounted. by intros ->. Qed.

Lemma lookup_sub_skel h id s : hb_subs h !! id = Some s → sk_subs (skel_of h) !! id = Some (sub_skel s).
Proof. intros E. cbn. by rewrite lookup_fmap, E. Qed.
Lemma lookup_obj_skel h o t : hb_objs h !! o = Some t → sk_objs (skel_of h) !! o = Some (obj_skel t).
Proof. intros E. cbn. by rewrite lookup_fmap, E. Qed.

Lemma open_tenant_spec T h h' o : conns_ok cfg (skel_of h) → open_tenant T h = Ok (h', o) →
  ∃ t, hb_objs h' !! o = Some t ∧ ts_tenant t = T ∧ hb_tenants h' !! T = Some o ∧ conns_ok cfg (skel_of h') ∧
    ((h' = h) ∨ (skel_of h' = add_tenant (skel_of h) T ∧ o = hb_nobjs h ∧ ts_conns t = ∅ ∧ ts_byUser t = ∅)) ∧
    hb_subs h' = hb_subs h ∧ hb_log h' = hb_log h ∧ hb_client h' = hb_client h.
Proof.
  intros Hk. unfold open_tenant. destruct (hb_tenants h !! T) as [o'|] eqn:ET.
  - intros [= <- <-]. destruct (ko_tenant _ _ Hk _ _ ET) as (t' & Ho & Ht & _). cbn in Ho. rewrite lookup_fmap in Ho.
    apply fmap_Some in Ho as (t & Ho & ->). exists t. split_and!; try done. by left.
  - destruct (XLast _ _) as [start|e]; [|done]. intros [= <- <-]. eexists. split; [apply lookup_insert_eq|]. split; [done|].
    split; [apply lookup_insert_eq|].
    assert (E : skel_of {| h with hb_tenants := <[T := hb_nobjs h]> (hb_tenants h); hb_nobjs := S (hb_nobjs h);
       hb_objs := <[hb_nobjs h := {| ts_tenant := T; ts_conns := ∅; ts_byUser := ∅; ts_cancelled := false; ts_last := default_str start "0-0"; ts_todo := [];
         ts_push := []; ts_stalled := None |}]> (hb_objs h) |} = add_tenant (skel_of h) T).
    { unfold skel_of, add_tenant. cbn. by rewrite fmap_insert. }
    split; [rewrite E; by apply add_tenant_ok|]. split; [right; by split_and!|done].
Qed.

Lemma Subscribe_accounted T u lastID h : accounted h → accounted (fst (Subscribe cfg T u lastID h)).
Proof.
  intros [Hk Hi]. unfold Subscribe. destruct (hb_closed h); [done|]. destruct (open_tenant T h) as [[h1 o]|e] eqn:Eo; [|done].
  destruct (open_tenant_spec _ _ _ _ Hk Eo) as (t & Ho & HT & Htn & Hk1 & Hcase & _). rewrite Ho. pose proof limits_positive as [Hpu Hpt].
  destruct (_ || _) eqn:El; cbn [fst].
  - destruct Hcase as [->|(_ & _ & Hc & Hb)]; [done|]. exfalso. apply orb_true_iff in El as [El|El]; bool_hyps.
    + unfold user_count in El. rewrite Hb, lookup_empty in El. cbn [from_option] in El. lia.
    + rewrite Hc, size_empty in El. lia.
  - apply orb_false_iff in El as [El1 El2]. bool_hyps.
    match goal with |- accounted ?h' => assert (E : skel_of h' = add_conn (skel_of h1) o (obj_skel t) u) end.
    { unfold skel_of, add_conn, put_sub, put_obj. cbn. rewrite !fmap_insert, <- HT. done. }
    unfold accounted. rewrite E. split.
    + apply add_conn_ok; [done|by apply lookup_obj_skel|by rewrite <- HT in Htn|exact El1|exact El2].
    + intros T' o' t' HT' Ho'. cbn in HT', Ho'. apply lookup_insert_Some in Ho' as [[<- <-]|[Hne Ho']]; [cbn; set_solver|].
      destruct Hcase as [->|(E1 & -> & _)]; [by eapply Hi|]. apply (f_equal sk_tenants) in E1 as Et. apply (f_equal sk_objs) in E1 as Eob. cbn in Et, Eob.
      rewrite Et in HT'. rewrite Eob in Ho'. rewrite lookup_insert_ne in Ho' by done.
      apply lookup_insert_Some in HT' as [[_ <-]|[_ HT']]; [done|]. by eapply Hi.
Qed.

Lemma CloseSub_accounted id h : accounted h → accounted (CloseSub id h).
Proof.
  intros [Hk Hi]. unfold CloseSub. destruct (hb_subs h !! id) as [s|] eqn:Es; [|done]. destruct (sb_closed s) eqn:Ec; [done|].
  destruct (ko_open _ _ Hk id (sub_skel s)) as (o & t' & HT & Ho & Hin); [by apply lookup_sub_skel|done|]. cbn in HT, Ho.
  rewrite lookup_fmap in Ho. apply fmap_Some in Ho as (t & Ho & ->). cbn in Hin.
  cbv zeta. change (hb_tenants (put_sub _ _ h)) with (hb_tenants h). change (hb_objs (put_sub _ _ h)) with (hb_objs h). rewrite HT, Ho.
  destruct (ko_conn _ _ Hk o (obj_skel t) id) as (_ & s' & Es' & Et & _); [by apply lookup_obj_skel|done|].
  rewrite (lookup_sub_skel _ _ _ Es) in Es'. injection Es' as <-. cbn in Et.
  pose proof (drop_conn_ok (skel_of h) id (sub_skel s) o (obj_skel t) Hk (lookup_sub_skel _ _ _ Es) HT (lookup_obj_skel _ _ _ Ho) Hin Et) as Hd.
  match goal with |- accounted ?h' => assert (E : skel_of h' = drop_conn (skel_of h) id (sub_skel s) o (obj_skel t)) end.
  { unfold drop_conn. cbv zeta. cbn [obj_skel so_conns ts_conns]. destruct (size (ts_conns t ∖ {[id]}) =? 0)%nat;
      unfold skel_of, put_sub, put_obj; cbn [hb_tenants hb_objs hb_subs hb_nobjs hb_nsubs hb_closed]; rewrite !fmap_insert; cbn; [rewrite orb_true_r, Et|rewrite orb_false_r]; done. }
  unfold accounted. rewrite E. split; [done|]. unfold drop_conn. cbv zeta. cbn [obj_skel so_conns so_tenant].
  intros T' o' t' HT' Ho'. cbn [sk_tenants sk_objs] in HT', Ho'. destruct (size (ts_conns t ∖ {[id]}) =? 0)%nat eqn:Ei.
  - apply lookup_delete_Some in HT' as [Hne HT']. apply lookup_insert_Some in Ho' as [[<- <-]|[_ Ho']]; [|by eapply Hi].
    destruct (ko_tenant _ _ Hk _ _ HT') as (t2 & Ho2 & <- & _). rewrite (lookup_obj_skel _ _ _ Ho) in Ho2. by injection Ho2 as <-.
  - apply lookup_insert_Some in Ho' as [[<- <-]|[_ Ho']]; [|by eapply Hi]. cbn. intros E0. rewrite E0, size_empty in Ei. done.
Qed.

Lemma shutdown_accounted h : accounted h →
  accounted {| h with hb_closed := true; hb_objs := (λ t, {| t with ts_cancelled := true |}) <$> hb_objs h |}.
Proof.
  intros [Hk Hi]. assert (E : ∀ o t, sk_objs (skel_of {| h with hb_closed := true; hb_objs := (λ t, {| t with ts_cancelled := true |}) <$> hb_objs h |}) !! o = Some t →
    ∃ t0, sk_objs (skel_of h) !! o = Some t0 ∧ so_tenant t = so_tenant t0 ∧ so_conns t = so_conns t0 ∧ so_byUser t = so_byUser t0).
  { intros o t. cbn. rewrite !lookup_fmap. destruct (hb_objs h !! o); [|done]. cbn. intros [= <-]. by eexists. }
  split; [split; cbn [sk_tenants sk_subs sk_nobjs sk_nsubs sk_closed skel_of]|].
  - intros T o HT. destruct (ko_tenant _ _ Hk _ _ HT) as (t & Ho & ? & _). cbn in Ho |- *. rewrite !lookup_fmap in *. destruct (hb_objs h !! o); [|done]. cbn in *.
    eexists. split; [done|]. by injection Ho as <-.
  - intros o t id (t0 & Ho & E1 & E2 & _)%E Hid. rewrite E1. rewrite E2 in Hid. by apply (ko_conn _ _ Hk _ _ _ Ho).
  - intros id s Hs Hc. destruct (ko_open _ _ Hk _ _ Hs Hc) as (o & t & E1 & E2 & E3). exists o. cbn in *. rewrite !lookup_fmap in *. destruct (hb_objs h !! o); [|done]. cbn in *.
    eexists. split; [done|]. split; [done|]. by injection E2 as <-.
  - intros o t u (t0 & Ho & E1 & E2 & E3)%E. pose proof (ko_count _ _ Hk _ _ u Ho). unfold count_of, conns_of in *. rewrite E2, E3. done.
  - intros o t u (t0 & Ho & E1 & E2 & E3)%E. pose proof (ko_user_limit _ _ Hk _ _ u Ho). unfold count_of in *. by rewrite E3.
  - intros o t (t0 & Ho & E1 & E2 & E3)%E. rewrite E2. by eapply ko_tenant_limit.
  - intros id s Hs. by eapply (ko_fresh_sub _ _ Hk).
  - intros o t (t0 & Ho & _)%E. by eapply (ko_fresh_obj _ _ Hk).
  - intros T o t HT (t0 & Ho & _ & E2 & _)%E. rewrite E2. by eapply Hi.
Qed.

Lemma step_accounted a h h' : accounted h → step cfg a h = Some h' → accounted h'.
Proof.
  intros Ha. assert (Hsub : ∀ id s s' h1, hb_subs h !! id = Some s → sub_skel s' = sub_skel s → put_sub id s' h = h1 → accounted h1).
  { intros id s s' h1 Hs E <-. eapply accounted_same; [|exact Ha]. by eapply skel_put_sub. }
  destruct a; cbn [step]; intros Hs.
  - destruct (PublishID _ _ _ _ _ _ _ _ _) as [m r]. by injection Hs as <-.
  - injection Hs as <-. by apply Subscribe_accounted.
  - apply bind_Some in Hs as (s & Es & Hs). destruct (sb_phase s); [|done|done]. injection Hs as Hs. eapply Hsub; [exact Es| |exact Hs]; done.
  - apply bind_Some in Hs as (s & Es & Hs). destruct (sb_phase s) as [|[|ev l]|]; [done| | |done]; injection Hs as Hs; (eapply Hsub; [exact Es| |exact Hs]); [done|].
    by rewrite push_skel.
  - apply bind_Some in Hs as (t & Et & Hs). destruct (busy t); [done|]. by injection Hs as <-.
  - apply bind_Some in Hs as (t & Et & Hs). destruct (busy t); [done|]. destruct (XRead _ _ _ _); [|by injection Hs as <-].
    injection Hs as <-. eapply accounted_same; [|exact Ha]. by eapply skel_put_obj.
  - apply bind_Some in Hs as (t & Et & Hs). destruct (ts_todo t), (ts_push t), (ts_stalled t); try done. injection Hs as <-.
    eapply accounted_same; [|exact Ha]. by eapply skel_put_obj.
  - apply bind_Some in Hs as (t & Et & Hs). destruct (ts_push t) as [|[id ev] l]; [done|]. destruct (ts_stalled t); [done|].
    apply bind_Some in Hs as (s & Es & Hs). destruct (push ev s) as [s' ok] eqn:Ep. injection Hs as <-.
    eapply accounted_same; [|exact Ha]. etrans; [eapply skel_put_sub; [exact Es|]|by eapply skel_put_obj]. by rewrite <- (push_skel ev s), Ep.
  - apply bind_Some in Hs as (t & Et & Hs). apply bind_Some in Hs as (id & Eid & Hs). injection Hs as <-. apply CloseSub_accounted.
    eapply accounted_same; [|exact Ha]. by eapply skel_put_obj.
  - apply bind_Some in Hs as (s & Es & Hs). destruct (sb_phase s), (sb_ch s); try done. injection Hs as Hs. eapply Hsub; [exact Es| |exact Hs]; done.
  - injection Hs as <-. by apply CloseSub_accounted.
  - injection Hs as <-. by apply shutdown_accounted.
  - by injection Hs as <-.
  - destruct (_ <? 0); [done|]. by injection Hs as <-.
Qed.

Lemma new_accounted now : accounted (NewHub now).
Proof.
  split; [split|]; intros *; cbn; rewrite ?fmap_empty, ?lookup_empty; done.
Qed.
End accounting.
