(* ===== verification/StreamOrder.v ===== *)
(** * Deliveries of the realtime hub

    What a subscription queues or has read came from its own tenant's stream,
    was addressed to its user, and is in increasing order; the invariant of
    [step] and the theorem on all reachable states, and what a replay loses. *)

From S2P Require Import Prelude GoText Models Store HostNorm Stream StreamProps.

Notation logged log key := (default [] (log !! key)).

(** The event is one of the hub's own or an entry for the user. *)
Definition addressed (log : gmap string (list Entry)) (T u : string) (ev : Event) : Prop :=
  ev_ID ev = "" ∨ ∃ e, e ∈ logged log (Key T) ∧ event_of e = ev ∧ targets (recipients e) u = true.

Record sub_ok (log : gmap string (list Entry)) (s : Subscription) : Prop := {
  su_ordered : ordered s;
  su_addressed : Forall (addressed log (sb_tenant s) (sb_user s)) (hist s);
  su_replay : ∀ l, sb_phase s = Replaying l → Forall (addressed log (sb_tenant s) (sb_user s)) l }.

Record deliveries (h : Hub) : Prop := {
  dv_client : ∀ key e, e ∈ stream_of (hb_client h) key → e ∈ logged (hb_log h) key;
  dv_sub : ∀ id s, hb_subs h !! id = Some s → sub_ok (hb_log h) s;
  dv_todo : ∀ o t e, hb_objs h !! o = Some t → e ∈ ts_todo t → e ∈ logged (hb_log h) (Key (ts_tenant t));
  dv_push : ∀ o t id ev, hb_objs h !! o = Some t → (id, ev) ∈ ts_push t →
    ∃ s, hb_subs h !! id = Some s ∧ addressed (hb_log h) (sb_tenant s) (sb_user s) ev }.

(** ** The client *)

Lemma elem_of_after m key a n e : e ∈ after m key a n → e ∈ stream_of m key.
Proof.
  unfold after. cbv zeta. assert (Hf : ∀ e, e ∈ List.filter (λ e, is_empty a || Less a (en_ID e)) (stream_of m key) → e ∈ stream_of m key).
  { intros x Hx. apply list_elem_of_In, filter_In in Hx as [Hx _]. by apply list_elem_of_In. }
  destruct (0 <? n); [|apply Hf]. intros He. apply Hf. by eapply subseteq_take.
Qed.

Lemma last_drop_lt {A} (l : list A) n : (n < length l)%nat → last (drop n l) = last l.
Proof. intros Hn. rewrite !last_lookup, lookup_drop, length_drop. f_equal. lia. Qed.

Lemma newest_snoc n l e : last (newest n (l ++ [e])) = Some e ∧ ∀ x, x ∈ newest n (l ++ [e]) → x ∈ l ∨ x = e.
Proof.
  assert (Hin : ∀ x, x ∈ l ++ [e] → x ∈ l ∨ x = e) by (intros x; rewrite elem_of_app, list_elem_of_singleton; tauto).
  unfold newest. destruct (_ && _) eqn:E; [|split; [apply last_snoc|exact Hin]]. bool_hyps. split.
  - rewrite last_drop_lt; [apply last_snoc|lia].
  - intros x Hx. apply Hin. by eapply subseteq_drop.
Qed.

(** An entry added at the end of one stream. *)
Definition appended (m m' : Memory) (key : string) : Prop :=
  ∃ e, last (stream_of m' key) = Some e ∧ ∀ k x, x ∈ stream_of m' k → x ∈ stream_of m k ∨ (k = key ∧ x = e).

Lemma stream_insert m m' key l : mm_streams m' = <[key := l]> (mm_streams m) → ∀ k, stream_of m' k = if decide (k = key) then l else stream_of m k.
Proof.
  intros E k. unfold stream_of. rewrite E. destruct (decide (k = key)) as [->|Hne]; [by rewrite lookup_insert_eq|by rewrite lookup_insert_ne].
Qed.

Lemma XAdd_stream m t key f maxLen : match XAdd m t key f maxLen with (m', Ok _) => appended m m' key | (m', Err _) => m' = m end.
Proof.
  unfold XAdd. destruct (mm_Err m); [done|]. cbv zeta. set (e := {| en_ID := _; en_Fields := f |}). exists e.
  destruct (newest_snoc maxLen (stream_of m key) e) as [Hl Hin].
  match goal with |- last (stream_of ?m' key) = _ ∧ _ => pose proof (stream_insert m m' key _ eq_refl) as Hk end.
  split; [rewrite Hk; by rewrite decide_True|]. intros k x. rewrite Hk. destruct (decide (k = key)) as [->|Hne]; [|by left].
  intros Hx. destruct (Hin x Hx); auto.
Qed.

Lemma PublishID_stream cfg m now T to all typ d md :
  match PublishID cfg m now T to all typ d md with (m', Ok _) => appended m m' (Key T) | (m', Err _) => m' = m end.
Proof.
  unfold PublishID. destruct (ValidateType _ _); [done|]. destruct (_ || _); [done|]. destruct (raw_data d) as [raw|]; [|done].
  destruct (_ || _ || _); [done|]. destruct (negb all && _); [done|]. cbv zeta.
  match goal with |- context [XAdd ?a ?b ?c ?d ?e] => pose proof (XAdd_stream a b c d e) as Hx; destruct (XAdd a b c d e) as [m' [id|e']] end; done.
Qed.

Lemma XTrim_stream m key minID k x : x ∈ stream_of (fst (XTrimMinID m key minID)) k → x ∈ stream_of m k.
Proof.
  unfold XTrimMinID. destruct (mm_Err m); [done|]. cbn [fst]. unfold stream_of at 1. cbn [mm_streams].
  destruct (decide (k = key)) as [->|Hne]; [|by rewrite lookup_insert_ne]. rewrite lookup_insert_eq. cbn [from_option].
  intros Hx. apply list_elem_of_In, filter_In in Hx as [Hx _]. by apply list_elem_of_In.
Qed.

(** ** Growing logs *)

Definition grows (log log' : gmap string (list Entry)) : Prop := ∀ key e, e ∈ logged log key → e ∈ logged log' key.

Lemma addressed_grows log log' T u ev : grows log log' → addressed log T u ev → addressed log' T u ev.
Proof. intros Hg [?|(e & He & ?)]; [by left|right]. exists e. split; [by apply Hg|done]. Qed.

Lemma sub_ok_grows log log' s : grows log log' → sub_ok log s → sub_ok log' s.
Proof.
  intros Hg [Ho Ha Hr]. split; [done|eapply Forall_impl; [exact Ha|]; eauto using addressed_grows|].
  intros l El. eapply Forall_impl; [by apply Hr|]. eauto using addressed_grows.
Qed.

(** ** Steps *)

Lemma push_sub_ok log ev s : sub_ok log s → addressed log (sb_tenant s) (sb_user s) ev → sub_ok log (fst (push ev s)).
Proof.
  intros [Ho Ha Hr] Hev. pose proof (push_spec ev s) as Hp. apply push_ordered in Hp as Ho'; [|done].
  split; [done| |]; destruct Hp as [_|l s' -> Hc Hb Hl Hlt|l s' -> Hc Hb Hl Hlt]; try done.
  unfold hist in *. cbn. rewrite app_assoc. apply Forall_app. split; [done|by constructor].
Qed.

Lemma put_sub_deliveries h id s s' : deliveries h → hb_subs h !! id = Some s → sb_tenant s' = sb_tenant s → sb_user s' = sb_user s →
  sub_ok (hb_log h) s' → deliveries (put_sub id s' h).
Proof.
  intros [Hc Hs Ht Hp] Es Et Eu Hok. split; cbn [put_sub hb_client hb_subs hb_objs hb_log]; try done.
  - intros j s0 Hj. apply lookup_insert_Some in Hj as [[<- <-]|[_ Hj]]; [done|by eapply Hs].
  - intros o t j ev Ho Hj. destruct (Hp _ _ _ _ Ho Hj) as (s0 & E0 & Ha). destruct (decide (j = id)) as [->|Hne].
    + rewrite Es in E0. injection E0 as <-. exists s'. rewrite lookup_insert_eq, Et, Eu. done.
    + exists s0. by rewrite lookup_insert_ne.
Qed.

Lemma put_obj_deliveries h o t : deliveries h → (∀ e, e ∈ ts_todo t → e ∈ logged (hb_log h) (Key (ts_tenant t))) →
  (∀ id ev, (id, ev) ∈ ts_push t → ∃ s, hb_subs h !! id = Some s ∧ addressed (hb_log h) (sb_tenant s) (sb_user s) ev) →
  deliveries (put_obj o t h).
Proof.
  intros [Hc Hs Ht Hp] H1 H2. split; cbn [put_obj hb_client hb_subs hb_objs hb_log]; try done.
  - intros o' t' e Ho. apply lookup_insert_Some in Ho as [[<- <-]|[_ Ho]]; [apply H1|by eapply Ht].
  - intros o' t' id ev Ho. apply lookup_insert_Some in Ho as [[<- <-]|[_ Ho]]; [apply H2|by eapply Hp].
Qed.

(** A subscription changed without touching what it holds. *)
Lemma sub_ok_same log s s' : hist s' = hist s → sb_last s' = sb_last s → (length (sb_ch s') ≤ length (sb_ch s))%nat → sb_tenant s' = sb_tenant s →
  sb_user s' = sb_user s → (∀ l, sb_phase s' = Replaying l → sb_phase s = Replaying l ∨ Forall (addressed log (sb_tenant s) (sb_user s)) l) →
  sub_ok log s → sub_ok log s'.
Proof.
  intros Eh El Ec Et Eu Hph [[Hs Hla Hn Hb] Ha Hr]. split.
  - split; rewrite ?Eh, ?El; [done|done|done|lia].
  - by rewrite Eh, Et, Eu.
  - intros l Hl. rewrite Et, Eu. destruct (Hph l Hl); [by apply Hr|done].
Qed.

Section steps.
Context (c : Config).
Notation cfg := (NewHub_config c).

Lemma replay_addressed h s lastID : deliveries h → Forall (addressed (hb_log h) (sb_tenant s) (sb_user s)) (replay_events cfg h s lastID).
Proof.
  intros Hd. unfold replay_events. destruct (ParseID lastID) as [[ms sq] ok]. destruct (_ || _); [by repeat constructor|].
  unfold XRange. destruct (mm_Err _); [by repeat constructor|]. apply Forall_fmap, Forall_forall. intros e He.
  apply list_elem_of_In, filter_In in He as [He Ht]. apply list_elem_of_In, elem_of_after in He. right. exists e. split; [by apply (dv_client _ Hd)|done].
Qed.

Lemma CloseSub_deliveries id h : deliveries h → deliveries (CloseSub id h).
Proof.
  intros Hd. unfold CloseSub. destruct (hb_subs h !! id) as [s|] eqn:Es; [|done]. destruct (sb_closed s); [done|]. cbv zeta.
  assert (H1 : deliveries (put_sub id {| s with sb_closed := true |} h)).
  { eapply put_sub_deliveries; [done|exact Es|done|done|]. eapply sub_ok_same; [..|by eapply (dv_sub _ Hd)]; try done. by left. }
  set (h1 := put_sub _ _ h) in *. destruct (hb_tenants h1 !! sb_tenant s) as [o|]; [|done]. destruct (hb_objs h1 !! o) as [t|] eqn:Eo; [|done].
  assert (H2 : ∀ t', ts_todo t' = ts_todo t → ts_push t' = ts_push t → ts_tenant t' = ts_tenant t → deliveries (put_obj o t' h1)).
  { intros t' E1 E2 E3. apply put_obj_deliveries; [done|rewrite E1, E3; intros; by eapply (dv_todo _ H1)|rewrite E2; intros; by eapply (dv_push _ H1)]. }
  destruct (_ =? 0)%nat; [|by apply H2].
  pose proof (H2 {| t with ts_conns := ts_conns t ∖ {[id]}; ts_byUser := if user_count t (sb_user s) - 1 <=? 0 then delete (sb_user s) (ts_byUser t)
    else <[sb_user s := user_count t (sb_user s) - 1]> (ts_byUser t); ts_cancelled := true |} eq_refl eq_refl eq_refl) as [? ? ? ?]. by split.
Qed.

Lemma audience_addressed h o t e : accounted c h → deliveries h → hb_objs h !! o = Some t → e ∈ logged (hb_log h) (Key (ts_tenant t)) →
  ∀ id ev, (id, ev) ∈ audience h t e → ∃ s, hb_subs h !! id = Some s ∧ addressed (hb_log h) (sb_tenant s) (sb_user s) ev.
Proof.
  intros [Hk _] Hd Ho He id ev. unfold audience. rewrite list_elem_of_omap. intros (j & Hj & E). apply elem_of_elements in Hj.
  destruct (hb_subs h !! j) as [s|] eqn:Es; [|done]. destruct (targets _ _) eqn:Et; [|done]. injection E as <- <-. exists s. split; [done|].
  destruct (ko_conn _ _ Hk o (obj_skel t) j) as (_ & s' & Es' & ET & _); [by apply lookup_obj_skel|done|].
  rewrite (lookup_sub_skel _ _ _ Es) in Es'. injection Es' as <-. cbn in ET. right. exists e. by rewrite ET.
Qed.

Lemma new_sub_ok log T u ph : (∀ l, ph ≠ Replaying l) →
  sub_ok log {| sb_tenant := T; sb_user := u; sb_ch := []; sb_last := ""; sb_closed := false; sb_phase := ph; sb_read := [] |}.
Proof.
  intros Hph. split; [split; cbn; [constructor|by intros i ?%elem_of_nil|done|lia]|constructor|]. intros l E. by apply Hph in E.
Qed.

Lemma Subscribe_deliveries T u lastID h : accounted c h → deliveries h → deliveries (fst (Subscribe cfg T u lastID h)).
Proof.
  intros [Hk _] Hd. unfold Subscribe. destruct (hb_closed h); [done|]. destruct (open_tenant T h) as [[h1 o]|e] eqn:Eo; [|done].
  assert (H1 : deliveries h1).
  { unfold open_tenant in Eo. destruct (hb_tenants h !! T); [by injection Eo as <- <-|]. destruct (XLast _ _) as [start|]; [|done]. injection Eo as <- <-.
    pose proof (put_obj_deliveries h (hb_nobjs h) {| ts_tenant := T; ts_conns := ∅; ts_byUser := ∅; ts_cancelled := false; ts_last := default_str start "0-0"; ts_todo := [];
      ts_push := []; ts_stalled := None |} Hd) as Hp.
    destruct Hp as [? ? ? ?]; [by intros ? ?%elem_of_nil|by intros ? ? ?%elem_of_nil|]. by split. }
  destruct (open_tenant_spec _ _ _ _ _ Hk Eo) as (t & Ho & HT & _ & Hk1 & _). rewrite Ho. destruct (_ || _); [done|]. cbn [fst]. cbv zeta.
  assert (Hn : hb_subs h1 !! hb_nsubs h1 = None).
  { destruct (hb_subs h1 !! hb_nsubs h1) eqn:E; [|done]. apply lookup_sub_skel, (ko_fresh_sub _ _ Hk1) in E. cbn in E. lia. }
  set (s := {| sb_tenant := T |}). destruct H1 as [Hc Hs Ht Hp].
  split; cbn [put_sub put_obj hb_client hb_subs hb_objs hb_log]; [done| | |].
  - intros j s0 Hj. apply lookup_insert_Some in Hj as [[<- <-]|[_ Hj]]; [|by eapply Hs]. apply new_sub_ok. by destruct (is_empty lastID).
  - intros o' t' e Ho'. apply lookup_insert_Some in Ho' as [[<- <-]|[_ Ho']]; [by apply (Ht o t e)|by eapply Ht].
  - intros o' t' j ev Ho' Hj. assert (Hpj : ∃ s, hb_subs h1 !! j = Some s ∧ addressed (hb_log h1) (sb_tenant s) (sb_user s) ev).
    { apply lookup_insert_Some in Ho' as [[<- <-]|[_ Ho']]; [by eapply (Hp o t)|by eapply Hp]. }
    destruct Hpj as (s0 & E0 & Ha). exists s0. rewrite lookup_insert_ne; [done|]. intros <-. congruence.
Qed.

Lemma publish_deliveries h tenantID m r : deliveries h → (match r with Ok _ => appended (hb_client h) m (Key tenantID) | Err _ => m = hb_client h end) →
  deliveries {| h with hb_client := m; hb_log := <[Key tenantID := logged (hb_log h) (Key tenantID) ++
    match (r : result hub_error string) with Ok _ => option_list (last (stream_of m (Key tenantID))) | Err _ => [] end]> (hb_log h) |}.
Proof.
  intros Hd Hpub.
  assert (Hg : grows (hb_log h) (<[Key tenantID := logged (hb_log h) (Key tenantID) ++ match r with Ok _ => option_list (last (stream_of m (Key tenantID))) | Err _ => [] end]> (hb_log h))).
  { intros key e He. destruct (decide (key = Key tenantID)) as [->|Hne]; [rewrite lookup_insert_eq; cbn; apply elem_of_app; by left|by rewrite lookup_insert_ne]. }
  destruct Hd as [Hc Hsub Ht Hp]. split; cbn [hb_client hb_subs hb_objs hb_log].
  - destruct r as [id|e]; [|subst m; intros key x Hx; apply Hg, Hc, Hx]. destruct Hpub as (e & Hl & Hin). intros key x Hx.
    destruct (Hin key x Hx) as [Hx'|[-> ->]]; [by apply Hg, Hc|]. rewrite lookup_insert_eq, Hl. cbn. apply elem_of_app. right. by left.
  - intros id s Es. eapply sub_ok_grows; [exact Hg|by eapply Hsub].
  - intros o t e Ho He. eapply Hg, Ht; done.
  - intros o t id ev Ho He. destruct (Hp _ _ _ _ Ho He) as (s & Es & Ha). exists s. split; [done|]. by eapply addressed_grows.
Qed.

Lemma push_deliveries h o t id ev l s st : deliveries h → hb_objs h !! o = Some t → ts_push t = (id, ev) :: l → hb_subs h !! id = Some s →
  deliveries (put_sub id (fst (push ev s)) (put_obj o {| t with ts_push := l; ts_stalled := st |} h)).
Proof.
  intros Hd Et Epu Es. destruct (dv_push _ Hd o t id ev Et) as (s0 & Es0 & Ha); [rewrite Epu; by left|]. rewrite Es in Es0. injection Es0 as <-.
  pose proof (push_skel ev s) as Esk. eapply put_sub_deliveries; [|exact Es|by injection Esk|by injection Esk|by apply push_sub_ok; [eapply (dv_sub _ Hd)|]].
  apply put_obj_deliveries; [done|intros ? Hin; exact (dv_todo _ Hd _ _ _ Et Hin)|]. cbn [ts_push]. intros j ev' Hj. eapply (dv_push _ Hd); [exact Et|].
  rewrite Epu. by right.
Qed.

Lemma step_deliveries a h h' : accounted c h → deliveries h → step cfg a h = Some h' → deliveries h'.
Proof.
  intros Hacc Hd. destruct a; cbn [step]; intros Hs.
  - pose proof (PublishID_stream cfg (hb_client h) (hb_now h) tenantID to all typ data module_) as Hpub.
    destruct (PublishID _ _ _ _ _ _ _ _ _) as [m r]. injection Hs as <-. apply publish_deliveries; [done|by destruct r].
  - injection Hs as <-. by apply Subscribe_deliveries.
  - apply bind_Some in Hs as (s & Es & Hs). destruct (sb_phase s) eqn:Ep; [|done|done]. injection Hs as <-.
    eapply put_sub_deliveries; [done|exact Es|done|done|]. eapply sub_ok_same; [..|by eapply (dv_sub _ Hd)]; try done.
    intros l [= <-]. right. by apply replay_addressed.
  - apply bind_Some in Hs as (s & Es & Hs). pose proof (dv_sub _ Hd _ _ Es) as Hok. destruct (sb_phase s) as [|[|ev l]|] eqn:Ep; [done| | |done]; injection Hs as <-.
    + eapply put_sub_deliveries; [done|exact Es|done|done|]. eapply sub_ok_same; [..|exact Hok]; try done.
    + pose proof (su_replay _ _ Hok _ Ep) as Hr. apply Forall_cons in Hr as [Hev Hl].
      assert (Hok' : sub_ok (hb_log h) {| s with sb_phase := Replaying l |}).
      { eapply sub_ok_same; [..|exact Hok]; try done. intros l' [= <-]. by right. }
      pose proof (push_skel ev {| s with sb_phase := Replaying l |}) as Esk.
      eapply put_sub_deliveries; [done|exact Es|by injection Esk|by injection Esk|]. by apply push_sub_ok.
  - apply bind_Some in Hs as (t & Et & Hs). destruct (busy t); [done|]. injection Hs as <-. destruct Hd as [Hc Hsub Ht Hp].
    split; cbn [hb_client hb_subs hb_objs hb_log]; try done. intros key e He%XTrim_stream. by apply Hc.
  - apply bind_Some in Hs as (t & Et & Hs). destruct (busy t); [done|]. unfold XRead in Hs. destruct (mm_Err _); injection Hs as <-; [done|].
    apply put_obj_deliveries; [done| |intros ?? Hin; exact (dv_push _ Hd _ _ _ _ Et Hin)]. cbn [ts_todo ts_tenant]. intros e He%elem_of_after. by apply (dv_client _ Hd).
  - apply bind_Some in Hs as (t & Et & Hs). destruct (ts_todo t) as [|e todo] eqn:Etd; [done|]. destruct (ts_push t); [|done]. destruct (ts_stalled t); [done|]. injection Hs as <-.
    apply put_obj_deliveries; [done| |]; cbn [ts_todo ts_tenant ts_push].
    + intros x Hx. eapply (dv_todo _ Hd); [exact Et|]. rewrite Etd. by right.
    + eapply audience_addressed; try done. eapply (dv_todo _ Hd); [exact Et|]. rewrite Etd. by left.
  - apply bind_Some in Hs as (t & Et & Hs). destruct (ts_push t) as [|[id ev] l] eqn:Epu; [done|]. destruct (ts_stalled t); [done|].
    apply bind_Some in Hs as (s & Es & Hs). pose proof (push_deliveries h o t id ev l s (if snd (push ev s) then None else Some id) Hd Et Epu Es) as Hp.
    destruct (push ev s) as [s' ok]. by injection Hs as <-.
  - apply bind_Some in Hs as (t & Et & Hs). apply bind_Some in Hs as (id & Eid & Hs). injection Hs as <-. apply CloseSub_deliveries.
    apply put_obj_deliveries; [done|intros ? Hin; exact (dv_todo _ Hd _ _ _ Et Hin)|intros ?? Hin; exact (dv_push _ Hd _ _ _ _ Et Hin)].
  - apply bind_Some in Hs as (s & Es & Hs). destruct (sb_phase s) eqn:Ep; [done|done|]. destruct (sb_ch s) as [|ev l] eqn:Ech; [done|]. injection Hs as <-.
    eapply put_sub_deliveries; [done|exact Es|done|done|]. eapply sub_ok_same; [..|by eapply (dv_sub _ Hd)]; try done.
    + unfold hist. cbn. rewrite Ech, <- app_assoc. done.
    + cbn. rewrite Ech. cbn. lia.
  - injection Hs as <-. by apply CloseSub_deliveries.
  - injection Hs as <-. destruct Hd as [Hc Hsub Ht Hp]. split; cbn [hb_client hb_subs hb_objs hb_log]; try done.
    + intros o t e Ho. rewrite lookup_fmap in Ho. apply fmap_Some in Ho as (t0 & Ho & ->). exact (Ht _ _ _ Ho).
    + intros o t id ev Ho. rewrite lookup_fmap in Ho. apply fmap_Some in Ho as (t0 & Ho & ->). exact (Hp _ _ _ _ Ho).
  - injection Hs as <-. destruct Hd as [Hc Hsub Ht Hp]. by split.
  - destruct (_ <? 0); [done|]. injection Hs as <-. destruct Hd as [Hc Hsub Ht Hp]. by split.
Qed.

Lemma reachable_inv h : reachable cfg h → accounted c h ∧ deliveries h.
Proof.
  induction 1 as [now|a h h' _ [Ha Hd] Hs].
  - split; [apply new_accounted|]. split; cbn; intros *; unfold stream_of; cbn; by rewrite lookup_empty.
  - split; [by eapply step_accounted|by eapply step_deliveries].
Qed.

(** What holds in every reachable state. *)
Record hub_ok (h : Hub) : Prop := {
  hk_limits : ∀ T o t, hb_tenants h !! T = Some o → hb_objs h !! o = Some t →
    Z.of_nat (size (ts_conns t)) ≤ hc_StreamsPerTenant cfg ∧
    ∀ u, user_count t u = Z.of_nat (size (filter (λ id, sb_user <$> hb_subs h !! id = Some u) (ts_conns t))) ∧ user_count t u ≤ hc_StreamsPerUser cfg;
  hk_served : ∀ id s, hb_subs h !! id = Some s → sb_closed s = false →
    ∃ o t, hb_tenants h !! sb_tenant s = Some o ∧ hb_objs h !! o = Some t ∧ id ∈ ts_conns t ∧ (hb_closed h = false → ts_cancelled t = false);
  hk_released : ∀ T o t, hb_tenants h !! T = Some o → hb_objs h !! o = Some t → ts_conns t ≠ ∅;
  hk_delivered : ∀ id s, hb_subs h !! id = Some s → Forall (addressed (hb_log h) (sb_tenant s) (sb_user s)) (hist s);
  hk_ordered : ∀ id s, hb_subs h !! id = Some s → StronglySorted (λ a b, Less a b = true) (ids (hist s));
  hk_buffer : ∀ id s, hb_subs h !! id = Some s → (length (sb_ch s) ≤ connBuffer)%nat }.

(** C11: in every state the hub can reach under any interleaving of publishers,
    subscribers, replays, readers and loops: the per-user counters are exact
    and within the limits, every open subscription is served by a loop that
    runs until the hub shuts down, a tenant without connections has no entry,
    no channel exceeds its buffer, and every event a subscription queued or
    read is the hub's own or an entry of its tenant's stream addressed to its
    user, in strictly increasing id order. *)
Theorem hub_invariant h : reachable cfg h → hub_ok h.
Proof.
  intros [[Hk Hi] Hd]%reachable_inv. split.
  - intros T o t HT Ho. apply lookup_obj_skel in Ho. split; [by apply (ko_tenant_limit _ _ Hk _ _ Ho)|]. intros u.
    split; [|by apply (ko_user_limit _ _ Hk _ _ u Ho)]. pose proof (ko_count _ _ Hk _ _ u Ho) as Hc. unfold count_of, conns_of in Hc. cbn in Hc.
    unfold user_count. rewrite Hc. do 2 f_equal. apply set_eq. intros j. rewrite !elem_of_filter, lookup_fmap. by destruct (hb_subs h !! j).
  - intros id s Es Hc. destruct (ko_open _ _ Hk _ _ (lookup_sub_skel _ _ _ Es) Hc) as (o & t' & HT & Ho & Hin).
    destruct (ko_tenant _ _ Hk _ _ HT) as (t2 & Ho2 & _ & Hl). rewrite Ho in Ho2. injection Ho2 as <-. cbn in Ho. rewrite lookup_fmap in Ho.
    apply fmap_Some in Ho as (t & Ho & ->). exists o, t. done.
  - intros T o t HT Ho. by apply (Hi T o (obj_skel t) HT), lookup_obj_skel.
  - intros id s Es. by apply (dv_sub _ Hd _ _ Es).
  - intros id s Es. apply (dv_sub _ Hd _ _ Es).
  - intros id s Es. apply (dv_sub _ Hd _ _ Es).
Qed.
End steps.

Lemma run_reachable cfg acts h h' : reachable cfg h → run cfg acts h = Some h' → reachable cfg h'.
Proof.
  revert h. induction acts as [|a acts IH]; intros h Ha Hr; cbn [run] in Hr; [by injection Hr as <-|].
  apply bind_Some in Hr as (h1 & Hst & Hr). eapply IH; [|exact Hr]. by eapply reach_step.
Qed.

(** ** What a replay loses *)

(** One step of a subscription: it keeps what it holds, or gets a push. *)
Definition sub_step (s s' : Subscription) : Prop :=
  (hist s' = hist s ∧ sb_last s' = sb_last s) ∨ ∃ ev s0 ok, hist s0 = hist s ∧ sb_last s0 = sb_last s ∧ pushed ev s0 s' ok.

Lemma sub_step_refl s : sub_step s s.
Proof. by left. Qed.

Lemma put_sub_step h i s' id s : hb_subs h !! id = Some s → (i = id → sub_step s s') →
  ∃ s1, hb_subs (put_sub i s' h) !! id = Some s1 ∧ sub_step s s1.
Proof.
  intros Hs Hst. cbn. destruct (decide (i = id)) as [->|Hne]; [exists s'; rewrite lookup_insert_eq; auto|].
  exists s. rewrite lookup_insert_ne by done. split; [done|apply sub_step_refl].
Qed.

Lemma CloseSub_step i h id s : hb_subs h !! id = Some s → ∃ s1, hb_subs (CloseSub i h) !! id = Some s1 ∧ sub_step s s1.
Proof.
  intros Hs. pose proof (ex_intro (λ s1, hb_subs h !! id = Some s1 ∧ sub_step s s1) s (conj Hs (sub_step_refl s))) as Hsame.
  unfold CloseSub. destruct (hb_subs h !! i) as [si|] eqn:Ei; [|done]. destruct (sb_closed si); [done|]. cbv zeta.
  destruct (put_sub_step h i {| si with sb_closed := true |} id s Hs) as (s1 & E1 & H1).
  { intros ->. rewrite Ei in Hs. injection Hs as <-. by left. }
  destruct (hb_tenants _ !! _); [|by exists s1]. destruct (hb_objs _ !! _); [|by exists s1]. destruct (_ =? 0)%nat; by exists s1.
Qed.

Lemma push_step ev s s0 : hist s0 = hist s → sb_last s0 = sb_last s → sub_step s (fst (push ev s0)).
Proof. intros E1 E2. right. exists ev, s0, (snd (push ev s0)). split_and!; try done. apply push_spec. Qed.

Lemma step_sub c a h h' id s : accounted c h → step (NewHub_config c) a h = Some h' → hb_subs h !! id = Some s →
  ∃ s', hb_subs h' !! id = Some s' ∧ sub_step s s'.
Proof.
  intros [Hk _] Hs Es. pose proof (ex_intro (λ s1, hb_subs h !! id = Some s1 ∧ sub_step s s1) s (conj Es (sub_step_refl s))) as Hsame.
  destruct a; cbn [step] in Hs.
  - destruct (PublishID _ _ _ _ _ _ _ _ _). by injection Hs as <-.
  - injection Hs as <-. unfold Subscribe. destruct (hb_closed h); [done|]. destruct (open_tenant tenantID h) as [[h1 o]|] eqn:Eo; [|done].
    destruct (open_tenant_spec _ _ _ _ _ Hk Eo) as (t & Ho & _ & _ & Hk1 & _ & Esub & _). rewrite Ho. rewrite <- Esub in *. destruct (_ || _); [done|].
    cbn. exists s. split; [|apply sub_step_refl]. rewrite lookup_insert_ne; [done|]. intros E. apply lookup_sub_skel, (ko_fresh_sub _ _ Hk1) in Es. cbn in Es. lia.
  - apply bind_Some in Hs as (si & Ei & Hs). destruct (sb_phase si); [|done|done]. injection Hs as <-. apply put_sub_step; [done|].
    intros ->. rewrite Ei in Es. injection Es as <-. by left.
  - apply bind_Some in Hs as (si & Ei & Hs). destruct (sb_phase si) as [|[|ev l]|]; [done| | |done]; injection Hs as <-; (apply put_sub_step; [done|]);
      intros ->; rewrite Ei in Es; injection Es as <-; [by left|by apply push_step].
  - apply bind_Some in Hs as (t & _ & Hs). destruct (busy t); [done|]. by injection Hs as <-.
  - apply bind_Some in Hs as (t & _ & Hs). destruct (busy t); [done|]. destruct (XRead _ _ _ _); by injection Hs as <-.
  - apply bind_Some in Hs as (t & _ & Hs). destruct (ts_todo t); [done|]. destruct (ts_push t); [|done]. destruct (ts_stalled t); [done|]. by injection Hs as <-.
  - apply bind_Some in Hs as (t & _ & Hs). destruct (ts_push t) as [|[i ev] l]; [done|]. destruct (ts_stalled t); [done|].
    apply bind_Some in Hs as (si & Ei & Hs). destruct (push ev si) as [s' ok] eqn:Ep. injection Hs as <-. apply put_sub_step; [done|].
    intros ->. rewrite Ei in Es. injection Es as <-. pose proof (push_step ev si si eq_refl eq_refl) as Hp. by rewrite Ep in Hp.
  - apply bind_Some in Hs as (t & _ & Hs). apply bind_Some in Hs as (i & _ & Hs). injection Hs as <-. by apply CloseSub_step.
  - apply bind_Some in Hs as (si & Ei & Hs). destruct (sb_phase si); [done|done|]. destruct (sb_ch si) as [|ev l] eqn:Ech; [done|]. injection Hs as <-.
    apply put_sub_step; [done|]. intros ->. rewrite Ei in Es. injection Es as <-. left. unfold hist. cbn. rewrite Ech, <- app_assoc. done.
  - injection Hs as <-. by apply CloseSub_step.
  - by injection Hs as <-.
  - by injection Hs as <-.
  - destruct (_ <? 0); [done|]. by injection Hs as <-.
Qed.

(** Only ids after [L] are added to [old]. *)
Definition only_after (L : string) (old : list string) (s : Subscription) : Prop :=
  sb_last s ≠ "" ∧ (sb_last s = L ∨ Less L (sb_last s) = true) ∧ ∃ new, ids (hist s) = old ++ new ∧ Forall (λ i, Less L i = true) new.

Lemma sub_step_after L old s s' : sub_step s s' → only_after L old s → only_after L old s'.
Proof.
  intros [[E1 E2]|(ev & s0 & ok & E1 & E2 & Hp)] (Hne & Hl & new & En & Hn); [unfold only_after; rewrite E1, E2; eauto|].
  rewrite <- E1 in En. rewrite <- E2 in Hl, Hne.
  assert (Hnew : ev_ID ev = "" ∨ sb_last s0 = "" ∨ Less (sb_last s0) (ev_ID ev) = true → ev_ID ev ≠ "" → Less L (ev_ID ev) = true).
  { intros [?|[?|Hlt]] Hev; [done|done|]. destruct Hl as [<-|Hl]; [done|by eapply Less_trans]. }
  destruct Hp as [_|l s' -> Hc Hb Hlc Hlt|l s' -> Hc Hb Hlc Hlt]; [by split_and!; eauto| |].
  - unfold only_after, hist in *. cbn [sb_last sb_read sb_ch]. rewrite app_assoc, ids_app, ids_one, En.
    destruct Hlc as [[Ee ->]|[Ee ->]]; [rewrite Ee; cbn [is_empty]; rewrite app_nil_r; by split_and!; eauto|].
    assert (is_empty (ev_ID ev) = false) as -> by (by destruct (ev_ID ev)). split_and!; [done|right; by apply Hnew|].
    exists (new ++ [ev_ID ev]). rewrite app_assoc. split; [done|]. apply Forall_app. split; [done|]. constructor; [by apply Hnew|done].
  - unfold only_after, hist in *. cbn [sb_last sb_read sb_ch]. destruct Hlc as [[Ee ->]|[Ee ->]]; [by split_and!; eauto|].
    split_and!; [done|right; by apply Hnew|eauto].
Qed.

Lemma run_accounted c acts h h' : accounted c h → run (NewHub_config c) acts h = Some h' → accounted c h'.
Proof.
  revert h. induction acts as [|a acts IH]; intros h Ha Hr; cbn [run] in Hr; [by injection Hr as <-|].
  apply bind_Some in Hr as (h1 & Hst & Hr). eapply IH; [|exact Hr]. by eapply step_accounted.
Qed.

Lemma run_after c acts h h' id s L old : accounted c h → run (NewHub_config c) acts h = Some h' → hb_subs h !! id = Some s → only_after L old s →
  ∃ s', hb_subs h' !! id = Some s' ∧ only_after L old s'.
Proof.
  revert h s. induction acts as [|a acts IH]; intros h s Ha Hr Hs Ho; cbn [run] in Hr; [injection Hr as <-; eauto|].
  apply bind_Some in Hr as (h1 & Hst & Hr). destruct (step_sub _ _ _ _ _ _ Ha Hst Hs) as (s1 & E1 & H1).
  eapply IH; [by eapply step_accounted|exact Hr|exact E1|by eapply sub_step_after].
Qed.

(** Pushing increasing ids onto a subscription nobody reads. *)
Definition replay_all (evs : list Event) (s : Subscription) : Subscription := foldl (λ s ev, fst (push ev s)) s evs.

Lemma replay_all_full evs s :
  sb_closed s = false → Forall (λ ev, ev_ID ev ≠ "" ∧ (sb_last s = "" ∨ Less (sb_last s) (ev_ID ev) = true)) evs →
  StronglySorted (λ a b, Less a b = true) (ev_ID <$> evs) →
  replay_all evs s = {| s with sb_ch := sb_ch s ++ take (connBuffer - length (sb_ch s)) evs; sb_last := default (sb_last s) (last (ev_ID <$> evs)) |}.
Proof.
  revert s. induction evs as [|ev evs IH]; intros s Hc Hall Hs; cbn [replay_all foldl].
  { cbn. rewrite firstn_nil, app_nil_r. by destruct s. }
  apply Forall_cons in Hall as [[Hne Hlt] Hall]. rewrite fmap_cons in Hs. apply StronglySorted_inv in Hs as [Hs Hev].
  pose proof (push_spec ev s) as Hp. destruct (push ev s) as [s1 ok]. cbn [fst snd] in *. fold (replay_all evs s1).
  destruct Hp as [[?|(_ & ? & ?)]|l s' -> _ Hb [[? _]|[_ ->]] _|l s' -> _ Hb [[? _]|[_ ->]] _]; try (done || naive_solver congruence);
    (rewrite IH; [|done| |done]; cbn [sb_ch sb_last];
     [|apply Forall_forall; intros x Hx; rewrite Forall_forall in Hall; split; [by apply Hall|right]; rewrite Forall_forall in Hev; apply Hev; by apply list_elem_of_fmap_2]).
  - rewrite length_app. cbn [length]. replace (connBuffer - length (sb_ch s))%nat with (S (connBuffer - (length (sb_ch s) + 1))) by lia. cbn [take].
    rewrite <- app_assoc, fmap_cons, last_cons. by destruct (last _).
  - replace (connBuffer - length (sb_ch s))%nat with O by lia. cbn [take]. rewrite fmap_cons, last_cons. by destruct (last _).
Qed.

Lemma push_phase ev s ph : fst (push ev {| s with sb_phase := ph |}) = (let s' := fst (push ev s) in {| s' with sb_phase := ph |}).
Proof.
  destruct s as [te us ch la cl ph0 rd]. unfold push. sub_simpl. destruct (cl || _); [done|].
  destruct (negb (is_empty (ev_ID ev))); sub_simpl; by destruct (length ch <? connBuffer)%nat.
Qed.

Lemma replay_all_phase l s ph : replay_all l {| s with sb_phase := ph |} = (let s' := replay_all l s in {| s' with sb_phase := ph |}).
Proof.
  revert s. induction l as [|x l IH]; intros s; [done|]. unfold replay_all in *. cbn [foldl]. rewrite push_phase. cbv zeta. apply IH.
Qed.

Lemma replay_run cfg evs h id s :
  hb_subs h !! id = Some s → sb_phase s = Replaying evs →
  ∃ h', run cfg (replicate (S (length evs)) (AReplayPush id)) h = Some h' ∧
    hb_subs h' !! id = Some (let s' := replay_all evs s in {| s' with sb_phase := Opened |}).
Proof.
  revert h s. induction evs as [|ev evs IH]; intros h s Hs Hp; cbn [length replicate run step]; rewrite Hs; cbn [mbind option_bind]; rewrite Hp.
  - eexists. split; [reflexivity|]. apply lookup_insert_eq.
  - set (s1 := {| s with sb_phase := Replaying evs |}). set (h1 := put_sub id (fst (push ev s1)) h).
    pose proof (push_phase ev s (Replaying evs)) as Es. fold s1 in Es.
    destruct (IH h1 (fst (push ev s1))) as (h' & Hr & Hs'); [apply lookup_insert_eq|by rewrite Es|]. exists h'. split; [exact Hr|]. rewrite Hs'. f_equal.
    cbn [replay_all foldl]. fold (replay_all evs (fst (push ev s))). rewrite Es. clear.
    cbv zeta. by rewrite replay_all_phase.
Qed.

Lemma sorted_last_le l x : StronglySorted (λ a b, Less a b = true) l → x ∈ l → ∀ y, last l = Some y → x = y ∨ Less x y = true.
Proof.
  intros Hs. induction Hs as [|z l Hs IH Hz]; intros Hx y Hy; [by apply elem_of_nil in Hx|]. destruct l as [|w l]; cbn [last] in Hy.
  - injection Hy as <-. apply list_elem_of_singleton in Hx. by left.
  - apply elem_of_cons in Hx as [->|Hx]; [|by apply IH]. right. rewrite Forall_forall in Hz. apply Hz. by apply last_Some_elem_of.
Qed.

Lemma sorted_split n l x : StronglySorted (λ a b, Less a b = true) l → x ∈ take n l → x ∈ drop n l → False.
Proof.
  intros Hs. revert n. induction Hs as [|z l Hs IH Hz]; intros [|n] H1 H2; cbn in *; try by apply elem_of_nil in H1.
  apply elem_of_cons in H1 as [->|H1]; [|by eapply IH]. rewrite Forall_forall in Hz. apply subseteq_drop in H2. specialize (Hz _ H2).
  by rewrite Less_irrefl in Hz.
Qed.

Lemma ids_nonempty l : Forall (λ ev, ev_ID ev ≠ "") l → ids l = ev_ID <$> l.
Proof. induction 1 as [|ev l Hev _ IH]; [done|]. change (ev :: l) with ([ev] ++ l). rewrite ids_app, ids_one, IH. destruct (is_empty (ev_ID ev)) eqn:E; [|done]. by apply is_empty_spec in E. Qed.

(** C39: a replay of more events than the connection buffer holds loses the
    rest for good: nobody reads while [Subscribe] still replays, so the
    subscription opens with the oldest [connBuffer] events, is neither closed
    nor reset, and whatever happens afterwards never receives the others. *)
Theorem replay_loses_overflow c h id s evs :
  reachable (NewHub_config c) h → hb_subs h !! id = Some s → sb_phase s = Replaying evs → sb_closed s = false → hist s = [] → sb_last s = "" →
  Forall (λ ev, ev_ID ev ≠ "") evs → StronglySorted (λ a b, Less a b = true) (ev_ID <$> evs) → (connBuffer < length evs)%nat →
  ∃ h' s', run (NewHub_config c) (replicate (S (length evs)) (AReplayPush id)) h = Some h' ∧ hb_subs h' !! id = Some s' ∧
    sb_phase s' = Opened ∧ sb_closed s' = false ∧ hist s' = take connBuffer evs ∧
    ∀ acts h'' s'' ev, run (NewHub_config c) acts h' = Some h'' → hb_subs h'' !! id = Some s'' → ev ∈ drop connBuffer evs → ev_ID ev ∉ ids (hist s'').
Proof.
  intros [Ha _]%reachable_inv Hs Hp Hc Hh Hl Hne Hso Hlen.
  destruct (replay_run (NewHub_config c) evs h id s Hs Hp) as (h' & Hr & Hs').
  pose proof (run_accounted _ _ _ _ Ha Hr) as Ha'.
  assert (Hch : sb_ch s = [] ∧ sb_read s = []) by (by apply app_eq_nil in Hh as [? ?]). destruct Hch as [Hch Hrd].
  rewrite replay_all_full in Hs'; [|done|eapply Forall_impl; [exact Hne|]; cbn; auto|done].
  destruct (last (ev_ID <$> evs)) as [L|] eqn:EL; [|apply last_None, fmap_nil_inv in EL; subst; cbn in Hlen; lia].
  cbv zeta in Hs'. set (s' := {| sb_tenant := _ |}) in Hs'. exists h', s'.
  assert (Hh' : hist s' = take connBuffer evs) by (unfold hist; cbn [s' sb_read sb_ch]; by rewrite Hrd, Hch, Nat.sub_0_r).
  split_and!; [exact Hr|exact Hs'|done|done|exact Hh'|].
  intros acts h'' s'' ev Hrun Hs'' Hev Hin.
  assert (HL : L ∈ ev_ID <$> evs) by (by apply last_Some_elem_of).
  destruct (run_after c acts h' h'' id s' L (ids (hist s')) Ha' Hrun Hs') as (s2 & E2 & _ & _ & new & En & Hn).
  { split_and!; [|by left|exists []; rewrite app_nil_r; by split]. cbn. apply list_elem_of_fmap in HL as (x & -> & Hx). rewrite Forall_forall in Hne. by apply Hne. }
  rewrite Hs'' in E2. injection E2 as <-. rewrite En, Hh' in Hin.
  assert (Hdrop : ev_ID ev ∈ drop connBuffer (ev_ID <$> evs)) by (rewrite <- fmap_drop; by apply list_elem_of_fmap_2).
  apply elem_of_app in Hin as [Hin|Hin].
  - rewrite ids_nonempty, fmap_take in Hin by (by apply Forall_take). by eapply sorted_split.
  - rewrite Forall_forall in Hn. specialize (Hn _ Hin). destruct (sorted_last_le _ (ev_ID ev) Hso (subseteq_drop _ _ _ Hdrop) L EL) as [E|Hlt].
    + rewrite E, Less_irrefl in Hn. done.
    + pose proof (Less_trans _ _ _ Hn Hlt) as Hloop. by rewrite Less_irrefl in Hloop.
Qed.
