(* ===== verification/StreamExamples.v ===== *)
(** * The realtime hub: concrete runs

    Two subscribers of one tenant, a replay of more events than the buffer
    holds, and a replay overtaken by a live event. *)

From S2P Require Import Prelude GoText Models Store HostNorm Stream StreamProps StreamOrder.

Definition exs_config : Config :=
  {| hc_ReplayWindow := 0; hc_StreamsPerUser := 0; hc_StreamsPerTenant := 0; hc_MaxLen := 0; hc_TrimInterval := 0; hc_ReadBlock := 0; hc_RetryDelay := 0 |}.
Notation exs_cfg := (NewHub_config exs_config).
Definition exs_new : Hub := NewHub (unix_epoch * 1000000000).
Definition exs_pub (to : list string) : action := APublish "t1" to (is_nil to) "scan.completed" (DataRaw "{}") false.

(** ** Two subscribers *)

Definition exs_two : list action :=
  [ASubscribe "t1" "u1" ""; ASubscribe "t1" "u2" ""; ASubscribe "t2" "u1" ""; exs_pub []; exs_pub ["u2"%string]; ARead 0; ADispatch 0; APush 0; APush 0;
   AReceive 0; ADispatch 0; APush 0].
Definition exs_state (acts : list action) : Hub := default exs_new (run exs_cfg acts exs_new).
Definition exs_hist (h : Hub) (id : nat) : list string := match hb_subs h !! id with Some s => ev_ID <$> hist s | None => [] end.

Lemma exs_runs acts : is_some (run exs_cfg acts exs_new) = true → run exs_cfg acts exs_new = Some (exs_state acts).
Proof. unfold exs_state. by destruct (run _ _ _). Qed.

Lemma exs_two_runs : run exs_cfg exs_two exs_new = Some (exs_state exs_two).
Proof. apply exs_runs. vm_compute. reflexivity. Qed.

Lemma hub_invariant_witness :
  reachable exs_cfg (exs_state exs_two) ∧ hub_ok exs_config (exs_state exs_two) ∧
  exs_hist (exs_state exs_two) 0 = ["0-1"]%string ∧ exs_hist (exs_state exs_two) 1 = ["0-1"; "0-2"]%string ∧ exs_hist (exs_state exs_two) 2 = [].
Proof.
  assert (Hr : reachable exs_cfg (exs_state exs_two)) by (eapply run_reachable; [apply (reach_new _ (unix_epoch * 1000000000))|exact exs_two_runs]).
  split; [exact Hr|]. split; [exact (hub_invariant exs_config _ Hr)|]. vm_compute. done.
Defined.

(** ** A long replay *)

Definition exs_long : list action := replicate 34 (exs_pub []) ++ [ASubscribe "t1" "u1" "0-1"; AReplayRead 0].
Definition exs_long_sub : Subscription :=
  default {| sb_tenant := ""; sb_user := ""; sb_ch := []; sb_last := ""; sb_closed := true; sb_phase := Opened; sb_read := [] |} (hb_subs (exs_state exs_long) !! O).
Definition exs_missed : list Event := match sb_phase exs_long_sub with Replaying l => l | _ => [] end.

Lemma exs_long_runs : run exs_cfg exs_long exs_new = Some (exs_state exs_long).
Proof. apply exs_runs. vm_compute. reflexivity. Qed.
Lemma exs_long_stored : hb_subs (exs_state exs_long) !! O = Some exs_long_sub.
Proof. vm_compute. reflexivity. Qed.
Lemma exs_long_phase : sb_phase exs_long_sub = Replaying exs_missed ∧ sb_closed exs_long_sub = false ∧ hist exs_long_sub = [] ∧ sb_last exs_long_sub = ""%string.
Proof. vm_compute. done. Qed.
Lemma exs_missed_count : length exs_missed = 33%nat.
Proof. vm_compute. reflexivity. Qed.
Lemma exs_missed_named : forallb (λ ev, negb (is_empty (ev_ID ev))) exs_missed = true.
Proof. vm_compute. reflexivity. Qed.
Fixpoint increasing (l : list string) : bool := match l with a :: ((b :: _) as l') => Less a b && increasing l' | _ => true end.
Lemma increasing_sorted l : increasing l = true → StronglySorted (λ a b, Less a b = true) l.
Proof.
  intros Hi. apply Sorted_StronglySorted; [intros a b d; apply Less_trans|]. induction l as [|a [|b l] IH]; [constructor|repeat constructor|].
  cbn [increasing] in Hi. bool_hyps. constructor; [by apply IH|by constructor].
Qed.
Lemma exs_missed_increasing : increasing (ev_ID <$> exs_missed) = true.
Proof. vm_compute. reflexivity. Qed.

Lemma replay_loses_overflow_witness :
  ∃ h' s', run exs_cfg (replicate 34 (AReplayPush 0)) (exs_state exs_long) = Some h' ∧ hb_subs h' !! O = Some s' ∧ sb_phase s' = Opened ∧ length (hist s') = 32%nat.
Proof.
  destruct exs_long_phase as (Hp & Hc & Hh & Hl).
  destruct (replay_loses_overflow exs_config (exs_state exs_long) 0 exs_long_sub exs_missed) as (h' & s' & Hr & Hs & Ho & _ & Hhist & _).
  - eapply run_reachable; [apply (reach_new _ (unix_epoch * 1000000000))|exact exs_long_runs].
  - exact exs_long_stored.
  - exact Hp.
  - exact Hc.
  - exact Hh.
  - exact Hl.
  - apply Forall_forall. intros ev Hev E. pose proof exs_missed_named as Hn. rewrite forallb_forall in Hn. apply list_elem_of_In in Hev. apply Hn in Hev. by rewrite E in Hev.
  - exact (increasing_sorted _ exs_missed_increasing).
  - rewrite exs_missed_count. unfold connBuffer. lia.
  - rewrite exs_missed_count in Hr. exists h', s'. split; [exact Hr|]. split; [exact Hs|]. split; [exact Ho|]. rewrite Hhist, length_take, exs_missed_count. reflexivity.
Defined.

(** ** A replay overtaken *)

(** The second entry is missed, the third is published while the subscriber
    has not read its replay yet. *)
Definition exs_overtake : list action :=
  [exs_pub []; exs_pub []; ASubscribe "t1" "u1" "0-1"; exs_pub []; ARead 0; ADispatch 0; APush 0; AReplayRead 0; AReplayPush 0; AReplayPush 0; AReplayPush 0].

Definition exs_overtaken : bool :=
  match run exs_cfg exs_overtake exs_new with
  | Some h =>
      match hb_subs h !! O with
      | Some s => negb (sb_closed s) && match sb_phase s with Opened => true | _ => false end &&
                  bool_decide (ev_ID <$> hist s = ["0-3"]%string) &&
                  bool_decide (en_ID <$> List.filter (λ e, Less "0-1" (en_ID e)) (logged (hb_log h) (Key "t1")) = ["0-2"; "0-3"]%string)
      | None => false
      end
  | None => false
  end.
Lemma exs_overtaken_true : exs_overtaken = true.
Proof. vm_compute. reflexivity. Qed.

(** A live event that reaches a new subscription before its replay is
    pushed makes the whole replay look already delivered: the subscription
    opens, without a reset, having received only the live event. *)
Theorem replay_overtaken :
  ∃ h s, run exs_cfg exs_overtake exs_new = Some h ∧ hb_subs h !! O = Some s ∧ sb_phase s = Opened ∧ sb_closed s = false ∧
    ev_ID <$> hist s = ["0-3"]%string ∧ en_ID <$> List.filter (λ e, Less "0-1" (en_ID e)) (logged (hb_log h) (Key "t1")) = ["0-2"; "0-3"]%string.
Proof.
  pose proof exs_overtaken_true as E. unfold exs_overtaken in E. destruct (run exs_cfg exs_overtake exs_new) as [h|]; [|done].
  destruct (hb_subs h !! O) as [s|] eqn:Es; [|done]. exists h, s. apply andb_true_iff in E as [E E4%bool_decide_eq_true]. apply andb_true_iff in E as [E E3%bool_decide_eq_true].
  apply andb_true_iff in E as [E1%negb_true_iff E2]. by destruct (sb_phase s).
Qed.
